(* ===== verification/_CoqProject ===== *)
-Q . S2P
Prelude.v
Double.v
Bwe.v
Srtp.v
SrtpReplay.v
SrtpSession.v
SrtpStreams.v
SrtpAuth.v
SrtpWitness.v
Srtcp.v
RtpExt.v
Rtp.v
Rtcp.v
RtcpFb.v
Twcc.v
RateControl.v
TimerSched.v
Probe.v
U32Map.v
StrMap.v
Vec.v
NackBuf.v
RtpDemux.v
Stun.v
StunSpec.v
Text.v
PacketIo.v
Scanf.v
Candidate.v
Sdp.v
InetModel.v
SdpSpec.v
Dtls.v
Listener.v
ListenerSpec.v
Transport.v
TransportSpec.v
TransportModel.v
TransportIce.v
Vp8.v
JitterBuffer.v
Interceptor.v
RtpStream.v
MediaSession.v
TransportSession.v
Worker.v
DataChannel.v
DataChannelSpec.v
Routing.v
RoutingSpec.v
Track.v
ClientRuntime.v
Peer.v
PeerSpec.v
PeerStart.v
SigMsg.v
