(* ===== verification/Prelude.v ===== *)
(** * Verification of mrtc, a small WebRTC stack in C

    mrtc connects two applications (or an application and a forwarding server)
    for audio, video and data.  The parts of the program, from the bottom:

    - common/src: a hash map from uint32_t ([rtc_u32_map]), a hash map from
      strings ([rtc_str_map]), a dynamic array ([rtc_vec]), addresses;
    - rtc/src: the protocols.  A worker ([rtc_worker]) runs an event loop with
      timers ([rtc_timer_sched]); a listener ([rtc_listener]) owns a UDP socket
      ([rtc_packet_io]) and routes each datagram to a transport
      ([rtc_transport]), which finds its peer with ICE checks ([rtc_stun]),
      negotiates keys ([rtc_dtls]), protects packets ([rtc_srtp]), hands inbound
      RTP to the stream of its SSRC ([rtc_rtp_demux]) and estimates the bandwidth
      ([rtc_twcc_*], [rtc_bwe]).  A media session ([rtc_media_session]) feeds
      RTCP ([rtc_rtcp], [rtc_interceptor]) to send and receive streams
      ([rtc_rtp_stream]) with their retransmission buffer ([rtc_nack_buf]) and
      rate control ([rtc_rate_control]).  [rtc_sdp] writes and reads session
      descriptions;
    - client/src: peer connections ([rtc_peer]) with tracks ([rtc_track]), data
      channels ([rtc_data_channel]) and a pool of shared workers and listeners
      ([rtc_client_runtime]);
    - routing/src: routers, producers and consumers of a forwarding server;
    - media/src: the jitter buffer and the VP8 payload format; codecs, capture
      and display are calls of other libraries;
    - signaling/src: the messages of the signaling protocol.

    ** How the code is modelled

    Each function of the source is a definition with its name; a loop or a block
    that needs a lemma of its own is a definition of its own.  Integers are [Z]
    with every wrap written out ([u16], [s32], ...); a signed overflow, a read
    or write out of bounds, the use of freed memory, a conversion that C leaves
    undefined is [Fault], an error code is [Err], a result is [Ok] (type [res]).
    Stateful code is a function [S -> S * res A] ([st S A]), so that state
    changes made before an error remain visible.  Buffers are lists of bytes.
    Where aliasing matters (slots of the jitter buffer, data channels, streams,
    producers and consumers, client runtimes) objects live in a finite map from
    addresses and pointers are keys of it.  A mutex makes its critical section
    one step; the interleavings of the worker's loop with its callers are a step
    relation.  The results of malloc and of the system, clocks and random numbers
    are arguments and universally quantified.

    Code outside the repository is a type class of its functions, with a second
    class for the documented laws that a theorem uses and an instance that has
    them: OpenSSL's ciphers ([Srtp.Evp], [Srtp.EvpLaws], model in SrtpWitness),
    its DTLS ([Dtls.OpenSsl], [Dtls.OpenSslLaws], model in TransportModel), HMAC
    and MD5 (parameters of Stun), inet_ntop and inet_pton ([Text.Inet],
    [Text.InetLaws], model in InetModel), the kernel's sockets
    ([PacketIo.Kernel]), cJSON ([SigMsg.CJson], [SigMsg.CJsonLaws], model in
    SigMsg).  Components meet at classes too: [U32Map] implements the map
    interface the demultiplexer is proved against, [Transport] implements what
    streams and sessions need of a transport (TransportSession).

    ** Files

    - Prelude: integers, bytes, [res] and [st] with their notations and tactics,
      the hint databases, lemmas on lists and maps.  Double: IEEE binary64.
    - Srtp (rtc_srtp.c), SrtpReplay, SrtpSession, SrtpStreams, SrtpAuth, Srtcp,
      SrtpWitness: the replay window accepts what a reference with the full
      history accepts; contexts with the same keys exchange packets across
      sequence-number wraps; nothing changes without a valid tag; accepted
      packets are not accepted again; IVs are not repeated.
    - RtpExt (rtc_rtp_ext.c), Rtp (rtc_rtp.c), Rtcp and RtcpFb (rtc_rtcp.c), Twcc
      (rtc_twcc_receiver.c, rtc_twcc_sender.c, its parser in rtc_rtcp.c), Vp8
      (vp8_packetizer.c), Stun and StunSpec (rtc_stun.c), Text, Scanf, Candidate,
      Sdp, InetModel, SdpSpec (rtc_sdp.c, rtc_common.c), SigMsg
      (signaling_msg.c): what is built is parsed to what it was built from, for
      all valid values; parsers stay within their input on any input.
    - Bwe (rtc_bwe.c), RateControl (rtc_rate_control.c): estimates stay in their
      limits and conversions are defined.
    - TimerSched (rtc_timer_sched.c), Probe, U32Map, StrMap (the hash maps), Vec
      (rtc_vec.c), NackBuf (rtc_nack_buf.c), RtpDemux (rtc_rtp_demux.c),
      Interceptor (rtc_interceptor.c): refinement of a multiset of timers, a
      finite map, a list, a window of recent packets, on every sequence of calls.
    - JitterBuffer (jitter_buffer.c): memory safety, bounds and reordering.
    - PacketIo (rtc_packet_io.c), Listener and ListenerSpec (rtc_listener.c): a
      datagram reaches the transport a map of registrations names.
    - Dtls (rtc_dtls.c), Transport, TransportSpec, TransportIce, TransportModel,
      TransportSession (rtc_transport.c): two transports find each other; media
      sent by one arrives at the other; checks end; what closing leaves behind.
    - RtpStream (rtc_rtp_stream.c), MediaSession (rtc_media_session.c): a NACK
      makes the right stream resend the right packets; compound RTCP is split
      and dispatched; bundled streams are told apart.
    - Worker (rtc_worker.c): tasks run once, in order, and callers return.
    - DataChannel, DataChannelSpec (rtc_data_channel.c): safety of the channel
      table against any peer; opening and delivery over an ideal link.
    - Routing, RoutingSpec (routing/src): safety of the graph, and the fan-out.
    - Track (rtc_track.c), ClientRuntime (rtc_client_runtime.c), Peer, PeerSpec,
      PeerStart (rtc_peer.c): two new peers negotiate and begin to connect; the
      pool frees a runtime with its last holder.

    Some theorems state a defect: an authentication check that reads past its
    buffer, a remote address taken without authentication, data channels of both
    sides that merge or are lost.  Lemmas beside them show further ones (the
    rollover counter after an eviction, jitter and round-trip arithmetic that
    wraps, large deltas of the feedback, extmap lines with a direction).

    ** Bounds

    Recursion is structural or has fuel that the theorems show to be enough: the
    length of the input (STUN attributes, SDP lines, RTCP compounds, CRC), the
    capacity of a table (probing), the size of the heap (sifting), two rounds of
    the skip loop of the jitter buffer.  Theorems name the bounds the code needs:
    SRTP indices that advance by less than 2^15 and at most eight SSRCs, a clock
    below 2^24 * 64 ms for the feedback, runs below 2^26 ms for the jitter buffer,
    fewer than 2^56 calls on a hash map, bursts below 2.5 MB for the estimator.

    ** Not modelled

    The poller, mutexes and threads themselves (see Worker), socket options, the
    receive path of systems without recvmmsg, the blocking TURN client and the
    ICE agent of rtc_ice.c that no other part uses, functions that only free or
    print, NULL arguments that no caller passes, codecs, the media pipeline, the
    signaling client and server around libwebsockets, conference and
    applications.  The accessors that return a field are that field. *)

From Stdlib Require Import ZArith Lia.
From stdpp Require Import base list numbers strings gmap fin_maps.

Declare Scope mrtc_scope.
Delimit Scope mrtc_scope with mrtc.
#[local] Open Scope Z_scope.

(** ** Fixed-width integers

    A C integer of width [w] is a [Z]; every cast or wrapping operation of the
    source is written out with one of these. *)

Definition u8 (x : Z) : Z := x mod 2 ^ 8.
Definition u16 (x : Z) : Z := x mod 2 ^ 16.
Definition u32 (x : Z) : Z := x mod 2 ^ 32.
Definition u64 (x : Z) : Z := x mod 2 ^ 64.

(** Two's-complement reinterpretation at width [w]. *)
Definition sint (w x : Z) : Z :=
  let y := x mod 2 ^ w in if y <? 2 ^ (w - 1) then y else y - 2 ^ w.
Definition s8 (x : Z) : Z := sint 8 x.
Definition s16 (x : Z) : Z := sint 16 x.
Definition s32 (x : Z) : Z := sint 32 x.
Definition s64 (x : Z) : Z := sint 64 x.

Definition SIZE_MAX : Z := 2 ^ 64 - 1.
Definition INT_MAX : Z := 2 ^ 31 - 1.

(** ** Error codes (common/include/rtc/rtc_common.h) *)

Inductive rtc_err_t :=
  | RTC_OK | RTC_ERR_GENERIC | RTC_ERR_NOMEM | RTC_ERR_SOCKET | RTC_ERR_TIMEOUT
  | RTC_ERR_INVALID | RTC_ERR_SSL | RTC_ERR_SRTP | RTC_ERR_ICE | RTC_ERR_SDP.

#[export] Instance rtc_err_eq_dec : EqDecision rtc_err_t.
Proof. solve_decision. Defined.

(** ** Results of C code

    [Ok a]: the function returns normally with [a]; [Err e]: it returns the
    error code [e]; [Fault]: the C behaviour is undefined (a read or write out
    of bounds) or a loop did not end within its fuel.  A theorem that a call
    is [Ok] or [Err] is therefore also a memory-safety and termination
    statement. *)

Inductive res (A : Type) :=
  | Ok (a : A)
  | Err (e : rtc_err_t)
  | Fault.
Arguments Ok {A} a.
Arguments Err {A} e.
Arguments Fault {A}.

#[export] Instance res_ret : MRet res := fun A a => Ok a.
#[export] Instance res_bind : MBind res := fun A B f r =>
  match r with Ok a => f a | Err e => Err e | Fault => Fault end.
#[export] Instance res_fmap : FMap res := fun A B f r =>
  match r with Ok a => Ok (f a) | Err e => Err e | Fault => Fault end.

(** [if (b) return e;] *)
Definition fail_if (b : bool) (e : rtc_err_t) : res unit :=
  if b then Err e else Ok ().

(** an access that is undefined when [b] holds *)
Definition fault_if (b : bool) : res unit := if b then Fault else Ok ().

Definition is_ok {A} (r : res A) : bool := match r with Ok _ => true | _ => false end.
Definition no_fault {A} (r : res A) : Prop := r <> Fault.

(** ** Byte buffers

    A buffer is the list of its bytes; offsets and lengths are [Z] like the
    [size_t] of the source.  Reads are checked. *)

Abbreviation bytes := (list Z).

Definition blen {A} (d : list A) : Z := Z.of_nat (length d).

Definition byte_ok (b : Z) : Prop := 0 <= b < 256.
Definition bytes_ok (d : bytes) : Prop := Forall byte_ok d.

(** [d[i]] *)
Definition rd {A} (d : list A) (i : Z) : res A :=
  if i <? 0 then Fault
  else match d !! Z.to_nat i with Some b => Ok b | None => Fault end.

(** [memcpy(dst, d + off, n)]: the [n] bytes read *)
Definition sub {A} (d : list A) (off n : Z) : res (list A) :=
  if (off <? 0) || (n <? 0) || (blen d <? off + n) then Fault
  else Ok (take (Z.to_nat n) (drop (Z.to_nat off) d)).

(** [d[i] = x] *)
Definition wr {A} (d : list A) (i : Z) (x : A) : res (list A) :=
  if (i <? 0) || (blen d <=? i) then Fault
  else Ok (<[Z.to_nat i := x]> d).

(** Big-endian loads and stores, as [read_u16] / [write_u16] and friends of
    rtc_rtcp.c and rtc_stun.c. *)
Definition rd_u16 (d : bytes) (off : Z) : res Z :=
  a ← rd d off; b ← rd d (off + 1);
  Ok (Z.lor (Z.shiftl a 8) b).

Definition rd_u32 (d : bytes) (off : Z) : res Z :=
  a ← rd d off; b ← rd d (off + 1); c ← rd d (off + 2); e ← rd d (off + 3);
  Ok (Z.lor (Z.lor (Z.lor (Z.shiftl a 24) (Z.shiftl b 16)) (Z.shiftl c 8)) e).

Definition be16 (v : Z) : bytes := [Z.land (Z.shiftr v 8) 255; Z.land v 255].
Definition be32 (v : Z) : bytes :=
  [Z.land (Z.shiftr v 24) 255; Z.land (Z.shiftr v 16) 255;
   Z.land (Z.shiftr v 8) 255; Z.land v 255].

(** ** Lemmas on the result monad *)

Create HintDb mrtc.
Create HintDb mrtc_safe.

Lemma bind_Ok {A B} (r : res A) (f : A -> res B) b :
  (r ≫= f) = Ok b <-> exists a, r = Ok a /\ f a = Ok b.
Proof. destruct r; simpl; naive_solver. Qed.

Lemma Ok_inj {A} (x y : A) : Ok x = Ok y -> x = y.
Proof. congruence. Qed.

Lemma fail_if_Ok b e x : fail_if b e = Ok x <-> b = false.
Proof. destruct b, x; simpl; naive_solver. Qed.

Lemma no_fault_bind {A B} (r : res A) (f : A -> res B) :
  no_fault r -> (forall a, r = Ok a -> no_fault (f a)) -> no_fault (r ≫= f).
Proof. unfold no_fault; destruct r; simpl; naive_solver. Qed.

Lemma no_fault_Ok {A} (a : A) : no_fault (Ok a).
Proof. done. Qed.

Lemma no_fault_Err {A} e : no_fault (@Err A e).
Proof. done. Qed.

Lemma no_fault_fail_if b e : no_fault (fail_if b e).
Proof. destruct b; done. Qed.

Lemma fault_if_Ok b x : fault_if b = Ok x <-> b = false.
Proof. destruct b, x; simpl; naive_solver. Qed.

Lemma no_fault_fault_if b : b = false -> no_fault (fault_if b).
Proof. by intros ->. Qed.

Lemma bind_Ok_l {A B} (r : res A) (f : A -> res B) a : r = Ok a -> (r ≫= f) = f a.
Proof. by intros ->. Qed.

(** ** Arithmetic of bytes and words *)

Lemma land_255 x : Z.land x 255 = x mod 256.
Proof. change 255 with (Z.ones 8). by rewrite Z.land_ones. Qed.

Lemma lor_shiftl_add a b n :
  0 <= n -> 0 <= b < 2 ^ n -> Z.lor (Z.shiftl a n) b = a * 2 ^ n + b.
Proof.
  intros Hn Hb. rewrite <-Z.shiftl_mul_pow2 by lia.
  rewrite Z.lor_comm, <- Z.add_nocarry_lor; [lia|].
  apply Z.bits_inj_iff'; intros i Hi. rewrite Z.land_spec, Z.bits_0.
  destruct (Z.lt_ge_cases i n).
  - rewrite Z.shiftl_spec_low by lia. apply andb_false_r.
  - rewrite <-(Z.mod_small b (2 ^ n)) by lia.
    by rewrite Z.mod_pow2_bits_high by lia.
Qed.

Lemma blen_nonneg {A} (d : list A) : 0 <= blen d.
Proof. unfold blen; lia. Qed.

Lemma blen_app {A} (a b : list A) : blen (a ++ b) = blen a + blen b.
Proof. unfold blen; rewrite length_app; lia. Qed.

Lemma blen_cons {A} (x : A) d : blen (x :: d) = 1 + blen d.
Proof. unfold blen; simpl length; lia. Qed.

Lemma blen_nil {A} : blen (@nil A) = 0.
Proof. done. Qed.

Lemma rd_Ok {A} (d : list A) i b :
  rd d i = Ok b <-> 0 <= i /\ d !! Z.to_nat i = Some b.
Proof.
  unfold rd. destruct (Z.ltb_spec i 0); [naive_solver lia|].
  destruct (d !! Z.to_nat i); naive_solver.
Qed.

Lemma rd_in_range {A} (d : list A) i : 0 <= i < blen d -> exists b, rd d i = Ok b.
Proof.
  unfold blen; intros Hi. destruct (lookup_lt_is_Some_2 d (Z.to_nat i)) as [b Hb]; [lia|].
  exists b. apply rd_Ok; auto with lia.
Qed.

Lemma no_fault_rd {A} (d : list A) i : 0 <= i < blen d -> no_fault (rd d i).
Proof. intros Hi; destruct (rd_in_range d i Hi) as [b ->]; done. Qed.

Lemma rd_fault {A} (d : list A) i : blen d <= i -> rd d i = Fault.
Proof.
  unfold rd, blen; intros Hi. destruct (Z.ltb_spec i 0); [done|].
  by rewrite lookup_ge_None_2 by lia.
Qed.

Lemma rd_byte d i b : bytes_ok d -> rd d i = Ok b -> byte_ok b.
Proof. intros Hd [_ Hb]%rd_Ok. by eapply Forall_lookup_1 in Hd. Qed.

Lemma rd_app_l {A} (a b : list A) i : i < blen a -> rd (a ++ b) i = rd a i.
Proof.
  unfold rd, blen; intros Hi. destruct (Z.ltb_spec i 0); [done|].
  by rewrite lookup_app_l by lia.
Qed.

Lemma rd_app_r {A} (a b : list A) i : blen a <= i -> rd (a ++ b) i = rd b (i - blen a).
Proof.
  unfold rd, blen; intros Hi. destruct (Z.ltb_spec i 0); [lia|].
  destruct (Z.ltb_spec (i - Z.of_nat (length a)) 0); [lia|].
  rewrite lookup_app_r by lia. by replace (Z.to_nat (i - Z.of_nat (length a)))
    with (Z.to_nat i - length a)%nat by lia.
Qed.

Lemma sub_Ok {A} (d : list A) off n :
  0 <= off -> 0 <= n -> off + n <= blen d ->
  sub d off n = Ok (take (Z.to_nat n) (drop (Z.to_nat off) d)).
Proof.
  intros. unfold sub.
  destruct (Z.ltb_spec off 0), (Z.ltb_spec n 0), (Z.ltb_spec (blen d) (off + n));
    simpl; auto; lia.
Qed.

Lemma sub_inv {A} (d : list A) off n x :
  sub d off n = Ok x ->
  0 <= off /\ 0 <= n /\ off + n <= blen d /\
  x = take (Z.to_nat n) (drop (Z.to_nat off) d).
Proof.
  unfold sub.
  destruct (Z.ltb_spec off 0), (Z.ltb_spec n 0), (Z.ltb_spec (blen d) (off + n));
    simpl; intros; simplify_eq; repeat split; auto with lia.
Qed.

Lemma no_fault_sub {A} (d : list A) off n :
  0 <= off -> 0 <= n -> off + n <= blen d -> no_fault (sub d off n).
Proof. intros; rewrite sub_Ok by auto; done. Qed.

Lemma sub_length {A} (d : list A) off n x : sub d off n = Ok x -> blen x = n.
Proof.
  intros (? & ? & ? & ->)%sub_inv. unfold blen in *.
  rewrite length_take, length_drop. lia.
Qed.

(** the slice [mid] of [pre ++ mid ++ post] *)
Lemma sub_mid {A} (pre mid post : list A) off n :
  off = blen pre -> n = blen mid -> sub (pre ++ mid ++ post) off n = Ok mid.
Proof.
  intros -> ->. rewrite sub_Ok.
  - unfold blen. rewrite !Nat2Z.id, drop_app_length, take_app_length. done.
  - apply blen_nonneg.
  - apply blen_nonneg.
  - rewrite !blen_app. pose proof (blen_nonneg post). lia.
Qed.

Lemma wr_Ok {A} (d : list A) i x :
  0 <= i < blen d -> wr d i x = Ok (<[Z.to_nat i := x]> d).
Proof.
  intros. unfold wr. destruct (Z.ltb_spec i 0), (Z.leb_spec (blen d) i); simpl; auto; lia.
Qed.

(** [Z.land x m] for a mask [m = 2^n - 1], and shifts, as [mod] and [div]. *)
Lemma land_mask n x m : 0 <= n -> m = Z.ones n -> Z.land x m = x mod 2 ^ n.
Proof. intros ? ->. by apply Z.land_ones. Qed.

Ltac is_pos_const p :=
  match p with
  | xH => idtac
  | xO ?q => is_pos_const q
  | xI ?q => is_pos_const q
  end.
Ltac is_Z_const z :=
  match z with
  | Z0 => idtac
  | Zpos ?p => is_pos_const p
  | Zneg ?p => is_pos_const p
  end.

(** Replace masks and shifts by literals with [mod], [div] and [*]. *)
Ltac bits_to_arith :=
  repeat match goal with
  | |- context [Z.land ?x ?m] =>
      is_Z_const m;
      let n := eval vm_compute in (Z.log2 (m + 1)) in
      rewrite (land_mask n x m) by (vm_compute; congruence)
  | |- context [Z.shiftr ?x ?n] =>
      is_Z_const n; rewrite (Z.shiftr_div_pow2 x n) by lia
  | |- context [Z.shiftl ?x ?n] =>
      is_Z_const n; rewrite (Z.shiftl_mul_pow2 x n) by lia
  end.

(** evaluate [2 ^ literal] *)
Ltac pow_eval :=
  repeat match goal with
  | |- context [2 ^ ?n] =>
      is_Z_const n; let v := eval vm_compute in (2 ^ n) in change (2 ^ n) with v
  | H : context [2 ^ ?n] |- _ =>
      is_Z_const n; let v := eval vm_compute in (2 ^ n) in change (2 ^ n) with v in H
  end.

(** [lia] with [div] and [mod] by literals *)
Ltac dlia := Z.to_euclidean_division_equations; lia.

Ltac solve_arith :=
  unfold u8, u16, u32, u64, byte_ok in *; bits_to_arith; pow_eval; dlia.

Lemma lor16 a b : byte_ok b -> Z.lor (Z.shiftl a 8) b = a * 256 + b.
Proof. intros. by rewrite lor_shiftl_add by (auto; lia). Qed.

Lemma lor32 a b c e :
  byte_ok b -> byte_ok c -> byte_ok e ->
  Z.lor (Z.lor (Z.lor (Z.shiftl a 24) (Z.shiftl b 16)) (Z.shiftl c 8)) e
  = a * 16777216 + b * 65536 + c * 256 + e.
Proof.
  unfold byte_ok; intros Hb Hc He.
  replace (Z.shiftl a 24) with (Z.shiftl (Z.shiftl (Z.shiftl a 8) 8) 8)
    by (rewrite !Z.shiftl_shiftl by lia; done).
  replace (Z.shiftl b 16) with (Z.shiftl (Z.shiftl b 8) 8)
    by (rewrite !Z.shiftl_shiftl by lia; done).
  rewrite <-!Z.shiftl_lor, !lor_shiftl_add by lia. lia.
Qed.

Lemma land_255_byte x : byte_ok (Z.land x 255).
Proof. rewrite land_255. unfold byte_ok. dlia. Qed.
#[export] Hint Resolve land_255_byte : mrtc.

Lemma be16_ok v : bytes_ok (be16 v).
Proof. repeat constructor; apply land_255_byte. Qed.
Lemma be32_ok v : bytes_ok (be32 v).
Proof. repeat constructor; apply land_255_byte. Qed.
#[export] Hint Resolve be16_ok be32_ok : mrtc.

Lemma be16_lor v :
  0 <= v < 2 ^ 16 ->
  Z.lor (Z.shiftl (Z.land (Z.shiftr v 8) 255) 8) (Z.land v 255) = v.
Proof. intros. rewrite lor16 by apply land_255_byte. solve_arith. Qed.

Lemma be32_lor v :
  0 <= v < 2 ^ 32 ->
  Z.lor (Z.lor (Z.lor (Z.shiftl (Z.land (Z.shiftr v 24) 255) 24)
    (Z.shiftl (Z.land (Z.shiftr v 16) 255) 16))
    (Z.shiftl (Z.land (Z.shiftr v 8) 255) 8)) (Z.land v 255) = v.
Proof. intros. rewrite lor32 by apply land_255_byte. solve_arith. Qed.

Lemma rd_u16_app_r (a b : bytes) i :
  blen a <= i -> rd_u16 (a ++ b) i = rd_u16 b (i - blen a).
Proof.
  intros. unfold rd_u16. rewrite !rd_app_r by lia.
  by replace (i + 1 - blen a) with (i - blen a + 1) by lia.
Qed.

Lemma rd_u32_app_r (a b : bytes) i :
  blen a <= i -> rd_u32 (a ++ b) i = rd_u32 b (i - blen a).
Proof.
  intros. unfold rd_u32. rewrite !rd_app_r by lia.
  replace (i + 1 - blen a) with (i - blen a + 1) by lia.
  replace (i + 2 - blen a) with (i - blen a + 2) by lia.
  by replace (i + 3 - blen a) with (i - blen a + 3) by lia.
Qed.

Lemma rd_u16_here v (post : bytes) :
  0 <= v < 2 ^ 16 -> rd_u16 (be16 v ++ post) 0 = Ok v.
Proof. intros. cbv [rd_u16 be16 rd]; simpl. by rewrite be16_lor. Qed.

Lemma rd_u32_here v (post : bytes) :
  0 <= v < 2 ^ 32 -> rd_u32 (be32 v ++ post) 0 = Ok v.
Proof. intros. cbv [rd_u32 be32 rd]; simpl. by rewrite be32_lor. Qed.

Lemma rd_u16_at pre v (post : bytes) off :
  off = blen pre -> 0 <= v < 2 ^ 16 -> rd_u16 (pre ++ be16 v ++ post) off = Ok v.
Proof.
  intros -> ?. rewrite rd_u16_app_r, Z.sub_diag by lia. by apply rd_u16_here.
Qed.

Lemma rd_u32_at pre v (post : bytes) off :
  off = blen pre -> 0 <= v < 2 ^ 32 -> rd_u32 (pre ++ be32 v ++ post) off = Ok v.
Proof.
  intros -> ?. rewrite rd_u32_app_r, Z.sub_diag by lia. by apply rd_u32_here.
Qed.

Lemma rd_u16_inv d off v :
  rd_u16 d off = Ok v ->
  exists a b, rd d off = Ok a /\ rd d (off + 1) = Ok b /\ v = Z.lor (Z.shiftl a 8) b.
Proof. unfold rd_u16. intros (a & ? & (b & ? & ?)%bind_Ok)%bind_Ok. naive_solver. Qed.

Lemma rd_u16_range d off v : bytes_ok d -> rd_u16 d off = Ok v -> 0 <= v < 2 ^ 16.
Proof.
  intros Hd (a & b & Ha%rd_byte & Hb%rd_byte & ->)%rd_u16_inv; auto.
  rewrite lor16 by auto. unfold byte_ok in *. lia.
Qed.

Lemma rd_u32_range d off v : bytes_ok d -> rd_u32 d off = Ok v -> 0 <= v < 2 ^ 32.
Proof.
  intros Hd. unfold rd_u32.
  intros (a & Ha%rd_byte & (b & Hb%rd_byte & (c & Hc%rd_byte & (e & He%rd_byte & [= <-])
    %bind_Ok)%bind_Ok)%bind_Ok)%bind_Ok; auto.
  rewrite lor32 by auto. unfold byte_ok in *. lia.
Qed.

Lemma no_fault_rd_u16 d off : 0 <= off -> off + 2 <= blen d -> no_fault (rd_u16 d off).
Proof.
  intros. unfold rd_u16.
  repeat (apply no_fault_bind; [apply no_fault_rd; lia | intros ? _]). done.
Qed.

Lemma no_fault_rd_u32 d off : 0 <= off -> off + 4 <= blen d -> no_fault (rd_u32 d off).
Proof.
  intros. unfold rd_u32.
  repeat (apply no_fault_bind; [apply no_fault_rd; lia | intros ? _]). done.
Qed.

(** [safe]: discharge a [no_fault] goal by following the binds; every read is
    left with its range side condition, solved by [lia]. *)
Ltac safe_step :=
  match goal with
  | |- no_fault (Ok _) => apply no_fault_Ok
  | |- no_fault (Err _) => apply no_fault_Err
  | |- no_fault (fail_if _ _) => apply no_fault_fail_if
  | |- no_fault (_ ≫= _) =>
      apply no_fault_bind; [| let x := fresh "x" in let H := fresh "Hx" in intros x H]
  | H : fail_if _ _ = Ok _ |- _ => apply fail_if_Ok in H
  | H : fault_if _ = Ok _ |- _ => apply fault_if_Ok in H
  | |- no_fault (fault_if _) => apply no_fault_fault_if
  | |- no_fault (rd _ _) => apply no_fault_rd
  | |- no_fault (rd_u16 _ _) => apply no_fault_rd_u16
  | |- no_fault (rd_u32 _ _) => apply no_fault_rd_u32
  | |- no_fault (sub _ _ _) => apply no_fault_sub
  | |- no_fault (if ?b then _ else _) => let H := fresh "Hif" in destruct b eqn:H
  | |- no_fault (match ?b with _ => _ end) => let H := fresh "Hm" in destruct b eqn:H
  end.
Ltac safe := repeat safe_step; try lia.

(** ** Fallible code that changes a state

    [st S A]: a C function that updates [S] through a pointer and returns a
    [res A].  The updates made before an error return stay. *)

Definition st (S A : Type) : Type := S -> S * res A.
#[export] Instance st_ret S : MRet (st S) := fun A a s => (s, Ok a).
#[export] Instance st_bind S : MBind (st S) := fun A B f m s =>
  match m s with
  | (s', Ok a) => f a s'
  | (s', Err e) => (s', Err e)
  | (s', Fault) => (s', Fault)
  end.
Definition lift {S A} (r : res A) : st S A := fun s => (s, r).
Definition get {S} : st S S := fun s => (s, Ok s).
Definition put {S} (s' : S) : st S unit := fun _ => (s', Ok ()).
Definition modify {S} (f : S -> S) : st S unit := fun s => (f s, Ok ()).

Lemma st_bind_eq {S A B} (m : st S A) (f : A -> st S B) s :
  (m ≫= f) s = match m s with
               | (s', Ok a) => f a s'
               | (s', Err e) => (s', Err e)
               | (s', Fault) => (s', Fault)
               end.
Proof. done. Qed.

Lemma st_bind_lift {S A B} (r : res A) (f : A -> st S B) s a :
  r = Ok a -> (lift r ≫= f) s = f a s.
Proof. by intros ->. Qed.

Lemma lift_inv {S A B} (x : res A) (f : A -> st S B) s s' r :
  (lift x ≫= f) s = (s', r) ->
  (exists a, x = Ok a /\ f a s = (s', r)) \/ (s' = s /\ is_ok r = false).
Proof. rewrite st_bind_eq. destruct x; simpl; intros [=]; subst; eauto. Qed.

Lemma st_bind_Ok {S A B} (m : st S A) (f : A -> st S B) s s' b :
  (m ≫= f) s = (s', Ok b) <-> exists a s1, m s = (s1, Ok a) /\ f a s1 = (s', Ok b).
Proof. rewrite st_bind_eq. destruct (m s) as [s1 []]; naive_solver. Qed.

Lemma lift_Ok {S A} (x : res A) (s s' : S) a : lift x s = (s', Ok a) <-> x = Ok a /\ s' = s.
Proof. unfold lift. naive_solver. Qed.

(** [bytes_ok] by evaluation *)
Definition bytes_okb (d : bytes) : bool := forallb (fun b => (0 <=? b) && (b <? 256)) d.
Lemma bytes_okb_ok d : bytes_okb d = true -> bytes_ok d.
Proof.
  intros Hd. apply Forall_forall. intros b Hb%list_elem_of_In.
  apply (proj1 (forallb_forall _ _) Hd) in Hb. unfold byte_ok. lia.
Qed.

(** step over a guard [if (b) return e;] whose condition [lia] refutes *)
Ltac pass_guard :=
  match goal with
  | |- context [mbind ?k (fail_if ?b ?e)] =>
      rewrite (bind_Ok_l (fail_if b e) k ())
        by (apply fail_if_Ok;
            rewrite ?orb_false_iff, ?negb_false_iff, ?Z.ltb_ge, ?Z.leb_gt, ?Z.eqb_neq; lia)
  | |- context [mbind ?k (fault_if ?b)] =>
      rewrite (bind_Ok_l (fault_if b) k ())
        by (apply fault_if_Ok;
            rewrite ?orb_false_iff, ?negb_false_iff, ?Z.ltb_ge, ?Z.leb_gt, ?Z.eqb_neq; lia)
  end.
(** step over a read whose value is known *)
Ltac step H := rewrite (bind_Ok_l _ _ _ H).

Lemma blen_replicate {A} n (x : A) : blen (replicate n x) = Z.of_nat n.
Proof. unfold blen. by rewrite length_replicate. Qed.
Lemma blen_be16 v : blen (be16 v) = 2.
Proof. done. Qed.
Lemma blen_be32 v : blen (be32 v) = 4.
Proof. done. Qed.
#[export] Hint Rewrite @blen_app @blen_cons @blen_nil @blen_replicate blen_be16 blen_be32 : mrtc_len.
(** lengths of explicit buffers *)
Ltac lens := autorewrite with mrtc_len in *.

Lemma u64_id x : 0 <= x < 2 ^ 64 -> u64 x = x.
Proof. apply Z.mod_small. Qed.
Lemma u32_id x : 0 <= x < 2 ^ 32 -> u32 x = x.
Proof. apply Z.mod_small. Qed.
Lemma u16_id x : 0 <= x < 2 ^ 16 -> u16 x = x.
Proof. apply Z.mod_small. Qed.
Lemma u16_range x : 0 <= u16 x < 2 ^ 16.
Proof. apply Z.mod_pos_bound. lia. Qed.
Lemma u32_range x : 0 <= u32 x < 2 ^ 32.
Proof. apply Z.mod_pos_bound. lia. Qed.

Lemma lor_range n a b :
  0 <= n -> 0 <= a < 2 ^ n -> 0 <= b < 2 ^ n -> 0 <= Z.lor a b < 2 ^ n.
Proof.
  intros Hn Ha Hb. assert (E : Z.lor a b = Z.lor a b mod 2 ^ n); [|rewrite E; apply Z.mod_pos_bound; lia].
  apply Z.bits_inj_iff'; intros i Hi. destruct (Z.lt_ge_cases i n).
  - by rewrite Z.mod_pow2_bits_low by lia.
  - rewrite Z.mod_pow2_bits_high, Z.lor_spec by lia.
    rewrite <-(Z.mod_small a (2 ^ n)), <-(Z.mod_small b (2 ^ n)) by done.
    by rewrite !Z.mod_pow2_bits_high by lia.
Qed.

Lemma rd_u16_in_range d off : 0 <= off -> off + 2 <= blen d -> exists v, rd_u16 d off = Ok v.
Proof.
  intros. destruct (rd_in_range d off) as [a Ha]; [lia|].
  destruct (rd_in_range d (off + 1)) as [b Hb]; [lia|].
  unfold rd_u16. rewrite Ha, Hb. simpl. eauto.
Qed.

Lemma rd_u32_in_range d off : 0 <= off -> off + 4 <= blen d -> exists v, rd_u32 d off = Ok v.
Proof.
  intros. destruct (rd_in_range d off) as [a Ha]; [lia|].
  destruct (rd_in_range d (off + 1)) as [b Hb]; [lia|].
  destruct (rd_in_range d (off + 2)) as [c Hc]; [lia|].
  destruct (rd_in_range d (off + 3)) as [e He]; [lia|].
  unfold rd_u32. rewrite Ha, Hb, Hc, He. simpl. eauto.
Qed.

Lemma testbit_pow2 k i : 0 <= k -> 0 <= i -> Z.testbit (2 ^ k) i = bool_decide (i = k).
Proof.
  intros. destruct (decide (i = k)) as [->|]; [by rewrite bool_decide_eq_true_2, Z.pow2_bits_true|].
  rewrite bool_decide_eq_false_2 by done. apply Z.pow2_bits_false. lia.
Qed.

(** [b & (1 << i)] tests a bit *)
Lemma land_pow2 b i : 0 <= i -> negb (Z.land b (Z.shiftl 1 i) =? 0) = Z.testbit b i.
Proof.
  intros Hi. rewrite Z.shiftl_1_l. destruct (Z.testbit b i) eqn:E.
  - apply negb_true_iff, Z.eqb_neq. intros H0. apply (f_equal (fun z => Z.testbit z i)) in H0.
    rewrite Z.land_spec, E, Z.pow2_bits_true, Z.bits_0 in H0 by done. done.
  - apply negb_false_iff, Z.eqb_eq. apply Z.bits_inj_iff'; intros n Hn.
    rewrite Z.land_spec, Z.bits_0, testbit_pow2 by done.
    destruct (decide (n = i)) as [->|]; [by rewrite E|]. rewrite bool_decide_eq_false_2 by done.
    apply andb_false_r.
Qed.

Lemma testbit_high n a i : 0 <= a < 2 ^ n -> 0 <= n <= i -> Z.testbit a i = false.
Proof.
  intros Ha Hn. rewrite <-(Z.mod_small a (2 ^ n)) by done. by apply Z.mod_pow2_bits_high.
Qed.

Lemma sint_id w x : 0 < w -> - 2 ^ (w - 1) <= x < 2 ^ (w - 1) -> sint w x = x.
Proof.
  intros Hw Hx. unfold sint. assert (E : 2 ^ w = 2 * 2 ^ (w - 1)).
  { rewrite <-Z.pow_succ_r by lia. f_equal. lia. }
  destruct (Z.lt_ge_cases x 0).
  - replace (x mod 2 ^ w) with (x + 2 ^ w).
    + destruct (Z.ltb_spec (x + 2 ^ w) (2 ^ (w - 1))); lia.
    + apply (Z.mod_unique _ _ (-1)); lia.
  - rewrite Z.mod_small by lia. destruct (Z.ltb_spec x (2 ^ (w - 1))); lia.
Qed.

Lemma sint_mod w x : 0 < w -> sint w (x mod 2 ^ w) = sint w x.
Proof. intros. unfold sint. by rewrite Z.mod_mod by (apply Z.pow_nonzero; lia). Qed.

(** ** Error codes *)

(** every error of [r] is [e] *)
Definition err_is {A} (e : rtc_err_t) (r : res A) : Prop := forall e', r = Err e' -> e' = e.

Lemma err_is_bind {A B} e (r : res A) (f : A -> res B) :
  err_is e r -> (forall a, err_is e (f a)) -> err_is e (r ≫= f).
Proof. unfold err_is. destruct r; simpl; naive_solver. Qed.

Lemma err_is_rd {A} e (d : list A) i : err_is e (rd d i).
Proof. unfold err_is, rd. destruct (i <? 0); [done|]. by destruct (d !! _). Qed.

Lemma err_is_Ok {A} e (a : A) : err_is e (Ok a).
Proof. done. Qed.

Lemma err_is_rd_u16 e d i : err_is e (rd_u16 d i).
Proof. repeat (apply err_is_bind; [apply err_is_rd|intros]). apply err_is_Ok. Qed.
Lemma err_is_rd_u32 e d i : err_is e (rd_u32 d i).
Proof. repeat (apply err_is_bind; [apply err_is_rd|intros]). apply err_is_Ok. Qed.

Lemma err_is_fail_if b e : err_is e (fail_if b e).
Proof. unfold err_is. destruct b; simpl; naive_solver. Qed.

(** follow the binds of a reader *)
Ltac errs :=
  repeat (cbv zeta; match goal with
  | |- err_is _ (_ ≫= _) => apply err_is_bind; [|intros]
  | |- err_is _ (rd _ _) => apply err_is_rd
  | |- err_is _ (rd_u16 _ _) => apply err_is_rd_u16
  | |- err_is _ (rd_u32 _ _) => apply err_is_rd_u32
  | |- err_is _ (fail_if _ _) => apply err_is_fail_if
  | |- err_is _ (Ok _) => apply err_is_Ok
  | |- err_is _ (if ?b then _ else _) => destruct b
  | |- err_is _ (let '(_, _) := ?p in _) => destruct p
  end).

(** ** Signed arithmetic *)

(** the value of an [int] expression: signed overflow is undefined *)
Definition int_val (x : Z) : res Z :=
  if (- 2 ^ 31 <=? x) && (x <=? INT_MAX) then Ok x else Fault.

Lemma int_val_Ok x : - 2 ^ 31 <= x <= INT_MAX -> int_val x = Ok x.
Proof.
  intros. unfold int_val. by rewrite (proj2 (Z.leb_le _ _)), (proj2 (Z.leb_le _ _)) by lia.
Qed.

Lemma s16_small x : - 2 ^ 15 <= x < 2 ^ 15 -> s16 x = x.
Proof. intros. apply sint_id; simpl; lia. Qed.

Lemma s32_small x : - 2 ^ 31 <= x < 2 ^ 31 -> s32 x = x.
Proof. intros. apply sint_id; simpl; lia. Qed.

(** a wrapped difference reinterpreted as signed is the small difference *)
Lemma s16_u16_diff a b : - 2 ^ 15 <= a - b < 2 ^ 15 -> s16 (u16 a - u16 b) = a - b.
Proof.
  intros. unfold s16, u16. rewrite <-sint_mod, Zminus_mod_idemp_l, Zminus_mod_idemp_r, sint_mod by lia.
  by apply s16_small.
Qed.

(** ** Composition of state-changing code *)

(** [f] run on the part of the state that [g] reads and [p] replaces *)
Definition zoom {S A B} (g : S -> A) (p : S -> A -> S) (f : st A B) : st S B :=
  fun s => let '(a, r) := f (g s) in (p s a, r).

(** a call whose error code the caller looks at: [None] when it failed *)
Definition attempt {A} (r : res A) : res (option A) :=
  match r with Ok a => Ok (Some a) | Err _ => Ok None | Fault => Fault end.
Definition st_attempt {S A} (f : st S A) : st S (option A) :=
  fun s => let '(s', r) := f s in (s', attempt r).

(** a loop over a list that may stop with an error *)
Fixpoint mfoldl {A W} (f : A -> W -> res W) (l : list A) (w : W) : res W :=
  match l with
  | [] => Ok w
  | a :: l => w ← f a w; mfoldl f l w
  end.

Lemma mfoldl_app {A W} (f : A -> W -> res W) l1 l2 w :
  mfoldl f (l1 ++ l2) w = w ← mfoldl f l1 w; mfoldl f l2 w.
Proof. revert w. induction l1 as [|a l1 IH]; intros w; simpl; [done|]. destruct (f a w); simpl; auto. Qed.

Lemma attempt_inv {A} (r : res A) o :
  attempt r = Ok o -> (exists a, r = Ok a /\ o = Some a) \/ (exists e, r = Err e /\ o = None).
Proof. destruct r; simpl; intros [= <-]; eauto. Qed.

Lemma no_fault_attempt {A} (r : res A) : no_fault r -> no_fault (attempt r).
Proof. by destruct r. Qed.

Lemma st_attempt_Ok {S A} (f : st S A) s s' a :
  f s = (s', Ok a) -> st_attempt f s = (s', Ok (Some a)).
Proof. unfold st_attempt. by intros ->. Qed.

Lemma zoom_eq {S A B} (g : S -> A) (p : S -> A -> S) (f : st A B) s a r :
  f (g s) = (a, r) -> zoom g p f s = (p s a, r).
Proof. unfold zoom. by intros ->. Qed.

Lemma st_bind_run {S A B} (m : st S A) (f : A -> st S B) s s' a :
  m s = (s', Ok a) -> (m ≫= f) s = f a s'.
Proof. rewrite st_bind_eq. by intros ->. Qed.

Lemma st_bind_err {S A B} (m : st S A) (f : A -> st S B) s s' e :
  m s = (s', Err e) -> (m ≫= f) s = (s', Err e).
Proof. rewrite st_bind_eq. by intros ->. Qed.

(** [(void)f(...)]: the return code is ignored *)
Definition void {S A} (f : st S A) : st S unit := _ ← st_attempt f; mret ().

(** a loop of calls *)
Fixpoint st_each {S A} (f : A -> st S unit) (l : list A) : st S unit :=
  match l with
  | [] => mret ()
  | a :: l => _ ← f a; st_each f l
  end.

Lemma void_run {S A} (f : st S A) s s' r :
  f s = (s', r) -> r <> Fault -> void f s = (s', Ok ()).
Proof. intros E Hr. unfold void. rewrite st_bind_eq. unfold st_attempt. rewrite E. by destruct r. Qed.
