(* ===== verification/Double.v ===== *)
(** * C doubles

    The [double] of the C code as IEEE 754 binary64, rounded to nearest even:
    the arithmetic is that of [SpecFloat], at precision 53 and maximal exponent
    1024, so that every operation of the source is evaluated with its rounding.
    The conversion to an unsigned integer is [Fault] where C leaves it
    undefined.  The lemmas bound a result by representable numbers: rounding
    never moves past one. *)

From S2P Require Import Prelude.
From Stdlib Require Import ZArith Lia SpecFloat.
From stdpp Require Import base numbers.
#[local] Open Scope Z_scope.

Module Double.

Definition double : Type := spec_float.

Definition dbl (n : Z) : double := binary_normalize 53 1024 n 0 false.
Definition dadd (x y : double) : double := SFadd 53 1024 x y.
Definition dsub (x y : double) : double := SFsub 53 1024 x y.
Definition dmul (x y : double) : double := SFmul 53 1024 x y.
Definition ddiv (x y : double) : double := SFdiv 53 1024 x y.
Definition dabs (x : double) : double := SFabs x.
Definition dlt (x y : double) : bool := SFltb x y.
Definition deq (x y : double) : bool := SFeqb x y.

(** the literal [num / den], for a decimal fraction *)
Definition lit (num den : Z) : double := ddiv (dbl num) (dbl den).

(** [(uint32_t)x] *)
Definition u32_of_double (x : double) : res Z :=
  match x with
  | S754_zero _ => Ok 0
  | S754_finite s m e =>
      let a := if 0 <=? e then Z.pos m * 2 ^ e else Z.pos m / 2 ^ (- e) in
      let t := if s then - a else a in
      if (0 <=? t) && (t <? 2 ^ 32) then Ok t else Fault
  | _ => Fault
  end.

(** ** Values

    [V m e] is [m * 2 ^ e], scaled to an integer. *)

Definition SC : Z := 3000.
Definition V (m e : Z) : Z := m * 2 ^ (e + SC).

#[local] Ltac lia := assert (SC = 3000) by reflexivity; Lia.lia.
#[local] Ltac nia := assert (SC = 3000) by reflexivity; Lia.nia.

(** canonical mantissas *)
Definition norm (m e : Z) : Prop := 0 < m < 2 ^ 53 /\ -1074 <= e /\ (2 ^ 52 <= m \/ e = -1074).

(** numbers a double can hold (not necessarily canonical) *)
Definition rep (m e : Z) : Prop := 0 <= m < 2 ^ 53 /\ -1074 <= e <= 971.

(** non-negative, at most [M * 2 ^ E] *)
Definition dle (x : double) (M E : Z) : Prop :=
  match x with
  | S754_zero _ => True
  | S754_finite false m e => norm (Z.pos m) e /\ V (Z.pos m) e <= V M E
  | _ => False
  end.

(** positive, at least [M * 2 ^ E] *)
Definition dge (x : double) (M E : Z) : Prop :=
  match x with
  | S754_finite false m e => norm (Z.pos m) e /\ V M E <= V (Z.pos m) e
  | _ => False
  end.

Lemma pow2_pos e : 0 <= e -> 0 < 2 ^ e.
Proof. intros. by apply Z.pow_pos_nonneg. Qed.

Lemma pow2_split a b : 0 <= a <= b -> 2 ^ b = 2 ^ a * 2 ^ (b - a).
Proof. intros. rewrite <-Z.pow_add_r by lia. f_equal. lia. Qed.

(** change of exponent *)
Lemma V_shift m e k : - SC <= e -> 0 <= k -> V m (e + k) = V (m * 2 ^ k) e.
Proof. intros. unfold V. replace (e + k + SC) with (k + (e + SC)) by lia. rewrite Z.pow_add_r by lia. lia. Qed.

Lemma V_mono a b e : - SC <= e -> a <= b <-> V a e <= V b e.
Proof. intros. unfold V. pose proof (pow2_pos (e + SC) ltac:(lia)). nia. Qed.

Lemma V_mono_lt a b e : - SC <= e -> a < b <-> V a e < V b e.
Proof. intros. unfold V. pose proof (pow2_pos (e + SC) ltac:(lia)). nia. Qed.

(** ** Digits and shifts *)

Lemma digits_bound p : 2 ^ (Z.pos (digits2_pos p) - 1) <= Z.pos p < 2 ^ Z.pos (digits2_pos p).
Proof.
  induction p as [p IH|p IH|]; cbn [digits2_pos]; [..|done].
  all: rewrite Pos2Z.inj_succ; replace (Z.succ _ - 1) with (Z.pos (digits2_pos p)) by lia.
  all: rewrite Z.pow_succ_r by lia; pose proof (pow2_split 1 (Z.pos (digits2_pos p)) ltac:(lia)) as E.
  all: change (2 ^ 1) with 2 in E; lia.
Qed.

Lemma digits_spec m : 0 < m -> 1 <= Zdigits2 m /\ 2 ^ (Zdigits2 m - 1) <= m < 2 ^ Zdigits2 m.
Proof. destruct m as [|p|p]; intros; try lia. cbn [Zdigits2]. pose proof (digits_bound p). lia. Qed.

Lemma digits_ge m n : 0 < m -> 0 <= n -> 2 ^ n <= m -> n + 1 <= Zdigits2 m.
Proof.
  intros Hm Hn Hle. destruct (digits_spec m Hm) as [H1 [_ H2]].
  assert (2 ^ n < 2 ^ Zdigits2 m) as H%Z.pow_lt_mono_r_iff by lia; lia.
Qed.

Lemma digits_le m n : 0 < m -> 0 <= n -> m < 2 ^ n -> Zdigits2 m <= n.
Proof.
  intros Hm Hn Hlt. destruct (digits_spec m Hm) as [H1 [H2 _]].
  assert (2 ^ (Zdigits2 m - 1) < 2 ^ n) as H%Z.pow_lt_mono_r_iff by lia; lia.
Qed.

Lemma V_1 e : V 1 e = 2 ^ (e + SC).
Proof. unfold V. apply Z.mul_1_l. Qed.

Lemma V_digits m e :
  0 < m -> - SC <= e ->
  1 <= Zdigits2 m /\ 2 ^ (Zdigits2 m + e + (SC - 1)) <= V m e < 2 ^ (Zdigits2 m + e + SC).
Proof.
  intros Hm He. destruct (digits_spec m Hm) as (H1 & H2 & H3). unfold V. pose proof (pow2_pos (e + SC) ltac:(lia)).
  replace (Zdigits2 m + e + (SC - 1)) with (Zdigits2 m - 1 + (e + SC)) by lia.
  replace (Zdigits2 m + e + SC) with (Zdigits2 m + (e + SC)) by lia.
  rewrite (Z.pow_add_r 2 (Zdigits2 m - 1)), (Z.pow_add_r 2 (Zdigits2 m)) by lia.
  split_and!; [done|by apply Z.mul_le_mono_nonneg_r; [lia|]|by apply Z.mul_lt_mono_pos_r].
Qed.

Definition clean (x : shr_record) : Prop := shr_r x = false /\ shr_s x = false.

Lemma shr_1_spec x :
  0 <= shr_m x ->
  shr_m (shr_1 x) = shr_m x / 2 /\ (clean x -> shr_m x mod 2 = 0 -> clean (shr_1 x)).
Proof.
  destruct x as [m r s]. cbn [shr_m]. intros Hm. unfold clean. cbn [shr_r shr_s].
  pose proof (Z.div_mod m 2 ltac:(lia)) as Hd. pose proof (Z.mod_pos_bound m 2 ltac:(lia)).
  destruct m as [|[p|p|]|p]; cbn [shr_1 shr_m shr_r shr_s]; try lia; (split; [lia|]).
  all: try (intros [-> ->]; done). all: intros [-> ->] ?; lia.
Qed.

Lemma iter_pos_nat {A} (f : A -> A) n x : SpecFloat.iter_pos f n x = Nat.iter (Pos.to_nat n) f x.
Proof.
  revert x. induction n as [n IH|n IH|]; intros x; cbn [SpecFloat.iter_pos]; [| |done].
  - rewrite !IH, Pos2Nat.inj_xI, <-Nat.iter_add. replace (S (2 * Pos.to_nat n)) with (S (Pos.to_nat n + Pos.to_nat n)) by lia.
    by rewrite Nat.iter_succ_r.
  - rewrite !IH, Pos2Nat.inj_xO, <-Nat.iter_add. f_equal. lia.
Qed.

Lemma shr_iter n x :
  0 <= shr_m x ->
  shr_m (Nat.iter n shr_1 x) = shr_m x / 2 ^ Z.of_nat n /\
  (clean x -> shr_m x mod 2 ^ Z.of_nat n = 0 -> clean (Nat.iter n shr_1 x)).
Proof.
  intros Hx. induction n as [|n [IH1 IH2]]; [cbn; rewrite Z.div_1_r; auto|].
  pose proof (pow2_pos (Z.of_nat n) ltac:(lia)).
  rewrite Nat2Z.inj_succ, Z.pow_succ_r, (Z.mul_comm 2) by lia. rewrite Nat.iter_succ.
  destruct (shr_1_spec (Nat.iter n shr_1 x)) as [H1 H2]; [rewrite IH1; by apply Z.div_pos|].
  split; [by rewrite H1, IH1, Z.div_div by lia|].
  intros Hc Hm. rewrite Z.rem_mul_r in Hm by lia.
  pose proof (Z.mod_pos_bound (shr_m x) (2 ^ Z.of_nat n) ltac:(lia)).
  pose proof (Z.mod_pos_bound (shr_m x / 2 ^ Z.of_nat n) 2 ltac:(lia)).
  apply H2; [apply IH2; [done|nia]|rewrite IH1; nia].
Qed.

(** ** Rounding *)

#[local] Abbreviation fexp64 := (fexp 53 1024).
#[local] Abbreviation shr_fexp64 := (shr_fexp 53 1024).

Lemma fexp64_eq d : fexp64 d = Z.max (d - 53) (-1074).
Proof. reflexivity. Qed.

(** aligning an integer with at least 53 digits, or at the least exponent *)
Lemma shr_fexp_spec m e l x e' :
  0 < m -> e <= fexp64 (Zdigits2 m + e) -> shr_fexp64 m e l = (x, e') ->
  e <= e' /\ -1074 <= e' /\ shr_m x = m / 2 ^ (e' - e) /\ shr_m x < 2 ^ 53 /\
  (2 ^ 52 <= shr_m x \/ e' = -1074) /\
  (l = loc_Exact -> m mod 2 ^ (e' - e) = 0 -> clean x).
Proof.
  intros Hm Hk E. destruct (digits_spec m Hm) as (Hd1 & Hlo & Hhi).
  assert (Hrec : forall l, shr_m (shr_record_of_loc m l) = m) by (by intros [|[]]).
  assert (e' = fexp64 (Zdigits2 m + e) /\ shr_m x = m / 2 ^ (e' - e) /\
    (l = loc_Exact -> m mod 2 ^ (e' - e) = 0 -> clean x)) as (He & Hx & Hc).
  { unfold shr_fexp, shr in E. destruct (fexp64 (Zdigits2 m + e) - e) as [|n|n] eqn:En; [..|lia].
    - injection E as <- <-. replace (e - e) with 0 by lia. rewrite Z.div_1_r, Hrec.
      split_and!; [lia|done|by intros ->].
    - injection E as <- <-. rewrite iter_pos_nat. replace (e + Z.pos n - e) with (Z.pos n) by lia.
      destruct (shr_iter (Pos.to_nat n) (shr_record_of_loc m l)) as [H1 H2]; [rewrite Hrec; lia|].
      rewrite Hrec, positive_nat_Z in *. split_and!; [lia|done|intros -> ?; apply H2; [by split|done]]. }
  clear E Hrec. rewrite fexp64_eq in *. set (d := Zdigits2 m) in *. set (k := e' - e) in *.
  pose proof (pow2_pos k ltac:(lia)).
  split_and!; [lia|lia|done| | |done]; rewrite Hx.
  - apply Z.div_lt_upper_bound; [done|]. rewrite <-Z.pow_add_r by lia.
    eapply Z.lt_le_trans; [exact Hhi|]. apply Z.pow_le_mono_r; lia.
  - destruct (Z.eq_dec e' (-1074)) as [|Hne]; [by right|left].
    apply Z.div_le_lower_bound; [done|]. rewrite <-Z.pow_add_r by lia.
    etransitivity; [|exact Hlo]. apply Z.pow_le_mono_r; lia.
Qed.

(** a representable number lies on the grid of a larger exponent, or below it *)
Lemma rep_grid M E q e :
  rep M E -> - SC <= e -> 2 ^ 52 <= q \/ e = -1074 -> V q e < V M E -> V (q + 1) e <= V M E.
Proof.
  intros [HM HE] He Hq Hlt. destruct (Z.le_gt_cases e E) as [Hle|Hgt].
  - replace E with (e + (E - e)) in * by lia. rewrite V_shift in * by lia.
    apply V_mono; [lia|]. apply V_mono_lt in Hlt; lia.
  - destruct Hq as [Hq|]; [|lia]. exfalso.
    replace e with (E + (e - E)) in Hlt by lia. rewrite V_shift in Hlt by lia.
    apply V_mono_lt in Hlt; [|lia].
    assert (2 ^ 1 <= 2 ^ (e - E)) by (apply Z.pow_le_mono_r; lia). nia.
Qed.

Lemma trunc_le m e k : 0 <= k -> - SC <= e -> V (m / 2 ^ k) (e + k) <= V m e.
Proof.
  intros. rewrite V_shift by lia. apply V_mono; [lia|]. pose proof (pow2_pos k ltac:(lia)).
  pose proof (Z.mul_div_le m (2 ^ k) ltac:(lia)). lia.
Qed.

Lemma trunc_ge M E m e k :
  rep M E -> 0 <= k -> - SC <= e -> -1074 <= e + k -> 2 ^ 52 <= m / 2 ^ k \/ e + k = -1074 ->
  V M E <= V m e -> V M E <= V (m / 2 ^ k) (e + k).
Proof.
  intros HR Hk He Hek Hq Hle. destruct (Z.le_gt_cases (V M E) (V (m / 2 ^ k) (e + k))) as [|Hgt]; [done|].
  pose proof (rep_grid M E _ (e + k) HR ltac:(lia) Hq Hgt) as Hn.
  rewrite V_shift in Hn by lia. assert (V m e < V ((m / 2 ^ k + 1) * 2 ^ k) e); [|lia].
  apply V_mono_lt; [lia|]. pose proof (pow2_pos k ltac:(lia)).
  pose proof (Z.mod_pos_bound m (2 ^ k) ltac:(lia)). pose proof (Z.div_mod m (2 ^ k) ltac:(lia)). lia.
Qed.

(** what [binary_round_aux] computes: [q] is the truncated mantissa, [q'] the
    rounded one, [m'] the result after renormalisation *)
Record rounded (m e : Z) (l : location) (q q' e1 m' e2 : Z) : Prop := {
  rn_e : e <= e1 <= e2;
  rn_q : q = m / 2 ^ (e1 - e);
  rn_grid : -1074 <= e1 /\ (2 ^ 52 <= q \/ e1 = -1074);
  rn_up : q' = q \/ q' = q + 1 /\ (l = loc_Exact -> m mod 2 ^ (e1 - e) <> 0);
  rn_m : m' = q' / 2 ^ (e2 - e1);
  rn_norm : q' = 0 /\ m' = 0 \/ norm m' e2
}.

Lemma round_core s m e l :
  0 < m -> e <= fexp64 (Zdigits2 m + e) ->
  exists q q' e1 m' e2, rounded m e l q q' e1 m' e2 /\
    binary_round_aux 53 1024 s m e l =
      match m' with
      | Z0 => S754_zero s
      | Zpos p => if e2 <=? 1024 - 53 then S754_finite s p e2 else S754_infinity s
      | Zneg _ => S754_nan
      end.
Proof.
  intros Hm Hk. unfold binary_round_aux. destruct (shr_fexp64 m e l) as [x e1] eqn:E1.
  destruct (shr_fexp_spec m e l x e1 Hm Hk E1) as (Hle & He1 & Hq & Hlt & Hgrid & Hcl).
  set (q' := round_nearest_even (shr_m x) (loc_of_shr_record x)).
  assert (Hup : q' = shr_m x \/ q' = shr_m x + 1 /\ ~ clean x).
  { unfold q', clean. destruct x as [n r b]. destruct r, b; cbn; try (by left); try (right; split; [done|naive_solver]).
    destruct (Z.even n); [by left|right; split; [done|naive_solver]]. }
  assert (Hx0 : 0 <= shr_m x) by (rewrite Hq; apply Z.div_pos; [lia|apply pow2_pos; lia]).
  destruct (shr_fexp64 q' e1 loc_Exact) as [x2 e2] eqn:E2.
  assert (Hsnd : e1 <= e2 /\ shr_m x2 = q' / 2 ^ (e2 - e1) /\ (q' = 0 /\ shr_m x2 = 0 \/ norm (shr_m x2) e2)).
  { destruct (Z.eq_dec q' 0) as [Hz|Hz].
    - rewrite Hz in E2. destruct Hgrid as [|He]; [lia|]. rewrite He in E2. injection E2 as <- <-.
      rewrite Hz, He. split_and!; [lia|done|by left].
    - assert (0 < q') by lia. destruct (shr_fexp_spec q' e1 loc_Exact x2 e2) as (H1 & H2 & H3 & H4 & H5 & _);
        [done| |done|].
      { rewrite fexp64_eq. destruct Hgrid as [Hge|]; [|lia].
        pose proof (digits_ge q' 52 ltac:(lia) ltac:(lia) ltac:(lia)). lia. }
      split_and!; [done|done|right]. unfold norm. split_and!; [|done|lia|done].
      destruct H5 as [|H5]; [lia|]. replace (e2 - e1) with 0 in H3 by lia. rewrite Z.div_1_r in H3. lia. }
  destruct Hsnd as (H1 & H2 & H3). exists (shr_m x), q', e1, (shr_m x2), e2. split; [|done].
  split; try done. destruct Hup as [|[? Hn]]; [by left|right; naive_solver].
Qed.

(** the result of rounding a number of at most [M * 2 ^ E] *)
Definition rnd_le (s : bool) (x : double) (M E : Z) : Prop :=
  x = S754_zero s \/
  exists p e, x = S754_finite s p e /\ norm (Z.pos p) e /\ V (Z.pos p) e <= V M E.

Lemma rounded_le m e l q q' e1 m' e2 M E :
  rounded m e l q q' e1 m' e2 -> 0 < m -> - SC <= e -> rep M E ->
  V m e <= V M E -> (l <> loc_Exact -> V m e < V M E) -> V m' e2 <= V M E.
Proof.
  intros [He Hq [Hg1 Hg] Hup Hm' _] Hm Hee HR Hle Hlt. rewrite Hm'.
  replace e2 with (e1 + (e2 - e1)) at 2 by lia. etransitivity; [apply trunc_le; lia|].
  assert (Hqle : V q e1 <= V m e).
  { rewrite Hq. replace e1 with (e + (e1 - e)) at 2 by lia. apply trunc_le; lia. }
  destruct Hup as [->|[-> Hex]]; [lia|]. apply rep_grid; [done|lia|done|].
  destruct (Z.eq_dec (V q e1) (V M E)) as [Heq|]; [exfalso|lia].
  assert (Hl : l = loc_Exact) by (destruct l; [done|]; specialize (Hlt ltac:(done)); lia).
  apply (Hex Hl). assert (Hv : V q e1 = V m e) by lia. rewrite Hq in Hv.
  replace e1 with (e + (e1 - e)) in Hv at 2 by lia. rewrite V_shift in Hv by lia.
  unfold V in Hv. pose proof (pow2_pos (e + SC) ltac:(lia)). apply Z.mul_reg_r in Hv; [|lia].
  pose proof (pow2_pos (e1 - e) ltac:(lia)). pose proof (Z.div_mod m (2 ^ (e1 - e)) ltac:(lia)). lia.
Qed.

Lemma small_exponent m e M E : norm m e -> rep M E -> V m e <= V M E -> e <= 971.
Proof.
  intros (Hm & He & Hg) [HM HE] Hle. destruct (Z.le_gt_cases e 971) as [|Hgt]; [done|exfalso].
  destruct Hg as [Hg|]; [|lia]. replace e with (E + (e - E)) in Hle by lia. rewrite V_shift in Hle by lia.
  apply V_mono in Hle; [|lia]. assert (2 ^ 1 <= 2 ^ (e - E)) by (apply Z.pow_le_mono_r; lia). nia.
Qed.

Lemma round_le s m e l M E :
  0 < m -> - SC <= e -> e <= fexp64 (Zdigits2 m + e) -> rep M E ->
  V m e <= V M E -> (l <> loc_Exact -> V m e < V M E) ->
  rnd_le s (binary_round_aux 53 1024 s m e l) M E.
Proof.
  intros Hm He Hk HR Hle Hlt. destruct (round_core s m e l Hm Hk) as (q & q' & e1 & m' & e2 & Hr & ->).
  pose proof (rounded_le _ _ _ _ _ _ _ _ M E Hr Hm He HR Hle Hlt) as Hv.
  destruct (rn_norm _ _ _ _ _ _ _ _ Hr) as [[_ ->]|Hn]; [by left|]. right.
  pose proof (small_exponent _ _ _ _ Hn HR Hv). destruct m' as [|p|p]; [destruct Hn; lia| |destruct Hn; lia].
  rewrite (proj2 (Z.leb_le _ _)) by lia. by exists p, e2.
Qed.

(** a result bounded below is not zero *)
Lemma round_ge s m e l M E M' E' :
  0 < m -> - SC <= e -> e <= fexp64 (Zdigits2 m + e) -> rep M E -> rep M' E' -> 0 < M' ->
  V m e <= V M E -> (l <> loc_Exact -> V m e < V M E) -> V M' E' <= V m e ->
  exists p e', binary_round_aux 53 1024 s m e l = S754_finite s p e' /\ norm (Z.pos p) e' /\
    V M' E' <= V (Z.pos p) e' <= V M E.
Proof.
  intros Hm He Hk HR HR' Hpos Hle Hlt Hge. destruct (round_core s m e l Hm Hk) as (q & q' & e1 & m' & e2 & Hr & ->).
  pose proof (rounded_le _ _ _ _ _ _ _ _ M E Hr Hm He HR Hle Hlt) as Hv.
  destruct Hr as [Hee Hq [Hg1 Hg] Hup Hm' Hnorm].
  assert (Hq1 : V M' E' <= V q e1).
  { rewrite Hq. replace e1 with (e + (e1 - e)) at 2 by lia. apply trunc_ge; try done; try lia.
    all: replace (e + (e1 - e)) with e1 by lia; rewrite <-?Hq; done. }
  assert (Hq2 : V M' E' <= V q' e1).
  { etransitivity; [exact Hq1|]. apply V_mono; lia. }
  assert (Hpos' : 0 < V M' E') by (unfold V; pose proof (pow2_pos (E' + SC)); destruct HR'; nia).
  assert (0 < q') by (unfold V in Hq2, Hpos'; pose proof (pow2_pos (e1 + SC) ltac:(lia)); nia).
  destruct Hnorm as [[? _]|Hn]; [lia|].
  assert (Hlo : V M' E' <= V m' e2).
  { rewrite Hm'. replace e2 with (e1 + (e2 - e1)) at 2 by lia.
    apply trunc_ge; try done; try lia; replace (e1 + (e2 - e1)) with e2 by lia; rewrite <-?Hm'; apply Hn. }
  pose proof (small_exponent _ _ _ _ Hn HR Hv). destruct m' as [|p|p]; [destruct Hn; lia| |destruct Hn; lia].
  rewrite (proj2 (Z.leb_le _ _)) by lia. by exists p, e2.
Qed.

(** ** Operations *)

(** positive, between two bounds *)
Definition dbt (x : double) (M' E' M E : Z) : Prop :=
  exists p e, x = S754_finite false p e /\ norm (Z.pos p) e /\ V M' E' <= V (Z.pos p) e <= V M E.

Lemma dbt_dle x M' E' M E : dbt x M' E' M E -> dle x M E.
Proof. intros (p & e & -> & ? & ?). split; [done|lia]. Qed.

Lemma rnd_dle x M E : rnd_le false x M E -> dle x M E.
Proof. intros [->|(p & e & -> & ? & ?)]; done. Qed.

Lemma iter_xO p d :
  Z.pos (Pos.iter xO p d) = Z.pos p * 2 ^ Z.pos d /\
  Z.pos (digits2_pos (Pos.iter xO p d)) = Z.pos (digits2_pos p) + Z.pos d.
Proof.
  induction d as [|d [IH1 IH2]] using Pos.peano_ind; [cbn [Pos.iter digits2_pos]; lia|].
  rewrite Pos.iter_succ. cbn [digits2_pos]. rewrite !Pos2Z.inj_succ, Z.pow_succ_r by lia. lia.
Qed.

(** aligning to a smaller exponent keeps the value *)
Lemma shl_align_spec p e e' p1 e1 :
  - SC <= e -> - SC <= e' -> shl_align p e e' = (p1, e1) ->
  V (Z.pos p1) e1 = V (Z.pos p) e /\ e1 = Z.min e e' /\
  Z.pos (digits2_pos p1) + e1 = Z.pos (digits2_pos p) + e.
Proof.
  intros He He' E. unfold shl_align in E. destruct (e' - e) as [|d|d] eqn:Ed; injection E as <- <-; [lia..|].
  destruct (iter_xO p d) as [H1 H2]. rewrite H1, H2. split_and!; [|lia..].
  rewrite <-V_shift by lia. f_equal. lia.
Qed.

Lemma binary_round_align s p e :
  -1074 <= e -> exists p1 e1, binary_round 53 1024 s p e = binary_round_aux 53 1024 s (Z.pos p1) e1 loc_Exact /\
    V (Z.pos p1) e1 = V (Z.pos p) e /\ - SC <= e1 <= fexp64 (Zdigits2 (Z.pos p1) + e1).
Proof.
  intros He. unfold binary_round. cbn [Zdigits2].
  assert (Hf : -1074 <= fexp64 (Z.pos (digits2_pos p) + e)) by (rewrite fexp64_eq; lia).
  destruct (shl_align p e _) as [p1 e1] eqn:E. apply shl_align_spec in E as (H1 & H2 & H3); [|lia..].
  exists p1, e1. split_and!; [done|done|lia|rewrite H3; lia].
Qed.

Lemma binary_round_le s p e M E :
  -1074 <= e -> rep M E -> V (Z.pos p) e <= V M E -> rnd_le s (binary_round 53 1024 s p e) M E.
Proof.
  intros He HR Hle. destruct (binary_round_align s p e He) as (p1 & e1 & -> & Hv & Hk).
  apply round_le; try done; lia.
Qed.

Lemma binary_round_bt p e M' E' M E :
  -1074 <= e -> rep M E -> rep M' E' -> 0 < M' -> V M' E' <= V (Z.pos p) e <= V M E ->
  dbt (binary_round 53 1024 false p e) M' E' M E.
Proof.
  intros He HR HR' Hp Hv0. destruct (binary_round_align false p e He) as (p1 & e1 & -> & Hv & Hk).
  destruct (round_ge false (Z.pos p1) e1 loc_Exact M E M' E') as (p2 & e2 & H); try done; try lia.
  by exists p2, e2.
Qed.

(** the conversion of an integer *)
Lemma dbl_bt n M' E' M E :
  rep M E -> rep M' E' -> 0 < M' -> V M' E' <= V n 0 <= V M E -> dbt (dbl n) M' E' M E.
Proof.
  intros HR HR' Hp Hv. assert (0 < n).
  { assert (0 < V M' E'); [|unfold V in *; nia].
    unfold V. apply Z.mul_pos_pos; [done|]. apply pow2_pos. destruct HR'. lia. }
  destruct n as [|n|n]; [lia| |lia]. by apply binary_round_bt.
Qed.

Lemma dbl_le n M E : 0 <= n -> rep M E -> V n 0 <= V M E -> dle (dbl n) M E.
Proof.
  intros Hn HR Hv. destruct n as [|n|n]; [done| |lia]. apply rnd_dle. by apply binary_round_le.
Qed.

Lemma mul_aligned m1 e1 m2 e2 :
  norm m1 e1 -> norm m2 e2 -> e1 + e2 <= fexp64 (Zdigits2 (m1 * m2) + (e1 + e2)).
Proof.
  intros (Hm1 & He1 & H1) (Hm2 & He2 & H2). rewrite fexp64_eq.
  assert (Hd : 2 ^ 52 <= m1 \/ 2 ^ 52 <= m2 -> 53 <= Zdigits2 (m1 * m2)).
  { intros [|]; apply (digits_ge _ 52); nia. }
  lia.
Qed.

Lemma V_mul m1 e1 m2 e2 :
  -1500 <= e1 -> -1500 <= e2 -> V (m1 * m2) (e1 + e2) * 2 ^ SC = V m1 e1 * V m2 e2.
Proof.
  intros. unfold V. assert (E : 2 ^ (e1 + e2 + SC) * 2 ^ SC = 2 ^ (e1 + SC) * 2 ^ (e2 + SC)).
  { rewrite <-!Z.pow_add_r by lia. f_equal. lia. }
  transitivity (m1 * m2 * (2 ^ (e1 + e2 + SC) * 2 ^ SC)); [ring|]. rewrite E. ring.
Qed.

(** the comparison of products, scaled twice *)
Lemma V_mul_le a b c : a * b <= c * 2 ^ SC -> forall x y, 0 <= x <= a -> 0 <= y <= b -> x * y <= c * 2 ^ SC.
Proof. intros. nia. Qed.

Lemma V_nonneg m e : 0 <= m -> - SC <= e -> 0 <= V m e.
Proof. intros. unfold V. apply Z.mul_nonneg_nonneg; [done|]. pose proof (pow2_pos (e + SC) ltac:(lia)). lia. Qed.

Lemma norm_exp m e : norm m e -> 0 < m /\ -1500 <= e.
Proof. intros (? & ? & ?). lia. Qed.

Lemma dmul_le x y M1 E1 M2 E2 M E :
  dle x M1 E1 -> dle y M2 E2 -> rep M E -> V M1 E1 * V M2 E2 <= V M E * 2 ^ SC -> dle (dmul x y) M E.
Proof.
  intros Hx Hy HR Hle. destruct x as [| | |[] m1 e1]; try done; destruct y as [| | |[] m2 e2]; try done.
  destruct Hx as [N1 L1], Hy as [N2 L2]. pose proof (mul_aligned _ _ _ _ N1 N2).
  destruct (norm_exp _ _ N1), (norm_exp _ _ N2).
  apply rnd_dle, round_le; try done; [lia|].
  pose proof (V_mul (Z.pos m1) e1 (Z.pos m2) e2 ltac:(lia) ltac:(lia)) as E0.
  pose proof (V_nonneg (Z.pos m1) e1 ltac:(lia) ltac:(lia)). pose proof (V_nonneg (Z.pos m2) e2 ltac:(lia) ltac:(lia)).
  pose proof (V_mul_le _ _ _ Hle (V (Z.pos m1) e1) (V (Z.pos m2) e2) ltac:(lia) ltac:(lia)).
  change (Z.pos (m1 * m2)) with (Z.pos m1 * Z.pos m2).
  pose proof (pow2_pos SC ltac:(lia)). set (B := 2 ^ SC) in *. apply (Z.mul_le_mono_pos_r _ _ B); lia.
Qed.

Lemma dmul_bt x y A' F' A F B' G' B G M' E' M E :
  dbt x A' F' A F -> dbt y B' G' B G -> rep M E -> rep M' E' -> 0 < M' ->
  0 <= V A' F' -> 0 <= V B' G' ->
  V A F * V B G <= V M E * 2 ^ SC -> V M' E' * 2 ^ SC <= V A' F' * V B' G' -> dbt (dmul x y) M' E' M E.
Proof.
  intros (m1 & e1 & -> & N1 & L1) (m2 & e2 & -> & N2 & L2) HR HR' Hp HA HB Hle Hge.
  pose proof (mul_aligned _ _ _ _ N1 N2). destruct (norm_exp _ _ N1), (norm_exp _ _ N2).
  pose proof (V_mul (Z.pos m1) e1 (Z.pos m2) e2 ltac:(lia) ltac:(lia)) as E0.
  pose proof (V_nonneg (Z.pos m1) e1 ltac:(lia) ltac:(lia)). pose proof (V_nonneg (Z.pos m2) e2 ltac:(lia) ltac:(lia)).
  pose proof (V_mul_le _ _ _ Hle (V (Z.pos m1) e1) (V (Z.pos m2) e2) ltac:(lia) ltac:(lia)).
  assert (V A' F' * V B' G' <= V (Z.pos m1) e1 * V (Z.pos m2) e2) by nia.
  pose proof (pow2_pos SC ltac:(lia)). set (P := 2 ^ SC) in *.
  destruct (round_ge false (Z.pos m1 * Z.pos m2) (e1 + e2) loc_Exact M E M' E') as (p & e & Hr);
    try done; [lia|apply (Z.mul_le_mono_pos_r _ _ P); lia..|]. by exists p, e.
Qed.

Lemma dadd_le x y M1 E1 M2 E2 M E :
  dle x M1 E1 -> dle y M2 E2 -> 0 <= V M1 E1 -> 0 <= V M2 E2 -> rep M E -> V M1 E1 + V M2 E2 <= V M E ->
  dle (dadd x y) M E.
Proof.
  intros Hx Hy H1 H2 HR Hle.
  destruct x as [sx| | |[] m1 e1]; try done; destruct y as [sy| | |[] m2 e2]; try done; cbn in Hx, Hy.
  - by destruct sx, sy.
  - destruct Hy. split; [done|lia].
  - destruct Hx. split; [done|lia].
  - destruct Hx as [N1 L1], Hy as [N2 L2]. destruct (norm_exp _ _ N1), (norm_exp _ _ N2).
    assert (-1074 <= e1 /\ -1074 <= e2) as [? ?] by (destruct N1 as (_ & ? & _), N2 as (_ & ? & _); lia).
    unfold dadd, SFadd, cond_Zopp.
    destruct (shl_align m1 e1 (Z.min e1 e2)) as [p1 f1] eqn:S1.
    destruct (shl_align m2 e2 (Z.min e1 e2)) as [p2 f2] eqn:S2. cbn [fst].
    apply shl_align_spec in S1 as (V1 & F1 & _); [|lia..]. apply shl_align_spec in S2 as (V2 & F2 & _); [|lia..].
    replace f1 with (Z.min e1 e2) in * by lia. replace f2 with (Z.min e1 e2) in * by lia.
    apply rnd_dle, binary_round_le; [lia|done|]. change (Z.pos (p1 + p2)) with (Z.pos p1 + Z.pos p2).
    unfold V in *. lia.
Qed.

(** ** Division *)

Lemma div_core m1 e1 m2 e2 :
  0 < m1 -> 0 < m2 -> -1074 <= e1 <= 971 -> -1074 <= e2 <= 971 ->
  -1021 <= Zdigits2 m1 + e1 - (Zdigits2 m2 + e2) ->
  exists q e l, SFdiv_core_binary 53 1024 m1 e1 m2 e2 = (q, e, l) /\ 2 ^ 52 <= q /\ - SC <= e /\
    e <= fexp64 (Zdigits2 q + e) /\
    V q e * V m2 e2 <= V m1 e1 * 2 ^ SC < V (q + 1) e * V m2 e2 /\
    (l <> loc_Exact -> V q e * V m2 e2 < V m1 e1 * 2 ^ SC).
Proof.
  intros Hm1 Hm2 He1 He2 HD. unfold SFdiv_core_binary. set (D := Zdigits2 m1 + e1 - (Zdigits2 m2 + e2)) in *.
  rewrite fexp64_eq. set (e := Z.min (Z.max (D - 53) (-1074)) (e1 - e2)). set (s := e1 - e2 - e).
  assert (Hs : 0 <= s) by lia. assert (Hde : e <= D - 53) by lia.
  assert (Hmm : match s with Z0 => m1 | Zpos _ => Z.shiftl m1 s | Zneg _ => 0 end = m1 * 2 ^ s).
  { destruct s eqn:Es; [lia| |lia]. by rewrite Z.shiftl_mul_pow2 by lia. }
  rewrite Hmm. pose proof (Z_div_mod (m1 * 2 ^ s) m2 ltac:(lia)) as Hdiv.
  destruct (Z.div_eucl (m1 * 2 ^ s) m2) as [q r]. destruct Hdiv as [Hqr Hr].
  destruct (digits_spec m1 Hm1) as (D1 & L1 & _). destruct (digits_spec m2 Hm2) as (D2 & _ & U2).
  pose proof (pow2_pos s Hs).
  assert (Hq : 2 ^ 52 <= q).
  { assert (2 ^ 52 < q + 1); [|lia]. apply (Z.mul_lt_mono_pos_l m2); [done|].
    apply Z.le_lt_trans with (2 ^ (Zdigits2 m1 - 1) * 2 ^ s); [|nia].
    transitivity (2 ^ Zdigits2 m2 * 2 ^ 52); [nia|]. rewrite <-!Z.pow_add_r by lia. apply Z.pow_le_mono_r; lia. }
  assert (Hl : new_location m2 r <> loc_Exact -> r <> 0).
  { intros Hl ->. apply Hl. unfold new_location, new_location_even, new_location_odd. by destruct (Z.even m2). }
  pose proof (pow2_pos (e + e2 + 2 * SC) ltac:(lia)) as HP.
  assert (E1 : V m1 e1 * 2 ^ SC = m1 * 2 ^ s * 2 ^ (e + e2 + 2 * SC)).
  { unfold V. rewrite <-!Z.mul_assoc, <-!Z.pow_add_r by lia. do 2 f_equal. lia. }
  assert (E2 : forall x, V x e * V m2 e2 = x * m2 * 2 ^ (e + e2 + 2 * SC)).
  { intros x. unfold V. transitivity (x * m2 * (2 ^ (e + SC) * 2 ^ (e2 + SC))); [ring|].
    rewrite <-Z.pow_add_r by lia. do 2 f_equal. lia. }
  exists q, e, (new_location m2 r). rewrite E1, !E2, Hqr. set (P := 2 ^ (e + e2 + 2 * SC)) in *.
  split_and!; [done|lia|lia| | | |]; [|nia|nia|intros ?%Hl; nia].
  rewrite fexp64_eq. pose proof (digits_ge q 52 ltac:(lia) ltac:(lia) Hq). lia.
Qed.

(** quotients of numbers of moderate size *)
Lemma ddiv_bt x y A' F' A F B' G' B G M' E' M E :
  dbt x A' F' A F -> dbt y B' G' B G -> rep M E -> rep M' E' -> 0 < M' ->
  V 1 (-900) <= V A' F' -> V A F <= V 1 900 -> V B G <= V 1 100 -> 0 < V B' G' ->
  V A F * 2 ^ SC <= V M E * V B' G' -> V M' E' * V B G <= V A' F' * 2 ^ SC -> dbt (ddiv x y) M' E' M E.
Proof.
  intros (m1 & e1 & -> & N1 & L1) (m2 & e2 & -> & N2 & L2) HR HR' Hp HA HA9 HB HB0 Hle Hge.
  assert (HD : -1021 <= Zdigits2 (Z.pos m1) + e1 - (Zdigits2 (Z.pos m2) + e2) /\ e1 <= 971 /\ e2 <= 971).
  { rewrite V_1 in HA, HA9, HB. destruct (norm_exp _ _ N1), (norm_exp _ _ N2).
    destruct (V_digits (Z.pos m1) e1 ltac:(lia) ltac:(lia)) as (D1 & U1 & U1').
    destruct (V_digits (Z.pos m2) e2 ltac:(lia) ltac:(lia)) as (D2 & U2 & _).
    assert (-900 + SC < Zdigits2 (Z.pos m1) + e1 + SC) by (apply (Z.pow_lt_mono_r_iff 2); [lia..|]; Lia.lia).
    assert (Zdigits2 (Z.pos m2) + e2 + (SC - 1) <= 100 + SC) by (apply (Z.pow_le_mono_r_iff 2); [lia..|]; Lia.lia).
    assert (Zdigits2 (Z.pos m1) + e1 + (SC - 1) <= 900 + SC) by (apply (Z.pow_le_mono_r_iff 2); [lia..|]; Lia.lia).
    lia. }
  destruct N1 as (Hm1 & He1 & _), N2 as (Hm2 & He2 & _).
  destruct (div_core (Z.pos m1) e1 (Z.pos m2) e2) as (q & e & l & Ed & Hq & He & Hk & Hv & Hs); [lia..|].
  unfold ddiv, SFdiv. rewrite Ed. pose proof (pow2_pos SC ltac:(lia)). set (P := 2 ^ SC) in *.
  assert (Hpos : 0 < V (Z.pos m2) e2) by lia.
  assert (HM : 0 <= V M E) by (apply V_nonneg; destruct HR; lia).
  assert (Hup : V (Z.pos m1) e1 * P <= V M E * V (Z.pos m2) e2) by nia.
  assert (V q e <= V M E) by (apply (Z.mul_le_mono_pos_r _ _ (V (Z.pos m2) e2)); lia).
  assert (l <> loc_Exact -> V q e < V M E).
  { intros Hl%Hs. apply (Z.mul_lt_mono_pos_r (V (Z.pos m2) e2)); lia. }
  assert (HM' : 0 <= V M' E') by (apply V_nonneg; destruct HR'; lia).
  assert (Hlo : V M' E' * V (Z.pos m2) e2 <= V (Z.pos m1) e1 * P) by nia.
  assert (V M' E' <= V q e).
  { destruct (Z.le_gt_cases (V M' E') (V q e)) as [|Hgt]; [done|].
    pose proof (rep_grid M' E' q e HR' ltac:(lia) (or_introl Hq) Hgt). nia. }
  destruct (round_ge false q e l M E M' E') as (p & e' & Hr); try done; [lia|]. by exists p, e'.
Qed.

(** ** Conversion to an integer *)

Lemma floor_spec m e :
  0 <= m -> - SC <= e ->
  let t := if 0 <=? e then m * 2 ^ e else m / 2 ^ (- e) in
  0 <= t /\ V t 0 <= V m e < V (t + 1) 0.
Proof.
  intros Hm He. cbv zeta. destruct (Z.leb_spec 0 e).
  - pose proof (pow2_pos e ltac:(lia)). pose proof (V_shift m 0 e ltac:(lia) ltac:(lia)) as Hv.
    rewrite Z.add_0_l in Hv. rewrite Hv. split_and!; [nia|lia|]. apply V_mono_lt; lia.
  - pose proof (pow2_pos (- e) ltac:(lia)). split; [by apply Z.div_pos|].
    assert (Hv : forall x, V x 0 = V (x * 2 ^ - e) e) by (intros x; rewrite <-V_shift by lia; f_equal; lia).
    rewrite !Hv.
    pose proof (Z.div_mod m (2 ^ - e) ltac:(lia)). pose proof (Z.mod_pos_bound m (2 ^ - e) ltac:(lia)).
    split; [apply V_mono; lia|apply V_mono_lt; lia].
Qed.

Lemma u32_of_dle x M E :
  dle x M E -> V M E < V (2 ^ 32) 0 -> exists t, u32_of_double x = Ok t /\ 0 <= t < 2 ^ 32.
Proof.
  intros Hx Hlt. destruct x as [| | |[] m e]; try done; [by exists 0|]. destruct Hx as [N L].
  destruct (norm_exp _ _ N) as [Np Ne]. cbn [u32_of_double].
  destruct (floor_spec (Z.pos m) e ltac:(lia) ltac:(lia)) as [H0 [H1 _]]. cbv zeta.
  set (t := if 0 <=? e then _ else _) in *.
  assert (t < 2 ^ 32) by (apply (V_mono_lt _ _ 0); lia). exists t.
  by rewrite (proj2 (Z.leb_le _ _)), (proj2 (Z.ltb_lt _ _)) by lia.
Qed.

(** the conversion of a dyadic number truncates *)
Lemma u32_exact x n k :
  0 <= n -> 0 <= k <= 1000 -> n / 2 ^ k < 2 ^ 32 -> dbt x n (- k) n (- k) -> u32_of_double x = Ok (n / 2 ^ k).
Proof.
  intros Hn Hk Hlt (p & e & -> & N & L). destruct (norm_exp _ _ N) as [Np Ne]. cbn [u32_of_double].
  destruct (floor_spec (Z.pos p) e ltac:(lia) ltac:(lia)) as [H0 H1].
  destruct (floor_spec n (- k) ltac:(lia) ltac:(lia)) as [H2 H3].
  assert (Ek : (if 0 <=? - k then n * 2 ^ - k else n / 2 ^ - - k) = n / 2 ^ k).
  { destruct (Z.leb_spec 0 (- k)); [|by rewrite Z.opp_involutive].
    replace k with 0 by lia. by rewrite Z.div_1_r, Z.mul_1_r. }
  cbv zeta in *. rewrite Ek in H2, H3. set (t := if 0 <=? e then _ else _) in *.
  assert (t < n / 2 ^ k + 1) by (apply (V_mono_lt _ _ 0); lia).
  assert (n / 2 ^ k < t + 1) by (apply (V_mono_lt _ _ 0); lia).
  rewrite (proj2 (Z.leb_le _ _)), (proj2 (Z.ltb_lt _ _)) by lia. f_equal. lia.
Qed.
End Double.
