(* ===== verification/Bwe.v ===== *)
(** * Bandwidth estimation (rtc/src/rtc_bwe.c)

    The estimator's struct is split along the groups its comments name: the
    burst being collected, the trend filter, the rate controller and the
    callback.  Doubles are IEEE binary64 ([Double]); a conversion of a double
    to [uint32_t] is undefined out of range, and so are overflows of [int] and
    [int64_t]: the theorems show when they cannot occur.  An operation returns
    the bit rates it reports through the callback. *)

From S2P Require Import Prelude Double.
From Stdlib Require Import ZArith Lia SpecFloat.
From stdpp Require Import base list numbers.
#[local] Open Scope Z_scope.

Module Bwe.
Import Double.

Definition BURST_WINDOW_US : Z := 5000.
Definition TRENDLINE_WINDOW : Z := 20.
Definition TREND_THRESHOLD_INIT : double := lit 125 10.
Definition TREND_K_UP : double := lit 87 10000.
Definition TREND_K_DOWN : double := lit 39 1000.
Definition BACKOFF_FACTOR : double := lit 85 100.
Definition ADDITIVE_INC_BPS : Z := 50000.
Definition MULT_INC_FACTOR : double := lit 108 100.
Definition CHANGE_THRESHOLD : double := lit 3 100.
Definition CHANGE_KEEPALIVE_MS : Z := 1000.

Record rtc_bwe_config_t := Config { initial_bps : Z; min_bps : Z; max_bps : Z }.

Inductive rtc_bwe_state_t := RTC_BWE_NORMAL | RTC_BWE_OVERUSE | RTC_BWE_UNDERUSE.

Record burst_t := Burst {
  last_burst_send_us : Z; last_burst_recv_us : Z; burst_size_bytes : Z; has_prev_burst : bool
}.
Record trend_t := Trend {
  accumulated_delay_ms : double; group_index : Z; tl_x : list double; tl_y : list double;
  tl_count : Z; tl_pos : Z; trend_threshold_ms : double; last_slope_per_group : double
}.
Record rate_t := Rate {
  delay_estimate_bps : Z; loss_estimate_bps : Z; current_target_bps : Z; last_increase_us : Z;
  last_decrease_us : Z; in_additive_mode : bool; recent_throughput_bytes_per_ms : double
}.
Record report_t := Report { on_bitrate : bool; last_reported_bps : Z; last_callback_us : Z }.

Record rtc_bwe_t := Bwe {
  cfg : rtc_bwe_config_t; state : rtc_bwe_state_t; burst : burst_t; trend : trend_t; rate : rate_t;
  report : report_t
}.

Definition dzero : double := S754_zero false.

Definition rtc_bwe_create (alloc : bool) (c : rtc_bwe_config_t) : option rtc_bwe_t :=
  if (min_bps c =? 0) || (max_bps c <? min_bps c) then None
  else if negb alloc then None
  else Some (Bwe c RTC_BWE_NORMAL (Burst 0 0 0 false)
    (Trend dzero 0 (replicate 20 dzero) (replicate 20 dzero) 0 0 TREND_THRESHOLD_INIT dzero)
    (Rate (initial_bps c) (max_bps c) (initial_bps c) 0 0 false dzero)
    (Report false (initial_bps c) 0)).

Definition rtc_bwe_on_bitrate_change (b : rtc_bwe_t) (fn : bool) : rtc_bwe_t :=
  Bwe (cfg b) (state b) (burst b) (trend b) (rate b)
    (Report fn (last_reported_bps (report b)) (last_callback_us (report b))).

Definition rtc_bwe_state (b : rtc_bwe_t) : rtc_bwe_state_t := state b.
Definition rtc_bwe_target_bitrate (b : rtc_bwe_t) : Z := current_target_bps (rate b).

Definition clamp_bps (c : rtc_bwe_config_t) (v : Z) : Z :=
  let v := if v <? min_bps c then min_bps c else v in
  if max_bps c <? v then max_bps c else v.

(** ** The trend filter *)

(** the first loop *)
Definition sums (l : list (double * double)) : double * double :=
  foldl (fun s p => (dadd s.1 p.1, dadd s.2 p.2)) (dzero, dzero) l.

(** the second loop *)
Definition moments (mean_x mean_y : double) (l : list (double * double)) : double * double :=
  foldl (fun s p =>
    let dx := dsub p.1 mean_x in
    (dadd s.1 (dmul dx (dsub p.2 mean_y)), dadd s.2 (dmul dx dx))) (dzero, dzero) l.

Definition trendline_push (x y : double) (t : trend_t) : res (trend_t * double) :=
  let pos := tl_pos t in
  xs ← wr (tl_x t) pos x;
  ys ← wr (tl_y t) pos y;
  let n := if tl_count t <? TRENDLINE_WINDOW then tl_count t + 1 else tl_count t in
  let t := Trend (accumulated_delay_ms t) (group_index t) xs ys n ((pos + 1) mod TRENDLINE_WINDOW)
             (trend_threshold_ms t) (last_slope_per_group t) in
  if n <? 3 then Ok (t, dzero) else
  _ ← fault_if ((blen xs <? n) || (blen ys <? n));
  let l := zip (take (Z.to_nat n) xs) (take (Z.to_nat n) ys) in
  let '(sum_x, sum_y) := sums l in
  let '(num, den) := moments (ddiv sum_x (dbl n)) (ddiv sum_y (dbl n)) l in
  if deq den dzero then Ok (t, dzero) else Ok (t, ddiv num den).

Definition detector_update (slope_ms_per_group : double) (t : trend_t) : rtc_bwe_state_t * trend_t :=
  let modulated := dmul (dabs slope_ms_per_group) (dbl (tl_count t)) in
  let threshold := trend_threshold_ms t in
  let state :=
    if dlt dzero slope_ms_per_group && dlt threshold modulated then RTC_BWE_OVERUSE
    else if dlt slope_ms_per_group dzero && dlt threshold modulated then RTC_BWE_UNDERUSE
    else RTC_BWE_NORMAL in
  let k := if dlt modulated threshold then TREND_K_DOWN else TREND_K_UP in
  let delta := dmul k (dsub modulated threshold) in
  let threshold := dadd threshold delta in
  let threshold := if dlt threshold (dbl 6) then dbl 6 else threshold in
  let threshold := if dlt (dbl 600) threshold then dbl 600 else threshold in
  (state, Trend (accumulated_delay_ms t) (group_index t) (tl_x t) (tl_y t) (tl_count t) (tl_pos t)
            threshold slope_ms_per_group).

(** ** The rate controller *)

Definition rate_control_step (c : rtc_bwe_config_t) (s : rtc_bwe_state_t) (now_us : Z) (r : rate_t)
    : res rate_t :=
  match s with
  | RTC_BWE_OVERUSE =>
      let tput_bps := dmul (recent_throughput_bytes_per_ms r) (dbl 8000) in
      new_bps ← u32_of_double (dmul tput_bps BACKOFF_FACTOR);
      let new_bps := if new_bps <? min_bps c then min_bps c else new_bps in
      Ok (Rate (if new_bps <? delay_estimate_bps r then new_bps else delay_estimate_bps r)
            (loss_estimate_bps r) (current_target_bps r) (last_increase_us r) now_us true
            (recent_throughput_bytes_per_ms r))
  | RTC_BWE_UNDERUSE => Ok r
  | RTC_BWE_NORMAL =>
      let since_dec_ms :=
        if last_decrease_us r <? now_us then (now_us - last_decrease_us r) / 1000 else 0 in
      let additive := if 3000 <? since_dec_ms then false else in_additive_mode r in
      let prev := delay_estimate_bps r in
      next ← (if additive then Ok (u32 (prev + ADDITIVE_INC_BPS))
              else u32_of_double (dmul (dbl prev) MULT_INC_FACTOR));
      Ok (Rate (clamp_bps c next) (loss_estimate_bps r) (current_target_bps r) now_us
            (last_decrease_us r) additive (recent_throughput_bytes_per_ms r))
  end.

Definition with_target (r : rate_t) (t : Z) : rate_t :=
  Rate (delay_estimate_bps r) (loss_estimate_bps r) t (last_increase_us r) (last_decrease_us r)
    (in_additive_mode r) (recent_throughput_bytes_per_ms r).

Definition with_loss (r : rate_t) (l : Z) : rate_t :=
  Rate (delay_estimate_bps r) l (current_target_bps r) (last_increase_us r) (last_decrease_us r)
    (in_additive_mode r) (recent_throughput_bytes_per_ms r).

Definition with_throughput (r : rate_t) (x : double) : rate_t :=
  Rate (delay_estimate_bps r) (loss_estimate_bps r) (current_target_bps r) (last_increase_us r)
    (last_decrease_us r) (in_additive_mode r) x.

(** whether the callback fires for the new target *)
Definition report_due (rp : report_t) (t now_us : Z) : bool :=
  let since_cb_ms :=
    if last_callback_us rp <? now_us then (now_us - last_callback_us rp) / 1000 else 0 in
  let diff := if last_reported_bps rp <? t then t - last_reported_bps rp else last_reported_bps rp - t in
  let big_change :=
    (0 <? last_reported_bps rp) &&
    dlt CHANGE_THRESHOLD (ddiv (dbl diff) (dbl (last_reported_bps rp))) in
  big_change || (CHANGE_KEEPALIVE_MS <? since_cb_ms).

Definition finalize_target (now_us : Z) (b : rtc_bwe_t) : rtc_bwe_t * list Z :=
  let r := rate b in
  let t := delay_estimate_bps r in
  let t := if loss_estimate_bps r <? t then loss_estimate_bps r else t in
  let t := clamp_bps (cfg b) t in
  let fires := on_bitrate (report b) && report_due (report b) t now_us in
  (Bwe (cfg b) (state b) (burst b) (trend b) (with_target r t)
     (if fires then Report true t now_us else report b),
   if fires then [t] else []).

(** the EWMA of the throughput over the burst that ended *)
Definition update_throughput (send_dt : Z) (bytes : Z) (r : rate_t) : rate_t :=
  let send_dt_ms := ddiv (dbl send_dt) (dbl 1000) in
  if dlt dzero send_dt_ms then
    let tput := ddiv (dbl bytes) send_dt_ms in
    let old := recent_throughput_bytes_per_ms r in
    with_throughput r (if deq old dzero then tput else dadd (dmul (lit 95 100) old) (dmul (lit 5 100) tput))
  else r.

Definition s64_val (x : Z) : res Z := if (- 2 ^ 63 <=? x) && (x <? 2 ^ 63) then Ok x else Fault.

Definition rtc_bwe_on_packet_feedback (send_time_us recv_time_us pkt_size : Z) (b : rtc_bwe_t)
    : res (rtc_bwe_t * list Z) :=
  if recv_time_us =? 0 then Ok (b, [])
  else
    let next := Burst send_time_us recv_time_us pkt_size true in
    if negb (has_prev_burst (burst b)) then
      Ok (Bwe (cfg b) (state b) next (trend b) (rate b) (report b), [])
    else
      send_dt ← s64_val (s64 send_time_us - s64 (last_burst_send_us (burst b)));
      if send_dt <? BURST_WINDOW_US then
        let recv := if last_burst_recv_us (burst b) <? recv_time_us then recv_time_us
                    else last_burst_recv_us (burst b) in
        Ok (Bwe (cfg b) (state b)
              (Burst (last_burst_send_us (burst b)) recv (u32 (burst_size_bytes (burst b) + pkt_size)) true)
              (trend b) (rate b) (report b), [])
      else
        recv_dt ← s64_val (s64 recv_time_us - s64 (last_burst_recv_us (burst b)));
        delay_us ← s64_val (recv_dt - send_dt);
        let delay_ms := ddiv (dbl delay_us) (dbl 1000) in
        let t := trend b in
        let acc := dadd (accumulated_delay_ms t) delay_ms in
        gi ← int_val (group_index t + 1);
        let t := Trend acc gi (tl_x t) (tl_y t) (tl_count t) (tl_pos t) (trend_threshold_ms t)
                   (last_slope_per_group t) in
        let r := update_throughput send_dt (burst_size_bytes (burst b)) (rate b) in
        ts ← trendline_push (dbl gi) acc t;
        let '(t, slope) := ts in
        let '(s, t) := detector_update slope t in
        r ← rate_control_step (cfg b) s send_time_us r;
        let '(b, reported) := finalize_target send_time_us (Bwe (cfg b) s (burst b) t r (report b)) in
        Ok (Bwe (cfg b) (state b) next (trend b) (rate b) (report b), reported).

Definition rtc_bwe_on_loss (fraction_lost_q8 : Z) (b : rtc_bwe_t) : res (rtc_bwe_t * list Z) :=
  let loss := ddiv (dbl fraction_lost_q8) (dbl 256) in
  let r := rate b in
  let prev := loss_estimate_bps r in
  est ← (if dlt loss (lit 2 100) then
           v ← u32_of_double (dmul (dbl prev) (lit 105 100)); Ok (clamp_bps (cfg b) v)
         else if dlt (lit 10 100) loss then
           v ← u32_of_double (dmul (dbl prev) (dsub (dbl 1) (dmul (lit 5 10) loss)));
           Ok (clamp_bps (cfg b) v)
         else Ok prev);
  Ok (finalize_target (last_increase_us r)
        (Bwe (cfg b) (state b) (burst b) (trend b) (with_loss r est) (report b))).

(** ** Bounds *)

#[local] Ltac lia := assert (SC = 3000) by reflexivity; Lia.lia.

(** bit rates for which no conversion overflows: 2^32 / 1.08 rounded down *)
Definition RATE_LIMIT : Z := 3900000000.

Lemma clamp_range c v : min_bps c <= max_bps c -> min_bps c <= clamp_bps c v <= max_bps c.
Proof.
  intros. unfold clamp_bps. repeat case_match; repeat match goal with
    | H : (_ <? _) = true |- _ => apply Z.ltb_lt in H | H : (_ <? _) = false |- _ => apply Z.ltb_ge in H end; lia.
Qed.

Lemma rep_dec m e : (0 <=? m) && (m <? 2 ^ 53) && (-1074 <=? e) && (e <=? 971) = true -> rep m e.
Proof.
  intros [[[H1%Z.leb_le H2%Z.ltb_lt]%andb_prop H3%Z.leb_le]%andb_prop H4%Z.leb_le]%andb_prop. split; lia.
Qed.

Lemma dle_dec x M E :
  match x with
  | S754_finite false m e =>
      (Z.pos m <? 2 ^ 53) && (-1074 <=? e) && ((2 ^ 52 <=? Z.pos m) || (e =? -1074)) && (V (Z.pos m) e <=? V M E)
  | _ => false
  end = true -> dle x M E.
Proof.
  destruct x as [| | |[] m e]; try done.
  intros [[[H1%Z.ltb_lt H2%Z.leb_le]%andb_prop H3]%andb_prop H4%Z.leb_le]%andb_prop.
  split; [|done]. unfold norm. apply orb_prop in H3 as [H3%Z.leb_le|H3%Z.eqb_eq]; lia.
Qed.

Lemma dbt_dec x M' E' M E :
  match x with
  | S754_finite false m e =>
      (Z.pos m <? 2 ^ 53) && (-1074 <=? e) && ((2 ^ 52 <=? Z.pos m) || (e =? -1074)) && (V (Z.pos m) e <=? V M E)
  | _ => false
  end && (match x with S754_finite _ m e => V M' E' <=? V (Z.pos m) e | _ => false end) = true -> dbt x M' E' M E.
Proof.
  intros [H1%dle_dec H2]%andb_prop. destruct x as [| | |[] m e]; try done.
  destruct H1. exists m, e. apply Z.leb_le in H2. split_and!; try done; lia.
Qed.

(** a scaled comparison of constants *)
Ltac vle := apply Z.leb_le; vm_compute; reflexivity.
Ltac vlt := apply Z.ltb_lt; vm_compute; reflexivity.
Ltac vrep := apply rep_dec; vm_compute; reflexivity.

(** multiplying a bit rate by a constant of at most 1.1 *)
Lemma scaled_rate prev f M E :
  0 <= prev <= RATE_LIMIT -> dle f M E -> V RATE_LIMIT 0 * V M E <= V (2 ^ 32 - 1) 0 * 2 ^ SC ->
  exists v, u32_of_double (dmul (dbl prev) f) = Ok v /\ 0 <= v < 2 ^ 32.
Proof.
  intros Hp Hf Hle. apply (u32_of_dle _ (2 ^ 32 - 1) 0); [|vm_compute; reflexivity].
  apply (dmul_le _ _ RATE_LIMIT 0 M E); [|done|vrep|done].
  apply dbl_le; [lia|vrep|apply V_mono; lia].
Qed.

Lemma mult_inc_ok prev :
  0 <= prev <= RATE_LIMIT -> exists v, u32_of_double (dmul (dbl prev) MULT_INC_FACTOR) = Ok v /\ 0 <= v < 2 ^ 32.
Proof.
  intros Hp. apply (scaled_rate _ _ 1107 (-10)); [done|by apply dle_dec; vm_compute|vle].
Qed.

(** ** Throughput *)

(** the largest burst: 2^19 bytes per millisecond over 5 ms *)
Definition BURST_LIMIT : Z := 2621440.

(** throughput of at most 2^19 bytes per millisecond *)
Definition tput_ok (x : double) : Prop := dle x 1 19.

Lemma send_dt_ms_bt send_dt :
  BURST_WINDOW_US <= send_dt < 2 ^ 63 -> dbt (ddiv (dbl send_dt) (dbl 1000)) 5 0 1 54.
Proof.
  intros Hs. unfold BURST_WINDOW_US in Hs. apply (ddiv_bt _ _ 5000 0 1 63 1000 0 1000 0);
    [| |vrep|vrep|done|vle|vle|vle|vlt|vle|vle].
  - apply dbl_bt; [vrep|vrep|done|]. split; [apply V_mono; lia|].
    transitivity (V (2 ^ 63) 0); [apply V_mono; lia|vle].
  - by apply dbt_dec; vm_compute.
Qed.

Lemma burst_tput_ok send_dt bytes :
  BURST_WINDOW_US <= send_dt < 2 ^ 63 -> 0 <= bytes <= BURST_LIMIT ->
  tput_ok (ddiv (dbl bytes) (ddiv (dbl send_dt) (dbl 1000))).
Proof.
  intros Hs Hb. pose proof (send_dt_ms_bt send_dt Hs) as Hd. unfold BURST_LIMIT in Hb.
  destruct (Z.eq_dec bytes 0) as [->|].
  - by destruct Hd as (p & e & -> & _).
  - eapply (dbt_dle _ 1 (-60)). apply (ddiv_bt _ _ 1 0 2621440 0 5 0 1 54);
      [|done|vrep|vrep|done|vle|vle|vle|vlt|vle|vle].
    apply dbl_bt; [vrep|vrep|done|]. split; apply V_mono; lia.
Qed.

Lemma update_throughput_ok send_dt bytes r :
  BURST_WINDOW_US <= send_dt < 2 ^ 63 -> 0 <= bytes <= BURST_LIMIT ->
  tput_ok (recent_throughput_bytes_per_ms r) ->
  exists x, update_throughput send_dt bytes r = with_throughput r x /\ tput_ok x.
Proof.
  intros Hs Hb Ho. pose proof (burst_tput_ok send_dt bytes Hs Hb) as Ht. unfold update_throughput.
  destruct (send_dt_ms_bt send_dt Hs) as (p & e & Hd & _). rewrite Hd in Ht |- *. cbn [dlt SFltb SFcompare dzero].
  destruct (deq _ _); [by eexists|]. eexists. split; [done|].
  apply (dadd_le _ _ 8556839292003942 (-34) 7205759403792794 (-38)); [| |vle|vle|vrep|vle].
  - apply (dmul_le _ _ 8556839292003942 (-53) 1 19); [by apply dle_dec; vm_compute|done|vrep|vle].
  - apply (dmul_le _ _ 7205759403792794 (-57) 1 19); [by apply dle_dec; vm_compute|done|vrep|vle].
Qed.

Lemma backoff_ok x :
  tput_ok x -> exists v, u32_of_double (dmul (dmul x (dbl 8000)) BACKOFF_FACTOR) = Ok v /\ 0 <= v < 2 ^ 32.
Proof.
  intros Hx. apply (u32_of_dle _ (2 ^ 32 - 1) 0); [|vm_compute; reflexivity].
  apply (dmul_le _ _ 4194304000 0 1 0); [|by apply dle_dec; vm_compute|vrep|vle].
  apply (dmul_le _ _ 1 19 8000 0); [done|by apply dle_dec; vm_compute|vrep|vle].
Qed.

(** ** Loss *)

Definition all_fractions : list Z := Z.of_nat <$> seq 0 256.

Lemma fraction_in q : 0 <= q < 256 -> q ∈ all_fractions.
Proof.
  intros. apply list_elem_of_fmap. exists (Z.to_nat q). split; [lia|]. apply elem_of_seq. lia.
Qed.

(** decide a property of every value of the RTCP field *)
Lemma fractions_check (f : Z -> bool) : forallb f all_fractions = true -> forall q, 0 <= q < 256 -> f q = true.
Proof.
  intros H q Hq. apply (proj1 (forallb_forall _ _) H). apply list_elem_of_In. by apply fraction_in.
Qed.

Definition loss_of (q : Z) : double := ddiv (dbl q) (dbl 256).
Definition loss_factor (q : Z) : double := dsub (dbl 1) (dmul (lit 5 10) (loss_of q)).

Lemma loss_low q : 0 <= q < 256 -> dlt (loss_of q) (lit 2 100) = (q <=? 5).
Proof.
  intros Hq. apply eqb_prop. pattern q. revert q Hq.
  apply (fractions_check (fun q => eqb (dlt (loss_of q) (lit 2 100)) (q <=? 5))). by vm_compute.
Qed.

Lemma loss_high q : 0 <= q < 256 -> dlt (lit 10 100) (loss_of q) = (26 <=? q).
Proof.
  intros Hq. apply eqb_prop. pattern q. revert q Hq.
  apply (fractions_check (fun q => eqb (dlt (lit 10 100) (loss_of q)) (26 <=? q))). by vm_compute.
Qed.

(** the factor 1 - loss / 2 is exact *)
Lemma loss_factor_exact q : 0 <= q < 256 -> dbt (loss_factor q) (512 - q) (-9) (512 - q) (-9).
Proof.
  intros Hq. apply dbt_dec. revert q Hq.
  match goal with |- forall q, _ -> @?f q = true => apply (fractions_check f) end. by vm_compute.
Qed.

Lemma loss_decrease prev q :
  0 <= prev < 2 ^ 32 -> 0 <= q < 256 ->
  u32_of_double (dmul (dbl prev) (loss_factor q)) = Ok (prev * (512 - q) / 512).
Proof.
  intros Hp Hq. pose proof (loss_factor_exact q Hq) as Hf. destruct (Z.eq_dec prev 0) as [->|].
  { by destruct Hf as (p & e & -> & _). }
  apply (u32_exact _ _ 9); [nia|lia|apply Z.div_lt_upper_bound; nia|].
  change (- (9)) with (-9). assert (Hr : rep (prev * (512 - q)) (-9)) by (split; nia).
  pose proof (V_mul prev 0 (512 - q) (-9) ltac:(lia) ltac:(lia)) as Hv. rewrite Z.add_0_l in Hv.
  apply (dmul_bt _ _ prev 0 prev 0 (512 - q) (-9) (512 - q) (-9)); try done;
    try (by apply V_nonneg; lia); try (rewrite Hv; apply Z.le_refl); [|nia].
  apply dbl_bt; try (split; lia); lia.
Qed.

Lemma loss_increase prev :
  0 < prev <= RATE_LIMIT ->
  exists v, u32_of_double (dmul (dbl prev) (lit 105 100)) = Ok v /\ prev <= v < 2 ^ 32.
Proof.
  intros Hp. destruct (scaled_rate prev (lit 105 100) 1107 (-10)) as (v & Hv & Hr);
    [lia|by apply dle_dec; vm_compute|vle|].
  exists v. split; [done|]. split; [|lia]. unfold RATE_LIMIT in Hp.
  assert (dbt (dmul (dbl prev) (lit 105 100)) prev 0 (2 ^ 40) 0) as (p & e & Hx & N & Hlo & _).
  { apply (dmul_bt _ _ prev 0 RATE_LIMIT 0 1 0 1107 (-10)); [| |vrep|split; lia|lia|apply V_nonneg; lia|vle|vle|].
    - apply dbl_bt; [vrep|split; lia|lia|split; apply V_mono; unfold RATE_LIMIT; lia].
    - by apply dbt_dec; vm_compute.
    - apply Z.mul_le_mono_nonneg_l; [apply V_nonneg; lia|vle]. }
  rewrite Hx in Hv. cbn [u32_of_double] in Hv. destruct (norm_exp _ _ N).
  destruct (floor_spec (Z.pos p) e ltac:(lia) ltac:(lia)) as [_ [_ Hf]]. cbv zeta in Hf, Hv.
  set (t := if 0 <=? e then _ else _) in *. destruct (_ && _); [|done]. injection Hv as <-.
  assert (prev < t + 1); [|lia]. apply (V_mono_lt _ _ 0); lia.
Qed.

(** ** Invariant *)

(** [n] bursts so far *)
Record bwe_ok (n : Z) (b : rtc_bwe_t) : Prop := {
  bo_cfg : 0 < min_bps (cfg b) <= max_bps (cfg b) /\ max_bps (cfg b) <= RATE_LIMIT;
  bo_delay : 0 <= delay_estimate_bps (rate b) <= max_bps (cfg b);
  bo_loss : 0 < loss_estimate_bps (rate b) <= max_bps (cfg b);
  bo_target : min_bps (cfg b) <= current_target_bps (rate b) <= max_bps (cfg b);
  bo_tput : tput_ok (recent_throughput_bytes_per_ms (rate b));
  bo_burst : 0 <= burst_size_bytes (burst b) <= BURST_LIMIT;
  bo_send : 0 <= last_burst_send_us (burst b) < 2 ^ 62;
  bo_recv : 0 <= last_burst_recv_us (burst b) < 2 ^ 62;
  bo_x : blen (tl_x (trend b)) = 20;
  bo_y : blen (tl_y (trend b)) = 20;
  bo_pos : 0 <= tl_pos (trend b) < 20;
  bo_count : 0 <= tl_count (trend b) <= 20;
  bo_groups : 0 <= group_index (trend b) <= n
}.

(** the estimate of the loss after a report, and the target *)
Lemma finalize_ok n now b :
  bwe_ok n b -> exists t rep fired, finalize_target now b =
    (Bwe (cfg b) (state b) (burst b) (trend b) (with_target (rate b) t) rep, fired) /\
    t = clamp_bps (cfg b) (Z.min (delay_estimate_bps (rate b)) (loss_estimate_bps (rate b))) /\
    Forall (fun x => x = t) fired /\ on_bitrate rep = on_bitrate (report b).
Proof.
  intros Hb. unfold finalize_target. cbv zeta. do 3 eexists. split_and!; [done| | |].
  - f_equal. destruct (Z.ltb_spec (loss_estimate_bps (rate b)) (delay_estimate_bps (rate b))); lia.
  - destruct (_ && _); by repeat constructor.
  - destruct (on_bitrate (report b)) eqn:E; simpl; [|done]. by destruct (report_due _ _ _).
Qed.

Lemma rate_control_ok c s now r :
  0 < min_bps c <= max_bps c -> max_bps c <= RATE_LIMIT -> 0 <= delay_estimate_bps r <= max_bps c ->
  tput_ok (recent_throughput_bytes_per_ms r) ->
  exists r', rate_control_step c s now r = Ok r' /\ 0 <= delay_estimate_bps r' <= max_bps c /\
    loss_estimate_bps r' = loss_estimate_bps r /\ current_target_bps r' = current_target_bps r /\
    recent_throughput_bytes_per_ms r' = recent_throughput_bytes_per_ms r.
Proof.
  intros Hc Hm Hd Ht. destruct s; cbn [rate_control_step].
  - cbv zeta. set (additive := if 3000 <? _ then false else in_additive_mode r).
    assert (exists v, (if additive then Ok (u32 (delay_estimate_bps r + ADDITIVE_INC_BPS))
      else u32_of_double (dmul (dbl (delay_estimate_bps r)) MULT_INC_FACTOR)) = Ok v) as [v Hv].
    { destruct additive; [by eexists|].
      destruct (mult_inc_ok (delay_estimate_bps r)) as (v & ? & _); [lia|by exists v]. }
    rewrite (bind_Ok_l _ _ _ Hv). eexists. split; [done|]. cbn.
    pose proof (clamp_range c v ltac:(lia)). split_and!; try done; lia.
  - destruct (backoff_ok _ Ht) as (v & Hv & Hr). cbv zeta. rewrite (bind_Ok_l _ _ _ Hv).
    eexists. split; [done|]. cbn [delay_estimate_bps loss_estimate_bps current_target_bps recent_throughput_bytes_per_ms].
    set (w := if v <? min_bps c then min_bps c else v).
    assert (0 < w) by (unfold w; destruct (Z.ltb_spec v (min_bps c)); lia).
    destruct (Z.ltb_spec w (delay_estimate_bps r)); split_and!; try done; lia.
  - by exists r.
Qed.

Lemma trendline_ok x y t :
  blen (tl_x t) = 20 -> blen (tl_y t) = 20 -> 0 <= tl_pos t < 20 -> 0 <= tl_count t <= 20 ->
  exists t' slope, trendline_push x y t = Ok (t', slope) /\ blen (tl_x t') = 20 /\ blen (tl_y t') = 20 /\
    0 <= tl_pos t' < 20 /\ 0 <= tl_count t' <= 20 /\ group_index t' = group_index t.
Proof.
  intros Hx Hy Hp Hc. unfold trendline_push. cbv zeta. rewrite !wr_Ok by lia. cbn [mbind res_bind].
  set (n := if tl_count t <? TRENDLINE_WINDOW then _ else _).
  assert (Hn : 0 <= n <= 20) by (unfold n, TRENDLINE_WINDOW; destruct (Z.ltb_spec (tl_count t) 20); lia).
  match goal with |- context [Trend ?a ?b ?c ?d n ?f ?g ?h] => set (t' := Trend a b c d n f g h) end.
  assert (Hpost : forall z : double, exists t1 slope, Ok (t', z) = Ok (t1, slope) /\ blen (tl_x t1) = 20 /\
    blen (tl_y t1) = 20 /\ 0 <= tl_pos t1 < 20 /\ 0 <= tl_count t1 <= 20 /\ group_index t1 = group_index t).
  { intros z. exists t', z. unfold t'. cbn. unfold blen in *. rewrite !length_insert. split_and!; try done; try lia.
    all: apply (Z.mod_pos_bound _ 20); lia. }
  destruct (n <? 3); [apply Hpost|].
  rewrite (bind_Ok_l _ _ ()).
  2: { apply fault_if_Ok. unfold blen in *. rewrite !length_insert. rewrite !(proj2 (Z.ltb_ge _ _)) by lia. done. }
  destruct (sums _) as [sx sy]. destruct (moments _ _ _) as [num den]. destruct (deq den dzero); apply Hpost.
Qed.

Lemma detector_frame slope t :
  exists s th, detector_update slope t = (s, Trend (accumulated_delay_ms t) (group_index t) (tl_x t) (tl_y t)
    (tl_count t) (tl_pos t) th slope).
Proof. unfold detector_update. cbv zeta. by do 2 eexists. Qed.

(** the burst being collected: when it began and its size *)
Definition cur_burst (b : rtc_bwe_t) : option (Z * Z) :=
  if has_prev_burst (burst b) then Some (last_burst_send_us (burst b), burst_size_bytes (burst b)) else None.

Definition next_burst (cur : option (Z * Z)) (send recv size : Z) : option (Z * Z) :=
  if recv =? 0 then cur
  else match cur with
       | Some (t, k) => if send - t <? BURST_WINDOW_US then Some (t, k + size) else Some (send, size)
       | None => Some (send, size)
       end.

Definition burst_small (c : option (Z * Z)) : Prop :=
  match c with Some (_, k) => k <= BURST_LIMIT | None => True end.

Definition in_range (c : rtc_bwe_config_t) (v : Z) : Prop := min_bps c <= v <= max_bps c.

Lemma s64_val_Ok x : - 2 ^ 63 <= x < 2 ^ 63 -> s64_val x = Ok x.
Proof. intros. unfold s64_val. by rewrite (proj2 (Z.leb_le _ _)), (proj2 (Z.ltb_lt _ _)) by lia. Qed.

Lemma s64_small x : 0 <= x < 2 ^ 62 -> s64 x = x.
Proof. intros. unfold s64, sint. rewrite Z.mod_small by lia. by rewrite (proj2 (Z.ltb_lt _ _)) by lia. Qed.

(** a packet that starts a new burst *)
Lemma new_burst_ok n b send recv size :
  bwe_ok n b -> 0 <= send < 2 ^ 62 -> 0 < recv < 2 ^ 62 -> 0 <= size < 2 ^ 16 -> n + 1 < 2 ^ 31 ->
  has_prev_burst (burst b) = true -> BURST_WINDOW_US <= send - last_burst_send_us (burst b) ->
  exists b' rs, rtc_bwe_on_packet_feedback send recv size b = Ok (b', rs) /\ bwe_ok (n + 1) b' /\
    cfg b' = cfg b /\ Forall (in_range (cfg b)) rs /\ cur_burst b' = Some (send, size).
Proof.
  intros [] Hs Hr Hz Hn Hp Hw. unfold rtc_bwe_on_packet_feedback.
  rewrite (proj2 (Z.eqb_neq recv 0)), Hp by lia. cbv zeta. cbn [negb].
  rewrite !s64_small by lia. rewrite (s64_val_Ok (send - last_burst_send_us (burst b))) by lia. cbn [mbind res_bind].
  rewrite (proj2 (Z.ltb_ge (send - last_burst_send_us (burst b)) BURST_WINDOW_US)) by lia.
  rewrite (s64_val_Ok (recv - last_burst_recv_us (burst b))) by lia. cbn [mbind res_bind].
  rewrite s64_val_Ok by lia. cbn [mbind res_bind]. rewrite int_val_Ok by (unfold INT_MAX; lia). cbn [mbind res_bind].
  destruct (update_throughput_ok (send - last_burst_send_us (burst b)) (burst_size_bytes (burst b)) (rate b))
    as (x & -> & Hx); [lia|done|done|].
  match goal with |- context [trendline_push ?u ?v ?w] =>
    destruct (trendline_ok u v w) as (t & slope & E & T1 & T2 & T3 & T4 & T5); [done..|] end.
  rewrite (bind_Ok_l _ _ _ E). destruct (detector_frame slope t) as (s & th & ->).
  destruct (rate_control_ok (cfg b) s send (with_throughput (rate b) x)) as (r & Er & R1 & R2 & R3 & R4); [lia|lia|done|done|].
  rewrite (bind_Ok_l _ _ _ Er). unfold finalize_target. cbv zeta. cbn in T5, R2, R3, R4.
  eexists _, _. split; [done|]. split_and!; [|done| |done].
  - split; cbn; try done; try lia; [apply clamp_range; lia|by rewrite R4|unfold BURST_LIMIT; lia].
  - destruct (_ && _); [|done]. repeat constructor; apply clamp_range; cbn; lia.
Qed.

Lemma bwe_ok_weaken n b : bwe_ok n b -> bwe_ok (n + 1) b.
Proof. intros []. split; try done; lia. Qed.

Lemma feedback_ok n b send recv size :
  bwe_ok n b -> 0 <= send < 2 ^ 62 -> 0 <= recv < 2 ^ 62 -> 0 <= size < 2 ^ 16 -> n + 1 < 2 ^ 31 ->
  burst_small (next_burst (cur_burst b) send recv size) ->
  exists b' rs, rtc_bwe_on_packet_feedback send recv size b = Ok (b', rs) /\ bwe_ok (n + 1) b' /\
    cfg b' = cfg b /\ Forall (in_range (cfg b)) rs /\
    cur_burst b' = next_burst (cur_burst b) send recv size.
Proof.
  intros Hb Hs Hr Hz Hn Hsmall. unfold next_burst, cur_burst in Hsmall |- *.
  destruct (Z.eqb_spec recv 0) as [->|Hr0].
  { exists b, []. split_and!; try done. by apply bwe_ok_weaken. }
  destruct (has_prev_burst (burst b)) eqn:Hp.
  - destruct (Z.ltb_spec (send - last_burst_send_us (burst b)) BURST_WINDOW_US) as [Hw|Hw].
    2: { destruct (new_burst_ok n b send recv size) as (b' & rs & ? & ? & ? & ? & Hc); try done; [lia|].
         exists b', rs. split_and!; try done. }
    destruct Hb. unfold rtc_bwe_on_packet_feedback. rewrite (proj2 (Z.eqb_neq recv 0)), Hp by lia. cbv zeta. cbn [negb].
    rewrite !s64_small by lia. rewrite (s64_val_Ok (send - last_burst_send_us (burst b))) by lia. cbn [mbind res_bind].
    rewrite (proj2 (Z.ltb_lt (send - last_burst_send_us (burst b)) BURST_WINDOW_US)) by lia.
    cbn in Hsmall. assert (Hu : u32 (burst_size_bytes (burst b) + size) = burst_size_bytes (burst b) + size).
    { apply Z.mod_small. unfold BURST_LIMIT in *. lia. }
    rewrite Hu. eexists _, []. split; [done|]. split_and!; try done. split; cbn; try done; try lia.
    destruct (last_burst_recv_us (burst b) <? recv); lia.
  - destruct Hb. unfold rtc_bwe_on_packet_feedback. rewrite (proj2 (Z.eqb_neq recv 0)), Hp by lia.
    eexists _, []. split; [done|]. split_and!; try done. split; cbn; try done; try lia. unfold BURST_LIMIT. lia.
Qed.

(** what the estimate of the loss controller becomes *)
Definition loss_spec (c : rtc_bwe_config_t) (q prev next : Z) : Prop :=
  if q <=? 5 then prev <= next
  else if q <=? 25 then next = prev
  else next = clamp_bps c (prev * (512 - q) / 512).

Lemma on_loss_ok n b q :
  bwe_ok n b -> 0 <= q < 256 ->
  exists b' rs, rtc_bwe_on_loss q b = Ok (b', rs) /\ bwe_ok n b' /\ cfg b' = cfg b /\
    Forall (in_range (cfg b)) rs /\ cur_burst b' = cur_burst b /\
    loss_spec (cfg b) q (loss_estimate_bps (rate b)) (loss_estimate_bps (rate b')) /\
    delay_estimate_bps (rate b') = delay_estimate_bps (rate b) /\
    current_target_bps (rate b') =
      clamp_bps (cfg b) (Z.min (delay_estimate_bps (rate b)) (loss_estimate_bps (rate b'))).
Proof.
  intros Hb Hq. pose proof Hb as [].
  assert (exists est, (if dlt (ddiv (dbl q) (dbl 256)) (lit 2 100) then
           v ← u32_of_double (dmul (dbl (loss_estimate_bps (rate b))) (lit 105 100)); Ok (clamp_bps (cfg b) v)
         else if dlt (lit 10 100) (ddiv (dbl q) (dbl 256)) then
           v ← u32_of_double (dmul (dbl (loss_estimate_bps (rate b)))
                 (dsub (dbl 1) (dmul (lit 5 10) (ddiv (dbl q) (dbl 256)))));
           Ok (clamp_bps (cfg b) v)
         else Ok (loss_estimate_bps (rate b))) = Ok est /\ 0 < est <= max_bps (cfg b) /\
         loss_spec (cfg b) q (loss_estimate_bps (rate b)) est) as (est & E & Hest & Hspec).
  { change (ddiv (dbl q) (dbl 256)) with (loss_of q). change (dsub (dbl 1) (dmul (lit 5 10) (loss_of q))) with (loss_factor q).
    rewrite loss_low, loss_high by done. unfold loss_spec. destruct (Z.leb_spec q 5).
    - destruct (loss_increase (loss_estimate_bps (rate b))) as (v & Ev & Hv); [unfold RATE_LIMIT in *; lia|].
      rewrite (bind_Ok_l _ _ _ Ev). eexists. split; [done|]. pose proof (clamp_range (cfg b) v ltac:(lia)).
      split; [lia|]. unfold clamp_bps. cbv zeta. destruct (Z.ltb_spec v (min_bps (cfg b))).
      + destruct (Z.ltb_spec (max_bps (cfg b)) (min_bps (cfg b))); lia.
      + destruct (Z.ltb_spec (max_bps (cfg b)) v); lia.
    - destruct (Z.leb_spec q 25); destruct (Z.leb_spec 26 q); try lia; [by eexists|].
      rewrite (bind_Ok_l _ _ _ (loss_decrease (loss_estimate_bps (rate b)) q ltac:(unfold RATE_LIMIT in *; lia) Hq)).
      eexists. split; [done|]. split; [|done]. pose proof (clamp_range (cfg b) (loss_estimate_bps (rate b) * (512 - q) / 512) ltac:(lia)). lia. }
  unfold rtc_bwe_on_loss. cbv zeta. rewrite (bind_Ok_l _ _ _ E).
  set (b1 := Bwe (cfg b) (state b) (burst b) (trend b) (with_loss (rate b) est) (report b)).
  assert (Hb1 : bwe_ok n b1) by (by split).
  destruct (finalize_ok n (last_increase_us (rate b)) b1 Hb1) as (t & rp & fired & -> & Ht & Hf & _).
  assert (Hr : in_range (cfg b) t) by (rewrite Ht; apply clamp_range; cbn; lia).
  eexists _, fired. split; [done|]. split_and!; try done.
  apply Forall_forall. intros x Hx. rewrite Forall_forall in Hf. by rewrite (Hf x Hx).
Qed.

(** ** Runs *)

Inductive bwe_event := Feedback (send recv size : Z) | Loss (q : Z).

Definition event_ok (e : bwe_event) : Prop :=
  match e with
  | Feedback send recv size => 0 <= send < 2 ^ 62 /\ 0 <= recv < 2 ^ 62 /\ 0 <= size < 2 ^ 16
  | Loss q => 0 <= q < 256
  end.

Definition bwe_step (e : bwe_event) (b : rtc_bwe_t) : res (rtc_bwe_t * list Z) :=
  match e with
  | Feedback send recv size => rtc_bwe_on_packet_feedback send recv size b
  | Loss q => rtc_bwe_on_loss q b
  end.

Fixpoint bwe_run (evs : list bwe_event) (b : rtc_bwe_t) : res (rtc_bwe_t * list Z) :=
  match evs with
  | [] => Ok (b, [])
  | e :: evs => p ← bwe_step e b; q ← bwe_run evs p.1; Ok (q.1, p.2 ++ q.2)
  end.

(** no burst exceeds the limit *)
Fixpoint bursts_small (cur : option (Z * Z)) (evs : list bwe_event) : Prop :=
  match evs with
  | [] => True
  | Feedback send recv size :: evs =>
      let c := next_burst cur send recv size in burst_small c /\ bursts_small c evs
  | Loss _ :: evs => bursts_small cur evs
  end.

Lemma run_ok evs : forall n b,
  bwe_ok n b -> Forall event_ok evs -> n + Z.of_nat (length evs) < 2 ^ 31 -> bursts_small (cur_burst b) evs ->
  exists b' rs, bwe_run evs b = Ok (b', rs) /\ bwe_ok (n + Z.of_nat (length evs)) b' /\
    cfg b' = cfg b /\ Forall (in_range (cfg b)) rs.
Proof.
  induction evs as [|e evs IH]; intros n b Hb He Hn Hs.
  { exists b, []. split_and!; try done. cbn. by rewrite Z.add_0_r. }
  apply Forall_cons_1 in He as [He Hes]. rewrite length_cons in Hn.
  assert (exists b1 rs1, bwe_step e b = Ok (b1, rs1) /\ bwe_ok (n + 1) b1 /\ cfg b1 = cfg b /\
    Forall (in_range (cfg b)) rs1 /\ bursts_small (cur_burst b1) evs) as (b1 & rs1 & E1 & Hb1 & Hc1 & Hr1 & Hs1).
  { destruct e as [send recv size|q]; cbn in He, Hs |- *.
    - destruct Hs as [Hk Hs]. destruct (feedback_ok n b send recv size) as (b1 & rs1 & ? & ? & ? & ? & Hcur);
        [done|lia..|done|]. exists b1, rs1. split_and!; try done. by rewrite Hcur.
    - destruct (on_loss_ok n b q Hb He) as (b1 & rs1 & ? & ? & ? & ? & Hcur & _). exists b1, rs1.
      split_and!; try done; [by apply bwe_ok_weaken|by rewrite Hcur]. }
  destruct (IH (n + 1) b1) as (b2 & rs2 & E2 & Hb2 & Hc2 & Hr2); [done|done|lia|done|].
  exists b2, (rs1 ++ rs2). cbn [bwe_run]. rewrite (bind_Ok_l _ _ _ E1). cbn [fst snd].
  rewrite (bind_Ok_l _ _ _ E2). split_and!; [done| |by rewrite Hc2|].
  - replace (n + Z.of_nat (length (e :: evs))) with (n + 1 + Z.of_nat (length evs)) by (rewrite length_cons; lia). done.
  - apply Forall_app. rewrite Hc1 in Hr2. done.
Qed.

Lemma bwe_create_ok c b :
  0 < min_bps c <= max_bps c -> max_bps c <= RATE_LIMIT -> in_range c (initial_bps c) ->
  rtc_bwe_create true c = Some b -> bwe_ok 0 b /\ cfg b = c /\ cur_burst b = None.
Proof.
  unfold in_range. intros H1 H2 H3. unfold rtc_bwe_create.
  destruct (_ || _); [done|]. intros [= <-]. split; [|done]. split; cbn; try done; try lia.
Qed.

(** C35: The estimate stays in its limits and no conversion overflows.  From a
    fresh estimator with an initial rate between the configured limits and an
    upper limit of at most 3.9 Gbit/s, on any sequence of fewer than 2^31
    transport feedback and loss reports in which no 5 ms burst exceeds 2.5 MB, every conversion of a double to an integer is defined, the
    target always lies between [min_bps] and [max_bps] and so does every
    bit rate reported to the application. *)
Theorem bwe_within_limits c b fn evs :
  0 < min_bps c <= max_bps c -> max_bps c <= RATE_LIMIT -> in_range c (initial_bps c) ->
  rtc_bwe_create true c = Some b -> Forall event_ok evs -> Z.of_nat (length evs) < 2 ^ 31 ->
  bursts_small None evs ->
  exists b' rs, bwe_run evs (rtc_bwe_on_bitrate_change b fn) = Ok (b', rs) /\
    in_range c (rtc_bwe_target_bitrate b') /\ Forall (in_range c) rs.
Proof.
  intros H1 H2 H3 Hc He Hn Hs. destruct (bwe_create_ok c b H1 H2 H3 Hc) as (Hb & Hcfg & Hcur).
  destruct (run_ok evs 0 (rtc_bwe_on_bitrate_change b fn)) as (b' & rs & E & Hb' & Hc' & Hr); [|done|lia| |].
  - destruct Hb. by split.
  - by change (cur_burst (rtc_bwe_on_bitrate_change b fn)) with (cur_burst b); rewrite Hcur.
  - exists b', rs. cbn in Hc', Hr. rewrite Hcfg in Hc', Hr. split_and!; try done.
    unfold rtc_bwe_target_bitrate, in_range. rewrite <-Hc'. by destruct Hb'.
Qed.

(** The loss controller is exact.  For every value of the 8-bit loss
    fraction, in every state the estimator reaches: up to 5/256 the loss
    estimate does not fall, from 6/256 to 25/256 it is kept, and above it is
    multiplied by 1 - loss/2, rounded down without any floating-point error;
    the new target is the smaller of the two estimates, clamped. *)
Theorem bwe_loss_response n b q :
  bwe_ok n b -> 0 <= q < 256 ->
  exists b' rs, rtc_bwe_on_loss q b = Ok (b', rs) /\
    loss_spec (cfg b) q (loss_estimate_bps (rate b)) (loss_estimate_bps (rate b')) /\
    rtc_bwe_target_bitrate b' =
      clamp_bps (cfg b) (Z.min (delay_estimate_bps (rate b)) (loss_estimate_bps (rate b'))).
Proof.
  intros Hb Hq. destruct (on_loss_ok n b q Hb Hq) as (b' & rs & E & _ & _ & _ & _ & Hs & _ & Ht).
  by exists b', rs.
Qed.

(** ** Witnesses *)

Definition config0 : rtc_bwe_config_t := Config 500000 100000 4000000.
Definition bwe0 : rtc_bwe_t := default (Bwe config0 RTC_BWE_NORMAL (Burst 0 0 0 false)
  (Trend dzero 0 [] [] 0 0 dzero dzero) (Rate 0 0 0 0 0 false dzero) (Report false 0 0)) (rtc_bwe_create true config0).

Definition events0 : list bwe_event :=
  [Feedback 1000 2000 1200; Feedback 3000 4000 1200; Feedback 20000 30000 1200; Loss 40; Feedback 40000 70000 1200].

Lemma bwe_within_limits_witness :
  exists b' rs, bwe_run events0 (rtc_bwe_on_bitrate_change bwe0 true) = Ok (b', rs) /\
    in_range config0 (rtc_bwe_target_bitrate b') /\ Forall (in_range config0) rs.
Proof.
  apply (bwe_within_limits config0 bwe0 true events0); unfold in_range; cbn; try lia; try done.
  repeat constructor; lia.
Defined.

Lemma bwe_loss_response_witness :
  exists b' rs, rtc_bwe_on_loss 128 bwe0 = Ok (b', rs) /\
    loss_spec (cfg bwe0) 128 (loss_estimate_bps (rate bwe0)) (loss_estimate_bps (rate b')) /\
    rtc_bwe_target_bitrate b' =
      clamp_bps (cfg bwe0) (Z.min (delay_estimate_bps (rate bwe0)) (loss_estimate_bps (rate b'))).
Proof.
  apply (bwe_loss_response 0); [|lia]. split; vm_compute; try done; split; done.
Defined.

(** Without the bound on bursts the conversion is undefined: 3.9 MB sent
    within one 5 ms burst and a rising delay.  *)
Lemma bwe_large_burst_undefined :
  bwe_run (concat (replicate 60 [Feedback 1000 2000 65535]) ++
    [Feedback 6000 9000 100; Feedback 12000 29000 100; Feedback 18000 69000 100]) bwe0 = Fault.
Proof. vm_compute. reflexivity. Qed.
End Bwe.
