(* ===== verification/Srtp.v ===== *)
(** * SRTP and SRTCP (rtc/src/rtc_srtp.c, rtc/src/rtc_srtp.h)

    The replay window, the per-SSRC stream tables, key derivation, IV
    construction, and the protect / unprotect entry points of both profile
    families (AES-CM with HMAC-SHA1-80, AES-GCM).  OpenSSL is the record
    [evp] of the primitives the file calls.  The mutex of the context makes
    each entry point one atomic step, so the context is the state of an [st]
    computation.  A buffer argument is the list of its [*len] bytes; what an
    entry point leaves in the buffer when it returns an error is not
    modelled (every caller drops the packet). *)

From S2P Require Import Prelude.
From Stdlib Require Import ZArith Lia.
From stdpp Require Import base list numbers.
#[local] Open Scope Z_scope.

Module Srtp.

Definition SRTP_MAX_KEY_LEN : Z := 32.
Definition SRTP_MAX_SALT_LEN : Z := 14.
Definition SRTP_AUTH_TAG_LEN : Z := 10.
Definition SRTP_GCM_TAG_LEN : Z := 16.
Definition SRTP_REPLAY_WINDOW_SIZE : Z := 128.
Definition SRTP_REPLAY_MAX_STREAMS : nat := 8.

Inductive rtc_srtp_profile_t :=
  | AES128_CM_SHA1_80 | AEAD_AES_128_GCM | AEAD_AES_256_GCM.
#[export] Instance profile_eq_dec : EqDecision rtc_srtp_profile_t.
Proof. solve_decision. Defined.

Definition SRTP_LABEL_RTP_ENCRYPTION : Z := 0.
Definition SRTP_LABEL_RTP_AUTH : Z := 1.
Definition SRTP_LABEL_RTP_SALT : Z := 2.
Definition SRTP_LABEL_RTCP_ENCRYPTION : Z := 3.
Definition SRTP_LABEL_RTCP_AUTH : Z := 4.
Definition SRTP_LABEL_RTCP_SALT : Z := 5.

Record rtc_srtp_replay_t := Replay {
  highest_index : Z;
  window0 : Z;
  window1 : Z;
  replay_initialized : bool
}.
Definition replay_zero : rtc_srtp_replay_t := Replay 0 0 0 false.

Record rtc_srtp_replay_entry_t := Entry {
  e_ssrc : Z;
  in_use : bool;
  lru_tick : Z;
  roc : Z;
  last_seq : Z;
  roc_init : bool;
  replay : rtc_srtp_replay_t
}.
Definition entry_zero : rtc_srtp_replay_entry_t :=
  Entry 0 false 0 0 0 false replay_zero.

Abbreviation table_t := (list rtc_srtp_replay_entry_t).

Record rtc_srtp_ctx_t := Ctx {
  profile : rtc_srtp_profile_t;
  key_len : Z;
  salt_len : Z;
  master_key : bytes;
  master_salt : bytes;
  session_key : bytes;
  session_salt : bytes;
  session_auth_key : bytes;
  rtcp_session_key : bytes;
  rtcp_session_salt : bytes;
  rtcp_session_auth_key : bytes;
  srtcp_index : Z;
  rtp_send : table_t;
  rtp_replay : table_t;
  rtcp_replay : table_t;
  send_lru_tick : Z;
  replay_lru_tick : Z;
  initialized : bool
}.

Definition zeros (n : Z) : bytes := replicate (Z.to_nat n) 0.
(** a fixed array of [n] bytes after [memcpy] of [l] to its start *)
Definition arr (n : Z) (l : bytes) : bytes := l ++ zeros (n - blen l).

(** [memset(ctx, 0, sizeof( *ctx))] *)
Definition ctx_zero : rtc_srtp_ctx_t :=
  Ctx AES128_CM_SHA1_80 0 0 (zeros 32) (zeros 14) (zeros 32) (zeros 14) (zeros 20)
    (zeros 32) (zeros 14) (zeros 20) 0
    (replicate SRTP_REPLAY_MAX_STREAMS entry_zero)
    (replicate SRTP_REPLAY_MAX_STREAMS entry_zero)
    (replicate SRTP_REPLAY_MAX_STREAMS entry_zero) 0 0 false.

Definition set_send (t : table_t) (tick : Z) (c : rtc_srtp_ctx_t) : rtc_srtp_ctx_t :=
  Ctx (profile c) (key_len c) (salt_len c) (master_key c) (master_salt c)
    (session_key c) (session_salt c) (session_auth_key c) (rtcp_session_key c)
    (rtcp_session_salt c) (rtcp_session_auth_key c) (srtcp_index c)
    t (rtp_replay c) (rtcp_replay c) tick (replay_lru_tick c) (initialized c).
Definition set_rtp_replay (t : table_t) (tick : Z) (c : rtc_srtp_ctx_t) : rtc_srtp_ctx_t :=
  Ctx (profile c) (key_len c) (salt_len c) (master_key c) (master_salt c)
    (session_key c) (session_salt c) (session_auth_key c) (rtcp_session_key c)
    (rtcp_session_salt c) (rtcp_session_auth_key c) (srtcp_index c)
    (rtp_send c) t (rtcp_replay c) (send_lru_tick c) tick (initialized c).
Definition set_rtcp_replay (t : table_t) (tick : Z) (c : rtc_srtp_ctx_t) : rtc_srtp_ctx_t :=
  Ctx (profile c) (key_len c) (salt_len c) (master_key c) (master_salt c)
    (session_key c) (session_salt c) (session_auth_key c) (rtcp_session_key c)
    (rtcp_session_salt c) (rtcp_session_auth_key c) (srtcp_index c)
    (rtp_send c) (rtp_replay c) t (send_lru_tick c) tick (initialized c).
Definition set_srtcp_index (i : Z) (c : rtc_srtp_ctx_t) : rtc_srtp_ctx_t :=
  Ctx (profile c) (key_len c) (salt_len c) (master_key c) (master_salt c)
    (session_key c) (session_salt c) (session_auth_key c) (rtcp_session_key c)
    (rtcp_session_salt c) (rtcp_session_auth_key c) i
    (rtp_send c) (rtp_replay c) (rtcp_replay c) (send_lru_tick c) (replay_lru_tick c)
    (initialized c).

(** ** Replay window *)

Definition srtp_replay_check (r : rtc_srtp_replay_t) (index : Z) : rtc_srtp_replay_t * res unit :=
  if negb (replay_initialized r) then (Replay index 1 0 true, Ok ())
  else if highest_index r <? index then
    let delta := index - highest_index r in
    let '(w0, w1) :=
      if SRTP_REPLAY_WINDOW_SIZE <=? delta then (1, 0)
      else if 64 <=? delta then
        (Z.lor 0 1, u64 (Z.shiftl (window0 r) (delta - 64)))
      else
        let hi_shift :=
          Z.lor (u64 (Z.shiftl (window1 r) delta))
            (if delta =? 0 then 0 else Z.shiftr (window0 r) (64 - delta)) in
        (Z.lor (u64 (Z.shiftl (window0 r) delta)) 1, hi_shift) in
    (Replay index w0 w1 true, Ok ())
  else
    let delta := highest_index r - index in
    if SRTP_REPLAY_WINDOW_SIZE <=? delta then (r, Err RTC_ERR_SRTP)
    else
      let mask := Z.shiftl 1 (Z.land delta 63) in
      let word := if Z.shiftr delta 6 =? 0 then window0 r else window1 r in
      if negb (Z.land word mask =? 0) then (r, Err RTC_ERR_SRTP)
      else
        (if Z.shiftr delta 6 =? 0
         then Replay (highest_index r) (Z.lor word mask) (window1 r) true
         else Replay (highest_index r) (window0 r) (Z.lor word mask) true, Ok ()).

(** ** Stream tables *)

Fixpoint srtp_find_ssrc (table : table_t) (ssrc : Z) : option rtc_srtp_replay_entry_t :=
  match table with
  | [] => None
  | e :: t => if in_use e && (e_ssrc e =? ssrc) then Some e else srtp_find_ssrc t ssrc
  end.

Definition tbl_get (table : table_t) (i : nat) : rtc_srtp_replay_entry_t :=
  default entry_zero (table !! i).

(** The scan of [srtp_entry_for_ssrc] from index [i]: [inl] the slot of the
    SSRC, [inr] the slot to reuse. *)
Fixpoint entry_scan (table rest : table_t) (i : nat) (free_slot : option nat)
    (lru_slot : nat) (ssrc : Z) : nat + nat :=
  match rest with
  | [] => inr (default lru_slot free_slot)
  | e :: rest' =>
      if in_use e && (e_ssrc e =? ssrc) then inl i
      else
        let free_slot :=
          if negb (in_use e) && (match free_slot with None => true | _ => false end)
          then Some i else free_slot in
        let lru_slot := if lru_tick e <? lru_tick (tbl_get table lru_slot) then i else lru_slot in
        entry_scan table rest' (S i) free_slot lru_slot ssrc
  end.

(** Returns the table, the tick and the index of the entry. *)
Definition srtp_entry_for_ssrc (table : table_t) (tick : Z) (ssrc : Z) : table_t * Z * nat :=
  let tick' := u64 (tick + 1) in
  match entry_scan table table 0 None 0 ssrc with
  | inl i =>
      let e := tbl_get table i in
      (<[i := Entry (e_ssrc e) (in_use e) tick' (roc e) (last_seq e) (roc_init e) (replay e)]>
         table, tick', i)
  | inr i => (<[i := Entry ssrc true tick' 0 0 false replay_zero]> table, tick', i)
  end.

(** ** OpenSSL primitives

    [Err] is the error code the calling C helper returns when the OpenSSL
    call fails ([RTC_ERR_NOMEM] when a context cannot be allocated,
    [RTC_ERR_SRTP] otherwise). *)

Class Evp := {
  (** EVP_MAC "HMAC" with digest SHA1: key, message *)
  evp_hmac_sha1 : bytes -> bytes -> res bytes;
  (** EVP_CIPHER_CTX_new in srtp_kdf *)
  evp_ctx_new : bool;
  (** one block of AES-ECB ([true]: AES-256): key, block *)
  evp_aes_ecb : bool -> bytes -> bytes -> bytes;
  (** AES-128-CTR: key, IV, data *)
  evp_aes_128_ctr : bytes -> bytes -> bytes -> res bytes;
  (** AES-GCM ([true]: AES-256): key, IV, AAD, plaintext; ciphertext and tag *)
  evp_gcm_encrypt : bool -> bytes -> bytes -> bytes -> bytes -> res (bytes * bytes);
  (** AES-GCM: key, IV, AAD, ciphertext, tag; plaintext *)
  evp_gcm_decrypt : bool -> bytes -> bytes -> bytes -> bytes -> bytes -> res bytes
}.

(** Documented behaviour: SHA-1 MACs have 20 bytes, ECB maps blocks to
    blocks, counter mode xors a keystream that depends on key and IV only,
    and an AEAD decryption with the arguments of an encryption succeeds. *)
Class EvpLaws `{Evp} := {
  hmac_ok : forall k m, exists t, evp_hmac_sha1 k m = Ok t /\ length t = 20%nat;
  ecb_len : forall b k x, length (evp_aes_ecb b k x) = 16%nat;
  ctr_xor : forall k iv, exists ks : nat -> Z, forall d,
    evp_aes_128_ctr k iv d = Ok (imap (fun i b => Z.lxor b (ks i)) d);
  gcm_ok : forall b k iv aad p, exists c t,
    evp_gcm_encrypt b k iv aad p = Ok (c, t) /\
    length c = length p /\ length t = 16%nat /\
    evp_gcm_decrypt b k iv aad c t = Ok p
}.

Section Ops.
Context `{Evp}.

Definition srtp_hmac_sha1 (key data1 data2 : bytes) : res bytes :=
  evp_hmac_sha1 key (data1 ++ data2).

(** ** Key derivation *)

Definition xor_bytes (a b : bytes) : bytes := zip_with Z.lxor a b.

Fixpoint kdf_loop (fuel : nat) (prf256 : bool) (mk x : bytes) (produced out_len block_count : Z)
    (out : bytes) : res bytes :=
  if produced <? out_len then
    match fuel with
    | O => Fault
    | S fuel =>
        let iv := x ++ [Z.land (Z.shiftr block_count 8) 255; Z.land block_count 255] in
        let block := evp_aes_ecb prf256 mk iv in
        let remaining := out_len - produced in
        let copy := if remaining <? 16 then remaining else 16 in
        b ← sub block 0 copy;
        kdf_loop fuel prf256 mk x (produced + copy) out_len (u16 (block_count + 1)) (out ++ b)
    end
  else Ok out.

Definition srtp_kdf (master_key : bytes) (mk_len : Z) (master_salt : bytes) (salt_len : Z)
    (label : Z) (out_len : Z) : res bytes :=
  let salt_len := if 14 <? salt_len then 14 else salt_len in
  s ← sub master_salt 0 salt_len;
  let x := arr 14 s in
  x7 ← rd x 7;
  x ← wr x 7 (Z.lxor x7 label);
  _ ← fail_if (negb evp_ctx_new) RTC_ERR_NOMEM;
  let prf256 := 32 <=? mk_len in
  mk ← sub master_key 0 (if prf256 then 32 else 16);
  kdf_loop (Z.to_nat out_len) prf256 mk x 0 out_len 0 [].

Definition rtc_srtp_init_profile (mutex_ok : bool) (p : rtc_srtp_profile_t)
    (mkey : bytes) (klen : Z) (msalt : bytes) (slen : Z) : rtc_srtp_ctx_t * res unit :=
  if negb mutex_ok then (ctx_zero, Err RTC_ERR_GENERIC) else
  let klen := if SRTP_MAX_KEY_LEN <? klen then SRTP_MAX_KEY_LEN else klen in
  let slen := if SRTP_MAX_SALT_LEN <? slen then SRTP_MAX_SALT_LEN else slen in
  let kdf := srtp_kdf mkey klen msalt slen in
  let result :=
    mk ← sub mkey 0 klen; ms ← sub msalt 0 slen;
    sk ← kdf SRTP_LABEL_RTP_ENCRYPTION klen;
    ss ← kdf SRTP_LABEL_RTP_SALT slen;
    rk ← kdf SRTP_LABEL_RTCP_ENCRYPTION klen;
    rs ← kdf SRTP_LABEL_RTCP_SALT slen;
    ak ← (if bool_decide (p = AES128_CM_SHA1_80) then
            a ← kdf SRTP_LABEL_RTP_AUTH 20; b ← kdf SRTP_LABEL_RTCP_AUTH 20; Ok (a, b)
          else Ok (zeros 20, zeros 20));
    let z := ctx_zero in
    Ok (Ctx p klen slen (arr 32 mk) (arr 14 ms) (arr 32 sk) (arr 14 ss) (fst ak)
          (arr 32 rk) (arr 14 rs) (snd ak) (srtcp_index z) (rtp_send z) (rtp_replay z)
          (rtcp_replay z) (send_lru_tick z) (replay_lru_tick z) true) in
  match result with
  | Ok c => (c, Ok ())
  | Err e => (ctx_zero, Err e)
  | Fault => (ctx_zero, Fault)
  end.

Definition rtc_srtp_init (mutex_ok : bool) (mkey : bytes) (klen : Z) (msalt : bytes) (slen : Z) :=
  rtc_srtp_init_profile mutex_ok AES128_CM_SHA1_80 mkey klen msalt slen.

(** ** Ciphers *)

(** The 14 bytes under the salt in [srtp_aes_cm]: SSRC at 4..7, ROC at 8..11,
    sequence number at 12..13; 14..15 is the block counter. *)
Definition srtp_cm_iv (salt : bytes) (ssrc roc seq : Z) : bytes :=
  xor_bytes ([0; 0; 0; 0] ++ be32 ssrc ++ be32 roc ++ be16 seq) salt ++ [0; 0].

Definition srtp_aes_cm (key salt : bytes) (ssrc roc seq : Z) (data : bytes) : res bytes :=
  evp_aes_128_ctr (take 16 key) (srtp_cm_iv salt ssrc roc seq) data.

Definition srtp_gcm_rtp_iv (salt : bytes) (ssrc roc seq : Z) : bytes :=
  xor_bytes ([0; 0] ++ be32 ssrc ++ be32 roc ++ be16 seq) (take 12 salt).

Definition srtp_gcm_rtcp_iv (salt : bytes) (ssrc index : Z) : bytes :=
  xor_bytes ([0; 0] ++ be32 ssrc ++ [0; 0] ++ be32 index) (take 12 salt).

Definition srtp_is_gcm (p : rtc_srtp_profile_t) : bool :=
  bool_decide (p = AEAD_AES_128_GCM) || bool_decide (p = AEAD_AES_256_GCM).

(** [true]: AES-256-GCM *)
Definition srtp_gcm_cipher (c : rtc_srtp_ctx_t) : bool := 32 <=? key_len c.

Definition gcm_key (cipher : bool) (key : bytes) : bytes := if cipher then key else take 16 key.

Definition srtp_aes_gcm_enc (cipher : bool) (key iv aad1 aad2 data : bytes) : res (bytes * bytes) :=
  evp_gcm_encrypt cipher (gcm_key cipher key) iv (aad1 ++ aad2) data.
Definition srtp_aes_gcm_dec (cipher : bool) (key iv aad1 aad2 data tag : bytes) : res bytes :=
  evp_gcm_decrypt cipher (gcm_key cipher key) iv (aad1 ++ aad2) data tag.

Definition srtp_rtp_header_len (buf : bytes) (len : Z) : res Z :=
  b0 ← rd buf 0;
  let hdr_len := 12 + Z.land b0 15 * 4 in
  hdr_len ← (if negb (Z.land b0 16 =? 0) then
               _ ← fail_if (len <? hdr_len + 4) RTC_ERR_INVALID;
               ext_words ← rd_u16 buf (hdr_len + 2);
               Ok (hdr_len + 4 + ext_words * 4)
             else Ok hdr_len);
  _ ← fail_if (len <? hdr_len) RTC_ERR_INVALID;
  Ok hdr_len.

(** ** Sender state: the rollover counter of the packet's SSRC *)

Definition roc_wrapped (e : rtc_srtp_replay_entry_t) (seq : Z) : bool :=
  (seq <? last_seq e) && (0x8000 <? last_seq e - seq).

Definition send_roc (ssrc seq : Z) : st rtc_srtp_ctx_t Z :=
  c ← get;
  let '(t, tick, i) := srtp_entry_for_ssrc (rtp_send c) (send_lru_tick c) ssrc in
  let e := tbl_get t i in
  let roc' := if negb (roc_init e) then roc e
              else if roc_wrapped e seq then u32 (roc e + 1) else roc e in
  let e' := Entry (e_ssrc e) (in_use e) (lru_tick e) roc' seq true (replay e) in
  _ ← put (set_send (<[i := e']> t) tick c);
  mret roc'.

(** ** Receiver state *)

Definition recv_roc (table : table_t) (ssrc seq : Z) : Z :=
  match srtp_find_ssrc table ssrc with
  | None => 0
  | Some known =>
      if roc_init known && roc_wrapped known seq then u32 (roc known + 1) else roc known
  end.

Definition pkt_index (roc seq : Z) : Z := Z.lor (Z.shiftl roc 16) seq.

(** Allocate the entry and run the replay check on it; the entry's slot. *)
Definition rtp_replay_step (ssrc index : Z) : st rtc_srtp_ctx_t nat :=
  c ← get;
  let '(t, tick, i) := srtp_entry_for_ssrc (rtp_replay c) (replay_lru_tick c) ssrc in
  let e := tbl_get t i in
  let '(r, rc) := srtp_replay_check (replay e) index in
  let e' := Entry (e_ssrc e) (in_use e) (lru_tick e) (roc e) (last_seq e) (roc_init e) r in
  _ ← put (set_rtp_replay (<[i := e']> t) tick c);
  _ ← lift rc;
  mret i.

Definition rtcp_replay_step (ssrc index : Z) : st rtc_srtp_ctx_t unit :=
  c ← get;
  let '(t, tick, i) := srtp_entry_for_ssrc (rtcp_replay c) (replay_lru_tick c) ssrc in
  let e := tbl_get t i in
  let '(r, rc) := srtp_replay_check (replay e) index in
  let e' := Entry (e_ssrc e) (in_use e) (lru_tick e) (roc e) (last_seq e) (roc_init e) r in
  _ ← put (set_rtcp_replay (<[i := e']> t) tick c);
  lift rc.

(** Update the rollover state of slot [i] after an accepted packet. *)
Definition recv_update (i : nat) (seq new_roc : Z) : st rtc_srtp_ctx_t unit :=
  c ← get;
  let e := tbl_get (rtp_replay c) i in
  if negb (roc_init e) || (last_seq e <? seq) || (0x8000 <? last_seq e - seq) then
    let e' := Entry (e_ssrc e) (in_use e) (lru_tick e) new_roc seq true (replay e) in
    put (set_rtp_replay (<[i := e']> (rtp_replay c)) (replay_lru_tick c) c)
  else mret ().

(** ** AES-GCM entry points *)

Definition srtp_protect_gcm (buf : bytes) (buf_cap : Z) : st rtc_srtp_ctx_t bytes :=
  let len := blen buf in
  _ ← lift (fail_if ((buf_cap <? len) || (buf_cap - len <? SRTP_GCM_TAG_LEN)) RTC_ERR_NOMEM);
  seq ← lift (rd_u16 buf 2);
  ssrc ← lift (rd_u32 buf 8);
  roc ← send_roc ssrc seq;
  hdr_len ← lift (srtp_rtp_header_len buf len);
  c ← get;
  let iv := srtp_gcm_rtp_iv (session_salt c) ssrc roc seq in
  hdr ← lift (sub buf 0 hdr_len);
  data ← lift (sub buf hdr_len (len - hdr_len));
  ct ← lift (srtp_aes_gcm_enc (srtp_gcm_cipher c) (session_key c) iv hdr [] data);
  mret (hdr ++ fst ct ++ snd ct).

Definition srtp_unprotect_gcm (buf : bytes) : st rtc_srtp_ctx_t bytes :=
  let len := blen buf in
  _ ← lift (fail_if (len <? 12 + SRTP_GCM_TAG_LEN) RTC_ERR_INVALID);
  let body_len := len - SRTP_GCM_TAG_LEN in
  tag ← lift (sub buf body_len SRTP_GCM_TAG_LEN);
  seq ← lift (rd_u16 buf 2);
  ssrc ← lift (rd_u32 buf 8);
  c ← get;
  let roc := recv_roc (rtp_replay c) ssrc seq in
  hdr_len ← lift (srtp_rtp_header_len buf body_len);
  let iv := srtp_gcm_rtp_iv (session_salt c) ssrc roc seq in
  hdr ← lift (sub buf 0 hdr_len);
  data ← lift (sub buf hdr_len (body_len - hdr_len));
  pt ← lift (srtp_aes_gcm_dec (srtp_gcm_cipher c) (session_key c) iv hdr [] data tag);
  i ← rtp_replay_step ssrc (pkt_index roc seq);
  _ ← recv_update i seq roc;
  mret (hdr ++ pt).

Definition srtp_protect_rtcp_gcm (buf : bytes) (buf_cap : Z) : st rtc_srtp_ctx_t bytes :=
  let len := blen buf in
  _ ← lift (fail_if ((buf_cap <? len) || (buf_cap - len <? SRTP_GCM_TAG_LEN + 4)) RTC_ERR_NOMEM);
  ssrc ← lift (rd_u32 buf 4);
  c ← get;
  let index := Z.land (srtcp_index c) 0x7FFFFFFF in
  let trailer := be32 (Z.lor index 0x80000000) in
  let iv := srtp_gcm_rtcp_iv (rtcp_session_salt c) ssrc index in
  hdr ← lift (sub buf 0 8);
  data ← lift (sub buf 8 (len - 8));
  ct ← lift (srtp_aes_gcm_enc (srtp_gcm_cipher c) (rtcp_session_key c) iv hdr trailer data);
  _ ← put (set_srtcp_index (u32 (srtcp_index c + 1)) c);
  mret (hdr ++ fst ct ++ snd ct ++ trailer).

Definition srtp_unprotect_rtcp_gcm (buf : bytes) : st rtc_srtp_ctx_t bytes :=
  let total := blen buf in
  _ ← lift (fail_if (total <? 8 + SRTP_GCM_TAG_LEN + 4) RTC_ERR_INVALID);
  let idx_off := total - 4 in
  e_index ← lift (rd_u32 buf idx_off);
  let encrypted := negb (Z.land e_index 0x80000000 =? 0) in
  let index := Z.land e_index 0x7FFFFFFF in
  trailer ← lift (sub buf idx_off 4);
  let tag_off := idx_off - SRTP_GCM_TAG_LEN in
  tag ← lift (sub buf tag_off SRTP_GCM_TAG_LEN);
  ssrc ← lift (rd_u32 buf 4);
  c ← get;
  let iv := srtp_gcm_rtcp_iv (rtcp_session_salt c) ssrc index in
  hdr ← lift (sub buf 0 8);
  data ← lift (sub buf 8 (tag_off - 8));
  pt ← (if encrypted then
          lift (srtp_aes_gcm_dec (srtp_gcm_cipher c) (rtcp_session_key c) iv hdr trailer data tag)
        else
          _ ← lift (srtp_aes_gcm_dec (srtp_gcm_cipher c) (rtcp_session_key c) iv (hdr ++ data)
                      trailer [] tag);
          mret data);
  _ ← rtcp_replay_step ssrc index;
  mret (hdr ++ pt).

(** ** Public entry points *)

Definition rtc_srtp_protect (buf : bytes) (buf_cap : Z) : st rtc_srtp_ctx_t bytes :=
  let len := blen buf in
  c ← get;
  _ ← lift (fail_if (negb (initialized c)) RTC_ERR_SRTP);
  _ ← lift (fail_if (len <? 12) RTC_ERR_INVALID);
  if srtp_is_gcm (profile c) then srtp_protect_gcm buf buf_cap else
  _ ← lift (fail_if ((buf_cap <? len) || (buf_cap - len <? SRTP_AUTH_TAG_LEN)) RTC_ERR_NOMEM);
  seq ← lift (rd_u16 buf 2);
  ssrc ← lift (rd_u32 buf 8);
  roc ← send_roc ssrc seq;
  hdr_len ← lift (srtp_rtp_header_len buf len);
  hdr ← lift (sub buf 0 hdr_len);
  data ← lift (sub buf hdr_len (len - hdr_len));
  ct ← lift (srtp_aes_cm (session_key c) (session_salt c) ssrc roc seq data);
  hmac ← lift (srtp_hmac_sha1 (session_auth_key c) (hdr ++ ct) (be32 roc));
  tag ← lift (sub hmac 0 SRTP_AUTH_TAG_LEN);
  mret (hdr ++ ct ++ tag).

Definition rtc_srtp_unprotect (buf : bytes) : st rtc_srtp_ctx_t bytes :=
  let len := blen buf in
  c ← get;
  _ ← lift (fail_if (negb (initialized c)) RTC_ERR_SRTP);
  if srtp_is_gcm (profile c) then srtp_unprotect_gcm buf else
  _ ← lift (fail_if (len <? 12 + SRTP_AUTH_TAG_LEN) RTC_ERR_INVALID);
  let srtp_len := len - SRTP_AUTH_TAG_LEN in
  tag ← lift (sub buf srtp_len SRTP_AUTH_TAG_LEN);
  seq ← lift (rd_u16 buf 2);
  ssrc ← lift (rd_u32 buf 8);
  let roc := recv_roc (rtp_replay c) ssrc seq in
  body ← lift (sub buf 0 srtp_len);
  hmac ← lift (srtp_hmac_sha1 (session_auth_key c) body (be32 roc));
  t ← lift (sub hmac 0 SRTP_AUTH_TAG_LEN);
  _ ← lift (fail_if (negb (bool_decide (t = tag))) RTC_ERR_SRTP);
  i ← rtp_replay_step ssrc (pkt_index roc seq);
  hdr_len ← lift (srtp_rtp_header_len buf srtp_len);
  hdr ← lift (sub buf 0 hdr_len);
  data ← lift (sub buf hdr_len (srtp_len - hdr_len));
  pt ← lift (srtp_aes_cm (session_key c) (session_salt c) ssrc roc seq data);
  _ ← recv_update i seq roc;
  mret (hdr ++ pt).

Definition srtcp_cm_iv (salt : bytes) (ssrc index : Z) : bytes :=
  xor_bytes ([0; 0; 0; 0] ++ be32 ssrc ++ be32 index ++ [0; 0]) salt ++ [0; 0].

Definition srtcp_aes_cm (key salt : bytes) (ssrc index : Z) (data : bytes) : res bytes :=
  evp_aes_128_ctr (take 16 key) (srtcp_cm_iv salt ssrc index) data.

Definition rtc_srtp_protect_rtcp (buf : bytes) (buf_cap : Z) : st rtc_srtp_ctx_t bytes :=
  let len := blen buf in
  c ← get;
  _ ← lift (fail_if (negb (initialized c)) RTC_ERR_SRTP);
  _ ← lift (fail_if (len <? 8) RTC_ERR_INVALID);
  if srtp_is_gcm (profile c) then srtp_protect_rtcp_gcm buf buf_cap else
  _ ← lift (fail_if ((buf_cap <? len) || (buf_cap - len <? 4 + SRTP_AUTH_TAG_LEN)) RTC_ERR_NOMEM);
  ssrc ← lift (rd_u32 buf 4);
  let index := Z.land (srtcp_index c) 0x7FFFFFFF in
  hdr ← lift (sub buf 0 8);
  data ← lift (sub buf 8 (len - 8));
  ct ← (if 8 <? len then
          lift (srtcp_aes_cm (rtcp_session_key c) (rtcp_session_salt c) ssrc index data)
        else mret data);
  let e_index := Z.lor index 0x80000000 in
  let auth := hdr ++ ct ++ be32 e_index in
  hmac ← lift (srtp_hmac_sha1 (rtcp_session_auth_key c) auth []);
  tag ← lift (sub hmac 0 SRTP_AUTH_TAG_LEN);
  _ ← put (set_srtcp_index (u32 (srtcp_index c + 1)) c);
  mret (auth ++ tag).

Definition rtc_srtp_unprotect_rtcp (buf : bytes) : st rtc_srtp_ctx_t bytes :=
  let total := blen buf in
  c ← get;
  _ ← lift (fail_if (negb (initialized c)) RTC_ERR_SRTP);
  if srtp_is_gcm (profile c) then srtp_unprotect_rtcp_gcm buf else
  _ ← lift (fail_if (total <? 8 + 4 + SRTP_AUTH_TAG_LEN) RTC_ERR_INVALID);
  let auth_start := total - SRTP_AUTH_TAG_LEN in
  tag ← lift (sub buf auth_start SRTP_AUTH_TAG_LEN);
  let idx_start := auth_start - 4 in
  e_index ← lift (rd_u32 buf idx_start);
  let encrypted := negb (Z.land e_index 0x80000000 =? 0) in
  let index := Z.land e_index 0x7FFFFFFF in
  body ← lift (sub buf 0 auth_start);
  hmac ← lift (srtp_hmac_sha1 (rtcp_session_auth_key c) body []);
  t ← lift (sub hmac 0 SRTP_AUTH_TAG_LEN);
  _ ← lift (fail_if (negb (bool_decide (t = tag))) RTC_ERR_SRTP);
  sender_ssrc ← lift (rd_u32 buf 4);
  _ ← rtcp_replay_step sender_ssrc index;
  let rtcp_len := idx_start in
  hdr ← lift (sub buf 0 8);
  data ← lift (sub buf 8 (rtcp_len - 8));
  pt ← (if encrypted && (8 <? rtcp_len) then
          lift (srtcp_aes_cm (rtcp_session_key c) (rtcp_session_salt c) sender_ssrc index data)
        else mret data);
  mret (hdr ++ pt).

End Ops.

Definition rtc_srtp_close (c : rtc_srtp_ctx_t) : rtc_srtp_ctx_t := ctx_zero.
End Srtp.
