(* ===== verification/SrtpReplay.v ===== *)
(** * The SRTP replay window against its specification

    The 128-bit sliding window of [Srtp.srtp_replay_check] is shown equivalent
    to a reference that remembers every accepted index. *)

From S2P Require Import Prelude Srtp.
From Stdlib Require Import ZArith Lia.
From stdpp Require Import base list numbers sets.
#[local] Open Scope Z_scope.

Module SrtpReplay.
Import Srtp.

(** ** Reference: the full history of accepted indices *)

Definition spec_accepts (hist : list Z) (index : Z) : bool :=
  forallb (fun h => (h - index <? SRTP_REPLAY_WINDOW_SIZE) && negb (h =? index)) hist.

(** Verdicts of the reference on a sequence of indices. *)
Fixpoint spec_run (hist : list Z) (idxs : list Z) : list bool :=
  match idxs with
  | [] => []
  | i :: rest =>
      spec_accepts hist i :: spec_run (if spec_accepts hist i then i :: hist else hist) rest
  end.

(** Verdicts of the window. *)
Fixpoint replay_run (r : rtc_srtp_replay_t) (idxs : list Z) : list bool :=
  match idxs with
  | [] => []
  | i :: rest =>
      let '(r', rc) := srtp_replay_check r i in is_ok rc :: replay_run r' rest
  end.

(** The indices a run accepts. *)
Fixpoint accepted (verdicts : list bool) (idxs : list Z) : list Z :=
  match verdicts, idxs with
  | v :: vs, i :: rest => if v then i :: accepted vs rest else accepted vs rest
  | _, _ => []
  end.

(** ** Bits of the window *)

(** bit [d] of the 128-bit window: has [highest_index - d] been accepted *)
Definition winbit (w0 w1 d : Z) : bool :=
  if d <? 64 then Z.testbit w0 d else Z.testbit w1 (d - 64).

Lemma u64_testbit x i : 0 <= i -> Z.testbit (u64 x) i = (i <? 64) && Z.testbit x i.
Proof.
  intros. unfold u64. destruct (Z.ltb_spec i 64); simpl.
  - by apply Z.mod_pow2_bits_low.
  - by rewrite Z.mod_pow2_bits_high by lia.
Qed.

Lemma u64_testbit_high w i : 0 <= w < 2 ^ 64 -> 64 <= i -> Z.testbit w i = false.
Proof. intros. rewrite <-(Z.mod_small w (2 ^ 64)) by lia. by apply Z.mod_pow2_bits_high. Qed.

Lemma testbit_neg w i : i < 0 -> Z.testbit w i = false.
Proof. apply Z.testbit_neg_r. Qed.

Lemma land_bit_zero w n : 0 <= n -> (Z.land w (Z.shiftl 1 n) =? 0) = negb (Z.testbit w n).
Proof.
  intros Hn. apply eq_true_iff_eq. rewrite Z.eqb_eq, negb_true_iff. split.
  - intros E. assert (Z.testbit (Z.land w (Z.shiftl 1 n)) n = false) as F by (rewrite E; apply Z.bits_0).
    rewrite Z.land_spec, Z.shiftl_spec, Z.sub_diag in F by lia. by rewrite andb_true_r in F.
  - intros E. apply Z.bits_inj_iff'. intros i Hi.
    rewrite Z.land_spec, Z.shiftl_spec, Z.bits_0 by lia.
    destruct (decide (i = n)) as [->|]; [by rewrite E|].
    destruct (Z.lt_ge_cases i n); [rewrite (testbit_neg 1) by lia; apply andb_false_r|].
    rewrite (Z.bits_above_log2 1) by (simpl; lia). apply andb_false_r.
Qed.

Lemma testbit_one_shift n i : 0 <= n -> 0 <= i -> Z.testbit (Z.shiftl 1 n) i = (i =? n).
Proof.
  intros. rewrite Z.shiftl_spec by lia. destruct (Z.eqb_spec i n) as [->|].
  - by rewrite Z.sub_diag.
  - destruct (Z.lt_ge_cases i n); [by apply testbit_neg; lia|].
    apply Z.bits_above_log2; simpl; lia.
Qed.

Lemma lor_u64_range a b : 0 <= a < 2 ^ 64 -> 0 <= b < 2 ^ 64 -> 0 <= Z.lor a b < 2 ^ 64.
Proof.
  intros Ha Hb. assert (0 <= Z.lor a b) by (apply Z.lor_nonneg; lia). split; [done|].
  destruct (decide (Z.lor a b = 0)) as [->|]; [lia|].
  apply Z.log2_lt_pow2; [lia|]. rewrite Z.log2_lor by lia.
  destruct (decide (a = 0)) as [->|], (decide (b = 0)) as [->|]; simpl;
    rewrite ?Z.max_lub_lt_iff; repeat split; try lia; apply Z.log2_lt_pow2; lia.
Qed.

Lemma u64_range x : 0 <= u64 x < 2 ^ 64.
Proof. unfold u64. apply Z.mod_pos_bound. lia. Qed.

(** ** The window after a step *)

Definition shifted (w0 w1 delta : Z) : Z * Z :=
  if SRTP_REPLAY_WINDOW_SIZE <=? delta then (1, 0)
  else if 64 <=? delta then (Z.lor 0 1, u64 (Z.shiftl w0 (delta - 64)))
  else (Z.lor (u64 (Z.shiftl w0 delta)) 1,
        Z.lor (u64 (Z.shiftl w1 delta))
          (if delta =? 0 then 0 else Z.shiftr w0 (64 - delta))).

Definition win_ok (w0 w1 : Z) : Prop := 0 <= w0 < 2 ^ 64 /\ 0 <= w1 < 2 ^ 64.

Lemma shifted_ok w0 w1 delta :
  win_ok w0 w1 -> 0 < delta -> win_ok (fst (shifted w0 w1 delta)) (snd (shifted w0 w1 delta)).
Proof.
  intros [H0 H1] Hd. unfold shifted.
  destruct (Z.leb_spec SRTP_REPLAY_WINDOW_SIZE delta); [by split; simpl; lia|].
  destruct (Z.leb_spec 64 delta); [split; [vm_compute; intuition congruence|apply u64_range]|].
  destruct (Z.eqb_spec delta 0); [lia|]. split; simpl; apply lor_u64_range; auto using u64_range.
  - lia.
  - rewrite Z.shiftr_div_pow2 by lia. split; [apply Z.div_pos; lia|].
    apply Z.div_lt_upper_bound; nia.
Qed.

Lemma testbit_one i : 0 <= i -> Z.testbit 1 i = (i =? 0).
Proof. intros. by rewrite <-(testbit_one_shift 0 i). Qed.

Lemma shifted_bits w0 w1 delta d :
  win_ok w0 w1 -> 0 < delta -> 0 <= d < 128 ->
  winbit (fst (shifted w0 w1 delta)) (snd (shifted w0 w1 delta)) d
  = (d =? 0) || ((delta <=? d) && winbit w0 w1 (d - delta)).
Proof.
  intros [H0 H1] Hdelta Hd. unfold shifted, winbit, SRTP_REPLAY_WINDOW_SIZE.
  destruct (Z.leb_spec 128 delta); simpl.
  { rewrite (proj2 (Z.leb_gt delta d)) by lia. rewrite orb_false_r.
    destruct (Z.ltb_spec d 64); [by apply testbit_one; lia|].
    rewrite Z.bits_0. symmetry. apply Z.eqb_neq. lia. }
  destruct (Z.leb_spec 64 delta); simpl.
  { rewrite (proj2 (Z.ltb_lt (d - delta) 64)) by lia. destruct (Z.ltb_spec d 64).
    - rewrite (proj2 (Z.leb_gt delta d)) by lia. rewrite orb_false_r. by apply testbit_one; lia.
    - rewrite u64_testbit, Z.shiftl_spec, (proj2 (Z.ltb_lt (d - 64) 64)) by lia.
      rewrite (proj2 (Z.eqb_neq d 0)) by lia. simpl. replace (d - 64 - (delta - 64)) with (d - delta) by lia.
      destruct (Z.leb_spec delta d); simpl; [done|]. apply testbit_neg; lia. }
  destruct (Z.eqb_spec delta 0); [lia|]. destruct (Z.ltb_spec d 64).
  - rewrite Z.lor_spec, u64_testbit, Z.shiftl_spec, testbit_one, (proj2 (Z.ltb_lt d 64)) by lia.
    rewrite (proj2 (Z.ltb_lt (d - delta) 64)) by lia. simpl. rewrite orb_comm. f_equal.
    destruct (Z.leb_spec delta d); simpl; [done|]. apply testbit_neg; lia.
  - rewrite Z.lor_spec, u64_testbit, Z.shiftl_spec, Z.shiftr_spec by lia.
    rewrite (proj2 (Z.ltb_lt (d - 64) 64)), (proj2 (Z.eqb_neq d 0)), (proj2 (Z.leb_le delta d)) by lia.
    simpl. replace (d - 64 + (64 - delta)) with (d - delta) by lia.
    destruct (Z.ltb_spec (d - delta) 64).
    + by rewrite (testbit_neg w1) by lia.
    + rewrite (u64_testbit_high w0) by lia. rewrite orb_false_r. f_equal. lia.
Qed.

(** ** The simulation relation *)

(** Window [r] represents history [hist]. *)
Definition replay_R (r : rtc_srtp_replay_t) (hist : list Z) : Prop :=
  if replay_initialized r then
    win_ok (window0 r) (window1 r) /\
    (highest_index r ∈ hist) /\
    (forall h, h ∈ hist -> h <= highest_index r) /\
    (forall d, 0 <= d < 128 ->
       winbit (window0 r) (window1 r) d = true <-> highest_index r - d ∈ hist)
  else hist = [].

Lemma spec_accepts_spec hist i :
  spec_accepts hist i = true <-> forall h, h ∈ hist -> h - i < 128 /\ h <> i.
Proof.
  unfold spec_accepts, SRTP_REPLAY_WINDOW_SIZE. rewrite forallb_forall. split.
  - intros Hf h Hh. apply list_elem_of_In, Hf in Hh.
    apply andb_true_iff in Hh as [H1%Z.ltb_lt H2%negb_true_iff%Z.eqb_neq]. done.
  - intros Hf h Hh. apply list_elem_of_In, Hf in Hh as [H1 H2].
    apply andb_true_iff. split; [by apply Z.ltb_lt|]. by apply negb_true_iff, Z.eqb_neq.
Qed.

(** Marking [delta] in an otherwise unchanged window. *)
Definition mark (w0 w1 delta : Z) : Z * Z :=
  let mask := Z.shiftl 1 (Z.land delta 63) in
  if Z.shiftr delta 6 =? 0 then (Z.lor w0 mask, w1) else (w0, Z.lor w1 mask).

Lemma bit_pos delta :
  0 <= delta < 128 ->
  (Z.shiftr delta 6 =? 0) = (delta <? 64) /\
  Z.land delta 63 = if delta <? 64 then delta else delta - 64.
Proof.
  intros. bits_to_arith. pow_eval. destruct (Z.ltb_spec delta 64).
  - split; [apply Z.eqb_eq|]; dlia.
  - split; [apply Z.eqb_neq|]; dlia.
Qed.

Lemma mark_bits w0 w1 delta d :
  0 <= delta < 128 -> 0 <= d < 128 ->
  winbit (fst (mark w0 w1 delta)) (snd (mark w0 w1 delta)) d
  = (d =? delta) || winbit w0 w1 d.
Proof.
  intros Hdelta Hd. destruct (bit_pos delta Hdelta) as [E1 E2].
  unfold mark, winbit. rewrite E1, E2.
  destruct (Z.ltb_spec delta 64), (Z.ltb_spec d 64); simpl;
    rewrite ?Z.lor_spec, ?testbit_one_shift by lia.
  - by rewrite orb_comm.
  - by rewrite (proj2 (Z.eqb_neq d delta)) by lia.
  - by rewrite (proj2 (Z.eqb_neq d delta)) by lia.
  - rewrite orb_comm. f_equal. apply eq_true_iff_eq. rewrite !Z.eqb_eq. lia.
Qed.

Lemma mark_ok w0 w1 delta :
  0 <= delta < 128 -> win_ok w0 w1 -> win_ok (fst (mark w0 w1 delta)) (snd (mark w0 w1 delta)).
Proof.
  intros Hdelta [H0 H1]. destruct (bit_pos delta Hdelta) as [E1 E2].
  assert (0 <= Z.shiftl 1 (Z.land delta 63) < 2 ^ 64).
  { rewrite E2, Z.shiftl_mul_pow2 by (destruct (delta <? 64) eqn:?; lia).
    split; [destruct (Z.ltb_spec delta 64); lia|].
    rewrite Z.mul_1_l. apply Z.pow_lt_mono_r; destruct (Z.ltb_spec delta 64); lia. }
  unfold mark. destruct (Z.shiftr delta 6 =? 0); split; simpl; auto using lor_u64_range.
Qed.

Lemma mark_free w0 w1 delta :
  0 <= delta < 128 ->
  negb (Z.land (if Z.shiftr delta 6 =? 0 then w0 else w1)
          (Z.shiftl 1 (Z.land delta 63)) =? 0) = winbit w0 w1 delta.
Proof.
  intros Hdelta. destruct (bit_pos delta Hdelta) as [E1 E2].
  rewrite land_bit_zero by (rewrite E2; destruct (Z.ltb_spec delta 64); lia).
  rewrite negb_involutive, E1, E2. unfold winbit. by destruct (delta <? 64).
Qed.

(** The three ways [srtp_replay_check] can go once the window is in use. *)
Lemma replay_check_newer h w0 w1 i :
  h < i ->
  srtp_replay_check (Replay h w0 w1 true) i
  = (let w := shifted w0 w1 (i - h) in Replay i (fst w) (snd w) true, Ok ()).
Proof.
  intros. unfold srtp_replay_check, shifted; simpl.
  rewrite (proj2 (Z.ltb_lt h i)) by lia.
  by destruct (SRTP_REPLAY_WINDOW_SIZE <=? i - h), (64 <=? i - h).
Qed.

Lemma replay_check_old h w0 w1 i :
  128 <= h - i -> srtp_replay_check (Replay h w0 w1 true) i = (Replay h w0 w1 true, Err RTC_ERR_SRTP).
Proof.
  intros. unfold srtp_replay_check, SRTP_REPLAY_WINDOW_SIZE; simpl.
  rewrite (proj2 (Z.ltb_ge h i)), (proj2 (Z.leb_le 128 (h - i))) by lia. done.
Qed.

Lemma replay_check_window h w0 w1 i :
  0 <= h - i < 128 ->
  srtp_replay_check (Replay h w0 w1 true) i =
    if winbit w0 w1 (h - i) then (Replay h w0 w1 true, Err RTC_ERR_SRTP)
    else (let w := mark w0 w1 (h - i) in Replay h (fst w) (snd w) true, Ok ()).
Proof.
  intros Hd. unfold srtp_replay_check, SRTP_REPLAY_WINDOW_SIZE; simpl.
  rewrite (proj2 (Z.ltb_ge h i)), (proj2 (Z.leb_gt 128 (h - i))) by lia.
  rewrite (mark_free w0 w1) by lia. unfold mark.
  destruct (winbit w0 w1 (h - i)); [done|]. by destruct (Z.shiftr (h - i) 6 =? 0).
Qed.

Lemma replay_R_step r hist i :
  replay_R r hist ->
  is_ok (srtp_replay_check r i).2 = spec_accepts hist i /\
  replay_R (srtp_replay_check r i).1 (if spec_accepts hist i then i :: hist else hist).
Proof.
  destruct r as [h w0 w1 []]; unfold replay_R at 1; simpl.
  2:{ intros ->. simpl. unfold replay_R; simpl. split; [done|].
      refine (conj _ (conj _ (conj _ _)));
        [vm_compute; intuition congruence|set_solver|intros x ->%list_elem_of_singleton; lia|].
      intros d Hd. unfold winbit. rewrite list_elem_of_singleton. destruct (Z.ltb_spec d 64).
      - rewrite testbit_one, Z.eqb_eq by lia. lia.
      - rewrite Z.bits_0. naive_solver lia. }
  intros (Hok & Hin & Hmax & Hbits).
  destruct (Z.lt_ge_cases h i) as [Hlt|Hge]; [|destruct (Z.lt_ge_cases (h - i) 128) as [Hw|Hw]].
  - rewrite (proj2 (spec_accepts_spec hist i)) by (intros x Hx%Hmax; lia).
    rewrite replay_check_newer by lia. unfold replay_R; simpl. split; [done|].
    refine (conj _ (conj _ (conj _ _))); [apply shifted_ok; auto; lia|set_solver| |].
    + intros x [->|Hx%Hmax]%elem_of_cons; lia.
    + intros d Hd. rewrite shifted_bits, orb_true_iff, andb_true_iff, Z.eqb_eq, Z.leb_le by (auto; lia).
      rewrite elem_of_cons. split.
      * intros [->|[Hle Hb]]; [left; lia|right]. apply Hbits in Hb; [|lia].
        by replace (i - d) with (h - (d - (i - h))) by lia.
      * intros [?|Hx]; [left; lia|right]. specialize (Hmax _ Hx). split; [lia|].
        apply Hbits; [lia|]. by replace (h - (d - (i - h))) with (i - d) by lia.
  - rewrite replay_check_window by lia. destruct (winbit w0 w1 (h - i)) eqn:Hb.
    + apply Hbits in Hb; [|lia]. replace (h - (h - i)) with i in Hb by lia.
      destruct (spec_accepts hist i) eqn:Hs; [|by split].
      apply (proj1 (spec_accepts_spec _ _) Hs) in Hb. lia.
    + rewrite (proj2 (spec_accepts_spec hist i)).
      2:{ intros x Hx. split; [apply Hmax in Hx; lia|]. intros ->.
          assert (winbit w0 w1 (h - i) = true); [|congruence].
          apply Hbits; [lia|]. by replace (h - (h - i)) with i by lia. }
      simpl. unfold replay_R; simpl. split; [done|].
      refine (conj _ (conj _ (conj _ _))); [apply mark_ok; auto; lia|set_solver| |].
      * intros x [->|Hx%Hmax]%elem_of_cons; lia.
      * intros d Hd. rewrite mark_bits, orb_true_iff, Z.eqb_eq, elem_of_cons, Hbits by lia.
        split; intros [?|?]; auto; left; lia.
  - rewrite replay_check_old by lia. destruct (spec_accepts hist i) eqn:Hs; [|by split].
    apply (proj1 (spec_accepts_spec _ _) Hs) in Hin. lia.
Qed.

Lemma replay_run_spec r hist idxs :
  replay_R r hist -> replay_run r idxs = spec_run hist idxs.
Proof.
  revert r hist. induction idxs as [|i idxs IH]; intros r hist HR; simpl; [done|].
  destruct (replay_R_step r hist i HR) as [E HR'].
  destruct (srtp_replay_check r i) as [r' rc]; simpl in *. rewrite E. f_equal. by apply IH.
Qed.

Lemma spec_run_fresh hist idxs :
  NoDup (accepted (spec_run hist idxs) idxs) /\
  (forall x, x ∈ accepted (spec_run hist idxs) idxs -> x ∉ hist).
Proof.
  revert hist. induction idxs as [|i idxs IH]; intros hist; simpl; [by split; [constructor|set_solver]|].
  destruct (spec_accepts hist i) eqn:Hs; [|apply IH].
  destruct (IH (i :: hist)) as [Hnd Hfr]. split.
  - constructor; [intros Hin%Hfr; set_solver|done].
  - intros x [->|Hx%Hfr]%elem_of_cons; [|set_solver].
    intros Hin. apply (proj1 (spec_accepts_spec _ _) Hs) in Hin. lia.
Qed.

(** ** Properties *)

(** C4: The replay window refines its specification: on every sequence of
    packet indices, starting from the zeroed window, [srtp_replay_check]
    accepts exactly the indices that a reference with unbounded memory
    accepts, i.e. those never accepted before and less than 128 behind the
    highest accepted one. *)
Theorem replay_window_refines_history (idxs : list Z) :
  replay_run replay_zero idxs = spec_run [] idxs.
Proof. by apply replay_run_spec. Qed.

(** No packet index is ever accepted twice by a replay window, whatever
    the order of arrival. *)
Theorem replay_never_accepts_twice (idxs : list Z) :
  NoDup (accepted (replay_run replay_zero idxs) idxs).
Proof. rewrite (replay_run_spec _ []) by done. apply spec_run_fresh. Qed.

End SrtpReplay.
