(* ===== verification/SrtpSession.v ===== *)
(** * SRTP sessions

    The state a context keeps of one stream, and the round trip of a session:
    the indices the sender assigns are those the receiver estimates. *)

From S2P Require Import Prelude Srtp SrtpReplay.
From Stdlib Require Import ZArith Lia.
From stdpp Require Import base list numbers sets.
#[local] Open Scope Z_scope.

Module SrtpSession.
Import Srtp SrtpReplay.

(** ** Stream tables *)

Definition matches (ssrc : Z) (e : rtc_srtp_replay_entry_t) : bool :=
  in_use e && (e_ssrc e =? ssrc).

(** the entry a first packet of [ssrc] gets *)
Definition fresh_entry (ssrc : Z) : rtc_srtp_replay_entry_t :=
  Entry ssrc true 0 0 0 false replay_zero.

(** the stream state the table holds for [ssrc] *)
Definition stream (table : table_t) (ssrc : Z) : rtc_srtp_replay_entry_t :=
  default (fresh_entry ssrc) (srtp_find_ssrc table ssrc).

Definition with_tick (tick : Z) (e : rtc_srtp_replay_entry_t) : rtc_srtp_replay_entry_t :=
  Entry (e_ssrc e) (in_use e) tick (roc e) (last_seq e) (roc_init e) (replay e).

Lemma find_Some table ssrc e :
  srtp_find_ssrc table ssrc = Some e -> matches ssrc e = true.
Proof.
  induction table as [|x t IH]; simpl; [done|]. fold (matches ssrc x).
  destruct (matches ssrc x) eqn:E; naive_solver.
Qed.

Lemma entry_scan_slot table rest i free lru ssrc :
  (lru < length table)%nat -> (i + length rest = length table)%nat ->
  (forall j, free = Some j -> (j < length table)%nat) ->
  match srtp_find_ssrc rest ssrc with
  | Some e => exists k, entry_scan table rest i free lru ssrc = inl (i + k)%nat /\
                        rest !! k = Some e /\
                        Forall (fun x => matches ssrc x = false) (take k rest)
  | None => Forall (fun x => matches ssrc x = false) rest /\
            exists j, entry_scan table rest i free lru ssrc = inr j /\ (j < length table)%nat
  end.
Proof.
  revert i free lru. induction rest as [|x rest IH]; intros i free lru Hl Hi Hf; simpl.
  { split; [constructor|]. eexists; split; [done|]. destruct free; simpl; auto. }
  fold (matches ssrc x). simpl in Hi. destruct (matches ssrc x) eqn:E.
  { exists 0%nat. rewrite Nat.add_0_r. repeat split. constructor. }
  set (fr := if _ : bool then _ else _). set (lr := if _ : bool then _ else _).
  specialize (IH (S i) fr lr). destruct (srtp_find_ssrc rest ssrc) as [e|].
  - destruct IH as (k & -> & Hk & HF); [subst lr; case_match; lia|lia| |].
    + intros j. subst fr. case_match; [intros [= <-]; lia|auto].
    + exists (S k). rewrite Nat.add_succ_r. repeat split; auto. by constructor.
  - destruct IH as (HF & j & -> & Hj); [subst lr; case_match; lia|lia| |].
    + intros j. subst fr. case_match; [intros [= <-]; lia|auto].
    + split; [by constructor|]. eauto.
Qed.

Lemma find_insert table ssrc k e :
  (k < length table)%nat -> matches ssrc e = true ->
  Forall (fun x => matches ssrc x = false) (take k table) ->
  srtp_find_ssrc (<[k := e]> table) ssrc = Some e.
Proof.
  revert k. induction table as [|x t IH]; intros k Hk He HF; simpl in *; [lia|].
  destruct k as [|k]; simpl in *.
  - fold (matches ssrc e). by rewrite He.
  - fold (matches ssrc x). apply Forall_cons in HF as [-> HF']. apply IH; auto; lia.
Qed.

(** What the callers of [srtp_entry_for_ssrc] rely on: the entry returned is
    the SSRC's stream state (fresh if it had none), and writing it back is
    what the next lookup finds. *)
Lemma entry_for_ssrc_spec table tick ssrc t' tick' i :
  table <> [] ->
  srtp_entry_for_ssrc table tick ssrc = (t', tick', i) ->
  (i < length t')%nat /\ length t' = length table /\
  tbl_get t' i = with_tick tick' (stream table ssrc) /\
  (forall e, matches ssrc e = true -> srtp_find_ssrc (<[i := e]> t') ssrc = Some e).
Proof.
  intros Hne. unfold srtp_entry_for_ssrc.
  pose proof (entry_scan_slot table table 0 None 0 ssrc) as Hs.
  assert (0 < length table)%nat by (destruct table; simpl; [done|lia]).
  unfold stream. destruct (srtp_find_ssrc table ssrc) as [e|].
  - destruct Hs as (k & -> & Hk & HF); [lia|done|done|]. simpl. intros [= <- <- <-].
    pose proof (lookup_lt_Some _ _ _ Hk). unfold tbl_get.
    rewrite length_insert, list_lookup_insert_eq, Hk by done. simpl.
    repeat split; auto. intros e' He'. rewrite list_insert_insert_eq. by apply find_insert.
  - destruct Hs as (HF & j & -> & Hj); [lia|done|done|]. intros [= <- <- <-].
    unfold tbl_get. rewrite length_insert, list_lookup_insert_eq by done. simpl.
    repeat split; auto. intros e' He'. rewrite list_insert_insert_eq.
    apply find_insert; auto. by apply Forall_take.
Qed.

Lemma stream_matches table ssrc : matches ssrc (stream table ssrc) = true.
Proof.
  unfold stream. destruct (srtp_find_ssrc table ssrc) eqn:E; simpl.
  - by apply find_Some in E.
  - unfold matches; simpl. apply Z.eqb_refl.
Qed.

(** ** Rollover counters

    [I] is an absolute 48-bit packet index; a stream whose last packet had
    index [p] is in state [roc = p / 2^16], [last_seq = p mod 2^16]. *)

Definition at_index (e : rtc_srtp_replay_entry_t) (p : option Z) : Prop :=
  match p with
  | None => roc e = 0 /\ roc_init e = false
  | Some p => roc_init e = true /\ roc e = p / 2 ^ 16 /\ last_seq e = p mod 2 ^ 16 /\ 0 <= p < 2 ^ 48
  end.

(** [I] may follow [p]: it is later by less than half the sequence space. *)
Definition follows (p : option Z) (I : Z) : Prop :=
  0 <= I < 2 ^ 48 /\
  match p with None => I < 2 ^ 16 | Some p => p < I < p + 0x8000 end.

Lemma roc_wrapped_follows e p I :
  at_index e (Some p) -> follows (Some p) I ->
  (if roc_wrapped e (I mod 2 ^ 16) then u32 (roc e + 1) else roc e) = I / 2 ^ 16.
Proof.
  intros (_ & Hr & Hl & Hp) [HI Hf]. unfold roc_wrapped. rewrite Hr, Hl. unfold u32. pow_eval.
  destruct (Z.ltb_spec (I mod 65536) (p mod 65536)); simpl; [|dlia].
  destruct (Z.ltb_spec 32768 (p mod 65536 - I mod 65536)); dlia.
Qed.

Lemma pkt_index_split I : 0 <= I < 2 ^ 48 -> pkt_index (I / 2 ^ 16) (I mod 2 ^ 16) = I.
Proof.
  intros. unfold pkt_index. rewrite lor_shiftl_add by (try apply Z.mod_pos_bound; lia).
  pow_eval. dlia.
Qed.

(** Everything the ciphers read. *)
Definition same_keys (a b : rtc_srtp_ctx_t) : Prop :=
  profile a = profile b /\ key_len a = key_len b /\
  session_key a = session_key b /\ session_salt a = session_salt b /\
  session_auth_key a = session_auth_key b /\
  rtcp_session_key a = rtcp_session_key b /\ rtcp_session_salt a = rtcp_session_salt b /\
  rtcp_session_auth_key a = rtcp_session_auth_key b /\ initialized a = initialized b.

#[export] Instance same_keys_equiv : Equivalence same_keys.
Proof.
  unfold same_keys. split; red; intuition congruence.
Qed.

Lemma same_keys_set_send c t k : same_keys c (set_send t k c).
Proof. by repeat split. Qed.
Lemma same_keys_set_rtp_replay c t k : same_keys c (set_rtp_replay t k c).
Proof. by repeat split. Qed.
Lemma same_keys_set_rtcp_replay c t k : same_keys c (set_rtcp_replay t k c).
Proof. by repeat split. Qed.
Lemma same_keys_set_srtcp_index c i : same_keys c (set_srtcp_index i c).
Proof. by repeat split. Qed.
#[export] Hint Resolve same_keys_set_send same_keys_set_rtp_replay same_keys_set_rtcp_replay
  same_keys_set_srtcp_index : mrtc.

(** Sender invariant: the tables exist and [ssrc]'s last sent index is [p]. *)
Definition sender_at (c : rtc_srtp_ctx_t) (ssrc : Z) (p : option Z) : Prop :=
  rtp_send c <> [] /\ at_index (stream (rtp_send c) ssrc) p.

(** Receiver invariant: [p] is the highest index received from [ssrc]. *)
Definition receiver_at (c : rtc_srtp_ctx_t) (ssrc : Z) (p : option Z) : Prop :=
  rtp_replay c <> [] /\ at_index (stream (rtp_replay c) ssrc) p /\
  let r := replay (stream (rtp_replay c) ssrc) in
  match p with
  | None => replay_initialized r = false
  | Some p => replay_initialized r = true /\ highest_index r = p
  end.

Lemma send_roc_run c ssrc p I :
  sender_at c ssrc p -> follows p I ->
  exists c', send_roc ssrc (I mod 2 ^ 16) c = (c', Ok (I / 2 ^ 16)) /\
    sender_at c' ssrc (Some I) /\ same_keys c c' /\
    srtcp_index c' = srtcp_index c /\ rtp_replay c' = rtp_replay c.
Proof.
  intros [Hne Hat] Hf. unfold send_roc. rewrite st_bind_eq. simpl.
  destruct (srtp_entry_for_ssrc (rtp_send c) (send_lru_tick c) ssrc) as [[t tick] i] eqn:E.
  apply entry_for_ssrc_spec in E as (Hi & Hlen & Hget & Hfind); [|done].
  rewrite Hget. simpl. rewrite st_bind_eq. simpl.
  set (e := stream (rtp_send c) ssrc) in *.
  set (e' := Entry _ _ _ _ _ _ _).
  assert (Hm : matches ssrc e' = true) by apply (stream_matches (rtp_send c) ssrc).
  assert (Hroc : roc e' = I / 2 ^ 16).
  { subst e'. simpl. destruct p as [p|].
    - pose proof Hat as (-> & _). by apply (roc_wrapped_follows e p I).
    - destruct Hat as [-> ->]. simpl. destruct Hf as [? ?]. pow_eval. dlia. }
  eexists; split; [unfold mret, st_ret; by rewrite <-Hroc|].
  split_and!; auto with mrtc. split; simpl.
  - intros Heq. apply (f_equal length) in Heq. rewrite length_insert in Heq.
    simpl in Heq. lia.
  - unfold stream. rewrite (Hfind e' Hm). simpl. repeat split; auto. all: apply Hf.
Qed.

Lemma recv_roc_stream table ssrc seq :
  recv_roc table ssrc seq =
  let e := stream table ssrc in
  if roc_init e && roc_wrapped e seq then u32 (roc e + 1) else roc e.
Proof. unfold recv_roc, stream. by destruct (srtp_find_ssrc table ssrc). Qed.

Lemma recv_roc_follows c ssrc p I :
  receiver_at c ssrc p -> follows p I ->
  recv_roc (rtp_replay c) ssrc (I mod 2 ^ 16) = I / 2 ^ 16.
Proof.
  intros (_ & Hat & _) Hf. rewrite recv_roc_stream. simpl. destruct p as [p|].
  - pose proof Hat as (-> & _). simpl. by apply (roc_wrapped_follows _ p I).
  - destruct Hat as [-> ->]. simpl. destruct Hf as [? ?]. pow_eval. dlia.
Qed.

Lemma replay_check_fresh r p I :
  match p with
  | None => replay_initialized r = false
  | Some p => replay_initialized r = true /\ highest_index r = p /\ p < I
  end ->
  exists r', srtp_replay_check r I = (r', Ok ()) /\ replay_initialized r' = true /\
             highest_index r' = I.
Proof.
  destruct r as [h w0 w1 b], p as [p|]; simpl.
  - intros (-> & -> & Hlt). rewrite replay_check_newer by done. eauto.
  - intros ->. eauto.
Qed.

Lemma update_due e p I :
  at_index e p -> follows p I ->
  negb (roc_init e) || (last_seq e <? I mod 2 ^ 16) || (0x8000 <? last_seq e - I mod 2 ^ 16) = true.
Proof.
  intros Hat [? Hf]. destruct p as [p|]; [|by destruct Hat as [_ ->]].
  destruct Hat as (-> & _ & -> & _). pow_eval. simpl. apply orb_true_iff. rewrite !Z.ltb_lt. dlia.
Qed.

(** The two state updates of an accepted packet, together. *)
Lemma receive_run c ssrc p I :
  receiver_at c ssrc p -> follows p I ->
  exists c1 c2 i,
    rtp_replay_step ssrc I c = (c1, Ok i) /\
    recv_update i (I mod 2 ^ 16) (I / 2 ^ 16) c1 = (c2, Ok ()) /\
    receiver_at c2 ssrc (Some I) /\ same_keys c c2 /\ rtcp_replay c2 = rtcp_replay c.
Proof.
  intros (Hne & Hat & Hrep) Hf. unfold rtp_replay_step. rewrite st_bind_eq. simpl.
  destruct (srtp_entry_for_ssrc (rtp_replay c) (replay_lru_tick c) ssrc) as [[t tick] i] eqn:E.
  apply entry_for_ssrc_spec in E as (Hi & Hlen & Hget & Hfind); [|done].
  rewrite Hget. set (e := stream (rtp_replay c) ssrc) in *. simpl.
  destruct (replay_check_fresh (replay e) p I) as (r' & -> & Hr1 & Hr2).
  { destruct p as [p|]; [|done]. destruct Hrep, Hf. split_and!; auto; lia. }
  rewrite st_bind_eq. simpl. rewrite st_bind_eq. simpl. do 3 eexists. split; [done|].
  unfold recv_update. rewrite st_bind_eq. simpl. unfold tbl_get.
  rewrite list_lookup_insert_eq by done. simpl.
  rewrite (update_due e p I Hat Hf).
  split; [done|]. rewrite list_insert_insert_eq. split_and!; [|by repeat split|done].
  assert (Hm : matches ssrc e = true) by apply stream_matches.
  split_and!; simpl.
  - intros Heq. apply (f_equal length) in Heq. rewrite length_insert in Heq. simpl in Heq. lia.
  - unfold stream. rewrite Hfind by done. simpl. repeat split; auto. all: apply Hf.
  - unfold stream. rewrite Hfind by done. done.
Qed.

(** ** Packet layout *)

Definition rtp_seq (buf : bytes) : res Z := rd_u16 buf 2.
Definition rtp_ssrc (buf : bytes) : res Z := rd_u32 buf 8.

(** [buf] is header [hdr] followed by payload [data]. *)
Definition rtp_split (buf hdr data : bytes) : Prop :=
  buf = hdr ++ data /\ 12 <= blen hdr /\ srtp_rtp_header_len buf (blen buf) = Ok (blen hdr).

Lemma header_len_bounds buf len h :
  bytes_ok buf -> srtp_rtp_header_len buf len = Ok h -> 12 <= h <= len.
Proof.
  intros Hb. unfold srtp_rtp_header_len.
  intros (b0 & H0%rd_byte & (h1 & H1 & (u & H2%fail_if_Ok & [= ->])%bind_Ok)%bind_Ok)%bind_Ok; auto.
  apply Z.ltb_ge in H2. split; [|done].
  assert (0 <= Z.land b0 15) by (apply Z.land_nonneg; lia).
  destruct (negb _); simplify_eq; [|lia].
  apply bind_Ok in H1 as (? & _ & (w & Hw%rd_u16_range & [= <-])%bind_Ok); auto. lia.
Qed.

Lemma rd_u16_prefix (a b b' : bytes) i :
  i + 2 <= blen a -> rd_u16 (a ++ b) i = rd_u16 (a ++ b') i.
Proof. intros. unfold rd_u16. by rewrite !rd_app_l by lia. Qed.

Lemma rd_u32_prefix (a b b' : bytes) i :
  i + 4 <= blen a -> rd_u32 (a ++ b) i = rd_u32 (a ++ b') i.
Proof. intros. unfold rd_u32. by rewrite !rd_app_l by lia. Qed.

Lemma header_len_prefix hdr x y len :
  12 <= blen hdr -> bytes_ok (hdr ++ x) ->
  srtp_rtp_header_len (hdr ++ x) len = Ok (blen hdr) ->
  srtp_rtp_header_len (hdr ++ y) len = Ok (blen hdr).
Proof.
  intros Hh Hb. unfold srtp_rtp_header_len.
  rewrite (rd_app_l _ y), (rd_app_l _ x) by lia.
  destruct (rd hdr 0) as [b0| |]; simpl; [|done|done].
  destruct (negb (Z.land b0 16 =? 0)); [|done].
  destruct (fail_if _ _) as [[]| |]; simpl; [|done|done].
  intros Hx. pose proof Hx as (h' & (w & Hw & [= <-])%bind_Ok & (u & _ & [= Heq])%bind_Ok)%bind_Ok.
  pose proof (rd_u16_range _ _ _ Hb Hw).
  by rewrite (rd_u16_prefix _ y x) by lia.
Qed.

(** [buf] is an RTP packet of [ssrc] with absolute index [I]. *)
Definition rtp_packet (buf : bytes) (ssrc I : Z) : Prop :=
  bytes_ok buf /\ 12 <= blen buf /\
  rtp_seq buf = Ok (I mod 2 ^ 16) /\ rtp_ssrc buf = Ok ssrc /\
  is_ok (srtp_rtp_header_len buf (blen buf)) = true.

Lemma rtp_packet_split buf ssrc I :
  rtp_packet buf ssrc I -> exists hdr data, rtp_split buf hdr data.
Proof.
  intros (Hb & Hl & _ & _ & Hh).
  destruct (srtp_rtp_header_len buf (blen buf)) as [h| |] eqn:E; try done.
  destruct (header_len_bounds _ _ _ Hb E).
  exists (take (Z.to_nat h) buf), (drop (Z.to_nat h) buf). unfold rtp_split.
  rewrite take_drop, E. unfold blen in *. rewrite length_take, Nat.min_l by lia.
  split_and!; [done|lia|f_equal; lia].
Qed.

Lemma rtp_split_sub buf hdr data :
  rtp_split buf hdr data ->
  sub buf 0 (blen hdr) = Ok hdr /\ sub buf (blen hdr) (blen buf - blen hdr) = Ok data.
Proof.
  intros (-> & _ & _). split.
  - by apply (sub_mid [] hdr data).
  - rewrite <-(app_nil_r data) at 1. apply sub_mid; [done|]. rewrite blen_app. lia.
Qed.

(** run one [lift] whose result is known *)
Ltac run H := rewrite (st_bind_lift _ _ _ _ H).
(** run one [lift] of a guard that is [false] *)
Ltac run_guard :=
  match goal with
  | |- context [(lift (fail_if ?b ?e) ≫= ?k) ?s] =>
      rewrite (st_bind_lift (fail_if b e) k s ())
        by (apply fail_if_Ok; unfold SRTP_AUTH_TAG_LEN, SRTP_GCM_TAG_LEN in *;
            rewrite ?orb_false_iff, ?negb_false_iff, ?Z.ltb_ge, ?bool_decide_eq_true; auto; lia)
  end.

Section Session.
Context `{EvpLaws}.

Lemma ctr_inv k iv d :
  exists ct, evp_aes_128_ctr k iv d = Ok ct /\ length ct = length d /\
             evp_aes_128_ctr k iv ct = Ok d.
Proof.
  destruct (ctr_xor k iv) as [ks Hks]. eexists. split; [apply Hks|].
  split; [by rewrite length_imap|]. rewrite Hks. f_equal.
  apply list_eq. intros i. rewrite !list_lookup_imap.
  destruct (d !! i) as [b|]; simpl; [|done].
  by rewrite Z.lxor_assoc, Z.lxor_nilpotent, Z.lxor_0_r.
Qed.

Definition tag_len (c : rtc_srtp_ctx_t) : Z :=
  if srtp_is_gcm (profile c) then SRTP_GCM_TAG_LEN else SRTP_AUTH_TAG_LEN.

(** [hdr ++ ct ++ tag] is what a sender with the keys of [c] puts on the wire
    for [hdr ++ data] at index [I]; a receiver's primitives undo it. *)
Definition wire (c : rtc_srtp_ctx_t) (ssrc I : Z) (hdr data ct tag : bytes) : Prop :=
  let rc := I / 2 ^ 16 in let sq := I mod 2 ^ 16 in
  blen ct = blen data /\ blen tag = tag_len c /\
  if srtp_is_gcm (profile c) then
    let iv := srtp_gcm_rtp_iv (session_salt c) ssrc rc sq in
    srtp_aes_gcm_enc (srtp_gcm_cipher c) (session_key c) iv hdr [] data = Ok (ct, tag) /\
    srtp_aes_gcm_dec (srtp_gcm_cipher c) (session_key c) iv hdr [] ct tag = Ok data
  else
    srtp_aes_cm (session_key c) (session_salt c) ssrc rc sq data = Ok ct /\
    srtp_aes_cm (session_key c) (session_salt c) ssrc rc sq ct = Ok data /\
    exists h, srtp_hmac_sha1 (session_auth_key c) (hdr ++ ct) (be32 rc) = Ok h /\
              sub h 0 SRTP_AUTH_TAG_LEN = Ok tag.

Lemma wire_exists c ssrc I hdr data : exists ct tag, wire c ssrc I hdr data ct tag.
Proof.
  unfold wire, tag_len. destruct (srtp_is_gcm (profile c)).
  - destruct (gcm_ok (srtp_gcm_cipher c) (gcm_key (srtp_gcm_cipher c) (session_key c))
      (srtp_gcm_rtp_iv (session_salt c) ssrc (I / 2 ^ 16) (I mod 2 ^ 16)) (hdr ++ []) data)
      as (ct & tag & ? & Hl & Ht & ?).
    exists ct, tag. unfold blen, SRTP_GCM_TAG_LEN. rewrite Hl, Ht. auto.
  - destruct (ctr_inv (take 16 (session_key c))
      (srtp_cm_iv (session_salt c) ssrc (I / 2 ^ 16) (I mod 2 ^ 16)) data) as (ct & ? & Hl & ?).
    destruct (hmac_ok (session_auth_key c) ((hdr ++ ct) ++ be32 (I / 2 ^ 16))) as (h & ? & Hh).
    exists ct, (take 10 h). unfold blen. rewrite Hl, length_take, Hh.
    split_and!; auto. exists h. split; [done|]. apply sub_Ok; unfold blen, SRTP_AUTH_TAG_LEN; lia.
Qed.

Lemma wire_same_keys c c' ssrc I hdr data ct tag :
  same_keys c c' -> wire c ssrc I hdr data ct tag -> wire c' ssrc I hdr data ct tag.
Proof.
  intros (E1 & E2 & E3 & E4 & E5 & _). unfold wire, tag_len, srtp_gcm_cipher.
  by rewrite E1, E2, E3, E4, E5.
Qed.

Lemma protect_run c ssrc p I buf hdr data cap :
  initialized c = true -> sender_at c ssrc p -> follows p I ->
  rtp_packet buf ssrc I -> rtp_split buf hdr data -> blen buf + tag_len c <= cap ->
  exists c' ct tag, rtc_srtp_protect buf cap c = (c', Ok (hdr ++ ct ++ tag)) /\
    wire c ssrc I hdr data ct tag /\ sender_at c' ssrc (Some I) /\ same_keys c c'.
Proof.
  intros Hi Hs Hf (Hb & Hl & Hseq & Hssrc & _) Hsp Hcap.
  destruct (send_roc_run c ssrc p I Hs Hf) as (c' & Hroc & Hs' & Hk & _).
  destruct (wire_exists c' ssrc I hdr data) as (ct & tag & Hw).
  destruct (rtp_split_sub _ _ _ Hsp) as [Hh Hd]. destruct Hsp as (_ & _ & Hhl).
  exists c', ct, tag. split_and!; [|by eapply wire_same_keys|done|done].
  unfold rtc_srtp_protect, tag_len, rtp_seq, rtp_ssrc in *.
  rewrite st_bind_eq. simpl. do 2 run_guard.
  destruct Hk as (E1 & E2 & E3 & E4 & E5 & _). destruct Hw as (_ & _ & Hw).
  rewrite E1, E3, E4, E5 in *. destruct (srtp_is_gcm (profile c')) eqn:Eg.
  - unfold srtp_protect_gcm. run_guard. run Hseq. run Hssrc. rewrite st_bind_eq, Hroc.
    run Hhl. rewrite st_bind_eq. simpl. run Hh. run Hd. destruct Hw as [Hw _]. by run Hw.
  - run_guard. run Hseq. run Hssrc. rewrite st_bind_eq, Hroc.
    run Hhl. run Hh. run Hd. destruct Hw as (Hw & _ & h & Hm & Ht). run Hw. run Hm. by run Ht.
Qed.

Lemma unprotect_run c ssrc p I buf hdr data ct tag :
  initialized c = true -> receiver_at c ssrc p -> follows p I ->
  rtp_packet buf ssrc I -> rtp_split buf hdr data -> wire c ssrc I hdr data ct tag ->
  exists c', rtc_srtp_unprotect (hdr ++ ct ++ tag) c = (c', Ok buf) /\
    receiver_at c' ssrc (Some I) /\ same_keys c c'.
Proof.
  intros Hi Hr Hf (Hb & Hl & Hseq & Hssrc & _) Hsp (Hct & Htag & Hw).
  pose proof (recv_roc_follows c ssrc p I Hr Hf) as Hroc.
  destruct (receive_run c ssrc p I Hr Hf) as (c1 & c2 & i & R1 & R2 & Hr' & Hk & _).
  exists c2. split_and!; [|done|done].
  destruct Hsp as (-> & Hh & Hhl). unfold rtp_seq, rtp_ssrc in *.
  apply (header_len_prefix _ _ (ct ++ tag)) in Hhl; [|done|done].
  rewrite (rd_u16_prefix _ _ (ct ++ tag)) in Hseq by lia.
  rewrite (rd_u32_prefix _ _ (ct ++ tag)) in Hssrc by lia.
  rewrite blen_app in Hl, Hhl.
  assert (Hsub : sub (hdr ++ ct ++ tag) (blen hdr) (blen ct) = Ok ct) by by apply sub_mid.
  assert (Hhdr : sub (hdr ++ ct ++ tag) 0 (blen hdr) = Ok hdr) by by apply (sub_mid [] hdr).
  assert (Hpi : pkt_index (I / 2 ^ 16) (I mod 2 ^ 16) = I) by apply pkt_index_split, Hf.
  assert (Hts : sub (hdr ++ ct ++ tag) (blen (hdr ++ ct)) (blen tag) = Ok tag).
  { rewrite app_assoc, <-(app_nil_r tag) at 1. by apply sub_mid. }
  pose proof (blen_nonneg data). unfold rtc_srtp_unprotect, tag_len in *.
  rewrite st_bind_eq. simpl. run_guard.
  assert (Hbl : blen (hdr ++ ct ++ tag) - blen tag = blen hdr + blen ct) by (rewrite !blen_app; lia).
  assert (Hbh : blen hdr + blen ct - blen hdr = blen ct) by lia.
  assert (Hln : 12 + blen tag <= blen (hdr ++ ct ++ tag)) by (rewrite !blen_app; lia).
  rewrite blen_app in Hts. rewrite <-Hct in Hhl. destruct (srtp_is_gcm (profile c)) eqn:Eg.
  - unfold srtp_unprotect_gcm. cbv zeta. rewrite <-Htag, Hbl. run_guard. run Hts. run Hseq.
    run Hssrc. rewrite st_bind_eq. simpl. rewrite Hroc. run Hhl. run Hhdr. rewrite Hbh. run Hsub.
    destruct Hw as [_ Hw]. run Hw. rewrite Hpi, st_bind_eq, R1, st_bind_eq, R2. done.
  - destruct Hw as (_ & Hw & h & Hm & Ht). rewrite <-Htag, Hbl in *. run_guard.
    run Hts. run Hseq. run Hssrc. rewrite Hroc.
    assert (Hbody : sub (hdr ++ ct ++ tag) 0 (blen hdr + blen ct) = Ok (hdr ++ ct)).
    { rewrite app_assoc. apply (sub_mid []); [done|]. by rewrite blen_app. }
    run Hbody. run Hm. run Ht. run_guard. rewrite Hpi, st_bind_eq, R1. run Hhl. run Hhdr.
    rewrite Hbh. run Hsub. run Hw. by rewrite st_bind_eq, R2.
Qed.

(** ** A whole session over a lossy in-order channel

    Each element: the packet's absolute index, whether the channel delivers
    it, the packet. *)

Fixpoint session (cap : Z) (cs cr : rtc_srtp_ctx_t) (pkts : list (Z * bool * bytes)) :
    list (res bytes) :=
  match pkts with
  | [] => []
  | (_, delivered, buf) :: rest =>
      let '(cs', out) := rtc_srtp_protect buf cap cs in
      match out with
      | Ok wire =>
          if delivered then
            let '(cr', r) := rtc_srtp_unprotect wire cr in r :: session cap cs' cr' rest
          else session cap cs' cr rest
      | Err e => [Err e]
      | Fault => [Fault]
      end
  end.

Fixpoint session_ok (ssrc cap : Z) (sent recvd : option Z) (pkts : list (Z * bool * bytes)) : Prop :=
  match pkts with
  | [] => True
  | (idx, delivered, buf) :: rest =>
      rtp_packet buf ssrc idx /\ blen buf + SRTP_GCM_TAG_LEN <= cap /\ follows sent idx /\
      (delivered = true -> follows recvd idx) /\
      session_ok ssrc cap (Some idx) (if delivered then Some idx else recvd) rest
  end.

Definition delivered_packets (pkts : list (Z * bool * bytes)) : list bytes :=
  omap (fun '(_, d, buf) => if d : bool then Some buf else None) pkts.

Lemma session_run ssrc cap pkts : forall cs cr sent recvd,
  initialized cs = true -> same_keys cs cr ->
  sender_at cs ssrc sent -> receiver_at cr ssrc recvd ->
  session_ok ssrc cap sent recvd pkts ->
  session cap cs cr pkts = Ok <$> delivered_packets pkts.
Proof.
  induction pkts as [|[[I d] buf] rest IH]; intros cs cr sent recvd Hi Hk Hs Hr; simpl; [done|].
  intros (Hp & Hcap & Hfs & Hfr & Hrest).
  destruct (rtp_packet_split _ _ _ Hp) as (hdr & data & Hsp).
  destruct (protect_run cs ssrc sent I buf hdr data cap) as (cs' & ct & tag & -> & Hw & Hs' & Hk'); auto.
  { unfold tag_len, SRTP_AUTH_TAG_LEN, SRTP_GCM_TAG_LEN in *. destruct (srtp_is_gcm _); lia. }
  assert (initialized cs' = true) by (destruct Hk'; intuition congruence).
  destruct d; simpl.
  - destruct (unprotect_run cr ssrc recvd I buf hdr data ct tag) as (cr' & -> & Hr' & Hk''); auto.
    { destruct Hk; intuition congruence. }
    { by eapply wire_same_keys. }
    simpl. f_equal. apply (IH cs' cr' (Some I) (Some I)); auto.
    by rewrite <-Hk', Hk.
  - apply (IH cs' cr (Some I) recvd); auto. by rewrite <-Hk'.
Qed.

(** ** Contexts out of [rtc_srtp_init_profile] *)

Lemma init_start m p mk kl ms sl c ssrc :
  rtc_srtp_init_profile m p mk kl ms sl = (c, Ok ()) ->
  initialized c = true /\ sender_at c ssrc None /\ receiver_at c ssrc None /\
  srtcp_index c = 0 /\ rtcp_replay c = replicate SRTP_REPLAY_MAX_STREAMS entry_zero.
Proof.
  unfold rtc_srtp_init_profile. destruct m; [|done]. cbn [negb].
  destruct (_ ≫= _) as [c'| |] eqn:E; [|done|done]. intros [= <-].
  repeat (apply bind_Ok in E as (? & _ & E)). injection E as <-. by repeat split.
Qed.

Lemma kdf_loop_ok b mk x out_len : forall fuel produced n out,
  0 <= produced <= out_len -> (Z.to_nat (out_len - produced) <= fuel)%nat -> blen out = produced ->
  exists o, kdf_loop fuel b mk x produced out_len n out = Ok o /\ blen o = out_len.
Proof.
  induction fuel as [|fuel IH]; intros produced n out Hp Hf Ho; simpl;
    (destruct (Z.ltb_spec produced out_len); [|exists out; split; [done|lia]]); [lia|].
  set (copy := if out_len - produced <? 16 then _ else _).
  assert (1 <= copy <= out_len - produced /\ copy <= 16) as [? ?]
    by (subst copy; destruct (Z.ltb_spec (out_len - produced) 16); lia).
  rewrite sub_Ok by (unfold blen; rewrite ?ecb_len; lia). simpl.
  apply IH; [lia|lia|]. rewrite blen_app. unfold blen at 2.
  rewrite length_take, drop_0, ecb_len. lia.
Qed.

Lemma srtp_kdf_ok mk kl ms sl label n :
  evp_ctx_new = true -> 0 <= sl -> Z.min sl 14 <= blen ms ->
  (if 32 <=? kl then 32 else 16) <= blen mk -> 0 <= n ->
  exists o, srtp_kdf mk kl ms sl label n = Ok o /\ blen o = n.
Proof.
  intros Hc Hsl Hms Hmk Hn. unfold srtp_kdf.
  set (sl' := if 14 <? sl then 14 else sl).
  assert (0 <= sl' <= 14 /\ sl' <= blen ms) as [? ?]
    by (subst sl'; destruct (Z.ltb_spec 14 sl); lia).
  destruct (sub ms 0 sl') as [s| |] eqn:Es; try by rewrite sub_Ok in Es by lia.
  simpl. apply sub_length in Es.
  assert (Hx : blen (arr 14 s) = 14).
  { unfold arr, zeros. rewrite blen_app. unfold blen at 2. rewrite length_replicate. lia. }
  destruct (rd_in_range (arr 14 s) 7) as [x7 ->]; [lia|]. simpl.
  rewrite wr_Ok by lia. rewrite Hc. simpl.
  rewrite sub_Ok by (destruct (32 <=? kl); lia). simpl.
  apply kdf_loop_ok; [lia|rewrite Z.sub_0_r; lia|done].
Qed.

(** ** Properties *)

(** C1: End-to-end correctness of SRTP.  Two contexts initialised from the
    same master key and salt (any profile); the sender protects any sequence
    of packets of one SSRC whose 48-bit indices advance by less than 2^15 at
    a time (crossing any number of sequence-number wraps), the channel drops
    any of them as long as fewer than 2^15 indices separate two delivered
    packets.  Then every call succeeds and the receiver gets back exactly the
    delivered packets. *)
Theorem srtp_session_roundtrip m p mk kl ms sl c ssrc cap pkts :
  rtc_srtp_init_profile m p mk kl ms sl = (c, Ok ()) ->
  session_ok ssrc cap None None pkts ->
  session cap c c pkts = Ok <$> delivered_packets pkts.
Proof.
  intros Hc. destruct (init_start m p mk kl ms sl c ssrc Hc) as (Hi & Hs & Hr & _).
  by apply (session_run ssrc cap pkts c c None None).
Qed.

(** Key derivation always terminates with exactly the requested number
    of bytes, for every label, salt and key length the callers use. *)
Theorem srtp_kdf_total mk kl ms sl label n :
  evp_ctx_new = true -> 0 <= sl -> Z.min sl 14 <= blen ms ->
  (if 32 <=? kl then 32 else 16) <= blen mk -> 0 <= n ->
  exists o, srtp_kdf mk kl ms sl label n = Ok o /\ blen o = n.
Proof. apply srtp_kdf_ok. Qed.
End Session.
End SrtpSession.
