(* ===== verification/SrtpStreams.v ===== *)
(** * SRTP contexts with several streams

    [srtp_entry_for_ssrc] keeps the state of one stream per slot.  While no
    more SSRCs are in use than the table has slots, an access to one stream
    leaves all others as they are; beyond that the least recently used one is
    thrown away. *)

From S2P Require Import Prelude Srtp SrtpReplay SrtpSession.
From Stdlib Require Import ZArith Lia.
From stdpp Require Import base list numbers sets gmap.
#[local] Open Scope Z_scope.

Module SrtpStreams.
Import Srtp SrtpReplay SrtpSession.

(** the SSRCs of the slots in use *)
Definition slot_ssrc (e : rtc_srtp_replay_entry_t) : option Z := if in_use e then Some (e_ssrc e) else None.
Definition ssrcs (t : table_t) : list Z := omap slot_ssrc t.

(** one slot per stream, all streams of [S] *)
Definition tab_ok (S : gset Z) (t : table_t) : Prop :=
  length t = SRTP_REPLAY_MAX_STREAMS /\ NoDup (ssrcs t) /\ forall s, s ∈ ssrcs t -> s ∈ S.

Lemma matches_slot s e : matches s e = true <-> slot_ssrc e = Some s.
Proof.
  unfold matches, slot_ssrc. destruct (in_use e); cbn; [|done].
  rewrite Z.eqb_eq. naive_solver.
Qed.

Lemma find_in t s : srtp_find_ssrc t s <> None <-> s ∈ ssrcs t.
Proof.
  unfold ssrcs. induction t as [|e t IH]; cbn [srtp_find_ssrc omap list_omap]; [set_solver|].
  fold (matches s e). destruct (matches s e) eqn:E.
  - apply matches_slot in E. rewrite E. set_solver.
  - rewrite IH. destruct (slot_ssrc e) as [x|] eqn:Ex; [|done].
    assert (x <> s); [|set_solver]. intros ->. apply matches_slot in Ex. congruence.
Qed.

Lemma find_insert_ne t s k e0 e :
  t !! k = Some e0 -> matches s e0 = false -> matches s e = false ->
  srtp_find_ssrc (<[k := e]> t) s = srtp_find_ssrc t s.
Proof.
  revert k. induction t as [|x t IH]; intros [|k]; cbn; intros Hk H0 He; try done.
  - simplify_eq. fold (matches s e) (matches s e0). by rewrite He, H0.
  - fold (matches s x). destruct (matches s x); [done|]. by apply IH.
Qed.

Lemma ssrcs_cons x t : ssrcs (x :: t) = match slot_ssrc x with Some s => s :: ssrcs t | None => ssrcs t end.
Proof. done. Qed.

Lemma ssrcs_same t k e0 e :
  t !! k = Some e0 -> slot_ssrc e = slot_ssrc e0 -> ssrcs (<[k := e]> t) = ssrcs t.
Proof.
  revert k. induction t as [|x t IH]; intros [|k] Hk He; try done.
  - injection Hk as ->. change (<[0%nat := e]> (e0 :: t)) with (e :: t). by rewrite !ssrcs_cons, He.
  - change (<[S k := e]> (x :: t)) with (x :: <[k := e]> t). by rewrite !ssrcs_cons, (IH k).
Qed.

Lemma ssrcs_add t k e0 e s :
  t !! k = Some e0 -> slot_ssrc e0 = None -> slot_ssrc e = Some s -> ssrcs (<[k := e]> t) ≡ₚ s :: ssrcs t.
Proof.
  revert k. induction t as [|x t IH]; intros [|k] Hk H0 He; try done.
  - injection Hk as ->. change (<[0%nat := e]> (e0 :: t)) with (e :: t). by rewrite !ssrcs_cons, He, H0.
  - change (<[S k := e]> (x :: t)) with (x :: <[k := e]> t). rewrite !ssrcs_cons.
    destruct (slot_ssrc x); rewrite (IH k) by done; [apply Permutation_swap|done].
Qed.

(** a scan that does not find the SSRC takes a free slot if there is one *)
Lemma entry_scan_free table rest i free lru s j :
  drop i table = rest -> (forall f, free = Some f -> exists e, table !! f = Some e /\ slot_ssrc e = None) ->
  (free = None -> exists e, e ∈ rest /\ slot_ssrc e = None) ->
  entry_scan table rest i free lru s = inr j -> exists e, table !! j = Some e /\ slot_ssrc e = None.
Proof.
  revert i free lru. induction rest as [|x rest IH]; intros i free lru Hd Hf Hr; cbn [entry_scan].
  { intros [= <-]. destruct free as [f|]; [eauto|]. destruct (Hr eq_refl) as (? & []%elem_of_nil & _). }
  assert (table !! i = Some x) as Hi by (rewrite <- (Nat.add_0_r i), <- lookup_drop, Hd; done).
  assert (drop (S i) table = rest) as Hd' by (rewrite <- Nat.add_1_r, <- drop_drop, Hd; done).
  fold (matches s x). destruct (matches s x); [done|]. apply IH; [done| |].
  - intros f. destruct (negb (in_use x)) eqn:Eu; cbn [andb]; [|by apply Hf].
    destruct free; [by apply Hf|]. intros [= <-]. exists x. split; [done|]. unfold slot_ssrc.
    by destruct (in_use x).
  - destruct (in_use x) eqn:Eu; cbn [negb andb].
    + intros ->. destruct (Hr eq_refl) as (e & [->|He]%elem_of_cons & Hn); [|eauto].
      unfold slot_ssrc in Hn. by rewrite Eu in Hn.
    + by destruct free.
Qed.

Lemma free_slot S t :
  tab_ok S t -> (size S <= SRTP_REPLAY_MAX_STREAMS)%nat -> forall s, s ∈ S -> s ∉ ssrcs t ->
  exists e, e ∈ t /\ slot_ssrc e = None.
Proof.
  intros (Hl & Hn & Hin) HS s Hs Hns.
  destruct (decide (Exists (fun e => slot_ssrc e = None) t)) as [He|He]; [by apply Exists_exists in He|].
  exfalso. assert (length (ssrcs t) = length t) as E.
  { unfold ssrcs. clear -He. induction t as [|x t IH]; [done|]. rewrite Exists_cons in He. cbn.
    destruct (slot_ssrc x); [cbn; f_equal; tauto|tauto]. }
  assert (size (list_to_set (s :: ssrcs t) : gset Z) <= size S)%nat.
  { apply subseteq_size. intros x. rewrite elem_of_list_to_set, elem_of_cons. naive_solver. }
  rewrite size_list_to_set in H by by constructor. cbn in H. lia.
Qed.

(** the slot of a stream: writing it back changes no other stream *)
Lemma entry_for_keep S t tick s t' tick' i :
  tab_ok S t -> (size S <= SRTP_REPLAY_MAX_STREAMS)%nat -> s ∈ S ->
  srtp_entry_for_ssrc t tick s = (t', tick', i) -> forall e, matches s e = true ->
  tab_ok S (<[i := e]> t') /\ forall s', s' <> s -> stream (<[i := e]> t') s' = stream t s'.
Proof.
  intros Hok HS Hs E e He. pose proof Hok as (Hl & Hn & Hin). unfold srtp_entry_for_ssrc in E.
  pose proof (entry_scan_slot t t 0 None 0 s) as Hscan.
  assert (0 < length t)%nat by (rewrite Hl; unfold SRTP_REPLAY_MAX_STREAMS; lia).
  assert (forall s' x, s' <> s -> slot_ssrc x = Some s -> matches s' x = false) as Hne.
  { intros s' x Hne Hx. apply not_true_iff_false. intros Hm%matches_slot. congruence. }
  apply matches_slot in He. unfold stream.
  destruct (srtp_find_ssrc t s) as [e0|] eqn:Ef.
  - destruct Hscan as (k & Ek & Hk & _); [lia|done|done|]. rewrite Ek in E. cbn in E. injection E as <- <- <-.
    rewrite list_insert_insert_eq. apply find_Some, matches_slot in Ef. split; [split_and!|].
    + by rewrite length_insert.
    + by rewrite (ssrcs_same t k e0) by congruence.
    + by rewrite (ssrcs_same t k e0) by congruence.
    + intros s' Hs'. by rewrite (find_insert_ne t s' k e0) by auto.
  - destruct Hscan as (_ & j & Ej & Hj); [lia|done|done|]. rewrite Ej in E. injection E as <- <- <-.
    assert (s ∉ ssrcs t) as Hns by (rewrite <- find_in, Ef; tauto).
    destruct (entry_scan_free t t 0 None 0 s j) as (e0 & Hj0 & He0); [done|done| |done|].
    { intros _. by apply (free_slot S t Hok HS s). }
    rewrite list_insert_insert_eq. split; [split_and!|].
    + by rewrite length_insert.
    + rewrite (ssrcs_add t j e0 e s) by done. by constructor.
    + intros x. rewrite (ssrcs_add t j e0 e s) by done. rewrite elem_of_cons. naive_solver.
    + intros s' Hs'. rewrite (find_insert_ne t s' j e0); auto.
      apply not_true_iff_false. intros Hm%matches_slot. congruence.
Qed.

Lemma tab_ok_init S : tab_ok S (replicate SRTP_REPLAY_MAX_STREAMS entry_zero).
Proof.
  split; [apply length_replicate|]. assert (ssrcs (replicate SRTP_REPLAY_MAX_STREAMS entry_zero) = []) as -> by done.
  split; [constructor|]. by intros s ?%elem_of_nil.
Qed.

(** A stream that was evicted starts again at rollover counter 0.  SSRC 0 sends
    sequence number 6, wraps, eight other SSRCs send, and then its packet 6 of the
    next cycle gets the counter, and with it the IV, of its first packet. *)
Fixpoint send_rocs (l : list (Z * Z)) (c : rtc_srtp_ctx_t) : list (res Z) :=
  match l with
  | [] => []
  | (s, seq) :: l => let '(c, r) := send_roc s seq c in r :: send_rocs l c
  end.

Lemma srtp_eviction_repeats_iv :
  send_rocs ([(0, 6); (0, 30000); (0, 60000); (0, 5)] ++ ((fun k => (Z.of_nat k, 0)) <$> seq 1 8) ++ [(0, 6)]) ctx_zero =
  [Ok 0; Ok 0; Ok 0; Ok 1] ++ replicate 8 (Ok 0) ++ [Ok 0].
Proof. by vm_compute. Qed.
End SrtpStreams.
