(* ===== verification/SrtpAuth.v ===== *)
(** * SRTP: authentication before effect, replay rejection, IV uniqueness

    A packet without a valid tag has no effect; an accepted packet is not
    accepted again; the IVs of sent packets are distinct while no stream is
    evicted from its table, and repeat when one is. *)

From S2P Require Import Prelude Srtp SrtpReplay SrtpSession SrtpStreams.
From Stdlib Require Import ZArith Lia.
From stdpp Require Import base list numbers sets gmap.
#[local] Open Scope Z_scope.

Module SrtpAuth.
Import Srtp SrtpReplay SrtpSession SrtpStreams.

(** one [lift] or [get] of a run known to end in [Ok] *)
Ltac ok_step H :=
  let a := fresh "a" in let s := fresh "s" in let Ha := fresh "Ha" in
  apply st_bind_Ok in H as (a & s & Ha & H);
  first [apply lift_Ok in Ha as [Ha ->] | idtac].

Section Auth.
Context `{EV : Evp}.

(** [buf] carries a tag that verifies under the keys of [c], at the rollover
    counter [c] expects. *)
Definition authentic (c : rtc_srtp_ctx_t) (buf : bytes) : Prop :=
  exists body tag seq ssrc,
    buf = body ++ tag /\ blen tag = tag_len c /\
    rd_u16 buf 2 = Ok seq /\ rd_u32 buf 8 = Ok ssrc /\
    let rc := recv_roc (rtp_replay c) ssrc seq in
    if srtp_is_gcm (profile c) then
      exists hdr data pt, body = hdr ++ data /\
        srtp_aes_gcm_dec (srtp_gcm_cipher c) (session_key c)
          (srtp_gcm_rtp_iv (session_salt c) ssrc rc seq) hdr [] data tag = Ok pt
    else
      exists h, srtp_hmac_sha1 (session_auth_key c) body (be32 rc) = Ok h /\
                sub h 0 SRTP_AUTH_TAG_LEN = Ok tag.

(** follow one [lift] of a run that changed the state or succeeded *)
Ltac lift_step H :=
  let a := fresh "a" in let Ha := fresh "Ha" in let Hn := fresh "Hn" in
  apply lift_inv in H as [(a & Ha & H)|[-> Hn]]; [|by destruct_or!; congruence].

Lemma sub_split {A} (d : list A) n a b :
  sub d 0 n = Ok a -> sub d n (blen d - n) = Ok b -> d = a ++ b.
Proof.
  intros (? & ? & ? & ->)%sub_inv (? & ? & ? & ->)%sub_inv. rewrite drop_0.
  rewrite (take_ge (drop _ d)); [by rewrite take_drop|].
  rewrite length_drop. unfold blen in *. lia.
Qed.

Lemma sub_take {A} (d : list A) n k a b :
  sub d 0 n = Ok a -> sub d n (k - n) = Ok b -> sub d 0 k = Ok (a ++ b).
Proof.
  intros (? & ? & ? & ->)%sub_inv (? & ? & ? & ->)%sub_inv.
  rewrite sub_Ok by lia. rewrite !drop_0. f_equal.
  replace (Z.to_nat k) with (Z.to_nat n + Z.to_nat (k - n))%nat by lia.
  symmetry. apply take_take_drop.
Qed.

Lemma unprotect_authentic c buf c' r :
  rtc_srtp_unprotect buf c = (c', r) -> c' <> c \/ is_ok r = true -> authentic c buf.
Proof.
  unfold rtc_srtp_unprotect. rewrite st_bind_eq. simpl. intros Hrun Hd. lift_step Hrun.
  unfold authentic, tag_len.
  destruct (srtp_is_gcm (profile c)) eqn:Eg; [unfold srtp_unprotect_gcm in Hrun; cbv zeta in Hrun|].
  - do 4 lift_step Hrun. rewrite st_bind_eq in Hrun. simpl in Hrun. do 4 lift_step Hrun.
    pose proof (sub_length _ _ _ _ Ha1).
    eexists _, _, _, _. split_and!; [|eassumption|eassumption|eassumption|].
    + eapply sub_split; [by eapply sub_take|].
      rewrite <-Ha1. f_equal. lia.
    + eauto.
  - do 8 lift_step Hrun. apply fail_if_Ok, negb_false_iff, bool_decide_eq_true in Ha7. subst.
    pose proof (sub_length _ _ _ _ Ha1).
    eexists _, _, _, _. split_and!; [|eassumption|eassumption|eassumption|eauto].
    eapply sub_split; [eassumption|]. rewrite <-Ha1. f_equal. lia.
Qed.

(** ** Replay *)

Lemma winbit_fresh w0 w1 delta :
  winbit (fst (shifted w0 w1 delta)) (snd (shifted w0 w1 delta)) 0 = true.
Proof.
  unfold shifted, winbit. change (0 <? 64) with true. cbv iota.
  destruct (SRTP_REPLAY_WINDOW_SIZE <=? delta); [done|].
  destruct (64 <=? delta); [done|]. cbn [fst]. by rewrite Z.lor_spec, orb_true_r.
Qed.

Lemma replay_check_twice r i r' :
  srtp_replay_check r i = (r', Ok ()) -> srtp_replay_check r' i = (r', Err RTC_ERR_SRTP).
Proof.
  destruct r as [h w0 w1 []].
  2:{ intros [= <-]. rewrite replay_check_window by lia. by rewrite Z.sub_diag. }
  destruct (Z.lt_ge_cases h i); [|destruct (Z.lt_ge_cases (h - i) 128)].
  - rewrite replay_check_newer by done. simpl. intros [= <-].
    rewrite replay_check_window by lia. by rewrite Z.sub_diag, winbit_fresh.
  - rewrite replay_check_window by lia. destruct (winbit w0 w1 (h - i)); [done|]. simpl.
    intros [= <-]. rewrite replay_check_window by lia.
    by rewrite mark_bits, Z.eqb_refl by lia.
  - by rewrite replay_check_old by lia.
Qed.

Definition with_replay (r : rtc_srtp_replay_t) (e : rtc_srtp_replay_entry_t) :=
  Entry (e_ssrc e) (in_use e) (lru_tick e) (roc e) (last_seq e) (roc_init e) r.

(** [rtp_replay_step] seen from the stream of the packet's SSRC. *)
Lemma rtp_replay_step_run c ssrc idx :
  rtp_replay c <> [] ->
  exists t tick i,
    rtp_replay_step ssrc idx c =
      (set_rtp_replay t tick c,
       (srtp_replay_check (replay (stream (rtp_replay c) ssrc)) idx).2 ≫= fun _ => Ok i) /\
    (i < length t)%nat /\
    tbl_get t i = with_replay (srtp_replay_check (replay (stream (rtp_replay c) ssrc)) idx).1
                    (with_tick tick (stream (rtp_replay c) ssrc)) /\
    (forall e', matches ssrc e' = true -> srtp_find_ssrc (<[i := e']> t) ssrc = Some e').
Proof.
  intros Hne. unfold rtp_replay_step. rewrite st_bind_eq. simpl.
  destruct (srtp_entry_for_ssrc (rtp_replay c) (replay_lru_tick c) ssrc) as [[t tick] i] eqn:E.
  apply entry_for_ssrc_spec in E as (Hi & Hlen & Hget & Hfind); [|done].
  rewrite Hget. simpl. destruct (srtp_replay_check _ _) as [r rc]. simpl.
  eexists _, tick, i. rewrite st_bind_eq. simpl. split_and!.
  - rewrite st_bind_eq. simpl. by destruct rc.
  - by rewrite length_insert.
  - unfold tbl_get. by rewrite list_lookup_insert_eq by done.
  - intros e' He'. rewrite list_insert_insert_eq. by apply Hfind.
Qed.

Lemma find_self t i e ssrc :
  tbl_get t i = e -> matches ssrc e = true -> (i < length t)%nat ->
  (forall e', matches ssrc e' = true -> srtp_find_ssrc (<[i := e']> t) ssrc = Some e') ->
  srtp_find_ssrc t ssrc = Some e.
Proof.
  intros Hg Hm Hi Hf. rewrite <-(Hf e Hm). rewrite list_insert_id; [done|].
  unfold tbl_get in Hg. destruct (t !! i) eqn:E; simpl in *; [congruence|].
  by apply lookup_ge_None in E; lia.
Qed.

(** *** Any sequence of datagrams

    [H s]: the packet indices of stream [s] whose tag verified. *)

Definition histories : Type := Z -> list Z.

Record recv_inv (S : gset Z) (H : histories) (c : rtc_srtp_ctx_t) : Prop := {
  inv_tab : tab_ok S (rtp_replay c);
  inv_hist : forall s, replay_R (replay (stream (rtp_replay c) s)) (H s)
}.

Lemma tab_ok_ne S t : tab_ok S t -> t <> [].
Proof. intros (Hl & _) ->. discriminate Hl. Qed.

Definition upd (H : histories) (s : Z) (l : list Z) : histories := fun x => if x =? s then l else H x.

(** the replay check of a datagram of stream [s]: the other streams keep their
    state; what it accepts is new *)
Lemma replay_step_inv S H c s idx c1 r :
  (size S <= SRTP_REPLAY_MAX_STREAMS)%nat -> s ∈ S -> recv_inv S H c -> rtp_replay_step s idx c = (c1, r) ->
  same_keys c c1 /\ recv_inv S (upd H s (if is_ok r then idx :: H s else H s)) c1 /\
  (if is_ok r then idx ∉ H s else r = Err RTC_ERR_SRTP) /\
  (forall i, r = Ok i -> tbl_get (rtp_replay c1) i = stream (rtp_replay c1) s /\
     forall e, matches s e = true -> tab_ok S (<[i := e]> (rtp_replay c1)) /\
       stream (<[i := e]> (rtp_replay c1)) s = e /\
       forall s', s' <> s -> stream (<[i := e]> (rtp_replay c1)) s' = stream (rtp_replay c1) s').
Proof.
  intros HS Hs [Ht Hh]. unfold rtp_replay_step. rewrite st_bind_eq. cbn [get].
  destruct (srtp_entry_for_ssrc (rtp_replay c) (replay_lru_tick c) s) as [[t tick] i] eqn:E.
  pose proof (entry_for_keep S _ _ _ _ _ _ Ht HS Hs E) as Hkeep.
  apply entry_for_ssrc_spec in E as (Hi & Hlen & Hget & Hfind); [|by eapply tab_ok_ne].
  rewrite Hget. set (e := stream (rtp_replay c) s) in *. change (replay (with_tick tick e)) with (replay e).
  destruct (replay_R_step (replay e) (H s) idx (Hh s)) as [Eok HR].
  destruct (srtp_replay_check (replay e) idx) as [w rc] eqn:Ec. cbn [fst snd] in *.
  change (Entry _ _ _ _ _ _ _) with (with_replay w (with_tick tick e)). set (e' := with_replay w (with_tick tick e)).
  assert (matches s e' = true) as He' by apply (stream_matches (rtp_replay c)).
  destruct (Hkeep e' He') as [Ht' Hs'].
  assert (stream (<[i := e']> t) s = e') as Hst by (unfold stream; by rewrite Hfind).
  rewrite st_bind_eq. cbn [put]. rewrite st_bind_eq. unfold lift. intros Hr.
  assert (c1 = set_rtp_replay (<[i := e']> t) tick c /\ is_ok r = is_ok rc /\
    (is_ok r = false -> r = Err RTC_ERR_SRTP) /\ (forall j, r = Ok j -> j = i)) as (-> & Er & Hbad & Hj).
  { destruct rc as [[]|x|]; injection Hr as <- <-; split_and!; try done; [naive_solver| |].
    - intros _. destruct (replay e) as [h w0 w1 []]; unfold srtp_replay_check in Ec; cbn in Ec; repeat case_match; simplify_eq; done.
    - destruct (replay e) as [h w0 w1 []]; unfold srtp_replay_check in Ec; cbn in Ec; repeat case_match; simplify_eq. }
  split; [apply same_keys_set_rtp_replay|]. cbn [rtp_replay set_rtp_replay].
  split_and!.
  - split; [exact Ht'|]. intros x. unfold upd. destruct (Z.eqb_spec x s) as [->|Hx].
    + cbn [rtp_replay set_rtp_replay]. rewrite Hst. subst e'. cbn [replay]. rewrite Er, Eok. exact HR.
    + cbn [rtp_replay set_rtp_replay]. rewrite Hs' by done. apply Hh.
  - destruct (is_ok r) eqn:Eb; [|by apply Hbad]. assert (spec_accepts (H s) idx = true) as Hsp by congruence. clear Eok. rename Hsp into Eok.
    rewrite spec_accepts_spec in Eok. intros Hin. by destruct (Eok idx Hin).
  - intros j ->%Hj. split.
    { rewrite Hst. unfold tbl_get. by rewrite list_lookup_insert_eq by done. }
    intros e2 He2. rewrite list_insert_insert_eq. destruct (Hkeep e2 He2) as [Ht2 Hs2].
    split_and!; [done|unfold stream; by rewrite Hfind|]. intros s' Hne. by rewrite Hs2, Hs'.
Qed.

Lemma recv_update_inv S H c s i seq rc c' r :
  recv_inv S H c -> tbl_get (rtp_replay c) i = stream (rtp_replay c) s ->
  (forall e, matches s e = true -> tab_ok S (<[i := e]> (rtp_replay c)) /\ stream (<[i := e]> (rtp_replay c)) s = e /\
     forall s', s' <> s -> stream (<[i := e]> (rtp_replay c)) s' = stream (rtp_replay c) s') ->
  recv_update i seq rc c = (c', r) -> same_keys c c' /\ recv_inv S H c' /\ r = Ok ().
Proof.
  intros [Ht Hh] Hg Hk. unfold recv_update. rewrite st_bind_eq. cbn [get]. rewrite Hg.
  destruct (_ || _ || _); intros [= <- <-]; [|done].
  split; [apply same_keys_set_rtp_replay|]. split; [|done].
  set (e := Entry _ _ _ _ _ _ _). destruct (Hk e) as (Ht' & Hs & Hs'); [apply (stream_matches (rtp_replay c))|].
  split; [done|]. intros x. cbn [rtp_replay set_rtp_replay].
  destruct (decide (x = s)) as [->|]; [rewrite Hs; apply Hh|by rewrite Hs'].
Qed.

(** what [rtc_srtp_unprotect] does to a context: nothing, or one replay check
    of the index of the datagram, and the update of the rollover state if it
    passed *)
Definition received (c : rtc_srtp_ctx_t) (s seq : Z) (c' : rtc_srtp_ctx_t) (ok : bool) : Prop :=
  let rc := recv_roc (rtp_replay c) s seq in
  exists c1 r1, rtp_replay_step s (pkt_index rc seq) c = (c1, r1) /\ (ok = true -> is_ok r1 = true) /\
    (c' = c1 \/ exists i r2, r1 = Ok i /\ recv_update i seq rc c1 = (c', r2)).

(** follow one [lift] of a run; where it fails the run ends there *)
Ltac lift_or H :=
  let a := fresh "a" in let Ha := fresh "Ha" in let Hn := fresh "Hn" in
  apply lift_inv in H as [(a & Ha & H)|[-> Hn]]; [|by left; split; [|destruct (is_ok _)]].

Lemma unprotect_received buf c c' r :
  rtc_srtp_unprotect buf c = (c', r) ->
  (c' = c /\ is_ok r = false) \/
  exists s seq, rd_u16 buf 2 = Ok seq /\ rd_u32 buf 8 = Ok s /\ received c s seq c' (is_ok r).
Proof.
  unfold rtc_srtp_unprotect. rewrite st_bind_eq. cbn [get]. intros Hrun.
  lift_or Hrun. destruct (srtp_is_gcm (profile c)).
  - unfold srtp_unprotect_gcm in Hrun. cbv zeta in Hrun. do 4 lift_or Hrun.
    rewrite st_bind_eq in Hrun. cbn [get] in Hrun. do 4 lift_or Hrun.
    right. do 2 eexists. split; [eassumption|]. split; [eassumption|]. unfold received.
    rewrite st_bind_eq in Hrun. destruct (rtp_replay_step _ _ c) as [c1 [i| |]] eqn:Es;
      [|injection Hrun as <- <-; do 2 eexists; split; [done|]; split; [done|by left]..].
    rewrite st_bind_eq in Hrun. destruct (recv_update _ _ _ c1) as [c2 r2] eqn:Eu.
    do 2 eexists. split; [done|]. split; [done|]. right. do 2 eexists. split; [done|].
    rewrite Eu. by destruct r2; injection Hrun as <- <-.
  - do 8 lift_or Hrun. right. do 2 eexists. split; [eassumption|]. split; [eassumption|]. unfold received.
    rewrite st_bind_eq in Hrun. destruct (rtp_replay_step _ _ c) as [c1 [i| |]] eqn:Es;
      [|injection Hrun as <- <-; do 2 eexists; split; [done|]; split; [done|by left]..].
    do 2 eexists. split; [done|]. split; [done|].
    do 4 (apply lift_inv in Hrun as [(? & _ & Hrun)|[-> _]]; [|by left]).
    rewrite st_bind_eq in Hrun. destruct (recv_update _ _ _ c1) as [c2 r2] eqn:Eu.
    right. do 2 eexists. split; [done|]. rewrite Eu. by destruct r2; injection Hrun as <- <-.
Qed.

(** a datagram received: the histories only grow, and an accepted one is new *)
Lemma unprotect_inv S H c buf c' r :
  (size S <= SRTP_REPLAY_MAX_STREAMS)%nat -> (forall s, rd_u32 buf 8 = Ok s -> s ∈ S) -> recv_inv S H c ->
  rtc_srtp_unprotect buf c = (c', r) ->
  same_keys c c' /\ exists H', recv_inv S H' c' /\ (forall s, H s ⊆ H' s) /\
    (is_ok r = true -> exists s seq, rd_u16 buf 2 = Ok seq /\ rd_u32 buf 8 = Ok s /\
       let idx := pkt_index (recv_roc (rtp_replay c) s seq) seq in idx ∉ H s /\ idx ∈ H' s).
Proof.
  intros HS Hin Hi Hr. apply unprotect_received in Hr as [(-> & Hr)|(s & seq & Hq & Hs & (c1 & r1 & E & Hok & Hc'))].
  { split; [done|]. exists H. split_and!; [done|done|]. by rewrite Hr. }
  destruct (replay_step_inv S H c s _ c1 r1 HS (Hin s Hs) Hi E) as (Hk & Hi1 & Hnew & Hslot).
  assert (same_keys c c' /\ recv_inv S (upd H s (if is_ok r1 then pkt_index (recv_roc (rtp_replay c) s seq) seq :: H s else H s)) c')
    as [Hk' Hi'].
  { destruct Hc' as [->|(i & r2 & -> & Eu)]; [done|]. destruct (Hslot i eq_refl) as [Hg Hw].
    destruct (recv_update_inv _ _ _ s _ _ _ _ _ Hi1 Hg Hw Eu) as (Hk2 & Hi2 & _). split; [by rewrite Hk|done]. }
  split; [done|]. eexists. split; [exact Hi'|]. unfold upd. split.
  - intros x. destruct (Z.eqb_spec x s) as [->|]; [|done]. destruct (is_ok r1); set_solver.
  - intros Ho. rewrite (Hok Ho) in *. exists s, seq. rewrite Z.eqb_refl. split_and!; [done|done|done|set_solver].
Qed.

(** the context after a sequence of datagrams *)
Definition receive_all (bufs : list bytes) (c : rtc_srtp_ctx_t) : rtc_srtp_ctx_t :=
  foldl (fun c buf => (rtc_srtp_unprotect buf c).1) c bufs.

Lemma receive_all_inv S bufs : forall H c,
  (size S <= SRTP_REPLAY_MAX_STREAMS)%nat -> (forall buf s, buf ∈ bufs -> rd_u32 buf 8 = Ok s -> s ∈ S) ->
  recv_inv S H c ->
  same_keys c (receive_all bufs c) /\ exists H', recv_inv S H' (receive_all bufs c) /\ forall s, H s ⊆ H' s.
Proof.
  induction bufs as [|buf bufs IH]; intros H c HS Hin Hi; [by split; [done|exists H]|]. cbn.
  destruct (rtc_srtp_unprotect buf c) as [c1 r] eqn:E.
  destruct (unprotect_inv S H c buf c1 r HS) as (Hk & H1 & Hi1 & Hsub & _); [intros; eapply Hin; [by left|done]|done|done|].
  destruct (IH H1 c1 HS) as (Hk' & H2 & Hi2 & Hsub2); [intros; eapply Hin; [by right|done]|done|].
  split; [by rewrite Hk|]. exists H2. split; [done|]. intros s. by rewrite Hsub.
Qed.

(** a datagram whose index was seen is rejected by the replay check *)
Lemma unprotect_spent S H c c0 buf c1 out s seq :
  (size S <= SRTP_REPLAY_MAX_STREAMS)%nat -> s ∈ S -> recv_inv S H c -> same_keys c0 c ->
  rtc_srtp_unprotect buf c0 = (c1, Ok out) -> rd_u16 buf 2 = Ok seq -> rd_u32 buf 8 = Ok s ->
  recv_roc (rtp_replay c) s seq = recv_roc (rtp_replay c0) s seq ->
  pkt_index (recv_roc (rtp_replay c0) s seq) seq ∈ H s ->
  exists c2, rtc_srtp_unprotect buf c = (c2, Err RTC_ERR_SRTP).
Proof.
  intros HS Hs Hi (E1 & E2 & E3 & E4 & E5 & _ & _ & _ & E9) Hrun Hq Hss Er Hin.
  destruct (rtp_replay_step s (pkt_index (recv_roc (rtp_replay c0) s seq) seq) c) as [c2 r2] eqn:Es.
  destruct (replay_step_inv S H c s _ c2 r2 HS Hs Hi Es) as (_ & _ & Hr2 & _).
  destruct (is_ok r2) eqn:Eo; [done|]. subst r2. exists c2.
  unfold rtc_srtp_unprotect in *. rewrite !st_bind_eq in *. cbn [get] in *. rewrite <-E9, <-E1.
  ok_step Hrun. run Ha. destruct (srtp_is_gcm (profile c0)) eqn:Eg.
  - unfold srtp_unprotect_gcm in *. cbv zeta in *. do 4 ok_step Hrun.
    rewrite st_bind_eq in Hrun. simpl in Hrun. do 4 ok_step Hrun. rewrite Ha2 in Hq. injection Hq as ->. rewrite Ha3 in Hss. injection Hss as ->.
    run Ha0. run Ha1. run Ha2. run Ha3. rewrite st_bind_eq. cbn [get]. rewrite Er, <-E3, <-E4.
    unfold srtp_gcm_cipher in *. rewrite <-E2. run Ha4. run Ha5. run Ha6. run Ha7. by rewrite st_bind_eq, Es.
  - do 8 ok_step Hrun. rewrite Ha2 in Hq. injection Hq as ->. rewrite Ha3 in Hss. injection Hss as ->.
    run Ha0. run Ha1. run Ha2. run Ha3. rewrite Er, <-E5.
    run Ha4. run Ha5. run Ha6. run Ha7. by rewrite st_bind_eq, Es.
Qed.
End Auth.

(** ** Initialisation vectors *)

(** the IV of an RTP packet under the context's profile *)
Definition rtp_iv (c : rtc_srtp_ctx_t) (ssrc rc seq : Z) : bytes :=
  if srtp_is_gcm (profile c) then srtp_gcm_rtp_iv (session_salt c) ssrc rc seq
  else srtp_cm_iv (session_salt c) ssrc rc seq.

Lemma zip_lxor_inj (a b s : bytes) :
  length a = length b -> (length a <= length s)%nat -> xor_bytes a s = xor_bytes b s -> a = b.
Proof.
  unfold xor_bytes. revert b s. induction a as [|x a IH]; intros [|y b] [|z s]; simpl; intros; try lia; try done.
  simplify_eq. f_equal; [|by eapply (IH b s); auto; lia].
  rewrite <-(Z.lxor_0_r x), <-(Z.lxor_0_r y), <-(Z.lxor_nilpotent z), <-!Z.lxor_assoc. by f_equal.
Qed.

Lemma be_index_inj s1 s2 r1 q1 r2 q2 :
  0 <= s1 < 2 ^ 32 -> 0 <= s2 < 2 ^ 32 ->
  0 <= r1 < 2 ^ 32 -> 0 <= r2 < 2 ^ 32 -> 0 <= q1 < 2 ^ 16 -> 0 <= q2 < 2 ^ 16 ->
  be32 s1 ++ be32 r1 ++ be16 q1 = be32 s2 ++ be32 r2 ++ be16 q2 -> s1 = s2 /\ r1 = r2 /\ q1 = q2.
Proof.
  intros Hs1 Hs2 Hr1 Hr2 Hq1 Hq2 E.
  pose proof (f_equal (fun l => rd_u32 l 0) E) as E0. cbv beta in E0.
  rewrite !rd_u32_here in E0 by done. injection E0 as ->. apply app_inv_head in E.
  pose proof (f_equal (fun l => rd_u32 l 0) E) as E1. cbv beta in E1.
  rewrite !rd_u32_here in E1 by done. injection E1 as ->.
  apply app_inv_head in E. pose proof (f_equal (fun l => rd_u16 (l ++ []) 0) E) as E2.
  cbv beta in E2. rewrite !rd_u16_here in E2 by done. by injection E2 as ->.
Qed.

Lemma rtp_iv_inj c s1 s2 I J :
  blen (session_salt c) = 14 -> 0 <= s1 < 2 ^ 32 -> 0 <= s2 < 2 ^ 32 ->
  0 <= I < 2 ^ 48 -> 0 <= J < 2 ^ 48 ->
  rtp_iv c s1 (I / 2 ^ 16) (I mod 2 ^ 16) = rtp_iv c s2 (J / 2 ^ 16) (J mod 2 ^ 16) -> s1 = s2 /\ I = J.
Proof.
  unfold rtp_iv, srtp_gcm_rtp_iv, srtp_cm_iv, blen. intros Hl H1 H2 HI HJ.
  assert (forall K, 0 <= K < 2 ^ 48 -> 0 <= K / 2 ^ 16 < 2 ^ 32 /\ 0 <= K mod 2 ^ 16 < 2 ^ 16) as B
    by (intros K HK; pow_eval; dlia).
  destruct (B I HI), (B J HJ).
  assert (be32 s1 ++ be32 (I / 2 ^ 16) ++ be16 (I mod 2 ^ 16)
          = be32 s2 ++ be32 (J / 2 ^ 16) ++ be16 (J mod 2 ^ 16) -> s1 = s2 /\ I = J).
  { intros (E1 & E2 & E3)%be_index_inj; auto. split; [done|]. pow_eval. dlia. }
  destruct (srtp_is_gcm (profile c)).
  - intros E%zip_lxor_inj; [|done|rewrite length_take; apply Nat.min_glb; cbn; lia]. by apply app_inv_head in E; auto.
  - intros E%app_inv_tail%zip_lxor_inj; [|done|simpl; lia]. by apply app_inv_head in E; auto.
Qed.

Section Send.
Context `{EvpLaws}.

(** the packets of a run: SSRC, absolute index, bytes *)
Definition outgoing : Type := Z * Z * bytes.

(** [rtc_srtp_protect] on one packet after the other *)
Fixpoint protect_all (cap : Z) (pkts : list outgoing) (c : rtc_srtp_ctx_t) : list (res bytes) :=
  match pkts with
  | [] => []
  | (_, _, buf) :: rest => let '(c', r) := rtc_srtp_protect buf cap c in r :: protect_all cap rest c'
  end.

(** in each stream the indices follow each other; [sent]: the last ones *)
Fixpoint in_sequence (cap : Z) (sent : gmap Z Z) (pkts : list outgoing) : Prop :=
  match pkts with
  | [] => True
  | (s, idx, buf) :: rest =>
      rtp_packet buf s idx /\ 0 <= s < 2 ^ 32 /\ blen buf + SRTP_GCM_TAG_LEN <= cap /\ follows (sent !! s) idx /\
      in_sequence cap (<[s := idx]> sent) rest
  end.

(** [w] is [buf] with its payload encrypted under the key of [c] and [iv] *)
Definition sealed (c : rtc_srtp_ctx_t) (iv buf w : bytes) : Prop :=
  exists hdr data ct tag, rtp_split buf hdr data /\ w = hdr ++ ct ++ tag /\
    if srtp_is_gcm (profile c) then srtp_aes_gcm_enc (srtp_gcm_cipher c) (session_key c) iv hdr [] data = Ok (ct, tag)
    else evp_aes_128_ctr (take 16 (session_key c)) iv data = Ok ct.

Definition iv_of (c : rtc_srtp_ctx_t) (p : outgoing) : bytes :=
  let '(s, idx, _) := p in rtp_iv c s (idx / 2 ^ 16) (idx mod 2 ^ 16).

(** sending on one stream leaves the others *)
Lemma send_roc_keep S c s seq :
  (size S <= SRTP_REPLAY_MAX_STREAMS)%nat -> s ∈ S -> tab_ok S (rtp_send c) ->
  tab_ok S (rtp_send (send_roc s seq c).1) /\
  forall s', s' <> s -> stream (rtp_send (send_roc s seq c).1) s' = stream (rtp_send c) s'.
Proof.
  intros HS Hs Ht. unfold send_roc. rewrite st_bind_eq. cbn [get].
  destruct (srtp_entry_for_ssrc (rtp_send c) (send_lru_tick c) s) as [[t tick] i] eqn:E.
  pose proof (entry_for_keep S _ _ _ _ _ _ Ht HS Hs E) as Hkeep.
  apply entry_for_ssrc_spec in E as (_ & _ & Hget & _); [|by eapply tab_ok_ne]. rewrite Hget.
  rewrite st_bind_eq. cbn. apply Hkeep. apply (stream_matches (rtp_send c)).
Qed.

(** the context after a send is the one [send_roc] leaves *)
Lemma protect_state c buf cap c' r w :
  rtc_srtp_protect buf cap c = (c', r) -> r = Ok w ->
  exists s seq, rd_u16 buf 2 = Ok seq /\ rd_u32 buf 8 = Ok s /\ c' = (send_roc s seq c).1.
Proof.
  intros Hrun ->. unfold rtc_srtp_protect in Hrun. rewrite st_bind_eq in Hrun. cbn [get] in Hrun. do 2 ok_step Hrun.
  destruct (srtp_is_gcm (profile c)); [unfold srtp_protect_gcm in Hrun|]; do 3 ok_step Hrun;
    apply st_bind_Ok in Hrun as (rc & c1 & Hs & Hrun); do 2 eexists; (split; [eassumption|]); (split; [eassumption|]);
    rewrite Hs; cbn [fst]; ok_step Hrun.
  - rewrite st_bind_eq in Hrun. cbn [get] in Hrun. do 3 ok_step Hrun. by injection Hrun.
  - do 5 ok_step Hrun. by injection Hrun.
Qed.

Record send_inv (S : gset Z) (sent : gmap Z Z) (c : rtc_srtp_ctx_t) : Prop := {
  send_init : initialized c = true;
  send_tab : tab_ok S (rtp_send c);
  send_at : forall s, at_index (stream (rtp_send c) s) (sent !! s)
}.

Lemma protect_inv S sent c s I buf cap :
  (size S <= SRTP_REPLAY_MAX_STREAMS)%nat -> s ∈ S -> send_inv S sent c ->
  rtp_packet buf s I -> blen buf + SRTP_GCM_TAG_LEN <= cap -> follows (sent !! s) I ->
  exists c' w, rtc_srtp_protect buf cap c = (c', Ok w) /\ same_keys c c' /\
    sealed c (rtp_iv c s (I / 2 ^ 16) (I mod 2 ^ 16)) buf w /\ send_inv S (<[s := I]> sent) c'.
Proof.
  intros HS Hs [Hi Ht Ha] Hp Hcap Hf. destruct (rtp_packet_split _ _ _ Hp) as (hdr & data & Hsp).
  destruct (protect_run c s (sent !! s) I buf hdr data cap) as (c' & ct & tag & E & Hw & [_ Hat] & Hk); auto.
  { split; [by eapply tab_ok_ne|apply Ha]. }
  { unfold tag_len, SRTP_AUTH_TAG_LEN, SRTP_GCM_TAG_LEN in *. destruct (srtp_is_gcm _); lia. }
  exists c', (hdr ++ ct ++ tag). split_and!; [done|done| |].
  - exists hdr, data, ct, tag. split_and!; [done|done|]. destruct Hw as (_ & _ & Hw). unfold rtp_iv.
    destruct (srtp_is_gcm (profile c)); by destruct Hw.
  - destruct (protect_state _ _ _ _ _ _ E eq_refl) as (s1 & q & Hq & Hs1 & Ec).
    assert (s1 = s) as -> by (destruct Hp as (_ & _ & _ & Hs2 & _); unfold rtp_ssrc in Hs2; congruence).
    destruct (send_roc_keep S c s q HS Hs Ht) as [Ht' Hoth]. rewrite <- Ec in *.
    split; [destruct Hk as (_ & _ & _ & _ & _ & _ & _ & _ & E9); congruence|done|].
    intros x. destruct (decide (x = s)) as [->|]; [by rewrite lookup_insert_eq|]. rewrite lookup_insert_ne, Hoth by done. apply Ha.
Qed.

Lemma sealed_same_keys c c' iv buf w : same_keys c c' -> sealed c' iv buf w -> sealed c iv buf w.
Proof. intros (E1 & E2 & E3 & _). unfold sealed, srtp_gcm_cipher. by rewrite E1, E2, E3. Qed.

Lemma iv_of_same_keys c c' p : same_keys c c' -> iv_of c' p = iv_of c p.
Proof. intros (E1 & _ & _ & E4 & _). destruct p as [[s I] buf]. unfold iv_of, rtp_iv. by rewrite E1, E4. Qed.

Lemma protect_all_run S cap pkts : forall sent c,
  (size S <= SRTP_REPLAY_MAX_STREAMS)%nat -> (forall s I buf, (s, I, buf) ∈ pkts -> s ∈ S) -> send_inv S sent c ->
  in_sequence cap sent pkts ->
  exists wires, protect_all cap pkts c = Ok <$> wires /\
    Forall2 (fun p w => sealed c (iv_of c p) p.2 w) pkts wires.
Proof.
  induction pkts as [|[[s I] buf] pkts IH]; intros sent c HS Hin Hi; cbn [in_sequence protect_all].
  { intros _. exists []. split; [done|constructor]. }
  intros (Hp & _ & Hcap & Hf & Hseq).
  destruct (protect_inv S sent c s I buf cap) as (c' & w & -> & Hk & Hw & Hi'); auto; [eapply Hin; by left|].
  destruct (IH (<[s := I]> sent) c' HS) as (wires & -> & HF); [intros; eapply Hin; by right|done|done|].
  exists (w :: wires). split; [done|]. constructor; [done|]. eapply Forall2_impl; [exact HF|].
  intros p v Hv. rewrite <- (iv_of_same_keys c c') by done. by eapply sealed_same_keys.
Qed.

(** later packets of a stream have larger indices *)
Lemma in_sequence_later cap pkts : forall sent s p, in_sequence cap sent pkts -> sent !! s = Some p ->
  forall I buf, (s, I, buf) ∈ pkts -> p < I.
Proof.
  induction pkts as [|[[s1 I1] b1] pkts IH]; cbn [in_sequence]; [by intros ???? _ ?? ?%elem_of_nil|].
  intros sent s p (_ & _ & _ & [_ Hf] & Hseq) Hp I buf [[= -> -> ->]|Hin]%elem_of_cons.
  - rewrite Hp in Hf. lia.
  - destruct (decide (s = s1)) as [->|Hne].
    + rewrite Hp in Hf. pose proof (IH _ s1 I1 Hseq ltac:(by rewrite lookup_insert_eq) I buf Hin). lia.
    + apply (IH _ s p Hseq) with (2 := Hin). by rewrite lookup_insert_ne.
Qed.

Lemma in_sequence_range cap pkts : forall sent, in_sequence cap sent pkts ->
  forall s I buf, (s, I, buf) ∈ pkts -> 0 <= s < 2 ^ 32 /\ 0 <= I < 2 ^ 48.
Proof.
  induction pkts as [|[[s1 I1] b1] pkts IH]; cbn [in_sequence]; [by intros ?? ??? ?%elem_of_nil|].
  intros sent (_ & Hs & _ & [HI _] & Hseq) s I buf [[= -> -> ->]|Hin]%elem_of_cons; [done|by eapply IH].
Qed.

Lemma iv_of_distinct c cap pkts : forall sent,
  blen (session_salt c) = 14 -> in_sequence cap sent pkts -> NoDup (iv_of c <$> pkts).
Proof.
  induction pkts as [|[[s I] buf] pkts IH]; intros sent Hl Hseq; [constructor|].
  pose proof (in_sequence_range cap _ sent Hseq) as Hr. destruct Hseq as (_ & _ & _ & _ & Hseq).
  cbn. constructor; [|by apply (IH _ Hl Hseq)].
  intros ([[s' J] b'] & E & Hin)%list_elem_of_fmap.
  destruct (Hr s I buf) as [? ?]; [by left|]. destruct (Hr s' J b') as [? ?]; [by right|].
  apply rtp_iv_inj in E as [<- <-]; try done.
  pose proof (in_sequence_later cap pkts _ s I Hseq ltac:(by rewrite lookup_insert_eq) I b' Hin). lia.
Qed.

Lemma init_salt m p mk kl ms sl c :
  rtc_srtp_init_profile m p mk kl ms sl = (c, Ok ()) -> 0 <= sl -> blen (session_salt c) = 14.
Proof.
  unfold rtc_srtp_init_profile. destruct m; [|done]. cbn [negb].
  destruct (_ ≫= _) as [c'| |] eqn:E; [|done|done]. intros [= <-] Hsl.
  apply bind_Ok in E as (? & _ & (? & _ & (? & _ & (ss & Hss & E)%bind_Ok)%bind_Ok)%bind_Ok).
  repeat (apply bind_Ok in E as (? & _ & E)). injection E as <-. cbn [session_salt].
  assert (blen ss <= 14) as Hl.
  { unfold srtp_kdf in Hss. repeat (apply bind_Ok in Hss as (? & _ & Hss)).
    set (n := if SRTP_MAX_SALT_LEN <? sl then SRTP_MAX_SALT_LEN else sl) in *.
    assert (0 <= n <= 14) as Hn by (subst n; unfold SRTP_MAX_SALT_LEN; destruct (Z.ltb_spec 14 sl); lia).
    match type of Hss with kdf_loop _ ?b ?k ?x _ _ _ _ = _ =>
      destruct (kdf_loop_ok b k x n (Z.to_nat n) 0 0 []) as (o & Eo & Ho) end; [lia|lia|done|]. rewrite Hss in Eo. injection Eo as <-. lia. }
  pose proof (blen_nonneg ss). unfold arr, zeros. rewrite blen_app. unfold blen at 2. rewrite length_replicate. lia.
Qed.
End Send.

(** ** Properties *)

(** C7: Authentication precedes every effect.  If [rtc_srtp_unprotect]
    changes the context in any way, or returns a packet, then the packet's
    tag verifies under the context's keys; a forged packet cannot touch the
    stream table, the rollover counters or the replay windows. *)
Theorem srtp_effect_needs_authentication `{Evp} c buf c' r :
  rtc_srtp_unprotect buf c = (c', r) -> c' <> c \/ is_ok r = true -> authentic c buf.
Proof. apply unprotect_authentic. Qed.

(** C20: Replay protection.  A context receives any datagrams [pre], accepts
    [buf], and then receives any datagrams [mid], of no more SSRCs than it has
    slots (eight, so that no stream is evicted).  If [buf] arrives again it is
    rejected with [RTC_ERR_SRTP], as long as the receiver takes it for the same
    rollover counter; it can only be accepted again if its tag also verifies
    under another counter.  For every profile. *)
Theorem srtp_replayed_packet_rejected `{Evp} m p mk kl ms sl c0 (S : gset Z) pre buf mid c2 out s seq :
  rtc_srtp_init_profile m p mk kl ms sl = (c0, Ok ()) ->
  (size S <= SRTP_REPLAY_MAX_STREAMS)%nat ->
  (forall d x, d ∈ pre ++ buf :: mid -> rd_u32 d 8 = Ok x -> x ∈ S) ->
  rd_u16 buf 2 = Ok seq -> rd_u32 buf 8 = Ok s ->
  let c1 := receive_all pre c0 in
  rtc_srtp_unprotect buf c1 = (c2, Ok out) ->
  let c3 := receive_all mid c2 in
  (recv_roc (rtp_replay c3) s seq = recv_roc (rtp_replay c1) s seq ->
   exists c4, rtc_srtp_unprotect buf c3 = (c4, Err RTC_ERR_SRTP)) /\
  (forall c4 out', rtc_srtp_unprotect buf c3 = (c4, Ok out') ->
   recv_roc (rtp_replay c3) s seq <> recv_roc (rtp_replay c1) s seq /\ authentic c1 buf /\ authentic c3 buf).
Proof.
  intros Hc0 HS Hin Hq Hs c1 Hrun c3.
  assert ((forall d x, d ∈ pre -> rd_u32 d 8 = Ok x -> x ∈ S) /\ (forall x, rd_u32 buf 8 = Ok x -> x ∈ S) /\
    (forall d x, d ∈ mid -> rd_u32 d 8 = Ok x -> x ∈ S)) as (Hpre & Hbuf & Hmid)
    by (split_and!; [intros d x ?|intros x|intros d x ?]; apply Hin; set_solver).
  assert (recv_inv S (fun _ => []) c0) as Hi0.
  { unfold rtc_srtp_init_profile in Hc0. destruct m; [|done]. cbn [negb] in Hc0.
    destruct (_ ≫= _) as [c'| |] eqn:E; [|done|done]. injection Hc0 as <-.
    repeat (apply bind_Ok in E as (? & _ & E)). injection E as <-. split; [apply tab_ok_init|done]. }
  destruct (receive_all_inv S pre (fun _ => []) c0 HS) as (_ & H1 & Hi1 & _); [done..|].
  destruct (unprotect_inv S H1 c1 buf c2 (Ok out) HS) as (Hk2 & H2 & Hi2 & _ & Hacc); [done..|].
  destruct (Hacc eq_refl) as (s' & q' & Hq' & Hs' & _ & Hnew). rewrite Hq in Hq'. rewrite Hs in Hs'. simplify_eq.
  destruct (receive_all_inv S mid H2 c2 HS) as (Hk3 & H3 & Hi3 & Hsub); [done..|].
  assert (s' ∈ S) as HsS by by apply Hbuf. apply Hsub in Hnew. split.
  - intros Er. apply (unprotect_spent S H3 c3 c1 buf c2 out s' q' HS HsS Hi3); try done. unfold c3. by rewrite Hk2.
  - intros c4 out' Hrun'. destruct (unprotect_inv S H3 c3 buf c4 (Ok out') HS) as (_ & H4 & _ & _ & Hacc'); [done..|].
    destruct (Hacc' eq_refl) as (s2 & q2 & Hq2 & Hs2 & Hfresh & _). rewrite Hq in Hq2. rewrite Hs in Hs2. simplify_eq.
    split; [by intros Er; rewrite Er in Hfresh|]. split; (eapply unprotect_authentic; [eassumption|by right]).
Qed.

(** C21: No IV is used twice.  A context out of [rtc_srtp_init_profile]
    protects packets of up to eight SSRCs (its slots), interleaved in any way; the
    48-bit indices of each stream advance by less than 2^15 at a time, across
    any number of sequence-number wraps.  Then every call succeeds, what
    [rtc_srtp_protect] returns is the packet with its payload encrypted under
    the session key and the IV of its SSRC and index, and all these IVs are
    distinct, for AES-CM and AES-GCM. *)
Theorem srtp_send_ivs_distinct `{EvpLaws} m p mk kl ms sl c (S : gset Z) cap pkts :
  rtc_srtp_init_profile m p mk kl ms sl = (c, Ok ()) -> 0 <= sl ->
  (size S <= SRTP_REPLAY_MAX_STREAMS)%nat -> (forall s idx buf, (s, idx, buf) ∈ pkts -> s ∈ S) ->
  in_sequence cap ∅ pkts ->
  exists wires, protect_all cap pkts c = Ok <$> wires /\
    Forall2 (fun p w => sealed c (iv_of c p) p.2 w) pkts wires /\ NoDup (iv_of c <$> pkts).
Proof.
  intros Hc Hsl HS Hin Hseq. destruct (protect_all_run S cap pkts ∅ c HS Hin) as (wires & E & HF); [|done|].
  - split; [by apply (init_start m p mk kl ms sl c 0)| |].
    + unfold rtc_srtp_init_profile in Hc. destruct m; [|done]. cbn [negb] in Hc.
      destruct (_ ≫= _) as [c'| |] eqn:E; [|done|done]. injection Hc as <-.
      repeat (apply bind_Ok in E as (? & _ & E)). injection E as <-. apply tab_ok_init.
    + intros s. by destruct (init_start m p mk kl ms sl c s Hc) as (_ & [_ ?] & _).
  - exists wires. split_and!; [done|done|]. eapply iv_of_distinct; [by eapply init_salt|done].
Qed.

(** Retransmitting an old packet after a wrap skips a rollover.  When the
    sender has just wrapped (its last index [p] is in cycle [p / 2^16 >= 1],
    low in the sequence space), re-sending sequence number 0xFFFF of the
    previous cycle is protected under the new cycle's counter, and the next
    new packet, whose index is [p + 1], is protected with a counter one too
    high. *)
Theorem srtp_retransmit_across_wrap c ssrc p :
  sender_at c ssrc (Some p) -> 2 ^ 16 <= p < 2 ^ 47 -> p mod 2 ^ 16 < 0x7000 ->
  exists c1 c2,
    send_roc ssrc 0xFFFF c = (c1, Ok (p / 2 ^ 16)) /\
    send_roc ssrc ((p + 1) mod 2 ^ 16) c1 = (c2, Ok ((p + 1) / 2 ^ 16 + 1)).
Proof.
  intros [Hne Hat] Hp Hm.
  set (q := p / 2 ^ 16 * 2 ^ 16 + 0xFFFF).
  assert (Hq : q mod 2 ^ 16 = 0xFFFF /\ q / 2 ^ 16 = p / 2 ^ 16) by (subst q; pow_eval; dlia).
  assert (exists c1, send_roc ssrc 0xFFFF c = (c1, Ok (p / 2 ^ 16)) /\ sender_at c1 ssrc (Some q))
    as (c1 & E1 & Hs1).
  { unfold send_roc. rewrite st_bind_eq. simpl.
    destruct (srtp_entry_for_ssrc (rtp_send c) (send_lru_tick c) ssrc) as [[t tick] i] eqn:E.
    apply entry_for_ssrc_spec in E as (Hi & Hlen & Hget & Hfind); [|done]. rewrite Hget.
    destruct Hat as (Hri & Hroc & Hls & _). simpl. rewrite Hri. simpl.
    unfold roc_wrapped. simpl. rewrite Hls.
    rewrite (proj2 (Z.ltb_ge 65535 (p mod 2 ^ 16))) by lia. simpl.
    eexists. split; [unfold mret, st_ret; by rewrite Hroc|]. split; simpl.
    { intros E%(f_equal length). rewrite length_insert in E. simpl in E. lia. }
    unfold stream. rewrite Hfind by apply (stream_matches (rtp_send c)). simpl.
    destruct Hq as [-> ->]. repeat split; auto; subst q; pow_eval; dlia. }
  destruct (send_roc_run c1 ssrc (Some q) (q + 1 + (p + 1) mod 2 ^ 16) Hs1) as (c2 & E2 & _).
  { split; subst q; pow_eval; dlia. }
  exists c1, c2. split; [done|].
  replace ((q + 1 + (p + 1) mod 2 ^ 16) mod 2 ^ 16) with ((p + 1) mod 2 ^ 16) in E2
    by (subst q; pow_eval; dlia).
  rewrite E2. do 2 f_equal. subst q. pow_eval. dlia.
Qed.

(** A late packet from before the wrap cannot be accepted.  For a
    receiver whose highest index is [p], a packet [I] at most 2^15 behind but
    in the previous cycle is checked under the current cycle's counter
    instead of its own. *)
Theorem srtp_late_packet_wrong_roc c ssrc p I :
  receiver_at c ssrc (Some p) -> 0 <= I < p -> p - I < 0x8000 -> I / 2 ^ 16 <> p / 2 ^ 16 ->
  recv_roc (rtp_replay c) ssrc (I mod 2 ^ 16) = I / 2 ^ 16 + 1.
Proof.
  intros (_ & (Hri & Hroc & Hls & Hp) & _) HI Hd Hne. rewrite recv_roc_stream. simpl.
  rewrite Hri. unfold roc_wrapped. rewrite Hls, Hroc. simpl.
  destruct (Z.ltb_spec (I mod 2 ^ 16) (p mod 2 ^ 16)); [exfalso|simpl]; revert Hne; pow_eval; dlia.
Qed.
End SrtpAuth.
