(* ===== verification/SrtpWitness.v ===== *)
(** * A concrete instance of the cipher interface and concrete SRTP runs

    [toy_evp] replaces OpenSSL by small functions that satisfy [EvpLaws]; the
    lemmas run the theorems of the SRTP files on concrete packets. *)

From S2P Require Import Prelude Srtp SrtpReplay SrtpSession SrtpStreams SrtpAuth.
From Stdlib Require Import ZArith Lia.
From stdpp Require Import base list numbers sets gmap.
#[local] Open Scope Z_scope.

Module SrtpWitness.
Import Srtp SrtpReplay SrtpSession SrtpStreams SrtpAuth.

Definition mix (l : bytes) : Z := foldr (fun b acc => (b + 31 * acc + 7) mod 256) 0 l.
Definition toy_ks (k iv : bytes) (i : nat) : Z := (mix (k ++ iv) + Z.of_nat i) mod 256.
Definition toy_xor (k iv d : bytes) : bytes := imap (fun i b => Z.lxor b (toy_ks k iv i)) d.
Definition toy_tag (k iv aad p : bytes) : bytes := replicate 16 (mix (k ++ iv ++ aad ++ p)).

#[export] Instance toy_evp : Evp := {
  evp_hmac_sha1 k m := Ok (replicate 20 (mix (k ++ m)));
  evp_ctx_new := true;
  evp_aes_ecb _ k x := replicate 16 (mix (k ++ x));
  evp_aes_128_ctr k iv d := Ok (toy_xor k iv d);
  evp_gcm_encrypt _ k iv aad p := Ok (toy_xor k iv p, toy_tag k iv aad p);
  evp_gcm_decrypt _ k iv aad c t :=
    let p := toy_xor k iv c in
    if bool_decide (t = toy_tag k iv aad p) then Ok p else Err RTC_ERR_SRTP
}.

Lemma toy_xor_inv k iv d : toy_xor k iv (toy_xor k iv d) = d.
Proof.
  apply list_eq. intros i. unfold toy_xor. rewrite !list_lookup_imap.
  destruct (d !! i) as [b|]; simpl; [|done].
  by rewrite Z.lxor_assoc, Z.lxor_nilpotent, Z.lxor_0_r.
Qed.

#[export] Instance toy_laws : EvpLaws.
Proof.
  split; intros.
  - eexists; split; [done|apply length_replicate].
  - apply length_replicate.
  - exists (toy_ks k iv). done.
  - exists (toy_xor k iv p), (toy_tag k iv aad p). split_and!; [done|apply length_imap|done|].
    simpl. rewrite toy_xor_inv. by rewrite bool_decide_true.
Qed.

(** an RTP packet of SSRC 0x11223344 *)
Definition pkt (idx : Z) (payload : bytes) : bytes :=
  [0x80; 96] ++ be16 (idx mod 2 ^ 16) ++ be32 3000 ++ be32 0x11223344 ++ payload.

Definition mkey : bytes := replicate 16 5.
Definition msalt : bytes := replicate 14 9.
Definition ctx0 (p : rtc_srtp_profile_t) : rtc_srtp_ctx_t :=
  (rtc_srtp_init_profile true p mkey 16 msalt 14).1.

Definition run0 : list (Z * bool * bytes) :=
  [(65534, true, pkt 65534 [1; 2; 3]); (65535, false, pkt 65535 [4]);
   (65536, true, pkt 65536 []); (65537, true, pkt 65537 [250; 251])].

Lemma run0_ok : session_ok 0x11223344 1500 None None run0.
Proof.
  unfold run0, session_ok, rtp_packet, follows.
  repeat match goal with |- _ /\ _ => split end;
    try (apply bytes_okb_ok; reflexivity); try (vm_compute; congruence);
    try (intros _); try lia; reflexivity.
Qed.

Lemma srtp_session_roundtrip_witness :
  session 1500 (ctx0 AES128_CM_SHA1_80) (ctx0 AES128_CM_SHA1_80) run0
  = [Ok (pkt 65534 [1; 2; 3]); Ok (pkt 65536 []); Ok (pkt 65537 [250; 251])].
Proof.
  apply (srtp_session_roundtrip true AES128_CM_SHA1_80 mkey 16 msalt 14 _ 0x11223344 1500 run0).
  - vm_compute. reflexivity.
  - exact run0_ok.
Defined.

(** one packet protected by the sender *)
Definition wire0 (p : rtc_srtp_profile_t) : bytes :=
  match (rtc_srtp_protect (pkt 7 [1; 2; 3]) 1500 (ctx0 p)).2 with Ok w => w | _ => [] end.

Lemma srtp_effect_needs_authentication_witness :
  authentic (ctx0 AES128_CM_SHA1_80) (wire0 AES128_CM_SHA1_80).
Proof.
  apply (srtp_effect_needs_authentication _ _
    (rtc_srtp_unprotect (wire0 AES128_CM_SHA1_80) (ctx0 AES128_CM_SHA1_80)).1
    (rtc_srtp_unprotect (wire0 AES128_CM_SHA1_80) (ctx0 AES128_CM_SHA1_80)).2).
  - apply surjective_pairing.
  - right. vm_compute. reflexivity.
Defined.

(** a packet of SSRC [s], as the sender puts it on the wire *)
Definition pkt_of (s idx : Z) (payload : bytes) : bytes :=
  [0x80; 96] ++ be16 (idx mod 2 ^ 16) ++ be32 3000 ++ be32 s ++ payload.
Definition wire_of (p : rtc_srtp_profile_t) (buf : bytes) : bytes :=
  match (rtc_srtp_protect buf 1500 (ctx0 p)).2 with Ok w => w | _ => [] end.

(** an accepted packet, a later one of its stream, one of another stream, a
    datagram that is no packet; then the first one again *)
Lemma srtp_replayed_packet_rejected_witness :
  exists c4, rtc_srtp_unprotect (wire0 AEAD_AES_128_GCM)
    (receive_all [wire_of AEAD_AES_128_GCM (pkt 9 [4]); wire_of AEAD_AES_128_GCM (pkt_of 5 1 [6]); [1; 2; 3]]
       (rtc_srtp_unprotect (wire0 AEAD_AES_128_GCM) (receive_all [] (ctx0 AEAD_AES_128_GCM))).1)
    = (c4, Err RTC_ERR_SRTP).
Proof.
  assert (forall d x, d ∈ [] ++ wire0 AEAD_AES_128_GCM ::
    [wire_of AEAD_AES_128_GCM (pkt 9 [4]); wire_of AEAD_AES_128_GCM (pkt_of 5 1 [6]); [1; 2; 3]] ->
    rd_u32 d 8 = Ok x -> x ∈ ({[0x11223344; 5]} : gset Z)) as Hin.
  { intros d x. cbn [app]. rewrite !elem_of_cons, elem_of_nil.
    intros [->|[->|[->|[->|[]]]]] E; vm_compute in E; try discriminate E; injection E as <-; set_solver. }
  apply (srtp_replayed_packet_rejected true AEAD_AES_128_GCM mkey 16 msalt 14 (ctx0 AEAD_AES_128_GCM) {[0x11223344; 5]} []
    (wire0 AEAD_AES_128_GCM) [wire_of AEAD_AES_128_GCM (pkt 9 [4]); wire_of AEAD_AES_128_GCM (pkt_of 5 1 [6]); [1; 2; 3]]
    (rtc_srtp_unprotect (wire0 AEAD_AES_128_GCM) (ctx0 AEAD_AES_128_GCM)).1 (pkt 7 [1; 2; 3]) 0x11223344 7).
  - vm_compute. reflexivity.
  - vm_compute. lia.
  - exact Hin.
  - vm_compute. reflexivity.
  - vm_compute. reflexivity.
  - vm_compute. reflexivity.
  - vm_compute. reflexivity.
Defined.

(** two interleaved streams, one of them across a wrap *)
Definition outgoing0 : list outgoing :=
  [(1, 65534, pkt_of 1 65534 [1]); (2, 7, pkt_of 2 7 [2; 3]); (1, 65537, pkt_of 1 65537 []); (2, 9, pkt_of 2 9 [4])].

Lemma srtp_send_ivs_distinct_witness :
  exists wires, protect_all 1500 outgoing0 (ctx0 AES128_CM_SHA1_80) = Ok <$> wires /\
    Forall2 (fun p w => sealed (ctx0 AES128_CM_SHA1_80) (iv_of (ctx0 AES128_CM_SHA1_80) p) p.2 w) outgoing0 wires /\
    NoDup (iv_of (ctx0 AES128_CM_SHA1_80) <$> outgoing0).
Proof.
  apply (srtp_send_ivs_distinct true AES128_CM_SHA1_80 mkey 16 msalt 14 (ctx0 AES128_CM_SHA1_80) {[1; 2]} 1500 outgoing0).
  - vm_compute. reflexivity.
  - lia.
  - vm_compute. lia.
  - intros s idx buf. unfold outgoing0. rewrite !elem_of_cons, elem_of_nil. set_solver.
  - unfold outgoing0. cbn [in_sequence].
    repeat match goal with |- _ /\ _ => split | |- rtp_packet _ _ _ => unfold rtp_packet | |- follows _ _ => vm_compute end;
      try (apply bytes_okb_ok; reflexivity); try lia; try done; vm_compute; congruence.
Defined.

(** contexts whose stream 1 is at index 65541 = (1 << 16) + 5 *)
Definition entry1 : rtc_srtp_replay_entry_t := Entry 1 true 1 1 5 true (Replay 65541 1 0 true).
Definition ctx_wrapped : rtc_srtp_ctx_t :=
  set_rtp_replay (<[0%nat := entry1]> (rtp_replay (ctx0 AES128_CM_SHA1_80))) 1
    (set_send (<[0%nat := entry1]> (rtp_send (ctx0 AES128_CM_SHA1_80))) 1
       (ctx0 AES128_CM_SHA1_80)).

Lemma srtp_retransmit_across_wrap_witness :
  exists c1 c2, send_roc 1 0xFFFF ctx_wrapped = (c1, Ok 1) /\
                send_roc 1 6 c1 = (c2, Ok 2).
Proof.
  apply (srtp_retransmit_across_wrap ctx_wrapped 1 65541).
  - split; [vm_compute; discriminate|]. vm_compute. intuition congruence.
  - lia.
  - vm_compute. reflexivity.
Defined.

Lemma srtp_late_packet_wrong_roc_witness : recv_roc (rtp_replay ctx_wrapped) 1 65535 = 1.
Proof.
  apply (srtp_late_packet_wrong_roc ctx_wrapped 1 65541 65535).
  - split; [vm_compute; discriminate|]. vm_compute. intuition congruence.
  - lia.
  - lia.
  - vm_compute. discriminate.
Defined.

Lemma srtp_kdf_total_witness :
  exists o, srtp_kdf mkey 16 msalt 14 SRTP_LABEL_RTP_AUTH 20 = Ok o /\ blen o = 20.
Proof.
  apply (srtp_kdf_total mkey 16 msalt 14 SRTP_LABEL_RTP_AUTH 20).
  - reflexivity.
  - lia.
  - vm_compute. congruence.
  - vm_compute. congruence.
  - lia.
Defined.

End SrtpWitness.
