(* ===== verification/Srtcp.v ===== *)
(** * SRTCP sessions: round trip and replay rejection *)

From S2P Require Import Prelude Srtp SrtpReplay SrtpSession SrtpAuth SrtpWitness.
From Stdlib Require Import ZArith Lia.
From stdpp Require Import base list numbers sets.
#[local] Open Scope Z_scope.

Module Srtcp.
Import Srtp SrtpReplay SrtpSession SrtpAuth SrtpWitness.

(** ** The E-flag and index word *)

Lemma e_index_facts n :
  0 <= n < 2 ^ 31 ->
  Z.land n 0x7FFFFFFF = n /\
  0 <= Z.lor n 0x80000000 < 2 ^ 32 /\
  (Z.land (Z.lor n 0x80000000) 0x80000000 =? 0) = false /\
  Z.land (Z.lor n 0x80000000) 0x7FFFFFFF = n.
Proof.
  intros Hn.
  assert (E : Z.lor n 0x80000000 = 2 ^ 31 + n).
  { rewrite Z.lor_comm. change 0x80000000 with (Z.shiftl 1 31).
    rewrite lor_shiftl_add by lia. lia. }
  split_and!.
  - solve_arith.
  - lia.
  - lia.
  - change 0x80000000 with (Z.shiftl 1 31) at 2. rewrite land_bit_zero by lia.
    change 0x80000000 with (Z.shiftl 1 31). by rewrite Z.lor_spec, orb_true_r.
  - rewrite E. solve_arith.
Qed.

(** ** Receiver state *)

Definition rtcp_receiver_below (c : rtc_srtp_ctx_t) (ssrc n : Z) : Prop :=
  rtcp_replay c <> [] /\
  let r := replay (stream (rtcp_replay c) ssrc) in
  replay_initialized r = true -> highest_index r < n.

Lemma rtcp_receive_run c ssrc n :
  rtcp_receiver_below c ssrc n ->
  exists c', rtcp_replay_step ssrc n c = (c', Ok ()) /\
    rtcp_receiver_below c' ssrc (n + 1) /\ same_keys c c'.
Proof.
  intros [Hne Hlt]. unfold rtcp_replay_step. rewrite st_bind_eq. simpl.
  destruct (srtp_entry_for_ssrc (rtcp_replay c) (replay_lru_tick c) ssrc) as [[t tick] i] eqn:E.
  apply entry_for_ssrc_spec in E as (Hi & Hlen & Hget & Hfind); [|done].
  rewrite Hget. set (e := stream (rtcp_replay c) ssrc) in *. simpl.
  destruct (replay_check_fresh (replay e)
    (if replay_initialized (replay e) then Some (highest_index (replay e)) else None) n)
    as (r' & -> & Hr1 & Hr2).
  { destruct (replay_initialized (replay e)) eqn:Ei; [|done]. split_and!; auto. }
  rewrite st_bind_eq. simpl. eexists. split; [done|]. split; [|by repeat split].
  split; simpl.
  - intros E%(f_equal length). rewrite length_insert in E. simpl in E. lia.
  - unfold stream. rewrite Hfind by apply (stream_matches (rtcp_replay c)). simpl. lia.
Qed.

(** ** One packet *)

Definition rtcp_packet (buf : bytes) (ssrc : Z) : Prop := 8 <= blen buf /\ rd_u32 buf 4 = Ok ssrc.

Definition rtcp_trailer_len (c : rtc_srtp_ctx_t) : Z := tag_len c + 4.

Lemma sub_split_at {A} (d : list A) k :
  0 <= k <= blen d -> exists a b, d = a ++ b /\ blen a = k.
Proof.
  intros. exists (take (Z.to_nat k) d), (drop (Z.to_nat k) d).
  rewrite take_drop. unfold blen in *. rewrite length_take. split; [done|lia].
Qed.

(** the last part of a buffer *)
Lemma sub_last {A} (pre mid : list A) off n :
  off = blen pre -> n = blen mid -> sub (pre ++ mid) off n = Ok mid.
Proof. intros. rewrite <-(app_nil_r mid) at 1. by apply sub_mid. Qed.

Section Rtcp.
Context `{EvpLaws}.

(** What goes on the wire for [hdr ++ data] at index [n], and that the
    receiver's primitives undo it. *)
Definition rtcp_wire (c : rtc_srtp_ctx_t) (ssrc n : Z) (hdr data ct tag : bytes) : Prop :=
  let trailer := be32 (Z.lor n 0x80000000) in
  blen ct = blen data /\ blen tag = tag_len c /\
  if srtp_is_gcm (profile c) then
    let iv := srtp_gcm_rtcp_iv (rtcp_session_salt c) ssrc n in
    srtp_aes_gcm_enc (srtp_gcm_cipher c) (rtcp_session_key c) iv hdr trailer data = Ok (ct, tag) /\
    srtp_aes_gcm_dec (srtp_gcm_cipher c) (rtcp_session_key c) iv hdr trailer ct tag = Ok data
  else
    srtcp_aes_cm (rtcp_session_key c) (rtcp_session_salt c) ssrc n data = Ok ct /\
    srtcp_aes_cm (rtcp_session_key c) (rtcp_session_salt c) ssrc n ct = Ok data /\
    exists h, srtp_hmac_sha1 (rtcp_session_auth_key c) (hdr ++ ct ++ trailer) [] = Ok h /\
              sub h 0 SRTP_AUTH_TAG_LEN = Ok tag.

Definition rtcp_out (c : rtc_srtp_ctx_t) (n : Z) (hdr ct tag : bytes) : bytes :=
  let trailer := be32 (Z.lor n 0x80000000) in
  if srtp_is_gcm (profile c) then hdr ++ ct ++ tag ++ trailer else (hdr ++ ct ++ trailer) ++ tag.

Lemma rtcp_wire_exists c ssrc n hdr data : exists ct tag, rtcp_wire c ssrc n hdr data ct tag.
Proof.
  unfold rtcp_wire, tag_len. set (trailer := be32 _). destruct (srtp_is_gcm (profile c)).
  - destruct (gcm_ok (srtp_gcm_cipher c) (gcm_key (srtp_gcm_cipher c) (rtcp_session_key c))
      (srtp_gcm_rtcp_iv (rtcp_session_salt c) ssrc n) (hdr ++ trailer) data)
      as (ct & tag & ? & Hl & Ht & ?).
    exists ct, tag. unfold blen, SRTP_GCM_TAG_LEN. rewrite Hl, Ht. auto.
  - destruct (ctr_inv (take 16 (rtcp_session_key c)) (srtcp_cm_iv (rtcp_session_salt c) ssrc n) data)
      as (ct & ? & Hl & ?).
    destruct (hmac_ok (rtcp_session_auth_key c) ((hdr ++ ct ++ trailer) ++ [])) as (h & ? & Hh).
    exists ct, (take 10 h). unfold blen. rewrite Hl, length_take, Hh.
    split_and!; auto. exists h. split; [done|]. apply sub_Ok; unfold blen, SRTP_AUTH_TAG_LEN; lia.
Qed.

Lemma rtcp_wire_same_keys c c' ssrc n hdr data ct tag :
  same_keys c c' -> rtcp_wire c ssrc n hdr data ct tag ->
  rtcp_wire c' ssrc n hdr data ct tag /\ rtcp_out c n hdr ct tag = rtcp_out c' n hdr ct tag.
Proof.
  intros (E1 & E2 & _ & _ & _ & E6 & E7 & E8 & _). unfold rtcp_wire, rtcp_out, tag_len, srtp_gcm_cipher.
  by rewrite E1, E2, E6, E7, E8.
Qed.

Lemma ctr_nil k iv ct : evp_aes_128_ctr k iv [] = Ok ct -> ct = [].
Proof. destruct (ctr_inv k iv []) as (ct' & -> & Hl & _). intros [= <-]. by apply nil_length_inv. Qed.

Lemma protect_rtcp_run c ssrc n hdr data cap :
  initialized c = true -> srtcp_index c = n -> 0 <= n < 2 ^ 31 ->
  rtcp_packet (hdr ++ data) ssrc -> blen hdr = 8 -> blen (hdr ++ data) + rtcp_trailer_len c <= cap ->
  exists ct tag,
    rtc_srtp_protect_rtcp (hdr ++ data) cap c =
      (set_srtcp_index (n + 1) c, Ok (rtcp_out c n hdr ct tag)) /\
    rtcp_wire c ssrc n hdr data ct tag.
Proof.
  intros Hi Hn Hr [Hl Hssrc] Hh Hcap. destruct (rtcp_wire_exists c ssrc n hdr data) as (ct & tag & Hw).
  exists ct, tag. split; [|done].
  destruct (e_index_facts n Hr) as (El & _ & _ & _).
  assert (Hs1 : sub (hdr ++ data) 0 8 = Ok hdr) by by apply (sub_mid [] hdr).
  assert (Hs2 : sub (hdr ++ data) 8 (blen (hdr ++ data) - 8) = Ok data)
    by (apply sub_last; rewrite ?blen_app; lia).
  assert (Hu : u32 (n + 1) = n + 1) by (unfold u32; apply Z.mod_small; lia).
  unfold rtc_srtp_protect_rtcp, rtcp_out, rtcp_trailer_len, tag_len in *.
  rewrite st_bind_eq. simpl. do 2 run_guard. destruct Hw as (Hct & _ & Hw).
  destruct (srtp_is_gcm (profile c)) eqn:Eg.
  - unfold srtp_protect_rtcp_gcm. run_guard. run Hssrc. rewrite st_bind_eq. simpl.
    rewrite Hn, El. run Hs1. run Hs2. destruct Hw as [Hw _]. run Hw. rewrite st_bind_eq. simpl.
    by rewrite Hu.
  - run_guard. run Hssrc. rewrite Hn, El. run Hs1. run Hs2. destruct Hw as (Hw & _ & h & Hm & Ht).
    assert ((if 8 <? blen (hdr ++ data) then lift (srtcp_aes_cm (rtcp_session_key c)
      (rtcp_session_salt c) ssrc n data) else mret data) c = (c, Ok ct)) as Hct'.
    { destruct (Z.ltb_spec 8 (blen (hdr ++ data))); [unfold lift; by rewrite Hw|].
      assert (data = []) as -> by (apply nil_length_inv; rewrite blen_app in *; unfold blen in *; lia).
      by apply ctr_nil in Hw as ->. }
    rewrite st_bind_eq, Hct'. run Hm. run Ht. rewrite st_bind_eq. simpl. by rewrite Hu.
Qed.

(** Where [srtp_unprotect_rtcp_gcm] finds the parts of a GCM packet. *)
Lemma gcm_layout hdr data ct tag (e : Z) :
  blen hdr = 8 -> blen ct = blen data -> blen tag = SRTP_GCM_TAG_LEN -> 0 <= e < 2 ^ 32 ->
  let buf := hdr ++ ct ++ tag ++ be32 e in
  let idx_off := blen buf - 4 in
  let tag_off := idx_off - SRTP_GCM_TAG_LEN in
  8 + SRTP_GCM_TAG_LEN + 4 <= blen buf /\
  rd_u32 buf idx_off = Ok e /\ sub buf idx_off 4 = Ok (be32 e) /\
  sub buf tag_off SRTP_GCM_TAG_LEN = Ok tag /\ rd_u32 buf 4 = rd_u32 (hdr ++ data) 4 /\
  sub buf 0 8 = Ok hdr /\ sub buf 8 (tag_off - 8) = Ok ct.
Proof.
  intros Hh Hct Htag He buf. pose proof (blen_nonneg data). unfold SRTP_GCM_TAG_LEN in *.
  assert (Hlen : blen buf = 8 + blen data + 16 + 4)
    by (subst buf; rewrite !blen_app; change (blen (be32 e)) with 4; lia).
  cbv zeta. rewrite Hlen. subst buf. split_and!.
  - lia.
  - rewrite !app_assoc, <-(app_nil_r (be32 e)). apply rd_u32_at; [|done]. rewrite !blen_app. lia.
  - rewrite !app_assoc. apply sub_last; [|done]. rewrite !blen_app. lia.
  - rewrite (app_assoc hdr). apply sub_mid; [|done]. rewrite !blen_app. lia.
  - apply rd_u32_prefix; lia.
  - by apply (sub_mid [] hdr).
  - apply sub_mid; lia.
Qed.

(** Where [rtc_srtp_unprotect_rtcp] finds the parts of an AES-CM packet. *)
Lemma cm_layout hdr data ct tag (e : Z) :
  blen hdr = 8 -> blen ct = blen data -> blen tag = SRTP_AUTH_TAG_LEN -> 0 <= e < 2 ^ 32 ->
  let buf := (hdr ++ ct ++ be32 e) ++ tag in
  let auth_start := blen buf - SRTP_AUTH_TAG_LEN in
  8 + 4 + SRTP_AUTH_TAG_LEN <= blen buf /\
  sub buf auth_start SRTP_AUTH_TAG_LEN = Ok tag /\ rd_u32 buf (auth_start - 4) = Ok e /\
  sub buf 0 auth_start = Ok (hdr ++ ct ++ be32 e) /\ rd_u32 buf 4 = rd_u32 (hdr ++ data) 4 /\
  sub buf 0 8 = Ok hdr /\ sub buf 8 (auth_start - 4 - 8) = Ok ct /\
  auth_start - 4 = 8 + blen data.
Proof.
  intros Hh Hct Htag He buf. pose proof (blen_nonneg data). unfold SRTP_AUTH_TAG_LEN in *.
  assert (Hlen : blen buf = 8 + blen data + 4 + 10)
    by (subst buf; rewrite !blen_app; change (blen (be32 e)) with 4; lia).
  assert (H4 : blen (be32 e) = 4) by done.
  cbv zeta. rewrite Hlen. subst buf. split_and!.
  - lia.
  - apply sub_last; rewrite ?blen_app; lia.
  - rewrite (app_assoc hdr), <-app_assoc. apply rd_u32_at; [|done]. rewrite !blen_app. lia.
  - apply (sub_mid []); [done|]. rewrite !blen_app. lia.
  - rewrite <-!app_assoc. apply rd_u32_prefix; lia.
  - rewrite <-!app_assoc. by apply (sub_mid [] hdr).
  - rewrite <-!app_assoc. apply sub_mid; lia.
  - lia.
Qed.

Lemma unprotect_rtcp_run c ssrc n hdr data ct tag :
  initialized c = true -> 0 <= n < 2 ^ 31 -> rtcp_receiver_below c ssrc n ->
  rtcp_packet (hdr ++ data) ssrc -> blen hdr = 8 -> rtcp_wire c ssrc n hdr data ct tag ->
  exists c', rtc_srtp_unprotect_rtcp (rtcp_out c n hdr ct tag) c = (c', Ok (hdr ++ data)) /\
    rtcp_receiver_below c' ssrc (n + 1) /\ same_keys c c'.
Proof.
  intros Hi Hr Hbelow [_ Hssrc] Hh (Hct & Htag & Hw).
  destruct (rtcp_receive_run c ssrc n Hbelow) as (c' & R & Hb' & Hk).
  exists c'. split_and!; [|done|done].
  destruct (e_index_facts n Hr) as (_ & He1 & He2 & He3).
  unfold rtc_srtp_unprotect_rtcp, rtcp_out, tag_len in *. cbv zeta.
  rewrite st_bind_eq. simpl. run_guard. destruct (srtp_is_gcm (profile c)) eqn:Eg.
  - destruct (gcm_layout hdr data ct tag _ Hh Hct Htag He1) as (L0 & L1 & L2 & L3 & L4 & L5 & L6).
    unfold srtp_unprotect_rtcp_gcm. cbv zeta. rewrite Hssrc in L4. run_guard.
    run L1. run L2. run L3. run L4. rewrite st_bind_eq. simpl. run L5. run L6.
    rewrite He2, He3. simpl. destruct Hw as [_ Hw]. run Hw. by rewrite st_bind_eq, R.
  - destruct (cm_layout hdr data ct tag _ Hh Hct Htag He1) as (L0 & L1 & L2 & L3 & L4 & L5 & L6 & L7).
    rewrite Hssrc in L4. destruct Hw as (_ & Hw & h & Hm & Ht). run_guard.
    run L1. run L2. run L3. run Hm. run Ht. run_guard. run L4. rewrite He2, He3, st_bind_eq, R.
    run L5. run L6. cbn [negb andb]. rewrite st_bind_eq, L7.
    assert ((if 8 <? 8 + blen data then
      lift (srtcp_aes_cm (rtcp_session_key c) (rtcp_session_salt c) ssrc n ct) else mret ct) c'
      = (c', Ok data)) as ->; [|done].
    destruct (Z.ltb_spec 8 (8 + blen data)); [unfold lift; by rewrite Hw|].
    assert (data = [] /\ ct = []) as [-> ->] by (split; apply nil_length_inv; unfold blen in *; lia).
    done.
Qed.

(** ** A session over a lossy in-order channel *)

Fixpoint rtcp_session (cap : Z) (cs cr : rtc_srtp_ctx_t) (pkts : list (bool * bytes)) :
    list (res bytes) :=
  match pkts with
  | [] => []
  | (delivered, buf) :: rest =>
      let '(cs', out) := rtc_srtp_protect_rtcp buf cap cs in
      match out with
      | Ok wire =>
          if delivered : bool then
            let '(cr', r) := rtc_srtp_unprotect_rtcp wire cr in r :: rtcp_session cap cs' cr' rest
          else rtcp_session cap cs' cr rest
      | Err e => [Err e]
      | Fault => [Fault]
      end
  end.

Definition rtcp_delivered (pkts : list (bool * bytes)) : list bytes :=
  omap (fun '(d, buf) => if d : bool then Some buf else None) pkts.

Lemma rtcp_session_run ssrc cap pkts : forall cs cr n,
  initialized cs = true -> same_keys cs cr -> srtcp_index cs = n -> 0 <= n ->
  n + blen pkts <= 2 ^ 31 -> rtcp_receiver_below cr ssrc n ->
  Forall (fun p => rtcp_packet p.2 ssrc /\ blen p.2 + 20 <= cap) pkts ->
  rtcp_session cap cs cr pkts = Ok <$> rtcp_delivered pkts.
Proof.
  induction pkts as [|[d buf] rest IH]; intros cs cr n Hi Hk Hn Hn0 Hlen Hb HF; simpl; [done|].
  apply Forall_cons in HF as [[Hp Hcap] HF]. simpl in *. rewrite blen_cons in Hlen.
  pose proof (blen_nonneg rest).
  destruct (sub_split_at buf 8) as (hdr & data & -> & Hh); [destruct Hp; lia|].
  destruct (protect_rtcp_run cs ssrc n hdr data cap) as (ct & tag & -> & Hw); auto; [lia| |].
  { unfold rtcp_trailer_len, tag_len, SRTP_AUTH_TAG_LEN, SRTP_GCM_TAG_LEN.
    destruct (srtp_is_gcm _); lia. }
  assert (Hk' : same_keys (set_srtcp_index (n + 1) cs) cr)
    by (rewrite <-Hk; symmetry; apply same_keys_set_srtcp_index).
  destruct d.
  - destruct (rtcp_wire_same_keys _ _ _ _ _ _ _ _ Hk Hw) as [Hw' ->].
    destruct (unprotect_rtcp_run cr ssrc n hdr data ct tag) as (cr' & -> & Hb' & Hk''); auto; [|lia|].
    { destruct Hk; intuition congruence. }
    simpl. f_equal. apply (IH _ cr' (n + 1)); auto; [|lia|lia]. by rewrite Hk'.
  - apply (IH _ cr (n + 1)); auto; [lia|lia|]. destruct Hb as [? Hlt].
    split; [done|]. simpl in *. intros E%Hlt. lia.
Qed.

(** C22: End-to-end correctness of SRTCP.  Two contexts initialised from the
    same master key and salt (any profile); the sender protects up to 2^31
    RTCP packets of one SSRC; whichever of them the channel delivers in
    order, every call succeeds and the receiver gets back exactly the
    delivered packets. *)
Theorem srtcp_session_roundtrip m p mk kl ms sl c ssrc cap pkts :
  rtc_srtp_init_profile m p mk kl ms sl = (c, Ok ()) ->
  Forall (fun p => rtcp_packet p.2 ssrc /\ blen p.2 + 20 <= cap) pkts ->
  blen pkts <= 2 ^ 31 ->
  rtcp_session cap c c pkts = Ok <$> rtcp_delivered pkts.
Proof.
  intros Hc HF Hl. destruct (init_start m p mk kl ms sl c ssrc Hc) as (Hi & _ & _ & Hx & Ht).
  apply (rtcp_session_run ssrc cap pkts c c 0); auto; [done|lia|].
  unfold rtcp_receiver_below. by rewrite Ht.
Qed.
End Rtcp.

(** a receiver report of SSRC 0x01020304, without and with a report block *)
Definition rr0 : bytes := [0x80; 201; 0; 1] ++ be32 0x01020304.
Definition rr1 : bytes := [0x81; 201; 0; 2] ++ be32 0x01020304 ++ [9; 8; 7; 6].

Lemma srtcp_session_roundtrip_witness :
  rtcp_session 1500 (ctx0 AEAD_AES_128_GCM) (ctx0 AEAD_AES_128_GCM)
    [(true, rr0); (false, rr1); (true, rr1)] = [Ok rr0; Ok rr1].
Proof.
  apply (srtcp_session_roundtrip true AEAD_AES_128_GCM mkey 16 msalt 14 _ 0x01020304 1500).
  - vm_compute. reflexivity.
  - repeat constructor; vm_compute; congruence.
  - vm_compute. congruence.
Defined.

End Srtcp.
