(* ===== verification/RtpExt.v ===== *)
(** * RTP header extensions, one-byte form (rtc/src/rtc_rtp_ext.c)

    Writing and parsing extension blocks, lookup, and the typed extensions
    (abs-send-time, transport-cc, SDES strings). *)

From S2P Require Import Prelude.
From Stdlib Require Import ZArith Lia.
From stdpp Require Import base list numbers.
#[local] Open Scope Z_scope.

Module RtpExt.

Definition RTC_RTP_EXT_PROFILE_ONE_BYTE : Z := 0xBEDE.
Definition RTC_RTP_EXT_MAX_ENTRIES : Z := 8.
Definition RTC_RTP_EXT_MAX_DATA : Z := 16.

(** [data] holds the array's bytes; only the first [len] are meaningful. *)
Record rtc_rtp_ext_t := Ext { id : Z; len : Z; data : bytes }.
#[export] Instance ext_eq_dec : EqDecision rtc_rtp_ext_t.
Proof. solve_decision. Defined.

(** The loop over the entries; [body] is what has been written after the
    4-byte block header. *)
Fixpoint write_entries (cap : Z) (exts : list rtc_rtp_ext_t) (body : bytes) : res bytes :=
  match exts with
  | [] => Ok body
  | e :: rest =>
      _ ← fail_if ((id e <? 1) || (14 <? id e)) RTC_ERR_INVALID;
      _ ← fail_if ((len e <? 1) || (RTC_RTP_EXT_MAX_DATA <? len e)) RTC_ERR_INVALID;
      _ ← fail_if (cap <? 4 + blen body + 1 + len e) RTC_ERR_INVALID;
      d ← sub (data e) 0 (len e);
      write_entries cap rest
        (body ++ [u8 (Z.lor (Z.shiftl (id e) 4) (u8 (len e - 1)))] ++ d)
  end.

(** The bytes written to [out]; the C function returns their number. *)
Definition rtc_rtp_ext_write_block (cap : Z) (exts : list rtc_rtp_ext_t) : res bytes :=
  _ ← fail_if (cap <? 4) RTC_ERR_INVALID;
  body ← write_entries cap exts [];
  let pad := Z.land (4 - Z.land (blen body) 3) 3 in
  _ ← fail_if (cap <? 4 + blen body + pad) RTC_ERR_INVALID;
  let total_body := blen body + pad in
  let length_words := u16 (total_body / 4) in
  Ok ([Z.land (Z.shiftr RTC_RTP_EXT_PROFILE_ONE_BYTE 8) 255;
       Z.land RTC_RTP_EXT_PROFILE_ONE_BYTE 255] ++ be16 length_words
      ++ body ++ replicate (Z.to_nat pad) 0).

(** [out] in order of filling; [fuel] bounds the iterations. *)
Fixpoint parse_loop (fuel : nat) (ext_data : bytes) (ext_len cap i : Z)
    (out : list rtc_rtp_ext_t) : res (list rtc_rtp_ext_t) :=
  if i <? ext_len then
    match fuel with
    | O => Fault
    | S fuel =>
        b ← rd ext_data i;
        let i := i + 1 in
        if b =? 0 then parse_loop fuel ext_data ext_len cap i out else
        let id := Z.land (Z.shiftr b 4) 0x0F in
        let len := Z.land b 0x0F + 1 in
        if id =? 15 then Ok out else
        _ ← fail_if (ext_len <? i + len) RTC_ERR_INVALID;
        d ← sub ext_data i len;
        let out :=
          if (blen out <? cap) && (1 <=? id) && (id <=? 14) && (len <=? RTC_RTP_EXT_MAX_DATA)
          then out ++ [Ext id len d] else out in
        parse_loop fuel ext_data ext_len cap (i + len) out
    end
  else Ok out.

Definition rtc_rtp_ext_parse_body (ext_data : bytes) (ext_len cap : Z) : res (list rtc_rtp_ext_t) :=
  parse_loop (Z.to_nat ext_len) ext_data ext_len cap 0 [].

Fixpoint rtc_rtp_ext_find (exts : list rtc_rtp_ext_t) (i : Z) : option rtc_rtp_ext_t :=
  match exts with
  | [] => None
  | e :: rest => if id e =? i then Some e else rtc_rtp_ext_find rest i
  end.

Definition rtc_rtp_ext_make_abs_send_time (i now_us : Z) : rtc_rtp_ext_t :=
  let ticks := u64 (now_us * 262144) / 1000000 in
  let v := u32 (Z.land ticks 0x00FFFFFF) in
  Ext i 3 [Z.land (Z.shiftr v 16) 255; Z.land (Z.shiftr v 8) 255; Z.land v 255].

Definition rtc_rtp_ext_make_transport_cc (i seq : Z) : rtc_rtp_ext_t := Ext i 2 (be16 seq).

Definition rtc_rtp_ext_read_transport_cc (ext : option rtc_rtp_ext_t) : res Z :=
  match ext with
  | None => Ok 0
  | Some e => if len e <? 2 then Ok 0 else rd_u16 (data e) 0
  end.

(** [s]: the bytes before the NUL, [None] for a null pointer. *)
Definition rtc_rtp_ext_make_string (i : Z) (s : option bytes) : res rtc_rtp_ext_t :=
  let n := match s with Some s => blen s | None => 0 end in
  let n := if RTC_RTP_EXT_MAX_DATA <? n then RTC_RTP_EXT_MAX_DATA else n in
  let n := if n =? 0 then 1 else n in
  d ← match s with
      | Some s => sub (s ++ [0]) 0 n
      | None => Ok []
      end;
  Ok (Ext i (u8 n) (d ++ replicate (Z.to_nat (16 - blen d)) 0)).

(** The string copied to [buf], without its NUL; its length is the result. *)
Definition rtc_rtp_ext_read_string (ext : option rtc_rtp_ext_t) (cap : Z) : res bytes :=
  match ext with
  | None => Ok []
  | Some e =>
      if cap =? 0 then Ok [] else
      let n := len e in
      let n := if RTC_RTP_EXT_MAX_DATA <? n then RTC_RTP_EXT_MAX_DATA else n in
      let n := if cap - 1 <? n then cap - 1 else n in
      sub (data e) 0 n
  end.

Definition rtc_rtp_ext_get_string (ext_data : option bytes) (ext_len i cap : Z) : res bytes :=
  match ext_data with
  | None => Ok []
  | Some d =>
      if (ext_len =? 0) || (i =? 0) then Ok [] else
      match rtc_rtp_ext_parse_body d ext_len RTC_RTP_EXT_MAX_ENTRIES with
      | Ok exts =>
          match rtc_rtp_ext_find exts i with
          | None => Ok []
          | Some e => rtc_rtp_ext_read_string (Some e) cap
          end
      | Err _ => Ok []
      | Fault => Fault
      end
  end.

(** ** Valid entries and their wire form *)

Definition ext_ok (e : rtc_rtp_ext_t) : Prop :=
  1 <= id e <= 14 /\ 1 <= len e <= 16 /\ len e <= blen (data e).

(** the meaningful part of an entry *)
Definition norm (e : rtc_rtp_ext_t) : rtc_rtp_ext_t :=
  Ext (id e) (len e) (take (Z.to_nat (len e)) (data e)).

Definition entry_bytes (e : rtc_rtp_ext_t) : bytes :=
  (id e * 16 + (len e - 1)) :: data (norm e).
Definition body_bytes (exts : list rtc_rtp_ext_t) : bytes := mjoin (entry_bytes <$> exts).

Lemma body_bytes_cons e exts : body_bytes (e :: exts) = entry_bytes e ++ body_bytes exts.
Proof. done. Qed.

Lemma head_byte e : ext_ok e -> u8 (Z.lor (Z.shiftl (id e) 4) (u8 (len e - 1))) = id e * 16 + (len e - 1).
Proof.
  intros (? & ? & _). unfold u8. rewrite (Z.mod_small (len e - 1)) by lia.
  rewrite lor_shiftl_add by lia. pow_eval. dlia.
Qed.

Lemma head_byte_inv i l :
  1 <= i <= 14 -> 1 <= l <= 16 ->
  Z.land (Z.shiftr (i * 16 + (l - 1)) 4) 15 = i /\ Z.land (i * 16 + (l - 1)) 15 = l - 1.
Proof. intros. bits_to_arith. pow_eval. dlia. Qed.

Lemma entry_bytes_len e : ext_ok e -> blen (entry_bytes e) = 1 + len e.
Proof.
  intros (_ & ? & ?). unfold entry_bytes, norm. rewrite blen_cons. simpl.
  unfold blen in *. rewrite length_take. lia.
Qed.

Lemma entry_sub e : ext_ok e -> sub (data e) 0 (len e) = Ok (data (norm e)).
Proof. intros (_ & ? & ?). rewrite sub_Ok by lia. done. Qed.

Lemma write_entries_ok cap exts : forall acc,
  Forall ext_ok exts -> 4 + blen acc + blen (body_bytes exts) <= cap ->
  write_entries cap exts acc = Ok (acc ++ body_bytes exts).
Proof.
  induction exts as [|e exts IH]; intros acc HF Hcap; simpl; [by rewrite app_nil_r|].
  apply Forall_cons_1 in HF as [He HF]. pose proof (blen_nonneg (body_bytes exts)).
  rewrite body_bytes_cons in *. rewrite blen_app, entry_bytes_len in Hcap by done.
  pose proof He as (? & ? & ?).
  unfold RTC_RTP_EXT_MAX_DATA. do 3 pass_guard.
  rewrite (bind_Ok_l _ _ _ (entry_sub e He)), head_byte by done.
  rewrite IH; [by rewrite <-!app_assoc|done|].
  pose proof (entry_bytes_len e He) as Hl. unfold entry_bytes in Hl.
  lens. lia.
Qed.

Lemma rd_at {A} (pre : list A) x post i : i = blen pre -> rd (pre ++ x :: post) i = Ok x.
Proof. intros ->. by rewrite rd_app_r, Z.sub_diag by lia. Qed.

Lemma parse_padding k : forall fuel pre cap out,
  (k <= fuel)%nat ->
  parse_loop fuel (pre ++ replicate k 0) (blen pre + Z.of_nat k) cap (blen pre) out = Ok out.
Proof.
  induction k as [|k IH]; intros fuel pre cap out Hf.
  - destruct fuel; simpl; by rewrite (proj2 (Z.ltb_ge _ _)) by lia.
  - destruct fuel as [|fuel]; [lia|]. cbn [parse_loop].
    rewrite (proj2 (Z.ltb_lt _ _)) by lia. cbn [replicate].
    rewrite (bind_Ok_l _ _ 0) by by apply rd_at. simpl.
    specialize (IH fuel (pre ++ [0]) cap out). rewrite blen_app, <-app_assoc in IH. simpl in IH.
    change (blen [0]) with 1 in IH. replace (blen pre + Z.of_nat (S k)) with (blen pre + 1 + Z.of_nat k) by lia.
    apply IH. lia.
Qed.

Lemma parse_entries exts k cap : forall fuel pre out,
  Forall ext_ok exts -> blen out + blen exts <= cap ->
  (length (body_bytes exts) + k <= fuel)%nat ->
  parse_loop fuel (pre ++ body_bytes exts ++ replicate k 0)
    (blen pre + blen (body_bytes exts) + Z.of_nat k) cap (blen pre) out
  = Ok (out ++ (norm <$> exts)).
Proof.
  induction exts as [|e exts IH]; intros fuel pre out HF Hcap Hf.
  { change (body_bytes []) with (@nil Z) in *. cbn [app fmap list_fmap length] in *.
    rewrite (app_nil_r out), (blen_nil (A:=Z)), Z.add_0_r. by apply parse_padding. }
  apply Forall_cons_1 in HF as [He HF]. pose proof He as (Hid & Hlen & Hdat).
  pose proof (blen_nonneg (body_bytes exts)) as Hn. rewrite body_bytes_cons in *.
  rewrite length_app in Hf. pose proof (entry_bytes_len e He) as Hl.
  rewrite blen_cons in Hcap. pose proof (blen_nonneg exts).
  destruct fuel as [|fuel]; [unfold blen in *; lia|]. cbn [parse_loop].
  rewrite (proj2 (Z.ltb_lt _ _)) by (rewrite blen_app; lia).
  rewrite (bind_Ok_l _ _ (id e * 16 + (len e - 1))) by by apply rd_at.
  destruct (head_byte_inv (id e) (len e)) as [E1 E2]; [lia|lia|]. rewrite E1, E2.
  rewrite (proj2 (Z.eqb_neq _ 0)), (proj2 (Z.eqb_neq _ 15)) by lia.
  replace (len e - 1 + 1) with (len e) by lia.
  rewrite (bind_Ok_l _ _ ()) by (apply fail_if_Ok, Z.ltb_ge; rewrite blen_app; lia).
  assert (Hd : blen (data (norm e)) = len e) by (unfold entry_bytes in Hl; rewrite blen_cons in Hl; lia).
  rewrite (bind_Ok_l _ _ (data (norm e))).
  2:{ change (entry_bytes e) with ([id e * 16 + (len e - 1)] ++ data (norm e)).
      rewrite <-!app_assoc, (app_assoc pre). apply sub_mid; [by rewrite blen_app|done]. }
  rewrite !(proj2 (Z.ltb_lt _ _)), !(proj2 (Z.leb_le _ _)) by (unfold RTC_RTP_EXT_MAX_DATA; lia).
  cbn [andb]. change (Ext (id e) (len e) (data (norm e))) with (norm e).
  specialize (IH fuel (pre ++ entry_bytes e) (out ++ [norm e]) HF).
  rewrite <-!app_assoc in IH. rewrite !blen_app, Hl in IH.
  replace (blen pre + blen (entry_bytes e ++ body_bytes exts) + Z.of_nat k)
    with (blen pre + (1 + len e) + blen (body_bytes exts) + Z.of_nat k)
    by (rewrite blen_app; lia).
  rewrite <-!app_assoc. replace (blen pre + 1 + len e) with (blen pre + (1 + len e)) by lia.
  rewrite IH; [done|change (blen [norm e]) with 1; lia|]. unfold blen in *. lia.
Qed.

Lemma parse_loop_safe d ext_len cap : forall fuel i out,
  ext_len <= blen d -> 0 <= i -> (Z.to_nat (ext_len - i) <= fuel)%nat ->
  no_fault (parse_loop fuel d ext_len cap i out).
Proof.
  induction fuel as [|fuel IH]; intros i out Hd Hi Hf; simpl;
    (destruct (Z.ltb_spec i ext_len); [|apply no_fault_Ok]); [lia|].
  apply no_fault_bind; [apply no_fault_rd; lia|intros b Hb].
  destruct (b =? 0); [apply IH; lia|].
  destruct (_ =? 15); [apply no_fault_Ok|].
  assert (0 <= Z.land b 15) by (apply Z.land_nonneg; lia).
  apply no_fault_bind; [apply no_fault_fail_if|intros [] Hg%fail_if_Ok%Z.ltb_ge].
  apply no_fault_bind; [apply no_fault_sub; lia|intros dat _]. apply IH; lia.
Qed.

(** every parsed entry is a valid one *)
Lemma parse_loop_valid d ext_len cap : forall fuel i out r,
  Forall ext_ok out -> blen out <= Z.max 0 cap ->
  parse_loop fuel d ext_len cap i out = Ok r ->
  Forall (fun e => ext_ok e /\ norm e = e) out ->
  Forall (fun e => ext_ok e /\ norm e = e) r /\ blen r <= Z.max 0 cap.
Proof.
  induction fuel as [|fuel IH]; intros i out r Hok Hcap; simpl;
    (destruct (i <? ext_len); [|intros [= ->]; auto]); [done|].
  intros (b & Hb & Hr)%bind_Ok Hn. destruct (b =? 0); [by eapply IH|].
  destruct (_ =? 15); [by injection Hr as ->|].
  apply bind_Ok in Hr as ([] & _ & (dat & Hdat & Hr)%bind_Ok).
  destruct (_ && _) eqn:E; [|by eapply IH]. unfold RTC_RTP_EXT_MAX_DATA in E.
  rewrite !andb_true_iff, !Z.leb_le, Z.ltb_lt in E. destruct E as [[[E1 E2] E3] E4].
  assert (0 <= Z.land b 15) by (apply Z.land_nonneg; lia).
  pose proof (sub_length _ _ _ _ Hdat) as Hl.
  assert (Hx : ext_ok (Ext (Z.land (Z.shiftr b 4) 15) (Z.land b 15 + 1) dat))
    by (repeat split; simpl; lia).
  eapply IH; [| |exact Hr|].
  - apply Forall_app; auto.
  - lens. lia.
  - apply Forall_app. split; [done|]. constructor; [|constructor]. split; [done|].
    unfold norm. simpl. f_equal. apply take_ge. unfold blen in Hl. lia.
Qed.

Lemma write_block_ok cap exts cap_out :
  Forall ext_ok exts -> blen exts <= cap_out -> cap < 2 ^ 16 ->
  4 + (blen (body_bytes exts) + 3) / 4 * 4 <= cap ->
  exists block body, rtc_rtp_ext_write_block cap exts = Ok block /\
    block = [0xBE; 0xDE] ++ be16 (blen body / 4) ++ body /\
    blen block <= cap /\ blen body mod 4 = 0 /\
    rtc_rtp_ext_parse_body body (blen body) cap_out = Ok (norm <$> exts).
Proof.
  intros HF Hn Hcap Hfit. pose proof (blen_nonneg (body_bytes exts)) as Hb.
  set (n := blen (body_bytes exts)) in *.
  set (pad := Z.land (4 - Z.land n 3) 3).
  assert (Hpad : 0 <= pad < 4 /\ n + pad = (n + 3) / 4 * 4)
    by (subst pad; bits_to_arith; pow_eval; dlia).
  set (body := body_bytes exts ++ replicate (Z.to_nat pad) 0).
  assert (Hbody : blen body = n + pad) by (subst body n; lens; lia).
  exists ([0xBE; 0xDE] ++ be16 (blen body / 4) ++ body), body.
  split_and!; [|done|lens; lia|rewrite Hbody; dlia|].
  - unfold rtc_rtp_ext_write_block. pass_guard.
    assert (Hw : write_entries cap exts [] = Ok (body_bytes exts))
      by (apply (write_entries_ok cap exts []); [done|fold n; lens; dlia]).
    step Hw. fold n pad. pass_guard. rewrite Hbody. unfold u16.
    rewrite (Z.mod_small ((n + pad) / 4)) by (pow_eval; dlia). done.
  - unfold rtc_rtp_ext_parse_body. subst body. rewrite Hbody.
    pose proof (parse_entries exts (Z.to_nat pad) cap_out (Z.to_nat (n + pad)) [] []) as P.
    change (blen (@nil Z)) with 0 in P. rewrite blen_nil, !app_nil_l in P. fold n in P.
    replace (0 + n + Z.of_nat (Z.to_nat pad)) with (n + pad) in P by lia.
    apply P; auto. subst n. unfold blen. lia.
Qed.

(** ** Properties *)

(** Extension blocks round-trip.  Writing any list of at most [cap_out]
    valid entries that fits the buffer succeeds; the block is a multiple of
    four bytes, fits the capacity, and parsing its body gives the entries
    back in order. *)
Theorem ext_block_roundtrip cap exts cap_out :
  Forall ext_ok exts -> blen exts <= cap_out -> cap < 2 ^ 16 ->
  4 + (blen (body_bytes exts) + 3) / 4 * 4 <= cap ->
  exists block body, rtc_rtp_ext_write_block cap exts = Ok block /\
    block = [0xBE; 0xDE] ++ be16 (blen body / 4) ++ body /\
    blen block <= cap /\ blen body mod 4 = 0 /\
    rtc_rtp_ext_parse_body body (blen body) cap_out = Ok (norm <$> exts).
Proof. apply write_block_ok. Qed.

(** The extension parser is memory safe and total on every input: for
    any bytes and any [ext_len] not beyond the buffer it ends with a result
    or [RTC_ERR_INVALID], never reading out of bounds, and every entry it
    returns has an id in 1..14 and 1..16 data bytes, at most [cap] of them. *)
Theorem ext_parse_safe d ext_len cap :
  ext_len <= blen d ->
  match rtc_rtp_ext_parse_body d ext_len cap with
  | Ok exts => Forall (fun e => ext_ok e /\ norm e = e) exts /\ blen exts <= Z.max 0 cap
  | Err e => True
  | Fault => False
  end.
Proof.
  intros Hd. pose proof (parse_loop_safe d ext_len cap (Z.to_nat ext_len) 0 [] Hd) as Hs.
  unfold rtc_rtp_ext_parse_body. destruct (parse_loop _ _ _ _ _ _) eqn:E; [|done|].
  - eapply parse_loop_valid; [constructor|unfold blen; simpl; lia|exact E|constructor].
  - by apply Hs; [lia|lia|].
Qed.

Lemma ext_block_roundtrip_witness :
  exists block body, rtc_rtp_ext_write_block 64 [Ext 1 3 [7; 8; 9]; Ext 14 1 [5]] = Ok block /\
    block = [0xBE; 0xDE] ++ be16 (blen body / 4) ++ body /\
    blen block <= 64 /\ blen body mod 4 = 0 /\
    rtc_rtp_ext_parse_body body (blen body) 8 = Ok [Ext 1 3 [7; 8; 9]; Ext 14 1 [5]].
Proof.
  apply (ext_block_roundtrip 64 [Ext 1 3 [7; 8; 9]; Ext 14 1 [5]] 8); try (vm_compute; congruence).
  repeat constructor; vm_compute; congruence.
Defined.

Lemma ext_parse_safe_witness :
  match rtc_rtp_ext_parse_body [0x32; 1; 2; 3; 0; 0x47; 9] 7 8 with
  | Ok exts => Forall (fun e => ext_ok e /\ norm e = e) exts /\ blen exts <= Z.max 0 8
  | Err e => True
  | Fault => False
  end.
Proof. apply (ext_parse_safe [0x32; 1; 2; 3; 0; 0x47; 9] 7 8). vm_compute. congruence. Defined.

End RtpExt.
