(* ===== verification/Rtp.v ===== *)
(** * RTP packets and sessions (rtc/src/rtc_rtp.c) *)

From S2P Require Import Prelude RtpExt.
From Stdlib Require Import ZArith Lia.
From stdpp Require Import base list numbers.
#[local] Open Scope Z_scope.

Module Rtp.
Import RtpExt.

Definition RTP_VERSION : Z := 2.
Definition RTP_HEADER_SIZE : Z := 12.
Definition RTP_MAX_PACKET : Z := 1400.
Definition RTP_SRTP_PAD : Z := 16.
Definition RTP_MAX_EXT_LEN : Z := 64.
(** sizeof(pkt->buf) *)
Definition RTP_BUF_SIZE : Z :=
  RTP_MAX_PACKET + RTP_HEADER_SIZE + RTP_MAX_EXT_LEN + RTP_SRTP_PAD.

Record rtc_rtp_header_t := Header {
  version : Z; padding : bool; extension : bool; csrc_count : Z; marker : bool;
  payload_type : Z; seq : Z; timestamp : Z; ssrc : Z
}.

(** [payload] and [ext_data] are the bytes the pointers designate
    ([ext_data = None]: NULL); [buf] is the first [buf_len] bytes of the
    array. *)
Record rtc_rtp_packet_t := Packet {
  header : rtc_rtp_header_t;
  payload : bytes;
  ext_data : option bytes;
  ext_len : Z;
  buf : bytes
}.

Definition rtc_rtp_build_with_ext (pt sq ts sc : Z) (mk : bool) (exts : list rtc_rtp_ext_t)
    (pl : bytes) : res rtc_rtp_packet_t :=
  let payload_len := blen pl in
  _ ← fail_if (RTP_MAX_PACKET <? payload_len) RTC_ERR_INVALID;
  let x := 0 <? blen exts in
  let h := Header RTP_VERSION false x 0 mk pt sq ts sc in
  let b0 := Z.shiftl RTP_VERSION 6 in
  let b0 := if x then Z.lor b0 0x10 else b0 in
  let b1 := Z.land pt 0x7F in
  let b1 := if mk then Z.lor b1 0x80 else b1 in
  let b := [b0; b1] ++ be16 sq ++ be32 ts ++ be32 sc in
  ext ← (if x then
           blk ← rtc_rtp_ext_write_block RTP_MAX_EXT_LEN exts;
           Ok (blk, Some (drop 4 blk), blen blk - 4)
         else Ok ([], None, 0));
  let '(blk, ed, el) := ext in
  let out := b ++ blk ++ pl in
  _ ← fault_if (RTP_BUF_SIZE <? blen out);
  Ok (Packet h pl ed el out).

Definition rtc_rtp_build (pt sq ts sc : Z) (mk : bool) (pl : bytes) : res rtc_rtp_packet_t :=
  rtc_rtp_build_with_ext pt sq ts sc mk [] pl.

(** [old_buf]: what the packet's buffer held before the call. *)
Definition rtc_rtp_parse (old_buf data : bytes) : res rtc_rtp_packet_t :=
  let len := blen data in
  _ ← fail_if (len <? RTP_HEADER_SIZE) RTC_ERR_INVALID;
  b0 ← rd data 0;
  let version := Z.land (Z.shiftr b0 6) 3 in
  _ ← fail_if (negb (version =? RTP_VERSION)) RTC_ERR_INVALID;
  let padding := negb (Z.land (Z.shiftr b0 5) 1 =? 0) in
  let extension := negb (Z.land (Z.shiftr b0 4) 1 =? 0) in
  let csrc_count := Z.land b0 0x0F in
  b1 ← rd data 1;
  let marker := negb (Z.land (Z.shiftr b1 7) 1 =? 0) in
  let payload_type := Z.land b1 0x7F in
  seq ← rd_u16 data 2;
  timestamp ← rd_u32 data 4;
  ssrc ← rd_u32 data 8;
  let h := Header version padding extension csrc_count marker payload_type seq timestamp ssrc in
  let hdr_len := RTP_HEADER_SIZE + csrc_count * 4 in
  p ← (if extension then
         _ ← fail_if (len <? hdr_len + 4) RTC_ERR_INVALID;
         ext_words ← rd_u16 data (hdr_len + 2);
         let ext_bytes := ext_words * 4 in
         _ ← fail_if (len <? hdr_len + 4 + ext_bytes) RTC_ERR_INVALID;
         Ok (hdr_len + 4 + ext_bytes, ext_bytes)
       else Ok (hdr_len, 0));
  let '(hdr_len, ext_len) := p in
  _ ← fail_if (len <? hdr_len) RTC_ERR_INVALID;
  payload ← sub data hdr_len (len - hdr_len);
  if len <=? RTP_BUF_SIZE then
    ext ← (if extension && (0 <? ext_len) then
             d ← sub data (RTP_HEADER_SIZE + csrc_count * 4 + 4) ext_len; Ok (Some d)
           else Ok None);
    Ok (Packet h payload ext ext_len data)
  else Ok (Packet h payload None ext_len old_buf).

Record rtc_rtp_session_t := Session {
  s_ssrc : Z; s_seq : Z; s_timestamp : Z; s_payload_type : Z; s_clock_rate : Z
}.

(** [rand_ssrc], [rand_seq]: what rtc_random_bytes delivers *)
Definition rtc_rtp_session_init (pt clock_rate rand_ssrc rand_seq : Z) : rtc_rtp_session_t :=
  Session rand_ssrc rand_seq 0 pt clock_rate.

Definition session_advance (s : rtc_rtp_session_t) (samples : Z) : rtc_rtp_session_t :=
  Session (s_ssrc s) (u16 (s_seq s + 1)) (u32 (s_timestamp s + samples)) (s_payload_type s)
    (s_clock_rate s).

Definition rtc_rtp_session_send_with_ext (exts : list rtc_rtp_ext_t) (pl : bytes) (samples : Z)
    (mk : bool) : st rtc_rtp_session_t rtc_rtp_packet_t :=
  s ← get;
  p ← lift (rtc_rtp_build_with_ext (s_payload_type s) (s_seq s) (s_timestamp s) (s_ssrc s) mk exts pl);
  _ ← put (session_advance s samples);
  mret p.

Definition rtc_rtp_session_send (pl : bytes) (samples : Z) (mk : bool)
    : st rtc_rtp_session_t rtc_rtp_packet_t :=
  s ← get;
  p ← lift (rtc_rtp_build (s_payload_type s) (s_seq s) (s_timestamp s) (s_ssrc s) mk pl);
  _ ← put (session_advance s samples);
  mret p.

(** ** Round trip *)

(** the extension block of [exts] fits [RTP_MAX_EXT_LEN] *)
Definition exts_fit (exts : list rtc_rtp_ext_t) : Prop :=
  Forall ext_ok exts /\ 4 + (blen (body_bytes exts) + 3) / 4 * 4 <= RTP_MAX_EXT_LEN.

Definition header_bytes (b0 b1 sq ts sc : Z) : bytes := [b0; b1] ++ be16 sq ++ be32 ts ++ be32 sc.

Lemma blen_header_bytes b0 b1 sq ts sc : blen (header_bytes b0 b1 sq ts sc) = 12.
Proof. done. Qed.
#[export] Hint Rewrite blen_header_bytes : mrtc_len.

(** The fixed header of a packet read back from its first 12 bytes. *)
Lemma header_reads b0 b1 sq ts sc rest :
  0 <= sq < 2 ^ 16 -> 0 <= ts < 2 ^ 32 -> 0 <= sc < 2 ^ 32 ->
  let d := header_bytes b0 b1 sq ts sc ++ rest in
  rd d 0 = Ok b0 /\ rd d 1 = Ok b1 /\ rd_u16 d 2 = Ok sq /\ rd_u32 d 4 = Ok ts /\ rd_u32 d 8 = Ok sc.
Proof.
  intros ? ? ? d. subst d. unfold header_bytes. split_and!; [done|done|..].
  - rewrite <-!app_assoc. by apply (rd_u16_at [b0; b1]).
  - rewrite <-!app_assoc, (app_assoc [b0; b1]). by apply rd_u32_at.
  - rewrite <-!app_assoc, (app_assoc [b0; b1]), (app_assoc ([b0; b1] ++ be16 sq)).
    by apply rd_u32_at.
Qed.

Lemma first_byte (x : bool) :
  let b0 := if x then Z.lor (Z.shiftl RTP_VERSION 6) 16 else Z.shiftl RTP_VERSION 6 in
  Z.land (Z.shiftr b0 6) 3 = RTP_VERSION /\ negb (Z.land (Z.shiftr b0 5) 1 =? 0) = false /\
  negb (Z.land (Z.shiftr b0 4) 1 =? 0) = x /\ Z.land b0 15 = 0.
Proof. by destruct x. Qed.

Lemma second_byte pt (mk : bool) :
  0 <= pt < 128 ->
  let b1 := if mk then Z.lor (Z.land pt 127) 128 else Z.land pt 127 in
  negb (Z.land (Z.shiftr b1 7) 1 =? 0) = mk /\ Z.land b1 127 = pt.
Proof.
  intros Hpt. assert (E : Z.land pt 127 = pt) by solve_arith. cbv zeta. rewrite E.
  assert (E2 : Z.lor pt 128 = 128 + pt).
  { rewrite Z.lor_comm. change 128 with (Z.shiftl 1 7) at 1. by rewrite lor_shiftl_add. }
  destruct mk; rewrite ?E2; split; bits_to_arith; pow_eval; dlia.
Qed.

(** parsing a header with no CSRCs and extension block [blk] *)
Lemma parse_layout old (x mk : bool) pt sq ts sc blk body pl :
  0 <= pt < 128 -> 0 <= sq < 2 ^ 16 -> 0 <= ts < 2 ^ 32 -> 0 <= sc < 2 ^ 32 ->
  (if x then blk = [0xBE; 0xDE] ++ be16 (blen body / 4) ++ body /\ blen body mod 4 = 0 /\
            0 < blen body < 2 ^ 16
   else blk = [] /\ body = []) ->
  let b0 := if x then Z.lor (Z.shiftl RTP_VERSION 6) 16 else Z.shiftl RTP_VERSION 6 in
  let b1 := if mk then Z.lor (Z.land pt 127) 128 else Z.land pt 127 in
  let d := header_bytes b0 b1 sq ts sc ++ blk ++ pl in
  blen d <= RTP_BUF_SIZE ->
  rtc_rtp_parse old d =
    Ok (Packet (Header RTP_VERSION false x 0 mk pt sq ts sc) pl
          (if x then Some body else None) (blen body) d).
Proof.
  intros Hpt Hsq Hts Hsc Hx b0 b1 d Hlen.
  destruct (header_reads b0 b1 sq ts sc (blk ++ pl) Hsq Hts Hsc) as (R0 & R1 & R2 & R3 & R4).
  destruct (first_byte x) as (F1 & F2 & F3 & F4). destruct (second_byte pt mk Hpt) as (S1 & S2).
  fold b0 in F1, F2, F3, F4. fold b1 in S1, S2. fold d in R0, R1, R2, R3, R4.
  assert (Hh : blen (header_bytes b0 b1 sq ts sc) = 12) by done.
  assert (Hd : blen d = 12 + blen blk + blen pl) by (subst d; lens; lia).
  pose proof (blen_nonneg blk). pose proof (blen_nonneg pl).
  unfold rtc_rtp_parse, RTP_HEADER_SIZE in *. pass_guard. step R0. rewrite F1.
  rewrite (bind_Ok_l _ _ ()) by done. step R1. step R2. step R3. step R4.
  rewrite F2, F3, F4, S1, S2. rewrite (proj2 (Z.leb_le (blen d) RTP_BUF_SIZE)) by lia. destruct x.
  - destruct Hx as (Hblk & Hmod & Hb). assert (blen blk = 4 + blen body) by (subst blk; lens; lia).
    pass_guard.
    assert (W : rd_u16 d (12 + 0 * 4 + 2) = Ok (blen body / 4)).
    { subst d blk. rewrite <-!app_assoc, (app_assoc _ [_; _]). apply rd_u16_at; [done|].
      pow_eval. dlia. }
    step W. replace (blen body / 4 * 4) with (blen body) by dlia. pass_guard. simpl. pass_guard.
    assert (P : sub d (12 + 4 + blen body) (blen d - (12 + 4 + blen body)) = Ok pl).
    { subst d. rewrite app_assoc, <-(app_nil_r pl) at 1. apply sub_mid; [lens; lia|lia]. }
    step P. rewrite (proj2 (Z.ltb_lt 0 (blen body))) by lia.
    assert (B : sub d 16 (blen body) = Ok body).
    { subst d blk. rewrite <-!app_assoc, (app_assoc _ [_; _]), (app_assoc (_ ++ [_; _])).
      by apply sub_mid. }
    by step B.
  - destruct Hx as (-> & ->). simpl. pass_guard.
    assert (P : sub d 12 (blen d - 12) = Ok pl).
    { subst d. rewrite app_nil_l, <-(app_nil_r pl) at 1. apply sub_mid; [done|lens; lia]. }
    by step P.
Qed.

Lemma body_bytes_pos exts : Forall ext_ok exts -> exts <> [] -> 0 < blen (body_bytes exts).
Proof.
  intros HF Hne. destruct exts as [|e exts]; [done|]. apply Forall_cons_1 in HF as [He _].
  rewrite body_bytes_cons, blen_app, entry_bytes_len by done.
  pose proof (blen_nonneg (body_bytes exts)). destruct He as (_ & ? & _). lia.
Qed.

(** what [rtc_rtp_build_with_ext] produces on valid arguments *)
Lemma build_ok pt sq ts sc mk exts pl cap_out :
  exts_fit exts -> blen exts <= cap_out -> blen pl <= RTP_MAX_PACKET ->
  exists blk body,
    let x := 0 <? blen exts in
    let b0 := if x then Z.lor (Z.shiftl RTP_VERSION 6) 16 else Z.shiftl RTP_VERSION 6 in
    let b1 := if mk : bool then Z.lor (Z.land pt 127) 128 else Z.land pt 127 in
    let d := header_bytes b0 b1 sq ts sc ++ blk ++ pl in
    rtc_rtp_build_with_ext pt sq ts sc mk exts pl =
      Ok (Packet (Header RTP_VERSION false x 0 mk pt sq ts sc) pl
            (if x then Some body else None) (blen body) d) /\
    (if x then blk = [0xBE; 0xDE] ++ be16 (blen body / 4) ++ body /\ blen body mod 4 = 0 /\
              0 < blen body < 2 ^ 16
     else blk = [] /\ body = []) /\
    blen d + RTP_SRTP_PAD <= RTP_BUF_SIZE /\
    rtc_rtp_ext_parse_body body (blen body) cap_out = Ok (norm <$> exts).
Proof.
  intros [HF Hfit] Hn Hpl.
  unfold rtc_rtp_build_with_ext, RTP_BUF_SIZE, RTP_MAX_PACKET, RTP_HEADER_SIZE, RTP_MAX_EXT_LEN,
    RTP_SRTP_PAD in *. pose proof (blen_nonneg pl).
  destruct (Z.ltb_spec 0 (blen exts)) as [Hx|Hx].
  - destruct (write_block_ok 64 exts cap_out HF Hn) as (blk & body & Hw & Hblk & Hcap & Hmod & Hp);
      [lia|done|].
    assert (Hbb : 0 < blen (body_bytes exts)) by (apply body_bytes_pos; [done|intros ->; done]).
    assert (Hb : blen blk = 4 + blen body) by (subst blk; lens; lia).
    exists blk, body. assert (0 < blen body).
    { destruct body as [|y body]; [|lens; pose proof (blen_nonneg body); lia].
      assert (E : norm <$> exts = []) by (unfold rtc_rtp_ext_parse_body in Hp; simpl in Hp; congruence).
      apply fmap_nil_inv in E. subst exts. done. }
    cbv zeta. split_and!; [|done|done|lia|lia|lens; lia|done].
    assert (Hdrop : drop 4 blk = body) by by subst blk.
    pass_guard. step Hw. cbn [mbind res_bind]. rewrite Hdrop.
    replace (blen blk - 4) with (blen body) by lia.
    rewrite (bind_Ok_l _ _ ()); [done|]. apply fault_if_Ok, Z.ltb_ge. lens. lia.
  - exists [], []. assert (exts = []) as -> by (destruct exts; [done|]; lens; pose proof (blen_nonneg exts); lia).
    cbv zeta. split_and!; [|done|done|lens; lia|done].
    pass_guard. simpl. rewrite (bind_Ok_l _ _ ()); [done|]. apply fault_if_Ok, Z.ltb_ge. lens. lia.
Qed.

Lemma rtp_parse_no_fault old d : bytes_ok d -> no_fault (rtc_rtp_parse old d).
Proof.
  intros Hd. unfold rtc_rtp_parse, RTP_HEADER_SIZE. cbv zeta.
  apply no_fault_bind; [apply no_fault_fail_if|intros ? Hl%fail_if_Ok%Z.ltb_ge].
  apply no_fault_bind; [apply no_fault_rd; lia|intros b0 _].
  assert (0 <= Z.land b0 15) by (apply Z.land_nonneg; lia).
  apply no_fault_bind; [apply no_fault_fail_if|intros ? _].
  apply no_fault_bind; [apply no_fault_rd; lia|intros b1 _].
  apply no_fault_bind; [apply no_fault_rd_u16; lia|intros sq _].
  do 2 (apply no_fault_bind; [apply no_fault_rd_u32; lia|intros ? _]).
  apply no_fault_bind; [safe|intros [hl el] Hp].
  assert (0 <= hl /\ (negb (Z.land (Z.shiftr b0 4) 1 =? 0) = true ->
    0 <= el /\ 12 + Z.land b0 15 * 4 + 4 + el <= blen d)) as [Hhl Hel].
  { destruct (negb _); [|injection Hp as <- <-; split; [lia|done]].
    apply bind_Ok in Hp as (? & _ & (w & Hw%rd_u16_range & (? & Hg%fail_if_Ok%Z.ltb_ge & [= <- <-])
      %bind_Ok)%bind_Ok); [|done]. lia. }
  apply no_fault_bind; [apply no_fault_fail_if|intros ? Hg%fail_if_Ok%Z.ltb_ge].
  apply no_fault_bind; [apply no_fault_sub; lia|intros pl _].
  destruct (_ <=? _); [|apply no_fault_Ok].
  apply no_fault_bind; [|intros; apply no_fault_Ok].
  destruct (negb _) eqn:E; [|apply no_fault_Ok]. destruct (0 <? el); [|apply no_fault_Ok].
  destruct (Hel eq_refl). safe.
Qed.

Lemma rtp_parse_inv old d p :
  rtc_rtp_parse old d = Ok p ->
  version (header p) = RTP_VERSION /\ (exists hdr, d = hdr ++ payload p) /\
  (forall e, ext_data p = Some e -> blen e = ext_len p).
Proof.
  unfold rtc_rtp_parse. cbv zeta.
  intros (_ & _ & (b0 & _ & (u & Hv%fail_if_Ok & Hr)%bind_Ok)%bind_Ok)%bind_Ok.
  apply negb_false_iff, Z.eqb_eq in Hv.
  do 5 (apply bind_Ok in Hr as (? & _ & Hr)). destruct x3 as [hl el].
  apply bind_Ok in Hr as (? & Hg%fail_if_Ok%Z.ltb_ge & (pl & Hpl & Hr)%bind_Ok).
  apply sub_inv in Hpl as (? & _ & ? & Hpl).
  assert (d = take (Z.to_nat hl) d ++ pl) as Hsplit.
  { rewrite <-(take_drop (Z.to_nat hl) d) at 1. f_equal. rewrite Hpl, take_ge; [done|].
    rewrite length_drop. unfold blen in *. lia. }
  destruct (_ <=? _); [|injection Hr as <-; split_and!; simpl; eauto; done].
  apply bind_Ok in Hr as (ext & He & [= <-]). split_and!; simpl; eauto.
  intros e ->. destruct (_ && _); [|done].
  by apply bind_Ok in He as (e' & He%sub_length & [= ->]).
Qed.

Lemma build_parse old pt sq ts sc mk exts pl cap_out :
  0 <= pt < 128 -> 0 <= sq < 2 ^ 16 -> 0 <= ts < 2 ^ 32 -> 0 <= sc < 2 ^ 32 ->
  exts_fit exts -> blen exts <= cap_out -> blen pl <= RTP_MAX_PACKET ->
  exists p p', rtc_rtp_build_with_ext pt sq ts sc mk exts pl = Ok p /\
    blen (buf p) + RTP_SRTP_PAD <= RTP_BUF_SIZE /\
    rtc_rtp_parse old (buf p) = Ok p' /\
    header p' = Header RTP_VERSION false (0 <? blen exts) 0 mk pt sq ts sc /\
    payload p' = pl /\ buf p' = buf p /\
    rtc_rtp_ext_parse_body (default [] (ext_data p')) (ext_len p') cap_out = Ok (norm <$> exts) /\
    (exts <> [] -> exists d, ext_data p' = Some d /\ ext_len p' = blen d /\ 0 < blen d).
Proof.
  intros Hpt Hsq Hts Hsc Hfit Hn Hpl.
  destruct (build_ok pt sq ts sc mk exts pl cap_out Hfit Hn Hpl) as (blk & body & Hb & Hx & Hc & Hp).
  cbv zeta in *. eexists _, _. split; [exact Hb|]. simpl. split; [done|]. split.
  { apply (parse_layout old (0 <? blen exts) mk pt sq ts sc blk body pl Hpt Hsq Hts Hsc Hx). change RTP_SRTP_PAD with 16 in Hc. lia. }
  simpl. split_and!; try done.
  - destruct (0 <? blen exts); simpl; [done|]. by destruct Hx as [_ ->].
  - intros Hne. destruct exts as [|x exts]; [done|].
    rewrite (proj2 (Z.ltb_lt _ _)) in * by (lens; pose proof (blen_nonneg exts); lia).
    exists body. destruct Hx as (_ & _ & ?). split_and!; [done|done|lia].
Qed.

(** ** Properties *)

(** C28: RTP packets round-trip.  For every 7-bit payload type, sequence
    number, timestamp, SSRC, marker, payload of at most 1400 bytes and valid
    list of header extensions that fits 64 bytes, building succeeds, leaves
    room for the SRTP tag in the packet buffer, and parsing the bytes gives
    the same header, payload and extensions back. *)
Theorem rtp_build_parse_roundtrip old pt sq ts sc mk exts pl cap_out :
  0 <= pt < 128 -> 0 <= sq < 2 ^ 16 -> 0 <= ts < 2 ^ 32 -> 0 <= sc < 2 ^ 32 ->
  exts_fit exts -> blen exts <= cap_out -> blen pl <= RTP_MAX_PACKET ->
  exists p p', rtc_rtp_build_with_ext pt sq ts sc mk exts pl = Ok p /\
    blen (buf p) + RTP_SRTP_PAD <= RTP_BUF_SIZE /\
    rtc_rtp_parse old (buf p) = Ok p' /\
    header p' = Header RTP_VERSION false (0 <? blen exts) 0 mk pt sq ts sc /\
    payload p' = pl /\ buf p' = buf p /\
    rtc_rtp_ext_parse_body (default [] (ext_data p')) (ext_len p') cap_out = Ok (norm <$> exts).
Proof.
  intros H1 H2 H3 H4 H5 H6 H7.
  destruct (build_parse old pt sq ts sc mk exts pl cap_out H1 H2 H3 H4 H5 H6 H7) as (p & p' & Hp).
  exists p, p'. naive_solver.
Qed.

(** The RTP parser is memory safe and total on every byte string: it
    returns an error or a packet whose version is 2, whose payload is a
    suffix of the input and whose extension view has the length it claims. *)
Theorem rtp_parse_safe old d :
  bytes_ok d ->
  match rtc_rtp_parse old d with
  | Ok p => version (header p) = RTP_VERSION /\ (exists hdr, d = hdr ++ payload p) /\
            (forall e, ext_data p = Some e -> blen e = ext_len p)
  | Err _ => True
  | Fault => False
  end.
Proof.
  intros Hd. pose proof (rtp_parse_no_fault old d Hd) as Hs.
  destruct (rtc_rtp_parse old d) eqn:E; [by eapply rtp_parse_inv|done|by apply Hs].
Qed.

(** a packet with a transport-cc and a MID extension *)
Definition exts0 : list rtc_rtp_ext_t :=
  [rtc_rtp_ext_make_transport_cc 3 4660; Ext 4 1 (48 :: replicate 15 0)].

Lemma rtp_build_parse_roundtrip_witness :
  exists p p', rtc_rtp_build_with_ext 96 65535 3000 0xCAFEBABE true exts0 [1; 2; 3] = Ok p /\
    blen (buf p) + RTP_SRTP_PAD <= RTP_BUF_SIZE /\
    rtc_rtp_parse [] (buf p) = Ok p' /\
    header p' = Header RTP_VERSION false true 0 true 96 65535 3000 0xCAFEBABE /\
    payload p' = [1; 2; 3] /\ buf p' = buf p /\
    rtc_rtp_ext_parse_body (default [] (ext_data p')) (ext_len p') 8 = Ok (norm <$> exts0).
Proof.
  apply (rtp_build_parse_roundtrip [] 96 65535 3000 0xCAFEBABE true exts0 [1; 2; 3] 8);
    try lia; try (vm_compute; congruence).
  split; [|vm_compute; congruence]. repeat constructor; vm_compute; congruence.
Defined.

Lemma rtp_parse_safe_witness :
  match rtc_rtp_parse [] [0x90; 96; 0; 1; 0; 0; 0; 2; 0; 0; 0; 3; 0xBE; 0xDE; 0; 9] with
  | Ok p => version (header p) = RTP_VERSION /\
            (exists hdr, [0x90; 96; 0; 1; 0; 0; 0; 2; 0; 0; 0; 3; 0xBE; 0xDE; 0; 9]
                         = hdr ++ payload p) /\
            (forall e, ext_data p = Some e -> blen e = ext_len p)
  | Err _ => True
  | Fault => False
  end.
Proof. apply (rtp_parse_safe [] [0x90; 96; 0; 1; 0; 0; 0; 2; 0; 0; 0; 3; 0xBE; 0xDE; 0; 9]).
  apply bytes_okb_ok. reflexivity.
Defined.

End Rtp.
