(* ===== verification/Rtcp.v ===== *)
(** * RTCP reports and reception statistics (rtc/src/rtc_rtcp.c)

    Sender and receiver reports, their parser, the statistics they are built
    from and the round-trip time computed from them.  [rtc_time_ms] and
    [rtc_time_unix_ms] are the arguments [now] and [unix] of the functions
    that read the clock.  Pointer arguments are present: the [NULL] guards
    have no counterpart.  The feedback packets of the same source file are in
    RtcpFb.v and Twcc.v. *)

From S2P Require Import Prelude.
From Stdlib Require Import ZArith Lia.
From stdpp Require Import base list numbers.
#[local] Open Scope Z_scope.

Module Rtcp.

Definition RTCP_PT_SR : Z := 200.
Definition RTCP_PT_RR : Z := 201.
Definition RTCP_PT_RTPFB : Z := 205.
Definition RTCP_PT_PSFB : Z := 206.
Definition RTCP_SR_SIZE : Z := 20.
Definition RTCP_RR_BLOCK_SIZE : Z := 24.
Definition RTCP_MAX_PACKET : Z := 1400.

Record rtc_rtcp_header_t := Hdr {
  h_version : Z; h_padding : bool; h_count : Z; h_packet_type : Z; h_length : Z
}.

Record rtc_rtcp_sr_t := Sr {
  sr_ssrc : Z; ntp_sec : Z; ntp_frac : Z; sr_rtp_timestamp : Z;
  sender_pkt_count : Z; sender_oct_count : Z
}.

Record rtc_rtcp_rr_block_t := Rr {
  rr_ssrc : Z; fraction_lost : Z; cumulative_lost : Z; rr_highest_seq : Z;
  rr_jitter : Z; last_sr : Z; delay_since_sr : Z
}.

(** [reports] holds the first [report_count] blocks of the array and [buf]
    the first [buf_len] bytes. *)
Record rtc_rtcp_packet_t := Pkt {
  pk_header : rtc_rtcp_header_t; pk_sender_ssrc : Z; pk_sr : rtc_rtcp_sr_t;
  reports : list rtc_rtcp_rr_block_t; buf : bytes
}.

Record rtc_rtcp_stats_t := Stats {
  ssrc : Z;
  packets_sent : Z; octets_sent : Z; rtp_timestamp : Z;
  remote_ssrc : Z; packets_received : Z; packets_expected : Z; packets_lost : Z;
  base_seq : Z; highest_seq : Z; jitter : Z; last_transit : Z; first_packet : bool;
  last_sr_ntp : Z; last_sr_recv_time : Z; last_report_time : Z
}.

(** what [memset(.., 0, ..)] leaves *)
Definition sr_zero : rtc_rtcp_sr_t := Sr 0 0 0 0 0 0.

(** seconds and fraction *)
Definition get_ntp_time (unix : Z) : Z * Z :=
  (u32 (u32 (unix / 1000) + 2208988800), u32 (u32 (unix mod 1000) * 4294967)).

Definition rtc_rtcp_stats_init (sc now : Z) : rtc_rtcp_stats_t :=
  Stats sc 0 0 0 0 0 0 0 0 0 0 0 true 0 0 now.

(** the extended highest sequence number after [sq] *)
Definition extend_seq (highest sq : Z) : Z :=
  let seq32 := Z.lor (Z.land highest 0xFFFF0000) sq in
  let lo := Z.land highest 0xFFFF in
  let seq32 := if (sq <? lo) && (0x8000 <? lo - sq) then u32 (seq32 + 0x10000) else seq32 in
  if highest <? seq32 then seq32 else highest.

(** interarrival jitter; [-d] overflows for [INT_MIN] *)
Definition jitter_step (j last transit : Z) : res Z :=
  let d := s32 (transit - last) in
  d ← (if d <? 0 then _ ← fault_if (d =? - 2 ^ 31); Ok (- d) else Ok d);
  Ok (u32 (j + Z.shiftr (u32 (u32 d - j + 8)) 4)).

Definition rtc_rtcp_stats_on_rtp_recv (s : rtc_rtcp_stats_t) (sq ts sc clock_rate now : Z)
    : res rtc_rtcp_stats_t :=
  if first_packet s then
    Ok (Stats (ssrc s) (packets_sent s) (octets_sent s) (rtp_timestamp s) sc 1 1 (packets_lost s)
          sq sq (jitter s) (last_transit s) false (last_sr_ntp s) (last_sr_recv_time s)
          (last_report_time s))
  else if negb (sc =? remote_ssrc s) then Ok s
  else
    let received := u32 (packets_received s + 1) in
    let highest := extend_seq (highest_seq s) sq in
    let expected := u32 (highest - base_seq s + 1) in
    let lost := if received <? expected then expected - received else 0 in
    jt ← (if 0 <? clock_rate then
            let arrival_ts := u32 (u64 (now * clock_rate) / 1000) in
            let transit := u32 (arrival_ts - ts) in
            j ← (if negb (last_transit s =? 0) then jitter_step (jitter s) (last_transit s) transit
                 else Ok (jitter s));
            Ok (j, transit)
          else Ok (jitter s, last_transit s));
    let '(j, transit) := jt in
    Ok (Stats (ssrc s) (packets_sent s) (octets_sent s) (rtp_timestamp s) (remote_ssrc s)
          received expected lost (base_seq s) highest j transit false (last_sr_ntp s)
          (last_sr_recv_time s) (last_report_time s)).

Definition rtc_rtcp_stats_on_rtp_send (s : rtc_rtcp_stats_t) (ts payload_len : Z)
    : rtc_rtcp_stats_t :=
  Stats (ssrc s) (u32 (packets_sent s + 1)) (u32 (octets_sent s + u32 payload_len)) ts
    (remote_ssrc s) (packets_received s) (packets_expected s) (packets_lost s) (base_seq s)
    (highest_seq s) (jitter s) (last_transit s) (first_packet s) (last_sr_ntp s)
    (last_sr_recv_time s) (last_report_time s).

(** the middle 32 bits of an NTP timestamp *)
Definition compact_ntp (sec frac : Z) : Z :=
  Z.lor (u32 (Z.shiftl (Z.land sec 0xFFFF) 16)) (Z.shiftr frac 16).

Definition rtc_rtcp_stats_on_sr_recv (s : rtc_rtcp_stats_t) (sr : rtc_rtcp_sr_t) (now : Z)
    : rtc_rtcp_stats_t :=
  Stats (ssrc s) (packets_sent s) (octets_sent s) (rtp_timestamp s) (remote_ssrc s)
    (packets_received s) (packets_expected s) (packets_lost s) (base_seq s) (highest_seq s)
    (jitter s) (last_transit s) (first_packet s) (compact_ntp (ntp_sec sr) (ntp_frac sr)) now
    (last_report_time s).

Definition rtc_rtcp_rtt_from_rr (rr : rtc_rtcp_rr_block_t) (unix : Z) : Z :=
  if last_sr rr =? 0 then 0
  else
    let now_sec := u32 (u32 (unix / 1000) + 2208988800) in
    let now_frac := u32 (unix mod 1000 * 4294967) in
    let now_compact := compact_ntp now_sec now_frac in
    let rtt_ntp := u32 (u32 (now_compact - last_sr rr) - delay_since_sr rr) in
    let rtt_ms := s32 (Z.shiftr (u64 (rtt_ntp * 1000)) 16) in
    if rtt_ms <? 0 then 0 else rtt_ms.

(** the reception report block of [build_sr] and [build_rr] *)
Definition report_block (s : rtc_rtcp_stats_t) (now : Z) : rtc_rtcp_rr_block_t :=
  Rr (remote_ssrc s)
     (if 0 <? packets_expected s then u8 (u32 (packets_lost s * 256) / packets_expected s) else 0)
     (s32 (packets_lost s)) (highest_seq s) (jitter s) (last_sr_ntp s)
     (if 0 <? last_sr_recv_time s then
        u32 (u64 (u64 (now - last_sr_recv_time s) * 65536) / 1000)
      else 0).

Definition report_blocks (s : rtc_rtcp_stats_t) (now : Z) : list rtc_rtcp_rr_block_t :=
  if negb (remote_ssrc s =? 0) && negb (first_packet s) then [report_block s now] else [].

Definition write_rr_block (rr : rtc_rtcp_rr_block_t) : bytes :=
  be32 (rr_ssrc rr) ++
  be32 (Z.lor (Z.shiftl (fraction_lost rr) 24) (Z.land (cumulative_lost rr) 0x00FFFFFF)) ++
  be32 (rr_highest_seq rr) ++ be32 (rr_jitter rr) ++ be32 (last_sr rr) ++
  be32 (delay_since_sr rr).

(** header with the length filled in, then [body] *)
Definition report_bytes (pt rc : Z) (body : bytes) : bytes :=
  let length_words := u16 ((4 + blen body) / 4 - 1) in
  [Z.lor (Z.shiftl 2 6) (Z.land (u8 rc) 0x1F); pt] ++ be16 length_words ++ body.

Definition rtc_rtcp_build_sr (s : rtc_rtcp_stats_t) (now unix : Z) : res rtc_rtcp_packet_t :=
  let reps := report_blocks s now in
  let '(sec, frac) := get_ntp_time unix in
  let sr := Sr (ssrc s) sec frac (rtp_timestamp s) (packets_sent s) (octets_sent s) in
  let body := be32 (ssrc s) ++ be32 sec ++ be32 frac ++ be32 (rtp_timestamp s) ++
    be32 (packets_sent s) ++ be32 (octets_sent s) ++ mjoin (write_rr_block <$> reps) in
  let b := report_bytes RTCP_PT_SR (blen reps) body in
  _ ← fault_if (RTCP_MAX_PACKET <? blen b);
  Ok (Pkt (Hdr 2 false (u8 (blen reps)) RTCP_PT_SR (u16 (blen b / 4 - 1))) (ssrc s) sr reps b).

Definition rtc_rtcp_build_rr (s : rtc_rtcp_stats_t) (now : Z) : res rtc_rtcp_packet_t :=
  let reps := report_blocks s now in
  let body := be32 (ssrc s) ++ mjoin (write_rr_block <$> reps) in
  let b := report_bytes RTCP_PT_RR (blen reps) body in
  _ ← fault_if (RTCP_MAX_PACKET <? blen b);
  Ok (Pkt (Hdr 2 false (u8 (blen reps)) RTCP_PT_RR (u16 (blen b / 4 - 1))) (ssrc s) sr_zero reps b).

Definition parse_rr_block (data : bytes) (offset : Z) : res rtc_rtcp_rr_block_t :=
  sc ← rd_u32 data offset;
  lost_field ← rd_u32 data (offset + 4);
  let cum := Z.land lost_field 0x00FFFFFF in
  let cum := if negb (Z.land cum 0x800000 =? 0) then Z.lor cum (s32 0xFF000000) else cum in
  hs ← rd_u32 data (offset + 8);
  j ← rd_u32 data (offset + 12);
  ls ← rd_u32 data (offset + 16);
  dl ← rd_u32 data (offset + 20);
  Ok (Rr sc (u8 (Z.shiftr lost_field 24)) cum hs j ls dl).

(** the loop over the report blocks; [n] iterations are left *)
Fixpoint parse_reports (n : nat) (data : bytes) (offset : Z) : res (list rtc_rtcp_rr_block_t) :=
  match n with
  | O => Ok []
  | S n =>
      if blen data <? offset + RTCP_RR_BLOCK_SIZE then Ok []
      else
        rr ← parse_rr_block data offset;
        rest ← parse_reports n data (offset + 24);
        Ok (rr :: rest)
  end.

Definition rtc_rtcp_parse (data : bytes) : res rtc_rtcp_packet_t :=
  let len := blen data in
  _ ← fail_if (len <? 8) RTC_ERR_INVALID;
  b0 ← rd data 0;
  let version := Z.land (Z.shiftr b0 6) 3 in
  _ ← fail_if (negb (version =? 2)) RTC_ERR_INVALID;
  let padding := negb (Z.land (Z.shiftr b0 5) 1 =? 0) in
  let count := Z.land b0 0x1F in
  packet_type ← rd data 1;
  length ← rd_u16 data 2;
  let expected_len := (length + 1) * 4 in
  _ ← fail_if (len <? expected_len) RTC_ERR_INVALID;
  sender ← rd_u32 data 4;
  p ← (if packet_type =? RTCP_PT_SR then
         _ ← fail_if (len <? 8 + RTCP_SR_SIZE) RTC_ERR_INVALID;
         sec ← rd_u32 data 8; frac ← rd_u32 data 12; ts ← rd_u32 data 16;
         pc ← rd_u32 data 20; oc ← rd_u32 data 24;
         Ok (Sr sender sec frac ts pc oc, 28)
       else Ok (sr_zero, 8));
  let '(sr, offset) := p in
  reps ← parse_reports (Z.to_nat (Z.min count 31)) data offset;
  let b := if len <=? RTCP_MAX_PACKET then data else [] in
  Ok (Pkt (Hdr version padding count packet_type length) sender sr reps b).

Definition rtc_rtcp_is_rtcp (data : bytes) : res bool :=
  if blen data <? 4 then Ok false
  else
    b0 ← rd data 0;
    if negb (Z.land (Z.shiftr b0 6) 3 =? 2) then Ok false
    else pt ← rd data 1; Ok ((200 <=? pt) && (pt <=? 206)).

Definition rtc_rtcp_get_pt_fmt (data : bytes) : res (option (Z * Z)) :=
  if blen data <? 4 then Ok None
  else
    b0 ← rd data 0;
    if negb (Z.land (Z.shiftr b0 6) 3 =? 2) then Ok None
    else pt ← rd data 1; Ok (Some (pt, Z.land b0 0x1F)).

(** ** Buffers of 32-bit words *)

Definition u32_ok (x : Z) : Prop := 0 <= x < 2 ^ 32.
Definition words (ws : list Z) : bytes := mjoin (be32 <$> ws).

Lemma words_cons w ws : words (w :: ws) = be32 w ++ words ws.
Proof. done. Qed.

Lemma blen_words ws : blen (words ws) = 4 * blen ws.
Proof. induction ws as [|w ws IH]; [done|]. rewrite words_cons. lens. lia. Qed.
#[export] Hint Rewrite blen_words : mrtc_len.

Lemma rd_words i ws (pre post : bytes) w off :
  ws !! i = Some w -> u32_ok w -> off = blen pre + 4 * Z.of_nat i ->
  rd_u32 (pre ++ words ws ++ post) off = Ok w.
Proof.
  revert pre i off. induction ws as [|w' ws IH]; intros pre [|i] off Hi Hw ->; simpl in Hi; simplify_eq.
  - rewrite words_cons, <-app_assoc. apply rd_u32_at; [lia|done].
  - rewrite words_cons, <-app_assoc, app_assoc. apply (IH _ i); [done|done|]. lens. lia.
Qed.

(** read word [i] of a report body *)
Ltac read_word i :=
  match goal with
  | |- context [mbind ?k (rd_u32 (?pre ++ words ?ws ++ ?post) ?off)] =>
      let w := eval cbn in (ws !! i) in
      match w with
      | Some ?w =>
          rewrite (bind_Ok_l (rd_u32 (pre ++ words ws ++ post) off) k w)
            by (apply (rd_words i); [reflexivity|done|lens; lia])
      end
  end.

(** ** Report blocks *)

Record rr_ok (rr : rtc_rtcp_rr_block_t) : Prop := {
  rro_ssrc : u32_ok (rr_ssrc rr);
  rro_frac : byte_ok (fraction_lost rr);
  rro_high : u32_ok (rr_highest_seq rr);
  rro_jit : u32_ok (rr_jitter rr);
  rro_lsr : u32_ok (last_sr rr);
  rro_dlsr : u32_ok (delay_since_sr rr)
}.

(** the block as it comes out of a packet: 24 bits of [cumulative_lost] *)
Definition rr_wire (rr : rtc_rtcp_rr_block_t) : rtc_rtcp_rr_block_t :=
  Rr (rr_ssrc rr) (fraction_lost rr) (sint 24 (cumulative_lost rr)) (rr_highest_seq rr)
     (rr_jitter rr) (last_sr rr) (delay_since_sr rr).

Definition lost_word (fl cum : Z) : Z := Z.lor (Z.shiftl fl 24) (Z.land cum 0x00FFFFFF).

Lemma lost_word_arith fl cum : lost_word fl cum = fl * 2 ^ 24 + cum mod 2 ^ 24.
Proof.
  unfold lost_word. rewrite (land_mask 24) by done. apply lor_shiftl_add; [lia|].
  apply Z.mod_pos_bound. lia.
Qed.

Lemma lost_word_ok fl cum : byte_ok fl -> u32_ok (lost_word fl cum).
Proof. rewrite lost_word_arith. unfold byte_ok, u32_ok. intros. pow_eval. dlia. Qed.

Lemma sign_extend_24 x :
  0 <= x < 2 ^ 24 ->
  (if negb (Z.land x 0x800000 =? 0) then Z.lor x (s32 0xFF000000) else x) = sint 24 x.
Proof.
  intros Hx. unfold sint. rewrite Z.mod_small by lia.
  assert (Hb : Z.land x 0x800000 = if x <? 2 ^ 23 then 0 else 2 ^ 23).
  { change 0x800000 with (Z.shiftl 1 23). apply Z.bits_inj_iff'; intros n Hn.
    rewrite Z.land_spec, Z.shiftl_spec by done.
    destruct (Z.eqb_spec n 23) as [->|Hne].
    - replace (Z.testbit 1 (23 - 23)) with true by done. rewrite andb_true_r.
      rewrite Z.testbit_odd, Z.shiftr_div_pow2 by lia. destruct (Z.ltb_spec x (2 ^ 23)).
      + by rewrite Z.div_small by lia.
      + replace (x / 2 ^ 23) with 1 by (pow_eval; dlia). done.
    - replace (Z.testbit 1 (n - 23)) with false.
      2: { destruct (Z.lt_ge_cases (n - 23) 0); [by rewrite Z.testbit_neg_r by lia|].
           change 1 with (2 ^ 0). by rewrite Z.pow2_bits_false by lia. }
      rewrite andb_false_r. destruct (x <? 2 ^ 23); [by rewrite Z.bits_0|].
      by rewrite Z.pow2_bits_false by lia. }
  rewrite Hb. change (24 - 1) with 23. destruct (x <? 2 ^ 23) eqn:E; [done|].
  change (s32 0xFF000000) with (Z.shiftl (-1) 24). change (negb (2 ^ 23 =? 0)) with true. cbv iota.
  rewrite Z.lor_comm, lor_shiftl_add by lia. lia.
Qed.

Lemma write_rr_block_words rr :
  write_rr_block rr =
    words [rr_ssrc rr; lost_word (fraction_lost rr) (cumulative_lost rr); rr_highest_seq rr;
           rr_jitter rr; last_sr rr; delay_since_sr rr].
Proof. done. Qed.

Lemma blen_write_rr_block rr : blen (write_rr_block rr) = 24.
Proof. done. Qed.
#[export] Hint Rewrite blen_write_rr_block : mrtc_len.

Lemma parse_write_rr_block pre rr post off :
  rr_ok rr -> off = blen pre ->
  parse_rr_block (pre ++ write_rr_block rr ++ post) off = Ok (rr_wire rr).
Proof.
  intros [H1 H2 H3 H4 H5 H6] ->. pose proof (lost_word_ok _ (cumulative_lost rr) H2) as H7.
  unfold parse_rr_block. rewrite write_rr_block_words.
  read_word 0%nat. read_word 1%nat. read_word 2%nat. read_word 3%nat. read_word 4%nat.
  read_word 5%nat.
  assert (E : Z.land (lost_word (fraction_lost rr) (cumulative_lost rr)) 0x00FFFFFF
              = cumulative_lost rr mod 2 ^ 24).
  { rewrite lost_word_arith. bits_to_arith. pow_eval. dlia. }
  rewrite E, sign_extend_24 by (apply Z.mod_pos_bound; lia).
  unfold rr_wire. do 2 f_equal.
  - rewrite lost_word_arith. unfold byte_ok in H2. solve_arith.
  - unfold sint. by rewrite Z.mod_mod by done.
Qed.

Lemma parse_write_reports reps pre off :
  Forall rr_ok reps -> off = blen pre ->
  parse_reports (length reps) (pre ++ mjoin (write_rr_block <$> reps)) off
  = Ok (rr_wire <$> reps).
Proof.
  revert pre off. induction reps as [|rr reps IH]; intros pre off HF ->; [done|].
  apply Forall_cons_1 in HF as [Hr HF]. change (length (rr :: reps)) with (S (length reps)).
  change (mjoin (write_rr_block <$> rr :: reps))
    with (write_rr_block rr ++ mjoin (write_rr_block <$> reps)). cbn [parse_reports].
  destruct (Z.ltb_spec (blen (pre ++ write_rr_block rr ++ mjoin (write_rr_block <$> reps)))
    (blen pre + RTCP_RR_BLOCK_SIZE)) as [Hb|_].
  { exfalso. revert Hb. lens. unfold RTCP_RR_BLOCK_SIZE.
    pose proof (blen_nonneg (mjoin (write_rr_block <$> reps))). lia. }
  step (parse_write_rr_block pre rr (mjoin (write_rr_block <$> reps)) (blen pre) Hr eq_refl).
  rewrite app_assoc. rewrite (IH (pre ++ write_rr_block rr)); [done|done|]. by lens.
Qed.

(** ** Statistics *)

(** every field is in the range of its C type *)
Record stats_ok (s : rtc_rtcp_stats_t) : Prop := {
  so_u32 : Forall u32_ok [ssrc s; packets_sent s; octets_sent s; rtp_timestamp s; remote_ssrc s;
    packets_received s; packets_expected s; packets_lost s; base_seq s; highest_seq s; jitter s;
    last_transit s; last_sr_ntp s];
  so_recv : 0 <= last_sr_recv_time s < 2 ^ 64;
  so_rep : 0 <= last_report_time s < 2 ^ 64
}.

Lemma u32_u32_ok x : u32_ok (u32 x).
Proof. apply u32_range. Qed.
#[export] Hint Resolve u32_u32_ok : mrtc.

Lemma u32_ok_u16 x : 0 <= x < 2 ^ 16 -> u32_ok x.
Proof. unfold u32_ok. lia. Qed.

Lemma hi_mask x : 0 <= x < 2 ^ 32 -> Z.land x 0xFFFF0000 = x / 2 ^ 16 * 2 ^ 16.
Proof.
  intros Hx. change 0xFFFF0000 with (Z.shiftl (Z.ones 16) 16).
  assert (E : x = Z.lor (Z.shiftl (x / 2 ^ 16) 16) (x mod 2 ^ 16)).
  { rewrite lor_shiftl_add by (try apply Z.mod_pos_bound; lia). pow_eval. dlia. }
  rewrite E at 1. rewrite Z.land_lor_distr_l, <-Z.shiftl_land, Z.land_ones by lia.
  rewrite Z.mod_small by (pow_eval; dlia).
  replace (Z.land (x mod 2 ^ 16) (Z.shiftl (Z.ones 16) 16)) with 0.
  - rewrite Z.lor_0_r. by rewrite Z.shiftl_mul_pow2.
  - apply Z.bits_inj_iff'; intros n Hn. rewrite Z.land_spec, Z.bits_0.
    destruct (Z.lt_ge_cases n 16).
    + rewrite Z.shiftl_spec_low by lia. by rewrite andb_false_r.
    + by rewrite Z.mod_pow2_bits_high by lia.
Qed.

(** [extend_seq] in arithmetic *)
Lemma extend_seq_eq h sq :
  u32_ok h -> 0 <= sq < 2 ^ 16 ->
  extend_seq h sq =
    let e := h / 2 ^ 16 * 2 ^ 16 + sq in
    let e := if 0x8000 <? h mod 2 ^ 16 - sq then u32 (e + 2 ^ 16) else e in Z.max h e.
Proof.
  intros Hh Hsq. unfold extend_seq. rewrite hi_mask by done.
  rewrite <-Z.shiftl_mul_pow2, lor_shiftl_add by lia.
  rewrite ?Z.shiftl_mul_pow2, (land_mask 16) by done. cbv zeta. change 0x10000 with (2 ^ 16).
  replace ((sq <? h mod 2 ^ 16) && (0x8000 <? h mod 2 ^ 16 - sq)) with (0x8000 <? h mod 2 ^ 16 - sq).
  2: { destruct (Z.ltb_spec 0x8000 (h mod 2 ^ 16 - sq)); [|by rewrite andb_false_r].
       symmetry. apply andb_true_intro. split; [apply Z.ltb_lt; lia|done]. }
  destruct (Z.ltb_spec h (if 0x8000 <? h mod 2 ^ 16 - sq
    then u32 (h / 2 ^ 16 * 2 ^ 16 + sq + 2 ^ 16) else h / 2 ^ 16 * 2 ^ 16 + sq)); lia.
Qed.

Lemma extend_seq_ok h sq : u32_ok h -> 0 <= sq < 2 ^ 16 -> u32_ok (extend_seq h sq).
Proof.
  intros Hh Hsq. rewrite extend_seq_eq by done. cbv zeta. unfold u32_ok in *.
  destruct (0x8000 <? _); [pose proof (u32_range (h / 2 ^ 16 * 2 ^ 16 + sq + 2 ^ 16)); lia|].
  pow_eval. dlia.
Qed.

Lemma jitter_step_ok j last t j' : jitter_step j last t = Ok j' -> u32_ok j'.
Proof.
  unfold jitter_step. intros (d & _ & [= <-])%bind_Ok. apply u32_range.
Qed.

(** unpack [stats_ok] *)
Ltac stats_fields H :=
  let Hs := fresh "Hs" in
  destruct H as [Hs ? ?]; repeat (apply Forall_cons_1 in Hs as [? Hs]); clear Hs.

Lemma stats_init_ok sc now : u32_ok sc -> 0 <= now < 2 ^ 64 -> stats_ok (rtc_rtcp_stats_init sc now).
Proof. intros. split; simpl; [|lia|done]. repeat constructor; unfold u32_ok in *; lia. Qed.

Lemma stats_on_rtp_recv_ok s sq ts sc rate now s' :
  stats_ok s -> 0 <= sq < 2 ^ 16 -> u32_ok sc ->
  rtc_rtcp_stats_on_rtp_recv s sq ts sc rate now = Ok s' -> stats_ok s'.
Proof.
  intros H Hsq Hsc. stats_fields H. unfold rtc_rtcp_stats_on_rtp_recv.
  destruct (first_packet s).
  { intros [= <-]. split; simpl; [|lia|lia].
    repeat apply Forall_cons_2; auto using u32_ok_u16; unfold u32_ok; lia. }
  destruct (negb _); [intros [= <-]; split; [repeat apply Forall_cons_2; auto|lia|lia]|].
  cbv zeta. intros ([j t] & Hj & [= <-])%bind_Ok.
  assert (u32_ok j /\ u32_ok t) as [? ?].
  { destruct (0 <? rate); [|by injection Hj as <- <-].
    apply bind_Ok in Hj as (j' & Hj & [= <- <-]). split; [|apply u32_range].
    destruct (negb _); [by eapply jitter_step_ok|by injection Hj as <-]. }
  split; simpl; [|lia|lia].
  repeat apply Forall_cons_2; auto using u32_u32_ok, extend_seq_ok.
  destruct (Z.ltb_spec (u32 (packets_received s + 1)) (u32 (extend_seq (highest_seq s) sq - base_seq s + 1)));
    unfold u32_ok; [|lia].
  pose proof (u32_range (packets_received s + 1)).
  pose proof (u32_range (extend_seq (highest_seq s) sq - base_seq s + 1)). lia.
Qed.

Lemma compact_ntp_eq sec frac :
  u32_ok frac -> compact_ntp sec frac = sec mod 2 ^ 16 * 2 ^ 16 + frac / 2 ^ 16.
Proof.
  intros Hf. unfold compact_ntp. rewrite (land_mask 16) by done.
  rewrite u32_id.
  2: { rewrite Z.shiftl_mul_pow2 by lia. pow_eval. dlia. }
  rewrite lor_shiftl_add; [by rewrite Z.shiftr_div_pow2 by lia|lia|].
  unfold u32_ok in Hf. rewrite Z.shiftr_div_pow2 by lia. pow_eval. dlia.
Qed.

Lemma compact_ntp_ok sec frac : u32_ok frac -> u32_ok (compact_ntp sec frac).
Proof. intros. rewrite compact_ntp_eq by done. unfold u32_ok in *. pow_eval. dlia. Qed.

Lemma stats_on_sr_recv_ok s sr now :
  stats_ok s -> u32_ok (ntp_frac sr) -> 0 <= now < 2 ^ 64 ->
  stats_ok (rtc_rtcp_stats_on_sr_recv s sr now).
Proof.
  intros H ? ?. stats_fields H. split; simpl; [|lia|lia].
  repeat apply Forall_cons_2; auto using compact_ntp_ok.
Qed.

Lemma stats_on_rtp_send_ok s ts n : stats_ok s -> u32_ok ts -> stats_ok (rtc_rtcp_stats_on_rtp_send s ts n).
Proof.
  intros H ?. stats_fields H. split; simpl; [|lia|lia].
  repeat apply Forall_cons_2; auto using u32_u32_ok.
Qed.

Lemma report_blocks_ok s now : stats_ok s -> Forall rr_ok (report_blocks s now).
Proof.
  intros H. stats_fields H. unfold report_blocks. destruct (_ && _); [|constructor].
  constructor; [|constructor]. split; simpl; auto.
  - destruct (0 <? _); [|done]. unfold byte_ok, u8. pow_eval. dlia.
  - destruct (0 <? _); [apply u32_range|]. unfold u32_ok. lia.
Qed.

(** [Forall u32_ok] of a literal list *)
Ltac u32s := repeat first [apply Forall_nil_2 | apply Forall_cons_2]; auto.

(** ** Parsing what was built *)

Lemma blen_blocks reps : blen (mjoin (write_rr_block <$> reps)) = 24 * blen reps.
Proof.
  induction reps as [|rr reps IH]; [done|].
  change (mjoin (write_rr_block <$> rr :: reps))
    with (write_rr_block rr ++ mjoin (write_rr_block <$> reps)). lens. lia.
Qed.
#[export] Hint Rewrite blen_blocks : mrtc_len.

Definition byte0 (rc : Z) : Z := Z.lor (Z.shiftl 2 6) (Z.land (u8 rc) 0x1F).

Lemma byte0_fields rc :
  0 <= rc < 32 ->
  Z.land (Z.shiftr (byte0 rc) 6) 3 = 2 /\ Z.land (Z.shiftr (byte0 rc) 5) 1 = 0 /\
  Z.land (byte0 rc) 0x1F = rc.
Proof.
  intros Hrc. assert (E : byte0 rc = 128 + rc).
  { unfold byte0. assert (Z.land (u8 rc) 0x1F = rc) as -> by solve_arith.
    by rewrite lor_shiftl_add by lia. }
  rewrite E. split_and!; solve_arith.
Qed.

(** the packet of [ws] words and report blocks, and its length field *)
Definition report_pkt (pt : Z) (ws : list Z) (reps : list rtc_rtcp_rr_block_t) : bytes :=
  ([byte0 (blen reps); pt] ++ be16 (u16 ((4 + (4 * blen ws + 24 * blen reps)) / 4 - 1))) ++
  words ws ++ mjoin (write_rr_block <$> reps).

Lemma report_bytes_pkt pt ws reps :
  report_bytes pt (blen reps) (words ws ++ mjoin (write_rr_block <$> reps)) = report_pkt pt ws reps.
Proof. unfold report_bytes, report_pkt, byte0. lens. by rewrite <-app_assoc. Qed.

Lemma report_pkt_len pt ws reps : blen (report_pkt pt ws reps) = 4 + 4 * blen ws + 24 * blen reps.
Proof. unfold report_pkt. lens. lia. Qed.

Lemma report_pkt_reads pt ws reps :
  blen ws < 300 -> blen reps < 32 ->
  let d := report_pkt pt ws reps in
  rd d 0 = Ok (byte0 (blen reps)) /\ rd d 1 = Ok pt /\
  rd_u16 d 2 = Ok (blen ws + 6 * blen reps).
Proof.
  intros Hw Hr d. pose proof (blen_nonneg ws). pose proof (blen_nonneg reps). split_and!; [done..|].
  subst d. unfold report_pkt. rewrite <-!app_assoc.
  assert (E : (4 + (4 * blen ws + 24 * blen reps)) / 4 - 1 = blen ws + 6 * blen reps) by dlia.
  rewrite E, u16_id by lia. apply (rd_u16_at [byte0 (blen reps); pt]); [done|lia].
Qed.

Lemma parse_reports_pkt pt ws reps off :
  Forall rr_ok reps -> blen reps < 32 -> off = 4 + 4 * blen ws ->
  parse_reports (Z.to_nat (Z.min (blen reps) 31)) (report_pkt pt ws reps) off = Ok (rr_wire <$> reps).
Proof.
  intros HF Hr ->. rewrite Z.min_l by lia. unfold blen at 1. rewrite Nat2Z.id.
  unfold report_pkt. rewrite app_assoc. apply parse_write_reports; [done|]. by lens.
Qed.

Lemma parse_sr_pkt sc sec frac ts pc oc reps :
  Forall u32_ok [sc; sec; frac; ts; pc; oc] -> Forall rr_ok reps -> blen reps < 32 ->
  let d := report_pkt RTCP_PT_SR [sc; sec; frac; ts; pc; oc] reps in
  rtc_rtcp_parse d =
    Ok (Pkt (Hdr 2 false (blen reps) RTCP_PT_SR (6 + 6 * blen reps)) sc
          (Sr sc sec frac ts pc oc) (rr_wire <$> reps) d).
Proof.
  intros HF Hreps Hr d. repeat (apply Forall_cons_1 in HF as [? HF]). clear HF.
  pose proof (blen_nonneg reps). set (ws := [sc; sec; frac; ts; pc; oc]) in *.
  assert (Hws : blen ws = 6) by done.
  destruct (report_pkt_reads RTCP_PT_SR ws reps) as (R0 & R1 & R2); [lia|lia|].
  pose proof (report_pkt_len RTCP_PT_SR ws reps) as Hl. fold d in R0, R1, R2, Hl.
  destruct (byte0_fields (blen reps)) as (F1 & F2 & F3); [lia|].
  unfold rtc_rtcp_parse, RTCP_SR_SIZE. cbv zeta. pass_guard. step R0. rewrite F1.
  rewrite (bind_Ok_l _ _ ()) by done. step R1. step R2. pass_guard.
  assert (W : forall i w, ws !! i = Some w -> u32_ok w -> rd_u32 d (4 + 4 * Z.of_nat i) = Ok w).
  { intros i w Hi Hw. by eapply rd_words. }
  rewrite (bind_Ok_l _ _ _ (W 0%nat sc eq_refl ltac:(done))). rewrite Z.eqb_refl. pass_guard.
  rewrite (bind_Ok_l _ _ _ (W 1%nat sec eq_refl ltac:(done))).
  rewrite (bind_Ok_l _ _ _ (W 2%nat frac eq_refl ltac:(done))).
  rewrite (bind_Ok_l _ _ _ (W 3%nat ts eq_refl ltac:(done))).
  rewrite (bind_Ok_l _ _ _ (W 4%nat pc eq_refl ltac:(done))).
  rewrite (bind_Ok_l _ _ _ (W 5%nat oc eq_refl ltac:(done))). cbn [mbind res_bind].
  rewrite F2, F3. unfold d. rewrite parse_reports_pkt by done. fold d. cbn [mbind res_bind].
  rewrite (proj2 (Z.leb_le (blen d) RTCP_MAX_PACKET)); [done|]. unfold RTCP_MAX_PACKET. lia.
Qed.

Lemma parse_rr_pkt sc reps :
  u32_ok sc -> Forall rr_ok reps -> blen reps < 32 ->
  let d := report_pkt RTCP_PT_RR [sc] reps in
  rtc_rtcp_parse d =
    Ok (Pkt (Hdr 2 false (blen reps) RTCP_PT_RR (1 + 6 * blen reps)) sc sr_zero (rr_wire <$> reps) d).
Proof.
  intros Hsc Hreps Hr d. pose proof (blen_nonneg reps). assert (Hws : blen [sc] = 1) by done.
  destruct (report_pkt_reads RTCP_PT_RR [sc] reps) as (R0 & R1 & R2); [lia|lia|].
  pose proof (report_pkt_len RTCP_PT_RR [sc] reps) as Hl. fold d in R0, R1, R2, Hl.
  destruct (byte0_fields (blen reps)) as (F1 & F2 & F3); [lia|].
  unfold rtc_rtcp_parse. cbv zeta. pass_guard. step R0. rewrite F1.
  rewrite (bind_Ok_l _ _ ()) by done. step R1. step R2. pass_guard.
  assert (W : rd_u32 d 4 = Ok sc) by (by apply (rd_words 0)).
  step W. change (RTCP_PT_RR =? RTCP_PT_SR) with false. cbn [mbind res_bind].
  rewrite F2, F3. unfold d. rewrite parse_reports_pkt by done. fold d. cbn [mbind res_bind].
  rewrite (proj2 (Z.leb_le (blen d) RTCP_MAX_PACKET)); [done|]. unfold RTCP_MAX_PACKET. lia.
Qed.

Lemma report_blocks_len s now : 0 <= blen (report_blocks s now) <= 1.
Proof. unfold report_blocks. destruct (_ && _); by vm_compute. Qed.

Lemma get_ntp_time_ok unix : u32_ok (fst (get_ntp_time unix)) /\ u32_ok (snd (get_ntp_time unix)).
Proof. split; apply u32_range. Qed.

Lemma build_sr_ok s now unix :
  let reps := report_blocks s now in
  let ntp := get_ntp_time unix in
  let d := report_pkt RTCP_PT_SR [ssrc s; ntp.1; ntp.2; rtp_timestamp s; packets_sent s; octets_sent s] reps in
  rtc_rtcp_build_sr s now unix =
    Ok (Pkt (Hdr 2 false (blen reps) RTCP_PT_SR (6 + 6 * blen reps)) (ssrc s)
         (Sr (ssrc s) ntp.1 ntp.2 (rtp_timestamp s) (packets_sent s) (octets_sent s)) reps d).
Proof.
  intros reps ntp d. pose proof (report_blocks_len s now) as Hn. fold reps in Hn.
  unfold rtc_rtcp_build_sr. fold ntp reps. destruct ntp as [sec frac]. cbn [fst snd] in *.
  pose proof (report_bytes_pkt RTCP_PT_SR
    [ssrc s; sec; frac; rtp_timestamp s; packets_sent s; octets_sent s] reps) as E.
  rewrite !words_cons, <-!app_assoc in E. cbn [words mjoin] in E.
  change (words [] ++ mjoin (write_rr_block <$> reps)) with (mjoin (write_rr_block <$> reps)) in E.
  cbv zeta. rewrite E. fold d.
  assert (Hl : blen d = 28 + 24 * blen reps) by apply report_pkt_len.
  assert (RTCP_MAX_PACKET = 1400) by done. pass_guard.
  assert (blen d / 4 - 1 = 6 + 6 * blen reps) as -> by dlia.
  assert (u8 (blen reps) = blen reps) as -> by (apply Z.mod_small; lia).
  by rewrite (u16_id (6 + _)) by lia.
Qed.

Lemma build_rr_ok s now :
  let reps := report_blocks s now in
  let d := report_pkt RTCP_PT_RR [ssrc s] reps in
  rtc_rtcp_build_rr s now =
    Ok (Pkt (Hdr 2 false (blen reps) RTCP_PT_RR (1 + 6 * blen reps)) (ssrc s) sr_zero reps d).
Proof.
  intros reps d. pose proof (report_blocks_len s now) as Hn. fold reps in Hn.
  unfold rtc_rtcp_build_rr. fold reps.
  pose proof (report_bytes_pkt RTCP_PT_RR [ssrc s] reps) as E.
  rewrite words_cons, <-app_assoc in E.
  change (words [] ++ mjoin (write_rr_block <$> reps)) with (mjoin (write_rr_block <$> reps)) in E.
  cbv zeta. rewrite E. fold d.
  assert (Hl : blen d = 8 + 24 * blen reps) by apply report_pkt_len.
  assert (RTCP_MAX_PACKET = 1400) by done. pass_guard.
  assert (blen d / 4 - 1 = 1 + 6 * blen reps) as -> by dlia.
  assert (u8 (blen reps) = blen reps) as -> by (apply Z.mod_small; lia).
  by rewrite (u16_id (1 + _)) by lia.
Qed.

(** ** Parser safety *)

Lemma parse_rr_block_no_fault d off :
  0 <= off -> off + 24 <= blen d -> no_fault (parse_rr_block d off).
Proof. intros. unfold parse_rr_block. cbv zeta. safe. Qed.

Lemma parse_reports_no_fault n d off : 0 <= off -> no_fault (parse_reports n d off).
Proof.
  revert off. induction n as [|n IH]; intros off Hoff; cbn [parse_reports]; [done|].
  destruct (Z.ltb_spec (blen d) (off + RTCP_RR_BLOCK_SIZE)) as [_|Hb]; [done|].
  unfold RTCP_RR_BLOCK_SIZE in Hb.
  apply no_fault_bind; [by apply parse_rr_block_no_fault|intros rr _].
  apply no_fault_bind; [apply IH; lia|intros; apply no_fault_Ok].
Qed.

Lemma parse_reports_count n d off reps :
  0 <= off -> parse_reports n d off = Ok reps ->
  (length reps <= n)%nat /\ (reps <> [] -> off + 24 * blen reps <= blen d).
Proof.
  revert off reps. induction n as [|n IH]; intros off reps Hoff; cbn [parse_reports].
  { intros [= <-]. split; [simpl; lia|done]. }
  destruct (Z.ltb_spec (blen d) (off + RTCP_RR_BLOCK_SIZE)) as [_|Hb].
  { intros [= <-]. split; [simpl; lia|done]. }
  unfold RTCP_RR_BLOCK_SIZE in Hb. intros (rr & _ & (rest & Hr & [= <-])%bind_Ok)%bind_Ok.
  destruct (IH (off + 24) rest ltac:(lia) Hr) as [? Hrest]. split; [simpl; lia|intros _]. lens.
  destruct rest as [|x rest]; [lens; lia|]. specialize (Hrest ltac:(done)). lia.
Qed.

Lemma rtcp_parse_no_fault d : no_fault (rtc_rtcp_parse d).
Proof.
  unfold rtc_rtcp_parse, RTCP_SR_SIZE. cbv zeta.
  apply no_fault_bind; [apply no_fault_fail_if|intros ? Hl%fail_if_Ok%Z.ltb_ge].
  apply no_fault_bind; [apply no_fault_rd; lia|intros b0 _].
  apply no_fault_bind; [apply no_fault_fail_if|intros ? _].
  apply no_fault_bind; [apply no_fault_rd; lia|intros pt _].
  apply no_fault_bind; [apply no_fault_rd_u16; lia|intros len _].
  apply no_fault_bind; [apply no_fault_fail_if|intros ? _].
  apply no_fault_bind; [apply no_fault_rd_u32; lia|intros sc _].
  apply no_fault_bind.
  { destruct (pt =? RTCP_PT_SR); [|done].
    apply no_fault_bind; [apply no_fault_fail_if|intros ? Hb%fail_if_Ok%Z.ltb_ge].
    repeat (apply no_fault_bind; [apply no_fault_rd_u32; lia|intros ? _]). done. }
  intros [sr off] Hp. apply no_fault_bind; [|intros; apply no_fault_Ok].
  apply parse_reports_no_fault. destruct (pt =? RTCP_PT_SR); [|by injection Hp as <- <-].
  do 6 (apply bind_Ok in Hp as (? & _ & Hp)). by injection Hp as <- <-.
Qed.

Lemma rtcp_parse_inv d p :
  rtc_rtcp_parse d = Ok p ->
  h_version (pk_header p) = 2 /\ 8 <= blen d /\ blen (reports p) <= h_count (pk_header p) <= 31 /\
  24 * blen (reports p) <= blen d.
Proof.
  unfold rtc_rtcp_parse. cbv zeta.
  intros (_ & Hl%fail_if_Ok%Z.ltb_ge & (b0 & _ & (_ & Hv%fail_if_Ok & Hr)%bind_Ok)%bind_Ok)%bind_Ok.
  apply negb_false_iff, Z.eqb_eq in Hv. do 4 (apply bind_Ok in Hr as (? & _ & Hr)).
  apply bind_Ok in Hr as ([sr off] & Hp & (reps & Hreps & [= <-])%bind_Ok). simpl.
  assert (Hoff : 0 <= off).
  { destruct (_ =? _); [|by injection Hp as <- <-].
    do 6 (apply bind_Ok in Hp as (? & _ & Hp)). by injection Hp as <- <-. }
  assert (0 <= Z.land b0 31 <= 31) by (rewrite (land_mask 5) by done; pow_eval; dlia).
  apply parse_reports_count in Hreps as [Hc Hb]; [|done].
  assert (blen reps <= Z.min (Z.land b0 31) 31) by (unfold blen; lia).
  split_and!; try (done || lia). destruct reps; [lens; lia|]. specialize (Hb ltac:(done)). lia.
Qed.

(** ** Error codes of the parser *)

Lemma parse_reports_err n d off : err_is RTC_ERR_INVALID (parse_reports n d off).
Proof.
  revert off. induction n as [|n IH]; intros off; cbn [parse_reports]; [done|].
  destruct (_ <? _); [done|]. apply err_is_bind; [unfold parse_rr_block; errs|intros].
  apply err_is_bind; [apply IH|done].
Qed.

Lemma rtcp_parse_err d e : rtc_rtcp_parse d = Err e -> e = RTC_ERR_INVALID.
Proof.
  assert (H : err_is RTC_ERR_INVALID (rtc_rtcp_parse d)).
  { unfold rtc_rtcp_parse. errs. apply parse_reports_err. }
  apply H.
Qed.

(** ** Round-trip time *)

(** NTP time in units of 2^-16 s since the Unix epoch, as the code rounds it *)
Definition ntp16 (t : Z) : Z := t / 1000 * 2 ^ 16 + t mod 1000 * 4294967 / 2 ^ 16.

Lemma compact_now t :
  0 <= t ->
  compact_ntp (u32 (u32 (t / 1000) + 2208988800)) (u32 (t mod 1000 * 4294967))
  = u32 (ntp16 t + 2208988800 * 2 ^ 16).
Proof.
  intros Ht. rewrite compact_ntp_eq by apply u32_range. unfold ntp16, u32.
  rewrite (Z.mod_small (t mod 1000 * 4294967)) by (pow_eval; dlia). pow_eval. dlia.
Qed.

Lemma get_ntp_time_compact t :
  0 <= t ->
  compact_ntp (get_ntp_time t).1 (get_ntp_time t).2 = u32 (ntp16 t + 2208988800 * 2 ^ 16).
Proof.
  intros Ht. cbn [get_ntp_time fst snd]. rewrite (u32_id (t mod 1000)) by (pow_eval; dlia).
  by apply compact_now.
Qed.

Lemma ntp16_bounds t : 0 <= t -> 65536 * t - 1005 <= 1000 * ntp16 t <= 65536 * t.
Proof. intros Ht. unfold ntp16. pow_eval. dlia. Qed.

(** the estimate in terms of the exact difference [x], modulo 2^32 *)
Lemma rtt_from_diff rr t0 t1 :
  0 <= t0 -> 0 <= t1 -> last_sr rr = u32 (ntp16 t0 + 2208988800 * 2 ^ 16) -> last_sr rr <> 0 ->
  rtc_rtcp_rtt_from_rr rr t1 = u32 (ntp16 t1 - ntp16 t0 - delay_since_sr rr) * 1000 / 2 ^ 16.
Proof.
  intros H0 H1 Hl Hn. unfold rtc_rtcp_rtt_from_rr. rewrite (proj2 (Z.eqb_neq _ _) Hn).
  rewrite compact_now by done. rewrite Hl.
  set (A := ntp16 t1). set (B := ntp16 t0). set (D := delay_since_sr rr).
  assert (E : u32 (u32 (u32 (A + 2208988800 * 2 ^ 16) - u32 (B + 2208988800 * 2 ^ 16)) - D)
              = u32 (A - B - D)).
  { unfold u32. rewrite <-Zminus_mod, Zminus_mod_idemp_l. f_equal. lia. }
  cbv zeta. rewrite E. pose proof (u32_range (A - B - D)) as Hr.
  set (X := u32 (A - B - D)) in *. rewrite Z.shiftr_div_pow2, u64_id by lia.
  assert (0 <= X * 1000 / 2 ^ 16 < 2 ^ 31) by (pow_eval; dlia).
  assert (s32 (X * 1000 / 2 ^ 16) = X * 1000 / 2 ^ 16) as ->.
  { unfold s32, sint. rewrite Z.mod_small by lia. change (32 - 1) with 31.
    destruct (Z.ltb_spec (X * 1000 / 2 ^ 16) (2 ^ 31)); lia. }
  destruct (Z.ltb_spec (X * 1000 / 2 ^ 16) 0); lia.
Qed.

Lemma rtt_accurate rr t0 t1 delay :
  0 <= t0 -> 0 <= delay -> 1 <= t1 - t0 - delay < 65000000 ->
  last_sr rr = u32 (ntp16 t0 + 2208988800 * 2 ^ 16) -> last_sr rr <> 0 ->
  delay_since_sr rr = delay * 65536 / 1000 ->
  let rtt := t1 - t0 - delay in rtt - 1 <= rtc_rtcp_rtt_from_rr rr t1 <= rtt.
Proof.
  intros H0 Hd Hr Hl Hn Hdl rtt. rewrite (rtt_from_diff rr t0 t1) by (done || lia). rewrite Hdl.
  pose proof (ntp16_bounds t0 H0). pose proof (ntp16_bounds t1 ltac:(lia)).
  assert (65536 * delay - 1000 <= 1000 * (delay * 65536 / 1000) <= 65536 * delay) by dlia.
  set (A := ntp16 t1) in *. set (B := ntp16 t0) in *. set (D := delay * 65536 / 1000) in *.
  rewrite u32_id by (pow_eval; lia). subst rtt. pow_eval. dlia.
Qed.

(** ** Sequence tracking

    A received packet is given by its true (unwrapped) sequence number, its
    timestamp and the time of its arrival. *)

Record arrival := Arr { a_ext : Z; a_ts : Z; a_now : Z }.

Definition transit_of (rate : Z) (a : arrival) : Z :=
  u32 (u32 (u64 (a_now a * rate) / 1000) - a_ts a).

Definition recv_one (sc rate : Z) (s : rtc_rtcp_stats_t) (a : arrival) : res rtc_rtcp_stats_t :=
  rtc_rtcp_stats_on_rtp_recv s (u16 (a_ext a)) (a_ts a) sc rate (a_now a).

Fixpoint recv_all (sc rate : Z) (s : rtc_rtcp_stats_t) (tr : list arrival) : res rtc_rtcp_stats_t :=
  match tr with
  | [] => Ok s
  | a :: tr => s' ← recv_one sc rate s a; recv_all sc rate s' tr
  end.

(** Each packet is new and at most 2^15 - 1 ahead of the highest one [h], or
    late by at most 2^15 in the same cycle; two successive transit times do
    not differ by exactly 2^31 (whose absolute value is no [int32_t]). *)
Fixpoint trace_ok (rate h lt : Z) (tr : list arrival) : Prop :=
  match tr with
  | [] => True
  | a :: tr =>
      (h < a_ext a < h + 2 ^ 15 \/
       (0 <= h - a_ext a <= 2 ^ 15 /\ a_ext a / 2 ^ 16 = h / 2 ^ 16)) /\
      0 <= a_ext a < 2 ^ 32 /\
      (0 < rate -> s32 (transit_of rate a - lt) <> - 2 ^ 31) /\
      trace_ok rate (Z.max h (a_ext a)) (if 0 <? rate then transit_of rate a else lt) tr
  end.

Lemma extend_seq_tracks h e :
  u32_ok h -> 0 <= e < 2 ^ 32 ->
  h < e < h + 2 ^ 15 \/ (0 <= h - e <= 2 ^ 15 /\ e / 2 ^ 16 = h / 2 ^ 16) ->
  extend_seq h (u16 e) = Z.max h e.
Proof.
  intros Hh He Hc. rewrite extend_seq_eq by (done || apply u16_range). cbv zeta.
  unfold u32_ok, u16, u32 in *. pow_eval.
  destruct (Z.ltb_spec 32768 (h mod 65536 - e mod 65536)).
  - assert (e / 65536 = h / 65536 + 1 /\ h < e) as [E ?] by dlia.
    rewrite (Z.mod_small (_ + 65536)) by dlia. dlia.
  - assert (e / 65536 = h / 65536) by dlia. f_equal. dlia.
Qed.

Lemma jitter_step_total j last t :
  s32 (t - last) <> - 2 ^ 31 -> exists j', jitter_step j last t = Ok j'.
Proof.
  intros Hd. unfold jitter_step. destruct (s32 (t - last) <? 0); simpl; [|eauto].
  rewrite (proj2 (Z.eqb_neq _ _) Hd). simpl. eauto.
Qed.

(** the part of the statistics that follows the sequence numbers *)
Definition tracks (sc e0 h n lt : Z) (s : rtc_rtcp_stats_t) : Prop :=
  first_packet s = false /\ remote_ssrc s = sc /\ base_seq s = e0 /\ highest_seq s = h /\
  packets_received s = n /\ packets_expected s = h - e0 + 1 /\
  packets_lost s = Z.max 0 (h - e0 + 1 - n) /\ last_transit s = lt.

Lemma recv_one_tracks sc rate e0 h n lt s a :
  tracks sc e0 h n lt s -> 0 <= e0 <= h -> u32_ok h -> 0 <= n -> n + 1 < 2 ^ 32 ->
  h - e0 + 2 ^ 15 < 2 ^ 32 -> 0 <= rate -> trace_ok rate h lt [a] ->
  exists s', recv_one sc rate s a = Ok s' /\
    tracks sc e0 (Z.max h (a_ext a)) (n + 1) (if 0 <? rate then transit_of rate a else lt) s'.
Proof.
  intros (Hf & Hsc & Hb & Hh & Hn & Hx & Hl & Ht) He0 Hu Hn0 Hn1 Hspan Hrate (Hc & He & Hj & _).
  unfold recv_one, rtc_rtcp_stats_on_rtp_recv. rewrite Hf, Hsc, Z.eqb_refl, Hh, Hb, Hn. simpl negb.
  cbv iota zeta. rewrite extend_seq_tracks by done. fold (transit_of rate a).
  rewrite (u32_id (n + 1)), (u32_id (Z.max h (a_ext a) - e0 + 1)) by (unfold u32_ok in *; lia).
  assert (exists j, (if 0 <? rate then
      j ← (if negb (last_transit s =? 0) then jitter_step (jitter s) (last_transit s) (transit_of rate a)
           else Ok (jitter s)); Ok (j, transit_of rate a)
    else Ok (jitter s, last_transit s)) = Ok (j, if 0 <? rate then transit_of rate a else lt)) as [j ->].
  { rewrite Ht. destruct (Z.ltb_spec 0 rate); [|eauto]. destruct (negb _); [|simpl; eauto].
    destruct (jitter_step_total (jitter s) lt (transit_of rate a)) as [j' ->]; [auto|]. simpl. eauto. }
  cbn [mbind res_bind]. eexists. split; [done|]. unfold tracks. simpl. split_and!; auto.
  destruct (Z.ltb_spec (n + 1) (Z.max h (a_ext a) - e0 + 1)); lia.
Qed.

Definition highest_of (h : Z) (tr : list arrival) : Z := foldl Z.max h (a_ext <$> tr).

Lemma highest_of_ge h tr : h <= highest_of h tr.
Proof.
  revert h. induction tr as [|a tr IH]; intros h; [unfold highest_of; simpl; lia|].
  specialize (IH (Z.max h (a_ext a))).
  change (highest_of h (a :: tr)) with (highest_of (Z.max h (a_ext a)) tr). lia.
Qed.

Lemma recv_all_tracks tr sc rate e0 h n lt s :
  tracks sc e0 h n lt s -> 0 <= e0 <= h -> u32_ok h -> 0 <= n -> n + blen tr < 2 ^ 32 ->
  highest_of h tr - e0 + 2 ^ 15 < 2 ^ 32 -> 0 <= rate -> trace_ok rate h lt tr ->
  exists s' lt', recv_all sc rate s tr = Ok s' /\
    tracks sc e0 (highest_of h tr) (n + blen tr) lt' s'.
Proof.
  revert h n lt s. induction tr as [|a tr IH]; intros h n lt s Hs He0 Hu Hn0 Hn1 Hspan Hr Ht.
  { exists s, lt. split; [done|]. unfold highest_of. simpl. lens. by rewrite Z.add_0_r. }
  lens. pose proof (blen_nonneg tr). destruct Ht as (Hc & He & Hj & Ht).
  pose proof (highest_of_ge (Z.max h (a_ext a)) tr) as Hge.
  change (highest_of h (a :: tr)) with (highest_of (Z.max h (a_ext a)) tr) in *.
  destruct (recv_one_tracks sc rate e0 h n lt s a) as (s' & E & Hs'); try (done || lia).
  cbn [recv_all]. rewrite E. cbn [mbind res_bind].
  destruct (IH _ _ _ _ Hs') as (s2 & lt2 & E2 & Hs2); try (done || lia).
  { unfold u32_ok in *. lia. }
  exists s2, lt2. split; [done|]. by replace (n + (1 + blen tr)) with (n + 1 + blen tr) by lia.
Qed.

(** ** Properties *)

(** C30: Reports round-trip.  A sender or receiver report is built without
    overrunning the packet buffer from any statistics, and parsing its bytes
    gives the same packet: sender information, report block (the cumulative
    loss cut to its 24 signed bits), and length field. *)
Theorem rtcp_report_roundtrip s now unix :
  stats_ok s ->
  (exists p, rtc_rtcp_build_sr s now unix = Ok p /\
    rtc_rtcp_parse (buf p) =
      Ok (Pkt (pk_header p) (pk_sender_ssrc p) (pk_sr p) (rr_wire <$> reports p) (buf p)) /\
    blen (buf p) = 4 * (h_length (pk_header p) + 1)) /\
  (exists p, rtc_rtcp_build_rr s now = Ok p /\
    rtc_rtcp_parse (buf p) =
      Ok (Pkt (pk_header p) (pk_sender_ssrc p) (pk_sr p) (rr_wire <$> reports p) (buf p)) /\
    blen (buf p) = 4 * (h_length (pk_header p) + 1)).
Proof.
  intros Hs. pose proof (report_blocks_ok s now Hs) as Hr. pose proof (report_blocks_len s now).
  stats_fields Hs. destruct (get_ntp_time_ok unix). split.
  - eexists. split; [apply build_sr_ok|]. cbn [pk_header pk_sender_ssrc pk_sr reports buf h_length].
    split; [apply parse_sr_pkt; [u32s|done|lia]|].
    rewrite report_pkt_len. change (blen [_; _; _; _; _; _]) with 6. lia.
  - eexists. split; [apply build_rr_ok|]. cbn [pk_header pk_sender_ssrc pk_sr reports buf h_length].
    split; [apply parse_rr_pkt; [done|done|lia]|].
    rewrite report_pkt_len. change (blen [_]) with 1. lia.
Qed.

(** The RTCP report parser is memory safe and total on every byte
    string; it accepts only version 2 and never yields more report blocks
    than the count field or the array of 31 allows. *)
Theorem rtcp_parse_safe d :
  match rtc_rtcp_parse d with
  | Ok p => h_version (pk_header p) = 2 /\ 8 <= blen d /\
            blen (reports p) <= h_count (pk_header p) <= 31 /\
            24 * blen (reports p) <= blen d
  | Err e => e = RTC_ERR_INVALID
  | Fault => False
  end.
Proof.
  pose proof (rtcp_parse_no_fault d) as Hs.
  destruct (rtc_rtcp_parse d) as [p|e|] eqn:E; [by apply rtcp_parse_inv| |by apply Hs].
  by eapply rtcp_parse_err.
Qed.

(** C31: The round-trip time is right to a millisecond.  [a] sends a report
    at wall-clock time [t0]; [b] receives it at its own time [u0] and reports
    back at [u1]; [a] processes that report at [t1].  If the time in flight is
    at least 1 ms, the exchange takes less than 65,000 s (18 hours) and the
    compact form of [t0] is not 0 (which stands for no report), the computed
    value is that time, rounded down by at most 1 ms. *)
Theorem rtt_end_to_end a b now t0 t1 u0 u1 :
  stats_ok a -> stats_ok b -> remote_ssrc b <> 0 -> first_packet b = false ->
  0 <= t0 -> 0 < u0 <= u1 -> u1 < 2 ^ 64 -> 1 <= t1 - t0 - (u1 - u0) -> t1 - t0 < 65000000 ->
  compact_ntp (get_ntp_time t0).1 (get_ntp_time t0).2 <> 0 ->
  exists sr p rp q rr,
    rtc_rtcp_build_sr a now t0 = Ok sr /\ rtc_rtcp_parse (buf sr) = Ok p /\
    rtc_rtcp_build_rr (rtc_rtcp_stats_on_sr_recv b (pk_sr p) u0) u1 = Ok rp /\
    rtc_rtcp_parse (buf rp) = Ok q /\ reports q = [rr] /\
    let flight := t1 - t0 - (u1 - u0) in
    flight - 1 <= rtc_rtcp_rtt_from_rr rr t1 <= flight.
Proof.
  intros Ha Hb Hrem Hfp Ht0 Hu Hu1 Hfl Hspan Hnz.
  pose proof (report_blocks_ok a now Ha) as Hra. pose proof (report_blocks_len a now).
  destruct (get_ntp_time_ok t0) as [Hs Hf].
  set (b' := rtc_rtcp_stats_on_sr_recv b
    (Sr (ssrc a) (get_ntp_time t0).1 (get_ntp_time t0).2 (rtp_timestamp a) (packets_sent a)
       (octets_sent a)) u0).
  assert (Hb' : stats_ok b') by (apply stats_on_sr_recv_ok; [done|done|lia]).
  pose proof (report_blocks_ok b' u1 Hb') as Hrb. pose proof (report_blocks_len b' u1).
  assert (E : report_blocks b' u1 = [report_block b' u1]).
  { unfold report_blocks. cbn. rewrite (proj2 (Z.eqb_neq _ _) Hrem), Hfp. done. }
  stats_fields Ha. pose proof Hb' as Hb2. stats_fields Hb2.
  do 4 eexists. exists (rr_wire (report_block b' u1)).
  split; [apply build_sr_ok|]. cbn [buf].
  split; [apply parse_sr_pkt; [u32s|done|lia]|]. cbn [pk_sr]. fold b'.
  split; [apply build_rr_ok|]. cbn [buf].
  split; [apply parse_rr_pkt; [done|done|lia]|]. cbn [reports].
  split; [by rewrite E|]. apply rtt_accurate; [done|lia|lia| |done|].
  - by apply get_ntp_time_compact.
  - cbn. rewrite (proj2 (Z.ltb_lt 0 u0)) by lia. rewrite (u64_id (u1 - u0)) by lia.
    rewrite u64_id, u32_id by (pow_eval; dlia). done.
Qed.

(** The reception statistics follow the true sequence numbers.  For a
    stream that starts in the first cycle and whose packets arrive less than
    2^15 ahead of the highest one, or late within its cycle, across any number
    of wraps: the extended highest sequence number is the true one, and the
    expected, received and lost counts are those of RFC 3550 A.3. *)
Theorem stats_track_stream s0 sc rate a0 tr :
  first_packet s0 = true -> packets_lost s0 = 0 -> last_transit s0 = 0 ->
  0 <= a_ext a0 < 2 ^ 16 -> 0 <= rate -> trace_ok rate (a_ext a0) 0 tr ->
  1 + blen tr < 2 ^ 32 -> highest_of (a_ext a0) tr - a_ext a0 + 2 ^ 15 < 2 ^ 32 ->
  exists s, recv_all sc rate s0 (a0 :: tr) = Ok s /\
    let highest := highest_of (a_ext a0) tr in
    highest_seq s = highest /\ packets_received s = 1 + blen tr /\
    packets_expected s = highest - a_ext a0 + 1 /\
    packets_lost s = Z.max 0 (packets_expected s - packets_received s).
Proof.
  intros Hf Hl Ht He Hr Htr Hn Hspan. cbn [recv_all]. unfold recv_one at 1, rtc_rtcp_stats_on_rtp_recv.
  rewrite Hf, Hl, Ht. rewrite u16_id by lia. cbn [mbind res_bind].
  match goal with |- context [recv_all sc rate ?s tr] => set (s1 := s) end.
  destruct (recv_all_tracks tr sc rate (a_ext a0) (a_ext a0) 1 0 s1)
    as (s & lt & E & _ & _ & _ & Hh & Hrc & Hx & Hlo & _); try (done || lia).
  - unfold tracks, s1. simpl. split_and!; auto; lia.
  - unfold u32_ok. lia.
  - exists s. split; [done|]. cbv zeta. rewrite Hx, Hrc. split_and!; auto.
Qed.

(** An RTT of zero can read as eighteen hours.  When the report arrives
    exactly the peer's 125 ms delay after a report sent on a full second, the
    rounded difference is negative, wraps at 32 bits, and the result is
    65535999 ms: the clamp at zero tests the value after the wrap. *)
Theorem rtt_zero_wraps rr k :
  0 <= k -> last_sr rr = compact_ntp (get_ntp_time (1000 * k)).1 (get_ntp_time (1000 * k)).2 ->
  last_sr rr <> 0 -> delay_since_sr rr = 125 * 65536 / 1000 ->
  rtc_rtcp_rtt_from_rr rr (1000 * k + 125) = 65535999.
Proof.
  intros Hk Hl Hn Hd. rewrite get_ntp_time_compact in Hl by lia.
  rewrite (rtt_from_diff rr (1000 * k)) by (done || lia). rewrite Hd.
  assert (ntp16 (1000 * k + 125) - ntp16 (1000 * k) - 125 * 65536 / 1000 = -1) as ->; [|done].
  unfold ntp16. pow_eval. dlia.
Qed.

(** The jitter estimate overflows when it should decrease.  If the new
    transit difference is more than 8 below the current estimate, the
    unsigned subtraction wraps and the estimate jumps to at least 2^28. *)
Theorem jitter_decrease_overflows j last t :
  s32 (t - last) <> - 2 ^ 31 -> Z.abs (s32 (t - last)) + 8 < j < 2 ^ 31 ->
  exists j', jitter_step j last t = Ok j' /\ 2 ^ 28 <= j'.
Proof.
  intros Hd Hj. unfold jitter_step. set (d := s32 (t - last)) in *.
  exists (u32 (j + Z.shiftr (u32 (u32 (Z.abs d) - j + 8)) 4)). split.
  - destruct (Z.ltb_spec d 0); cbn [mbind res_bind]; [|by rewrite Z.abs_eq by lia].
    rewrite (proj2 (Z.eqb_neq _ _) Hd). cbn [fault_if mbind res_bind]. by rewrite Z.abs_neq by lia.
  - rewrite (u32_id (Z.abs d)) by lia. rewrite Z.shiftr_div_pow2 by lia. unfold u32. pow_eval. dlia.
Qed.

(** A late packet from before a wrap advances the highest sequence
    number by a whole cycle: [k] behind a highest number whose low half is
    smaller than [k] is taken for 65536 - k ahead. *)
Theorem late_packet_skips_cycle h k :
  2 ^ 16 <= h < 2 ^ 32 -> h mod 2 ^ 16 < k <= 2 ^ 15 ->
  extend_seq h (u16 (h - k)) = h - k + 2 ^ 16.
Proof.
  intros Hh Hk. rewrite extend_seq_eq by (apply u16_range || (unfold u32_ok; lia)). cbv zeta.
  unfold u16, u32. pow_eval. destruct (Z.ltb_spec 32768 (h mod 65536 - (h - k) mod 65536)); dlia.
Qed.

(** ** Witnesses *)

Definition stats0 : rtc_rtcp_stats_t :=
  Stats 0x1111 10 2000 90000 0x2222 90 100 10 65530 65629 12 34 false 0x12345678 5000 0.

Lemma stats0_ok : stats_ok stats0.
Proof. split; [u32s; done|done|done]. Qed.

Lemma rtcp_report_roundtrip_witness :
  (exists p, rtc_rtcp_build_sr stats0 6000 1700000000123 = Ok p /\
    rtc_rtcp_parse (buf p) =
      Ok (Pkt (pk_header p) (pk_sender_ssrc p) (pk_sr p) (rr_wire <$> reports p) (buf p)) /\
    blen (buf p) = 4 * (h_length (pk_header p) + 1)) /\
  (exists p, rtc_rtcp_build_rr stats0 6000 = Ok p /\
    rtc_rtcp_parse (buf p) =
      Ok (Pkt (pk_header p) (pk_sender_ssrc p) (pk_sr p) (rr_wire <$> reports p) (buf p)) /\
    blen (buf p) = 4 * (h_length (pk_header p) + 1)).
Proof. exact (rtcp_report_roundtrip stats0 6000 1700000000123 stats0_ok). Defined.

Lemma rtt_end_to_end_witness :
  exists sr p rp q rr,
    rtc_rtcp_build_sr stats0 0 1700000000123 = Ok sr /\ rtc_rtcp_parse (buf sr) = Ok p /\
    rtc_rtcp_build_rr (rtc_rtcp_stats_on_sr_recv stats0 (pk_sr p) 4000) 4500 = Ok rp /\
    rtc_rtcp_parse (buf rp) = Ok q /\ reports q = [rr] /\
    80 - 1 <= rtc_rtcp_rtt_from_rr rr 1700000000703 <= 80.
Proof.
  apply (rtt_end_to_end stats0 stats0 0 1700000000123 1700000000703 4000 4500);
    try apply stats0_ok; try lia; try done.
Defined.

(** a loss, a wrap, a late packet and a duplicate *)
Definition trace0 : list arrival :=
  [Arr 65535 900 20; Arr 65537 2700 41; Arr 65536 1800 43; Arr 65538 3600 60; Arr 65538 3600 61].

Lemma stats_track_stream_witness :
  exists s, recv_all 7 90000 (rtc_rtcp_stats_init 1 0) (Arr 65533 0 0 :: trace0) = Ok s /\
    highest_seq s = 65538 /\ packets_received s = 6 /\ packets_expected s = 65538 - 65533 + 1 /\
    packets_lost s = Z.max 0 (packets_expected s - packets_received s).
Proof.
  apply (stats_track_stream (rtc_rtcp_stats_init 1 0) 7 90000 (Arr 65533 0 0) trace0);
    try done; simpl; try lia.
  repeat (split; [first [left; vm_compute; split; congruence
                        |right; vm_compute; split; [split; congruence|reflexivity]]|
    split; [vm_compute; split; congruence|split; [vm_compute; congruence|]]]). exact I.
Defined.

Definition rr0 : rtc_rtcp_rr_block_t :=
  Rr 1 0 0 0 0 (compact_ntp (get_ntp_time 1700000000000).1 (get_ntp_time 1700000000000).2) 8192.

Lemma rtt_zero_wraps_witness : rtc_rtcp_rtt_from_rr rr0 1700000000125 = 65535999.
Proof. apply (rtt_zero_wraps rr0 1700000000); vm_compute; congruence. Defined.

Lemma jitter_decrease_overflows_witness :
  exists j', jitter_step 100 500 510 = Ok j' /\ 2 ^ 28 <= j'.
Proof. apply (jitter_decrease_overflows 100 500 510); vm_compute; [congruence|done]. Defined.

Lemma late_packet_skips_cycle_witness : extend_seq 65538 (u16 (65538 - 4)) = 65538 - 4 + 2 ^ 16.
Proof. apply (late_packet_skips_cycle 65538 4); vm_compute; split; congruence. Defined.

End Rtcp.
