(* ===== verification/RtcpFb.v ===== *)
(** * RTCP feedback: NACK, PLI and FIR (rtc/src/rtc_rtcp.c, from line 424)

    The builders write into a caller's buffer of [buf_cap] bytes; the model
    returns the [out_len] bytes written.  [qsort] with [cmp_u16] is the
    sorted permutation of its argument. *)

From S2P Require Import Prelude Rtcp Rtp.
From Stdlib Require Import ZArith Lia.
From stdpp Require Import base list numbers sorting sets.
#[local] Open Scope Z_scope.

Module RtcpFb.
Import Rtcp.

Definition RTCP_FMT_NACK : Z := 1.
Definition RTCP_FMT_PLI : Z := 1.
Definition RTCP_FMT_FIR : Z := 4.
Definition RTCP_NACK_MAX_FCIS : Z := 64.
Definition RTCP_NACK_MAX_SEQS : Z := RTCP_NACK_MAX_FCIS * 17.

Record rtc_rtcp_nack_t := Nack {
  nk_sender_ssrc : Z; nk_media_ssrc : Z;
  lost_seqs : list Z  (* the first lost_count entries *)
}.
Record rtc_rtcp_pli_t := Pli { pli_sender_ssrc : Z; pli_media_ssrc : Z }.
Record rtc_rtcp_fir_t := Fir { fir_sender_ssrc : Z; fir_media_ssrc : Z; fir_seq_nr : Z }.

(** the inner loop: collect into [blp] the numbers at most 16 after [pid] *)
Fixpoint blp_collect (pid blp : Z) (l : list Z) : Z * list Z :=
  match l with
  | [] => (blp, [])
  | x :: l' =>
      let diff := x - pid in
      if (1 <=? diff) && (diff <=? 16)
      then blp_collect pid (Z.lor blp (u16 (Z.shiftl 1 (diff - 1)))) l'
      else (blp, l)
  end.

(** the outer loop; [n] = RTCP_NACK_MAX_FCIS - fci_count *)
Fixpoint build_fcis (n : nat) (l : list Z) : list (Z * Z) :=
  match n, l with
  | S n, pid :: l =>
      let '(blp, rest) := blp_collect pid 0 l in (pid, blp) :: build_fcis n rest
  | _, _ => []
  end.

Definition write_fci (f : Z * Z) : bytes := be16 f.1 ++ be16 f.2.

Definition rtc_rtcp_build_nack (buf_cap sender_ssrc media_ssrc : Z) (seqs : list Z) : res bytes :=
  let count := blen seqs in
  _ ← fail_if (count <=? 0) RTC_ERR_INVALID;
  let count := if RTCP_NACK_MAX_SEQS <? count then RTCP_NACK_MAX_SEQS else count in
  copied ← sub seqs 0 count;
  let sorted := merge_sort Z.le copied in
  let fcis := build_fcis (Z.to_nat RTCP_NACK_MAX_FCIS) sorted in
  let pkt_len := 12 + blen fcis * 4 in
  _ ← fail_if (buf_cap <? pkt_len) RTC_ERR_INVALID;
  let length_words := u16 (pkt_len / 4 - 1) in
  Ok ([Z.lor (Z.shiftl 2 6) RTCP_FMT_NACK; RTCP_PT_RTPFB] ++ be16 length_words ++
      be32 sender_ssrc ++ be32 media_ssrc ++ mjoin (write_fci <$> fcis)).

(** the loop over the bits of [blp]; [n] bits are left *)
Fixpoint blp_loop (n : nat) (bit pid blp : Z) (lost : list Z) : list Z :=
  match n with
  | O => lost
  | S n =>
      if blen lost <? RTCP_NACK_MAX_SEQS then
        blp_loop n (bit + 1) pid blp
          (if negb (Z.land blp (Z.shiftl 1 bit) =? 0) then lost ++ [u16 (pid + bit + 1)] else lost)
      else lost
  end.

Fixpoint nack_loop (fuel : nat) (data : bytes) (offset : Z) (lost : list Z) : res (list Z) :=
  match fuel with
  | O => Fault
  | S fuel =>
      if (offset + 4 <=? blen data) && (blen lost <? RTCP_NACK_MAX_SEQS) then
        pid ← rd_u16 data offset;
        blp ← rd_u16 data (offset + 2);
        nack_loop fuel data (offset + 4) (blp_loop 16 0 pid blp (lost ++ [pid]))
      else Ok lost
  end.

Definition rtc_rtcp_parse_nack (data : bytes) : res rtc_rtcp_nack_t :=
  _ ← fail_if (blen data <? 12) RTC_ERR_INVALID;
  b0 ← rd data 0;
  let version := Z.land (Z.shiftr b0 6) 3 in
  _ ← fail_if (negb (version =? 2)) RTC_ERR_INVALID;
  s ← rd_u32 data 4;
  m ← rd_u32 data 8;
  lost ← nack_loop (S (length data)) data 12 [];
  Ok (Nack s m lost).

Definition rtc_rtcp_build_pli (buf_cap sender_ssrc media_ssrc : Z) : res bytes :=
  _ ← fail_if (buf_cap <? 12) RTC_ERR_INVALID;
  Ok ([Z.lor (Z.shiftl 2 6) RTCP_FMT_PLI; RTCP_PT_PSFB] ++ be16 2 ++ be32 sender_ssrc ++
      be32 media_ssrc).

Definition rtc_rtcp_parse_pli (data : bytes) : res rtc_rtcp_pli_t :=
  _ ← fail_if (blen data <? 12) RTC_ERR_INVALID;
  b0 ← rd data 0;
  let version := Z.land (Z.shiftr b0 6) 3 in
  _ ← fail_if (negb (version =? 2)) RTC_ERR_INVALID;
  s ← rd_u32 data 4;
  m ← rd_u32 data 8;
  Ok (Pli s m).

Definition rtc_rtcp_build_fir (buf_cap sender_ssrc media_ssrc seq_nr : Z) : res bytes :=
  _ ← fail_if (buf_cap <? 20) RTC_ERR_INVALID;
  Ok ([Z.lor (Z.shiftl 2 6) RTCP_FMT_FIR; RTCP_PT_PSFB] ++ be16 4 ++ be32 sender_ssrc ++ be32 0 ++
      be32 media_ssrc ++ [seq_nr; 0; 0; 0]).

Definition rtc_rtcp_parse_fir (data : bytes) : res rtc_rtcp_fir_t :=
  _ ← fail_if (blen data <? 20) RTC_ERR_INVALID;
  b0 ← rd data 0;
  let version := Z.land (Z.shiftr b0 6) 3 in
  _ ← fail_if (negb (version =? 2)) RTC_ERR_INVALID;
  s ← rd_u32 data 4;
  m ← rd_u32 data 12;
  q ← rd data 16;
  Ok (Fir s m q).

(** ** Bitmask of lost packets *)

(** the numbers after [pid] that a bit predicate [P] names *)
Fixpoint named (n : nat) (k pid : Z) (P : Z -> bool) : list Z :=
  match n with
  | O => []
  | S n => (if P k then [pid + k + 1] else []) ++ named n (k + 1) pid P
  end.

Lemma named_ext n k pid P Q :
  (forall i, k <= i < k + Z.of_nat n -> P i = Q i) -> named n k pid P = named n k pid Q.
Proof.
  revert k. induction n as [|n IH]; intros k H; [done|]. cbn [named].
  rewrite H, (IH (k + 1)) by (intros; try apply H; lia). done.
Qed.

(** a strictly increasing list in range is the one its membership names *)
Lemma named_members n k pid c :
  StronglySorted Z.lt c -> Forall (fun x => pid + k < x <= pid + k + Z.of_nat n) c ->
  named n k pid (fun i => bool_decide (pid + i + 1 ∈ c)) = c.
Proof.
  revert k c. induction n as [|n IH]; intros k c Hs Hr.
  { destruct c as [|x c]; [done|]. apply Forall_cons_1 in Hr as [Hx _]. lia. }
  cbn [named]. destruct c as [|x c].
  { rewrite IH by constructor. rewrite bool_decide_eq_false_2 by set_solver. done. }
  pose proof Hr as Hr'. apply Forall_cons_1 in Hr' as [Hx Hc].
  apply StronglySorted_inv in Hs as Hsc. destruct Hsc as [Hsc Hlt].
  rewrite Forall_forall in Hlt, Hc.
  destruct (Z.eq_dec x (pid + k + 1)) as [->|Hne].
  - rewrite bool_decide_eq_true_2 by set_solver. simpl. f_equal.
    rewrite (named_ext _ _ _ _ (fun i => bool_decide (pid + i + 1 ∈ c))).
    + apply IH; [done|]. apply Forall_forall. intros y Hy. specialize (Hlt y Hy).
      specialize (Hc y Hy). lia.
    + intros i Hi. apply bool_decide_ext. rewrite elem_of_cons. naive_solver lia.
  - rewrite bool_decide_eq_false_2; simpl.
    + apply IH; [done|]. apply Forall_forall. intros y Hy. apply elem_of_cons in Hy as [->|Hy]; [lia|].
      specialize (Hlt y Hy). specialize (Hc y Hy). lia.
    + rewrite elem_of_cons. intros [?|Hy]; [lia|]. specialize (Hlt _ Hy). lia.
Qed.

(** what the inner loop of the builder computes *)
Lemma blp_collect_spec pid blp l blp' rest :
  blp_collect pid blp l = (blp', rest) ->
  exists c, l = c ++ rest /\ Forall (fun x => pid < x <= pid + 16) c /\
    (forall i, 0 <= i < 16 ->
       Z.testbit blp' i = Z.testbit blp i || bool_decide (pid + i + 1 ∈ c)) /\
    (0 <= blp < 2 ^ 16 -> 0 <= blp' < 2 ^ 16).
Proof.
  revert blp. induction l as [|x l IH]; intros blp; cbn [blp_collect].
  { intros [= <- <-]. exists []. split_and!; auto. intros. by rewrite bool_decide_eq_false_2, orb_false_r by set_solver. }
  destruct (Z.leb_spec 1 (x - pid)), (Z.leb_spec (x - pid) 16); cbn [andb].
  2-4: intros [= <- <-]; exists []; split_and!; auto; intros;
    by rewrite bool_decide_eq_false_2, orb_false_r by set_solver.
  assert (Hp : u16 (Z.shiftl 1 (x - pid - 1)) = 2 ^ (x - pid - 1)).
  { rewrite Z.shiftl_1_l. apply u16_id. split; [lia|]. apply Z.pow_lt_mono_r; lia. }
  rewrite Hp. intros (c & -> & Hc & Hbits & Hrange)%IH. exists (x :: c). split_and!; auto.
  - constructor; [lia|done].
  - intros i Hi. rewrite Hbits, Z.lor_spec, testbit_pow2 by lia. rewrite <-orb_assoc. f_equal.
    rewrite <-bool_decide_or. apply bool_decide_ext. rewrite elem_of_cons. naive_solver lia.
  - intros Hb. apply Hrange, lor_range; [lia|done|]. split; [lia|]. apply Z.pow_lt_mono_r; lia.
Qed.

(** ** The FCI list *)

Definition u16_ok (x : Z) : Prop := 0 <= x < 2 ^ 16.

(** the sequence numbers an FCI stands for *)
Definition expand (f : Z * Z) : list Z := f.1 :: named 16 0 f.1 (Z.testbit f.2).
Definition expand_all (fs : list (Z * Z)) : list Z := mjoin (expand <$> fs).

Lemma expand_all_cons f fs : expand_all (f :: fs) = expand f ++ expand_all fs.
Proof. done. Qed.

Record fci_ok (f : Z * Z) : Prop := {
  fo_pid : u16_ok f.1;
  fo_blp : u16_ok f.2;
  fo_bits : forall i, 0 <= i < 16 -> Z.testbit f.2 i = true -> u16_ok (f.1 + i + 1)
}.

Lemma collect_expand pid l blp rest :
  blp_collect pid 0 l = (blp, rest) -> StronglySorted Z.lt (pid :: l) -> Forall u16_ok (pid :: l) ->
  pid :: l = expand (pid, blp) ++ rest /\ fci_ok (pid, blp) /\ (length rest <= length l)%nat.
Proof.
  intros (c & -> & Hc & Hbits & Hrange)%blp_collect_spec Hs Hu.
  apply StronglySorted_inv in Hs as [Hs _]. apply StronglySorted_app in Hs as (_ & Hs & _).
  apply Forall_cons_1 in Hu as [Hp Hu]. apply Forall_app in Hu as [Hu _].
  assert (E : named 16 0 pid (Z.testbit blp) = c).
  { etrans; [|apply (named_members 16 0 pid c); [done|]].
    - apply named_ext. intros i Hi. rewrite Hbits by lia. by rewrite Z.bits_0.
    - eapply Forall_impl; [exact Hc|]. intros x Hx. cbn beta in *. lia. }
  split_and!.
  - unfold expand. cbn [fst snd]. by rewrite E.
  - split; cbn [fst snd]; [done|apply Hrange; lia|]. intros i Hi Hb. rewrite Hbits, Z.bits_0 in Hb by lia.
    apply bool_decide_eq_true in Hb. by eapply Forall_forall in Hb.
  - rewrite length_app. lia.
Qed.

Lemma build_fcis_spec n l :
  StronglySorted Z.lt l -> Forall u16_ok l ->
  let fs := build_fcis n l in
  exists suf, l = expand_all fs ++ suf /\ (suf = [] \/ (n <= length (expand_all fs))%nat) /\
    (length fs <= n)%nat /\ Forall fci_ok fs.
Proof.
  revert l. induction n as [|n IH]; intros l Hs Hu.
  { exists l. split_and!; [done|right; simpl; lia|done|constructor]. }
  destruct l as [|pid l]; [exists []; split_and!; [done|by left|simpl; lia|constructor]|].
  cbn [build_fcis]. destruct (blp_collect pid 0 l) as [blp rest] eqn:E.
  apply collect_expand in E as (El & Hf & Hlen); [|done|done].
  rewrite El in Hs, Hu |- *. apply StronglySorted_app in Hs as (_ & _ & Hs).
  apply Forall_app in Hu as [_ Hu]. destruct (IH rest Hs Hu) as (suf & E & Hsuf & Hn & Hfs).
  exists suf. cbv zeta. rewrite expand_all_cons, <-app_assoc, <-E. split_and!; [done| |simpl; lia|by constructor].
  destruct Hsuf as [->|Hge]; [by left|right]. rewrite length_app. unfold expand at 1. simpl. lia.
Qed.

Lemma length_expand f : (length (expand f) <= 17)%nat.
Proof.
  unfold expand. cbn [length]. enough (forall n k P, length (named n k f.1 P) <= n)%nat as H
    by (specialize (H 16%nat 0 (Z.testbit f.2)); lia).
  intros n. induction n as [|n IH]; intros k P; [done|]. cbn [named]. rewrite length_app.
  specialize (IH (k + 1) P). destruct (P k); simpl; lia.
Qed.

(** ** The parser's loops *)

Lemma blp_loop_named n bit pid blp lost :
  0 <= bit -> blen lost + Z.of_nat n <= RTCP_NACK_MAX_SEQS ->
  (forall i, bit <= i < bit + Z.of_nat n -> Z.testbit blp i = true -> u16_ok (pid + i + 1)) ->
  blp_loop n bit pid blp lost = lost ++ named n bit pid (Z.testbit blp).
Proof.
  revert bit lost. induction n as [|n IH]; intros bit lost Hb Hn Hw; cbn [blp_loop named].
  { by rewrite app_nil_r. }
  rewrite (proj2 (Z.ltb_lt _ _)) by lia. rewrite land_pow2 by done.
  destruct (Z.testbit blp bit) eqn:E.
  - rewrite u16_id by (apply Hw; [lia|done]). rewrite IH; [by rewrite <-app_assoc|lia| |].
    + lens. lia.
    + intros i Hi. apply Hw. lia.
  - rewrite IH; [done|lia|lia|]. intros i Hi. apply Hw. lia.
Qed.

Lemma blp_loop_bound n bit pid blp lost :
  blen lost <= RTCP_NACK_MAX_SEQS -> blen (blp_loop n bit pid blp lost) <= RTCP_NACK_MAX_SEQS.
Proof.
  revert bit lost. induction n as [|n IH]; intros bit lost Hb; cbn [blp_loop]; [done|].
  destruct (Z.ltb_spec (blen lost) RTCP_NACK_MAX_SEQS); [|done]. apply IH.
  destruct (negb _); lens; lia.
Qed.

Lemma nack_loop_reads fs fuel pre lost off :
  Forall fci_ok fs -> off = blen pre -> (length fs < fuel)%nat ->
  blen lost + 17 * blen fs <= RTCP_NACK_MAX_SEQS ->
  nack_loop fuel (pre ++ mjoin (write_fci <$> fs)) off lost = Ok (lost ++ expand_all fs).
Proof.
  revert fuel pre lost off. induction fs as [|f fs IH]; intros [|fuel] pre lost off HF -> Hfu Hm;
    try (simpl in Hfu; lia).
  { cbn [nack_loop]. rewrite (proj2 (Z.leb_gt _ _)) by (simpl; lens; lia). cbn [andb].
    change (expand_all []) with (@nil Z). by rewrite app_nil_r. }
  apply Forall_cons_1 in HF as [[Hp Hb Hw] HF].
  change (mjoin (write_fci <$> f :: fs)) with (write_fci f ++ mjoin (write_fci <$> fs)).
  pose proof (blen_nonneg (mjoin (write_fci <$> fs))). pose proof (blen_nonneg fs). lens.
  change (write_fci f) with (be16 f.1 ++ be16 f.2). rewrite <-app_assoc. cbn [nack_loop].
  rewrite (proj2 (Z.leb_le _ _)), (proj2 (Z.ltb_lt _ _)) by (lens; lia). cbn [andb].
  rewrite (bind_Ok_l _ _ f.1) by (by apply rd_u16_at).
  rewrite (bind_Ok_l _ _ f.2) by (rewrite app_assoc; apply rd_u16_at; [by lens|done]).
  rewrite blp_loop_named; [|lia|lens; lia|intros; apply Hw; [lia|done]].
  rewrite expand_all_cons. unfold expand at 1.
  assert (Hl : blen (named 16 0 f.1 (Z.testbit f.2)) <= 16).
  { pose proof (length_expand f) as Hl. unfold expand in Hl. cbn [length] in Hl. unfold blen. lia. }
  rewrite (app_assoc pre), (app_assoc (pre ++ _)).
  rewrite (IH fuel); [by rewrite <-!app_assoc|done|lens; lia|simpl in Hfu; lia|].
  lens. lia.
Qed.

Lemma nack_loop_total fuel d off lost :
  0 <= off -> (Z.to_nat (blen d - off) < fuel)%nat -> blen lost <= RTCP_NACK_MAX_SEQS ->
  exists l, nack_loop fuel d off lost = Ok l /\ blen l <= RTCP_NACK_MAX_SEQS.
Proof.
  revert off lost. induction fuel as [|fuel IH]; intros off lost Hoff Hf Hm; [lia|].
  cbn [nack_loop]. destruct (Z.leb_spec (off + 4) (blen d)); [|simpl; eauto].
  destruct (Z.ltb_spec (blen lost) RTCP_NACK_MAX_SEQS); cbn [andb]; [|eauto].
  destruct (rd_u16_in_range d off) as [pid E1]; [lia..|]. step E1.
  destruct (rd_u16_in_range d (off + 2)) as [blp E2]; [lia..|]. step E2.
  apply IH; [lia|lia|]. apply blp_loop_bound. lens. lia.
Qed.

(** ** Building and parsing *)

Lemma sorted_strict l : NoDup l -> StronglySorted Z.lt (merge_sort Z.le l).
Proof.
  intros Hd. assert (Hd' : NoDup (merge_sort Z.le l)) by (by rewrite merge_sort_Permutation).
  pose proof (StronglySorted_merge_sort Z.le l) as Hs.
  induction Hs as [|x m Hm IH Hx]; [constructor|]. apply NoDup_cons in Hd' as [Hni Hd'].
  constructor; [by apply IH|]. rewrite Forall_forall in Hx |- *. intros y Hy.
  specialize (Hx y Hy). assert (x <> y) by (intros ->; done). lia.
Qed.

(** the list the builder sorts: at most 1088 numbers *)
Definition nack_input (seqs : list Z) : list Z :=
  merge_sort Z.le (take (Z.to_nat RTCP_NACK_MAX_SEQS) seqs).

Definition nack_fcis (seqs : list Z) : list (Z * Z) :=
  build_fcis (Z.to_nat RTCP_NACK_MAX_FCIS) (nack_input seqs).

(** the layout of a feedback packet *)
Definition fb_bytes (fmt pt len : Z) (ws : list Z) (rest : bytes) : bytes :=
  ([Z.lor (Z.shiftl 2 6) fmt; pt] ++ be16 len) ++ words ws ++ rest.

Lemma build_nack_ok cap s m seqs :
  seqs <> [] -> 12 + 4 * RTCP_NACK_MAX_FCIS <= cap -> blen (nack_fcis seqs) <= RTCP_NACK_MAX_FCIS ->
  rtc_rtcp_build_nack cap s m seqs =
    Ok (fb_bytes RTCP_FMT_NACK RTCP_PT_RTPFB (2 + blen (nack_fcis seqs)) [s; m]
          (mjoin (write_fci <$> nack_fcis seqs))).
Proof.
  intros Hne Hcap Hf. unfold rtc_rtcp_build_nack. cbv zeta. pose proof (blen_nonneg seqs).
  assert (0 < blen seqs) by (destruct seqs; [done|]; lens; pose proof (blen_nonneg seqs); lia).
  pass_guard.
  set (count := if RTCP_NACK_MAX_SEQS <? blen seqs then RTCP_NACK_MAX_SEQS else blen seqs).
  assert (Hc : sub seqs 0 count = Ok (take (Z.to_nat RTCP_NACK_MAX_SEQS) seqs)).
  { subst count. destruct (Z.ltb_spec RTCP_NACK_MAX_SEQS (blen seqs)).
    - by rewrite sub_Ok by (done || lia).
    - rewrite sub_Ok by lia. change (Z.to_nat 0) with O. rewrite drop_0. unfold blen in *.
      rewrite !take_ge by lia. done. }
  step Hc. fold (nack_input seqs). fold (nack_fcis seqs). pose proof (blen_nonneg (nack_fcis seqs)).
  pass_guard. change RTCP_NACK_MAX_FCIS with 64 in *.
  replace (u16 ((12 + blen (nack_fcis seqs) * 4) / 4 - 1)) with (2 + blen (nack_fcis seqs)).
  { done. }
  rewrite u16_id; dlia.
Qed.

Lemma fb_header fmt pt len ws rest :
  0 <= fmt < 32 ->
  let d := fb_bytes fmt pt len ws rest in
  rd d 0 = Ok (128 + fmt) /\ rd d 1 = Ok pt /\ 4 + 4 * blen ws + blen rest = blen d /\
  Z.land (Z.shiftr (128 + fmt) 6) 3 = 2 /\ Z.land (128 + fmt) 31 = fmt.
Proof.
  intros Hf d. subst d. unfold fb_bytes. rewrite lor_shiftl_add by lia.
  split_and!; [done|done|lens; lia|solve_arith..].
Qed.

Lemma fb_dispatch fmt pt len ws rest :
  0 <= fmt < 32 ->
  rtc_rtcp_get_pt_fmt (fb_bytes fmt pt len ws rest) = Ok (Some (pt, fmt)) /\
  rtc_rtcp_is_rtcp (fb_bytes fmt pt len ws rest) = Ok ((200 <=? pt) && (pt <=? 206)).
Proof.
  intros Hf. destruct (fb_header fmt pt len ws rest Hf) as (R0 & R1 & Hl & F1 & F2).
  unfold rtc_rtcp_get_pt_fmt, rtc_rtcp_is_rtcp. set (d := fb_bytes fmt pt len ws rest) in *.
  pose proof (blen_nonneg ws). pose proof (blen_nonneg rest).
  rewrite (proj2 (Z.ltb_ge (blen d) 4)) by lia.
  split; step R0; rewrite F1; cbn [Z.eqb negb Pos.eqb]; step R1; by rewrite ?F2.
Qed.

Lemma fb_word i w fmt pt len ws rest :
  ws !! i = Some w -> u32_ok w -> rd_u32 (fb_bytes fmt pt len ws rest) (4 + 4 * Z.of_nat i) = Ok w.
Proof. intros. unfold fb_bytes. by apply (rd_words i). Qed.

Lemma blen_fcis fs : blen (mjoin (write_fci <$> fs)) = 4 * blen fs.
Proof.
  induction fs as [|f fs IH]; [done|].
  change (mjoin (write_fci <$> f :: fs)) with (write_fci f ++ mjoin (write_fci <$> fs)).
  rewrite blen_app, IH. change (blen (write_fci f)) with 4. lens. lia.
Qed.

Lemma parse_nack_ok s m fs :
  u32_ok s -> u32_ok m -> Forall fci_ok fs -> blen fs <= RTCP_NACK_MAX_FCIS ->
  rtc_rtcp_parse_nack (fb_bytes RTCP_FMT_NACK RTCP_PT_RTPFB (2 + blen fs) [s; m]
    (mjoin (write_fci <$> fs))) = Ok (Nack s m (expand_all fs)).
Proof.
  intros Hs Hm HF Hf. pose proof (blen_nonneg fs).
  set (rest := mjoin (write_fci <$> fs)). set (d := fb_bytes _ _ _ _ _).
  destruct (fb_header RTCP_FMT_NACK RTCP_PT_RTPFB (2 + blen fs) [s; m] rest) as (R0 & _ & Hl & F1 & _); [done|].
  fold d in R0, Hl. change (blen [s; m]) with 2 in Hl. pose proof (blen_nonneg rest).
  unfold rtc_rtcp_parse_nack. pass_guard. step R0. cbv zeta. rewrite F1.
  rewrite (bind_Ok_l _ _ ()) by done.
  rewrite (bind_Ok_l _ _ s) by (by apply (fb_word 0)).
  rewrite (bind_Ok_l _ _ m) by (by apply (fb_word 1)).
  pose proof (blen_fcis fs) as Hb. fold rest in Hb.
  unfold d, fb_bytes, rest. rewrite app_assoc.
  rewrite nack_loop_reads; [done|done|by lens| |].
  - unfold d, fb_bytes in Hl. rewrite app_assoc in Hl. unfold rest, blen in Hl, Hb. unfold blen. lia.
  - change RTCP_NACK_MAX_SEQS with (64 * 17). change RTCP_NACK_MAX_FCIS with 64 in Hf. lens. lia.
Qed.

Lemma report_is_rtcp pt ws reps :
  200 <= pt <= 206 -> blen reps <= 1 -> rtc_rtcp_is_rtcp (report_pkt pt ws reps) = Ok true.
Proof.
  intros Hpt Hr. pose proof (blen_nonneg reps). pose proof (blen_nonneg ws).
  destruct (byte0_fields (blen reps)) as (F1 & _ & _); [lia|].
  unfold rtc_rtcp_is_rtcp. rewrite (proj2 (Z.ltb_ge _ _)) by (rewrite report_pkt_len; lia).
  change (rd (report_pkt pt ws reps) 0) with (Ok (byte0 (blen reps))).
  change (rd (report_pkt pt ws reps) 1) with (Ok pt). cbn [mbind res_bind]. rewrite F1. simpl.
  by rewrite (proj2 (Z.leb_le 200 pt)), (proj2 (Z.leb_le pt 206)) by lia.
Qed.

Lemma nack_build_parse cap s m seqs :
  u32_ok s -> u32_ok m -> seqs <> [] -> NoDup seqs -> Forall u16_ok seqs ->
  12 + 4 * RTCP_NACK_MAX_FCIS <= cap ->
  exists b lost rest, rtc_rtcp_build_nack cap s m seqs = Ok b /\ blen b <= cap /\
    rtc_rtcp_is_rtcp b = Ok true /\
    rtc_rtcp_get_pt_fmt b = Ok (Some (RTCP_PT_RTPFB, RTCP_FMT_NACK)) /\
    rtc_rtcp_parse_nack b = Ok (Nack s m lost) /\ nack_input seqs = lost ++ rest /\
    (rest = [] \/ RTCP_NACK_MAX_FCIS <= blen lost) /\
    (blen seqs <= RTCP_NACK_MAX_FCIS -> lost ≡ₚ seqs) /\
    (exists fs, b = fb_bytes RTCP_FMT_NACK RTCP_PT_RTPFB (2 + blen fs) [s; m] (mjoin (write_fci <$> fs)) /\
       blen fs <= RTCP_NACK_MAX_FCIS).
Proof.
  intros Hs Hm Hne Hd Hu Hcap.
  assert (Hin : nack_input seqs ≡ₚ take (Z.to_nat RTCP_NACK_MAX_SEQS) seqs) by apply merge_sort_Permutation.
  assert (Hss : StronglySorted Z.lt (nack_input seqs)).
  { apply sorted_strict. eapply sublist_NoDup; [done|apply sublist_take]. }
  destruct (build_fcis_spec (Z.to_nat RTCP_NACK_MAX_FCIS) (nack_input seqs) Hss) as (rest & E & Hr & Hn & Hf).
  { rewrite Hin. by apply Forall_take. }
  fold (nack_fcis seqs) in E, Hr, Hn, Hf.
  assert (0 <= RTCP_NACK_MAX_FCIS) by done.
  assert (Hfn : blen (nack_fcis seqs) <= RTCP_NACK_MAX_FCIS) by (unfold blen; lia).
  eexists _, (expand_all (nack_fcis seqs)), rest.
  destruct (fb_dispatch RTCP_FMT_NACK RTCP_PT_RTPFB (2 + blen (nack_fcis seqs)) [s; m]
    (mjoin (write_fci <$> nack_fcis seqs))) as [D1 D2]; [done|].
  split; [by apply build_nack_ok|]. split_and!; [|done|done|by apply parse_nack_ok|done| | |by eexists].
  - unfold fb_bytes. lens. rewrite blen_fcis. lia.
  - destruct Hr as [?|Hr]; [by left|right]. unfold blen. lia.
  - intros Hc. change RTCP_NACK_MAX_FCIS with 64 in *. change RTCP_NACK_MAX_SEQS with 1088 in *.
    rewrite take_ge in Hin by (unfold blen in Hc; lia). assert (rest = []) as ->.
    { destruct Hr as [?|Hr]; [done|]. apply nil_length_inv. apply (f_equal length) in E.
      rewrite length_app, Hin in E. unfold blen in Hc. lia. }
    rewrite app_nil_r in E. by rewrite <-E.
Qed.

(** ** Properties *)

(** NACKs round-trip.  For distinct lost sequence numbers in any order,
    the built packet is recognised as RTCP transport feedback with format 1;
    parsing it gives the sender, the media source and, in increasing order,
    the first of the sorted lost numbers: all of them if they are at most 64,
    and never fewer than 64 otherwise. *)
Theorem nack_roundtrip cap s m seqs :
  u32_ok s -> u32_ok m -> seqs <> [] -> NoDup seqs -> Forall u16_ok seqs ->
  12 + 4 * RTCP_NACK_MAX_FCIS <= cap ->
  exists b lost rest, rtc_rtcp_build_nack cap s m seqs = Ok b /\ blen b <= cap /\
    rtc_rtcp_is_rtcp b = Ok true /\
    rtc_rtcp_get_pt_fmt b = Ok (Some (RTCP_PT_RTPFB, RTCP_FMT_NACK)) /\
    rtc_rtcp_parse_nack b = Ok (Nack s m lost) /\ nack_input seqs = lost ++ rest /\
    (rest = [] \/ RTCP_NACK_MAX_FCIS <= blen lost) /\
    (blen seqs <= RTCP_NACK_MAX_FCIS -> lost ≡ₚ seqs).
Proof.
  intros H1 H2 H3 H4 H5 H6.
  destruct (nack_build_parse cap s m seqs H1 H2 H3 H4 H5 H6) as (b & lost & rest & Hb).
  exists b, lost, rest. naive_solver.
Qed.

(** Key-frame requests round-trip.  A PLI or FIR built with room for it
    is recognised as payload-specific feedback with its format, and parses
    to the same sender, media source and sequence number. *)
Theorem keyframe_request_roundtrip cap s m q :
  u32_ok s -> u32_ok m -> byte_ok q -> 20 <= cap ->
  (exists b, rtc_rtcp_build_pli cap s m = Ok b /\ rtc_rtcp_is_rtcp b = Ok true /\
     rtc_rtcp_get_pt_fmt b = Ok (Some (RTCP_PT_PSFB, RTCP_FMT_PLI)) /\
     rtc_rtcp_parse_pli b = Ok (Pli s m)) /\
  (exists b, rtc_rtcp_build_fir cap s m q = Ok b /\ rtc_rtcp_is_rtcp b = Ok true /\
     rtc_rtcp_get_pt_fmt b = Ok (Some (RTCP_PT_PSFB, RTCP_FMT_FIR)) /\
     rtc_rtcp_parse_fir b = Ok (Fir s m q)).
Proof.
  intros Hs Hm Hq Hcap. split.
  - exists (fb_bytes RTCP_FMT_PLI RTCP_PT_PSFB 2 [s; m] []).
    destruct (fb_dispatch RTCP_FMT_PLI RTCP_PT_PSFB 2 [s; m] []) as [D1 D2]; [done|].
    split_and!; [|done|done|].
    + unfold rtc_rtcp_build_pli. by pass_guard.
    + unfold rtc_rtcp_parse_pli. cbv zeta. rewrite (bind_Ok_l _ _ ()) by done.
      rewrite (bind_Ok_l _ _ 129), (bind_Ok_l _ _ ()) by done.
      rewrite (bind_Ok_l _ _ s) by (by apply (fb_word 0)).
      by rewrite (bind_Ok_l _ _ m) by (by apply (fb_word 1)).
  - exists (fb_bytes RTCP_FMT_FIR RTCP_PT_PSFB 4 [s; 0; m] [q; 0; 0; 0]).
    destruct (fb_dispatch RTCP_FMT_FIR RTCP_PT_PSFB 4 [s; 0; m] [q; 0; 0; 0]) as [D1 D2]; [done|].
    split_and!; [|done|done|].
    + unfold rtc_rtcp_build_fir. by pass_guard.
    + unfold rtc_rtcp_parse_fir. cbv zeta. rewrite (bind_Ok_l _ _ ()) by done.
      rewrite (bind_Ok_l _ _ 132), (bind_Ok_l _ _ ()) by done.
      rewrite (bind_Ok_l _ _ s) by (by apply (fb_word 0)).
      by rewrite (bind_Ok_l _ _ m) by (by apply (fb_word 2)).
Qed.

(** The feedback parsers are memory safe and total on every byte string,
    and a parsed NACK never holds more numbers than its array. *)
Theorem feedback_parse_safe d :
  no_fault (rtc_rtcp_parse_pli d) /\ no_fault (rtc_rtcp_parse_fir d) /\
  match rtc_rtcp_parse_nack d with
  | Ok n => blen (lost_seqs n) <= RTCP_NACK_MAX_SEQS
  | Err e => e = RTC_ERR_INVALID
  | Fault => False
  end.
Proof.
  split_and!; [unfold rtc_rtcp_parse_pli; safe|unfold rtc_rtcp_parse_fir; safe|].
  unfold rtc_rtcp_parse_nack. destruct (Z.ltb_spec (blen d) 12) as [?|Hl]; [done|].
  destruct (rd_in_range d 0) as [b0 E0]; [lia|].
  cbn [fail_if mbind res_bind]. rewrite E0. cbn [mbind res_bind]. destruct (negb _); [done|].
  cbn [fail_if mbind res_bind].
  destruct (nack_loop_total (S (length d)) d 12 []) as (l & El & Hb); [lia|unfold blen; lia|done|].
  destruct (rd_u32_in_range d 4) as [s Es]; [lia..|]. destruct (rd_u32_in_range d 8) as [m Em]; [lia..|].
  step Es. step Em. by step El.
Qed.

(** The first bytes tell RTP from RTCP.  Reports and feedback are
    recognised as RTCP, and no RTP packet built with a payload type outside
    72-78 is (with the marker bit those types share the byte with RTCP). *)
Theorem rtp_rtcp_demux s now unix pt sq ts sc mk exts pl p :
  stats_ok s -> 0 <= pt < 128 -> ~ (72 <= pt <= 78) ->
  Rtp.rtc_rtp_build_with_ext pt sq ts sc mk exts pl = Ok p ->
  rtc_rtcp_is_rtcp (Rtp.buf p) = Ok false /\
  (exists q, rtc_rtcp_build_sr s now unix = Ok q /\ rtc_rtcp_is_rtcp (buf q) = Ok true) /\
  (exists q, rtc_rtcp_build_rr s now = Ok q /\ rtc_rtcp_is_rtcp (buf q) = Ok true).
Proof.
  intros Hs Hpt Hn Hb. pose proof (report_blocks_len s now) as Hr. split_and!.
  - unfold Rtp.rtc_rtp_build_with_ext in Hb. cbv zeta in Hb.
    apply bind_Ok in Hb as (_ & _ & ([[blk ed] el] & _ & (_ & _ & [= <-])%bind_Ok)%bind_Ok).
    destruct (Rtp.second_byte pt mk Hpt) as [S1 S2]. cbn [Rtp.buf].
    set (b1 := if mk then Z.lor (Z.land pt 127) 128 else Z.land pt 127) in *.
    assert (Hb1 : ((200 <=? b1) && (b1 <=? 206)) = false).
    { subst b1. clear S1 S2. assert (E : Z.land pt 127 = pt) by solve_arith. rewrite E.
      assert (E2 : Z.lor pt 128 = 128 + pt).
      { rewrite Z.lor_comm. change 128 with (Z.shiftl 1 7) at 1. by rewrite lor_shiftl_add. }
      apply andb_false_iff. rewrite !Z.leb_gt. destruct mk; rewrite ?E2; lia. }
    clearbody b1. unfold rtc_rtcp_is_rtcp. rewrite (proj2 (Z.ltb_ge _ _)).
    2: { lens. pose proof (blen_nonneg blk). pose proof (blen_nonneg pl). lia. }
    destruct (0 <? blen exts);
      [rewrite (bind_Ok_l _ _ 144) by done|rewrite (bind_Ok_l _ _ 128) by done];
      cbn [Z.eqb Z.land Z.shiftr negb]; by rewrite (bind_Ok_l _ _ b1), Hb1 by done.
  - eexists. split; [apply build_sr_ok|]. cbn [buf]. apply report_is_rtcp; [done|lia].
  - eexists. split; [apply build_rr_ok|]. cbn [buf]. apply report_is_rtcp; [done|lia].
Qed.

(** ** Witnesses *)

Definition lost0 : list Z := [65535; 3; 20; 4; 19; 21].

Lemma nack_roundtrip_witness :
  exists b lost rest, rtc_rtcp_build_nack 268 1 2 lost0 = Ok b /\ blen b <= 268 /\
    rtc_rtcp_is_rtcp b = Ok true /\
    rtc_rtcp_get_pt_fmt b = Ok (Some (RTCP_PT_RTPFB, RTCP_FMT_NACK)) /\
    rtc_rtcp_parse_nack b = Ok (Nack 1 2 lost) /\ nack_input lost0 = lost ++ rest /\
    (rest = [] \/ RTCP_NACK_MAX_FCIS <= blen lost) /\
    (blen lost0 <= RTCP_NACK_MAX_FCIS -> lost ≡ₚ lost0).
Proof.
  apply (nack_roundtrip 268 1 2 lost0); try done.
  - apply (bool_decide_unpack _). vm_compute. exact I.
  - repeat constructor; vm_compute; congruence.
Defined.

Lemma keyframe_request_roundtrip_witness :
  (exists b, rtc_rtcp_build_pli 1400 7 8 = Ok b /\ rtc_rtcp_is_rtcp b = Ok true /\
     rtc_rtcp_get_pt_fmt b = Ok (Some (RTCP_PT_PSFB, RTCP_FMT_PLI)) /\
     rtc_rtcp_parse_pli b = Ok (Pli 7 8)) /\
  (exists b, rtc_rtcp_build_fir 1400 7 8 9 = Ok b /\ rtc_rtcp_is_rtcp b = Ok true /\
     rtc_rtcp_get_pt_fmt b = Ok (Some (RTCP_PT_PSFB, RTCP_FMT_FIR)) /\
     rtc_rtcp_parse_fir b = Ok (Fir 7 8 9)).
Proof. apply (keyframe_request_roundtrip 1400 7 8 9); done. Defined.

Definition rtp_pkt0 : Rtp.rtc_rtp_packet_t :=
  match Rtp.rtc_rtp_build_with_ext 96 1 2 3 true [] [5] with
  | Ok p => p
  | _ => Rtp.Packet (Rtp.Header 0 false false 0 false 0 0 0 0) [] None 0 []
  end.

Lemma rtp_rtcp_demux_witness :
  rtc_rtcp_is_rtcp (Rtp.buf rtp_pkt0) = Ok false /\
  (exists q, rtc_rtcp_build_sr stats0 1 2 = Ok q /\ rtc_rtcp_is_rtcp (buf q) = Ok true) /\
  (exists q, rtc_rtcp_build_rr stats0 1 = Ok q /\ rtc_rtcp_is_rtcp (buf q) = Ok true).
Proof.
  apply (rtp_rtcp_demux stats0 1 2 96 1 2 3 true [] [5] rtp_pkt0);
    [apply stats0_ok|lia|lia|reflexivity].
Defined.

End RtcpFb.
