(* ===== verification/Twcc.v ===== *)
(** * Transport-wide congestion control feedback

    The receiver's arrival window and the feedback packet it builds
    (rtc/src/rtc_twcc_receiver.c), the parser of that packet
    (rtc_rtcp_parse_twcc of rtc/src/rtc_rtcp.c) and the sender's history
    (rtc/src/rtc_twcc_sender.c).  Times are in microseconds. *)

From S2P Require Import Prelude Rtcp.
From Stdlib Require Import ZArith Lia.
From stdpp Require Import base list numbers.
#[local] Open Scope Z_scope.

Module Twcc.
Import Rtcp.

Definition RTC_TWCC_PARSE_MAX : Z := 256.
Definition RTC_TWCC_RECV_WINDOW : Z := 256.
Definition RTC_TWCC_FMT : Z := 15.
Definition RTC_TWCC_TICK_US : Z := 250.
Definition STATUS_NOT_RECV : Z := 0.
Definition STATUS_SMALL_DELTA : Z := 1.
Definition STATUS_LARGE_DELTA : Z := 2.

(** ** Parser *)

Record twcc_item := Item { it_seq : Z; it_received : bool; it_recv_time_us : Z }.

(** [items] holds the first [item_count] entries *)
Record rtc_rtcp_twcc_t := TwccFb {
  tw_sender_ssrc : Z; tw_media_ssrc : Z; tw_base_seq : Z; tw_fb_pkt_count : Z;
  tw_reference_time_us : Z; tw_items : list twcc_item
}.

(** the statuses a chunk stands for, before they are cut to [status_count] *)
Definition chunk_symbols (chunk : Z) : list Z :=
  if Z.land chunk 0x8000 =? 0 then
    let s := Z.land (Z.shiftr chunk 13) 3 in
    let run := Z.land chunk 0x1FFF in
    replicate (Z.to_nat run) s
  else if Z.land (Z.shiftr chunk 14) 1 =? 0 then
    (fun k => if negb (Z.land (Z.shiftr chunk (13 - Z.of_nat k)) 1 =? 0)
              then STATUS_SMALL_DELTA else STATUS_NOT_RECV) <$> seq 0 14
  else (fun k => Z.land (Z.shiftr chunk (12 - 2 * Z.of_nat k)) 3) <$> seq 0 7.

(** the chunk walk: the statuses and the offset after the last chunk *)
Fixpoint chunk_loop (fuel : nat) (data : bytes) (status_count p : Z) (status : list Z)
    : res (list Z * Z) :=
  match fuel with
  | O => Fault
  | S fuel =>
      if blen status <? status_count then
        _ ← fail_if (blen data <? p + 2) RTC_ERR_INVALID;
        chunk ← rd_u16 data p;
        chunk_loop fuel data status_count (p + 2)
          (status ++ take (Z.to_nat (status_count - blen status)) (chunk_symbols chunk))
      else Ok (status, p)
  end.

(** the loop over the receive deltas from packet [seq] on *)
Fixpoint delta_loop (data : bytes) (seq p cur_us : Z) (status : list Z) : res (list twcc_item) :=
  match status with
  | [] => Ok []
  | s :: status =>
      if s =? STATUS_NOT_RECV then
        rest ← delta_loop data (u16 (seq + 1)) p cur_us status;
        Ok (Item seq false 0 :: rest)
      else
        pc ← (if s =? STATUS_SMALL_DELTA then
                _ ← fail_if (blen data <? p + 1) RTC_ERR_INVALID;
                b ← rd data p;
                Ok (p + 1, u64 (cur_us + s8 b * RTC_TWCC_TICK_US))
              else if s =? STATUS_LARGE_DELTA then
                _ ← fail_if (blen data <? p + 2) RTC_ERR_INVALID;
                w ← rd_u16 data p;
                Ok (p + 2, u64 (cur_us + s16 w * RTC_TWCC_TICK_US))
              else Err RTC_ERR_INVALID);
        let '(p, cur_us) := pc in
        rest ← delta_loop data (u16 (seq + 1)) p cur_us status;
        Ok (Item seq true cur_us :: rest)
  end.

Definition rtc_rtcp_parse_twcc (data : bytes) : res rtc_rtcp_twcc_t :=
  _ ← fail_if (blen data <? 20) RTC_ERR_INVALID;
  b0 ← rd data 0;
  _ ← fail_if (negb (Z.land (Z.shiftr b0 6) 3 =? 2)) RTC_ERR_INVALID;
  s ← rd_u32 data 4;
  m ← rd_u32 data 8;
  base_seq ← rd_u16 data 12;
  status_count ← rd_u16 data 14;
  r0 ← rd data 16; r1 ← rd data 17; r2 ← rd data 18;
  let ref_time_64ms := Z.lor (Z.lor (Z.shiftl r0 16) (Z.shiftl r1 8)) r2 in
  fb ← rd data 19;
  let reference_time_us := ref_time_64ms * 64000 in
  _ ← fail_if ((status_count =? 0) || (RTC_TWCC_PARSE_MAX <? status_count)) RTC_ERR_INVALID;
  sp ← chunk_loop (S (length data)) data status_count 20 [];
  let '(status, p) := sp in
  items ← delta_loop data base_seq p reference_time_us status;
  Ok (TwccFb s m base_seq fb reference_time_us items).

(** ** Receiver *)

Record rtc_twcc_recv_entry_t := RecvEntry {
  re_seq : Z; re_recv_time_us : Z; re_received : bool
}.
Definition entry_zero : rtc_twcc_recv_entry_t := RecvEntry 0 0 false.

(** [window] has RTC_TWCC_RECV_WINDOW entries *)
Record rtc_twcc_receiver_t := Receiver {
  window : list rtc_twcc_recv_entry_t; base_seq : Z; count : Z; have_base : bool;
  fb_pkt_count : Z
}.

Definition rtc_twcc_receiver_init : rtc_twcc_receiver_t :=
  Receiver (replicate 256 entry_zero) 0 0 false 0.

Definition seq_after (a b : Z) : Z := s16 (b - a).

Definition rtc_twcc_receiver_on_packet (r : rtc_twcc_receiver_t) (twcc_seq recv_time_us : Z)
    : res rtc_twcc_receiver_t :=
  if negb (have_base r) then
    w ← wr (window r) 0 (RecvEntry twcc_seq recv_time_us true);
    Ok (Receiver w twcc_seq 1 true (fb_pkt_count r))
  else
    let delta := seq_after (base_seq r) twcc_seq in
    if delta <? 0 then Ok r
    else if RTC_TWCC_RECV_WINDOW <=? delta then Ok r
    else
      let c := if count r <? delta + 1 then delta + 1 else count r in
      e ← rd (window r) delta;
      if re_received e then Ok (Receiver (window r) (base_seq r) c (have_base r) (fb_pkt_count r))
      else
        w ← wr (window r) delta (RecvEntry twcc_seq recv_time_us true);
        Ok (Receiver w (base_seq r) c (have_base r) (fb_pkt_count r)).

(** the loop that computes (status, delta) of each entry *)
Fixpoint status_loop (es : list rtc_twcc_recv_entry_t) (prev_us : Z) : res (list (Z * Z)) :=
  match es with
  | [] => Ok []
  | e :: es =>
      if negb (re_received e) then
        rest ← status_loop es prev_us; Ok ((STATUS_NOT_RECV, 0) :: rest)
      else
        let diff := s64 (re_recv_time_us e) - s64 prev_us in
        _ ← fault_if (negb (s64 diff =? diff));
        let d_ticks := Z.quot diff RTC_TWCC_TICK_US in
        let '(s, d) :=
          if (-128 <=? d_ticks) && (d_ticks <=? 127) then (STATUS_SMALL_DELTA, d_ticks)
          else if (-32768 <=? d_ticks) && (d_ticks <=? 32767) then (STATUS_LARGE_DELTA, d_ticks)
          else (STATUS_NOT_RECV, 0) in
        let prev_us :=
          if negb (s =? STATUS_NOT_RECV) then u64 (s64 prev_us + d * RTC_TWCC_TICK_US)
          else prev_us in
        rest ← status_loop es prev_us; Ok ((s, d) :: rest)
  end.

(** how many of [l] follow with status [s], at most [n] *)
Fixpoint run_more (n : nat) (s : Z) (l : list Z) : nat :=
  match n, l with
  | S n, x :: l => if x =? s then S (run_more n s l) else O
  | _, _ => O
  end.

(** the 14-status vector chunk *)
Fixpoint vector_chunk (k : Z) (l : list Z) (chunk : Z) : Z :=
  match l with
  | [] => chunk
  | s :: l =>
      vector_chunk (k + 1) l
        (if s =? STATUS_SMALL_DELTA then Z.lor chunk (u16 (Z.shiftl 1 (13 - k))) else chunk)
  end.

(** the chunk loop on the statuses from [i] on; [out] is what is written *)
Fixpoint emit_chunks (fuel : nat) (cap : Z) (status : list Z) (out : bytes) : res bytes :=
  match fuel with
  | O => Fault
  | S fuel =>
      match status with
      | [] => Ok out
      | s :: rest =>
          _ ← fail_if (cap <? blen out + 2) RTC_ERR_INVALID;
          let run := S (run_more (Z.to_nat 0x1FFE) s rest) in
          if (3 <=? Z.of_nat run) || (s =? STATUS_LARGE_DELTA) then
            let chunk := Z.lor (Z.shiftl (Z.land s 3) 13) (Z.land (Z.of_nat run) 0x1FFF) in
            emit_chunks fuel cap (drop run status) (out ++ be16 chunk)
          else
            let n := if 14 <? blen status then 14 else blen status in
            let chunk := vector_chunk 0 (take (Z.to_nat n) status) 0x8000 in
            emit_chunks fuel cap (drop (Z.to_nat n) status) (out ++ be16 chunk)
      end
  end.

Fixpoint emit_deltas (cap : Z) (sds : list (Z * Z)) (out : bytes) : res bytes :=
  match sds with
  | [] => Ok out
  | (s, d) :: sds =>
      if s =? STATUS_SMALL_DELTA then
        _ ← fail_if (cap <? blen out + 1) RTC_ERR_INVALID;
        emit_deltas cap sds (out ++ [u8 d])
      else if s =? STATUS_LARGE_DELTA then
        _ ← fail_if (cap <? blen out + 2) RTC_ERR_INVALID;
        emit_deltas cap sds (out ++ [Z.land (Z.shiftr d 8) 0xFF; Z.land d 0xFF])
      else emit_deltas cap sds out
  end.

(** at most 3 zero bytes, up to a multiple of 4 *)
Fixpoint emit_pad (n : nat) (cap : Z) (out : bytes) : res bytes :=
  if negb (Z.land (blen out) 3 =? 0) then
    match n with
    | O => Fault
    | S n =>
        _ ← fail_if (cap <=? blen out) RTC_ERR_INVALID;
        emit_pad n cap (out ++ [0])
    end
  else Ok out.

Definition first_received (es : list rtc_twcc_recv_entry_t) : option rtc_twcc_recv_entry_t :=
  head (filter (fun e => re_received e = true) es).

(** everything after the length field is filled in *)
Definition set_length (out : bytes) : bytes :=
  let length_words := u16 (blen out / 4 - 1) in
  take 2 out ++ be16 length_words ++ drop 4 out.

Definition be24 (v : Z) : bytes :=
  [Z.land (Z.shiftr v 16) 0xFF; Z.land (Z.shiftr v 8) 0xFF; Z.land v 0xFF].

Definition twcc_header (sender_ssrc media_ssrc base_seq count ref_time_64ms fb : Z) : bytes :=
  [Z.lor 0x80 RTC_TWCC_FMT; RTCP_PT_RTPFB; 0; 0] ++ be32 sender_ssrc ++ be32 media_ssrc ++
  be16 base_seq ++ be16 (u16 count) ++ be24 ref_time_64ms ++ [fb].

Definition rtc_twcc_receiver_build_feedback (sender_ssrc media_ssrc cap : Z)
    : st rtc_twcc_receiver_t bytes :=
  r ← get;
  _ ← lift (fail_if (negb (have_base r) || (count r =? 0)) RTC_ERR_INVALID);
  _ ← lift (fail_if (cap <? 32) RTC_ERR_INVALID);
  es ← lift (sub (window r) 0 (count r));
  match first_received es with
  | None => _ ← put rtc_twcc_receiver_init; lift (Err RTC_ERR_INVALID)
  | Some first =>
      let ref_us := re_recv_time_us first in
      let ref_time_64ms := Z.land (ref_us / 64000) 0x00FFFFFF in
      let ref_base_us := ref_time_64ms * 64000 in
      sds ← lift (status_loop es ref_base_us);
      let hdr := twcc_header sender_ssrc media_ssrc (base_seq r) (count r) ref_time_64ms
                   (fb_pkt_count r) in
      let fb' := u8 (fb_pkt_count r + 1) in
      _ ← put (Receiver (window r) (base_seq r) (count r) (have_base r) fb');
      out ← lift (emit_chunks (S (length sds)) cap (fst <$> sds) hdr);
      out ← lift (emit_deltas cap sds out);
      out ← lift (emit_pad 3 cap out);
      _ ← put (Receiver (window rtc_twcc_receiver_init) 0 0 false fb');
      mret (set_length out)
  end.

(** ** Sender history *)

Definition RTC_TWCC_SENDER_RING : Z := 1024.

Record rtc_twcc_sent_pkt_t := SentPkt {
  sp_seq : Z; sp_size : Z; sp_send_time_us : Z; sp_used : bool
}.
Record rtc_twcc_sender_t := Sender { next_seq : Z; ring : list rtc_twcc_sent_pkt_t }.

Definition rtc_twcc_sender_init : rtc_twcc_sender_t :=
  Sender 0 (replicate 1024 (SentPkt 0 0 0 false)).

Definition rtc_twcc_sender_assign (s : rtc_twcc_sender_t) (send_time_us size : Z)
    : res (rtc_twcc_sender_t * Z) :=
  let sq := next_seq s in
  ring' ← wr (ring s) (Z.land sq (RTC_TWCC_SENDER_RING - 1)) (SentPkt sq size send_time_us true);
  Ok (Sender (u16 (sq + 1)) ring', sq).

Definition rtc_twcc_sender_lookup (s : rtc_twcc_sender_t) (sq : Z) : res (option rtc_twcc_sent_pkt_t) :=
  e ← rd (ring s) (Z.land sq (RTC_TWCC_SENDER_RING - 1));
  if negb (sp_used e) || negb (sp_seq e =? sq) then Ok None else Ok (Some e).

Definition rtc_twcc_sender_invalidate (s : rtc_twcc_sender_t) (sq : Z) : res rtc_twcc_sender_t :=
  let i := Z.land sq (RTC_TWCC_SENDER_RING - 1) in
  e ← rd (ring s) i;
  if sp_seq e =? sq then
    ring' ← wr (ring s) i (SentPkt (sp_seq e) (sp_size e) (sp_send_time_us e) false);
    Ok (Sender (next_seq s) ring')
  else Ok s.

(** ** Status chunks *)

Definition status_ok (s : Z) : Prop := 0 <= s <= 2.

(** the chunks [emit_chunks] writes *)
Fixpoint chunks_of (fuel : nat) (status : list Z) : list Z :=
  match fuel, status with
  | S fuel, s :: rest =>
      let run := S (run_more (Z.to_nat 0x1FFE) s rest) in
      if (3 <=? Z.of_nat run) || (s =? STATUS_LARGE_DELTA) then
        Z.lor (Z.shiftl (Z.land s 3) 13) (Z.land (Z.of_nat run) 0x1FFF)
          :: chunks_of fuel (drop run status)
      else
        let n := if 14 <? blen status then 14 else blen status in
        vector_chunk 0 (take (Z.to_nat n) status) 0x8000 :: chunks_of fuel (drop (Z.to_nat n) status)
  | _, _ => []
  end.

(** no vector chunk has to stand for a large delta *)
Fixpoint vectors_exact (fuel : nat) (status : list Z) : Prop :=
  match fuel, status with
  | S fuel, s :: rest =>
      let run := S (run_more (Z.to_nat 0x1FFE) s rest) in
      if (3 <=? Z.of_nat run) || (s =? STATUS_LARGE_DELTA) then
        vectors_exact fuel (drop run status)
      else
        let n := if 14 <? blen status then 14 else blen status in
        Forall (fun s => s <> STATUS_LARGE_DELTA) (take (Z.to_nat n) status) /\
        vectors_exact fuel (drop (Z.to_nat n) status)
  | _, _ => True
  end.

Lemma emit_chunks_eq fuel cap status out :
  (length status < fuel)%nat -> blen out + 2 * blen status <= cap ->
  emit_chunks fuel cap status out = Ok (out ++ mjoin (be16 <$> chunks_of fuel status)) /\
  (length (chunks_of fuel status) <= length status)%nat.
Proof.
  revert status out. induction fuel as [|fuel IH]; intros status out Hf Hc; [lia|].
  destruct status as [|s rest]; [split; [simpl; by rewrite app_nil_r|done]|].
  cbn [emit_chunks chunks_of]. pose proof (blen_nonneg rest). lens. pass_guard. cbv zeta.
  assert (Hstep : forall k c, (1 <= k)%nat ->
    emit_chunks fuel cap (drop k (s :: rest)) (out ++ be16 c)
      = Ok (out ++ mjoin (be16 <$> c :: chunks_of fuel (drop k (s :: rest)))) /\
    (length (c :: chunks_of fuel (drop k (s :: rest))) <= length (s :: rest))%nat).
  { intros k c Hk. destruct (IH (drop k (s :: rest)) (out ++ be16 c)) as [E L].
    - rewrite length_drop. simpl in *. lia.
    - lens. unfold blen in *. rewrite length_drop. simpl in *. lia.
    - rewrite E. split.
      + change (mjoin (be16 <$> c :: chunks_of fuel (drop k (s :: rest))))
          with (be16 c ++ mjoin (be16 <$> chunks_of fuel (drop k (s :: rest)))).
        by rewrite <-app_assoc.
      + rewrite length_drop in L. cbn [length] in *. lia. }
  destruct (_ || _); apply Hstep; [lia|]. destruct (14 <? _); lia.
Qed.

Lemma run_more_replicate n s l :
  exists rest, l = replicate (run_more n s l) s ++ rest.
Proof.
  revert l. induction n as [|n IH]; intros l; [by exists l|]. destruct l as [|x l]; [by exists []|].
  cbn [run_more]. destruct (Z.eqb_spec x s) as [->|]; [|by eexists].
  destruct (IH l) as [rest E]. exists rest. simpl. by f_equal.
Qed.

Lemma run_chunk_symbols s (run : nat) :
  status_ok s -> Z.of_nat run <= 0x1FFF ->
  let c := Z.lor (Z.shiftl (Z.land s 3) 13) (Z.land (Z.of_nat run) 0x1FFF) in
  chunk_symbols c = replicate run s /\ 0 <= c < 2 ^ 16.
Proof.
  intros Hs Hr c. unfold status_ok in Hs.
  assert (Ec : c = s * 2 ^ 13 + Z.of_nat run).
  { subst c. assert (Z.land s 3 = s) as -> by solve_arith.
    assert (Z.land (Z.of_nat run) 0x1FFF = Z.of_nat run) as -> by solve_arith.
    apply lor_shiftl_add; lia. }
  split; [|lia]. unfold chunk_symbols.
  assert (Z.land c 0x8000 =? 0 = true) as ->.
  { change 0x8000 with (Z.shiftl 1 15). apply negb_false_iff. rewrite land_pow2 by lia.
    apply (testbit_high 15); lia. }
  rewrite Ec. f_equal; [|solve_arith]. bits_to_arith. pow_eval. dlia.
Qed.

Lemma vector_chunk_spec k l c :
  0 <= k -> k + blen l <= 14 -> 0 <= c < 2 ^ 16 ->
  0 <= vector_chunk k l c < 2 ^ 16 /\
  (forall j, 14 <= j -> Z.testbit (vector_chunk k l c) j = Z.testbit c j) /\
  (forall j, 0 <= j < 14 ->
     Z.testbit (vector_chunk k l c) j =
       Z.testbit c j || bool_decide (0 <= 13 - k - j /\ l !! Z.to_nat (13 - k - j) = Some STATUS_SMALL_DELTA)).
Proof.
  revert k c. induction l as [|s l IH]; intros k c Hk Hl Hc; cbn [vector_chunk].
  { split_and!; [lia..|done|]. intros. rewrite bool_decide_eq_false_2, orb_false_r by (by intros [??]).
    done. }
  lens. pose proof (blen_nonneg l).
  assert (Hp : u16 (Z.shiftl 1 (13 - k)) = 2 ^ (13 - k)).
  { rewrite Z.shiftl_1_l. apply u16_id. split; [lia|]. apply Z.pow_lt_mono_r; lia. }
  rewrite Hp. set (c' := if s =? STATUS_SMALL_DELTA then Z.lor c (2 ^ (13 - k)) else c).
  assert (Hc' : 0 <= c' < 2 ^ 16).
  { subst c'. destruct (s =? _); [|done]. apply lor_range; [lia|done|].
    split; [lia|]. apply Z.pow_lt_mono_r; lia. }
  assert (Hb : forall j, 0 <= j -> Z.testbit c' j
    = Z.testbit c j || ((s =? STATUS_SMALL_DELTA) && bool_decide (j = 13 - k))).
  { intros j Hj. subst c'. destruct (s =? _); simpl; [|by rewrite orb_false_r].
    by rewrite Z.lor_spec, testbit_pow2 by lia. }
  destruct (IH (k + 1) c') as (Hr & Hhi & Hlo); [lia|lia|done|]. split_and!; [lia..| |].
  - intros j Hj. rewrite Hhi, Hb by lia. rewrite bool_decide_eq_false_2 by lia.
    by rewrite andb_false_r, orb_false_r.
  - intros j Hj. rewrite Hlo, Hb by lia. rewrite <-orb_assoc. f_equal.
    destruct (Z.lt_trichotomy (13 - k - j) 0) as [Hlt|[Heq|Hgt]].
    + rewrite !bool_decide_eq_false_2 by lia. by rewrite andb_false_r.
    + replace (Z.to_nat (13 - k - j)) with O by lia. simpl.
      rewrite (bool_decide_eq_true_2 (j = 13 - k)) by lia. rewrite andb_true_r.
      rewrite (bool_decide_eq_false_2 (0 <= 13 - (k + 1) - j /\ _)) by lia. rewrite orb_false_r.
      destruct (Z.eqb_spec s STATUS_SMALL_DELTA) as [->|].
      * symmetry. apply bool_decide_eq_true_2. split; [lia|done].
      * symmetry. apply bool_decide_eq_false_2. naive_solver.
    + rewrite (bool_decide_eq_false_2 (j = 13 - k)) by lia. rewrite andb_false_r. simpl orb.
      replace (Z.to_nat (13 - k - j)) with (S (Z.to_nat (13 - (k + 1) - j))) by lia.
      apply bool_decide_ext. simpl. naive_solver lia.
Qed.

Lemma bit_symbol c n : 0 <= n -> negb (Z.land (Z.shiftr c n) 1 =? 0) = Z.testbit c n.
Proof.
  intros Hn. pose proof (land_pow2 (Z.shiftr c n) 0 ltac:(lia)) as H. change (Z.shiftl 1 0) with 1 in H.
  rewrite H, Z.shiftr_spec by lia. by rewrite Z.add_0_l.
Qed.

Lemma vector_symbols l :
  (length l <= 14)%nat -> Forall (fun s => status_ok s /\ s <> STATUS_LARGE_DELTA) l ->
  length (chunk_symbols (vector_chunk 0 l 0x8000)) = 14%nat /\
  take (length l) (chunk_symbols (vector_chunk 0 l 0x8000)) = l.
Proof.
  intros Hl HF. destruct (vector_chunk_spec 0 l 0x8000) as (Hr & Hhi & Hlo); [lia|unfold blen; lia|lia|].
  set (c := vector_chunk 0 l 0x8000) in *. unfold chunk_symbols.
  assert (Z.land c 0x8000 =? 0 = false) as ->.
  { change 0x8000 with (Z.shiftl 1 15). apply negb_true_iff. rewrite land_pow2 by lia.
    by rewrite Hhi by lia. }
  assert (Z.land (Z.shiftr c 14) 1 =? 0 = true) as ->.
  { apply negb_false_iff. rewrite bit_symbol by lia. by rewrite Hhi by lia. }
  split; [by rewrite length_fmap, length_seq|]. apply list_eq. intros i. destruct (decide (i < length l)%nat) as [Hi|Hi].
  - rewrite lookup_take_lt, list_lookup_fmap, lookup_seq_lt by lia. cbn [fmap option_fmap option_map].
    rewrite bit_symbol, Hlo by lia. change (Z.testbit 0x8000 (13 - Z.of_nat (0 + i))) with
      (Z.testbit (2 ^ 15) (13 - Z.of_nat (0 + i))). rewrite testbit_pow2 by lia.
    rewrite (bool_decide_eq_false_2 (_ = 15)) by lia. cbn [orb].
    replace (Z.to_nat (13 - 0 - (13 - Z.of_nat (0 + i)))) with i by lia.
    destruct (lookup_lt_is_Some_2 l i Hi) as [x Hx]. rewrite Hx.
    pose proof (Forall_lookup_1 _ _ _ _ HF Hx) as [Hok Hne].
    destruct (decide (x = STATUS_SMALL_DELTA)) as [->|Hx1].
    + rewrite bool_decide_eq_true_2; [done|]. split; [lia|done].
    + rewrite bool_decide_eq_false_2 by naive_solver. f_equal.
      unfold status_ok, STATUS_LARGE_DELTA, STATUS_SMALL_DELTA, STATUS_NOT_RECV in *. lia.
  - rewrite (lookup_ge_None_2 l) by lia. apply lookup_ge_None_2. rewrite length_take. lia.
Qed.

Lemma run_more_le n s l : (run_more n s l <= n)%nat /\ (run_more n s l <= length l)%nat.
Proof.
  revert l. induction n as [|n IH]; intros l; [simpl; lia|]. destruct l as [|x l]; [simpl; lia|].
  cbn [run_more]. destruct (x =? s); [|simpl; lia]. destruct (IH l). simpl. lia.
Qed.

(** the first chunk and the statuses [head] it stands for *)
Lemma first_chunk fuel s rest :
  Forall status_ok (s :: rest) -> vectors_exact (S fuel) (s :: rest) ->
  exists c k, (1 <= k <= length (s :: rest))%nat /\
    chunks_of (S fuel) (s :: rest) = c :: chunks_of fuel (drop k (s :: rest)) /\
    vectors_exact fuel (drop k (s :: rest)) /\ 0 <= c < 2 ^ 16 /\
    take (length (s :: rest)) (chunk_symbols c) = take k (s :: rest).
Proof.
  intros HF Hv. cbn [chunks_of vectors_exact] in *. cbv zeta in *.
  set (run := S (run_more (Z.to_nat 0x1FFE) s rest)) in *.
  pose proof (run_more_le (Z.to_nat 0x1FFE) s rest) as [R1 R2].
  destruct (run_more_replicate (Z.to_nat 0x1FFE) s rest) as [rest' E].
  destruct (_ || _).
  - destruct (run_chunk_symbols s run) as [Hs Hc]; [by apply Forall_cons_1 in HF as [? _]|lia|].
    eexists _, run. split_and!; [lia|simpl; lia|done|done|lia|lia|]. rewrite Hs.
    assert (Es : s :: rest = replicate run s ++ rest') by (rewrite E at 1; done).
    rewrite Es. rewrite take_ge by (rewrite length_app, length_replicate; lia).
    by rewrite take_app_length' by (by rewrite length_replicate).
  - destruct Hv as [Hnl Hv].
    set (k := Z.to_nat (if 14 <? blen (s :: rest) then 14 else blen (s :: rest))) in *.
    assert (Hk : (k <= 14)%nat /\ (1 <= k <= length (s :: rest))%nat /\
      (k < length (s :: rest) -> k = 14)%nat).
    { subst k. unfold blen. destruct (Z.ltb_spec 14 (Z.of_nat (length (s :: rest))));
        cbn [length] in *; lia. }
    assert (Hlk : length (take k (s :: rest)) = k) by (rewrite length_take; lia).
    assert (HFk : Forall (fun s => status_ok s /\ s <> STATUS_LARGE_DELTA) (take k (s :: rest))).
    { apply Forall_forall. intros x Hx. split.
      - eapply Forall_forall in Hx; [exact Hx|]. by apply Forall_take.
      - rewrite Forall_forall in Hnl. by apply Hnl. }
    pose proof (vector_symbols (take k (s :: rest)) ltac:(lia) HFk) as [Hl14 Hsym]. rewrite Hlk in Hsym.
    destruct (vector_chunk_spec 0 (take k (s :: rest)) 0x8000) as (Hr & _); [lia|unfold blen; lia|lia|].
    eexists _, k. split_and!; [lia|lia|done|done|lia|lia|].
    destruct (decide (k < length (s :: rest))%nat) as [Hlt|]; [|by replace (length (s :: rest)) with k by lia].
    set (sy := chunk_symbols _) in *. clearbody sy. etrans; [|exact Hsym]. by rewrite (take_ge _ (length (s :: rest))), (take_ge _ k) by lia.
Qed.

Lemma chunk_loop_decodes f fuel status pre post filled p cnt :
  Forall status_ok status -> vectors_exact f status -> (length status < f)%nat ->
  (length (chunks_of f status) < fuel)%nat -> p = blen pre -> cnt = blen filled + blen status ->
  chunk_loop fuel (pre ++ mjoin (be16 <$> chunks_of f status) ++ post) cnt p filled
  = Ok (filled ++ status, p + 2 * blen (chunks_of f status)).
Proof.
  revert fuel status pre filled p. induction f as [|f IH]; intros fuel status pre filled p HF Hv Hf Hfu -> ->;
    [lia|]. destruct fuel as [|fuel]; [lia|]. destruct status as [|s rest].
  { cbn [chunk_loop chunks_of]. lens. rewrite (proj2 (Z.ltb_ge _ _)) by lia. by rewrite app_nil_r, Z.add_0_r. }
  destruct (first_chunk f s rest HF Hv) as (c & k & Hk & Hch & Hv' & Hc & Hsym).
  rewrite Hch in Hfu |- *. cbn [length] in Hfu. set (l := s :: rest) in *. assert (Hl : 0 < blen l) by (unfold blen; lia).
  change (mjoin (be16 <$> c :: chunks_of f (drop k l)))
    with (be16 c ++ mjoin (be16 <$> chunks_of f (drop k l))).
  set (cs := mjoin (be16 <$> chunks_of f (drop k l))) in *. cbn [chunk_loop].
  rewrite (proj2 (Z.ltb_lt _ _)) by lia. pose proof (blen_nonneg cs). pose proof (blen_nonneg post).
  rewrite (bind_Ok_l _ _ ()) by (apply fail_if_Ok, Z.ltb_ge; lens; lia).
  rewrite <-app_assoc. rewrite (bind_Ok_l _ _ c) by (by apply rd_u16_at).
  replace (Z.to_nat (blen filled + blen l - blen filled)) with (length l) by (unfold blen; lia).
  rewrite Hsym, app_assoc. subst cs. rewrite (IH fuel).
  - rewrite <-app_assoc, take_drop. do 2 f_equal. lens. lia.
  - by apply Forall_drop.
  - done.
  - rewrite length_drop. lia.
  - lia.
  - by lens.
  - lens. unfold blen. rewrite length_take, length_drop. lia.
Qed.

(** ** Receive deltas *)

Definition sd_ok (sd : Z * Z) : Prop :=
  sd = (STATUS_NOT_RECV, 0) \/ (sd.1 = STATUS_SMALL_DELTA /\ -128 <= sd.2 <= 127) \/
  (sd.1 = STATUS_LARGE_DELTA /\ -32768 <= sd.2 <= 32767).

Definition dbytes (sd : Z * Z) : bytes :=
  if sd.1 =? STATUS_SMALL_DELTA then [u8 sd.2]
  else if sd.1 =? STATUS_LARGE_DELTA then be16 sd.2 else [].

Lemma dbytes_cons sd sds : mjoin (dbytes <$> sd :: sds) = dbytes sd ++ mjoin (dbytes <$> sds).
Proof. done. Qed.

Lemma blen_dbytes sd : 0 <= blen (dbytes sd) <= 2.
Proof. unfold dbytes. destruct (_ =? _); [done|]. by destruct (_ =? _). Qed.

Lemma emit_deltas_eq cap sds out :
  blen out + 2 * blen sds <= cap ->
  emit_deltas cap sds out = Ok (out ++ mjoin (dbytes <$> sds)) /\
  blen (mjoin (dbytes <$> sds)) <= 2 * blen sds.
Proof.
  revert out. induction sds as [|[s d] sds IH]; intros out Hc.
  { split; [simpl; by rewrite app_nil_r|done]. }
  rewrite dbytes_cons. pose proof (blen_dbytes (s, d)). lens. pose proof (blen_nonneg sds).
  assert (E : emit_deltas cap ((s, d) :: sds) out = emit_deltas cap sds (out ++ dbytes (s, d))).
  { cbn [emit_deltas]. unfold dbytes, STATUS_SMALL_DELTA, STATUS_LARGE_DELTA in *. cbn [fst snd].
    destruct (s =? 1); [by pass_guard|]. destruct (s =? 2); [by pass_guard|]. by rewrite app_nil_r. }
  rewrite E. destruct (IH (out ++ dbytes (s, d))) as [-> ?]; [lens; lia|].
  split; [by rewrite <-app_assoc|lia].
Qed.

(** the items of statuses and deltas, from time [cur] on *)
Fixpoint items_of (sq cur : Z) (sds : list (Z * Z)) : list twcc_item :=
  match sds with
  | [] => []
  | (s, d) :: sds =>
      if s =? STATUS_NOT_RECV then Item sq false 0 :: items_of (u16 (sq + 1)) cur sds
      else let cur := u64 (cur + d * RTC_TWCC_TICK_US) in
           Item sq true cur :: items_of (u16 (sq + 1)) cur sds
  end.

Lemma be16_mod d : be16 (d mod 2 ^ 16) = be16 d.
Proof. unfold be16. f_equal; [|f_equal]; bits_to_arith; pow_eval; dlia. Qed.

Lemma delta_loop_decodes sds pre post sq p cur :
  Forall sd_ok sds -> p = blen pre ->
  delta_loop (pre ++ mjoin (dbytes <$> sds) ++ post) sq p cur (fst <$> sds)
  = Ok (items_of sq cur sds).
Proof.
  revert pre sq p cur. induction sds as [|[s d] sds IH]; intros pre sq p cur HF ->; [done|].
  apply Forall_cons_1 in HF as [Hs HF]. rewrite dbytes_cons, <-app_assoc.
  pose proof (blen_nonneg (mjoin (dbytes <$> sds))). pose proof (blen_nonneg post).
  change (fst <$> (s, d) :: sds) with (s :: (fst <$> sds)). cbn [delta_loop items_of].
  destruct Hs as [[= -> ->]|[[Hs Hd]|[Hs Hd]]]; [|simpl in Hs, Hd; subst s..].
  - simpl (STATUS_NOT_RECV =? _). cbn match. change (dbytes (STATUS_NOT_RECV, 0)) with (@nil Z).
    rewrite app_nil_l. by rewrite IH by done.
  - simpl (_ =? _). cbn match. change (dbytes (STATUS_SMALL_DELTA, d)) with [u8 d].
    rewrite (bind_Ok_l (fail_if _ _) _ ()) by (apply fail_if_Ok, Z.ltb_ge; lens; lia).
    assert (R : rd (pre ++ [u8 d] ++ mjoin (dbytes <$> sds) ++ post) (blen pre) = Ok (u8 d)).
    { rewrite rd_app_r, Z.sub_diag by lia. done. }
    step R. cbn [mbind res_bind]. rewrite app_assoc, IH by (done || (lens; lia)).
    assert (s8 (u8 d) = d) as ->; [|done]. unfold s8, u8. rewrite sint_mod by lia.
    apply sint_id; simpl; lia.
  - simpl (_ =? _). cbn match. change (dbytes (STATUS_LARGE_DELTA, d)) with (be16 d).
    rewrite (bind_Ok_l (fail_if _ _) _ ()) by (apply fail_if_Ok, Z.ltb_ge; lens; lia).
    rewrite (bind_Ok_l (rd_u16 _ _) _ (d mod 2 ^ 16)).
    2: { rewrite <-be16_mod. apply rd_u16_at; [done|]. apply Z.mod_pos_bound. lia. }
    cbn [mbind res_bind]. rewrite app_assoc, IH by (done || (lens; lia)).
    assert (s16 (d mod 2 ^ 16) = d) as ->; [|done]. unfold s16. rewrite sint_mod by lia.
    apply sint_id; simpl; lia.
Qed.

Lemma emit_pad_eq cap out :
  blen out + 3 <= cap ->
  exists z, emit_pad 3 cap out = Ok (out ++ z) /\ blen z <= 3 /\ (blen out + blen z) mod 4 = 0.
Proof.
  intros Hc. pose proof (blen_nonneg out).
  assert (Hstep : forall n o, blen o < cap -> blen o mod 4 <> 0 ->
    emit_pad (S n) cap o = emit_pad n cap (o ++ [0])).
  { intros n o Ho Hm. cbn [emit_pad]. rewrite (land_mask 2) by done. pow_eval.
    rewrite (proj2 (Z.eqb_neq _ _) Hm). cbn [negb]. by pass_guard. }
  assert (Hend : forall n o, blen o mod 4 = 0 -> emit_pad n cap o = Ok o).
  { intros n o Hm. destruct n; cbn [emit_pad]; rewrite (land_mask 2) by done; pow_eval; by rewrite Hm. }
  assert (blen out mod 4 = 0 \/ blen out mod 4 = 3 \/ blen out mod 4 = 2 \/ blen out mod 4 = 1)
    as [E|[E|[E|E]]] by dlia.
  - exists []. rewrite app_nil_r, Hend by done. lens. split_and!; [done|lia|dlia].
  - exists [0]. rewrite Hstep, Hend by (lens; dlia). lens. split_and!; [done|lia|dlia].
  - exists [0; 0]. rewrite !Hstep, Hend by (lens; dlia). rewrite <-app_assoc. lens.
    split_and!; [done|lia|dlia].
  - exists [0; 0; 0]. rewrite !Hstep, Hend by (lens; dlia). rewrite <-!app_assoc. lens.
    split_and!; [done|lia|dlia].
Qed.

(** ** Arrival times *)

Definition time_ok (e : rtc_twcc_recv_entry_t) : Prop := 0 <= re_recv_time_us e < 2 ^ 62.

(** what an item says of an entry is true to one tick *)
Definition reported (e : rtc_twcc_recv_entry_t) (it : twcc_item) : Prop :=
  it_received it = true ->
  re_received e = true /\ Z.abs (it_recv_time_us it - re_recv_time_us e) < RTC_TWCC_TICK_US.

(** the status, the delta and the next reference time of an arrival *)
Definition tick_of (t prev : Z) : Z * Z * Z :=
  let q := Z.quot (t - prev) RTC_TWCC_TICK_US in
  if (-128 <=? q) && (q <=? 127) then (STATUS_SMALL_DELTA, q, prev + q * RTC_TWCC_TICK_US)
  else if (-32768 <=? q) && (q <=? 32767) then (STATUS_LARGE_DELTA, q, prev + q * RTC_TWCC_TICK_US)
  else (STATUS_NOT_RECV, 0, prev).

Lemma s64_id x : - 2 ^ 63 <= x < 2 ^ 63 -> s64 x = x.
Proof. apply (sint_id 64). lia. Qed.

Lemma status_loop_cons e es prev :
  time_ok e -> 0 <= prev < 2 ^ 62 -> re_received e = true ->
  status_loop (e :: es) prev =
    let '(s, d, prev') := tick_of (re_recv_time_us e) prev in
    rest ← status_loop es prev'; Ok ((s, d) :: rest).
Proof.
  intros He Hp Hr. unfold time_ok in He. cbn [status_loop]. rewrite Hr. cbn [negb]. cbv zeta.
  set (t := re_recv_time_us e) in *. rewrite (s64_id t), (s64_id prev) by lia.
  rewrite s64_id by lia. rewrite Z.eqb_refl. cbn [negb fault_if mbind res_bind]. unfold tick_of.
  assert (Hb : 0 <= prev + Z.quot (t - prev) RTC_TWCC_TICK_US * RTC_TWCC_TICK_US < 2 ^ 62).
  { unfold RTC_TWCC_TICK_US. dlia. }
  destruct (_ && _); [|destruct (_ && _)]; cbn [Z.eqb negb STATUS_SMALL_DELTA STATUS_LARGE_DELTA
    STATUS_NOT_RECV]; rewrite ?u64_id by lia; done.
Qed.

Lemma tick_of_ok t prev s d prev' :
  0 <= t < 2 ^ 62 -> 0 <= prev < 2 ^ 62 -> tick_of t prev = (s, d, prev') ->
  sd_ok (s, d) /\ 0 <= prev' < 2 ^ 62 /\
  (s = STATUS_NOT_RECV /\ prev' = prev \/
   s <> STATUS_NOT_RECV /\ prev' = prev + d * RTC_TWCC_TICK_US /\ Z.abs (prev' - t) < RTC_TWCC_TICK_US).
Proof.
  intros Ht Hp. unfold tick_of, sd_ok, RTC_TWCC_TICK_US. set (q := Z.quot (t - prev) 250).
  assert (Hq : Z.abs (prev + q * 250 - t) < 250 /\ 0 <= prev + q * 250 < 2 ^ 62) by (subst q; dlia).
  destruct (Z.leb_spec (-128) q), (Z.leb_spec q 127); cbn [andb];
    destruct (Z.leb_spec (-32768) q), (Z.leb_spec q 32767); cbn [andb]; intros [= <- <- <-]; cbn [fst snd];
    repeat split; try lia; auto 10 with lia.
Qed.

(** every status list is emitted correctly for its entries *)
Lemma status_loop_spec es prev sq :
  0 <= prev < 2 ^ 62 -> Forall time_ok es ->
  exists sds, status_loop es prev = Ok sds /\ Forall sd_ok sds /\ length sds = length es /\
    Forall2 reported es (items_of sq prev sds).
Proof.
  revert prev sq. induction es as [|e es IH]; intros prev sq Hp HF.
  { exists []. split_and!; constructor. }
  apply Forall_cons_1 in HF as [He HF]. destruct (re_received e) eqn:Hr.
  - rewrite status_loop_cons by done. destruct (tick_of _ prev) as [[s d] prev'] eqn:Et.
    destruct (tick_of_ok _ _ _ _ _ He Hp Et) as (Hsd & Hp' & Hc).
    destruct (IH prev' (u16 (sq + 1)) Hp' HF) as (sds & -> & Hs & Hl & Hr2).
    exists ((s, d) :: sds). cbn [mbind res_bind items_of]. split_and!; [done|by constructor|simpl; lia|].
    destruct Hc as [[-> ->]|(Hs0 & Hpe & Ha)]; [by constructor|].
    rewrite (proj2 (Z.eqb_neq _ _) Hs0). rewrite <-Hpe, u64_id by lia. constructor; [|done].
    intros _. split; [done|]. cbn [it_recv_time_us]. lia.
  - cbn [status_loop]. rewrite Hr. cbn [negb].
    destruct (IH prev (u16 (sq + 1)) Hp HF) as (sds & -> & Hs & Hl & Hr2).
    exists ((STATUS_NOT_RECV, 0) :: sds). split_and!; [done|constructor; [by left|done]|simpl; lia|].
    constructor; [done|exact Hr2].
Qed.

(** the statuses when every gap between arrivals fits a small delta *)
Fixpoint gaps_ok (last : Z) (es : list rtc_twcc_recv_entry_t) : Prop :=
  match es with
  | [] => True
  | e :: es =>
      if re_received e then
        Z.abs (re_recv_time_us e - last) <= 31500 /\ gaps_ok (re_recv_time_us e) es
      else gaps_ok last es
  end.

Definition small_status (e : rtc_twcc_recv_entry_t) : Z :=
  if re_received e then STATUS_SMALL_DELTA else STATUS_NOT_RECV.

Lemma status_loop_gaps es prev last sds :
  0 <= prev < 2 ^ 62 -> Forall time_ok es -> Z.abs (prev - last) < 250 -> gaps_ok last es ->
  status_loop es prev = Ok sds -> fst <$> sds = small_status <$> es.
Proof.
  revert prev last sds. induction es as [|e es IH]; intros prev last sds Hp HF Hl Hg; [by intros [= <-]|].
  apply Forall_cons_1 in HF as [He HF]. cbn [gaps_ok] in Hg.
  destruct (re_received e) eqn:Hr.
  - rewrite status_loop_cons by done. destruct Hg as [Hgap Hg].
    destruct (tick_of _ prev) as [[s d] prev'] eqn:Et.
    destruct (tick_of_ok _ _ _ _ _ He Hp Et) as (_ & Hp' & Hc).
    assert (s = STATUS_SMALL_DELTA) as ->.
    { unfold tick_of, RTC_TWCC_TICK_US in Et.
      destruct (Z.leb_spec (-128) (Z.quot (re_recv_time_us e - prev) 250)); [|dlia].
      destruct (Z.leb_spec (Z.quot (re_recv_time_us e - prev) 250) 127); [|dlia].
      cbn [andb] in Et. congruence. }
    destruct Hc as [[? _]|(_ & _ & Ha)]; [done|].
    intros (rest & Hrest & [= <-])%bind_Ok. rewrite !fmap_cons. unfold small_status at 1. rewrite Hr.
    cbn [fst]. f_equal. apply (IH prev' (re_recv_time_us e)); auto.
  - cbn [status_loop]. rewrite Hr. cbn [negb]. intros (rest & Hrest & [= <-])%bind_Ok.
    rewrite !fmap_cons. unfold small_status at 1. rewrite Hr. cbn [fst]. f_equal. by apply (IH prev last).
Qed.

Lemma no_large_exact f l : Forall (fun s => s <> STATUS_LARGE_DELTA) l -> vectors_exact f l.
Proof.
  revert l. induction f as [|f IH]; intros l HF; [done|]. destruct l as [|s l]; [done|].
  cbn [vectors_exact]. cbv zeta. destruct (_ || _); [by apply IH, Forall_drop|].
  split; [by apply Forall_take|by apply IH, Forall_drop].
Qed.

Lemma small_status_no_large es : Forall (fun s => s <> STATUS_LARGE_DELTA) (small_status <$> es).
Proof.
  apply Forall_fmap, Forall_forall. intros e _. simpl. unfold small_status. by destruct (re_received e).
Qed.

(** a large delta for the first packet only *)
Lemma first_large_exact f s es : vectors_exact f (s :: (small_status <$> es)).
Proof.
  destruct f as [|f]; [done|]. destruct (Z.eq_dec s STATUS_LARGE_DELTA) as [->|Hs].
  - cbn [vectors_exact]. cbv zeta. rewrite Z.eqb_refl, orb_true_r.
    apply no_large_exact. cbn [drop]. apply Forall_drop, small_status_no_large.
  - apply no_large_exact. constructor; [done|apply small_status_no_large].
Qed.

(** ** Building and parsing feedback *)

Record receiver_ok (r : rtc_twcc_receiver_t) : Prop := {
  rok_window : blen (window r) = RTC_TWCC_RECV_WINDOW;
  rok_base : 0 <= base_seq r < 2 ^ 16;
  rok_fb : byte_ok (fb_pkt_count r);
  rok_times : Forall time_ok (window r);
  rok_count : 0 <= count r <= RTC_TWCC_RECV_WINDOW;
  rok_first : have_base r = true ->
    1 <= count r /\ exists e, window r !! O = Some e /\ re_received e = true /\ re_seq e = base_seq r
}.

(** the entries a feedback packet covers *)
Definition covered (r : rtc_twcc_receiver_t) : list rtc_twcc_recv_entry_t :=
  take (Z.to_nat (count r)) (window r).

Lemma receiver_init_ok fb :
  byte_ok fb -> receiver_ok (Receiver (window rtc_twcc_receiver_init) 0 0 false fb).
Proof.
  intros Hfb. split; try done. by apply Forall_replicate.
Qed.

Lemma on_packet_ok r sq t :
  receiver_ok r -> 0 <= sq < 2 ^ 16 -> 0 <= t < 2 ^ 62 ->
  exists r', rtc_twcc_receiver_on_packet r sq t = Ok r' /\ receiver_ok r' /\ have_base r' = true.
Proof.
  intros Hok Hsq Htm. pose proof Hok as [Hw Hb Hfb Ht Hc Hf].
  unfold rtc_twcc_receiver_on_packet, RTC_TWCC_RECV_WINDOW in *.
  assert (Hn : time_ok (RecvEntry sq t true)) by done.
  destruct (have_base r) eqn:Hh; cbn [negb].
  - destruct (Hf eq_refl) as (Hc1 & e0 & He0 & Hr0 & Hs0).
    set (d := seq_after (base_seq r) sq).
    destruct (Z.ltb_spec d 0); [by exists r|].
    destruct (Z.leb_spec 256 d); [by exists r|].
    destruct (rd_in_range (window r) d) as [e He]; [lia|]. step He.
    set (c := if count r <? d + 1 then d + 1 else count r).
    assert (Hc' : 1 <= c <= 256) by (subst c; destruct (Z.ltb_spec (count r) (d + 1)); lia).
    destruct (re_received e) eqn:Hre.
    { eexists. split_and!; [done| |done]. split; unfold RTC_TWCC_RECV_WINDOW; cbn; try (done || lia).
      intros _. split; [lia|by exists e0]. }
    rewrite wr_Ok by lia. cbn [mbind res_bind]. eexists. split_and!; [done| |done].
    apply rd_Ok in He as [_ He].
    assert (Hd0 : Z.to_nat d <> O) by (intros E; rewrite E in He; congruence).
    split; unfold RTC_TWCC_RECV_WINDOW; cbn; try (done || lia).
    + unfold blen in *. by rewrite length_insert.
    + by apply Forall_insert.
    + intros _. split; [lia|]. exists e0. by rewrite list_lookup_insert_ne by lia.
  - rewrite wr_Ok by lia. cbn [mbind res_bind]. eexists. split_and!; [done| |done].
    split; unfold RTC_TWCC_RECV_WINDOW; cbn; try (done || lia).
    + unfold blen in *. by rewrite length_insert.
    + by apply Forall_insert.
    + intros _. split; [lia|]. eexists. rewrite list_lookup_insert_eq by (unfold blen in Hw; lia). done.
Qed.

(** the header with its length field *)
Definition fb_header (len s m base cnt ref64 fb : Z) : bytes :=
  [143; 205] ++ be16 len ++ be32 s ++ be32 m ++ be16 base ++ be16 cnt ++ be24 ref64 ++ [fb].

Lemma blen_fb_header len s m base cnt ref64 fb : blen (fb_header len s m base cnt ref64 fb) = 20.
Proof. done. Qed.
#[export] Hint Rewrite blen_fb_header : mrtc_len.

Definition ref64_of (t : Z) : Z := Z.land (t / 64000) 0x00FFFFFF.

Lemma ref64_range t : 0 <= ref64_of t < 2 ^ 24.
Proof. unfold ref64_of. rewrite (land_mask 24) by done. apply Z.mod_pos_bound. lia. Qed.

Lemma covered_first r :
  receiver_ok r -> have_base r = true ->
  exists e es, covered r = e :: es /\ re_received e = true /\ blen (covered r) = count r /\
    sub (window r) 0 (count r) = Ok (covered r) /\ Forall time_ok (covered r) /\
    0 < count r <= 256.
Proof.
  intros [Hw Hb Hfb Ht Hc Hf] Hh. destruct (Hf Hh) as (Hc1 & e & He & Hr & _).
  unfold covered, RTC_TWCC_RECV_WINDOW in *. destruct (window r) as [|e' es]; [done|].
  simpl in He. injection He as ->.
  exists e, (take (pred (Z.to_nat (count r))) es).
  assert (E : take (Z.to_nat (count r)) (e :: es) = e :: take (pred (Z.to_nat (count r))) es).
  { destruct (Z.to_nat (count r)) eqn:E; [lia|done]. }
  split_and!; [done|done| | |by apply Forall_take|lia|lia].
  - unfold blen in *. rewrite length_take. lia.
  - rewrite sub_Ok by lia. done.
Qed.

Lemma blen_be16s l : blen (mjoin (be16 <$> l)) = 2 * blen l.
Proof.
  induction l as [|c l IH]; [done|].
  change (mjoin (be16 <$> c :: l)) with (be16 c ++ mjoin (be16 <$> l)). lens. lia.
Qed.

(** the chunks, the deltas and the padding after a header *)
Lemma emit_body_ok hdr sds cap :
  blen hdr = 20 -> blen sds <= 256 -> 1200 <= cap ->
  let cs := mjoin (be16 <$> chunks_of (S (length sds)) (fst <$> sds)) in
  let ds := mjoin (dbytes <$> sds) in
  exists z, emit_chunks (S (length sds)) cap (fst <$> sds) hdr = Ok (hdr ++ cs) /\
    emit_deltas cap sds (hdr ++ cs) = Ok (hdr ++ cs ++ ds) /\
    emit_pad 3 cap (hdr ++ cs ++ ds) = Ok (hdr ++ cs ++ ds ++ z) /\
    blen (cs ++ ds ++ z) <= 1100.
Proof.
  intros Hh Hs Hcap cs ds. pose proof (blen_nonneg sds).
  destruct (emit_chunks_eq (S (length sds)) cap (fst <$> sds) hdr) as [Ech Hch].
  { rewrite length_fmap. lia. }
  { unfold blen in *. rewrite length_fmap. lia. }
  rewrite length_fmap in Hch.
  assert (Hcs : 0 <= blen cs <= 2 * blen sds) by (subst cs; rewrite blen_be16s; unfold blen; lia).
  destruct (emit_deltas_eq cap sds (hdr ++ cs)) as [Eds Hds]; [lens; lia|].
  fold ds in Eds, Hds. pose proof (blen_nonneg ds).
  destruct (emit_pad_eq cap (hdr ++ cs ++ ds)) as (z & Ez & Hz & _); [lens; lia|].
  exists z. split_and!; [done|by rewrite Eds, <-app_assoc|by rewrite Ez, <-!app_assoc|lens; lia].
Qed.

Lemma set_length_header s m base cnt ref64 fb body :
  0 <= cnt <= 256 ->
  set_length (twcc_header s m base cnt ref64 fb ++ body)
  = fb_header (u16 ((20 + blen body) / 4 - 1)) s m base cnt ref64 fb ++ body.
Proof.
  intros Hc. unfold set_length. rewrite blen_app.
  change (blen (twcc_header s m base cnt ref64 fb)) with 20.
  unfold twcc_header. rewrite (u16_id cnt) by lia. done.
Qed.

Lemma build_feedback_ok r s m cap :
  receiver_ok r -> have_base r = true -> 1200 <= cap ->
  exists e es sds z, covered r = e :: es /\ re_received e = true /\
    let ref64 := ref64_of (re_recv_time_us e) in
    status_loop (covered r) (ref64 * 64000) = Ok sds /\ Forall sd_ok sds /\
    blen sds = count r /\ 0 < count r <= 256 /\
    Forall2 reported (covered r) (items_of (base_seq r) (ref64 * 64000) sds) /\
    let body := mjoin (be16 <$> chunks_of (S (length sds)) (fst <$> sds)) ++
                mjoin (dbytes <$> sds) ++ z in
    let L := u16 ((20 + blen body) / 4 - 1) in
    rtc_twcc_receiver_build_feedback s m cap r =
      (Receiver (window rtc_twcc_receiver_init) 0 0 false (u8 (fb_pkt_count r + 1)),
       Ok (fb_header L s m (base_seq r) (count r) ref64 (fb_pkt_count r) ++ body)).
Proof.
  intros Hok Hh Hcap. destruct (covered_first r Hok Hh) as (e & es & Ec & Hre & Hbc & Hsub & Ht & Hcn).
  set (ref64 := ref64_of (re_recv_time_us e)).
  pose proof (ref64_range (re_recv_time_us e)) as Hr64. fold ref64 in Hr64.
  destruct (status_loop_spec (covered r) (ref64 * 64000) (base_seq r)) as (sds & Hst & Hsd & Hlen & Hrep);
    [lia|done|].
  assert (Hbs : blen sds = count r) by (unfold blen in *; lia).
  set (hdr := twcc_header s m (base_seq r) (count r) ref64 (fb_pkt_count r)).
  destruct (emit_body_ok hdr sds cap) as (z & E1 & E2 & E3 & _); [done|lia|done|].
  exists e, es, sds, z. split_and!; try done. cbv zeta. split_and!; try (done || lia).
  unfold rtc_twcc_receiver_build_feedback. rewrite st_bind_eq. cbn [get].
  rewrite Hh. rewrite (proj2 (Z.eqb_neq (count r) 0)) by lia. cbn [negb orb].
  rewrite (st_bind_lift _ _ _ ()) by done. rewrite (st_bind_lift _ _ _ ()) by (apply fail_if_Ok, Z.ltb_ge; lia).
  rewrite (st_bind_lift _ _ _ (covered r)) by done.
  assert (Hfirst : first_received (covered r) = Some e).
  { unfold first_received. rewrite Ec, filter_cons_True by done. done. }
  rewrite Hfirst. cbv zeta. fold (ref64_of (re_recv_time_us e)). fold ref64.
  rewrite (st_bind_lift _ _ _ sds) by done. fold hdr. rewrite st_bind_eq. cbn [put].
  rewrite (st_bind_lift _ _ _ _ E1), (st_bind_lift _ _ _ _ E2), (st_bind_lift _ _ _ _ E3).
  rewrite st_bind_eq. cbn [put]. unfold mret, st_ret. do 2 f_equal. apply set_length_header. lia.
Qed.

Lemma be24_lor v :
  0 <= v < 2 ^ 24 ->
  Z.lor (Z.lor (Z.shiftl (Z.land (Z.shiftr v 16) 255) 16) (Z.shiftl (Z.land (Z.shiftr v 8) 255) 8))
    (Z.land v 255) = v.
Proof.
  intros Hv. pose proof (lor32 0 (Z.land (Z.shiftr v 16) 255) (Z.land (Z.shiftr v 8) 255) (Z.land v 255)
    (land_255_byte _) (land_255_byte _) (land_255_byte _)) as H.
  rewrite Z.shiftl_0_l, Z.lor_0_l in H. rewrite H. solve_arith.
Qed.

(** the parser on a header and a body *)
Lemma parse_twcc_header len s m base cnt ref64 fb body :
  u32_ok s -> u32_ok m -> 0 <= base < 2 ^ 16 -> 0 < cnt <= 256 -> 0 <= ref64 < 2 ^ 24 ->
  let d := fb_header len s m base cnt ref64 fb ++ body in
  rtc_rtcp_parse_twcc d =
    (sp ← chunk_loop (S (length d)) d cnt 20 [];
     let '(status, p) := sp in
     items ← delta_loop d base p (ref64 * 64000) status;
     Ok (TwccFb s m base fb (ref64 * 64000) items)).
Proof.
  intros Hs Hm Hb Hc Hr d. assert (Hl : blen d = 20 + blen body) by (subst d; by lens).
  pose proof (blen_nonneg body). unfold rtc_rtcp_parse_twcc. pass_guard.
  rewrite (bind_Ok_l _ _ 143), (bind_Ok_l _ _ ()) by done.
  assert (R1 : rd_u32 d 4 = Ok s) by (by apply (rd_u32_at ([143; 205] ++ be16 len))).
  assert (R2 : rd_u32 d 8 = Ok m) by (by apply (rd_u32_at (([143; 205] ++ be16 len) ++ be32 s))).
  assert (R3 : rd_u16 d 12 = Ok base)
    by (by apply (rd_u16_at ((([143; 205] ++ be16 len) ++ be32 s) ++ be32 m))).
  assert (R4 : rd_u16 d 14 = Ok cnt).
  { apply (rd_u16_at (((([143; 205] ++ be16 len) ++ be32 s) ++ be32 m) ++ be16 base)); [done|lia]. }
  step R1. step R2. step R3. step R4.
  rewrite (bind_Ok_l _ _ (Z.land (Z.shiftr ref64 16) 0xFF)) by done.
  rewrite (bind_Ok_l _ _ (Z.land (Z.shiftr ref64 8) 0xFF)) by done.
  rewrite (bind_Ok_l _ _ (Z.land ref64 0xFF)) by done.
  cbv zeta. rewrite be24_lor by done. rewrite (bind_Ok_l _ _ fb) by done.
  rewrite (bind_Ok_l _ _ ()); [done|]. apply fail_if_Ok.
  rewrite orb_false_iff, Z.eqb_neq, Z.ltb_ge. unfold RTC_TWCC_PARSE_MAX. lia.
Qed.

Lemma parse_feedback_ok len s m base cnt ref64 fb sds z :
  u32_ok s -> u32_ok m -> 0 <= base < 2 ^ 16 -> 0 < cnt <= 256 -> 0 <= ref64 < 2 ^ 24 ->
  Forall sd_ok sds -> blen sds = cnt -> vectors_exact (S (length sds)) (fst <$> sds) ->
  rtc_rtcp_parse_twcc (fb_header len s m base cnt ref64 fb ++
    mjoin (be16 <$> chunks_of (S (length sds)) (fst <$> sds)) ++ mjoin (dbytes <$> sds) ++ z)
  = Ok (TwccFb s m base fb (ref64 * 64000) (items_of base (ref64 * 64000) sds)).
Proof.
  intros Hs Hm Hb Hc Hr Hsd Hcnt Hv. rewrite parse_twcc_header by done.
  set (hdr := fb_header len s m base cnt ref64 fb).
  set (cs := mjoin (be16 <$> chunks_of (S (length sds)) (fst <$> sds))).
  assert (Hst : Forall status_ok (fst <$> sds)).
  { apply Forall_fmap. eapply Forall_impl; [|exact Hsd]. intros [x d] [[= -> ->]|[[Hx _]|[Hx _]]];
      [done|cbn in Hx; by subst x..]. }
  rewrite (bind_Ok_l _ _ (fst <$> sds, 20 + 2 * blen (chunks_of (S (length sds)) (fst <$> sds)))).
  - rewrite (app_assoc hdr). rewrite (bind_Ok_l _ _ (items_of base (ref64 * 64000) sds)); [done|].
    apply delta_loop_decodes; [done|]. subst cs. lens. by rewrite blen_be16s.
  - pose proof (chunk_loop_decodes (S (length sds))
      (S (length (hdr ++ cs ++ mjoin (dbytes <$> sds) ++ z))) (fst <$> sds) hdr
      (mjoin (dbytes <$> sds) ++ z) [] 20 cnt) as E. rewrite length_fmap in E. apply E; try done.
    + lia.
    + pose proof (blen_be16s (chunks_of (S (length sds)) (fst <$> sds))) as Hcl. fold cs in Hcl.
      rewrite !length_app. unfold blen in Hcl. lia.
    + unfold blen in *. rewrite length_fmap. simpl. lia.
Qed.

Lemma items_received sq cur sds :
  it_received <$> items_of sq cur sds = (fun s => negb (s =? STATUS_NOT_RECV)) <$> (fst <$> sds).
Proof.
  revert sq cur. induction sds as [|[s d] sds IH]; intros sq cur; [done|]. cbn [items_of].
  destruct (s =? STATUS_NOT_RECV) eqn:E; rewrite !fmap_cons, IH; cbn [it_received fst]; by rewrite E.
Qed.

Lemma small_status_received (es : list rtc_twcc_recv_entry_t) :
  (fun s => negb (s =? STATUS_NOT_RECV)) <$> (small_status <$> es) = re_received <$> es.
Proof.
  rewrite <-list_fmap_compose. apply list_fmap_ext. intros _ e _. cbn. unfold small_status.
  by destruct (re_received e).
Qed.

Lemma items_seq sq cur sds :
  0 <= sq < 2 ^ 16 ->
  it_seq <$> items_of sq cur sds = (fun i => u16 (sq + Z.of_nat i)) <$> seq 0 (length sds).
Proof.
  revert sq cur. induction sds as [|[s d] sds IH]; intros sq cur Hsq; [done|].
  assert (E : forall cur', it_seq <$> items_of (u16 (sq + 1)) cur' sds
    = (fun i => u16 (sq + Z.of_nat i)) <$> seq 1 (length sds)).
  { intros cur'. rewrite IH by apply u16_range. rewrite <-fmap_S_seq, <-list_fmap_compose.
    apply list_fmap_ext. intros _ i _. cbn. unfold u16. rewrite Zplus_mod_idemp_l. f_equal. lia. }
  cbn [items_of length seq]. rewrite fmap_cons, Z.add_0_r, (u16_id sq) by lia.
  destruct (s =? STATUS_NOT_RECV); rewrite fmap_cons, E; done.
Qed.

(** when the feedback is exact: the first delta may be large, the others not *)
Lemma statuses_exact e es sds :
  Forall time_ok (e :: es) -> re_received e = true -> re_recv_time_us e < 2 ^ 24 * 64000 ->
  gaps_ok (re_recv_time_us e) es ->
  status_loop (e :: es) (ref64_of (re_recv_time_us e) * 64000) = Ok sds ->
  exists s, s <> STATUS_NOT_RECV /\ fst <$> sds = s :: (small_status <$> es).
Proof.
  intros HF Hr Hlim Hg. apply Forall_cons_1 in HF as [He HF]. pose proof He as He'. unfold time_ok in He'.
  assert (Eref : ref64_of (re_recv_time_us e) = re_recv_time_us e / 64000).
  { unfold ref64_of. rewrite (land_mask 24) by done. apply Z.mod_small. pow_eval. dlia. }
  rewrite Eref. set (t := re_recv_time_us e) in *. set (base := t / 64000 * 64000).
  assert (Hb : 0 <= base /\ 0 <= t - base < 64000) by (subst base; dlia).
  rewrite status_loop_cons by (done || lia). fold t.
  destruct (tick_of t base) as [[s d] prev'] eqn:Et.
  assert (Hbr : 0 <= base < 2 ^ 62) by lia.
  destruct (tick_of_ok _ _ _ _ _ He' Hbr Et) as (_ & Hp' & Hc).
  assert (Hs : s <> STATUS_NOT_RECV).
  { unfold tick_of, RTC_TWCC_TICK_US in Et.
    destruct (Z.leb_spec (-128) (Z.quot (t - base) 250)); [|dlia].
    destruct (Z.leb_spec (-32768) (Z.quot (t - base) 250)); [|dlia].
    destruct (Z.leb_spec (Z.quot (t - base) 250) 32767); [|dlia].
    cbn [andb] in Et. destruct (_ <=? 127); injection Et as <- _ _; done. }
  destruct Hc as [[? _]|(_ & _ & Ha)]; [done|].
  intros (rest & Hrest & [= <-])%bind_Ok. exists s. split; [done|]. rewrite fmap_cons. cbn [fst]. f_equal.
  by apply (status_loop_gaps es prev' t).
Qed.

(** deltas out of the 16-bit range *)
Lemma status_loop_far es base lo sds :
  0 <= base < 2 ^ 62 -> base + 2 ^ 23 <= lo -> Forall time_ok es ->
  Forall (fun x => re_received x = true -> lo <= re_recv_time_us x) es ->
  status_loop es base = Ok sds -> fst <$> sds = replicate (length sds) STATUS_NOT_RECV.
Proof.
  intros Hb Hlo. revert sds. induction es as [|e es IH]; intros sds HF HL; [by intros [= <-]|].
  apply Forall_cons_1 in HF as [He HF]. apply Forall_cons_1 in HL as [Hl HL].
  destruct (re_received e) eqn:Hr.
  - specialize (Hl eq_refl). rewrite status_loop_cons by done.
    assert (tick_of (re_recv_time_us e) base = (STATUS_NOT_RECV, 0, base)) as ->.
    { unfold tick_of, RTC_TWCC_TICK_US. set (q := Z.quot _ 250).
      assert (32768 <= q) by (subst q; pow_eval; dlia).
      by rewrite (proj2 (Z.leb_gt q 127)), (proj2 (Z.leb_gt q 32767)), !andb_false_r by lia. }
    intros (rest & Hrest & [= <-])%bind_Ok. cbn [length replicate]. rewrite fmap_cons. cbn [fst].
    by rewrite <-(IH rest).
  - cbn [status_loop]. rewrite Hr. cbn [negb]. intros (rest & Hrest & [= <-])%bind_Ok.
    cbn [length replicate]. rewrite fmap_cons. cbn [fst]. by rewrite <-(IH rest).
Qed.

Lemma chunk_loop_total fuel d cnt p filled :
  0 <= p -> (Z.to_nat (blen d - p) < fuel)%nat -> blen filled <= cnt -> p <= blen d ->
  match chunk_loop fuel d cnt p filled with
  | Ok (status, p') => blen status = cnt /\ p <= p'
  | Err e => e = RTC_ERR_INVALID
  | Fault => False
  end.
Proof.
  revert p filled. induction fuel as [|fuel IH]; intros p filled Hp Hf Hc Hpd; [lia|]. cbn [chunk_loop].
  destruct (Z.ltb_spec (blen filled) cnt); [|lia].
  destruct (Z.ltb_spec (blen d) (p + 2)); [done|]. cbn [fail_if mbind res_bind].
  destruct (rd_u16_in_range d p) as [c Ec]; [lia..|]. step Ec.
  assert (Hl : blen (filled ++ take (Z.to_nat (cnt - blen filled)) (chunk_symbols c)) <= cnt).
  { lens. unfold blen in *. rewrite length_take. lia. }
  specialize (IH (p + 2) _ ltac:(lia) ltac:(lia) Hl ltac:(lia)).
  destruct (chunk_loop fuel d cnt (p + 2) _) as [[status p']|e|]; [|done..]. split; [apply IH|lia].
Qed.

Lemma delta_loop_total d sq p cur status :
  0 <= p ->
  match delta_loop d sq p cur status with
  | Ok items => length items = length status
  | Err e => e = RTC_ERR_INVALID
  | Fault => False
  end.
Proof.
  revert sq p cur. induction status as [|s status IH]; intros sq p cur Hp; [done|]. cbn [delta_loop].
  destruct (s =? STATUS_NOT_RECV).
  { specialize (IH (u16 (sq + 1)) p cur Hp). by destruct (delta_loop _ _ _ _ _); simpl in *; [f_equal|..]. }
  assert (Hk : forall p' cur', 0 <= p' ->
    match (rest ← delta_loop d (u16 (sq + 1)) p' cur' status; Ok (Item sq true cur' :: rest)) with
    | Ok items => length items = length (s :: status) | Err e => e = RTC_ERR_INVALID | Fault => False end).
  { intros p' cur' Hp'. specialize (IH (u16 (sq + 1)) p' cur' Hp').
    by destruct (delta_loop _ _ _ _ _); simpl in *; [f_equal|..]. }
  destruct (s =? STATUS_SMALL_DELTA).
  { destruct (Z.ltb_spec (blen d) (p + 1)); [done|]. cbn [fail_if mbind res_bind].
    destruct (rd_in_range d p) as [b ->]; [lia|]. cbn [mbind res_bind]. apply Hk. lia. }
  destruct (s =? STATUS_LARGE_DELTA); [|done].
  destruct (Z.ltb_spec (blen d) (p + 2)); [done|]. cbn [fail_if mbind res_bind].
  destruct (rd_u16_in_range d p) as [w Ew]; [lia..|]. rewrite Ew. cbn [mbind res_bind]. apply Hk. lia.
Qed.

(** ** Sender history *)

Definition send_all (s : rtc_twcc_sender_t) (pkts : list (Z * Z)) : res rtc_twcc_sender_t :=
  foldl (fun r tp => s ← r; ss ← rtc_twcc_sender_assign s tp.1 tp.2; Ok ss.1) (Ok s) pkts.

(** the slots after [pkts] have been sent *)
Definition history_ok (pkts : list (Z * Z)) (s : rtc_twcc_sender_t) : Prop :=
  next_seq s = u16 (blen pkts) /\ blen (ring s) = RTC_TWCC_SENDER_RING /\
  forall k e, ring s !! k = Some e ->
    if sp_used e then
      exists i tp, pkts !! i = Some tp /\ k = (i mod 1024)%nat /\ blen pkts - Z.of_nat i <= 1024 /\
        e = SentPkt (u16 (Z.of_nat i)) tp.2 tp.1 true
    else blen pkts <= Z.of_nat k.

Lemma ring_index sq : Z.land sq (RTC_TWCC_SENDER_RING - 1) = sq mod 1024.
Proof. unfold RTC_TWCC_SENDER_RING. by rewrite (land_mask 10). Qed.

Lemma history_init : history_ok [] rtc_twcc_sender_init.
Proof.
  split_and!; [done|done|]. intros k e [-> _]%lookup_replicate. simpl. lens. lia.
Qed.

Lemma history_step pkts s t size :
  history_ok pkts s ->
  exists s', rtc_twcc_sender_assign s t size = Ok (s', u16 (blen pkts)) /\
    history_ok (pkts ++ [(t, size)]) s'.
Proof.
  intros (Hn & Hl & Hr). unfold rtc_twcc_sender_assign. rewrite Hn, ring_index.
  assert (Hm : u16 (blen pkts) mod 1024 = blen pkts mod 1024) by (unfold u16; pow_eval; dlia).
  assert (Hk : 0 <= blen pkts mod 1024 < 1024) by dlia. rewrite Hm.
  rewrite wr_Ok by (rewrite Hl; unfold RTC_TWCC_SENDER_RING; lia). cbn [mbind res_bind].
  eexists. split; [done|]. set (k0 := Z.to_nat (blen pkts mod 1024)).
  assert (Hk0 : k0 = (length pkts mod 1024)%nat).
  { subst k0. unfold blen. change 1024 with (Z.of_nat 1024). rewrite <-Nat2Z.inj_mod. by rewrite Nat2Z.id. }
  split_and!; cbn [next_seq ring].
  - lens. unfold u16. by rewrite Zplus_mod_idemp_l.
  - unfold blen in *. by rewrite length_insert.
  - intros k e. destruct (decide (k = k0)) as [->|Hne].
    + rewrite list_lookup_insert_eq by (unfold blen, RTC_TWCC_SENDER_RING in *; lia). intros [= <-].
      cbn [sp_used]. exists (length pkts), (t, size). split_and!; [|done|lens; unfold blen; lia|done].
      by rewrite lookup_app_r, Nat.sub_diag by lia.
    + rewrite list_lookup_insert_ne by done. intros He. specialize (Hr k e He). destruct (sp_used e).
      * destruct Hr as (i & tp & Hi & -> & Hage & ->). exists i, tp.
        apply lookup_lt_Some in Hi as Hlt. split_and!; [by rewrite lookup_app_l by lia|done| |done].
        lens. destruct (Z.eq_dec (blen pkts - Z.of_nat i) 1024) as [E|]; [|lia].
        exfalso. apply Hne. rewrite Hk0. unfold blen in E.
        replace (length pkts) with (i + 1 * 1024)%nat by lia. by rewrite Nat.Div0.mod_add.
      * lens. destruct (Z.eq_dec (blen pkts) (Z.of_nat k)) as [E|]; [|lia]. exfalso. apply Hne.
        apply lookup_lt_Some in He. unfold blen, RTC_TWCC_SENDER_RING in *. rewrite Hk0.
        rewrite Nat.mod_small by lia. lia.
Qed.

Lemma history_all pkts pre s :
  history_ok pre s ->
  exists s', send_all s pkts = Ok s' /\ history_ok (pre ++ pkts) s'.
Proof.
  revert pre s. induction pkts as [|[t size] pkts IH]; intros pre s Hs.
  { exists s. by rewrite app_nil_r. }
  destruct (history_step pre s t size Hs) as (s1 & E & H1). unfold send_all. cbn [foldl fst snd mbind res_bind].
  rewrite E. cbn [mbind res_bind fst]. destruct (IH _ _ H1) as (s2 & E2 & H2). exists s2.
  by rewrite <-app_assoc in H2.
Qed.

Lemma u16_ring i : u16 (Z.of_nat i) mod 1024 = Z.of_nat (i mod 1024).
Proof.
  unfold u16. rewrite Nat2Z.inj_mod. change (Z.of_nat 1024) with 1024. pow_eval. dlia.
Qed.

Lemma history_lookup pkts s i tp :
  history_ok pkts s -> pkts !! i = Some tp -> blen pkts - Z.of_nat i <= 1024 ->
  rtc_twcc_sender_lookup s (u16 (Z.of_nat i)) = Ok (Some (SentPkt (u16 (Z.of_nat i)) tp.2 tp.1 true)).
Proof.
  intros (Hn & Hl & Hr) Hi Hage. unfold rtc_twcc_sender_lookup. rewrite ring_index, u16_ring.
  pose proof (Nat.mod_upper_bound i 1024 ltac:(lia)) as Hk. apply lookup_lt_Some in Hi as Hlt.
  destruct (rd_in_range (ring s) (Z.of_nat (i mod 1024))) as [e He].
  { rewrite Hl. unfold RTC_TWCC_SENDER_RING. lia. }
  step He. apply rd_Ok in He as [_ He]. rewrite Nat2Z.id in He. specialize (Hr _ _ He).
  destruct (sp_used e) eqn:Hu.
  - destruct Hr as (j & tp' & Hj & Hmod & Hagej & ->). apply lookup_lt_Some in Hj as Hltj.
    assert (i = j) as <-.
    { pose proof (Nat.div_mod i 1024 ltac:(lia)). pose proof (Nat.div_mod j 1024 ltac:(lia)).
      unfold blen in *. nia. }
    replace tp' with tp by congruence. cbn [sp_used sp_seq negb orb]. by rewrite Z.eqb_refl.
  - exfalso. pose proof (Nat.Div0.mod_le i 1024). unfold blen in *. lia.
Qed.

(** a small first delta followed by a large one *)
Lemma large_second t gap :
  0 <= t < 2 ^ 24 * 64000 -> t mod 64000 < 32000 -> 32000 <= gap <= 8000000 ->
  exists q0 p0 q1 p1, tick_of t (t / 64000 * 64000) = (STATUS_SMALL_DELTA, q0, p0) /\
    tick_of (t + gap) p0 = (STATUS_LARGE_DELTA, q1, p1) /\ 0 <= p0 < 2 ^ 62.
Proof.
  intros Ht Hm Hg. unfold tick_of, RTC_TWCC_TICK_US.
  set (base := t / 64000 * 64000). assert (Hb : 0 <= base /\ 0 <= t - base < 32000) by (subst base; dlia).
  set (q0 := Z.quot (t - base) 250). assert (Hq0 : 0 <= q0 <= 127 /\ q0 * 250 <= t - base < q0 * 250 + 250)
    by (subst q0; dlia).
  exists q0, (base + q0 * 250). set (q1 := Z.quot (t + gap - (base + q0 * 250)) 250).
  assert (Hq1 : 128 <= q1 <= 32767) by (subst q1; dlia).
  exists q1, (base + q0 * 250 + q1 * 250). split_and!; [| |lia..].
  - by rewrite (proj2 (Z.leb_le (-128) q0)), (proj2 (Z.leb_le q0 127)) by lia.
  - rewrite (proj2 (Z.leb_gt q1 127)) by lia. rewrite andb_false_r.
    by rewrite (proj2 (Z.leb_le (-32768) q1)), (proj2 (Z.leb_le q1 32767)) by lia.
Qed.

(** the parser on the statuses [SMALL; LARGE] packed in a vector chunk *)
Lemma parse_two len s m sq ref64 q0 q1 z :
  u32_ok s -> u32_ok m -> 0 <= sq < 2 ^ 16 -> 0 <= ref64 < 2 ^ 24 ->
  rtc_rtcp_parse_twcc (fb_header len s m sq 2 ref64 0 ++
    mjoin (be16 <$> chunks_of 3 [STATUS_SMALL_DELTA; STATUS_LARGE_DELTA]) ++
    mjoin (dbytes <$> [(STATUS_SMALL_DELTA, q0); (STATUS_LARGE_DELTA, q1)]) ++ z)
  = Ok (TwccFb s m sq 0 (ref64 * 64000)
      [Item sq true (u64 (ref64 * 64000 + s8 (u8 q0) * RTC_TWCC_TICK_US)); Item (u16 (sq + 1)) false 0]).
Proof.
  intros Hs Hm Hsq Hr. rewrite parse_twcc_header by (done || lia).
  change (mjoin (be16 <$> chunks_of 3 [STATUS_SMALL_DELTA; STATUS_LARGE_DELTA])) with [160; 0].
  change (mjoin (dbytes <$> [(STATUS_SMALL_DELTA, q0); (STATUS_LARGE_DELTA, q1)])) with ([u8 q0] ++ be16 q1).
  set (hdr := fb_header len s m sq 2 ref64 0). set (d := hdr ++ [160; 0] ++ ([u8 q0] ++ be16 q1) ++ z).
  assert (Hd : blen d = 25 + blen z) by (subst d hdr; lens; lia). pose proof (blen_nonneg z).
  assert (E : chunk_loop (S (length d)) d 2 20 [] = Ok ([STATUS_SMALL_DELTA; STATUS_NOT_RECV], 22)).
  { destruct (length d) as [|n] eqn:El; [unfold blen in Hd; lia|]. cbn [chunk_loop].
    rewrite (proj2 (Z.ltb_lt _ _)) by (lens; lia). pass_guard.
    rewrite (bind_Ok_l _ _ 40960) by (by apply (rd_u16_at hdr 40960)). done. }
  step E. cbn [delta_loop]. simpl (STATUS_SMALL_DELTA =? _). cbn match. pass_guard.
  assert (R : rd d 22 = Ok (u8 q0)).
  { subst d. rewrite (app_assoc hdr), rd_app_r by (lens; lia). done. }
  step R. done.
Qed.

Lemma seq_after_succ sq : 0 <= sq < 2 ^ 16 -> seq_after sq (u16 (sq + 1)) = 1.
Proof.
  intros Hsq. unfold seq_after, s16. rewrite <-sint_mod by lia.
  assert ((u16 (sq + 1) - sq) mod 2 ^ 16 = 1) as -> by (unfold u16; pow_eval; dlia). done.
Qed.

(** two arrivals in a fresh window *)
Lemma two_packets sq t1 t2 :
  0 <= sq < 2 ^ 16 -> 0 <= t1 < 2 ^ 62 -> 0 <= t2 < 2 ^ 62 ->
  exists r1 r2, rtc_twcc_receiver_on_packet rtc_twcc_receiver_init sq t1 = Ok r1 /\
    rtc_twcc_receiver_on_packet r1 (u16 (sq + 1)) t2 = Ok r2 /\ receiver_ok r2 /\
    have_base r2 = true /\ base_seq r2 = sq /\ count r2 = 2 /\ fb_pkt_count r2 = 0 /\
    covered r2 = [RecvEntry sq t1 true; RecvEntry (u16 (sq + 1)) t2 true].
Proof.
  intros Hsq H1 H2.
  destruct (on_packet_ok rtc_twcc_receiver_init sq t1) as (r1 & E1 & Hok1 & Hh1); [|done|done|].
  { by apply (receiver_init_ok 0). }
  destruct (on_packet_ok r1 (u16 (sq + 1)) t2) as (r2 & E2 & Hok2 & Hh2); [done|apply u16_range|done|].
  exists r1, r2. split_and!; try done.
  all: unfold rtc_twcc_receiver_on_packet in E1; cbn [negb have_base rtc_twcc_receiver_init] in E1;
    rewrite wr_Ok in E1 by done; injection E1 as <-;
    unfold rtc_twcc_receiver_on_packet in E2; cbn [negb have_base base_seq count window] in E2;
    rewrite seq_after_succ in E2 by done; cbn in E2; injection E2 as <-; done.
Qed.

(** ** Properties *)

(** C29: TWCC feedback is exact.  When the arrivals in the window are at most
    31.5 ms apart, the clock is below 2^24 * 64 ms (12.4 days) and the buffer
    has room for 1200 bytes, the feedback packet a
    receiver builds is accepted by the sender's parser, which recovers every
    sequence number of the window, exactly which packets arrived, and each
    arrival time to less than one 250 us tick (errors do not accumulate).
    The receiver is left empty for the next window. *)
Theorem twcc_feedback_roundtrip r s m cap e es :
  receiver_ok r -> have_base r = true -> 1200 <= cap -> u32_ok s -> u32_ok m ->
  covered r = e :: es -> re_recv_time_us e < 2 ^ 24 * 64000 -> gaps_ok (re_recv_time_us e) es ->
  exists r' b fb, rtc_twcc_receiver_build_feedback s m cap r = (r', Ok b) /\
    receiver_ok r' /\ have_base r' = false /\
    rtc_rtcp_parse_twcc b = Ok fb /\ tw_base_seq fb = base_seq r /\
    tw_sender_ssrc fb = s /\ tw_media_ssrc fb = m /\ tw_fb_pkt_count fb = fb_pkt_count r /\
    it_seq <$> tw_items fb = (fun i => u16 (base_seq r + Z.of_nat i)) <$> seq 0 (Z.to_nat (count r)) /\
    Forall2 (fun e it => it_received it = re_received e /\ reported e it) (covered r) (tw_items fb).
Proof.
  intros Hok Hh Hcap Hs Hm Hcov Hlim Hg.
  destruct (build_feedback_ok r s m cap Hok Hh Hcap)
    as (e' & es' & sds & z & Ec & Hre & Hst & Hsd & Hbs & Hcn & Hrep & Hb).
  rewrite Hcov in Ec. injection Ec as <- <-. cbv zeta in *.
  destruct (covered_first r Hok Hh) as (_ & _ & _ & _ & Hbc & _ & Ht & _). rewrite Hcov in Hst, Ht.
  destruct (statuses_exact e es sds Ht Hre Hlim Hg Hst) as (s0 & Hs0 & Hss).
  destruct Hok as [_ Hbase Hfb _ _ _]. do 3 eexists. split; [exact Hb|].
  split; [apply receiver_init_ok; unfold byte_ok, u8; pow_eval; dlia|]. split; [done|].
  split; [apply parse_feedback_ok; try (done || lia || apply ref64_range)|].
  { rewrite Hss. apply first_large_exact. }
  cbn [tw_base_seq tw_sender_ssrc tw_media_ssrc tw_fb_pkt_count tw_items]. split_and!; try done.
  - rewrite items_seq by done. by replace (Z.to_nat (count r)) with (length sds) by (unfold blen in Hbs; lia).
  - apply Forall2_same_length_lookup in Hrep as [Hlen Hrep].
    apply Forall2_same_length_lookup. split; [done|]. intros i x it Hx Hit. split; [|by eapply Hrep].
    assert (Hrc : it_received <$> items_of (base_seq r) (ref64_of (re_recv_time_us e) * 64000) sds
                  = re_received <$> covered r).
    { rewrite items_received, Hss, Hcov, !fmap_cons, small_status_received, Hre.
      by rewrite (proj2 (Z.eqb_neq _ _) Hs0). }
    apply (f_equal (fun l => l !! i)) in Hrc. rewrite !list_lookup_fmap, Hx, Hit in Hrc. by injection Hrc.
Qed.

(** The TWCC parser is memory safe and total on every byte string; it
    yields between 1 and 256 items. *)
Theorem twcc_parse_safe d :
  bytes_ok d ->
  match rtc_rtcp_parse_twcc d with
  | Ok fb => 0 < blen (tw_items fb) <= RTC_TWCC_PARSE_MAX
  | Err e => e = RTC_ERR_INVALID
  | Fault => False
  end.
Proof.
  intros Hd. unfold rtc_rtcp_parse_twcc. destruct (Z.ltb_spec (blen d) 20) as [?|Hl]; [done|].
  cbn [fail_if mbind res_bind]. destruct (rd_in_range d 0) as [b0 E0]; [lia|]. step E0.
  destruct (negb (Z.land (Z.shiftr b0 6) 3 =? 2)); [done|]. cbn [fail_if mbind res_bind].
  destruct (rd_u32_in_range d 4) as [s E1]; [lia..|]. step E1.
  destruct (rd_u32_in_range d 8) as [m E2]; [lia..|]. step E2.
  destruct (rd_u16_in_range d 12) as [base E3]; [lia..|]. step E3.
  destruct (rd_u16_in_range d 14) as [cnt E4]; [lia..|]. step E4.
  destruct (rd_in_range d 16) as [r0 E5]; [lia|]. step E5.
  destruct (rd_in_range d 17) as [r1 E6]; [lia|]. step E6.
  destruct (rd_in_range d 18) as [r2 E7]; [lia|]. step E7. cbv zeta.
  destruct (rd_in_range d 19) as [fb E8]; [lia|]. step E8.
  destruct ((cnt =? 0) || (RTC_TWCC_PARSE_MAX <? cnt)) eqn:Ec; [done|]. cbn [fail_if mbind res_bind].
  apply orb_false_iff in Ec as [Hc0%Z.eqb_neq Hc1%Z.ltb_ge]. apply rd_u16_range in E4; [|done].
  pose proof (chunk_loop_total (S (length d)) d cnt 20 [] ltac:(lia) ltac:(unfold blen; lia) ltac:(lens; lia)
    ltac:(lia)) as Hch.
  destruct (chunk_loop (S (length d)) d cnt 20 []) as [[status p]|e|]; [|done..]. destruct Hch as [Hst Hp].
  cbn [mbind res_bind]. match goal with |- context [delta_loop d base p ?c status] =>
    pose proof (delta_loop_total d base p c status ltac:(lia)) as Hdl;
    destruct (delta_loop d base p c status) as [items|e|]; [|done..] end.
  cbn [mbind res_bind tw_items]. unfold blen in *. lia.
Qed.

(** A large delta can be reported as a loss.  When the second packet of
    a window arrives 32 ms to 8 s after a first one whose delta is small, the
    receiver packs both statuses in a 1-bit vector chunk that cannot express
    the large delta: the feedback parses, and says the packet was lost. *)
Theorem twcc_large_delta_lost sq t gap s m cap :
  0 <= sq < 2 ^ 16 -> 0 <= t < 2 ^ 24 * 64000 -> t mod 64000 < 32000 -> 32000 <= gap <= 8000000 ->
  u32_ok s -> u32_ok m -> 1200 <= cap ->
  exists r1 r2 r3 b fb i0 i1, rtc_twcc_receiver_on_packet rtc_twcc_receiver_init sq t = Ok r1 /\
    rtc_twcc_receiver_on_packet r1 (u16 (sq + 1)) (t + gap) = Ok r2 /\
    rtc_twcc_receiver_build_feedback s m cap r2 = (r3, Ok b) /\
    rtc_rtcp_parse_twcc b = Ok fb /\ tw_items fb = [i0; i1] /\ it_seq i1 = u16 (sq + 1) /\
    it_received i1 = false.
Proof.
  intros Hsq Ht Hmod Hgap Hs Hm Hcap.
  destruct (two_packets sq t (t + gap)) as (r1 & r2 & E1 & E2 & Hok & Hh & Hb & Hc & Hf & Hcov); [lia..|].
  destruct (build_feedback_ok r2 s m cap Hok Hh Hcap)
    as (e & es & sds & z & Ec & Hre & Hst & _ & _ & _ & _ & Hbuild).
  rewrite Hcov in Ec, Hst. injection Ec as <- <-. cbv zeta in *. cbn [re_recv_time_us] in *.
  assert (Eref : ref64_of t = t / 64000).
  { unfold ref64_of. rewrite (land_mask 24) by done. apply Z.mod_small. pow_eval. dlia. }
  rewrite Eref in *. destruct (large_second t gap Ht Hmod Hgap) as (q0 & p0 & q1 & p1 & T0 & T1 & Hp0).
  rewrite status_loop_cons in Hst by (unfold time_ok; simpl; try done; try lia; pow_eval; dlia).
  cbn [re_recv_time_us] in Hst. rewrite T0 in Hst.
  rewrite status_loop_cons in Hst by (unfold time_ok; simpl; done || lia).
  cbn [re_recv_time_us] in Hst. rewrite T1 in Hst. cbn [status_loop mbind res_bind] in Hst. injection Hst as <-.
  rewrite Hb, Hc, Hf in Hbuild.
  match type of Hbuild with _ = (?r3, Ok (fb_header ?len _ _ _ _ _ _ ++ _)) =>
    pose proof (parse_two len s m sq (t / 64000) q0 q1 z) as Hp; exists r1, r2, r3 end.
  do 4 eexists. split_and!; [done|done|exact Hbuild|apply Hp; done || lia || (pow_eval; dlia)|done..].
Qed.

(** After 2^24 * 64 ms (12.4 days) of clock every packet is reported
    lost.  The reference time is cut to 24 bits before the deltas are taken
    from it, so each delta is out of range and marks its packet not received. *)
Theorem twcc_reference_time_wraps r s m cap e es :
  receiver_ok r -> have_base r = true -> 1200 <= cap -> u32_ok s -> u32_ok m ->
  covered r = e :: es -> 2 ^ 24 * 64000 <= re_recv_time_us e ->
  Forall (fun x => re_received x = true -> re_recv_time_us e - 2 ^ 32 <= re_recv_time_us x) es ->
  exists r' b fb, rtc_twcc_receiver_build_feedback s m cap r = (r', Ok b) /\
    rtc_rtcp_parse_twcc b = Ok fb /\ blen (tw_items fb) = count r /\
    Forall (fun it => it_received it = false) (tw_items fb).
Proof.
  intros Hok Hh Hcap Hs Hm Hcov Hlim Hlate.
  destruct (build_feedback_ok r s m cap Hok Hh Hcap)
    as (e' & es' & sds & z & Ec & Hre & Hst & Hsd & Hbs & Hcn & _ & Hb).
  rewrite Hcov in Ec. injection Ec as <- <-. cbv zeta in *.
  destruct (covered_first r Hok Hh) as (_ & _ & _ & _ & _ & _ & Ht & _). rewrite Hcov in Hst, Ht.
  assert (Hz : fst <$> sds = replicate (length sds) STATUS_NOT_RECV).
  { eapply status_loop_far; [| |exact Ht| |exact Hst].
    - pose proof (ref64_range (re_recv_time_us e)). lia.
    - instantiate (1 := re_recv_time_us e - 2 ^ 32). unfold ref64_of. rewrite (land_mask 24) by done.
      pow_eval. dlia.
    - constructor; [intros _; lia|done]. }
  destruct Hok as [_ Hbase _ _ _ _]. do 3 eexists. split; [exact Hb|].
  split; [apply parse_feedback_ok; try (done || lia || apply ref64_range)|].
  { rewrite Hz. apply no_large_exact. by apply Forall_replicate. }
  cbn [tw_items]. split.
  - rewrite <-Hbs. unfold blen. by rewrite <-(length_fmap it_received), items_received, !length_fmap.
  - pose proof (items_received (base_seq r) (ref64_of (re_recv_time_us e) * 64000) sds) as Hi.
    rewrite Hz, fmap_replicate in Hi. apply Forall_forall. intros it Hin%list_elem_of_In.
    apply (list_elem_of_fmap_2 it_received) in Hin. rewrite Hi in Hin.
    by apply elem_of_replicate in Hin as [-> _].
Qed.

(** The sender's history answers for the last 1024 packets.  After any
    number of sends from the start, looking up the number of one of the last
    1024 packets gives exactly its record, and any record found belongs to
    the packet last sent under that number. *)
Theorem twcc_sender_history pkts :
  exists s, send_all rtc_twcc_sender_init pkts = Ok s /\
    (forall i tp, pkts !! i = Some tp -> blen pkts - Z.of_nat i <= 1024 ->
       rtc_twcc_sender_lookup s (u16 (Z.of_nat i))
       = Ok (Some (SentPkt (u16 (Z.of_nat i)) tp.2 tp.1 true))) /\
    (forall sq e, rtc_twcc_sender_lookup s sq = Ok (Some e) ->
       exists i tp, pkts !! i = Some tp /\ blen pkts - Z.of_nat i <= 1024 /\
         sq = u16 (Z.of_nat i) /\ e = SentPkt sq tp.2 tp.1 true).
Proof.
  destruct (history_all pkts [] _ history_init) as (s & E & Hh). exists s. split_and!; [done| |].
  - intros i tp. by apply history_lookup.
  - intros sq e. unfold rtc_twcc_sender_lookup. intros (x & [_ Hx]%rd_Ok & He)%bind_Ok.
    destruct Hh as (_ & _ & Hr). specialize (Hr _ _ Hx). destruct (sp_used x) eqn:Hu; [|done].
    cbn [negb orb] in He. destruct (Z.eqb_spec (sp_seq x) sq) as [<-|]; [|done]. injection He as <-.
    destruct Hr as (i & tp & Hi & _ & Hage & ->). exists i, tp. split_and!; done.
Qed.

(** ** Witnesses *)

(** the receiver after the arrivals [l] *)
Definition recv_trace (l : list (Z * Z)) : rtc_twcc_receiver_t :=
  match foldl (fun r st => r ← r; rtc_twcc_receiver_on_packet r st.1 st.2)
    (Ok rtc_twcc_receiver_init) l with
  | Ok r => r | _ => rtc_twcc_receiver_init end.

Lemma recv_trace_ok l r :
  receiver_ok r -> Forall (fun st => 0 <= st.1 < 2 ^ 16 /\ 0 <= st.2 < 2 ^ 62) l ->
  match foldl (fun r st => r ← r; rtc_twcc_receiver_on_packet r st.1 st.2) (Ok r) l with
  | Ok r' => receiver_ok r' /\ (l <> [] -> have_base r' = true) | _ => False end.
Proof.
  revert r. induction l as [|[sq t] l IH]; intros r Hr HF; [done|].
  apply Forall_cons_1 in HF as [[? ?] HF]. cbn [foldl mbind res_bind fst snd].
  destruct (on_packet_ok r sq t) as (r' & -> & Hok & Hh); [done..|].
  specialize (IH r' Hok HF). destruct l as [|x l]; [done|].
  destruct (foldl _ (Ok r') (x :: l)); [|done..]. destruct IH as [? Hb]. split; [done|auto].
Qed.

Lemma recv_trace_inv l :
  l <> [] -> Forall (fun st => 0 <= st.1 < 2 ^ 16 /\ 0 <= st.2 < 2 ^ 62) l ->
  receiver_ok (recv_trace l) /\ have_base (recv_trace l) = true.
Proof.
  intros Hl HF. pose proof (recv_trace_ok l rtc_twcc_receiver_init) as H. unfold recv_trace.
  specialize (H ltac:(by apply (receiver_init_ok 0)) HF).
  destruct (foldl _ _ l); [|done..]. destruct H. auto.
Qed.

(** a wrap, a reordering and a missing packet *)
Definition arrivals0 : list (Z * Z) :=
  [(65535, 1000040000); (1, 1000050000); (0, 1000071234); (3, 1000075000)].

Lemma twcc_feedback_roundtrip_witness :
  exists r' b fb, rtc_twcc_receiver_build_feedback 1 2 1200 (recv_trace arrivals0) = (r', Ok b) /\
    receiver_ok r' /\ have_base r' = false /\
    rtc_rtcp_parse_twcc b = Ok fb /\ tw_base_seq fb = base_seq (recv_trace arrivals0) /\
    tw_sender_ssrc fb = 1 /\ tw_media_ssrc fb = 2 /\
    tw_fb_pkt_count fb = fb_pkt_count (recv_trace arrivals0) /\
    it_seq <$> tw_items fb = (fun i => u16 (base_seq (recv_trace arrivals0) + Z.of_nat i)) <$>
      seq 0 (Z.to_nat (count (recv_trace arrivals0))) /\
    Forall2 (fun e it => it_received it = re_received e /\ reported e it)
      (covered (recv_trace arrivals0)) (tw_items fb).
Proof.
  destruct (recv_trace_inv arrivals0) as [Hok Hh]; [done|repeat constructor; vm_compute; congruence|].
  apply (twcc_feedback_roundtrip (recv_trace arrivals0) 1 2 1200 (RecvEntry 65535 1000040000 true)
    [RecvEntry 0 1000071234 true; RecvEntry 1 1000050000 true; entry_zero; RecvEntry 3 1000075000 true]);
    try done; vm_compute; repeat split; congruence.
Defined.

Lemma twcc_parse_safe_witness :
  match rtc_rtcp_parse_twcc (replicate 24 128) with
  | Ok fb => 0 < blen (tw_items fb) <= RTC_TWCC_PARSE_MAX
  | Err e => e = RTC_ERR_INVALID
  | Fault => False
  end.
Proof. apply (twcc_parse_safe (replicate 24 128)). apply bytes_okb_ok. reflexivity. Defined.

Lemma twcc_large_delta_lost_witness :
  exists r1 r2 r3 b fb i0 i1, rtc_twcc_receiver_on_packet rtc_twcc_receiver_init 7 640000 = Ok r1 /\
    rtc_twcc_receiver_on_packet r1 (u16 (7 + 1)) (640000 + 40000) = Ok r2 /\
    rtc_twcc_receiver_build_feedback 1 2 1200 r2 = (r3, Ok b) /\
    rtc_rtcp_parse_twcc b = Ok fb /\ tw_items fb = [i0; i1] /\ it_seq i1 = u16 (7 + 1) /\
    it_received i1 = false.
Proof. apply (twcc_large_delta_lost 7 640000 40000 1 2 1200); vm_compute; repeat split; congruence. Defined.

(** 13 days after boot *)
Definition arrivals1 : list (Z * Z) := [(10, 1123200000000); (11, 1123200020000)].

Lemma twcc_reference_time_wraps_witness :
  exists r' b fb, rtc_twcc_receiver_build_feedback 1 2 1200 (recv_trace arrivals1) = (r', Ok b) /\
    rtc_rtcp_parse_twcc b = Ok fb /\ blen (tw_items fb) = count (recv_trace arrivals1) /\
    Forall (fun it => it_received it = false) (tw_items fb).
Proof.
  destruct (recv_trace_inv arrivals1) as [Hok Hh]; [done|repeat constructor; vm_compute; congruence|].
  apply (twcc_reference_time_wraps (recv_trace arrivals1) 1 2 1200 (RecvEntry 10 1123200000000 true)
    [RecvEntry 11 1123200020000 true]); try done.
  repeat constructor. intros _. vm_compute. congruence.
Defined.

End Twcc.
