(* ===== verification/RateControl.v ===== *)
(** * Bitrate adaptation from receiver reports (rtc/src/rtc_rate_control.c)

    The atomic loads and stores are plain reads and writes: one thread runs
    [on_rtcp_rr], the other only reads the bitrate and exchanges the flag. *)

From S2P Require Import Prelude.
From Stdlib Require Import ZArith Lia.
From stdpp Require Import base list numbers.
#[local] Open Scope Z_scope.

Module RateControl.

Record rtc_rate_control_config_t := Config {
  cfg_target : Z; cfg_min : Z; cfg_max : Z
}.

Record rtc_rate_controller_t := Rc {
  current_bitrate_kbps : Z; min_bitrate_kbps : Z; max_bitrate_kbps : Z; keyframe_requested : bool
}.

(** [alloc]: calloc succeeds *)
Definition rtc_rate_control_create (alloc : bool) (cfg : rtc_rate_control_config_t)
    : option rtc_rate_controller_t :=
  if negb alloc then None
  else
    let initial := cfg_target cfg in
    let mn := if 0 <? cfg_min cfg then cfg_min cfg else 100 in
    let mx := if 0 <? cfg_max cfg then cfg_max cfg else 2500 in
    let initial := if initial <? mn then mn else initial in
    let initial := if mx <? initial then mx else initial in
    Some (Rc initial mn mx false).

(** a signed addition that must not overflow *)
Definition int_add (a b : Z) : res Z :=
  _ ← fault_if ((a + b <? - 2 ^ 31) || (INT_MAX <? a + b)); Ok (a + b).

Definition rtc_rate_control_on_rtcp_rr (rc : rtc_rate_controller_t) (fraction_lost rtt_ms : Z)
    : res rtc_rate_controller_t :=
  let loss_pct := Z.quot (fraction_lost * 100) 256 in
  let bitrate := current_bitrate_kbps rc in
  bitrate ← (if loss_pct <? 2 then int_add bitrate (Z.quot bitrate 20)
             else if 5 <? loss_pct then int_add bitrate (- Z.quot bitrate 5)
             else Ok bitrate);
  bitrate ← (if 300 <? rtt_ms then int_add bitrate (- Z.quot bitrate 10) else Ok bitrate);
  let kf := if 10 <? loss_pct then true else keyframe_requested rc in
  let bitrate := if bitrate <? min_bitrate_kbps rc then min_bitrate_kbps rc else bitrate in
  let bitrate := if max_bitrate_kbps rc <? bitrate then max_bitrate_kbps rc else bitrate in
  Ok (Rc bitrate (min_bitrate_kbps rc) (max_bitrate_kbps rc) kf).

Definition rtc_rate_control_get_bitrate (rc : rtc_rate_controller_t) : Z := current_bitrate_kbps rc.

Definition rtc_rate_control_should_keyframe (rc : rtc_rate_controller_t)
    : bool * rtc_rate_controller_t :=
  (keyframe_requested rc,
   Rc (current_bitrate_kbps rc) (min_bitrate_kbps rc) (max_bitrate_kbps rc) false).

(** ** Invariant *)

Record rc_ok (rc : rtc_rate_controller_t) : Prop := {
  rc_min : 0 < min_bitrate_kbps rc;
  rc_max : min_bitrate_kbps rc <= max_bitrate_kbps rc <= 2 * 10 ^ 9;
  rc_cur : min_bitrate_kbps rc <= current_bitrate_kbps rc <= max_bitrate_kbps rc
}.

Lemma int_add_Ok a b : - 2 ^ 31 <= a + b <= INT_MAX -> int_add a b = Ok (a + b).
Proof. intros. unfold int_add. by pass_guard. Qed.

(** one report, on every branch *)
Lemma on_rr_step rc fl rtt :
  rc_ok rc -> 0 <= fl <= 255 ->
  let loss := fl * 100 / 256 in
  let b := current_bitrate_kbps rc in
  let b1 := if loss <? 2 then b + b / 20 else if 5 <? loss then b - b / 5 else b in
  let b2 := if 300 <? rtt then b1 - b1 / 10 else b1 in
  rtc_rate_control_on_rtcp_rr rc fl rtt =
    Ok (Rc (Z.min (max_bitrate_kbps rc) (Z.max (min_bitrate_kbps rc) b2)) (min_bitrate_kbps rc)
          (max_bitrate_kbps rc) ((10 <? loss) || keyframe_requested rc)).
Proof.
  intros [Hmin Hmax Hcur] Hfl loss b b1 b2. unfold rtc_rate_control_on_rtcp_rr. cbv zeta.
  assert (El : Z.quot (fl * 100) 256 = loss) by (subst loss; dlia). rewrite El. fold b.
  assert (Hb : 0 < b <= 2 * 10 ^ 9) by (subst b; lia). unfold INT_MAX.
  assert (E1 : (if loss <? 2 then int_add b (Z.quot b 20)
             else if 5 <? loss then int_add b (- Z.quot b 5) else Ok b) = Ok b1).
  { subst b1. destruct (loss <? 2); [|destruct (5 <? loss); [|done]];
      (rewrite int_add_Ok by (unfold INT_MAX; dlia); f_equal; dlia). }
  rewrite E1. cbn [mbind res_bind].
  assert (Hb1 : 0 <= b1 <= 21 * 10 ^ 8) by (subst b1; destruct (loss <? 2), (5 <? loss); dlia).
  assert (E2 : (if 300 <? rtt then int_add b1 (- Z.quot b1 10) else Ok b1) = Ok b2).
  { subst b2. destruct (300 <? rtt); [|done]. rewrite int_add_Ok by (unfold INT_MAX; dlia). f_equal. dlia. }
  rewrite E2. cbn [mbind res_bind]. f_equal. f_equal.
  destruct (Z.ltb_spec b2 (min_bitrate_kbps rc)).
  - destruct (Z.ltb_spec (max_bitrate_kbps rc) (min_bitrate_kbps rc)); lia.
  - destruct (Z.ltb_spec (max_bitrate_kbps rc) b2); lia.
Qed.

Definition feed (rc : rtc_rate_controller_t) (reports : list (Z * Z)) : res rtc_rate_controller_t :=
  foldl (fun r p => rc ← r; rtc_rate_control_on_rtcp_rr rc p.1 p.2) (Ok rc) reports.

Lemma feed_cons rc p reports rc' :
  rtc_rate_control_on_rtcp_rr rc p.1 p.2 = Ok rc' -> feed rc (p :: reports) = feed rc' reports.
Proof. unfold feed. cbn [foldl mbind res_bind]. by intros ->. Qed.

Lemma on_rr_ok rc fl rtt :
  rc_ok rc -> 0 <= fl <= 255 ->
  exists rc', rtc_rate_control_on_rtcp_rr rc fl rtt = Ok rc' /\ rc_ok rc' /\
    min_bitrate_kbps rc' = min_bitrate_kbps rc /\ max_bitrate_kbps rc' = max_bitrate_kbps rc.
Proof.
  intros Hok Hfl. pose proof (on_rr_step rc fl rtt Hok Hfl) as E. cbv zeta in E.
  eexists. split; [exact E|]. destruct Hok. split; [|done]. split; simpl; lia.
Qed.

Lemma feed_bounds reports rc :
  rc_ok rc -> Forall (fun p => 0 <= p.1 <= 255) reports ->
  exists rc', feed rc reports = Ok rc' /\ rc_ok rc' /\
    min_bitrate_kbps rc' = min_bitrate_kbps rc /\ max_bitrate_kbps rc' = max_bitrate_kbps rc.
Proof.
  revert rc. induction reports as [|p reports IH]; intros rc Hok HF; [by exists rc|].
  apply Forall_cons_1 in HF as [Hp HF].
  destruct (on_rr_ok rc p.1 p.2 Hok Hp) as (rc1 & E & Hok1 & Hmin & Hmax).
  rewrite (feed_cons _ _ _ _ E). destruct (IH rc1 Hok1 HF) as (rc' & ? & ? & ? & ?).
  exists rc'. split_and!; congruence || done.
Qed.

(** without loss the bitrate grows until it is at the maximum *)
Lemma feed_recovers n rc :
  rc_ok rc -> 20 <= current_bitrate_kbps rc ->
  max_bitrate_kbps rc - current_bitrate_kbps rc <= Z.of_nat n ->
  exists rc', feed rc (replicate n (0, 0)) = Ok rc' /\
    current_bitrate_kbps rc' = max_bitrate_kbps rc.
Proof.
  revert rc. induction n as [|n IH]; intros rc Hok H20 Hn.
  { exists rc. split; [done|]. destruct Hok. lia. }
  pose proof (on_rr_step rc 0 0 Hok ltac:(lia)) as E. cbv zeta in E. cbn [Z.ltb Z.mul] in E.
  cbn [replicate]. rewrite (feed_cons _ (0, 0) _ _ E). destruct Hok as [Hmin Hmax Hcur].
  set (b := current_bitrate_kbps rc) in *. change (0 / 256 <? 2) with true. cbv iota.
  apply (IH (Rc _ _ _ _)); simpl; [split; simpl| |]; dlia.
Qed.

(** ** Properties *)

(** The bitrate stays within its bounds.  From any configuration whose
    bounds are in order, any sequence of reports keeps the bitrate between
    the configured minimum and maximum, without arithmetic overflow; lossless
    reports with a low round-trip time bring it back to the maximum in a
    number of steps bounded by the distance, if it is at least 20 kbit/s. *)
Theorem rate_control_bounds cfg rc reports n :
  0 < cfg_min cfg <= cfg_max cfg -> cfg_max cfg <= 2 * 10 ^ 9 ->
  rtc_rate_control_create true cfg = Some rc -> Forall (fun p => 0 <= p.1 <= 255) reports ->
  20 <= cfg_min cfg -> cfg_max cfg - cfg_min cfg <= Z.of_nat n ->
  exists rc1 rc2, feed rc reports = Ok rc1 /\
    cfg_min cfg <= rtc_rate_control_get_bitrate rc1 <= cfg_max cfg /\
    feed rc1 (replicate n (0, 0)) = Ok rc2 /\ rtc_rate_control_get_bitrate rc2 = cfg_max cfg.
Proof.
  intros Hmm Hmx Hc HF H20 Hn.
  assert (Hrc : rc_ok rc /\ min_bitrate_kbps rc = cfg_min cfg /\ max_bitrate_kbps rc = cfg_max cfg).
  { unfold rtc_rate_control_create in Hc. cbn [negb] in Hc. injection Hc as <-.
    rewrite (proj2 (Z.ltb_lt 0 (cfg_min cfg))), (proj2 (Z.ltb_lt 0 (cfg_max cfg))) by lia.
    split; [|done]. split; simpl; try lia.
    destruct (Z.ltb_spec (cfg_target cfg) (cfg_min cfg)).
    - destruct (Z.ltb_spec (cfg_max cfg) (cfg_min cfg)); lia.
    - destruct (Z.ltb_spec (cfg_max cfg) (cfg_target cfg)); lia. }
  destruct Hrc as (Hok & Hmin & Hmax). clear Hc.
  destruct (feed_bounds reports rc Hok HF) as (rc1 & E1 & Hok1 & Hmin1 & Hmax1).
  destruct (feed_recovers n rc1) as (rc2 & E2 & Hb2); [done|destruct Hok1; lia..|].
  exists rc1, rc2. destruct Hok1. unfold rtc_rate_control_get_bitrate. split_and!; try done; lia.
Qed.

Lemma rate_control_bounds_witness :
  exists rc1 rc2, feed (Rc 500 100 2500 false) [(30, 400); (0, 10); (255, 0)] = Ok rc1 /\
    100 <= rtc_rate_control_get_bitrate rc1 <= 2500 /\
    feed rc1 (replicate 2400 (0, 0)) = Ok rc2 /\ rtc_rate_control_get_bitrate rc2 = 2500.
Proof.
  apply (rate_control_bounds (Config 500 100 2500) (Rc 500 100 2500 false)
    [(30, 400); (0, 10); (255, 0)] 2400); try (simpl; lia); [reflexivity|].
  repeat constructor; simpl; lia.
Defined.

End RateControl.
