(* ===== verification/TimerSched.v ===== *)
(** * The timer scheduler (rtc/src/rtc_timer_sched.c)

    A binary min-heap of timers with lazy cancellation.  A callback and its
    user pointer are one value of the parameter type [U].  The heap array is
    the list of its first [heap_count] nodes; [generations] and [active] are
    arrays of [slot_cap] entries.  The arguments [a1 .. a3] say whether each
    realloc a call may make succeeds. *)

From S2P Require Import Prelude.
From Stdlib Require Import ZArith Lia.
From stdpp Require Import base list numbers sets sorting.
#[local] Open Scope Z_scope.

Module TimerSched.

Definition TIMER_INITIAL_HEAP_CAP : Z := 16.
Definition TIMER_INITIAL_SLOT_CAP : Z := 16.
Definition RTC_TIMER_HANDLE_INVALID : Z := 0.

Definition timer_make_handle (slot generation : Z) : Z := Z.lor (Z.shiftl generation 32) (u32 slot).
Definition timer_handle_slot (handle : Z) : Z := s32 (Z.land handle 0xFFFFFFFF).
Definition timer_handle_generation (handle : Z) : Z := u32 (Z.shiftr handle 32).

Section Sched.
Context {U : Type}.

Record rtc_timer_sched_node_t := Node {
  deadline_ms : Z; nd_fn : U; nd_generation : Z; nd_slot : Z
}.

Record rtc_timer_sched_t := Sched {
  heap : list rtc_timer_sched_node_t; heap_cap : Z;
  generations : list Z; active : list bool; slot_count : Z; slot_cap : Z
}.

Definition with_heap (s : rtc_timer_sched_t) (h : list rtc_timer_sched_node_t) : rtc_timer_sched_t :=
  Sched h (heap_cap s) (generations s) (active s) (slot_count s) (slot_cap s).

Definition timer_node_active (s : rtc_timer_sched_t) (n : rtc_timer_sched_node_t) : res bool :=
  if (0 <=? nd_slot n) && (nd_slot n <? slot_count s) then
    a ← rd (active s) (nd_slot n);
    if a : bool then g ← rd (generations s) (nd_slot n); Ok (g =? nd_generation n) else Ok false
  else Ok false.

Definition heap_swap (h : list rtc_timer_sched_node_t) (i j : Z) : res (list rtc_timer_sched_node_t) :=
  a ← rd h i; b ← rd h j; h ← wr h i b; wr h j a.

Fixpoint heap_sift_up (fuel : nat) (h : list rtc_timer_sched_node_t) (idx : Z)
    : res (list rtc_timer_sched_node_t) :=
  if 0 <? idx then
    match fuel with
    | O => Fault
    | S fuel =>
        let parent := (idx - 1) / 2 in
        p ← rd h parent; n ← rd h idx;
        if deadline_ms p <=? deadline_ms n then Ok h
        else h ← heap_swap h parent idx; heap_sift_up fuel h parent
    end
  else Ok h.

Fixpoint heap_sift_down (fuel : nat) (h : list rtc_timer_sched_node_t) (idx : Z)
    : res (list rtc_timer_sched_node_t) :=
  match fuel with
  | O => Fault
  | S fuel =>
      let left := idx * 2 + 1 in
      let right := left + 1 in
      let smallest := idx in
      smallest ← (if left <? blen h then
                    l ← rd h left; n ← rd h smallest;
                    Ok (if deadline_ms l <? deadline_ms n then left else smallest)
                  else Ok smallest);
      smallest ← (if right <? blen h then
                    r ← rd h right; n ← rd h smallest;
                    Ok (if deadline_ms r <? deadline_ms n then right else smallest)
                  else Ok smallest);
      if smallest =? idx then Ok h
      else h ← heap_swap h idx smallest; heap_sift_down fuel h smallest
  end.

Definition heap_pop (s : rtc_timer_sched_t) : res (rtc_timer_sched_t * rtc_timer_sched_node_t) :=
  node ← rd (heap s) 0;
  let heap_count := blen (heap s) - 1 in
  if 0 <? heap_count then
    l ← rd (heap s) heap_count;
    h ← wr (heap s) 0 l;
    h ← heap_sift_down (length h) (take (Z.to_nat heap_count) h) 0;
    Ok (with_heap s h, node)
  else Ok (with_heap s [], node).

Definition ensure_heap_cap (a1 : bool) (s : rtc_timer_sched_t) : res rtc_timer_sched_t :=
  if blen (heap s) <? heap_cap s then Ok s
  else
    let new_cap := if negb (heap_cap s =? 0) then heap_cap s * 2 else TIMER_INITIAL_HEAP_CAP in
    _ ← fail_if (negb a1) RTC_ERR_NOMEM;
    Ok (Sched (heap s) new_cap (generations s) (active s) (slot_count s) (slot_cap s)).

(** The arrays grow one after the other; when the second realloc fails the
    first array has already grown ([slot_cap] is unchanged, so the new part
    is never read). *)
Definition ensure_slot_cap (a2 a3 : bool) (s : rtc_timer_sched_t) : rtc_timer_sched_t * bool :=
  if slot_count s <? slot_cap s then (s, true)
  else
    let old_cap := slot_cap s in
    let new_cap := if negb (old_cap =? 0) then old_cap * 2 else TIMER_INITIAL_SLOT_CAP in
    if negb a2 || negb a3 then (s, false)
    else
      (Sched (heap s) (heap_cap s)
         (take (Z.to_nat old_cap) (generations s) ++ replicate (Z.to_nat (new_cap - old_cap)) 0)
         (take (Z.to_nat old_cap) (active s) ++ replicate (Z.to_nat (new_cap - old_cap)) false)
         (slot_count s) new_cap, true).

(** the first free slot below [n], from [i] on *)
Fixpoint free_slot (n : nat) (act : list bool) (i : Z) : res (option Z) :=
  match n with
  | O => Ok None
  | S n => a ← rd act i; if negb (a : bool) then Ok (Some i) else free_slot n act (i + 1)
  end.

(** -1 when no slot can be had *)
Definition alloc_slot (a2 a3 : bool) (s : rtc_timer_sched_t) : res (rtc_timer_sched_t * Z) :=
  f ← free_slot (Z.to_nat (slot_count s)) (active s) 0;
  match f with
  | Some i => Ok (s, i)
  | None =>
      let '(s, ok) := ensure_slot_cap a2 a3 s in
      if negb ok then Ok (s, -1)
      else Ok (Sched (heap s) (heap_cap s) (generations s) (active s) (slot_count s + 1) (slot_cap s),
               slot_count s)
  end.

Fixpoint prune_stale_roots (fuel : nat) (s : rtc_timer_sched_t) : res rtc_timer_sched_t :=
  match heap s with
  | [] => Ok s
  | root :: _ =>
      a ← timer_node_active s root;
      if a : bool then Ok s
      else
        match fuel with
        | O => Fault
        | S fuel => sn ← heap_pop s; prune_stale_roots fuel sn.1
        end
  end.

Definition rtc_timer_sched_init : rtc_timer_sched_t := Sched [] 0 [] [] 0 0.

(** frees the arrays and clears the structure *)
Definition rtc_timer_sched_close (s : rtc_timer_sched_t) : rtc_timer_sched_t := rtc_timer_sched_init.

(** the new state and the handle; [fn = None]: a null callback *)
Definition rtc_timer_sched_add (a1 a2 a3 : bool) (s : rtc_timer_sched_t) (deadline : Z) (fn : option U)
    : res (rtc_timer_sched_t * Z) :=
  match fn with
  | None => Ok (s, RTC_TIMER_HANDLE_INVALID)
  | Some fn =>
      match ensure_heap_cap a1 s with
      | Fault => Fault
      | Err _ => Ok (s, RTC_TIMER_HANDLE_INVALID)
      | Ok s =>
          sl ← alloc_slot a2 a3 s;
          let '(s, slot) := sl in
          if slot <? 0 then Ok (s, RTC_TIMER_HANDLE_INVALID)
          else
            g ← rd (generations s) slot;
            let g := u32 (g + 1) in
            let g := if g =? 0 then 1 else g in
            gens ← wr (generations s) slot g;
            act ← wr (active s) slot true;
            let idx := blen (heap s) in
            _ ← fault_if (heap_cap s <=? idx);
            h ← heap_sift_up (length (heap s)) (heap s ++ [Node deadline fn g slot]) idx;
            Ok (Sched h (heap_cap s) gens act (slot_count s) (slot_cap s), timer_make_handle slot g)
      end
  end.

Definition rtc_timer_sched_cancel (s : rtc_timer_sched_t) (handle : Z) : res rtc_timer_sched_t :=
  if handle =? RTC_TIMER_HANDLE_INVALID then Ok s
  else
    let slot := timer_handle_slot handle in
    let generation := timer_handle_generation handle in
    if (slot <? 0) || (slot_count s <=? slot) then Ok s
    else
      g ← rd (generations s) slot;
      if negb (g =? generation) then Ok s
      else
        act ← wr (active s) slot false;
        Ok (Sched (heap s) (heap_cap s) (generations s) act (slot_count s) (slot_cap s)).

Definition rtc_timer_sched_next_timeout_ms (s : rtc_timer_sched_t) (now_ms default_timeout_ms : Z)
    : res (rtc_timer_sched_t * Z) :=
  s ← prune_stale_roots (length (heap s)) s;
  match heap s with
  | [] => Ok (s, default_timeout_ms)
  | root :: _ =>
      let deadline := deadline_ms root in
      if deadline <=? now_ms then Ok (s, 0)
      else
        let diff := deadline - now_ms in
        Ok (s, if INT_MAX <? diff then INT_MAX else diff)
  end.

Fixpoint pop_due_loop (fuel : nat) (s : rtc_timer_sched_t) (now_ms : Z)
    : res (rtc_timer_sched_t * option U) :=
  match fuel with
  | O => Fault
  | S fuel =>
      s ← prune_stale_roots (length (heap s)) s;
      match heap s with
      | [] => Ok (s, None)
      | root :: _ =>
          if now_ms <? deadline_ms root then Ok (s, None)
          else
            sn ← heap_pop s;
            let '(s, node) := sn in
            a ← timer_node_active s node;
            if negb (a : bool) then pop_due_loop fuel s now_ms
            else
              act ← wr (active s) (nd_slot node) false;
              Ok (Sched (heap s) (heap_cap s) (generations s) act (slot_count s) (slot_cap s),
                  Some (nd_fn node))
      end
  end.

Definition rtc_timer_sched_pop_due (s : rtc_timer_sched_t) (now_ms : Z)
    : res (rtc_timer_sched_t * option U) :=
  pop_due_loop (S (length (heap s))) s now_ms.

(** the callbacks fired, in order, when none of them touches the scheduler *)
Fixpoint fire_loop (fuel : nat) (s : rtc_timer_sched_t) (now_ms : Z)
    : res (rtc_timer_sched_t * list U) :=
  match fuel with
  | O => Fault
  | S fuel =>
      so ← rtc_timer_sched_pop_due s now_ms;
      let '(s, o) := so in
      match o with
      | None => Ok (s, [])
      | Some fn => sf ← fire_loop fuel s now_ms; Ok (sf.1, fn :: sf.2)
      end
  end.

Definition rtc_timer_sched_fire_due (s : rtc_timer_sched_t) (now_ms : Z)
    : res (rtc_timer_sched_t * list U) :=
  fire_loop (S (length (heap s))) s now_ms.

Definition rtc_timer_sched_pending_count (s : rtc_timer_sched_t) : res Z :=
  act ← sub (active s) 0 (slot_count s);
  Ok (blen (filter (fun a => a = true) act)).

(** ** The heap *)

(** the deadline at index [i] *)
Definition dl (h : list rtc_timer_sched_node_t) (i : Z) : Z :=
  match rd h i with Ok n => deadline_ms n | _ => 0 end.

Definition heap_ok (h : list rtc_timer_sched_node_t) : Prop :=
  forall i, 0 < i < blen h -> dl h ((i - 1) / 2) <= dl h i.

Lemma dl_rd h i n : rd h i = Ok n -> dl h i = deadline_ms n.
Proof. unfold dl. by intros ->. Qed.

Lemma heap_ok_root h i : heap_ok h -> 0 <= i < blen h -> dl h 0 <= dl h i.
Proof.
  intros Hh. assert (forall n j, 0 <= j < blen h -> (Z.to_nat j <= n)%nat -> dl h 0 <= dl h j) as Hind.
  { induction n as [|n IH]; intros j Hj Hn; [by replace j with 0 by lia|].
    destruct (Z.eq_dec j 0) as [->|Hj0]; [lia|].
    specialize (IH ((j - 1) / 2) ltac:(dlia) ltac:(dlia)). specialize (Hh j ltac:(lia)). lia. }
  intros Hi. by apply (Hind (Z.to_nat i)).
Qed.

Lemma heap_swap_ok h i j :
  0 <= i < blen h -> 0 <= j < blen h ->
  exists h', heap_swap h i j = Ok h' /\ h' ≡ₚ h /\
    forall k, dl h' k = if k =? j then dl h i else if k =? i then dl h j else dl h k.
Proof.
  intros Hi Hj. destruct (rd_in_range h i Hi) as [a Ha]. destruct (rd_in_range h j Hj) as [b Hb].
  exists (<[Z.to_nat j := a]> (<[Z.to_nat i := b]> h)). split_and!.
  - unfold heap_swap. step Ha. step Hb. rewrite wr_Ok by done. cbn [mbind res_bind].
    apply wr_Ok. unfold blen in *. rewrite length_insert. lia.
  - apply rd_Ok in Ha as [_ Ha]. apply rd_Ok in Hb as [_ Hb]. by apply Permutation_insert_swap.
  - intros k. rewrite (dl_rd _ _ _ Ha), (dl_rd _ _ _ Hb). unfold dl, rd, blen in *.
    destruct (Z.ltb_spec k 0).
    { destruct (Z.eqb_spec k j), (Z.eqb_spec k i); lia || done. }
    destruct (Z.eqb_spec k j) as [->|]; [by rewrite list_lookup_insert_eq by (rewrite length_insert; lia)|].
    rewrite list_lookup_insert_ne by lia.
    destruct (Z.eqb_spec k i) as [->|]; [by rewrite list_lookup_insert_eq by lia|].
    by rewrite list_lookup_insert_ne by lia.
Qed.

Lemma blen_Permutation {A} (a b : list A) : a ≡ₚ b -> blen a = blen b.
Proof. unfold blen. by intros ->. Qed.

(** the order holds but between [idx] and its parent *)
Definition up_inv (h : list rtc_timer_sched_node_t) (idx : Z) : Prop :=
  (forall i, 0 < i < blen h -> i <> idx -> dl h ((i - 1) / 2) <= dl h i) /\
  (forall i, 0 < i < blen h -> (i - 1) / 2 = idx -> 0 < idx -> dl h ((idx - 1) / 2) <= dl h i).

Lemma sift_up_ok fuel h idx :
  0 <= idx < blen h -> (Z.to_nat idx <= fuel)%nat -> up_inv h idx ->
  exists h', heap_sift_up fuel h idx = Ok h' /\ h' ≡ₚ h /\ heap_ok h'.
Proof.
  revert h idx. induction fuel as [|fuel IH]; intros h idx Hi Hf [I1 I2];
    cbn [heap_sift_up]; destruct (Z.ltb_spec 0 idx) as [Hpos|]; try lia.
  1,3: exists h; split_and!; [done..|]; intros i Hr; apply I1; lia.
  assert (Hp : 0 <= (idx - 1) / 2 < idx) by dlia. set (p := (idx - 1) / 2) in *. cbv zeta.
  destruct (rd_in_range h p) as [np Hnp]; [lia|]. destruct (rd_in_range h idx) as [n Hn]; [lia|].
  step Hnp. step Hn. rewrite <-(dl_rd _ _ _ Hnp), <-(dl_rd _ _ _ Hn).
  destruct (Z.leb_spec (dl h p) (dl h idx)) as [Hle|Hgt].
  { exists h. split_and!; [done..|]. intros i Hr. destruct (Z.eq_dec i idx) as [->|]; [done|by apply I1]. }
  destruct (heap_swap_ok h p idx) as (h' & E & Hperm & Hdl); [lia..|]. step E.
  assert (Hlen : blen h' = blen h) by (by apply blen_Permutation).
  destruct (IH h' p) as (h2 & E2 & Hp2 & Hok); [lia|lia| |].
  - split; intros i Hr; rewrite Hlen in Hr.
    + intros Hne. rewrite !Hdl. pose proof (I1 i Hr) as J1. pose proof (I2 i Hr) as J2.
      destruct (Z.eqb_spec i idx) as [->|].
      { fold p. rewrite Z.eqb_refl. destruct (Z.eqb_spec p idx); lia. }
      destruct (Z.eqb_spec i p); [done|]. specialize (J1 ltac:(done)).
      destruct (Z.eqb_spec ((i - 1) / 2) idx) as [Hq|]; [by apply J2|].
      destruct (Z.eqb_spec ((i - 1) / 2) p) as [Hq|]; [rewrite Hq in J1; lia|done].
    + intros Hq Hp0. rewrite !Hdl. pose proof (I1 p ltac:(lia) ltac:(lia)) as J.
      destruct (Z.eqb_spec ((p - 1) / 2) idx); [dlia|]. destruct (Z.eqb_spec ((p - 1) / 2) p); [dlia|].
      destruct (Z.eqb_spec i idx); [done|]. destruct (Z.eqb_spec i p); [dlia|].
      pose proof (I1 i Hr ltac:(done)) as J1. rewrite Hq in J1. lia.
  - exists h2. split_and!; [done|by etrans|done].
Qed.

(** the order holds but between [idx] and its children *)
Definition down_inv (h : list rtc_timer_sched_node_t) (idx : Z) : Prop :=
  (forall i, 0 < i < blen h -> (i - 1) / 2 <> idx -> dl h ((i - 1) / 2) <= dl h i) /\
  (forall i, 0 < i < blen h -> (i - 1) / 2 = idx -> 0 < idx -> dl h ((idx - 1) / 2) <= dl h i).

(** the child the loop descends to *)
Lemma smallest_ok h idx :
  0 <= idx < blen h ->
  let left := idx * 2 + 1 in
  exists s, (s1 ← (if left <? blen h then
                    l ← rd h left; n ← rd h idx;
                    Ok (if deadline_ms l <? deadline_ms n then left else idx)
                  else Ok idx);
      if left + 1 <? blen h then
        r ← rd h (left + 1); n ← rd h s1;
        Ok (if deadline_ms r <? deadline_ms n then left + 1 else s1)
      else Ok s1) = Ok s /\
    0 <= s < blen h /\ (s = idx \/ (s - 1) / 2 = idx /\ idx < s /\ dl h s < dl h idx) /\
    dl h s <= dl h idx /\ (forall i, 0 < i < blen h -> (i - 1) / 2 = idx -> dl h s <= dl h i).
Proof.
  intros Hi left. destruct (rd_in_range h idx Hi) as [n Hn].
  assert (Hch : forall i, 0 < i < blen h -> (i - 1) / 2 = idx -> i = left \/ i = left + 1) by (intros; dlia).
  assert (Hl2 : (left - 1) / 2 = idx /\ (left + 1 - 1) / 2 = idx) by dlia.
  destruct (Z.ltb_spec left (blen h)) as [Hl|Hl].
  - destruct (rd_in_range h left) as [l Hll]; [lia|]. step Hll. step Hn. cbn [mbind res_bind].
    rewrite <-(dl_rd _ _ _ Hll), <-(dl_rd _ _ _ Hn).
    set (s1 := if dl h left <? dl h idx then left else idx).
    assert (Hs1 : 0 <= s1 < blen h /\ (s1 = idx \/ s1 = left /\ dl h left < dl h idx) /\
      dl h s1 <= dl h idx /\ dl h s1 <= dl h left).
    { subst s1. destruct (Z.ltb_spec (dl h left) (dl h idx)); lia. }
    clearbody s1. destruct (Z.ltb_spec (left + 1) (blen h)) as [Hr|Hr].
    + destruct (rd_in_range h (left + 1)) as [r Hrr]; [lia|]. destruct (rd_in_range h s1) as [n1 Hn1]; [lia|].
      step Hrr. step Hn1. cbn [mbind res_bind]. rewrite <-(dl_rd _ _ _ Hrr), <-(dl_rd _ _ _ Hn1).
      eexists. split; [done|]. destruct (Z.ltb_spec (dl h (left + 1)) (dl h s1)).
      * split_and!; try lia. intros i Hir Hq. destruct (Hch i Hir Hq) as [->| ->]; lia.
      * split_and!; try lia.
        -- destruct Hs1 as (_ & [->|[-> ?]] & _); [by left|right; lia].
        -- intros i Hir Hq. destruct (Hch i Hir Hq) as [->| ->]; lia.
    + eexists. split; [done|]. split_and!; try lia.
      * destruct Hs1 as (_ & [->|[-> ?]] & _); [by left|right; lia].
      * intros i Hir Hq. destruct (Hch i Hir Hq) as [->| ->]; lia.
  - cbn [mbind res_bind]. rewrite (proj2 (Z.ltb_ge _ _)) by lia. exists idx. split; [done|].
    split_and!; try lia. intros i Hir Hq. destruct (Hch i Hir Hq) as [->| ->]; lia.
Qed.

Lemma bind_bind_Ok {A B C} (r : res A) (f : A -> res B) (k : B -> res C) b :
  (r ≫= f) = Ok b -> (r ≫= fun x => f x ≫= k) = k b.
Proof. destruct r; simpl; [|done..]. by intros ->. Qed.

Lemma sift_down_ok fuel h idx :
  0 <= idx < blen h -> (Z.to_nat (blen h - idx) <= fuel)%nat -> down_inv h idx ->
  exists h', heap_sift_down fuel h idx = Ok h' /\ h' ≡ₚ h /\ heap_ok h'.
Proof.
  revert h idx. induction fuel as [|fuel IH]; intros h idx Hi Hf [I1 I2]; [lia|]. cbn [heap_sift_down].
  destruct (smallest_ok h idx Hi) as (s & E & Hs & Hc & Hle & Hmin). cbv zeta in *.
  rewrite (bind_bind_Ok _ _ _ _ E). destruct (Z.eqb_spec s idx) as [->|Hne].
  { exists h. split_and!; [done..|]. intros i Hr.
    destruct (Z.eq_dec ((i - 1) / 2) idx) as [Hq|]; [rewrite Hq; by apply Hmin|by apply I1]. }
  destruct Hc as [?|(Hpar & Hlt & Hdlt)]; [done|].
  destruct (heap_swap_ok h idx s) as (h' & Esw & Hperm & Hdl); [lia..|]. step Esw.
  assert (Hlen : blen h' = blen h) by (by apply blen_Permutation).
  destruct (IH h' s) as (h2 & E2 & Hp2 & Hok); [lia|lia| |].
  - split; intros i Hr; rewrite Hlen in Hr.
    + intros Hq. rewrite !Hdl. destruct (Z.eqb_spec ((i - 1) / 2) s); [done|].
      destruct (Z.eqb_spec i s) as [->|]; [rewrite Hpar, Z.eqb_refl; lia|].
      destruct (Z.eqb_spec i idx) as [->|].
      { destruct (Z.eqb_spec ((idx - 1) / 2) idx); [dlia|]. apply (I2 s); lia. }
      destruct (Z.eqb_spec ((i - 1) / 2) idx) as [Hqi|]; [by apply Hmin|by apply I1].
    + intros Hq Hs0. rewrite !Hdl, Hpar. pose proof (I1 i Hr ltac:(lia)) as J. rewrite Hq in J.
      rewrite Z.eqb_refl. destruct (Z.eqb_spec idx s); [lia|].
      destruct (Z.eqb_spec i s); [dlia|]. destruct (Z.eqb_spec i idx); [dlia|done].
  - exists h2. split_and!; [done|by etrans|done].
Qed.

Lemma dl_cons_S n h i : 0 < i -> dl (n :: h) i = dl h (i - 1).
Proof.
  intros Hi. unfold dl, rd. destruct (Z.ltb_spec i 0), (Z.ltb_spec (i - 1) 0); try lia.
  by replace (Z.to_nat i) with (S (Z.to_nat (i - 1))) by lia.
Qed.

Lemma dl_app_l h1 h2 i : i < blen h1 -> dl (h1 ++ h2) i = dl h1 i.
Proof. intros Hi. unfold dl. by rewrite rd_app_l. Qed.

Lemma heap_pop_ok s node rest :
  heap s = node :: rest -> heap_ok (heap s) ->
  exists h, heap_pop s = Ok (with_heap s h, node) /\ rest ≡ₚ h /\ heap_ok h.
Proof.
  intros Eh Hok. unfold heap_pop. rewrite Eh in Hok |- *. rewrite (bind_Ok_l _ _ node) by done. cbv zeta.
  destruct rest as [|l init _] using rev_ind.
  { exists []. split_and!; [done|done|]. intros i Hi. lens. lia. }
  pose proof (blen_nonneg init). assert (Hc : blen (node :: init ++ [l]) - 1 = 1 + blen init) by (lens; lia).
  rewrite Hc, (proj2 (Z.ltb_lt 0 _)) by lia.
  assert (Hl : rd (node :: init ++ [l]) (1 + blen init) = Ok l).
  { change (node :: init ++ [l]) with ((node :: init) ++ [l]). rewrite rd_app_r by (lens; lia).
    lens. by rewrite Z.sub_diag. }
  step Hl. rewrite wr_Ok by (lens; lia). cbn [mbind res_bind]. change (Z.to_nat 0) with O. cbn [insert list_insert].
  assert (Ht : take (Z.to_nat (1 + blen init)) (l :: init ++ [l]) = l :: init).
  { change (l :: init ++ [l]) with ((l :: init) ++ [l]). apply take_app_length'. unfold blen. simpl. lia. }
  rewrite Ht. destruct (sift_down_ok (length (l :: init ++ [l])) (l :: init) 0) as (h & E & Hp & Hh).
  - lens. lia.
  - unfold blen. cbn [length]. rewrite length_app. simpl. lia.
  - split; [|intros; lia]. intros i Hi Hq. lens. specialize (Hok i ltac:(lens; lia)).
    rewrite !dl_cons_S in Hok |- * by dlia. rewrite !dl_app_l in Hok by dlia. done.
  - step E. exists h. split_and!; [done| |done]. rewrite Hp. by rewrite Permutation_app_comm.
Qed.

(** ** The scheduler's invariant and what it promises *)

Definition handle_of (n : rtc_timer_sched_node_t) : Z * Z := (nd_slot n, nd_generation n).

(** the node is the current timer of its slot *)
Definition live (s : rtc_timer_sched_t) (n : rtc_timer_sched_node_t) : bool :=
  (0 <=? nd_slot n) && (nd_slot n <? slot_count s) &&
  default false (active s !! Z.to_nat (nd_slot n)) &&
  (default 0 (generations s !! Z.to_nat (nd_slot n)) =? nd_generation n).

(** the pending timers *)
Definition pending (s : rtc_timer_sched_t) : list rtc_timer_sched_node_t :=
  filter (fun n => live s n = true) (heap s).

(** [n] adds so far: generations do not exceed it, so none has wrapped *)
Record sched_ok (n : Z) (s : rtc_timer_sched_t) : Prop := {
  sk_heap : heap_ok (heap s);
  sk_cap : blen (heap s) <= heap_cap s;
  sk_slots : 0 <= slot_count s <= slot_cap s;
  sk_gens : blen (generations s) = slot_cap s;
  sk_act : blen (active s) = slot_cap s;
  sk_bound : Forall (fun g => 0 <= g <= n) (generations s);
  sk_count : slot_count s <= n;
  sk_node : Forall (fun x => 0 <= nd_slot x < slot_count s /\ 1 <= nd_generation x /\
    nd_generation x <= default 0 (generations s !! Z.to_nat (nd_slot x))) (heap s);
  sk_nodup : NoDup (handle_of <$> heap s);
  sk_all : forall i, 0 <= i < slot_count s -> active s !! Z.to_nat i = Some true ->
    exists x, x ∈ heap s /\ nd_slot x = i /\ generations s !! Z.to_nat i = Some (nd_generation x)
}.

Lemma node_active_live n s x :
  sched_ok n s -> timer_node_active s x = Ok (live s x).
Proof.
  intros Hs. destruct Hs as [_ _ Hsl Hg Ha _ _ _ _ _]. unfold timer_node_active, live.
  destruct (Z.leb_spec 0 (nd_slot x)), (Z.ltb_spec (nd_slot x) (slot_count s)); cbn [andb]; try done.
  destruct (rd_in_range (active s) (nd_slot x)) as [a Ea]; [lia|].
  destruct (rd_in_range (generations s) (nd_slot x)) as [g Eg]; [lia|].
  step Ea. apply rd_Ok in Ea as [_ ->]. apply rd_Ok in Eg as Eg'. destruct Eg' as [_ Eg'].
  rewrite Eg'. simpl. destruct a; [|done]. by step Eg.
Qed.

(** popping the root keeps everything else *)
Lemma pop_inv n s root rest h :
  sched_ok n s -> heap s = root :: rest -> rest ≡ₚ h -> heap_ok h ->
  live s root = false -> sched_ok n (with_heap s h) /\ pending (with_heap s h) ≡ₚ pending s.
Proof.
  intros [H1 H2 H3 H4 H5 H6 H7 H8 H9 H10] Eh Hp Hh Hlive. split.
  - rewrite Eh in *. split; cbn [heap heap_cap generations active slot_count slot_cap with_heap]; try done.
    + apply blen_Permutation in Hp. lens. lia.
    + rewrite <-Hp. by apply Forall_cons_1 in H8 as [_ ?].
    + rewrite <-Hp. by apply NoDup_cons in H9 as [_ ?].
    + intros i Hi Ha. destruct (H10 i Hi Ha) as (x & Hx & Hxs & Hxg). exists x. split_and!; try done.
      rewrite <-Hp. apply elem_of_cons in Hx as [->|]; [|done]. exfalso. unfold live in Hlive.
      rewrite Hxs, Ha, Hxg in Hlive. simpl in Hlive. rewrite Z.eqb_refl, andb_true_r in Hlive. lia.
  - unfold pending. rewrite Eh, filter_cons_False by (rewrite Hlive; done).
    cbn [heap with_heap]. by rewrite <-Hp.
Qed.

Lemma prune_ok n fuel s :
  sched_ok n s -> (length (heap s) <= fuel)%nat ->
  exists s', prune_stale_roots fuel s = Ok s' /\ sched_ok n s' /\ pending s' ≡ₚ pending s /\
    (length (heap s') <= length (heap s))%nat /\
    (forall root rest, heap s' = root :: rest -> live s' root = true) /\
    active s' = active s /\ generations s' = generations s /\ slot_count s' = slot_count s.
Proof.
  revert s. induction fuel as [|fuel IH]; intros s Hs Hf.
  { destruct s as [[|x h] ? ? ? ? ?]; [|simpl in Hf; lia]. eexists. cbn. split_and!; try done. }
  destruct (heap s) as [|root rest] eqn:Eh.
  { exists s. cbn [prune_stale_roots]. rewrite Eh. by split_and!. }
  cbn [prune_stale_roots]. rewrite Eh, (node_active_live n) by done. cbn [mbind res_bind].
  destruct (live s root) eqn:Hl.
  { exists s. split_and!; try done; [by rewrite Eh|]. rewrite Eh. by intros ? ? [= <- <-]. }
  destruct (heap_pop_ok s root rest Eh (sk_heap _ _ Hs)) as (h & E & Hp & Hh). step E. cbn [fst].
  destruct (pop_inv n s root rest h Hs Eh Hp Hh Hl) as [Hs' Hpend].
  destruct (IH (with_heap s h) Hs') as (s' & E' & Hok & Hpd & Hlen & Hroot & Ha & Hg & Hc).
  { cbn [heap with_heap]. rewrite <-Hp. simpl in Hf. lia. }
  exists s'. split_and!; try done; [by etrans|]. cbn [heap with_heap] in Hlen. rewrite <-Hp in Hlen. simpl. lia.
Qed.

Lemma filter_ext_in {A} (P Q : A -> Prop) `{forall x, Decision (P x), forall x, Decision (Q x)} (l : list A) :
  (forall x, x ∈ l -> P x <-> Q x) -> filter P l = filter Q l.
Proof.
  induction l as [|x l IH]; intros Hpq; [done|].
  assert (IH' : filter P l = filter Q l).
  { apply IH. intros y Hy. apply Hpq, elem_of_cons. by right. }
  destruct (Hpq x) as [H1 H2]; [apply elem_of_cons; by left|].
  destruct (decide (P x)) as [Hx|Hx].
  - by rewrite !filter_cons_True, IH' by auto.
  - by rewrite !filter_cons_False, IH' by auto.
Qed.

Lemma filter_all {A} (P : A -> Prop) `{forall x, Decision (P x)} (l : list A) :
  (forall x, x ∈ l -> P x) -> filter P l = l.
Proof.
  induction l as [|x l IH]; intros Hp; [done|]. rewrite filter_cons_True by (apply Hp, elem_of_cons; by left).
  f_equal. apply IH. intros y Hy. apply Hp, elem_of_cons. by right.
Qed.

(** ** Deactivating a slot *)

Definition deactivate (s : rtc_timer_sched_t) (k : Z) : rtc_timer_sched_t :=
  Sched (heap s) (heap_cap s) (generations s) (<[Z.to_nat k := false]> (active s)) (slot_count s)
    (slot_cap s).

Lemma live_deactivate n s k x :
  sched_ok n s -> 0 <= k < slot_count s ->
  live (deactivate s k) x = live s x && negb (nd_slot x =? k).
Proof.
  intros Hs Hk. destruct Hs as [_ _ Hsl _ Ha _ _ _ _ _]. unfold live, deactivate.
  cbn [generations active slot_count]. destruct (Z.leb_spec 0 (nd_slot x)); [|done].
  destruct (Z.ltb_spec (nd_slot x) (slot_count s)); [|done]. cbn [andb].
  destruct (Z.eqb_spec (nd_slot x) k) as [->|].
  - rewrite list_lookup_insert_eq by (unfold blen in Ha; lia). simpl. by rewrite andb_false_r.
  - rewrite list_lookup_insert_ne by lia. by rewrite andb_true_r.
Qed.

Lemma live_handle n s x g :
  sched_ok n s -> live s x = true -> generations s !! Z.to_nat (nd_slot x) = Some g -> nd_generation x = g.
Proof. intros _ Hl Hg. unfold live in Hl. rewrite Hg in Hl. simpl in Hl. lia. Qed.

Lemma pending_deactivate n s k :
  sched_ok n s -> 0 <= k < slot_count s ->
  pending (deactivate s k) = filter (fun x => nd_slot x <> k) (pending s).
Proof.
  intros Hs Hk. unfold pending. cbn [heap deactivate]. rewrite list_filter_filter.
  apply list_filter_iff. intros x. rewrite (live_deactivate n) by done.
  rewrite andb_true_iff, negb_true_iff, Z.eqb_neq. tauto.
Qed.

Lemma deactivate_ok n s k : sched_ok n s -> 0 <= k < slot_count s -> sched_ok n (deactivate s k).
Proof.
  intros [H1 H2 H3 H4 H5 H6 H7 H8 H9 H10] Hk.
  split; cbn [heap heap_cap generations active slot_count slot_cap deactivate]; try done.
  - unfold blen in *. by rewrite length_insert.
  - intros i Hi Ha. destruct (Z.eq_dec i k) as [->|].
    + rewrite list_lookup_insert_eq in Ha by (unfold blen in H5; lia). done.
    + rewrite list_lookup_insert_ne in Ha by lia. by apply H10.
Qed.

(** popping a live root and marking its slot free *)
Lemma pop_live n s root rest h :
  sched_ok n s -> heap s = root :: rest -> rest ≡ₚ h -> heap_ok h -> live s root = true ->
  sched_ok n (deactivate (with_heap s h) (nd_slot root)) /\
  pending s ≡ₚ root :: pending (deactivate (with_heap s h) (nd_slot root)) /\
  Forall (fun x => deadline_ms root <= deadline_ms x) (pending s).
Proof.
  intros Hs Eh Hp Hh Hl. pose proof Hs as [H1 H2 H3 H4 H5 H6 H7 H8 H9 H10]. rewrite Eh in H8, H9.
  apply Forall_cons_1 in H8 as [[Hr0 _] H8]. apply NoDup_cons in H9 as [Hni H9].
  destruct (lookup_lt_is_Some_2 (generations s) (Z.to_nat (nd_slot root))) as [g Hg]; [unfold blen in *; lia|].
  assert (Hgr : nd_generation root = g) by (by eapply live_handle).
  split_and!.
  - split; cbn [heap heap_cap generations active slot_count slot_cap deactivate with_heap]; try done.
    + apply blen_Permutation in Hp. rewrite Eh in H2. lens. lia.
    + unfold blen in *. by rewrite length_insert.
    + by rewrite <-Hp.
    + by rewrite <-Hp.
    + intros i Hi Ha. destruct (Z.eq_dec i (nd_slot root)) as [->|].
      { rewrite list_lookup_insert_eq in Ha by (unfold blen in H5; lia). done. }
      rewrite list_lookup_insert_ne in Ha by lia. destruct (H10 i Hi Ha) as (x & Hx & Hxs & Hxg).
      exists x. split_and!; try done. rewrite <-Hp. rewrite Eh in Hx. apply elem_of_cons in Hx as [->|]; done.
  - unfold pending. rewrite Eh, filter_cons_True by done. constructor. cbn [heap deactivate with_heap].
    rewrite <-Hp. match goal with |- filter ?P _ ≡ₚ filter ?Q _ => rewrite (filter_ext_in P Q); [done|] end.
    intros x Hx.
    change (live (deactivate (with_heap s h) (nd_slot root)) x)
      with (live (deactivate s (nd_slot root)) x).
    rewrite (live_deactivate n) by done. rewrite andb_true_iff, negb_true_iff, Z.eqb_neq.
    split; [|by intros []]. intros Hlx. split; [done|]. intros Heq. apply Hni.
    apply list_elem_of_fmap. exists x. split; [|done]. unfold handle_of. rewrite Heq, Hgr. f_equal.
    symmetry. eapply live_handle; [done|done|]. by rewrite Heq.
  - apply Forall_forall. intros x [_ Hx]%list_elem_of_filter.
    apply list_elem_of_lookup in Hx as [i Hi].
    pose proof (heap_ok_root (heap s) (Z.of_nat i) H1) as Hmin.
    rewrite (dl_rd _ 0 root) in Hmin by (by rewrite Eh).
    rewrite (dl_rd _ _ x) in Hmin by (apply rd_Ok; split; [lia|by rewrite Nat2Z.id]).
    apply Hmin. apply lookup_lt_Some in Hi. unfold blen. lia.
Qed.

(** ** The operations *)

Lemma pop_due_ok n s now :
  sched_ok n s ->
  exists s' o, rtc_timer_sched_pop_due s now = Ok (s', o) /\ sched_ok n s' /\
    (length (heap s') <= length (heap s))%nat /\
    match o with
    | None => pending s' ≡ₚ pending s /\ Forall (fun x => now < deadline_ms x) (pending s)
    | Some fn => (length (heap s') < length (heap s))%nat /\
        exists x, nd_fn x = fn /\ deadline_ms x <= now /\ pending s ≡ₚ x :: pending s' /\
          Forall (fun y => deadline_ms x <= deadline_ms y) (pending s)
    end.
Proof.
  intros Hs. unfold rtc_timer_sched_pop_due. cbn [pop_due_loop].
  destruct (prune_ok n (length (heap s)) s Hs) as (s1 & E & Hs1 & Hpd & Hlen & Hroot & _); [done|]. step E.
  destruct (heap s1) as [|root rest] eqn:Eh.
  { exists s1, None. split_and!; try done; [rewrite Eh; simpl; lia|]. rewrite <-Hpd.
    unfold pending. by rewrite Eh. }
  specialize (Hroot root rest eq_refl).
  destruct (heap_pop_ok s1 root rest Eh (sk_heap _ _ Hs1)) as (h & E2 & Hp & Hh).
  destruct (pop_live n s1 root rest h Hs1 Eh Hp Hh Hroot) as (Hs2 & Hpend & Hmin).
  destruct (Z.ltb_spec now (deadline_ms root)).
  { exists s1, None. split_and!; try done; [by rewrite Eh|]. rewrite <-Hpd.
    eapply Forall_impl; [exact Hmin|]. intros x Hx. cbn beta in Hx. lia. }
  step E2. change (timer_node_active (with_heap s1 h) root) with (timer_node_active s1 root).
  rewrite (node_active_live n) by done. rewrite Hroot. cbn [mbind res_bind negb].
  pose proof (sk_node _ _ Hs1) as Hn. rewrite Eh in Hn. apply Forall_cons_1 in Hn as [[Hr _] _].
  destruct Hs1 as [_ _ Hsl _ Ha _ _ _ _ _]. cbn [active with_heap]. rewrite wr_Ok by lia. cbn [mbind res_bind].
  eexists _, _. split_and!; [done|exact Hs2| |].
  - cbn [heap deactivate with_heap]. rewrite <-Hp. simpl in Hlen. lia.
  - split; [cbn [heap with_heap]; rewrite <-Hp; simpl in Hlen; lia|].
    exists root. split_and!; try done; [by rewrite <-Hpd|by rewrite <-Hpd].
Qed.

(** the time to wait for pending deadlines [ds] *)
Lemma next_timeout_ok n s now def :
  sched_ok n s ->
  exists s' t, rtc_timer_sched_next_timeout_ms s now def = Ok (s', t) /\ sched_ok n s' /\
    pending s' ≡ₚ pending s /\
    (pending s = [] -> t = def) /\
    (pending s <> [] -> exists x, x ∈ pending s /\
       Forall (fun y => deadline_ms x <= deadline_ms y) (pending s) /\
       t = Z.min INT_MAX (Z.max 0 (deadline_ms x - now))).
Proof.
  intros Hs. unfold rtc_timer_sched_next_timeout_ms.
  destruct (prune_ok n (length (heap s)) s Hs) as (s1 & E & Hs1 & Hpd & _ & Hroot & _); [done|]. step E.
  destruct (heap s1) as [|root rest] eqn:Eh.
  { exists s1, def. assert (pending s = []) as Hnil.
    { apply Permutation_nil_r. rewrite <-Hpd. unfold pending. by rewrite Eh. }
    split_and!; done. }
  specialize (Hroot root rest eq_refl).
  destruct (heap_pop_ok s1 root rest Eh (sk_heap _ _ Hs1)) as (h & _ & Hp & Hh).
  destruct (pop_live n s1 root rest h Hs1 Eh Hp Hh Hroot) as (_ & Hpend & Hmin).
  assert (Hin : root ∈ pending s) by (rewrite <-Hpd, Hpend; by left).
  assert (pending s <> []) by (intros Hnil; rewrite Hnil in Hin; by apply elem_of_nil in Hin).
  cbv zeta. destruct (Z.leb_spec (deadline_ms root) now).
  - exists s1, 0. split_and!; try done. intros _. exists root. rewrite <-Hpd at 2. split_and!; try done.
    unfold INT_MAX. lia.
  - eexists s1, _. split_and!; try done. intros _. exists root. rewrite <-Hpd at 2. split_and!; try done.
    unfold INT_MAX. destruct (Z.ltb_spec (2 ^ 31 - 1) (deadline_ms root - now)); lia.
Qed.

Lemma cancel_ok n s handle :
  sched_ok n s ->
  exists s', rtc_timer_sched_cancel s handle = Ok s' /\ sched_ok n s' /\
    pending s' = filter (fun x => handle_of x <> (timer_handle_slot handle, timer_handle_generation handle))
                   (pending s).
Proof.
  intros Hs. unfold rtc_timer_sched_cancel.
  assert (Hsame : (forall x, x ∈ pending s ->
      handle_of x <> (timer_handle_slot handle, timer_handle_generation handle)) ->
    pending s = filter (fun x => handle_of x <> (timer_handle_slot handle, timer_handle_generation handle))
                   (pending s)).
  { intros Hx. symmetry. by apply filter_all. }
  assert (Hpn : forall x, x ∈ pending s -> live s x = true /\ 0 <= nd_slot x < slot_count s /\
    1 <= nd_generation x).
  { intros x [Hl Hx]%list_elem_of_filter. split; [done|]. pose proof (sk_node _ _ Hs) as Hn.
    rewrite Forall_forall in Hn. by apply Hn in Hx as (? & ? & _). }
  destruct (Z.eqb_spec handle RTC_TIMER_HANDLE_INVALID) as [->|_].
  { exists s. split_and!; try done. apply Hsame. intros x (_ & _ & Hg)%Hpn [= _ Hg0].
    change (timer_handle_generation RTC_TIMER_HANDLE_INVALID) with 0 in Hg0. lia. }
  set (slot := timer_handle_slot handle) in *. set (g := timer_handle_generation handle) in *.
  destruct ((slot <? 0) || (slot_count s <=? slot)) eqn:Hr.
  { exists s. split_and!; try done. apply Hsame. intros x (_ & Hr' & _)%Hpn [= Hsl _]. lia. }
  apply orb_false_iff in Hr as [Hr0%Z.ltb_ge Hr1%Z.leb_gt].
  pose proof Hs as [_ _ Hsl Hgl Hal _ _ _ _ _].
  destruct (rd_in_range (generations s) slot) as [g' Eg]; [lia|]. step Eg. apply rd_Ok in Eg as [_ Eg].
  destruct (Z.eqb_spec g' g) as [->|Hne]; cbn [negb].
  - rewrite wr_Ok by lia. cbn [mbind res_bind]. exists (deactivate s slot). split_and!; [done| |].
    { by apply deactivate_ok. }
    rewrite (pending_deactivate n) by (done || lia). apply filter_ext_in. intros x Hx.
    destruct (Hpn x Hx) as (Hl & _). split; [intros Hs1 [= ? ?]; done|].
    intros Hh Heq. apply Hh. unfold handle_of. rewrite Heq. f_equal. eapply live_handle; [done|done|].
    by rewrite Heq.
  - exists s. split_and!; try done. apply Hsame. intros x (Hl & _)%Hpn [= Hsx Hgx]. apply Hne.
    rewrite <-Hgx. symmetry. eapply live_handle; [done|done|]. by rewrite Hsx.
Qed.

(** ** Adding a timer *)

Lemma timer_free_slot_ok k act i :
  0 <= i -> i + Z.of_nat k <= blen act ->
  exists f, free_slot k act i = Ok f /\
    match f with
    | Some j => i <= j < i + Z.of_nat k /\ act !! Z.to_nat j = Some false
    | None => True
    end.
Proof.
  revert i. induction k as [|k IH]; intros i Hi Hb; [by exists None|]. cbn [free_slot].
  destruct (rd_in_range act i) as [a Ea]; [lia|]. step Ea. apply rd_Ok in Ea as [_ Ea].
  destruct a; cbn [negb].
  - destruct (IH (i + 1)) as (f & E & Hf); [lia..|]. exists f. split; [done|].
    destruct f; [|done]. split; [lia|apply Hf].
  - exists (Some i). split; [done|]. split; [lia|done].
Qed.

(** what [alloc_slot] returns: no slot, or a free one, with the arrays of the
    slots in use unchanged *)
Record allocated (n : Z) (s s1 : rtc_timer_sched_t) (slot : Z) : Prop := {
  al_heap : heap s1 = heap s;
  al_hcap : heap_cap s1 = heap_cap s;
  al_slot : 0 <= slot < slot_count s1;
  al_cnt : slot_count s1 = slot_count s \/ slot_count s1 = slot_count s + 1 /\ slot = slot_count s;
  al_free : slot < slot_count s -> active s !! Z.to_nat slot = Some false;
  al_slots : slot_count s1 <= slot_cap s1;
  al_gens : blen (generations s1) = slot_cap s1;
  al_act : blen (active s1) = slot_cap s1;
  al_bound : Forall (fun g => 0 <= g <= n) (generations s1);
  al_old : forall i, 0 <= i < slot_count s ->
    generations s1 !! Z.to_nat i = generations s !! Z.to_nat i /\
    active s1 !! Z.to_nat i = active s !! Z.to_nat i
}.

Lemma alloc_slot_ok n a2 a3 s :
  sched_ok n s -> 0 <= n ->
  exists s1 slot, alloc_slot a2 a3 s = Ok (s1, slot) /\
    ((slot = -1 /\ s1 = s /\ a2 && a3 = false) \/ allocated n s s1 slot).
Proof.
  intros [H1 H2 H3 H4 H5 H6 H7 H8 H9 H10] Hn. unfold alloc_slot.
  destruct (timer_free_slot_ok (Z.to_nat (slot_count s)) (active s) 0) as (f & E & Hf); [lia..|]. step E.
  destruct f as [j|].
  { exists s, j. split; [done|right]. destruct Hf as [Hj Ha]. split; try done; lia || (by left). }
  unfold ensure_slot_cap. destruct (Z.ltb_spec (slot_count s) (slot_cap s)) as [Hlt|Hge].
  { eexists _, _. split; [done|right]. split; cbn; done || lia. }
  destruct (negb a2 || negb a3) eqn:Ea.
  { exists s, (-1). split; [done|left]. split_and!; [done..|by destruct a2, a3]. }
  set (new_cap := if negb (slot_cap s =? 0) then slot_cap s * 2 else TIMER_INITIAL_SLOT_CAP).
  assert (Hnc : slot_cap s < new_cap).
  { subst new_cap. unfold TIMER_INITIAL_SLOT_CAP. destruct (Z.eqb_spec (slot_cap s) 0); cbn [negb]; lia. }
  clearbody new_cap. eexists _, _. split; [done|right].
  rewrite !(take_ge _ (Z.to_nat (slot_cap s))) by (unfold blen in *; lia).
  split; cbn [heap heap_cap generations active slot_count slot_cap]; try done; try lia.
  - lens. lia.
  - lens. lia.
  - apply Forall_app. split; [done|]. by apply Forall_replicate.
  - intros i Hi. rewrite !lookup_app_l by (unfold blen in *; lia). done.
Qed.

Lemma make_handle_parts slot g :
  0 <= slot < 2 ^ 31 -> 0 < g < 2 ^ 32 ->
  timer_handle_slot (timer_make_handle slot g) = slot /\
  timer_handle_generation (timer_make_handle slot g) = g /\
  timer_make_handle slot g <> RTC_TIMER_HANDLE_INVALID.
Proof.
  intros Hs Hg. assert (E : timer_make_handle slot g = g * 2 ^ 32 + slot).
  { unfold timer_make_handle. rewrite u32_id by lia. apply lor_shiftl_add; lia. }
  rewrite E. unfold timer_handle_slot, timer_handle_generation, RTC_TIMER_HANDLE_INVALID.
  rewrite (land_mask 32) by done. split_and!; [|unfold u32; rewrite Z.shiftr_div_pow2 by lia; pow_eval; dlia|lia].
  rewrite <-Z.add_comm, Z.mod_add, Z.mod_small by lia. apply (sint_id 32); simpl; lia.
Qed.

Lemma push_ok h x :
  heap_ok h -> exists h', heap_sift_up (length h) (h ++ [x]) (blen h) = Ok h' /\ h' ≡ₚ x :: h /\ heap_ok h'.
Proof.
  intros Hh. pose proof (blen_nonneg h).
  destruct (sift_up_ok (length h) (h ++ [x]) (blen h)) as (h' & E & Hp & Hok).
  - lens. lia.
  - unfold blen. lia.
  - split; intros i Hi; lens.
    + intros Hne. rewrite !dl_app_l by dlia. apply Hh. lia.
    + intros Hq Hp. dlia.
  - exists h'. split_and!; [done| |done]. rewrite Hp. by rewrite Permutation_app_comm.
Qed.

(** the state after a timer is put in slot [slot] with generation [g] *)
Definition put_timer (s1 : rtc_timer_sched_t) (h : list rtc_timer_sched_node_t) (slot g : Z)
    : rtc_timer_sched_t :=
  Sched h (heap_cap s1) (<[Z.to_nat slot := g]> (generations s1)) (<[Z.to_nat slot := true]> (active s1))
    (slot_count s1) (slot_cap s1).

Section Put.
Context (n : Z) (s s1 : rtc_timer_sched_t) (slot g d : Z) (fn : U) (h : list rtc_timer_sched_node_t).
Hypothesis Hs : sched_ok n s.
Hypothesis Hal : allocated n s s1 slot.
Hypothesis Hg : generations s1 !! Z.to_nat slot = Some (g - 1).
Hypothesis Hh : h ≡ₚ Node d fn g slot :: heap s.
Hypothesis Hok : heap_ok h.
Hypothesis Hcap : blen (heap s) < heap_cap s1.

(** no node of the heap has the new handle, and those of the slot are dead *)
Lemma old_nodes x :
  x ∈ heap s ->
  handle_of x <> (slot, g) /\ live (put_timer s1 h slot g) x = live s x /\
  0 <= nd_slot x < slot_count s1 /\ 1 <= nd_generation x <= default 0 (generations (put_timer s1 h slot g) !! Z.to_nat (nd_slot x)).
Proof using Hs Hal Hg.
  intros Hx. pose proof (sk_node _ _ Hs) as Hn. rewrite Forall_forall in Hn. apply Hn in Hx as (Hr & Hg1 & Hgx).
  destruct Hal as [_ _ A3 A4 A5 A6 A7 A8 A9 A10]. destruct (A10 (nd_slot x) Hr) as [E1 E2].
  assert (Hlt : (Z.to_nat slot < length (generations s1))%nat /\ (Z.to_nat slot < length (active s1))%nat)
    by (unfold blen in *; lia).
  unfold live, put_timer, handle_of. cbn [generations active slot_count].
  destruct (Z.eq_dec (nd_slot x) slot) as [Heq|Hne].
  - rewrite Heq in *. rewrite E1 in Hg. rewrite Hg in Hgx. simpl in Hgx.
    rewrite !list_lookup_insert_eq by lia. cbn [from_option id].
    split_and!; try lia; [intros [= ?]; lia|].
    rewrite (proj2 (Z.eqb_neq g _)) by lia. rewrite A5 by lia. simpl. by rewrite !andb_false_r.
  - rewrite !list_lookup_insert_ne by lia. rewrite E1, E2. split_and!; try lia; [intros [= ?]; lia|].
    destruct (Z.leb_spec 0 (nd_slot x)); [|lia].
    by rewrite (proj2 (Z.ltb_lt _ (slot_count s1))), (proj2 (Z.ltb_lt _ (slot_count s))) by lia.
Qed.

Lemma put_timer_ok : 0 < g -> sched_ok (n + 1) (put_timer s1 h slot g).
Proof using Hs Hal Hg Hh Hok Hcap.
  intros Hgpos. pose proof Hs as [H1 H2 H3 H4 H5 H6 H7 H8 H9 H10].
  pose proof Hal as [A1 A2 A3 A4 A5 A6 A7 A8 A9 A10].
  assert (Hgn : 0 <= g - 1 <= n) by (by eapply Forall_lookup_1 in A9).
  assert (Hlt : (Z.to_nat slot < length (generations s1))%nat /\ (Z.to_nat slot < length (active s1))%nat)
    by (unfold blen in *; lia).
  split; try (cbn [put_timer heap heap_cap generations active slot_count slot_cap]; done || lia).
  - cbn [put_timer heap heap_cap]. apply blen_Permutation in Hh. rewrite Hh. lens. lia.
  - cbn. unfold blen in *. by rewrite length_insert.
  - cbn. unfold blen in *. by rewrite length_insert.
  - cbn [put_timer generations]. apply Forall_insert; [|lia].
    eapply Forall_impl; [exact A9|]. intros x Hx. cbn beta in Hx. lia.
  - cbn [put_timer heap]. rewrite Hh. constructor.
    + cbn [nd_slot nd_generation put_timer slot_count generations].
      rewrite list_lookup_insert_eq by lia. simpl. lia.
    + apply Forall_forall. intros x Hx. destruct (old_nodes x Hx) as (_ & _ & Hr & Hge). exact (conj Hr Hge).
  - cbn [put_timer heap]. rewrite Hh, fmap_cons. apply NoDup_cons. split; [|done].
    intros (x & Hx1 & Hx2)%list_elem_of_fmap. destruct (old_nodes x Hx2) as (Hne & _). by apply Hne.
  - cbn [put_timer heap generations active slot_count]. intros i Hi Ha.
    destruct (Z.eq_dec i slot) as [->|Hne].
    + exists (Node d fn g slot). rewrite Hh, list_lookup_insert_eq by lia. split_and!; [by left|done..].
    + rewrite list_lookup_insert_ne in Ha by lia. destruct (A10 i) as [E1 E2]; [lia|].
      rewrite E2 in Ha. destruct (H10 i ltac:(lia) Ha) as (x & Hx & Hxs & Hxg).
      exists x. rewrite Hh, list_lookup_insert_ne, E1 by lia. split_and!; [by right|done..].
Qed.

Lemma put_timer_pending : pending (put_timer s1 h slot g) ≡ₚ Node d fn g slot :: pending s.
Proof using Hs Hal Hg Hh.
  pose proof Hal as [A1 A2 A3 A4 A5 A6 A7 A8 A9 A10].
  assert (Hlt : (Z.to_nat slot < length (generations s1))%nat /\ (Z.to_nat slot < length (active s1))%nat)
    by (unfold blen in *; lia).
  unfold pending. cbn [put_timer heap]. rewrite Hh at 1. rewrite filter_cons_True.
  - constructor. match goal with |- filter ?P _ ≡ₚ filter ?Q _ => rewrite (filter_ext_in P Q); [done|] end.
    intros x Hx. by destruct (old_nodes x Hx) as (_ & -> & _).
  - unfold live. cbn [nd_slot nd_generation put_timer slot_count active generations].
    rewrite !list_lookup_insert_eq by lia. simpl.
    by rewrite (proj2 (Z.leb_le 0 slot)), (proj2 (Z.ltb_lt slot _)), Z.eqb_refl by lia.
Qed.
End Put.

Lemma add_ok n a1 a2 a3 s d fn :
  sched_ok n s -> 0 <= n -> n + 1 < 2 ^ 31 ->
  exists s' handle, rtc_timer_sched_add a1 a2 a3 s d fn = Ok (s', handle) /\ sched_ok (n + 1) s' /\
    ((handle = RTC_TIMER_HANDLE_INVALID /\ pending s' = pending s /\ (fn = None \/ (a1 && a2 && a3) = false)) \/
     exists x, fn = Some (nd_fn x) /\ deadline_ms x = d /\
       handle_of x = (timer_handle_slot handle, timer_handle_generation handle) /\
       handle <> RTC_TIMER_HANDLE_INVALID /\ handle_of x ∉ handle_of <$> pending s /\
       pending s' ≡ₚ x :: pending s).
Proof.
  intros Hs Hn Hn1. unfold rtc_timer_sched_add.
  assert (Hmono : sched_ok (n + 1) s).
  { destruct Hs as [H1 H2 H3 H4 H5 H6 H7 H8 H9 H10]. split; try done; [|lia].
    eapply Forall_impl; [exact H6|]. intros x Hx. cbn beta in Hx. lia. }
  destruct fn as [fn|]; [|exists s, RTC_TIMER_HANDLE_INVALID; split_and!; [done..|left; auto]].
  assert (Hec : ensure_heap_cap a1 s = Err RTC_ERR_NOMEM /\ a1 = false \/
    exists c, ensure_heap_cap a1 s = Ok (Sched (heap s) c (generations s) (active s) (slot_count s) (slot_cap s)) /\
      blen (heap s) < c).
  { unfold ensure_heap_cap. pose proof (sk_cap _ _ Hs) as Hc. pose proof (blen_nonneg (heap s)).
    destruct (Z.ltb_spec (blen (heap s)) (heap_cap s)); [right; exists (heap_cap s); by destruct s|].
    destruct a1; [right|by left]. eexists. split; [done|]. unfold TIMER_INITIAL_HEAP_CAP.
    destruct (Z.eqb_spec (heap_cap s) 0); cbn [negb]; lia. }
  destruct Hec as [[-> ->]|(c & -> & Hc)].
  { exists s, RTC_TIMER_HANDLE_INVALID. split_and!; [done..|left; auto]. }
  set (s0 := Sched (heap s) c (generations s) (active s) (slot_count s) (slot_cap s)).
  assert (Hs0 : sched_ok n s0) by (destruct Hs; split; simpl; try done; lia).
  destruct (alloc_slot_ok n a2 a3 s0 Hs0 Hn) as (s1 & slot & E & Hcase). step E.
  destruct Hcase as [(-> & -> & Ha)|Hal].
  { exists s0, RTC_TIMER_HANDLE_INVALID. split_and!; [done| |left; split_and!; [done..|right]].
    - destruct Hmono; split; simpl; try done; lia.
    - by rewrite <-andb_assoc, Ha, andb_false_r. }
  pose proof Hal as [A1 A2 A3 A4 A5 A6 A7 A8 A9 A10].
  rewrite (proj2 (Z.ltb_ge slot 0)) by lia.
  destruct (rd_in_range (generations s1) slot) as [g Eg]; [lia|]. step Eg. apply rd_Ok in Eg as [_ Eg].
  assert (Hg : 0 <= g <= n) by (by eapply Forall_lookup_1 in A9).
  cbv zeta. rewrite u32_id by lia. rewrite (proj2 (Z.eqb_neq (g + 1) 0)) by lia.
  rewrite !wr_Ok by lia. cbn [mbind res_bind]. rewrite A1, A2.
  rewrite (bind_Ok_l _ _ ()) by (apply fault_if_Ok, Z.leb_gt; done).
  destruct (push_ok (heap s0) (Node d fn (g + 1) slot)) as (h & Eh & Hp & Hh); [apply Hs0|]. step Eh.
  rewrite <-A2. fold (put_timer s1 h slot (g + 1)).
  assert (Hg1 : generations s1 !! Z.to_nat slot = Some (g + 1 - 1)) by (by rewrite Z.add_simpl_r).
  destruct (make_handle_parts slot (g + 1)) as (M1 & M2 & M3);
    [destruct Hs0 as [_ _ ? _ _ _ ? _ _ _]; simpl in *; lia|lia|].
  eexists _, _. split_and!; [done| |right].
  { eapply put_timer_ok; try done; [rewrite A2; done|lia]. }
  exists (Node d fn (g + 1) slot). rewrite M1, M2. split_and!; try done.
  - intros (x & Hx1 & [_ Hx2]%list_elem_of_filter)%list_elem_of_fmap.
    destruct (old_nodes n s0 s1 slot (g + 1) h Hs0 Hal Hg1 x Hx2) as (Hne & _). by apply Hne.
  - by eapply (put_timer_pending n s0).
Qed.

(** ** Counting *)

Lemma count_true_from k (l : list bool) :
  length (filter (fun a => a = true) l)
  = length (filter (fun i => l !! (i - k)%nat = Some true) (seq k (length l))).
Proof.
  revert k. induction l as [|a l IH]; intros k; [done|]. cbn [length seq].
  assert (E : filter (fun i => (a :: l) !! (i - k)%nat = Some true) (seq (S k) (length l))
    = filter (fun i => l !! (i - S k)%nat = Some true) (seq (S k) (length l))).
  { apply filter_ext_in. intros i [Hi _]%elem_of_seq.
    by replace (i - k)%nat with (S (i - S k)) by lia. }
  destruct a.
  - rewrite filter_cons_True by done. rewrite filter_cons_True by (by rewrite Nat.sub_diag).
    cbn [length]. by rewrite E, <-IH.
  - rewrite filter_cons_False by done. rewrite filter_cons_False by (by rewrite Nat.sub_diag).
    by rewrite E, <-IH.
Qed.

Lemma count_true (l : list bool) :
  length (filter (fun a => a = true) l)
  = length (filter (fun i => l !! i = Some true) (seq 0 (length l))).
Proof.
  rewrite (count_true_from 0). f_equal. apply list_filter_iff. intros i. by rewrite Nat.sub_0_r.
Qed.

Lemma pending_slot_inj n s x y :
  sched_ok n s -> x ∈ pending s -> y ∈ pending s -> nd_slot x = nd_slot y -> x = y.
Proof.
  intros Hs [Hlx Hx]%list_elem_of_filter [Hly Hy]%list_elem_of_filter Heq.
  pose proof (sk_node _ _ Hs) as Hn. rewrite Forall_forall in Hn. destruct (Hn x Hx) as [Hr _].
  destruct (lookup_lt_is_Some_2 (generations s) (Z.to_nat (nd_slot x))) as [g Hg].
  { destruct Hs as [_ _ ? ? _ _ _ _ _ _]. unfold blen in *. lia. }
  assert (Hh : handle_of x = handle_of y).
  { unfold handle_of. rewrite Heq. f_equal. rewrite (live_handle n s x g), (live_handle n s y g); try done.
    by rewrite <-Heq. }
  apply list_elem_of_lookup in Hx as [i Hi], Hy as [j Hj].
  assert (i = j) as <-; [|congruence]. eapply NoDup_lookup; [apply (sk_nodup _ _ Hs)|..];
    rewrite list_lookup_fmap; [by rewrite Hi|by rewrite Hj, Hh].
Qed.

Lemma pending_count_ok n s :
  sched_ok n s -> rtc_timer_sched_pending_count s = Ok (blen (pending s)).
Proof.
  intros Hs. pose proof Hs as [H1 H2 H3 H4 H5 H6 H7 H8 H9 H10]. unfold rtc_timer_sched_pending_count.
  rewrite sub_Ok by lia. cbn [mbind res_bind]. f_equal. change (Z.to_nat 0) with O. rewrite drop_0.
  unfold blen. f_equal. rewrite count_true. set (act := take (Z.to_nat (slot_count s)) (active s)).
  rewrite <-(length_fmap (fun x => Z.to_nat (nd_slot x)) (pending s)). apply Permutation_length.
  apply NoDup_Permutation.
  - apply NoDup_filter, NoDup_seq.
  - apply NoDup_fmap_2_strong.
    + intros x y Hx Hy Heq. eapply pending_slot_inj; [done..|].
      apply list_elem_of_filter in Hx as [_ Hx], Hy as [_ Hy]. rewrite Forall_forall in H8.
      destruct (H8 x Hx), (H8 y Hy). lia.
    + apply NoDup_filter. by eapply NoDup_fmap_1.
  - intros i. rewrite list_elem_of_filter, elem_of_seq, list_elem_of_fmap. split.
    + intros [Ha Hi]. subst act. rewrite length_take in Hi. rewrite lookup_take_lt in Ha by lia.
      destruct (H10 (Z.of_nat i)) as (x & Hx & Hxs & Hxg); [lia|by rewrite Nat2Z.id|].
      exists x. split; [lia|]. apply list_elem_of_filter. split; [|done]. unfold live.
      rewrite Hxs, Hxg, Nat2Z.id, Ha. simpl. rewrite Z.eqb_refl. lia.
    + intros (x & -> & [Hl Hx]%list_elem_of_filter). rewrite Forall_forall in H8.
      destruct (H8 x Hx) as [Hr _]. subst act. rewrite length_take. unfold blen in *.
      split; [|lia]. rewrite lookup_take_lt by lia. unfold live in Hl.
      destruct (active s !! Z.to_nat (nd_slot x)) as [a|] eqn:Ea; rewrite ?Ea in Hl; simpl in Hl; [|lia].
      destruct a; [done|]. simpl in Hl. rewrite andb_false_r in Hl. done.
Qed.

(** ** Firing *)

Lemma fire_ok n fuel s now :
  sched_ok n s -> (length (heap s) < fuel)%nat ->
  exists s' fired, fire_loop fuel s now = Ok (s', nd_fn <$> fired) /\ sched_ok n s' /\
    pending s ≡ₚ fired ++ pending s' /\ StronglySorted Z.le (deadline_ms <$> fired) /\
    Forall (fun x => deadline_ms x <= now) fired /\ Forall (fun x => now < deadline_ms x) (pending s').
Proof.
  revert s. induction fuel as [|fuel IH]; intros s Hs Hf; [lia|]. cbn [fire_loop].
  destruct (pop_due_ok n s now Hs) as (s1 & o & E & Hs1 & Hlen & Ho). step E. destruct o as [fn|].
  - destruct Ho as (Hlt & x & <- & Hd & Hp & Hmin).
    destruct (IH s1 Hs1) as (s2 & fired & E2 & Hs2 & Hp2 & Hsort & Hdue & Hrest); [lia|]. step E2.
    exists s2, (x :: fired). split_and!; try done.
    + by rewrite Hp, Hp2.
    + rewrite fmap_cons. constructor; [done|]. apply Forall_fmap. rewrite Hp, Hp2 in Hmin.
      apply Forall_cons_1 in Hmin as [_ Hmin]. by apply Forall_app in Hmin as [? _].
    + by constructor.
  - destruct Ho as [Hp Hall]. exists s1, []. split_and!; try done; [constructor|by rewrite Hp].
Qed.

(** ** The abstract scheduler: a multiset of pending timers *)

Inductive timer_op :=
  | OpAdd (a1 a2 a3 : bool) (deadline : Z) (fn : option U)
  | OpCancel (handle : Z)
  | OpPopDue (now : Z)
  | OpNextTimeout (now default_timeout : Z)
  | OpFireDue (now : Z)
  | OpPendingCount
  | OpClose.

Inductive timer_out :=
  | OutHandle (handle : Z) | OutNone | OutPop (o : option U) | OutInt (z : Z) | OutFired (fns : list U).

Definition timer_step (s : rtc_timer_sched_t) (op : timer_op) : res (rtc_timer_sched_t * timer_out) :=
  match op with
  | OpAdd a1 a2 a3 d fn => sh ← rtc_timer_sched_add a1 a2 a3 s d fn; Ok (sh.1, OutHandle sh.2)
  | OpCancel h => s ← rtc_timer_sched_cancel s h; Ok (s, OutNone)
  | OpPopDue now => so ← rtc_timer_sched_pop_due s now; Ok (so.1, OutPop so.2)
  | OpNextTimeout now def => st ← rtc_timer_sched_next_timeout_ms s now def; Ok (st.1, OutInt st.2)
  | OpFireDue now => sf ← rtc_timer_sched_fire_due s now; Ok (sf.1, OutFired sf.2)
  | OpPendingCount => c ← rtc_timer_sched_pending_count s; Ok (s, OutInt c)
  | OpClose => Ok (rtc_timer_sched_close s, OutNone)
  end.

Fixpoint timer_run (s : rtc_timer_sched_t) (ops : list timer_op)
    : res (rtc_timer_sched_t * list timer_out) :=
  match ops with
  | [] => Ok (s, [])
  | op :: ops => so ← timer_step s op; sr ← timer_run so.1 ops; Ok (sr.1, so.2 :: sr.2)
  end.

Abbreviation timers := (list rtc_timer_sched_node_t).

(** [P]: the pending timers before, [P']: after *)
Definition timer_spec (P : timers) (op : timer_op) (r : timer_out) (P' : timers) : Prop :=
  match op, r with
  | OpAdd a1 a2 a3 d fn, OutHandle h =>
      (h = RTC_TIMER_HANDLE_INVALID /\ P' ≡ₚ P /\ (fn = None \/ (a1 && a2 && a3) = false)) \/
      exists x, fn = Some (nd_fn x) /\ deadline_ms x = d /\
        handle_of x = (timer_handle_slot h, timer_handle_generation h) /\
        h <> RTC_TIMER_HANDLE_INVALID /\ handle_of x ∉ handle_of <$> P /\ P' ≡ₚ x :: P
  | OpCancel h, OutNone =>
      P' ≡ₚ filter (fun x => handle_of x <> (timer_handle_slot h, timer_handle_generation h)) P
  | OpPopDue now, OutPop (Some fn) =>
      exists x, nd_fn x = fn /\ deadline_ms x <= now /\ P ≡ₚ x :: P' /\
        Forall (fun y => deadline_ms x <= deadline_ms y) P
  | OpPopDue now, OutPop None => P' ≡ₚ P /\ Forall (fun x => now < deadline_ms x) P
  | OpNextTimeout now def, OutInt t =>
      P' ≡ₚ P /\ (P = [] -> t = def) /\
      (P <> [] -> exists x, x ∈ P /\ Forall (fun y => deadline_ms x <= deadline_ms y) P /\
         t = Z.min INT_MAX (Z.max 0 (deadline_ms x - now)))
  | OpFireDue now, OutFired fns =>
      exists fired, fns = nd_fn <$> fired /\ P ≡ₚ fired ++ P' /\
        StronglySorted Z.le (deadline_ms <$> fired) /\
        Forall (fun x => deadline_ms x <= now) fired /\ Forall (fun x => now < deadline_ms x) P'
  | OpPendingCount, OutInt c => P' ≡ₚ P /\ c = blen P
  | OpClose, OutNone => P' = []
  | _, _ => False
  end.

Fixpoint timer_spec_run (P : timers) (ops : list timer_op) (rs : list timer_out) (P' : timers) : Prop :=
  match ops, rs with
  | [], [] => P' = P
  | op :: ops, r :: rs => exists P1, timer_spec P op r P1 /\ timer_spec_run P1 ops rs P'
  | _, _ => False
  end.

Lemma sched_ok_mono n m s : sched_ok n s -> n <= m -> sched_ok m s.
Proof.
  intros [H1 H2 H3 H4 H5 H6 H7 H8 H9 H10] Hnm. split; try done; [|lia].
  eapply Forall_impl; [exact H6|]. intros x Hx. cbn beta in Hx. lia.
Qed.

Lemma sched_init_ok : sched_ok 0 rtc_timer_sched_init.
Proof.
  split; cbn; try done; try lia; try constructor. intros i Hi. lens. lia.
Qed.

Lemma timer_step_ok n s op :
  sched_ok n s -> 0 <= n -> n + 1 < 2 ^ 31 ->
  exists s' r, timer_step s op = Ok (s', r) /\ sched_ok (n + 1) s' /\ timer_spec (pending s) op r (pending s').
Proof.
  intros Hs Hn Hn1. assert (Hle : n <= n + 1) by lia. destruct op; cbn [timer_step timer_spec].
  - destruct (add_ok n a1 a2 a3 s deadline fn Hs Hn Hn1) as (s' & h & E & Hs' & Hc). step E.
    exists s', (OutHandle h). split_and!; [done|done|].
    destruct Hc as [(-> & -> & ?)|Hc]; [left; done|right; done].
  - destruct (cancel_ok n s handle Hs) as (s' & E & Hs' & Hp). step E.
    exists s', OutNone. split_and!; [done|by eapply sched_ok_mono|]. by rewrite Hp.
  - destruct (pop_due_ok n s now Hs) as (s' & o & E & Hs' & _ & Ho). step E.
    eexists _, _. split_and!; [done|by eapply sched_ok_mono|]. destruct o; simpl; [apply Ho|done].
  - destruct (next_timeout_ok n s now default_timeout Hs) as (s' & t & E & Hs' & Hp). step E.
    eexists _, _. split_and!; [done|by eapply sched_ok_mono|]. exact Hp.
  - unfold rtc_timer_sched_fire_due.
    destruct (fire_ok n (S (length (heap s))) s now Hs) as (s' & fired & E & Hs' & Hf); [lia|]. step E.
    eexists _, _. split_and!; [done|by eapply sched_ok_mono|]. by exists fired.
  - rewrite (pending_count_ok n) by done. eexists _, _. split_and!; [done|by eapply sched_ok_mono|done].
  - eexists _, _. split_and!; [done| |done]. eapply sched_ok_mono; [apply sched_init_ok|lia].
Qed.

(** C5: The timer scheduler implements a multiset of timers.  Along every
    sequence of fewer than 2^31 - 1 operations and every pattern of
    allocation failures: an added timer is pending under a fresh non-zero
    handle; a cancelled handle is never fired; [pop_due] returns a pending
    timer with the least deadline if one is due and otherwise says so;
    [fire_due] fires exactly the due timers in order of deadline; the
    timeout and the count are those of the pending timers.  No heap or slot
    access is out of bounds and all loops end. *)
Theorem timer_sched_refines_multiset ops :
  blen ops < 2 ^ 31 - 1 ->
  exists s rs, timer_run rtc_timer_sched_init ops = Ok (s, rs) /\
    timer_spec_run [] ops rs (pending s).
Proof.
  intros Hlen. assert (Hgen : forall n s, sched_ok n s -> 0 <= n -> n + blen ops < 2 ^ 31 ->
    exists s' rs, timer_run s ops = Ok (s', rs) /\ timer_spec_run (pending s) ops rs (pending s')).
  { clear. induction ops as [|op ops IH]; intros n s Hs Hn Hb; [by exists s, []|].
    lens. pose proof (blen_nonneg ops).
    destruct (timer_step_ok n s op Hs Hn) as (s1 & r & E & Hs1 & Hsp); [lia|].
    destruct (IH (n + 1) s1 Hs1) as (s2 & rs & E2 & Hrun); [lia..|].
    exists s2, (r :: rs). cbn [timer_run]. step E. cbn [fst]. step E2. split; [done|].
    cbn [timer_spec_run]. by exists (pending s1). }
  apply (Hgen 0 rtc_timer_sched_init); [apply sched_init_ok|lia..].
Qed.

End Sched.

Lemma timer_sched_refines_multiset_witness :
  let ops := [OpAdd true true true 30 (Some 1); OpAdd true true true 10 (Some 2);
              OpAdd true true true 20 (Some 3); OpCancel (timer_make_handle 1 1);
              OpPendingCount; OpNextTimeout 5 1000; OpPopDue 25; OpFireDue 40] in
  exists s rs, timer_run rtc_timer_sched_init ops = Ok (s, rs) /\
    timer_spec_run [] ops rs (pending s).
Proof.
  intros ops. apply (timer_sched_refines_multiset ops). reflexivity.
Defined.

End TimerSched.
