(* ===== verification/Probe.v ===== *)
(** * Open addressing with linear probing

    The loops shared by common/src/rtc_u32_map.c and common/src/rtc_str_map.c
    over an entry type with a state field, and their correctness: a table
    whose probe runs have no empty holes is a finite map. *)

From S2P Require Import Prelude.
From Stdlib Require Import ZArith Lia.
From stdpp Require Import base list numbers gmap fin_maps.
#[local] Open Scope Z_scope.

Module Probe.

Inductive entry_state := ENTRY_EMPTY | ENTRY_USED | ENTRY_TOMBSTONE.
#[export] Instance entry_state_eq_dec : EqDecision entry_state.
Proof. solve_decision. Defined.

Section Loops.
Context {E : Type} (state : E -> entry_state).

(** the [while (1)] of u32_find_slot / str_find_slot *)
Fixpoint find_loop (fuel : nat) (mtch : E -> bool) (entries : list E) (mask slot : Z)
    (first_tombstone : option Z) : res (Z * bool) :=
  match fuel with
  | O => Fault
  | S fuel =>
      e ← rd entries slot;
      let next ft := find_loop fuel mtch entries mask (Z.land (slot + 1) mask) ft in
      match state e with
      | ENTRY_EMPTY => Ok (default slot first_tombstone, false)
      | ENTRY_USED => if mtch e then Ok (slot, true) else next first_tombstone
      | ENTRY_TOMBSTONE =>
          next (match first_tombstone with None => Some slot | s => s end)
      end
  end.

(** the [while (new_entries[slot].state == ENTRY_USED)] of a rehash *)
Fixpoint free_loop (fuel : nat) (entries : list E) (mask slot : Z) : res Z :=
  match fuel with
  | O => Fault
  | S fuel =>
      e ← rd entries slot;
      match state e with
      | ENTRY_USED => free_loop fuel entries mask (Z.land (slot + 1) mask)
      | _ => Ok slot
      end
  end.

(** the loop over the old entries of a rehash; [copy] is what is stored *)
Fixpoint reinsert (hash_of : E -> Z) (copy : E -> E) (old new : list E) (mask : Z) : res (list E) :=
  match old with
  | [] => Ok new
  | src :: rest =>
      match state src with
      | ENTRY_USED =>
          slot ← free_loop (length new) new mask (Z.land (hash_of src) mask);
          new' ← wr new slot (copy src);
          reinsert hash_of copy rest new' mask
      | _ => reinsert hash_of copy rest new mask
      end
  end.

End Loops.

(** ** Tables as finite maps *)

Section Theory.
Context {E K V : Type} `{Countable K}.
Context (state : E -> entry_state) (key : E -> K) (value : E -> V) (h : K -> Z).
Context (good : E -> Prop).

Definition used_kv (e : E) : option (K * V) :=
  match state e with ENTRY_USED => Some (key e, value e) | _ => None end.

Definition to_map (T : list E) : gmap K V := list_to_map (omap used_kv T).

Definition count (s : entry_state) (T : list E) : Z :=
  blen (filter (fun e => state e = s) T).

(** slot at distance [d] from the home slot of [k] *)
Definition pos (cap : Z) (k : K) (d : Z) : Z := (h k + d) mod cap.

(** all slots at distance below [d] from [k]'s home are in use or deleted *)
Definition run (T : list E) (k : K) (d : Z) : Prop :=
  forall d', 0 <= d' < d -> exists e, rd T (pos (blen T) k d') = Ok e /\ state e <> ENTRY_EMPTY.

Definition dist (T : list E) (k : K) (i : Z) : Z := (i - h k) mod blen T.

Record table_ok (T : list E) : Prop := {
  tbl_pow : exists n, 0 <= n /\ blen T = 2 ^ n;
  tbl_run : forall i e, rd T i = Ok e -> state e = ENTRY_USED -> run T (key e) (dist T (key e) i);
  tbl_uniq : forall i j e e', rd T i = Ok e -> rd T j = Ok e' ->
    state e = ENTRY_USED -> state e' = ENTRY_USED -> key e = key e' -> i = j;
  tbl_good : Forall good T
}.

Definition has_empty (T : list E) : Prop :=
  exists i e, rd T i = Ok e /\ state e = ENTRY_EMPTY.

(** [k] is stored nowhere *)
Definition absent (T : list E) (k : K) : Prop :=
  forall i e, rd T i = Ok e -> state e = ENTRY_USED -> key e <> k.

(** slot [i] is where [k] may be inserted *)
Definition insertable (T : list E) (k : K) (i : Z) : Prop :=
  run T k (dist T k i) /\ exists e, rd T i = Ok e /\ state e <> ENTRY_USED.

Lemma rd_range {A} (T : list A) i e : rd T i = Ok e -> 0 <= i < blen T.
Proof. intros [? Hl%lookup_lt_Some]%rd_Ok. unfold blen. lia. Qed.

Lemma pos_range (T : list E) k d : 0 < blen T -> 0 <= pos (blen T) k d < blen T.
Proof. apply Z.mod_pos_bound. Qed.

Lemma pos_dist (T : list E) k i : 0 <= i < blen T -> pos (blen T) k (dist T k i) = i.
Proof.
  intros. unfold pos, dist. rewrite Z.add_mod_idemp_r by lia.
  replace (h k + (i - h k)) with i by lia. apply Z.mod_small. lia.
Qed.

Lemma dist_pos (T : list E) k d : 0 <= d < blen T -> dist T k (pos (blen T) k d) = d.
Proof.
  intros. unfold pos, dist. rewrite Zminus_mod_idemp_l.
  replace (h k + d - h k) with d by lia. apply Z.mod_small. lia.
Qed.

Lemma dist_range (T : list E) k i : 0 < blen T -> 0 <= dist T k i < blen T.
Proof. apply Z.mod_pos_bound. Qed.

Lemma pos_next cap k d : 0 < cap -> (pos cap k d + 1) mod cap = pos cap k (d + 1).
Proof. intros. unfold pos. rewrite Z.add_mod_idemp_l by lia. f_equal. lia. Qed.

Lemma mask_mod (T : list E) x : table_ok T -> Z.land x (blen T - 1) = x mod blen T.
Proof.
  intros HT. destruct (tbl_pow T HT) as (n & Hn & ->). apply land_mask; [done|].
  rewrite Z.ones_equiv. lia.
Qed.

Lemma table_pos (T : list E) : table_ok T -> 0 < blen T.
Proof. intros HT. destruct (tbl_pow T HT) as (n & Hn & ->). lia. Qed.

(** ** Lookup *)

Section Find.
Context (T : list E) (k : K) (mtch : E -> bool).
Hypothesis HT : table_ok T.
Hypothesis Hm : forall e, good e -> state e = ENTRY_USED -> mtch e = true <-> key e = k.

Lemma find_loop_ok fuel : forall d ft D,
  0 <= d <= D -> D < blen T -> D - d < Z.of_nat fuel ->
  (exists e, rd T (pos (blen T) k D) = Ok e /\ state e = ENTRY_EMPTY) ->
  run T k d ->
  (forall d' e, 0 <= d' < d -> rd T (pos (blen T) k d') = Ok e -> state e = ENTRY_USED -> key e <> k) ->
  (forall t, ft = Some t -> exists dt e, 0 <= dt < d /\ t = pos (blen T) k dt /\
     rd T t = Ok e /\ state e = ENTRY_TOMBSTONE) ->
  exists i b, find_loop state fuel mtch T (blen T - 1) (pos (blen T) k d) ft = Ok (i, b) /\
    if b : bool then exists e, rd T i = Ok e /\ state e = ENTRY_USED /\ key e = k
    else absent T k /\ insertable T k i.
Proof.
  pose proof (table_pos T HT) as Hc.
  induction fuel as [|fuel IH]; intros d ft D Hd HD Hf Hemp Hrun Hno Hft; [lia|]. cbn [find_loop].
  destruct (rd_in_range T (pos (blen T) k d)) as [e He]; [by apply pos_range|].
  step He. rewrite (mask_mod T _ HT), pos_next by lia.
  assert (Hnext : forall ft', state e <> ENTRY_EMPTY -> (state e = ENTRY_USED -> key e <> k) ->
    (forall t, ft' = Some t -> exists dt e, 0 <= dt < d + 1 /\ t = pos (blen T) k dt /\
       rd T t = Ok e /\ state e = ENTRY_TOMBSTONE) ->
    exists i b, find_loop state fuel mtch T (blen T - 1) (pos (blen T) k (d + 1)) ft' = Ok (i, b) /\
    if b : bool then exists e, rd T i = Ok e /\ state e = ENTRY_USED /\ key e = k
    else absent T k /\ insertable T k i).
  { intros ft' Hne Hk Hft'. assert (d <> D) by (intros ->; destruct Hemp as (x & ? & ?); congruence).
    apply (IH (d + 1) ft' D); auto; [lia|lia| |].
    - intros d' Hd'. destruct (decide (d' = d)) as [->|]; [eauto|]. apply Hrun. lia.
    - intros d' e' Hd'. destruct (decide (d' = d)) as [->|]; [|apply Hno; lia].
      rewrite He. intros [= <-]. auto. }
  assert (Hge : good e).
  { pose proof (tbl_good T HT) as HF. apply rd_Ok in He as [_ Hl]. by eapply Forall_lookup_1 in HF. }
  assert (Hft' : forall t, ft = Some t -> exists dt e, 0 <= dt < d + 1 /\ t = pos (blen T) k dt /\
       rd T t = Ok e /\ state e = ENTRY_TOMBSTONE)
    by (intros t (dt & e' & ? & ? & ? & ?)%Hft; exists dt, e'; split_and!; auto; lia).
  destruct (state e) eqn:Es.
  - eexists _, false. split; [done|]. simpl. split.
    + intros i e' Hi Hu Hk. pose proof (rd_range _ _ _ Hi) as Hir.
      pose proof (tbl_run T HT i e' Hi Hu) as Hr. rewrite Hk in Hr.
      pose proof (dist_range T k i Hc). assert (~ d < dist T k i).
      { intros Hlt. destruct (Hr d) as (x & ? & ?); [lia|]. congruence. }
      destruct (decide (dist T k i = d)) as [Hdi|].
      * rewrite <-Hdi, pos_dist in He by done. congruence.
      * apply (Hno (dist T k i) e'); auto; [lia|]. by rewrite pos_dist.
    + destruct ft as [t|]; simpl.
      * destruct (Hft t eq_refl) as (dt & e' & ? & -> & ? & ?). split; [|exists e'; split; [done|congruence]].
        rewrite dist_pos by lia. intros d' ?. apply Hrun. lia.
      * split; [|exists e; split; [done|congruence]]. by rewrite dist_pos by lia.
  - destruct (mtch e) eqn:Em.
    + eexists _, true. split; [done|]. apply Hm in Em; eauto.
    + apply Hnext; [done| |done]. intros _ Hk. apply (Hm e Hge Es) in Hk. congruence.
  - apply Hnext; [done|done|]. intros t. destruct ft as [t'|]; [intros [= ->]; auto|].
    intros [= <-]. exists d, e. split_and!; auto; lia.
Qed.

Lemma find_slot_ok :
  has_empty T ->
  exists i b,
    find_loop state (length T) mtch T (blen T - 1) (Z.land (h k) (blen T - 1)) None = Ok (i, b) /\
    if b : bool then exists e, rd T i = Ok e /\ state e = ENTRY_USED /\ key e = k
    else absent T k /\ insertable T k i.
Proof.
  intros (i0 & e0 & H0 & Hs0). pose proof (table_pos T HT) as Hc.
  pose proof (dist_range T k i0 Hc). pose proof (rd_range _ _ _ H0).
  rewrite (mask_mod T _ HT). replace (h k mod blen T) with (pos (blen T) k 0)
    by (unfold pos; by rewrite Z.add_0_r).
  apply (find_loop_ok (length T) 0 None (dist T k i0)); try done; [lia|lia|unfold blen in *; lia| | |].
  - rewrite pos_dist by done. eauto.
  - intros d' ?. lia.
  - intros. lia.
Qed.
End Find.

(** ** The map a table stands for *)

Lemma used_kv_Some e k v :
  used_kv e = Some (k, v) <-> state e = ENTRY_USED /\ key e = k /\ value e = v.
Proof. unfold used_kv. destruct (state e); naive_solver. Qed.

Lemma elem_of_used (T : list E) k v :
  (k, v) ∈ omap used_kv T <->
  exists i e, rd T i = Ok e /\ state e = ENTRY_USED /\ key e = k /\ value e = v.
Proof.
  rewrite list_elem_of_omap. split.
  - intros (e & [i Hi]%list_elem_of_lookup & Hu%used_kv_Some). exists (Z.of_nat i), e.
    split; [|done]. apply rd_Ok. split; [lia|]. by rewrite Nat2Z.id.
  - intros (i & e & [_ Hi]%rd_Ok & Hu). exists e. split; [by eapply list_elem_of_lookup_2|].
    by apply used_kv_Some.
Qed.

Lemma to_map_lookup (T : list E) k v :
  table_ok T ->
  to_map T !! k = Some v <->
  exists i e, rd T i = Ok e /\ state e = ENTRY_USED /\ key e = k /\ value e = v.
Proof.
  intros HT. unfold to_map. rewrite <-elem_of_list_to_map'; [apply elem_of_used|].
  intros v' (i & e & He & Hu & Hk & <-)%elem_of_used (j & e' & He' & Hu' & Hk' & <-)%elem_of_used.
  assert (i = j) as -> by (eapply (tbl_uniq T HT); eauto; congruence). congruence.
Qed.

Lemma to_map_absent (T : list E) k : table_ok T -> to_map T !! k = None <-> absent T k.
Proof.
  intros HT. rewrite eq_None_not_Some. split.
  - intros Hn i e Hi Hu Hk. apply Hn. exists (value e). apply to_map_lookup; eauto 10.
  - intros Ha [v Hv]. apply to_map_lookup in Hv as (i & e & Hi & Hu & Hk & _); [|done].
    by apply (Ha i e).
Qed.

Lemma rd_insert {A} (T : list A) i j (e : A) :
  0 <= i < blen T -> rd (<[Z.to_nat i := e]> T) j = if decide (j = i) then Ok e else rd T j.
Proof.
  unfold blen. intros Hi. unfold rd. destruct (Z.ltb_spec j 0).
  - rewrite decide_False by lia. done.
  - case_decide.
    + subst j. by rewrite list_lookup_insert_eq by lia.
    + rewrite list_lookup_insert_ne by lia. done.
Qed.

Lemma blen_insert {A} (T : list A) i (e : A) : blen (<[i := e]> T) = blen T.
Proof. unfold blen. by rewrite length_insert. Qed.

(** ** Updates of one slot

    Every update the maps do replaces one entry by one that is not empty, so
    the runs of the other keys stay runs. *)

Lemma run_insert (T : list E) k d i e :
  0 <= i < blen T -> state e <> ENTRY_EMPTY -> run T k d -> run (<[Z.to_nat i := e]> T) k d.
Proof.
  intros Hi He Hr d' Hd'. rewrite blen_insert, rd_insert by done.
  case_decide; [eauto|]. by apply Hr.
Qed.

Lemma table_ok_update (T : list E) i e :
  table_ok T -> 0 <= i < blen T -> state e <> ENTRY_EMPTY -> good e ->
  (state e = ENTRY_USED -> run T (key e) (dist T (key e) i) /\
     forall j e', rd T j = Ok e' -> state e' = ENTRY_USED -> key e' = key e -> j = i) ->
  table_ok (<[Z.to_nat i := e]> T).
Proof.
  intros HT Hi He Hg Hu. split.
  - rewrite blen_insert. apply HT.
  - intros j e'. unfold dist. rewrite blen_insert, rd_insert by done. case_decide as Hj.
    + subst j. intros [= <-] Hs. apply run_insert; auto. by apply Hu.
    + intros Hj' Hs. apply run_insert; auto. by apply (tbl_run T HT).
  - intros j j' e1 e2. rewrite !rd_insert by done.
    case_decide; case_decide; subst; try congruence.
    + intros [= <-] H2 Hs1 Hs2 Hk. symmetry. by apply (proj2 (Hu Hs1) j' e2).
    + intros H1 [= <-] Hs1 Hs2 Hk. by apply (proj2 (Hu Hs2) j e1).
    + apply (tbl_uniq T HT).
  - apply Forall_insert; [apply (tbl_good T HT)|done].
Qed.

Lemma to_map_ext (T : list E) (m : gmap K V) :
  table_ok T ->
  (forall k v, m !! k = Some v <->
     exists i e, rd T i = Ok e /\ state e = ENTRY_USED /\ key e = k /\ value e = v) ->
  to_map T = m.
Proof.
  intros HT Hm. apply map_eq. intros k. apply option_eq. intros v.
  by rewrite (to_map_lookup T k v HT), Hm.
Qed.

Lemma insert_ok (T : list E) i e :
  table_ok T -> absent T (key e) -> insertable T (key e) i -> state e = ENTRY_USED -> good e ->
  table_ok (<[Z.to_nat i := e]> T) /\
  to_map (<[Z.to_nat i := e]> T) = <[key e := value e]> (to_map T).
Proof.
  intros HT Ha [Hr (o & Ho & Hos)] Hs Hg. pose proof (rd_range _ _ _ Ho) as Hi.
  assert (HT' : table_ok (<[Z.to_nat i := e]> T)).
  { apply table_ok_update; auto; [congruence|]. intros _. split; [done|].
    intros j e' Hj Hs' Hk. by destruct (Ha j e'). }
  split; [done|]. apply to_map_ext; [done|]. intros k v. rewrite lookup_insert_Some, to_map_lookup by done.
  split.
  - intros [[<- <-]|[Hne (j & e' & Hj & Hu & Hk & Hv)]].
    + exists i, e. rewrite rd_insert, decide_True by done. done.
    + exists j, e'. rewrite rd_insert, decide_False; [done|intros ->; congruence|done].
  - intros (j & e' & Hj & Hu & Hk & Hv). rewrite rd_insert in Hj by done. case_decide.
    + left. simplify_eq. done.
    + right. split; [intros <-; by apply (Ha j e')|eauto 10].
Qed.

Lemma overwrite_ok (T : list E) i o e :
  table_ok T -> rd T i = Ok o -> state o = ENTRY_USED -> key e = key o -> state e = ENTRY_USED -> good e ->
  table_ok (<[Z.to_nat i := e]> T) /\
  to_map (<[Z.to_nat i := e]> T) = <[key e := value e]> (to_map T).
Proof.
  intros HT Ho Hos Hk Hs Hg. pose proof (rd_range _ _ _ Ho) as Hi.
  assert (Huniq : forall j e', rd T j = Ok e' -> state e' = ENTRY_USED -> key e' = key e -> j = i)
    by (intros j e' Hj Hs' Hk'; eapply (tbl_uniq T HT); eauto; congruence).
  assert (HT' : table_ok (<[Z.to_nat i := e]> T)).
  { apply table_ok_update; auto; [congruence|]. intros _. split; [|done].
    rewrite Hk. by apply (tbl_run T HT). }
  split; [done|]. apply to_map_ext; [done|]. intros k v. rewrite lookup_insert_Some, to_map_lookup by done.
  split.
  - intros [[<- <-]|[Hne (j & e' & Hj & Hu & Hk' & Hv)]].
    + exists i, e. rewrite rd_insert, decide_True by done. done.
    + exists j, e'. rewrite rd_insert, decide_False; [done|intros ->; congruence|done].
  - intros (j & e' & Hj & Hu & Hk' & Hv). rewrite rd_insert in Hj by done. case_decide.
    + left. simplify_eq. done.
    + right. split; [|eauto 10]. intros <-. apply Huniq in Hj; auto.
Qed.

Lemma remove_ok (T : list E) i o e :
  table_ok T -> rd T i = Ok o -> state o = ENTRY_USED -> state e = ENTRY_TOMBSTONE -> good e ->
  table_ok (<[Z.to_nat i := e]> T) /\ to_map (<[Z.to_nat i := e]> T) = delete (key o) (to_map T).
Proof.
  intros HT Ho Hos Hs Hg. pose proof (rd_range _ _ _ Ho) as Hi.
  assert (HT' : table_ok (<[Z.to_nat i := e]> T)) by (apply table_ok_update; auto; congruence).
  split; [done|]. apply to_map_ext; [done|]. intros k v. rewrite lookup_delete_Some, to_map_lookup by done.
  split.
  - intros [Hne (j & e' & Hj & Hu & Hk' & Hv)].
    exists j, e'. rewrite rd_insert, decide_False; [done|intros ->; congruence|done].
  - intros (j & e' & Hj & Hu & Hk' & Hv). rewrite rd_insert in Hj by done. case_decide; [congruence|].
    split; [|eauto 10]. intros <-. assert (j = i); [|done].
    eapply (tbl_uniq T HT); eauto.
Qed.

(** ** Counting *)

Lemma count_insert s (T : list E) i o e :
  rd T i = Ok o ->
  count s (<[Z.to_nat i := e]> T) =
  count s T - (if decide (state o = s) then 1 else 0) + (if decide (state e = s) then 1 else 0).
Proof.
  intros [Hi Ho]%rd_Ok. unfold count. pose proof (lookup_lt_Some _ _ _ Ho).
  rewrite insert_take_drop by done. rewrite <-(take_drop_middle T _ _ Ho) at 3.
  rewrite !filter_app, !blen_app, !filter_cons.
  case_decide; case_decide; rewrite ?blen_cons; lia.
Qed.

Lemma filter_all_eq (T : list E) :
  Forall (fun e => state e = ENTRY_USED) T -> filter (fun e => state e = ENTRY_USED) T = T.
Proof.
  induction 1 as [|e T He _ IH]; [done|]. rewrite filter_cons, decide_True by done. by rewrite IH.
Qed.

Lemma count_nonneg s (T : list E) : 0 <= count s T.
Proof. apply blen_nonneg. Qed.

Lemma count_total (T : list E) :
  count ENTRY_EMPTY T + count ENTRY_USED T + count ENTRY_TOMBSTONE T = blen T.
Proof.
  unfold count. induction T as [|e T IH]; [done|]. rewrite !filter_cons, blen_cons.
  destruct (state e); simpl; rewrite blen_cons; lia.
Qed.

Lemma count_has_empty (T : list E) :
  count ENTRY_USED T + count ENTRY_TOMBSTONE T < blen T -> has_empty T.
Proof.
  pose proof (count_total T). intros Hlt.
  destruct (filter (fun e => state e = ENTRY_EMPTY) T) as [|e l] eqn:Ef.
  - unfold count in *. rewrite Ef in *. unfold blen at 1 in H0. simpl in H0. lia.
  - assert (e ∈ filter (fun e => state e = ENTRY_EMPTY) T) as Hin by (rewrite Ef; left).
    apply list_elem_of_filter in Hin as [Hs [i Hi]%list_elem_of_lookup].
    exists (Z.of_nat i), e. split; [|done]. apply rd_Ok. split; [lia|]. by rewrite Nat2Z.id.
Qed.

Lemma keys_NoDup (T : list E) :
  (forall i j e e', T !! i = Some e -> T !! j = Some e' ->
     state e = ENTRY_USED -> state e' = ENTRY_USED -> key e = key e' -> i = j) ->
  NoDup ((omap used_kv T).*1).
Proof.
  induction T as [|x T IH]; intros Hu; simpl; [constructor|].
  assert (IH' : NoDup ((omap used_kv T).*1)).
  { apply IH. intros i j e e' Hi Hj ? ? ?.
    assert (S i = S j) by by apply (Hu (S i) (S j) e e'). lia. }
  destruct (used_kv x) as [[k v]|] eqn:Ex; simpl; [|done]. constructor; [|done].
  apply used_kv_Some in Ex as (Hs & Hk & _).
  intros ([k' v'] & -> & (e & [i Hi]%list_elem_of_lookup & (? & ? & _)%used_kv_Some)
    %list_elem_of_omap)%list_elem_of_fmap.
  assert (0%nat = S i) by (apply (Hu 0%nat (S i) x e); auto; simpl in *; congruence). lia.
Qed.

Lemma table_keys_NoDup (T : list E) : table_ok T -> NoDup ((omap used_kv T).*1).
Proof.
  intros HT. apply keys_NoDup. intros i j e e' Hi Hj Hs Hs' Hk.
  assert (Z.of_nat i = Z.of_nat j); [|lia].
  apply (tbl_uniq T HT _ _ e e'); auto; apply rd_Ok; (split; [lia|by rewrite Nat2Z.id]).
Qed.

(** a freshly allocated table *)
Lemma empty_table_ok n (e : E) :
  0 <= n -> state e = ENTRY_EMPTY -> good e ->
  let T := replicate (Z.to_nat (2 ^ n)) e in
  table_ok T /\ blen T = 2 ^ n /\ to_map T = ∅ /\ count ENTRY_USED T = 0 /\
  count ENTRY_TOMBSTONE T = 0 /\ forall k, absent T k.
Proof.
  intros Hn He Hg T. assert (Hlen : blen T = 2 ^ n) by (subst T; rewrite blen_replicate; apply Z2Nat.id, Z.pow_nonneg; lia).
  assert (Hall : forall i x, rd T i = Ok x -> x = e)
    by (intros i x [_ Hi]%rd_Ok; by apply lookup_replicate in Hi as [-> _]).
  assert (HT : table_ok T).
  { split; [eauto|..].
    - intros i x ->%Hall. congruence.
    - intros i j x y ->%Hall _. congruence.
    - by apply Forall_replicate. }
  assert (Hcount : forall s, s <> ENTRY_EMPTY -> count s T = 0).
  { intros s Hs. unfold count. subst T. clear Hlen Hall HT. induction (Z.to_nat (2 ^ n)) as [|k IH]; [done|].
    cbn [replicate]. rewrite filter_cons, decide_False by congruence. exact IH. }
  assert (Habs : forall k, absent T k) by (intros k i x ->%Hall; congruence).
  split_and!; auto. apply to_map_ext; [done|]. intros k v. rewrite lookup_empty. split; [done|].
  intros (i & x & ->%Hall & Hu & _). congruence.
Qed.

(** ** Rehashing *)

Lemma free_loop_ok (T : list E) k fuel : forall d D,
  table_ok T -> 0 <= d <= D -> D < blen T -> D - d < Z.of_nat fuel ->
  (exists e, rd T (pos (blen T) k D) = Ok e /\ state e <> ENTRY_USED) -> run T k d ->
  exists i, free_loop state fuel T (blen T - 1) (pos (blen T) k d) = Ok i /\ insertable T k i.
Proof.
  induction fuel as [|fuel IH]; intros d D HT Hd HD Hf Hfree Hrun; [lia|]. cbn [free_loop].
  pose proof (table_pos T HT) as Hc.
  destruct (rd_in_range T (pos (blen T) k d)) as [e He]; [by apply pos_range|].
  step He. rewrite (mask_mod T _ HT), pos_next by lia.
  assert (Hhere : state e <> ENTRY_USED -> insertable T k (pos (blen T) k d)).
  { intros. split; [by rewrite dist_pos by lia|eauto]. }
  destruct (state e) eqn:Es.
  - eexists. split; [done|]. by apply Hhere.
  - assert (d <> D) by (intros ->; destruct Hfree as (x & ? & ?); congruence).
    apply (IH (d + 1) D); auto; [lia|lia|].
    intros d' Hd'. destruct (decide (d' = d)) as [->|]; [|apply Hrun; lia].
    exists e. split; [done|congruence].
  - eexists. split; [done|]. by apply Hhere.
Qed.

Lemma free_slot_ok (T : list E) k :
  table_ok T -> count ENTRY_USED T < blen T ->
  exists i, free_loop state (length T) T (blen T - 1) (Z.land (h k) (blen T - 1)) = Ok i /\
            insertable T k i.
Proof.
  intros HT Hlt. pose proof (table_pos T HT) as Hc.
  assert (exists i0 e0, rd T i0 = Ok e0 /\ state e0 <> ENTRY_USED) as (i0 & e0 & H0 & Hs0).
  { destruct (decide (Forall (fun e => state e = ENTRY_USED) T)) as [Hall|Hex].
    - exfalso. unfold count in Hlt. rewrite (filter_all_eq T Hall) in Hlt. lia.
    - apply not_Forall_Exists in Hex; [|apply _]. apply Exists_exists in Hex as (e & [i Hi]%list_elem_of_lookup & Hs).
      exists (Z.of_nat i), e. split; [|done]. apply rd_Ok. rewrite Nat2Z.id. split; [lia|done]. }
  pose proof (dist_range T k i0 Hc). pose proof (rd_range _ _ _ H0).
  rewrite (mask_mod T _ HT). replace (h k mod blen T) with (pos (blen T) k 0)
    by (unfold pos; by rewrite Z.add_0_r).
  apply (free_loop_ok T k (length T) 0 (dist T k i0)); auto; [lia|lia|unfold blen in *; lia| |].
  - rewrite pos_dist by done. eauto.
  - intros d' ?. lia.
Qed.

Lemma reinsert_ok (hash_of : E -> Z) (copy : E -> E) (old : list E) : forall new,
  (forall e, good e -> state e = ENTRY_USED ->
     hash_of e = h (key e) /\ state (copy e) = ENTRY_USED /\ key (copy e) = key e /\
     value (copy e) = value e /\ good (copy e)) ->
  Forall good old -> table_ok new -> NoDup ((omap used_kv old).*1) ->
  (forall k, k ∈ (omap used_kv old).*1 -> absent new k) ->
  count ENTRY_USED new + count ENTRY_USED old < blen new ->
  exists new', reinsert state hash_of copy old new (blen new - 1) = Ok new' /\
    table_ok new' /\ blen new' = blen new /\
    to_map new' = to_map old ∪ to_map new /\
    count ENTRY_USED new' = count ENTRY_USED new + count ENTRY_USED old /\
    count ENTRY_TOMBSTONE new' <= count ENTRY_TOMBSTONE new.
Proof.
  induction old as [|src rest IH]; intros new Hcopy Hgood Hnew Hnd Habs Hcnt; cbn [reinsert].
  { exists new. split_and!; auto; [|change (count ENTRY_USED []) with 0; lia|lia].
    unfold to_map at 2. simpl. by rewrite (left_id_L ∅ (∪)). }
  apply Forall_cons in Hgood as [Hg Hgood]. unfold to_map at 2. cbn [omap list_omap] in *.
  assert (Hc : count ENTRY_USED (src :: rest) =
    (if decide (state src = ENTRY_USED) then 1 else 0) + count ENTRY_USED rest).
  { unfold count. rewrite filter_cons. case_decide; rewrite ?blen_cons; lia. }
  destruct (decide (state src = ENTRY_USED)) as [Es|Es].
  2:{ assert (Hkv : used_kv src = None) by (unfold used_kv; by destruct (state src)).
      rewrite Hkv in *. destruct (IH new) as (new' & ? & ? & ? & ? & ? & ?); auto; [lia|].
      exists new'. split_and!; auto; [by destruct (state src)|lia]. }
  assert (Hkv : used_kv src = Some (key src, value src)) by (unfold used_kv; by rewrite Es).
  rewrite Hkv, Es in *.
  destruct (Hcopy src Hg Es) as (Hh & Hcs & Hck & Hcv & Hcg).
  simpl in Hnd, Habs. apply NoDup_cons in Hnd as [Hnin Hnd]. pose proof (count_nonneg ENTRY_USED rest).
  destruct (free_slot_ok new (key src)) as (i & Hi & Hins); [done|lia|].
  rewrite Hh. step Hi. pose proof Hins as [_ (o & Ho & Hos)]. pose proof (rd_range _ _ _ Ho) as Hir.
  rewrite wr_Ok by done. cbn [mbind res_bind].
  rewrite <-Hck in Hins. assert (Ha : absent new (key (copy src))) by (rewrite Hck; apply Habs; left).
  destruct (insert_ok new i (copy src) Hnew Ha Hins Hcs Hcg) as [Hok Hmap].
  rewrite <-(blen_insert new (Z.to_nat i) (copy src)).
  destruct (IH (<[Z.to_nat i := copy src]> new)) as (new' & -> & Hok' & Hlen & Hmap' & Hcu & Hct); auto.
  - intros k Hk j e. rewrite rd_insert by done. case_decide.
    + intros [= <-] _. rewrite Hck. intros <-. done.
    + apply Habs. by right.
  - rewrite (count_insert _ _ _ _ _ Ho), blen_insert, Hcs. rewrite decide_False, decide_True by done. lia.
  - exists new'. rewrite (count_insert _ _ _ _ _ Ho), Hcs, decide_False, decide_True in Hcu by done.
    rewrite (count_insert _ _ _ _ _ Ho), Hcs in Hct. rewrite (decide_False (P := ENTRY_USED = ENTRY_TOMBSTONE)) in Hct by done.
    split_and!; auto; [|lia|case_decide; lia].
    rewrite Hmap', Hmap, Hck, Hcv. simpl.
    rewrite <-insert_union_r; [by rewrite insert_union_l|].
    apply not_elem_of_list_to_map_1. done.
Qed.
End Theory.
End Probe.
