(* ===== verification/U32Map.v ===== *)
(** * The uint32_t hash map (common/src/rtc_u32_map.c)

    Open addressing over a power-of-two table.  The map refines a finite map
    from keys to values; the refinement is packaged as an instance of
    [MapSpec], the interface its clients are verified against. *)

From S2P Require Import Prelude Probe.
From Stdlib Require Import ZArith Lia.
From stdpp Require Import base list numbers gmap fin_maps.
#[local] Open Scope Z_scope.

(** ** What a map promises

    [repr m g]: the concrete [m] stands for the finite map [g].  [alloc]
    answers whether the allocation a call may make succeeds.  [load] measures
    the size of the table; a call adds at most one to it, and an insertion
    fails only if its allocation does or the load has reached 2^56. *)
Class MapOps (M K V : Type) := {
  map_init : M;
  map_set : bool -> K -> V -> st M unit;
  map_get : M -> K -> res V;
  map_has : M -> K -> res bool;
  map_remove : bool -> K -> st M bool
}.

Class MapSpec (M K V : Type) `{MapOps M K V} `{Countable K} (null : V) (repr : M -> gmap K V -> Prop)
    (load : M -> Z) (key_ok : K -> Prop) := {
  spec_init : repr map_init ∅ /\ load map_init = 0;
  spec_set : forall m g alloc k v, repr m g -> key_ok k ->
    exists m', load m' <= load m + 1 /\
      ((map_set alloc k v m = (m', Ok ()) /\ repr m' (<[k := v]> g)) \/
       (map_set alloc k v m = (m', Err RTC_ERR_NOMEM) /\ repr m' g /\ (alloc = false \/ 2 ^ 56 <= load m)));
  spec_get : forall m g k, repr m g -> key_ok k -> map_get m k = Ok (default null (g !! k));
  spec_has : forall m g k, repr m g -> key_ok k -> map_has m k = Ok (bool_decide (is_Some (g !! k)));
  spec_remove : forall m g alloc k, repr m g -> key_ok k ->
    exists m', map_remove alloc k m = (m', Ok (bool_decide (is_Some (g !! k)))) /\
               repr m' (delete k g) /\ load m' <= load m
}.

Module U32Map.
Import Probe.

Definition RTC_U32_MAP_INITIAL_CAP : Z := 16.
Definition FIB_MUL : Z := 2654435769.

Section Ops.
Context {V : Type} (null : V).

Record rtc_u32_map_entry_t := Entry { key : Z; state : entry_state; value : V }.

(** [entries = []] is the null pointer *)
Record rtc_u32_map_t := Map {
  entries : list rtc_u32_map_entry_t;
  cap : Z;
  len : Z;
  tombstones : Z
}.

Definition sizeof_entry : Z := 16.
(** an entry after [calloc] *)
Definition entry_zero : rtc_u32_map_entry_t := Entry 0 ENTRY_EMPTY null.

(** [(size_t)(key * FIB_MUL)]: the product is a uint32_t *)
Definition u32_hash (k : Z) : Z := u32 (k * FIB_MUL).

Definition u32_probe (k : Z) (cap : Z) : Z := Z.land (u32_hash k) (cap - 1).

Definition u32_rehash (alloc : bool) (new_cap : Z) (m : rtc_u32_map_t) : rtc_u32_map_t * res unit :=
  if negb alloc || (SIZE_MAX <? new_cap * sizeof_entry) then (m, Err RTC_ERR_NOMEM)
  else
    let new_entries := replicate (Z.to_nat new_cap) entry_zero in
    match reinsert state (fun e => u32_hash (key e))
            (fun src => Entry (key src) ENTRY_USED (value src))
            (entries m) new_entries (new_cap - 1) with
    | Ok es => (Map es new_cap (len m) 0, Ok ())
    | Err e => (m, Err e)
    | Fault => (m, Fault)
    end.

Definition rtc_u32_map_init : rtc_u32_map_t := Map [] 0 0 0.

Definition u32_find_slot (m : rtc_u32_map_t) (k : Z) : res (Z * bool) :=
  find_loop state (length (entries m)) (fun e => key e =? k) (entries m) (cap m - 1)
    (u32_probe k (cap m)) None.

Definition rtc_u32_map_set (alloc : bool) (k : Z) (v : V) : st rtc_u32_map_t unit :=
  m ← get;
  _ ← (if cap m =? 0 then u32_rehash alloc RTC_U32_MAP_INITIAL_CAP
       else if u64 (cap m * 3) <=? u64 ((len m + tombstones m) * 4) then
         _ ← lift (fail_if (SIZE_MAX / 2 <? cap m) RTC_ERR_NOMEM);
         u32_rehash alloc (cap m * 2)
       else mret ());
  m ← get;
  r ← lift (u32_find_slot m k);
  let '(slot, found) := r in
  e ← lift (rd (entries m) slot);
  if found : bool then
    es ← lift (wr (entries m) slot (Entry (key e) (state e) v));
    put (Map es (cap m) (len m) (tombstones m))
  else
    let t := if bool_decide (state e = ENTRY_TOMBSTONE) then u64 (tombstones m - 1)
             else tombstones m in
    es ← lift (wr (entries m) slot (Entry k ENTRY_USED v));
    put (Map es (cap m) (u64 (len m + 1)) t).

Definition rtc_u32_map_get (m : rtc_u32_map_t) (k : Z) : res V :=
  if cap m =? 0 then Ok null
  else
    r ← u32_find_slot m k;
    let '(slot, found) := r in
    if found : bool then e ← rd (entries m) slot; Ok (value e) else Ok null.

Definition rtc_u32_map_has (m : rtc_u32_map_t) (k : Z) : res bool :=
  if cap m =? 0 then Ok false
  else r ← u32_find_slot m k; Ok (snd r).

Definition rtc_u32_map_remove (alloc : bool) (k : Z) : st rtc_u32_map_t bool :=
  m ← get;
  if cap m =? 0 then mret false
  else
    r ← lift (u32_find_slot m k);
    let '(slot, found) := r in
    if negb found then mret false
    else
      e ← lift (rd (entries m) slot);
      es ← lift (wr (entries m) slot (Entry (key e) ENTRY_TOMBSTONE null));
      let m := Map es (cap m) (u64 (len m - 1)) (u64 (tombstones m + 1)) in
      _ ← put m;
      if (cap m <=? u64 (tombstones m * 8)) && (u64 (len m * 2) <? cap m)
         && (RTC_U32_MAP_INITIAL_CAP <? cap m)
      then
        let '(m', rc) := u32_rehash alloc (cap m) m in
        _ ← put m';
        match rc with Fault => lift Fault | _ => mret true end
      else mret true.

Definition rtc_u32_map_len (m : rtc_u32_map_t) : Z := len m.

Definition rtc_u32_map_clear (m : rtc_u32_map_t) : rtc_u32_map_t :=
  match entries m with
  | [] => m
  | _ => Map (replicate (Z.to_nat (cap m)) entry_zero) (cap m) 0 0
  end.

Definition rtc_u32_map_free (m : rtc_u32_map_t) : rtc_u32_map_t := Map [] 0 0 0.

(** [rest]: the entries from the cursor [idx] on; the new cursor and the
    pair found. *)
Fixpoint next_loop (rest : list rtc_u32_map_entry_t) (idx : Z) : Z * option (Z * V) :=
  match rest with
  | [] => (idx, None)
  | e :: rest' =>
      match state e with
      | ENTRY_USED => (idx + 1, Some (key e, value e))
      | _ => next_loop rest' (idx + 1)
      end
  end.

Definition rtc_u32_map_next (m : rtc_u32_map_t) (idx : Z) : Z * option (Z * V) :=
  if cap m =? 0 then (idx, None) else next_loop (drop (Z.to_nat idx) (entries m)) idx.

End Ops.
Arguments rtc_u32_map_t V : clear implicits.
Arguments rtc_u32_map_entry_t V : clear implicits.

Definition u32_map_ops {V} (null : V) : MapOps (rtc_u32_map_t V) Z V := {|
  map_init := rtc_u32_map_init;
  map_set := rtc_u32_map_set null;
  map_get := rtc_u32_map_get null;
  map_has := rtc_u32_map_has;
  map_remove := rtc_u32_map_remove null
|}.

(** ** Correctness *)

Section Proofs.
Context {V : Type} (null : V).
Implicit Types (m : rtc_u32_map_t V) (g : gmap Z V).

Abbreviation tok := (table_ok (E := rtc_u32_map_entry_t V) state key u32_hash (fun _ => True)).
Abbreviation abs := (to_map (E := rtc_u32_map_entry_t V) state key value).
Abbreviation cnt := (count (E := rtc_u32_map_entry_t V) state).

(** a map with storage *)
Record stored m g : Prop := {
  st_cap : blen (entries m) = cap m;
  st_min : 16 <= cap m;
  st_max : cap m * 16 <= SIZE_MAX;
  st_tok : tok (entries m);
  st_abs : abs (entries m) = g;
  st_len : cnt ENTRY_USED (entries m) = len m;
  st_size : Z.of_nat (size g) = len m;
  st_tomb : cnt ENTRY_TOMBSTONE (entries m) = tombstones m;
  st_load : (len m + tombstones m) * 4 <= cap m * 3
}.

(** the representation relation *)
Definition u32_repr m g : Prop :=
  (m = rtc_u32_map_init /\ g = ∅) \/ stored m g.

Lemma stored_bounds m g : stored m g -> 0 <= len m /\ 0 <= tombstones m.
Proof. intros []. rewrite <-st_len0, <-st_tomb0. split; apply count_nonneg. Qed.

Lemma stored_pow m g : stored m g -> exists n, 4 <= n /\ cap m = 2 ^ n.
Proof.
  intros []. destruct (tbl_pow _ _ _ _ _ st_tok0) as (n & Hn & E).
  exists n. split; [|congruence]. destruct (Z.lt_ge_cases n 4); [|done].
  assert (2 ^ n <= 2 ^ 3) by (apply Z.pow_le_mono_r; lia). lia.
Qed.

Lemma cap_16 m g : stored m g -> exists q, cap m = 16 * q.
Proof.
  intros (n & Hn & ->)%stored_pow. exists (2 ^ (n - 4)). change 16 with (2 ^ 4).
  rewrite <-Z.pow_add_r by lia. f_equal. lia.
Qed.

Lemma stored_empty m g : stored m g -> has_empty state (entries m).
Proof. intros Hs. pose proof Hs as []. apply count_has_empty. lia. Qed.

Lemma find_slot_spec m g k :
  stored m g ->
  exists i b, u32_find_slot m k = Ok (i, b) /\
    if b : bool then exists e, rd (entries m) i = Ok e /\ state e = ENTRY_USED /\ key e = k
    else absent state key (entries m) k /\ insertable state u32_hash (entries m) k i.
Proof.
  intros Hs. pose proof Hs as []. unfold u32_find_slot, u32_probe. rewrite <-st_cap0.
  apply find_slot_ok with (good := fun _ => True); [done| |by eapply stored_empty].
  intros e _ _. apply Z.eqb_eq.
Qed.

Lemma rehash_spec m g alloc n :
  (m = rtc_u32_map_init /\ g = ∅ \/ stored m g) -> 4 <= n -> (len m + 1) * 4 <= 2 ^ n * 3 ->
  (u32_rehash null alloc (2 ^ n) m = (m, Err RTC_ERR_NOMEM) /\
     (alloc = false \/ SIZE_MAX < 2 ^ n * 16)) \/
  (exists m', u32_rehash null alloc (2 ^ n) m = (m', Ok ()) /\ stored m' g /\
     cap m' = 2 ^ n /\ len m' = len m /\ tombstones m' = 0).
Proof.
  intros Hm Hn Hroom. unfold u32_rehash, sizeof_entry.
  destruct alloc; [|by left; auto]. cbn [negb orb].
  destruct (Z.ltb_spec SIZE_MAX (2 ^ n * 16)); [by left; auto|]. right.
  destruct (empty_table_ok state key value u32_hash (fun _ => True) n (entry_zero null))
    as (HT & Hlen & Hmap & Hcu & Hct & Habs); [lia|done|done|].
  assert (16 <= 2 ^ n) by (change 16 with (2 ^ 4); apply Z.pow_le_mono_r; lia).
  assert (Hold : NoDup ((omap (used_kv state key value) (entries m)).*1) /\
    cnt ENTRY_USED (entries m) = len m /\ abs (entries m) = g /\ Z.of_nat (size g) = len m /\ 0 <= len m).
  { destruct Hm as [[-> ->]|Hs].
    - split_and!; try done. constructor.
    - pose proof (stored_bounds _ _ Hs). pose proof Hs as []. split_and!; auto; [|lia].
      by eapply table_keys_NoDup. }
  destruct Hold as (Hnd & Hc & Ha & Hsz & Hl0).
  destruct (reinsert_ok state key value u32_hash (fun _ => True)
    (fun e => u32_hash (key e)) (fun src => Entry (key src) ENTRY_USED (value src))
    (entries m) (replicate (Z.to_nat (2 ^ n)) (entry_zero null)))
    as (new' & Hr & HT' & Hlen' & Hmap' & Hcu' & Hct'); auto.
  - by apply Forall_true.
  - rewrite Hlen, Hcu, Hc. lia.
  - rewrite Hlen in Hr, Hlen'. rewrite Hr. eexists. split; [done|]. cbn [cap len tombstones].
    pose proof (count_nonneg state ENTRY_TOMBSTONE new').
    rewrite Hmap, (right_id_L ∅ (∪)), Ha in Hmap'. split_and!; auto.
    split; cbn [entries cap len tombstones]; auto; try lia.
Qed.

(** [set] once there is room: the tail of [rtc_u32_map_set] *)
Definition set_tail (k : Z) (v : V) : st (rtc_u32_map_t V) unit :=
  m ← get;
  r ← lift (u32_find_slot m k);
  let '(slot, found) := r in
  e ← lift (rd (entries m) slot);
  if found : bool then
    es ← lift (wr (entries m) slot (Entry (key e) (state e) v));
    put (Map es (cap m) (len m) (tombstones m))
  else
    let t := if bool_decide (state e = ENTRY_TOMBSTONE) then u64 (tombstones m - 1)
             else tombstones m in
    es ← lift (wr (entries m) slot (Entry k ENTRY_USED v));
    put (Map es (cap m) (u64 (len m + 1)) t).

Lemma set_tail_spec m g k v :
  stored m g -> (len m + tombstones m + 1) * 4 <= cap m * 3 ->
  exists m', set_tail k v m = (m', Ok ()) /\ stored m' (<[k := v]> g) /\
    cap m' = cap m /\ tombstones m' <= tombstones m.
Proof.
  intros Hs Hroom. pose proof (stored_bounds _ _ Hs) as [Hl0 Ht0]. pose proof Hs as [].
  unfold set_tail. rewrite st_bind_eq. simpl. unfold SIZE_MAX in *.
  destruct (find_slot_spec m g k Hs) as (i & b & Hf & Hb). rewrite (st_bind_lift _ _ _ _ Hf).
  destruct b.
  - destruct Hb as (e & He & Hu & Hk). rewrite (st_bind_lift _ _ _ _ He). cbn zeta iota.
    pose proof (rd_range _ _ _ He). rewrite (st_bind_lift _ _ _ _ (wr_Ok _ _ _ H)).
    eexists. split; [done|].
    destruct (overwrite_ok state key value u32_hash (fun _ => True) (entries m) i e
      (Entry (key e) (state e) v)) as [HT Hm]; auto.
    cbn [key value] in Hm. rewrite st_abs0 in Hm. rewrite <-Hk.
    split; [|by split; [|cbn [tombstones]]]. split; cbn [entries cap len tombstones]; auto.
    + by rewrite blen_insert.
    + rewrite (count_insert _ _ _ _ _ _ He). cbn [state]. rewrite Hu. simpl. lia.
    + rewrite map_size_insert_Some; [done|]. rewrite <-st_abs0. 
      exists (value e). eapply to_map_lookup; eauto 10.
    + rewrite (count_insert _ _ _ _ _ _ He). cbn [state]. rewrite Hu. simpl. lia.
  - destruct Hb as [Ha Hins]. pose proof Hins as [_ (e & He & Hu)].
    rewrite (st_bind_lift _ _ _ _ He). cbn zeta iota.
    pose proof (rd_range _ _ _ He). rewrite (st_bind_lift _ _ _ _ (wr_Ok _ _ _ H)).
    eexists. split; [done|].
    destruct (insert_ok state key value u32_hash (fun _ => True) (entries m) i
      (Entry k ENTRY_USED v)) as [HT Hm]; auto.
    cbn [key value] in Hm. rewrite st_abs0 in Hm.
    assert (Hfresh : g !! k = None) by (rewrite <-st_abs0; by eapply to_map_absent).
    pose proof (count_insert state ENTRY_TOMBSTONE _ _ _ (Entry k ENTRY_USED v) He) as Hct.
    assert (bool_decide (state e = ENTRY_TOMBSTONE) = true -> 0 < tombstones m) as Htp.
    { intros Et%bool_decide_eq_true. rewrite Et in Hct. simpl in Hct.
      pose proof (count_nonneg state ENTRY_TOMBSTONE (<[Z.to_nat i:=Entry k ENTRY_USED v]> (entries m))). lia. }
    assert (Hlen : u64 (len m + 1) = len m + 1) by (apply u64_id; lia).
    assert (Htb : (if bool_decide (state e = ENTRY_TOMBSTONE) then u64 (tombstones m - 1) else tombstones m)
      = tombstones m - (if decide (state e = ENTRY_TOMBSTONE) then 1 else 0)).
    { destruct (decide _); [rewrite bool_decide_true in * by done|rewrite bool_decide_false by done; lia].
      apply u64_id. specialize (Htp eq_refl). lia. }
    rewrite Hlen, Htb. split; [|split; [done|cbn [tombstones]; case_decide; lia]].
    split; cbn [entries cap len tombstones]; auto.
    + by rewrite blen_insert.
    + rewrite (count_insert _ _ _ _ _ _ He), decide_False by done. simpl. lia.
    + rewrite map_size_insert_None by done. lia.
    + rewrite Hct. simpl. lia.
    + case_decide; lia.
Qed.

Lemma set_is_tail alloc k v :
  rtc_u32_map_set null alloc k v =
  (m ← get;
   _ ← (if cap m =? 0 then u32_rehash null alloc RTC_U32_MAP_INITIAL_CAP
        else if u64 (cap m * 3) <=? u64 ((len m + tombstones m) * 4) then
          _ ← lift (fail_if (SIZE_MAX / 2 <? cap m) RTC_ERR_NOMEM);
          u32_rehash null alloc (cap m * 2)
        else mret ());
   set_tail k v).
Proof. done. Qed.

Lemma set_spec m g alloc k v :
  u32_repr m g ->
  exists m', (rtc_u32_map_set null alloc k v m = (m', Ok ()) /\ u32_repr m' (<[k := v]> g) /\
              tombstones m' <= tombstones m /\
              cap m' <= Z.max 16 (Z.max (cap m) ((len m + tombstones m) * 3))) \/
             (m' = m /\ rtc_u32_map_set null alloc k v m = (m, Err RTC_ERR_NOMEM) /\ u32_repr m g /\
              (alloc = false \/ 2 ^ 58 < cap m)).
Proof.
  intros Hm. rewrite set_is_tail, st_bind_eq. cbn [get].
  assert (Htail : forall m1, stored m1 g -> (len m1 + tombstones m1 + 1) * 4 <= cap m1 * 3 ->
    exists m', set_tail k v m1 = (m', Ok ()) /\ u32_repr m' (<[k := v]> g) /\
      tombstones m' <= tombstones m1 /\ cap m' = cap m1).
  { intros m1 Hst1 H2. destruct (set_tail_spec m1 g k v Hst1 H2) as (m' & ? & ? & ? & ?).
    exists m'. split; [done|]. split; [by right|done]. }
  destruct Hm as [[-> ->]|Hs].
  - simpl. rewrite st_bind_eq. change RTC_U32_MAP_INITIAL_CAP with (2 ^ 4).
    destruct (rehash_spec rtc_u32_map_init ∅ alloc 4) as [[-> Hwhy]|(m1 & -> & Hst1 & Hc & Hl & Ht)];
      [by left|lia|simpl; lia| |].
    + eexists. right. split; [done|]. split; [done|]. split; [by left|]. left. destruct Hwhy; [done|unfold SIZE_MAX in *; lia].
    + destruct (Htail m1 Hst1) as (m' & -> & ? & ? & ?); [rewrite Hc, Hl, Ht; simpl; lia|].
      exists m'. left. split_and!; auto; [simpl; lia|lia].
  - pose proof (stored_bounds _ _ Hs) as [? ?]. pose proof (cap_16 _ _ Hs) as [q Hq].
    destruct (stored_pow _ _ Hs) as (n & Hn & Hcn). pose proof Hs as [].
    unfold SIZE_MAX in *. rewrite !u64_id by lia.
    rewrite (proj2 (Z.eqb_neq (cap m) 0)) by lia. rewrite st_bind_eq.
    destruct (Z.leb_spec (cap m * 3) ((len m + tombstones m) * 4)).
    + rewrite st_bind_eq. destruct (Z.ltb_spec ((2 ^ 64 - 1) / 2) (cap m)).
      { simpl. eexists. right. split; [done|]. split; [done|]. split; [by right|right; change ((2 ^ 64 - 1) / 2) with (2 ^ 63 - 1) in *; lia]. }
      simpl. assert (E2 : cap m * 2 = 2 ^ (n + 1)) by (rewrite Z.pow_add_r by lia; lia). rewrite E2.
      destruct (rehash_spec m g alloc (n + 1)) as [[-> Hwhy]|(m1 & -> & Hst1 & Hc & Hl & Ht)];
        [by right|lia|lia| |].
      * eexists. right. split; [done|]. split; [done|]. split; [by right|]. destruct Hwhy; [auto|right; unfold SIZE_MAX in *; lia].
      * destruct (Htail m1 Hst1) as (m' & -> & ? & ? & ?); [lia|]. exists m'. left. split_and!; auto; lia.
    + simpl. destruct (Htail m Hs) as (m' & -> & ? & ? & ?); [lia|]. exists m'. left. split_and!; auto; lia.
Qed.

(** the slots in use, or what the table was grown for *)
Definition u32_load m : Z := Z.max (len m + tombstones m) ((cap m - 16) / 3).

Lemma u32_repr_size m g : u32_repr m g -> Z.of_nat (size g) = len m.
Proof. intros [[-> ->]|[]]; [by rewrite map_size_empty|done]. Qed.

(** a call of [set] fails only for want of memory, and adds at most one to the load *)
Lemma set_load_spec m g alloc k v :
  u32_repr m g ->
  exists m', u32_load m' <= u32_load m + 1 /\
    ((rtc_u32_map_set null alloc k v m = (m', Ok ()) /\ u32_repr m' (<[k := v]> g)) \/
     (rtc_u32_map_set null alloc k v m = (m', Err RTC_ERR_NOMEM) /\ u32_repr m' g /\ (alloc = false \/ 2 ^ 56 <= u32_load m))).
Proof.
  intros Hm. destruct (set_spec m g alloc k v Hm) as (m' & [(E & Hm' & Ht & Hc)|(-> & E & _ & Hw)]).
  - exists m'. split; [|auto]. pose proof (u32_repr_size _ _ Hm). pose proof (u32_repr_size _ _ Hm').
    pose proof (map_size_insert k v g) as Hs.
    assert (len m' <= len m + 1) by (destruct (g !! k); simpl in Hs; lia).
    unfold u32_load. assert ((cap m' - 16) / 3 <= Z.max (len m + tombstones m) ((cap m - 16) / 3)); [|lia].
    destruct (Z.max_spec (cap m) ((len m + tombstones m) * 3)) as [[_ E3]|[_ E3]]; rewrite E3 in Hc; [|].
    + apply Z.max_le_iff. left. apply Z.div_le_upper_bound; [lia|].
      assert (0 <= len m + tombstones m) by (destruct Hm as [[-> ->]|Hs']; [done|apply stored_bounds in Hs'; lia]). lia.
    + destruct (Z.max_spec 16 (cap m)) as [[_ E4]|[_ E4]]; rewrite E4 in Hc.
      * apply Z.max_le_iff. right. apply Z.div_le_mono; lia.
      * apply Z.max_le_iff. left. apply Z.div_le_upper_bound; [lia|].
        assert (0 <= len m + tombstones m) by (destruct Hm as [[-> ->]|Hs']; [done|apply stored_bounds in Hs'; lia]). lia.
  - exists m. split; [lia|]. right. split_and!; [done|done|]. destruct Hw as [|Hw]; [by left|right].
    unfold u32_load. apply Z.max_le_iff. right. apply Z.div_le_lower_bound; lia.
Qed.

Lemma get_spec m g k : u32_repr m g -> rtc_u32_map_get null m k = Ok (default null (g !! k)).
Proof.
  intros [[-> ->]|Hs]; [done|]. unfold rtc_u32_map_get. pose proof Hs as [].
  rewrite (proj2 (Z.eqb_neq (cap m) 0)) by lia.
  destruct (find_slot_spec m g k Hs) as (i & b & Hf & Hb). step Hf. rewrite <-st_abs0. destruct b.
  - destruct Hb as (e & He & Hu & Hk). step He.
    rewrite (proj2 (to_map_lookup _ _ _ _ _ _ k (value e) st_tok0)); [done|eauto 10].
  - destruct Hb as [Ha _]. rewrite (proj2 (to_map_absent _ _ _ _ _ _ k st_tok0)); done.
Qed.

Lemma has_spec m g k : u32_repr m g -> rtc_u32_map_has m k = Ok (bool_decide (is_Some (g !! k))).
Proof.
  intros [[-> ->]|Hs]; [done|]. unfold rtc_u32_map_has. pose proof Hs as [].
  rewrite (proj2 (Z.eqb_neq (cap m) 0)) by lia.
  destruct (find_slot_spec m g k Hs) as (i & b & Hf & Hb). step Hf. rewrite <-st_abs0. destruct b.
  - destruct Hb as (e & He & Hu & Hk).
    rewrite (proj2 (to_map_lookup _ _ _ _ _ _ k (value e) st_tok0)); [done|eauto 10].
  - destruct Hb as [Ha _]. rewrite (proj2 (to_map_absent _ _ _ _ _ _ k st_tok0)); done.
Qed.

Lemma remove_spec m g alloc k :
  u32_repr m g ->
  exists m', rtc_u32_map_remove null alloc k m = (m', Ok (bool_decide (is_Some (g !! k)))) /\
             u32_repr m' (delete k g) /\ u32_load m' <= u32_load m.
Proof.
  intros [[-> ->]|Hs].
  { eexists. split; [done|]. split; [|done]. left. by rewrite delete_empty. }
  pose proof (stored_bounds _ _ Hs) as [? ?]. destruct (stored_pow _ _ Hs) as (n & Hn & Hcn).
  pose proof Hs as []. unfold rtc_u32_map_remove. rewrite st_bind_eq. cbn [get].
  rewrite (proj2 (Z.eqb_neq (cap m) 0)) by lia. unfold SIZE_MAX in *.
  destruct (find_slot_spec m g k Hs) as (i & b & Hf & Hb). rewrite (st_bind_lift _ _ _ _ Hf).
  destruct b; cbn [negb].
  2:{ destruct Hb as [Ha _]. assert (Hn' : g !! k = None) by (rewrite <-st_abs0; by eapply to_map_absent).
      rewrite Hn'. eexists. split; [done|]. rewrite delete_id by done. split; [by right|done]. }
  destruct Hb as (e & He & Hu & Hk). rewrite (st_bind_lift _ _ _ _ He).
  pose proof (rd_range _ _ _ He) as Hi. rewrite (st_bind_lift _ _ _ _ (wr_Ok _ _ _ Hi)).
  set (o := Entry (key e) ENTRY_TOMBSTONE null).
  destruct (remove_ok state key value u32_hash (fun _ => True) (entries m) i e o) as [HT Hm]; auto.
  rewrite Hk, st_abs0 in Hm.
  assert (Hin : g !! k = Some (value e)) by (rewrite <-st_abs0; eapply to_map_lookup; eauto 10).
  pose proof (count_insert state ENTRY_TOMBSTONE _ _ _ o He) as Hct.
  pose proof (count_insert state ENTRY_USED _ _ _ o He) as Hcu.
  rewrite Hu in Hct, Hcu. simpl in Hct, Hcu.
  pose proof (count_nonneg state ENTRY_USED (<[Z.to_nat i := o]> (entries m))).
  rewrite !(u64_id (len m - 1)), !(u64_id (tombstones m + 1)) by lia.
  set (m1 := Map _ _ _ _).
  assert (Hst1 : stored m1 (delete k g)).
  { split; cbn [m1 entries cap len tombstones]; auto; try lia.
    - by rewrite blen_insert.
    - rewrite map_size_delete_Some by done. lia. }
  assert (u32_load m1 <= u32_load m) as Hld by (unfold u32_load, m1; cbn [len tombstones cap]; lia).
  rewrite Hin, bool_decide_true by eauto. rewrite st_bind_eq. cbn [put].
  destruct (_ && _); [|by exists m1; split; [done|split; [by right|]]].
  change (cap m1) with (cap m). rewrite Hcn.
  destruct (rehash_spec m1 (delete k g) alloc n) as [[-> _]|(m2 & -> & Hst2 & Hc2 & Hl2 & Ht2)];
    [by right|lia|subst m1; simpl; lia| |].
  - exists m1. split_and!; [done|by right|done].
  - exists m2. split_and!; [done|by right|]. etrans; [|exact Hld]. unfold u32_load. rewrite Hc2, Hl2, Ht2.
    change (cap m1) with (cap m). rewrite Hcn. subst m1. cbn [len tombstones]. lia.
Qed.

Lemma u32_map_spec :
  @MapSpec (rtc_u32_map_t V) Z V (u32_map_ops null) _ _ null u32_repr u32_load (fun _ => True).
Proof.
  split.
  - split; [by left|done].
  - intros. by apply set_load_spec.
  - intros. by apply get_spec.
  - intros. by apply has_spec.
  - intros. by apply remove_spec.
Qed.

(** ** Iteration *)

(** all pairs [rtc_u32_map_next] yields from a zeroed iterator *)
Fixpoint iterate (fuel : nat) (m : rtc_u32_map_t V) (idx : Z) : list (Z * V) :=
  match fuel with
  | O => []
  | S fuel =>
      match rtc_u32_map_next m idx with
      | (idx', Some kv) => kv :: iterate fuel m idx'
      | (_, None) => []
      end
  end.

Lemma next_loop_spec (rest : list (rtc_u32_map_entry_t V)) : forall idx,
  match next_loop rest idx with
  | (idx', Some kv) => exists pre e post, rest = pre ++ e :: post /\
      omap (used_kv state key value) pre = [] /\ used_kv state key value e = Some kv /\
      idx' = idx + blen pre + 1
  | (_, None) => omap (used_kv state key value) rest = []
  end.
Proof.
  induction rest as [|e rest IH]; intros idx; [done|].
  destruct (decide (state e = ENTRY_USED)) as [Es|Es].
  - simpl. rewrite Es. exists [], e, rest. split_and!; auto; [unfold used_kv; by rewrite Es|lens; lia].
  - assert (Hkv : used_kv state key value e = None) by (unfold used_kv; by destruct (state e)).
    replace (next_loop (e :: rest) idx) with (next_loop rest (idx + 1)) by (simpl; by destruct (state e)).
    specialize (IH (idx + 1)). destruct (next_loop rest (idx + 1)) as [idx' [kv|]].
    + destruct IH as (pre & e' & post & -> & Hp & Hu & ->). exists (e :: pre), e', post.
      split_and!; auto; [cbn [omap list_omap]; by rewrite Hkv|lens; lia].
    + cbn [omap list_omap]. by rewrite Hkv.
Qed.

Lemma iterate_all m fuel : forall pre rest,
  entries m = pre ++ rest -> cap m <> 0 -> (length rest < fuel)%nat ->
  iterate fuel m (blen pre) = omap (used_kv state key value) rest.
Proof.
  induction fuel as [|fuel IH]; intros pre rest Hm Hc Hf; [lia|]. simpl.
  unfold rtc_u32_map_next. rewrite (proj2 (Z.eqb_neq (cap m) 0)) by done.
  rewrite Hm. unfold blen at 1. rewrite Nat2Z.id, drop_app_length.
  pose proof (next_loop_spec rest (blen pre)) as Hn.
  destruct (next_loop rest (blen pre)) as [idx' [kv|]]; [|done].
  destruct Hn as (p & e & post & -> & Hp & Hu & ->).
  rewrite omap_app, Hp, app_nil_l. cbn [omap list_omap]. rewrite Hu. f_equal.
  replace (blen pre + blen p + 1) with (blen (pre ++ p ++ [e])) by (lens; lia).
  apply IH; [by rewrite Hm, <-!app_assoc|done|]. rewrite length_app in Hf. simpl in Hf. lia.
Qed.

Lemma iterate_repr m g :
  u32_repr m g -> iterate (S (length (entries m))) m 0 ≡ₚ map_to_list g.
Proof.
  intros [[-> ->]|Hs]; [by rewrite map_to_list_empty|]. pose proof Hs as [].
  change 0 with (blen (@nil (rtc_u32_map_entry_t V))).
  rewrite (iterate_all m (S (length (entries m))) [] (entries m)); [|done|lia|lia].
  rewrite <-st_abs0. symmetry. apply map_to_list_to_map. by eapply table_keys_NoDup.
Qed.

Lemma clear_repr m g :
  u32_repr m g -> u32_repr (rtc_u32_map_clear null m) ∅ /\ u32_load (rtc_u32_map_clear null m) <= u32_load m.
Proof.
  intros [[-> ->]|Hs]; [split; [by left|done]|]. split.
  2: { pose proof (stored_bounds _ _ Hs). unfold rtc_u32_map_clear. destruct (entries m); [done|]. unfold u32_load. cbn [len tombstones cap]. lia. }
  right. destruct (stored_pow _ _ Hs) as (n & Hn & Hcn).
  pose proof Hs as []. unfold rtc_u32_map_clear.
  destruct (entries m) eqn:E; [unfold blen in st_cap0; simpl in st_cap0; lia|]. rewrite Hcn.
  destruct (empty_table_ok state key value u32_hash (fun _ => True) n (entry_zero null))
    as (HT & Hlen & Hmap & Hcu & Hct & _); [lia|done|done|].
  split; cbn [entries cap len tombstones]; auto; lia.
Qed.
End Proofs.

(** ** Sequences of calls *)

Section Trace.
Context {V : Type} (null : V).

(** [alloc]: whether the call's allocation, if it makes one, succeeds *)
Inductive call :=
  | CSet (alloc : bool) (k : Z) (v : V)
  | CGet (k : Z)
  | CHas (k : Z)
  | CRemove (alloc : bool) (k : Z)
  | CLen
  | CClear.

Inductive answer :=
  | ASet (rc : res unit) | AGet (v : res V) | AHas (b : res bool) | ARemove (b : res bool)
  | ALen (n : Z) | AClear.

Definition do_call (c : call) (m : rtc_u32_map_t V) : rtc_u32_map_t V * answer :=
  match c with
  | CSet a k v => let '(m', r) := rtc_u32_map_set null a k v m in (m', ASet r)
  | CGet k => (m, AGet (rtc_u32_map_get null m k))
  | CHas k => (m, AHas (rtc_u32_map_has m k))
  | CRemove a k => let '(m', r) := rtc_u32_map_remove null a k m in (m', ARemove r)
  | CLen => (m, ALen (rtc_u32_map_len m))
  | CClear => (rtc_u32_map_clear null m, AClear)
  end.

Fixpoint do_calls (cs : list call) (m : rtc_u32_map_t V) : list answer :=
  match cs with
  | [] => []
  | c :: rest => let '(m', a) := do_call c m in a :: do_calls rest m'
  end.

(** The answers a finite map gives after [n] calls; an insertion may fail
    without effect, if its allocation fails (or after 2^56 calls). *)
Fixpoint explained (n : Z) (g : gmap Z V) (cs : list call) (answers : list answer) : Prop :=
  match cs, answers with
  | [], [] => True
  | c :: cs, a :: answers =>
      match c, a with
      | CSet _ k v, ASet (Ok _) => explained (n + 1) (<[k := v]> g) cs answers
      | CSet alloc _ _, ASet (Err e) =>
          e = RTC_ERR_NOMEM /\ (alloc = false \/ 2 ^ 56 <= n) /\ explained (n + 1) g cs answers
      | CGet k, AGet r => r = Ok (default null (g !! k)) /\ explained (n + 1) g cs answers
      | CHas k, AHas r => r = Ok (bool_decide (is_Some (g !! k))) /\ explained (n + 1) g cs answers
      | CRemove _ k, ARemove r =>
          r = Ok (bool_decide (is_Some (g !! k))) /\ explained (n + 1) (delete k g) cs answers
      | CLen, ALen l => l = Z.of_nat (size g) /\ explained (n + 1) g cs answers
      | CClear, AClear => explained (n + 1) ∅ cs answers
      | _, _ => False
      end
  | _, _ => False
  end.

Lemma do_calls_explained cs : forall n m g, u32_repr m g -> u32_load m <= n -> explained n g cs (do_calls cs m).
Proof.
  induction cs as [|c cs IH]; intros n m g Hm Hn; simpl; [done|]. destruct c as [a k v|k|k|a k| |]; simpl.
  - destruct (set_load_spec null m g a k v Hm) as (m' & Hl & [(-> & ?)|(-> & ? & Hw)]); [apply IH; [done|lia]|].
    split_and!; [done|destruct Hw; [by left|right; lia]|apply IH; [done|lia]].
  - rewrite (get_spec null m g k Hm). split; [done|]. apply IH; [done|lia].
  - rewrite (has_spec m g k Hm). split; [done|]. apply IH; [done|lia].
  - destruct (remove_spec null m g a k Hm) as (m' & -> & ? & ?). split; [done|]. apply IH; [done|lia].
  - split; [symmetry; by apply u32_repr_size|]. apply IH; [done|lia].
  - destruct (clear_repr null m g Hm). apply IH; [done|lia].
Qed.

(** ** Properties *)

(** C26: The hash map is a finite map.  On every sequence of set, get, has,
    remove, len and clear calls from the initial map, with any allocation
    failures, every answer is the one a mathematical finite map gives
    (probing always terminates, growth and tombstone clean-up never lose or
    duplicate an entry); a set fails only if its allocation fails (or after
    2^56 calls), and then returns RTC_ERR_NOMEM and changes nothing. *)
Theorem u32_map_refines_finite_map (cs : list call) :
  explained 0 ∅ cs (do_calls cs rtc_u32_map_init).
Proof. apply do_calls_explained; [by left|done]. Qed.

(** When allocation succeeds and the table has at most 2^58 slots, set
    succeeds and the key then maps to the new value while all other keys
    keep theirs. *)
Theorem u32_map_set_succeeds (m : rtc_u32_map_t V) g k v :
  u32_repr m g -> cap m <= 2 ^ 58 ->
  exists m', rtc_u32_map_set null true k v m = (m', Ok ()) /\ u32_repr m' (<[k := v]> g) /\
    rtc_u32_map_get null m' k = Ok v /\
    forall k', k' <> k -> rtc_u32_map_get null m' k' = rtc_u32_map_get null m k'.
Proof.
  intros Hm Hc. destruct (set_spec null m g true k v Hm) as (m' & [(Hs & Hm' & _)|(_ & _ & _ & [?|?])]); [|done|lia].
  exists m'. split_and!; auto.
  - rewrite (get_spec null _ _ _ Hm'), lookup_insert_eq. done.
  - intros k' Hne. rewrite (get_spec null _ _ _ Hm'), (get_spec null _ _ _ Hm).
    by rewrite lookup_insert_ne.
Qed.

(** Iterating a map with [rtc_u32_map_next] from a zeroed iterator ends
    and yields every entry exactly once. *)
Theorem u32_map_iteration_complete (m : rtc_u32_map_t V) g :
  u32_repr m g -> iterate (S (length (entries m))) m 0 ≡ₚ map_to_list g.
Proof. apply iterate_repr. Qed.
End Trace.

(** a map after three insertions and a removal *)
Definition map0 : rtc_u32_map_t Z :=
  (let m := (rtc_u32_map_set 0 true 7 70 rtc_u32_map_init).1 in
   let m := (rtc_u32_map_set 0 true 8 80 m).1 in
   let m := (rtc_u32_map_set 0 true 7 71 m).1 in
   (rtc_u32_map_remove 0 true 8 m).1).

Lemma map0_repr : u32_repr map0 {[7 := 71]}.
Proof.
  assert (forall (m : rtc_u32_map_t Z) g k v, u32_repr m g -> cap m <= 16 ->
    u32_repr (rtc_u32_map_set 0 true k v m).1 (<[k := v]> g)) as Hset.
  { intros m g k v Hm Hc.
    destruct (set_spec 0 m g true k v Hm) as (m' & [(-> & ? & _)|(_ & _ & _ & [?|?])]); [done|done|lia]. }
  unfold map0.
  match goal with |- u32_repr (rtc_u32_map_remove 0 true 8 ?m).1 _ =>
    destruct (remove_spec 0 m (<[7 := 71]> (<[8 := 80]> (<[7 := 70]> ∅))) true 8) as (m' & -> & Hm' & _)
  end.
  - do 3 (apply Hset; [|vm_compute; congruence]). by left.
  - replace {[7 := 71]} with (delete 8 (<[7 := 71]> (<[8 := 80]> (<[7 := 70]> ∅))) : gmap Z Z); [done|].
    vm_compute. reflexivity.
Qed.

Lemma u32_map_set_succeeds_witness :
  exists m', rtc_u32_map_set 0 true 23 5 map0 = (m', Ok ()) /\
    u32_repr m' (<[23 := 5]> {[7 := 71]}) /\
    rtc_u32_map_get 0 m' 23 = Ok 5 /\
    forall k', k' <> 23 -> rtc_u32_map_get 0 m' k' = rtc_u32_map_get 0 map0 k'.
Proof.
  apply (u32_map_set_succeeds 0 map0 {[7 := 71]} 23 5).
  - exact map0_repr.
  - vm_compute. congruence.
Defined.

Lemma u32_map_iteration_complete_witness :
  iterate (S (length (entries map0))) map0 0 ≡ₚ map_to_list ({[7 := 71]} : gmap Z Z).
Proof. apply (u32_map_iteration_complete map0 {[7 := 71]}). exact map0_repr. Defined.

End U32Map.
