(* ===== verification/StrMap.v ===== *)
(** * The string hash map (common/src/rtc_str_map.c)

    Open addressing keyed by C strings with a cached FNV-1a hash per entry,
    in borrowed or owned key mode.  A C string is the list of its bytes before
    the NUL; what the map stores for a key is the string's contents. *)

From S2P Require Import Prelude Probe U32Map.
From Stdlib Require Import ZArith Lia.
From stdpp Require Import base list numbers gmap fin_maps.
#[local] Open Scope Z_scope.

Module StrMap.
Import Probe.

Definition RTC_STR_MAP_INITIAL_CAP : Z := 16.

(** [while ( *s)]: one xor and one wrapping product per byte *)
Definition fnv1a (s : bytes) : Z :=
  fold_left (fun h c => u32 (Z.lxor h (u8 c) * 16777619)) s 2166136261.

Section Ops.
Context {V : Type} (null : V).

(** [key = []] stands for the null pointer of an entry not in use *)
Record rtc_str_map_entry_t := Entry { key : bytes; value : V; hash : Z; state : entry_state }.

Record rtc_str_map_t := Map {
  entries : list rtc_str_map_entry_t;
  cap : Z;
  len : Z;
  tombstones : Z;
  owns_keys : bool
}.

Definition sizeof_entry : Z := 24.
Definition entry_zero : rtc_str_map_entry_t := Entry [] null 0 ENTRY_EMPTY.

(** the copy, or [None] when malloc fails *)
Definition str_dup (alloc : bool) (s : bytes) : option bytes := if alloc then Some s else None.

Definition str_rehash (alloc : bool) (new_cap : Z) (m : rtc_str_map_t) : rtc_str_map_t * res unit :=
  if negb alloc || (SIZE_MAX <? new_cap * sizeof_entry) then (m, Err RTC_ERR_NOMEM)
  else
    let new_entries := replicate (Z.to_nat new_cap) entry_zero in
    match reinsert state hash (fun src => src) (entries m) new_entries (new_cap - 1) with
    | Ok es => (Map es new_cap (len m) 0 (owns_keys m), Ok ())
    | Err e => (m, Err e)
    | Fault => (m, Fault)
    end.

Definition init_common (owns : bool) : rtc_str_map_t := Map [] 0 0 0 owns.
Definition rtc_str_map_init : rtc_str_map_t := init_common false.
Definition rtc_str_map_init_owned : rtc_str_map_t := init_common true.

Definition str_find_slot (m : rtc_str_map_t) (k : bytes) (h : Z) : res (Z * bool) :=
  find_loop state (length (entries m)) (fun e => (hash e =? h) && bool_decide (key e = k))
    (entries m) (cap m - 1) (Z.land h (cap m - 1)) None.

(** [alloc]: the rehash's calloc; [alloc_key]: str_dup's malloc *)
Definition rtc_str_map_set (alloc alloc_key : bool) (k : bytes) (v : V) : st rtc_str_map_t unit :=
  m ← get;
  _ ← (if cap m =? 0 then str_rehash alloc RTC_STR_MAP_INITIAL_CAP
       else if u64 (cap m * 3) <=? u64 ((len m + tombstones m) * 4) then
         _ ← lift (fail_if (SIZE_MAX / 2 <? cap m) RTC_ERR_NOMEM);
         str_rehash alloc (cap m * 2)
       else mret ());
  m ← get;
  let h := fnv1a k in
  r ← lift (str_find_slot m k h);
  let '(slot, found) := r in
  e ← lift (rd (entries m) slot);
  if found : bool then
    es ← lift (wr (entries m) slot (Entry (key e) v (hash e) (state e)));
    put (Map es (cap m) (len m) (tombstones m) (owns_keys m))
  else
    match (if owns_keys m then str_dup alloc_key k else Some k) with
    | None => lift (Err RTC_ERR_NOMEM)
    | Some stored_key =>
        let t := if bool_decide (state e = ENTRY_TOMBSTONE) then u64 (tombstones m - 1)
                 else tombstones m in
        es ← lift (wr (entries m) slot (Entry stored_key v h ENTRY_USED));
        put (Map es (cap m) (u64 (len m + 1)) t (owns_keys m))
    end.

Definition rtc_str_map_get (m : rtc_str_map_t) (k : bytes) : res V :=
  if cap m =? 0 then Ok null
  else
    r ← str_find_slot m k (fnv1a k);
    let '(slot, found) := r in
    if found : bool then e ← rd (entries m) slot; Ok (value e) else Ok null.

Definition rtc_str_map_has (m : rtc_str_map_t) (k : bytes) : res bool :=
  if cap m =? 0 then Ok false
  else r ← str_find_slot m k (fnv1a k); Ok (snd r).

Definition rtc_str_map_remove (alloc : bool) (k : bytes) : st rtc_str_map_t bool :=
  m ← get;
  if cap m =? 0 then mret false
  else
    r ← lift (str_find_slot m k (fnv1a k));
    let '(slot, found) := r in
    if negb found then mret false
    else
      es ← lift (wr (entries m) slot (Entry [] null 0 ENTRY_TOMBSTONE));
      let m := Map es (cap m) (u64 (len m - 1)) (u64 (tombstones m + 1)) (owns_keys m) in
      _ ← put m;
      if (cap m <=? u64 (tombstones m * 8)) && (u64 (len m * 2) <? cap m)
         && (RTC_STR_MAP_INITIAL_CAP <? cap m)
      then
        let '(m', rc) := str_rehash alloc (cap m) m in
        _ ← put m';
        match rc with Fault => lift Fault | _ => mret true end
      else mret true.

Definition rtc_str_map_len (m : rtc_str_map_t) : Z := len m.

Definition rtc_str_map_clear (m : rtc_str_map_t) : rtc_str_map_t :=
  match entries m with
  | [] => m
  | _ => Map (replicate (Z.to_nat (cap m)) entry_zero) (cap m) 0 0 (owns_keys m)
  end.

Definition rtc_str_map_free (m : rtc_str_map_t) : rtc_str_map_t := Map [] 0 0 0 (owns_keys m).

(** the keys [rtc_str_map_clear] and [rtc_str_map_free] release *)
Definition freed_keys (m : rtc_str_map_t) : list bytes :=
  if owns_keys m then omap (fun e => match state e with ENTRY_USED => Some (key e) | _ => None end) (entries m)
  else [].

Fixpoint next_loop (rest : list rtc_str_map_entry_t) (idx : Z) : Z * option (bytes * V) :=
  match rest with
  | [] => (idx, None)
  | e :: rest' =>
      match state e with
      | ENTRY_USED => (idx + 1, Some (key e, value e))
      | _ => next_loop rest' (idx + 1)
      end
  end.

Definition rtc_str_map_next (m : rtc_str_map_t) (idx : Z) : Z * option (bytes * V) :=
  if cap m =? 0 then (idx, None) else next_loop (drop (Z.to_nat idx) (entries m)) idx.

End Ops.
Arguments rtc_str_map_t V : clear implicits.
Arguments rtc_str_map_entry_t V : clear implicits.

(** ** Correctness *)

Section Proofs.
Context {V : Type} (null : V).
Implicit Types (m : rtc_str_map_t V) (g : gmap bytes V).

(** a used entry caches its key's hash *)
Definition entry_good (e : rtc_str_map_entry_t V) : Prop :=
  state e = ENTRY_USED -> hash e = fnv1a (key e).

Abbreviation tok := (table_ok (E := rtc_str_map_entry_t V) state key fnv1a entry_good).
Abbreviation abs := (to_map (E := rtc_str_map_entry_t V) state key value).
Abbreviation cnt := (count (E := rtc_str_map_entry_t V) state).

(** a map with storage *)
Record stored m g : Prop := {
  st_cap : blen (entries m) = cap m;
  st_min : 16 <= cap m;
  st_max : cap m * 24 <= SIZE_MAX;
  st_tok : tok (entries m);
  st_abs : abs (entries m) = g;
  st_len : cnt ENTRY_USED (entries m) = len m;
  st_size : Z.of_nat (size g) = len m;
  st_tomb : cnt ENTRY_TOMBSTONE (entries m) = tombstones m;
  st_load : (len m + tombstones m) * 4 <= cap m * 3
}.

(** the representation relation *)
Definition str_repr m g : Prop :=
  ((exists b, m = init_common b) /\ g = ∅) \/ stored m g.

Lemma str_stored_bounds m g : stored m g -> 0 <= len m /\ 0 <= tombstones m.
Proof. intros []. rewrite <-st_len0, <-st_tomb0. split; apply count_nonneg. Qed.

Lemma str_stored_pow m g : stored m g -> exists n, 4 <= n /\ cap m = 2 ^ n.
Proof.
  intros []. destruct (tbl_pow _ _ _ _ _ st_tok0) as (n & Hn & E).
  exists n. split; [|congruence]. destruct (Z.lt_ge_cases n 4); [|done].
  assert (2 ^ n <= 2 ^ 3) by (apply Z.pow_le_mono_r; lia). lia.
Qed.

Lemma str_cap_16 m g : stored m g -> exists q, cap m = 16 * q.
Proof.
  intros (n & Hn & ->)%str_stored_pow. exists (2 ^ (n - 4)). change 16 with (2 ^ 4).
  rewrite <-Z.pow_add_r by lia. f_equal. lia.
Qed.

Lemma str_stored_empty m g : stored m g -> has_empty state (entries m).
Proof. intros Hs. pose proof Hs as []. apply count_has_empty. lia. Qed.

Lemma str_find_slot_spec m g k :
  stored m g ->
  exists i b, str_find_slot m k (fnv1a k) = Ok (i, b) /\
    if b : bool then exists e, rd (entries m) i = Ok e /\ state e = ENTRY_USED /\ key e = k
    else absent state key (entries m) k /\ insertable state fnv1a (entries m) k i.
Proof.
  intros Hs. pose proof Hs as []. unfold str_find_slot. rewrite <-st_cap0.
  apply find_slot_ok with (good := entry_good); [done| |by eapply str_stored_empty].
  intros e Hg Hu. rewrite andb_true_iff, Z.eqb_eq, bool_decide_eq_true, (Hg Hu). naive_solver.
Qed.

Lemma str_rehash_spec m g alloc n :
  str_repr m g -> 4 <= n -> (len m + 1) * 4 <= 2 ^ n * 3 ->
  (str_rehash null alloc (2 ^ n) m = (m, Err RTC_ERR_NOMEM) /\
     (alloc = false \/ SIZE_MAX < 2 ^ n * 24)) \/
  (exists m', str_rehash null alloc (2 ^ n) m = (m', Ok ()) /\ stored m' g /\
     cap m' = 2 ^ n /\ len m' = len m /\ tombstones m' = 0).
Proof.
  intros Hm Hn Hroom. unfold str_rehash, sizeof_entry.
  destruct alloc; [|by left; auto]. cbn [negb orb].
  destruct (Z.ltb_spec SIZE_MAX (2 ^ n * 24)); [by left; auto|]. right.
  destruct (empty_table_ok state key value fnv1a entry_good n (entry_zero null))
    as (HT & Hlen & Hmap & Hcu & Hct & Habs); [lia|done|done|].
  assert (16 <= 2 ^ n) by (change 16 with (2 ^ 4); apply Z.pow_le_mono_r; lia).
  assert (Hold : NoDup ((omap (used_kv state key value) (entries m)).*1) /\
    cnt ENTRY_USED (entries m) = len m /\ abs (entries m) = g /\ Z.of_nat (size g) = len m /\ 0 <= len m).
  { destruct Hm as [[[b ->] ->]|Hs].
    - split_and!; try done. constructor.
    - pose proof (str_stored_bounds _ _ Hs). pose proof Hs as []. split_and!; auto; [|lia].
      by eapply table_keys_NoDup. }
  destruct Hold as (Hnd & Hc & Ha & Hsz & Hl0).
  destruct (reinsert_ok state key value fnv1a entry_good
    hash (fun src => src) (entries m) (replicate (Z.to_nat (2 ^ n)) (entry_zero null)))
    as (new' & Hr & HT' & Hlen' & Hmap' & Hcu' & Hct'); auto.
  - destruct Hm as [[[b ->] _]|[]]; [constructor|]. by eapply tbl_good.
  - rewrite Hlen, Hcu, Hc. lia.
  - rewrite Hlen in Hr, Hlen'. rewrite Hr. eexists. split; [done|]. cbn [cap len tombstones].
    pose proof (count_nonneg state ENTRY_TOMBSTONE new').
    rewrite Hmap, (right_id_L ∅ (∪)), Ha in Hmap'. split_and!; auto.
    split; cbn [entries cap len tombstones]; auto; try lia.
Qed.

(** [set] once there is room: the tail of [rtc_str_map_set] *)
Definition set_tail (alloc_key : bool) (k : bytes) (v : V) : st (rtc_str_map_t V) unit :=
  m ← get;
  let h := fnv1a k in
  r ← lift (str_find_slot m k h);
  let '(slot, found) := r in
  e ← lift (rd (entries m) slot);
  if found : bool then
    es ← lift (wr (entries m) slot (Entry (key e) v (hash e) (state e)));
    put (Map es (cap m) (len m) (tombstones m) (owns_keys m))
  else
    match (if owns_keys m then str_dup alloc_key k else Some k) with
    | None => lift (Err RTC_ERR_NOMEM)
    | Some stored_key =>
        let t := if bool_decide (state e = ENTRY_TOMBSTONE) then u64 (tombstones m - 1)
                 else tombstones m in
        es ← lift (wr (entries m) slot (Entry stored_key v h ENTRY_USED));
        put (Map es (cap m) (u64 (len m + 1)) t (owns_keys m))
    end.

Lemma str_set_tail_spec m g ak k v :
  stored m g -> (len m + tombstones m + 1) * 4 <= cap m * 3 ->
  exists m', cap m' = cap m /\ tombstones m' <= tombstones m /\
    ((set_tail ak k v m = (m', Ok ()) /\ stored m' (<[k := v]> g)) \/
     (set_tail ak k v m = (m', Err RTC_ERR_NOMEM) /\ stored m' g /\ ak = false)).
Proof.
  intros Hs Hroom. pose proof (str_stored_bounds _ _ Hs) as [Hl0 Ht0]. pose proof Hs as [].
  unfold set_tail. rewrite st_bind_eq. simpl. unfold SIZE_MAX in *.
  destruct (str_find_slot_spec m g k Hs) as (i & b & Hf & Hb). rewrite (st_bind_lift _ _ _ _ Hf).
  destruct b.
  - destruct Hb as (e & He & Hu & Hk). rewrite (st_bind_lift _ _ _ _ He). cbn zeta iota.
    pose proof (rd_range _ _ _ He). rewrite (st_bind_lift _ _ _ _ (wr_Ok _ _ _ H)).
    eexists. refine (conj _ (conj _ (or_introl (conj eq_refl _)))); [done|done|].
    destruct (overwrite_ok state key value fnv1a entry_good (entries m) i e
      (Entry (key e) v (hash e) (state e))) as [HT Hm]; auto.
    { pose proof (tbl_good _ _ _ _ _ st_tok0) as HG. apply rd_Ok in He as [_ Hl].
      by apply (Forall_lookup_1 _ _ _ _ HG Hl). }
    cbn [key value] in Hm. rewrite st_abs0 in Hm. rewrite <-Hk.
    split; cbn [entries cap len tombstones]; auto.
    + by rewrite blen_insert.
    + rewrite (count_insert _ _ _ _ _ _ He). cbn [state]. rewrite Hu. simpl. lia.
    + rewrite map_size_insert_Some; [done|]. rewrite <-st_abs0. 
      exists (value e). eapply to_map_lookup; eauto 10.
    + rewrite (count_insert _ _ _ _ _ _ He). cbn [state]. rewrite Hu. simpl. lia.
  - destruct Hb as [Ha Hins]. pose proof Hins as [_ (e & He & Hu)].
    rewrite (st_bind_lift _ _ _ _ He). cbn zeta iota.
    destruct (if owns_keys m then str_dup ak k else Some k) as [sk|] eqn:Esk.
    2:{ exists m. split; [done|]. split; [done|]. right. split_and!; auto. destruct (owns_keys m), ak; done. }
    assert (sk = k) as -> by (destruct (owns_keys m), ak; simpl in Esk; congruence).
    pose proof (rd_range _ _ _ He). rewrite (st_bind_lift _ _ _ _ (wr_Ok _ _ _ H)).
    destruct (insert_ok state key value fnv1a entry_good (entries m) i
      (Entry k v (fnv1a k) ENTRY_USED)) as [HT Hm]; auto.
    { by intros _. }
    cbn [key value] in Hm. rewrite st_abs0 in Hm.
    assert (Hfresh : g !! k = None) by (rewrite <-st_abs0; by eapply to_map_absent).
    pose proof (count_insert state ENTRY_TOMBSTONE _ _ _ (Entry k v (fnv1a k) ENTRY_USED) He) as Hct.
    assert (bool_decide (state e = ENTRY_TOMBSTONE) = true -> 0 < tombstones m) as Htp.
    { intros Et%bool_decide_eq_true. rewrite Et in Hct. simpl in Hct.
      pose proof (count_nonneg state ENTRY_TOMBSTONE (<[Z.to_nat i:=Entry k v (fnv1a k) ENTRY_USED]> (entries m))). lia. }
    assert (Hlen : u64 (len m + 1) = len m + 1) by (apply u64_id; lia).
    assert (Htb : (if bool_decide (state e = ENTRY_TOMBSTONE) then u64 (tombstones m - 1) else tombstones m)
      = tombstones m - (if decide (state e = ENTRY_TOMBSTONE) then 1 else 0)).
    { destruct (decide _); [rewrite bool_decide_true in * by done|rewrite bool_decide_false by done; lia].
      apply u64_id. specialize (Htp eq_refl). lia. }
    rewrite Hlen, Htb. eexists. refine (conj _ (conj _ (or_introl (conj eq_refl _)))); [done|cbn [tombstones]; case_decide; lia|].
    split; cbn [entries cap len tombstones]; auto.
    + by rewrite blen_insert.
    + rewrite (count_insert _ _ _ _ _ _ He), decide_False by done. simpl. lia.
    + rewrite map_size_insert_None by done. lia.
    + rewrite Hct. simpl. lia.
    + case_decide; lia.
Qed.

Lemma str_set_is_tail alloc ak k v :
  rtc_str_map_set null alloc ak k v =
  (m ← get;
   _ ← (if cap m =? 0 then str_rehash null alloc RTC_STR_MAP_INITIAL_CAP
        else if u64 (cap m * 3) <=? u64 ((len m + tombstones m) * 4) then
          _ ← lift (fail_if (SIZE_MAX / 2 <? cap m) RTC_ERR_NOMEM);
          str_rehash null alloc (cap m * 2)
        else mret ());
   set_tail ak k v).
Proof. done. Qed.

(** the bound on the size of the table after a call *)
Definition grown m m' : Prop :=
  tombstones m' <= tombstones m /\ cap m' <= Z.max 16 (Z.max (cap m) ((len m + tombstones m) * 3)).

Lemma str_set_grows m g alloc ak k v :
  str_repr m g ->
  exists m', grown m m' /\
    ((rtc_str_map_set null alloc ak k v m = (m', Ok ()) /\ str_repr m' (<[k := v]> g)) \/
     (rtc_str_map_set null alloc ak k v m = (m', Err RTC_ERR_NOMEM) /\ str_repr m' g /\
      (alloc = false \/ ak = false \/ 2 ^ 58 < cap m))).
Proof.
  intros Hm. rewrite str_set_is_tail, st_bind_eq. cbn [get].
  assert (Htail : forall m1, stored m1 g -> (len m1 + tombstones m1 + 1) * 4 <= cap m1 * 3 -> grown m m1 ->
    exists m', grown m m' /\ ((set_tail ak k v m1 = (m', Ok ()) /\ str_repr m' (<[k := v]> g)) \/
               (set_tail ak k v m1 = (m', Err RTC_ERR_NOMEM) /\ str_repr m' g /\
                (alloc = false \/ ak = false \/ 2 ^ 58 < cap m)))).
  { intros m1 Hst1 H2 [Hg1 Hg2]. destruct (str_set_tail_spec m1 g ak k v Hst1 H2) as (m' & Hc & Ht & [[-> ?]|(-> & ? & ?)]);
      (exists m'; split; [split; [lia|by rewrite Hc]|]).
    - left. split; [done|by right].
    - right. split_and!; [done|by right|auto]. }
  assert (grown m m) as Hg0 by (split; lia).
  destruct Hm as [[[b ->] ->]|Hs].
  - simpl. rewrite st_bind_eq. change RTC_STR_MAP_INITIAL_CAP with (2 ^ 4).
    destruct (str_rehash_spec (init_common b) ∅ alloc 4) as [[-> Hwhy]|(m1 & -> & Hst1 & Hc & Hl & Ht)];
      [by left; eauto|lia|simpl; lia| |].
    + eexists. split; [done|]. right. split; [done|]. split; [by left; eauto|]. left. destruct Hwhy; [done|unfold SIZE_MAX in *; lia].
    + destruct (Htail m1 Hst1) as (m' & Hr); [rewrite Hc, Hl, Ht; simpl; lia|split; simpl; lia|]. eauto.
  - pose proof (str_stored_bounds _ _ Hs) as [? ?]. pose proof (str_cap_16 _ _ Hs) as [q Hq].
    destruct (str_stored_pow _ _ Hs) as (n & Hn & Hcn). pose proof Hs as [].
    unfold SIZE_MAX in *. rewrite !u64_id by lia.
    rewrite (proj2 (Z.eqb_neq (cap m) 0)) by lia. rewrite st_bind_eq.
    destruct (Z.leb_spec (cap m * 3) ((len m + tombstones m) * 4)).
    + rewrite st_bind_eq. destruct (Z.ltb_spec ((2 ^ 64 - 1) / 2) (cap m)).
      { simpl. eexists. split; [done|]. right. split; [done|]. split; [by right|right; right; change ((2 ^ 64 - 1) / 2) with (2 ^ 63 - 1) in *; lia]. }
      simpl. assert (E2 : cap m * 2 = 2 ^ (n + 1)) by (rewrite Z.pow_add_r by lia; lia). rewrite E2.
      destruct (str_rehash_spec m g alloc (n + 1)) as [[-> Hwhy]|(m1 & -> & Hst1 & Hc & Hl & Ht)];
        [by right|lia|lia| |].
      * eexists. split; [done|]. right. split; [done|]. split; [by right|]. destruct Hwhy; [auto|right; right; unfold SIZE_MAX in *; lia].
      * destruct (Htail m1 Hst1) as (m' & Hr); [lia|split; lia|]. eauto.
    + simpl. destruct (Htail m Hs) as (m' & Hr); [lia|done|]. eauto.
Qed.

Lemma str_set_spec m g alloc ak k v :
  str_repr m g ->
  exists m', (rtc_str_map_set null alloc ak k v m = (m', Ok ()) /\ str_repr m' (<[k := v]> g)) \/
             (rtc_str_map_set null alloc ak k v m = (m', Err RTC_ERR_NOMEM) /\ str_repr m' g /\
              (alloc = false \/ ak = false \/ 2 ^ 58 < cap m)).
Proof. intros Hm. destruct (str_set_grows m g alloc ak k v Hm) as (m' & _ & H). by exists m'. Qed.

(** the slots in use, or what the table was grown for *)
Definition str_load m : Z := Z.max (len m + tombstones m) ((cap m - 16) / 3).

Lemma str_repr_size m g : str_repr m g -> Z.of_nat (size g) = len m.
Proof. intros [[[b ->] ->]|[]]; [by rewrite map_size_empty|done]. Qed.

Lemma str_load_grown m g m' g' :
  str_repr m g -> str_repr m' g' -> (size g' <= size g + 1)%nat -> grown m m' -> str_load m' <= str_load m + 1.
Proof.
  intros Hm Hm' Hs [Ht Hc]. pose proof (str_repr_size _ _ Hm). pose proof (str_repr_size _ _ Hm').
  assert (0 <= len m + tombstones m) by (destruct Hm as [[[b ->] ->]|Hst]; [done|apply str_stored_bounds in Hst; lia]).
  unfold str_load. assert ((cap m' - 16) / 3 <= Z.max (len m + tombstones m) ((cap m - 16) / 3)); [|lia].
  destruct (Z.max_spec 16 (Z.max (cap m) ((len m + tombstones m) * 3))) as [[? E1]|[? E1]]; rewrite E1 in Hc.
  - destruct (Z.max_spec (cap m) ((len m + tombstones m) * 3)) as [[? E2]|[? E2]]; rewrite E2 in Hc; apply Z.max_le_iff.
    + left. apply Z.div_le_upper_bound; lia.
    + right. apply Z.div_le_mono; lia.
  - apply Z.max_le_iff. left. apply Z.div_le_upper_bound; lia.
Qed.

(** a call of [set] fails only for want of memory, and adds at most one to the load *)
Lemma str_set_load_spec m g alloc ak k v :
  str_repr m g ->
  exists m', str_load m' <= str_load m + 1 /\
    ((rtc_str_map_set null alloc ak k v m = (m', Ok ()) /\ str_repr m' (<[k := v]> g)) \/
     (rtc_str_map_set null alloc ak k v m = (m', Err RTC_ERR_NOMEM) /\ str_repr m' g /\
      (alloc = false \/ ak = false \/ 2 ^ 56 <= str_load m))).
Proof.
  intros Hm. destruct (str_set_grows m g alloc ak k v Hm) as (m' & Hg & [(E & Hm')|(E & Hm' & Hw)]); exists m'.
  - split; [|auto]. apply (str_load_grown m g m' _ Hm Hm'); [|done]. pose proof (map_size_insert k v g) as Hs.
    destruct (g !! k); simpl in Hs; lia.
  - split; [by apply (str_load_grown m g m' g Hm Hm'); [lia|]|]. right. split_and!; [done|done|].
    destruct Hw as [|[|Hw]]; [auto|auto|right; right]. unfold str_load. apply Z.max_le_iff. right. apply Z.div_le_lower_bound; lia.
Qed.

Lemma str_get_spec m g k : str_repr m g -> rtc_str_map_get null m k = Ok (default null (g !! k)).
Proof.
  intros [[[b0 ->] ->]|Hs]; [done|]. unfold rtc_str_map_get. pose proof Hs as [].
  rewrite (proj2 (Z.eqb_neq (cap m) 0)) by lia.
  destruct (str_find_slot_spec m g k Hs) as (i & b & Hf & Hb). step Hf. rewrite <-st_abs0. destruct b.
  - destruct Hb as (e & He & Hu & Hk). step He.
    rewrite (proj2 (to_map_lookup _ _ _ _ _ _ k (value e) st_tok0)); [done|eauto 10].
  - destruct Hb as [Ha _]. rewrite (proj2 (to_map_absent _ _ _ _ _ _ k st_tok0)); done.
Qed.

Lemma str_has_spec m g k : str_repr m g -> rtc_str_map_has m k = Ok (bool_decide (is_Some (g !! k))).
Proof.
  intros [[[b0 ->] ->]|Hs]; [done|]. unfold rtc_str_map_has. pose proof Hs as [].
  rewrite (proj2 (Z.eqb_neq (cap m) 0)) by lia.
  destruct (str_find_slot_spec m g k Hs) as (i & b & Hf & Hb). step Hf. rewrite <-st_abs0. destruct b.
  - destruct Hb as (e & He & Hu & Hk).
    rewrite (proj2 (to_map_lookup _ _ _ _ _ _ k (value e) st_tok0)); [done|eauto 10].
  - destruct Hb as [Ha _]. rewrite (proj2 (to_map_absent _ _ _ _ _ _ k st_tok0)); done.
Qed.

Lemma str_remove_spec m g alloc k :
  str_repr m g ->
  exists m', rtc_str_map_remove null alloc k m = (m', Ok (bool_decide (is_Some (g !! k)))) /\
             str_repr m' (delete k g) /\ str_load m' <= str_load m.
Proof.
  intros [[[b0 ->] ->]|Hs].
  { eexists. split; [done|]. split; [|done]. left. rewrite delete_empty. eauto. }
  pose proof (str_stored_bounds _ _ Hs) as [? ?]. destruct (str_stored_pow _ _ Hs) as (n & Hn & Hcn).
  pose proof Hs as []. unfold rtc_str_map_remove. rewrite st_bind_eq. cbn [get].
  rewrite (proj2 (Z.eqb_neq (cap m) 0)) by lia. unfold SIZE_MAX in *.
  destruct (str_find_slot_spec m g k Hs) as (i & b & Hf & Hb). rewrite (st_bind_lift _ _ _ _ Hf).
  destruct b; cbn [negb].
  2:{ destruct Hb as [Ha _]. assert (Hn' : g !! k = None) by (rewrite <-st_abs0; by eapply to_map_absent).
      rewrite Hn'. eexists. split; [done|]. rewrite delete_id by done. split; [by right|done]. }
  destruct Hb as (e & He & Hu & Hk).
  pose proof (rd_range _ _ _ He) as Hi. rewrite (st_bind_lift _ _ _ _ (wr_Ok _ _ _ Hi)).
  set (o := Entry [] null 0 ENTRY_TOMBSTONE).
  destruct (remove_ok state key value fnv1a entry_good (entries m) i e o) as [HT Hm]; auto.
  { by intros ?. }
  rewrite Hk, st_abs0 in Hm.
  assert (Hin : g !! k = Some (value e)) by (rewrite <-st_abs0; eapply to_map_lookup; eauto 10).
  pose proof (count_insert state ENTRY_TOMBSTONE _ _ _ o He) as Hct.
  pose proof (count_insert state ENTRY_USED _ _ _ o He) as Hcu.
  rewrite Hu in Hct, Hcu. simpl in Hct, Hcu.
  pose proof (count_nonneg state ENTRY_USED (<[Z.to_nat i := o]> (entries m))).
  rewrite !(u64_id (len m - 1)), !(u64_id (tombstones m + 1)) by lia.
  set (m1 := Map _ _ _ _ _).
  assert (Hst1 : stored m1 (delete k g)).
  { split; cbn [m1 entries cap len tombstones]; auto; try lia.
    - by rewrite blen_insert.
    - rewrite map_size_delete_Some by done. lia. }
  assert (str_load m1 <= str_load m) as Hld by (unfold str_load, m1; cbn [len tombstones cap]; lia).
  rewrite Hin, bool_decide_true by eauto. rewrite st_bind_eq. cbn [put].
  destruct (_ && _); [|by exists m1; split; [done|split; [by right|]]].
  change (cap m1) with (cap m). rewrite Hcn.
  destruct (str_rehash_spec m1 (delete k g) alloc n) as [[-> _]|(m2 & -> & Hst2 & Hc2 & Hl2 & Ht2)];
    [by right|lia|subst m1; simpl; lia| |].
  - exists m1. split_and!; [done|by right|done].
  - exists m2. split_and!; [done|by right|]. etrans; [|exact Hld]. unfold str_load. rewrite Hc2, Hl2, Ht2.
    change (cap m1) with (cap m). rewrite Hcn. subst m1. cbn [len tombstones]. lia.
Qed.

(** ** Iteration *)

(** all pairs [rtc_str_map_next] yields from a zeroed iterator *)
Fixpoint iterate (fuel : nat) (m : rtc_str_map_t V) (idx : Z) : list (bytes * V) :=
  match fuel with
  | O => []
  | S fuel =>
      match rtc_str_map_next m idx with
      | (idx', Some kv) => kv :: iterate fuel m idx'
      | (_, None) => []
      end
  end.

Lemma str_next_loop_spec (rest : list (rtc_str_map_entry_t V)) : forall idx,
  match next_loop rest idx with
  | (idx', Some kv) => exists pre e post, rest = pre ++ e :: post /\
      omap (used_kv state key value) pre = [] /\ used_kv state key value e = Some kv /\
      idx' = idx + blen pre + 1
  | (_, None) => omap (used_kv state key value) rest = []
  end.
Proof.
  induction rest as [|e rest IH]; intros idx; [done|].
  destruct (decide (state e = ENTRY_USED)) as [Es|Es].
  - simpl. rewrite Es. exists [], e, rest. split_and!; auto; [unfold used_kv; by rewrite Es|lens; lia].
  - assert (Hkv : used_kv state key value e = None) by (unfold used_kv; by destruct (state e)).
    replace (next_loop (e :: rest) idx) with (next_loop rest (idx + 1)) by (simpl; by destruct (state e)).
    specialize (IH (idx + 1)). destruct (next_loop rest (idx + 1)) as [idx' [kv|]].
    + destruct IH as (pre & e' & post & -> & Hp & Hu & ->). exists (e :: pre), e', post.
      split_and!; auto; [cbn [omap list_omap]; by rewrite Hkv|lens; lia].
    + cbn [omap list_omap]. by rewrite Hkv.
Qed.

Lemma str_iterate_all m fuel : forall pre rest,
  entries m = pre ++ rest -> cap m <> 0 -> (length rest < fuel)%nat ->
  iterate fuel m (blen pre) = omap (used_kv state key value) rest.
Proof.
  induction fuel as [|fuel IH]; intros pre rest Hm Hc Hf; [lia|]. simpl.
  unfold rtc_str_map_next. rewrite (proj2 (Z.eqb_neq (cap m) 0)) by done.
  rewrite Hm. unfold blen at 1. rewrite Nat2Z.id, drop_app_length.
  pose proof (str_next_loop_spec rest (blen pre)) as Hn.
  destruct (next_loop rest (blen pre)) as [idx' [kv|]]; [|done].
  destruct Hn as (p & e & post & -> & Hp & Hu & ->).
  rewrite omap_app, Hp, app_nil_l. cbn [omap list_omap]. rewrite Hu. f_equal.
  replace (blen pre + blen p + 1) with (blen (pre ++ p ++ [e])) by (lens; lia).
  apply IH; [by rewrite Hm, <-!app_assoc|done|]. rewrite length_app in Hf. simpl in Hf. lia.
Qed.

Lemma str_iterate_repr m g :
  str_repr m g -> iterate (S (length (entries m))) m 0 ≡ₚ map_to_list g.
Proof.
  intros [[[b0 ->] ->]|Hs]; [by rewrite map_to_list_empty|]. pose proof Hs as [].
  change 0 with (blen (@nil (rtc_str_map_entry_t V))).
  rewrite (str_iterate_all m (S (length (entries m))) [] (entries m)); [|done|lia|lia].
  rewrite <-st_abs0. symmetry. apply map_to_list_to_map. by eapply table_keys_NoDup.
Qed.

Lemma str_clear_repr m g :
  str_repr m g -> str_repr (rtc_str_map_clear null m) ∅ /\ str_load (rtc_str_map_clear null m) <= str_load m.
Proof.
  intros [[[b0 ->] ->]|Hs]; [split; [left; eauto|done]|]. split.
  2: { pose proof (str_stored_bounds _ _ Hs). unfold rtc_str_map_clear. destruct (entries m); [done|]. unfold str_load. cbn [len tombstones cap]. lia. }
  right. destruct (str_stored_pow _ _ Hs) as (n & Hn & Hcn).
  pose proof Hs as []. unfold rtc_str_map_clear.
  destruct (entries m) eqn:E; [unfold blen in st_cap0; simpl in st_cap0; lia|]. rewrite Hcn.
  destruct (empty_table_ok state key value fnv1a entry_good n (entry_zero null))
    as (HT & Hlen & Hmap & Hcu & Hct & _); [lia|done|done|].
  split; cbn [entries cap len tombstones]; auto; lia.
Qed.
End Proofs.

(** ** Sequences of calls *)

Section Trace.
Context {V : Type} (null : V).

(** [alloc]: whether the call's allocation, if it makes one, succeeds *)
Inductive call :=
  | CSet (alloc alloc_key : bool) (k : bytes) (v : V)
  | CGet (k : bytes)
  | CHas (k : bytes)
  | CRemove (alloc : bool) (k : bytes)
  | CLen
  | CClear.

Inductive answer :=
  | ASet (rc : res unit) | AGet (v : res V) | AHas (b : res bool) | ARemove (b : res bool)
  | ALen (n : Z) | AClear.

Definition do_call (c : call) (m : rtc_str_map_t V) : rtc_str_map_t V * answer :=
  match c with
  | CSet a ak k v => let '(m', r) := rtc_str_map_set null a ak k v m in (m', ASet r)
  | CGet k => (m, AGet (rtc_str_map_get null m k))
  | CHas k => (m, AHas (rtc_str_map_has m k))
  | CRemove a k => let '(m', r) := rtc_str_map_remove null a k m in (m', ARemove r)
  | CLen => (m, ALen (rtc_str_map_len m))
  | CClear => (rtc_str_map_clear null m, AClear)
  end.

Fixpoint do_calls (cs : list call) (m : rtc_str_map_t V) : list answer :=
  match cs with
  | [] => []
  | c :: rest => let '(m', a) := do_call c m in a :: do_calls rest m'
  end.

(** The answers a finite map gives after [n] calls; an insertion may fail
    without effect, if an allocation fails (or after 2^56 calls). *)
Fixpoint explained (n : Z) (g : gmap bytes V) (cs : list call) (answers : list answer) : Prop :=
  match cs, answers with
  | [], [] => True
  | c :: cs, a :: answers =>
      match c, a with
      | CSet _ _ k v, ASet (Ok _) => explained (n + 1) (<[k := v]> g) cs answers
      | CSet alloc alloc_key _ _, ASet (Err e) =>
          e = RTC_ERR_NOMEM /\ (alloc = false \/ alloc_key = false \/ 2 ^ 56 <= n) /\ explained (n + 1) g cs answers
      | CGet k, AGet r => r = Ok (default null (g !! k)) /\ explained (n + 1) g cs answers
      | CHas k, AHas r => r = Ok (bool_decide (is_Some (g !! k))) /\ explained (n + 1) g cs answers
      | CRemove _ k, ARemove r =>
          r = Ok (bool_decide (is_Some (g !! k))) /\ explained (n + 1) (delete k g) cs answers
      | CLen, ALen l => l = Z.of_nat (size g) /\ explained (n + 1) g cs answers
      | CClear, AClear => explained (n + 1) ∅ cs answers
      | _, _ => False
      end
  | _, _ => False
  end.

Lemma str_do_calls_explained cs : forall n m g, str_repr m g -> str_load m <= n -> explained n g cs (do_calls cs m).
Proof.
  induction cs as [|c cs IH]; intros n m g Hm Hn; simpl; [done|]. destruct c as [a ak k v|k|k|a k| |]; simpl.
  - destruct (str_set_load_spec null m g a ak k v Hm) as (m' & Hl & [(-> & ?)|(-> & ? & Hw)]); [apply IH; [done|lia]|].
    split_and!; [done|destruct Hw as [|[|]]; [by left|by right; left|right; right; lia]|apply IH; [done|lia]].
  - rewrite (str_get_spec null m g k Hm). split; [done|]. apply IH; [done|lia].
  - rewrite (str_has_spec m g k Hm). split; [done|]. apply IH; [done|lia].
  - destruct (str_remove_spec null m g a k Hm) as (m' & -> & ? & ?). split; [done|]. apply IH; [done|lia].
  - split; [symmetry; by apply str_repr_size|]. apply IH; [done|lia].
  - destruct (str_clear_repr null m g Hm). apply IH; [done|lia].
Qed.

(** ** Properties *)

(** C27: The string map, in borrowed and in owned key mode, is a finite map
    from strings: on every sequence of calls with any allocation failures
    every answer is the one a mathematical finite map gives; a set fails only
    if one of its allocations fails (or after 2^56 calls), and then returns
    RTC_ERR_NOMEM without effect. *)
Theorem str_map_refines_finite_map (owned : bool) (cs : list call) :
  explained 0 ∅ cs (do_calls cs (init_common owned)).
Proof. apply str_do_calls_explained; [left; eauto|done]. Qed.

(** When both allocations succeed and the table has at most 2^58 slots,
    set succeeds, the key then maps to the new value and all other keys keep
    theirs. *)
Theorem str_map_set_succeeds (m : rtc_str_map_t V) g k v :
  str_repr m g -> cap m <= 2 ^ 58 ->
  exists m', rtc_str_map_set null true true k v m = (m', Ok ()) /\ str_repr m' (<[k := v]> g) /\
    rtc_str_map_get null m' k = Ok v /\
    forall k', k' <> k -> rtc_str_map_get null m' k' = rtc_str_map_get null m k'.
Proof.
  intros Hm Hc. destruct (str_set_spec null m g true true k v Hm) as (m' & [[Hs Hm']|(_ & _ & [?|[?|?]])]);
    [|done|done|lia].
  exists m'. split_and!; auto.
  - rewrite (str_get_spec null _ _ _ Hm'), lookup_insert_eq. done.
  - intros k' Hne. rewrite (str_get_spec null _ _ _ Hm'), (str_get_spec null _ _ _ Hm).
    by rewrite lookup_insert_ne.
Qed.
End Trace.

Lemma str_map_set_succeeds_witness :
  exists m', rtc_str_map_set 0 true true [97; 98] 5 rtc_str_map_init_owned = (m', Ok ()) /\
    str_repr m' (<[[97; 98] := 5]> ∅) /\ rtc_str_map_get 0 m' [97; 98] = Ok 5 /\
    forall k', k' <> [97; 98] ->
      rtc_str_map_get 0 m' k' = rtc_str_map_get 0 rtc_str_map_init_owned k'.
Proof.
  apply (str_map_set_succeeds 0 rtc_str_map_init_owned ∅ [97; 98] 5).
  - left. split; [by exists true|reflexivity].
  - vm_compute. congruence.
Defined.

End StrMap.
