(* ===== verification/Vec.v ===== *)
(** * The dynamic array (common/src/rtc_vec.c)

    The buffer is the list of its [cap] cells; a cell is [None] until it is
    written.  An element is one cell; [elem_size] only enters the overflow
    guard. *)

From S2P Require Import Prelude.
From Stdlib Require Import ZArith Lia.
From stdpp Require Import base list numbers.
#[local] Open Scope Z_scope.

Module Vec.

Definition RTC_VEC_INITIAL_CAP : Z := 8.

Section Ops.
Context {A : Type}.

Record rtc_vec_t := Vec { data : list (option A); len : Z; cap : Z; elem_size : Z }.

Definition rtc_vec_init (esz : Z) : res rtc_vec_t :=
  _ ← fail_if (esz =? 0) RTC_ERR_INVALID;
  Ok (Vec [] 0 0 esz).

(** [while (new_cap < min_cap)] *)
Fixpoint grow_loop (fuel : nat) (new_cap min_cap : Z) : res Z :=
  if new_cap <? min_cap then
    match fuel with
    | O => Fault
    | S fuel =>
        _ ← fail_if (SIZE_MAX / 2 <? new_cap) RTC_ERR_NOMEM;
        grow_loop fuel (u64 (new_cap * 2)) min_cap
    end
  else Ok new_cap.

(** [alloc]: whether realloc succeeds; it keeps the old cells *)
Definition rtc_vec_reserve (alloc : bool) (min_cap : Z) : st rtc_vec_t unit :=
  v ← get;
  _ ← lift (fail_if (elem_size v =? 0) RTC_ERR_INVALID);
  if min_cap <=? cap v then mret () else
  new_cap ← lift (grow_loop 64 (if cap v =? 0 then RTC_VEC_INITIAL_CAP else cap v) min_cap);
  _ ← lift (fail_if (SIZE_MAX / elem_size v <? new_cap) RTC_ERR_NOMEM);
  _ ← lift (fail_if (negb alloc) RTC_ERR_NOMEM);
  put (Vec (data v ++ replicate (Z.to_nat (new_cap - cap v)) None) (len v) new_cap (elem_size v)).

Definition rtc_vec_push (alloc : bool) (x : A) : st rtc_vec_t unit :=
  v ← get;
  _ ← lift (fail_if (elem_size v =? 0) RTC_ERR_INVALID);
  _ ← (if cap v <=? len v then rtc_vec_reserve alloc (u64 (len v + 1)) else mret ());
  v ← get;
  d ← lift (wr (data v) (len v) (Some x));
  put (Vec d (u64 (len v + 1)) (cap v) (elem_size v)).

(** the cell the returned pointer designates, [None] for NULL *)
Definition rtc_vec_at (v : rtc_vec_t) (idx : Z) : res (option (option A)) :=
  if (cap v =? 0) || (len v <=? idx) then Ok None
  else c ← rd (data v) idx; Ok (Some c).

Definition rtc_vec_len (v : rtc_vec_t) : Z := len v.

Definition rtc_vec_remove (idx : Z) : st rtc_vec_t unit :=
  v ← get;
  if len v <=? idx then mret () else
  let tail := len v - idx - 1 in
  d ← (if 0 <? tail then
         moved ← lift (sub (data v) (idx + 1) tail);
         mret (take (Z.to_nat idx) (data v) ++ moved ++ drop (Z.to_nat (idx + tail)) (data v))
       else mret (data v));
  put (Vec d (u64 (len v - 1)) (cap v) (elem_size v)).

Definition rtc_vec_swap_remove (idx : Z) : st rtc_vec_t unit :=
  v ← get;
  if len v <=? idx then mret () else
  let last := len v - 1 in
  d ← (if negb (idx =? last) then
         c ← lift (rd (data v) last); lift (wr (data v) idx c)
       else mret (data v));
  put (Vec d (u64 (len v - 1)) (cap v) (elem_size v)).

Definition rtc_vec_clear (v : rtc_vec_t) : rtc_vec_t := Vec (data v) 0 (cap v) (elem_size v).
Definition rtc_vec_free (v : rtc_vec_t) : rtc_vec_t := Vec [] 0 0 (elem_size v).

(** ** Refinement of lists *)

(** [v] holds the elements [l]; the rest of the buffer is arbitrary *)
Record vec_repr (v : rtc_vec_t) (l : list A) : Prop := {
  vr_cap : blen (data v) = cap v;
  vr_len : len v = blen l;
  vr_room : len v <= cap v;
  vr_esz : 0 < elem_size v;
  vr_max : cap v * elem_size v <= SIZE_MAX;
  vr_pow : cap v = 0 \/ exists j, 3 <= j <= 63 /\ cap v = 2 ^ j;
  vr_data : take (Z.to_nat (len v)) (data v) = Some <$> l
}.

Lemma vec_cap_max v l : vec_repr v l -> 0 <= len v /\ cap v <= 2 ^ 63 /\ 0 <= cap v.
Proof.
  intros []. rewrite vr_len0. pose proof (blen_nonneg l).
  split; [done|]. destruct vr_pow0 as [->|(j & Hj & ->)]; [lia|].
  pose proof (Z.pow_le_mono_r 2 j 63). pose proof (Z.pow_nonneg 2 j). lia.
Qed.

Lemma vec_split v l :
  vec_repr v l -> exists rest, data v = (Some <$> l) ++ rest /\ blen rest = cap v - blen l.
Proof.
  intros []. exists (drop (Z.to_nat (len v)) (data v)). split.
  - by rewrite <-vr_data0, take_drop.
  - unfold blen in *. rewrite length_drop. lia.
Qed.

Lemma blen_fmap {B C} (f : B -> C) (l : list B) : blen (f <$> l) = blen l.
Proof. unfold blen. by rewrite length_fmap. Qed.

Lemma vec_repr_intro l rest c e :
  c = blen l + blen rest -> 0 < e -> c * e <= SIZE_MAX ->
  (c = 0 \/ exists j, 3 <= j <= 63 /\ c = 2 ^ j) ->
  vec_repr (Vec ((Some <$> l) ++ rest) (blen l) c e) l.
Proof.
  intros -> He Hm Hp. pose proof (blen_nonneg rest). split; cbn [data len cap elem_size]; auto.
  - by rewrite blen_app, blen_fmap.
  - lia.
  - unfold blen. rewrite Nat2Z.id, <-(length_fmap Some l). apply take_app_length.
Qed.

(** The doubling loop: from a power of two it ends within 64 rounds, at the
    first doubling that is large enough, or with the overflow error, which
    needs a request above 2^63. *)
Lemma grow_loop_ok fuel : forall j m,
  0 <= j <= 63 -> m < 2 ^ 64 -> 63 - j < Z.of_nat fuel ->
  (exists j', grow_loop fuel (2 ^ j) m = Ok (2 ^ j') /\ m <= 2 ^ j' /\ j <= j' <= 63) \/
  (grow_loop fuel (2 ^ j) m = Err RTC_ERR_NOMEM /\ 2 ^ 63 < m).
Proof.
  induction fuel as [|fuel IH]; intros j m Hj Hm Hf; [lia|]. cbn [grow_loop].
  destruct (Z.ltb_spec (2 ^ j) m); [|left; exists j; split_and!; auto; lia].
  unfold SIZE_MAX. change ((2 ^ 64 - 1) / 2) with (2 ^ 63 - 1).
  destruct (Z.ltb_spec (2 ^ 63 - 1) (2 ^ j)) as [Hbig|Hsmall].
  { right. pose proof (Z.pow_le_mono_r 2 j 63). simpl. split; [done|lia]. }
  assert (j < 63) by (apply (Z.pow_lt_mono_r_iff 2); lia).
  assert (E : 2 ^ j * 2 = 2 ^ (j + 1)) by (rewrite Z.pow_add_r by lia; lia).
  pose proof (Z.pow_le_mono_r 2 (j + 1) 63). pose proof (Z.pow_nonneg 2 (j + 1)).
  cbn [fail_if mbind res_bind]. rewrite E, u64_id by lia.
  destruct (IH (j + 1) m) as [(j' & -> & ? & ?)|[-> ?]]; [lia|lia|lia| |].
  - left. exists j'. split_and!; auto; lia.
  - auto.
Qed.

Lemma reserve_spec v l alloc m :
  vec_repr v l -> 0 <= m < 2 ^ 64 ->
  exists v', (rtc_vec_reserve alloc m v = (v', Ok ()) /\ vec_repr v' l /\ m <= cap v' /\ cap v <= cap v') \/
             (rtc_vec_reserve alloc m v = (v', Err RTC_ERR_NOMEM) /\ v' = v).
Proof.
  intros Hv Hm. pose proof (vec_cap_max _ _ Hv) as (? & ? & ?). pose proof Hv as [].
  unfold rtc_vec_reserve. rewrite st_bind_eq. cbn [get].
  rewrite (proj2 (Z.eqb_neq (elem_size v) 0)) by lia. rewrite st_bind_eq. cbn [lift fail_if].
  destruct (Z.leb_spec m (cap v)); [exists v; left; split_and!; auto; lia|].
  rewrite st_bind_eq. cbn [lift].
  assert (exists j, 3 <= j <= 63 /\ cap v <= 2 ^ j /\
    (if cap v =? 0 then RTC_VEC_INITIAL_CAP else cap v) = 2 ^ j) as (j & Hj & Hcj & ->).
  { destruct vr_pow0 as [E|(j & Hj & E)]; rewrite E; [exists 3; split_and!; [lia..|done]|].
    exists j. split_and!; [lia..|]. rewrite (proj2 (Z.eqb_neq _ _)); [done|].
    pose proof (Z.pow_pos_nonneg 2 j). lia. }
  destruct (grow_loop_ok 64 j m) as [(j' & -> & ? & ?)|[-> _]]; [lia|lia|simpl; lia| |exists v; auto].
  pose proof (Z.pow_le_mono_r 2 j j'). rewrite st_bind_eq. cbn [lift].
  destruct (Z.ltb_spec (SIZE_MAX / elem_size v) (2 ^ j')); cbn [fail_if]; [exists v; auto|].
  rewrite st_bind_eq. cbn [lift]. destruct alloc; cbn [negb fail_if]; [|exists v; auto].
  eexists. left. split; [done|]. destruct (vec_split v l Hv) as (rest & Hd & Hr).
  rewrite Hd, <-app_assoc, vr_len0. cbn [cap]. split; [|lia].
  apply vec_repr_intro; [|done| |].
  - rewrite blen_app, blen_replicate. lia.
  - assert (2 ^ j' * elem_size v <= SIZE_MAX / elem_size v * elem_size v) by nia.
    pose proof (Z.mul_div_le SIZE_MAX (elem_size v)). lia.
  - right. exists j'. split; [lia|done].
Qed.

(** [push] once there is room *)
Definition store (x : A) : st rtc_vec_t unit :=
  v ← get;
  d ← lift (wr (data v) (len v) (Some x));
  put (Vec d (u64 (len v + 1)) (cap v) (elem_size v)).

Lemma store_spec v l x :
  vec_repr v l -> len v < cap v ->
  exists v', store x v = (v', Ok ()) /\ vec_repr v' (l ++ [x]).
Proof.
  intros Hv Hroom. pose proof (vec_cap_max _ _ Hv) as (? & ? & ?). pose proof Hv as [].
  unfold store. rewrite st_bind_eq. cbn [get].
  assert (Hin : 0 <= len v < blen (data v)) by lia.
  rewrite (st_bind_lift _ _ _ _ (wr_Ok _ _ _ Hin)).
  eexists. split; [done|]. rewrite u64_id by lia.
  destruct (vec_split v l Hv) as (rest & Hd & Hr). destruct rest as [|r rest]; [rewrite blen_nil in Hr; lia|].
  rewrite blen_cons in Hr. rewrite Hd.
  replace (Z.to_nat (len v)) with (length (Some <$> l) + 0)%nat
    by (rewrite vr_len0, length_fmap; unfold blen; lia).
  rewrite insert_app_r. cbn [insert list_insert].
  replace ((Some <$> l) ++ Some x :: rest) with ((Some <$> (l ++ [x])) ++ rest)
    by (rewrite fmap_app; simpl; by rewrite <-app_assoc).
  replace (len v + 1) with (blen (l ++ [x])) by (lens; lia).
  apply vec_repr_intro; [lens; lia|done|done|done].
Qed.

Lemma push_is_store alloc x :
  rtc_vec_push alloc x =
  (v ← get; _ ← lift (fail_if (elem_size v =? 0) RTC_ERR_INVALID);
   _ ← (if cap v <=? len v then rtc_vec_reserve alloc (u64 (len v + 1)) else mret ());
   store x).
Proof. done. Qed.

Lemma push_spec v l alloc x :
  vec_repr v l ->
  exists v', (rtc_vec_push alloc x v = (v', Ok ()) /\ vec_repr v' (l ++ [x])) \/
             (rtc_vec_push alloc x v = (v', Err RTC_ERR_NOMEM) /\ v' = v).
Proof.
  intros Hv. pose proof (vec_cap_max _ _ Hv) as (? & ? & ?). pose proof Hv as [].
  rewrite push_is_store, st_bind_eq. cbn [get].
  rewrite (proj2 (Z.eqb_neq (elem_size v) 0)) by lia. rewrite st_bind_eq. cbn [lift fail_if].
  rewrite st_bind_eq. destruct (Z.leb_spec (cap v) (len v)).
  - rewrite u64_id by lia.
    destruct (reserve_spec v l alloc (len v + 1) Hv) as (v1 & [(-> & Hv1 & Hm & _)|[-> ->]]); [lia| |eauto].
    destruct (store_spec v1 l x Hv1) as (v' & ? & ?); [pose proof Hv1 as []; lia|]. eauto.
  - destruct (store_spec v l x Hv) as (v' & ? & ?); [lia|]. eauto.
Qed.

Lemma store_esz x v v' r : store x v = (v', r) -> r = Ok () -> elem_size v' = elem_size v.
Proof.
  unfold store. rewrite st_bind_eq. cbn [get]. rewrite st_bind_eq. unfold lift.
  destruct (wr _ _ _); cbn; intros [= <- <-]; done.
Qed.

(** growing a small vector by one cell needs at most one doubling *)
Lemma reserve_small v l :
  vec_repr v l -> cap v = len v -> elem_size v <= 2 ^ 16 -> blen l < 2 ^ 20 ->
  exists v', rtc_vec_reserve true (len v + 1) v = (v', Ok ()) /\ elem_size v' = elem_size v.
Proof.
  intros Hv Hc He Hl. pose proof (blen_nonneg l). pose proof Hv as []. unfold rtc_vec_reserve. rewrite st_bind_eq. cbn [get].
  rewrite (proj2 (Z.eqb_neq (elem_size v) 0)) by lia. rewrite st_bind_eq. cbn [lift fail_if].
  rewrite (proj2 (Z.leb_gt (len v + 1) (cap v))) by lia.
  assert (exists c, grow_loop 64 (if cap v =? 0 then RTC_VEC_INITIAL_CAP else cap v) (len v + 1) = Ok c /\
    8 <= c < 2 ^ 22) as (c & Ec & Hlt).
  { destruct (Z.eqb_spec (cap v) 0) as [E|E].
    - exists 8. replace (len v) with 0 by lia. split; [done|lia].
    - assert (8 <= cap v).
      { destruct vr_pow0 as [?|(j & Hj & Ej)]; [lia|]. rewrite Ej. apply (Z.pow_le_mono_r 2 3 j); lia. }
      exists (cap v * 2). cbn [grow_loop]. rewrite (proj2 (Z.ltb_lt (cap v) (len v + 1))) by lia.
      rewrite (proj2 (Z.ltb_ge (SIZE_MAX / 2) (cap v))) by (change (SIZE_MAX / 2) with (2 ^ 63 - 1); lia).
      cbn [fail_if mbind res_bind]. rewrite u64_id by lia.
      rewrite (proj2 (Z.ltb_ge (cap v * 2) (len v + 1))) by lia. split; [done|lia]. }
  rewrite (st_bind_lift _ _ _ _ Ec).
  rewrite (proj2 (Z.ltb_ge (SIZE_MAX / elem_size v) c)).
  2: { apply Z.div_le_lower_bound; [lia|]. unfold SIZE_MAX. nia. }
  rewrite st_bind_eq. cbn [lift fail_if]. rewrite st_bind_eq. cbn [lift fail_if negb put]. eexists. split; done.
Qed.

(** a push on a small vector succeeds when the allocation does *)
Lemma push_small v l x :
  vec_repr v l -> elem_size v <= 2 ^ 16 -> blen l < 2 ^ 20 ->
  exists v', rtc_vec_push true x v = (v', Ok ()) /\ vec_repr v' (l ++ [x]) /\ elem_size v' = elem_size v.
Proof.
  intros Hv He Hl. pose proof (blen_nonneg l). pose proof Hv as [].
  destruct (push_spec v l true x Hv) as (v' & [[E Hv']|[E ->]]).
  - exists v'. split_and!; [done..|]. rewrite push_is_store, st_bind_eq in E. cbn [get] in E.
    rewrite (proj2 (Z.eqb_neq (elem_size v) 0)) in E by lia. rewrite st_bind_eq in E. cbn [lift fail_if] in E.
    rewrite st_bind_eq in E. destruct (Z.leb_spec (cap v) (len v)).
    + rewrite u64_id in E by lia.
      destruct (reserve_small v l Hv) as (v1 & E1 & H1); [lia..|]. rewrite E1 in E.
      rewrite (store_esz _ _ _ _ E eq_refl). done.
    + by rewrite (store_esz _ _ _ _ E eq_refl).
  - exfalso. rewrite push_is_store, st_bind_eq in E. cbn [get] in E.
    rewrite (proj2 (Z.eqb_neq (elem_size v) 0)) in E by lia. rewrite st_bind_eq in E. cbn [lift fail_if] in E.
    rewrite st_bind_eq in E. destruct (Z.leb_spec (cap v) (len v)).
    + rewrite u64_id in E by lia.
      destruct (reserve_spec v l true (len v + 1) Hv) as (v1 & [(E1 & Hv1 & Hm & _)|[E1 _]]); [lia| |].
      * rewrite E1 in E. destruct (store_spec v1 l x Hv1) as (? & E2 & _); [pose proof Hv1 as []; lia|].
        rewrite E2 in E. done.
      * destruct (reserve_small v l Hv) as (v2 & E2 & _); [lia..|]. congruence.
    + destruct (store_spec v l x Hv) as (? & E2 & _); [lia|]. cbn in E. rewrite E2 in E. done.
Qed.

Lemma at_spec v l i :
  vec_repr v l -> 0 <= i -> rtc_vec_at v i = Ok (Some <$> (l !! Z.to_nat i)).
Proof.
  intros Hv Hi. pose proof Hv as []. destruct (vec_split v l Hv) as (rest & Hd & Hr). unfold rtc_vec_at.
  destruct (Z.leb_spec (len v) i).
  - rewrite orb_true_r, lookup_ge_None_2 by (unfold blen in *; lia). done.
  - rewrite (proj2 (Z.eqb_neq (cap v) 0)) by lia. simpl. rewrite Hd.
    destruct (lookup_lt_is_Some_2 l (Z.to_nat i)) as [x Hx]; [unfold blen in *; lia|].
    rewrite (bind_Ok_l _ _ (Some x)); [by rewrite Hx|]. apply rd_Ok. split; [lia|].
    rewrite lookup_app_l by (rewrite length_fmap; by eapply lookup_lt_Some).
    rewrite list_lookup_fmap, Hx. done.
Qed.

Lemma vec_remove_spec v l i :
  vec_repr v l -> 0 <= i ->
  exists v', rtc_vec_remove i v = (v', Ok ()) /\ vec_repr v' (delete (Z.to_nat i) l).
Proof.
  intros Hv Hi. pose proof (vec_cap_max _ _ Hv) as (? & ? & ?). pose proof Hv as [].
  unfold rtc_vec_remove. rewrite st_bind_eq. cbn [get].
  destruct (Z.leb_spec (len v) i) as [Hge|Hlt].
  { exists v. split; [done|]. rewrite delete_take_drop, take_ge, drop_ge, app_nil_r; [done|unfold blen in *; lia..]. }
  destruct (vec_split v l Hv) as (rest & Hd & Hr).
  destruct (lookup_lt_is_Some_2 l (Z.to_nat i)) as [x Hx]; [unfold blen in *; lia|].
  pose proof (take_drop_middle l _ _ Hx) as Hl.
  set (a := take (Z.to_nat i) l) in *. set (b := drop (S (Z.to_nat i)) l) in *.
  assert (Ha : blen a = i) by (unfold blen; subst a; rewrite length_take; unfold blen in *; lia).
  assert (Hb : blen l = i + 1 + blen b) by (rewrite <-Hl; lens; lia).
  assert (Hdel : delete (Z.to_nat i) l = a ++ b) by apply delete_take_drop.
  assert (Hdata : data v = (Some <$> a) ++ Some x :: (Some <$> b) ++ rest)
    by (rewrite Hd, <-Hl, fmap_app; simpl; by rewrite <-app_assoc).
  assert (Hn : Z.to_nat i = length (Some <$> a)) by (rewrite length_fmap; unfold blen in Ha; lia).
  pose proof (blen_nonneg b). cbv zeta. rewrite st_bind_eq.
  assert (exists d rest', (if 0 <? len v - i - 1 then
      moved ← lift (sub (data v) (i + 1) (len v - i - 1));
      mret (take (Z.to_nat i) (data v) ++ moved ++ drop (Z.to_nat (i + (len v - i - 1))) (data v))
    else mret (data v)) v = (v, Ok d) /\ d = (Some <$> (a ++ b)) ++ rest' /\
      blen rest' = blen rest + 1) as (d & rest' & -> & -> & Hrest').
  { destruct (Z.ltb_spec 0 (len v - i - 1)).
    - assert (Hs : sub (data v) (i + 1) (len v - i - 1) = Ok (Some <$> b)).
      { rewrite Hdata, cons_middle, app_assoc. apply sub_mid; rewrite ?blen_app, ?blen_fmap; lens; lia. }
      rewrite (st_bind_lift _ _ _ _ Hs). eexists _, _. split; [done|]. rewrite Hdata at 1. rewrite Hn at 1.
      rewrite take_app_length, fmap_app, <-app_assoc. split; [done|].
      unfold blen. rewrite length_drop. unfold blen in *. lia.
    - assert (b = []) as -> by (destruct b; [done|lens; pose proof (blen_nonneg b); lia]).
      eexists _, (Some x :: rest). split; [done|]. rewrite Hdata, app_nil_r. split; [done|lens; lia]. }
  eexists. split; [done|]. rewrite u64_id by lia. rewrite Hdel.
  replace (len v - 1) with (blen (a ++ b)) by (lens; lia).
  apply vec_repr_intro; [lens; lia|done|done|done].
Qed.

(** [swap_remove] on lists: the last element takes the removed one's place *)
Definition list_swap_remove (l : list A) (i : nat) : list A :=
  match list.last l with
  | Some x => if decide (i < length l)%nat then take (length l - 1) (<[i := x]> l) else l
  | None => l
  end.

Lemma swap_remove_spec v l i :
  vec_repr v l -> 0 <= i ->
  exists v', rtc_vec_swap_remove i v = (v', Ok ()) /\ vec_repr v' (list_swap_remove l (Z.to_nat i)).
Proof.
  intros Hv Hi. pose proof (vec_cap_max _ _ Hv) as (? & ? & ?). pose proof Hv as [].
  unfold rtc_vec_swap_remove, list_swap_remove. rewrite st_bind_eq. cbn [get].
  destruct (Z.leb_spec (len v) i) as [Hge|Hlt].
  { exists v. split; [done|]. destruct (list.last l); [|done]. rewrite decide_False; [done|].
    unfold blen in *. lia. }
  destruct (vec_split v l Hv) as (rest & Hd & Hr).
  destruct (list.last l) as [x|] eqn:El.
  2:{ apply last_None in El. subst l. unfold blen in *. simpl in *. lia. }
  pose proof El as Ell. apply last_Some in El as [l0 ->]. rewrite decide_True by (unfold blen in *; lia).
  rewrite blen_app in *. change (blen [x]) with 1 in *.
  assert (Hlen : (length (l0 ++ [x]) - 1 = length l0)%nat) by (rewrite length_app; simpl; lia).
  rewrite Hlen.
  assert (Hlast : rd (data v) (len v - 1) = Ok (Some x)).
  { rewrite Hd, fmap_app. simpl. rewrite <-app_assoc. simpl. rewrite rd_app_r by (rewrite blen_fmap; lia).
    rewrite blen_fmap. by replace (len v - 1 - blen l0) with 0 by lia. }
  cbv zeta. rewrite st_bind_eq.
  assert (exists r0 rest', (if negb (i =? len v - 1) then
      c ← lift (rd (data v) (len v - 1)); lift (wr (data v) i c) else mret (data v)) v
    = (v, Ok ((Some <$> take (length l0) (<[Z.to_nat i := x]> (l0 ++ [x]))) ++ r0 :: rest')) /\
    blen rest' = blen rest) as (r0 & rest' & -> & Hrest').
  { destruct (Z.eqb_spec i (len v - 1)) as [Heq|Hne]; cbn [negb].
    - exists (Some x), rest. split; [|done]. unfold mret, st_ret. do 2 f_equal. rewrite Hd.
      replace (Z.to_nat i) with (length l0 + 0)%nat by (unfold blen in *; lia).
      rewrite insert_app_r. simpl. rewrite take_app_length, fmap_app. simpl. by rewrite <-app_assoc.
    - exists (Some x), rest. split; [|done]. rewrite (st_bind_lift _ _ _ _ Hlast).
      assert (Hin : 0 <= i < blen (data v)) by lia. unfold lift. rewrite (wr_Ok _ _ _ Hin). do 2 f_equal.
      rewrite Hd. assert ((Z.to_nat i < length l0)%nat) by (unfold blen in *; lia).
      rewrite !insert_app_l by (rewrite ?length_fmap, ?length_app; simpl; lia).
      rewrite take_app_le, take_ge by (rewrite length_insert; lia).
      rewrite <-list_fmap_insert, insert_app_l by lia. rewrite fmap_app. simpl. by rewrite <-app_assoc. }
  eexists. split; [done|]. rewrite u64_id by lia.
  set (l' := take (length l0) (<[Z.to_nat i := x]> (l0 ++ [x]))).
  assert (Hl' : blen l' = blen l0).
  { subst l'. unfold blen. rewrite length_take, length_insert, length_app. simpl. lia. }
  replace (len v - 1) with (blen l') by lia. apply vec_repr_intro; [|done|done|done].
  rewrite blen_cons. lia.
Qed.
End Ops.
Arguments rtc_vec_t A : clear implicits.

(** ** Sequences of calls *)

Section Trace.
Context {A : Type}.

Inductive call :=
  | CPush (alloc : bool) (x : A)
  | CReserve (alloc : bool) (n : Z)
  | CAt (i : Z)
  | CLen
  | CRemove (i : Z)
  | CSwapRemove (i : Z)
  | CClear.

Inductive answer :=
  | ARc (rc : res unit) | AAt (r : res (option (option A))) | ALen (n : Z).

Definition do_call (c : call) (v : rtc_vec_t A) : rtc_vec_t A * answer :=
  match c with
  | CPush a x => let '(v', r) := rtc_vec_push a x v in (v', ARc r)
  | CReserve a n => let '(v', r) := rtc_vec_reserve a n v in (v', ARc r)
  | CAt i => (v, AAt (rtc_vec_at v i))
  | CLen => (v, ALen (rtc_vec_len v))
  | CRemove i => let '(v', r) := rtc_vec_remove i v in (v', ARc r)
  | CSwapRemove i => let '(v', r) := rtc_vec_swap_remove i v in (v', ARc r)
  | CClear => (rtc_vec_clear v, ARc (Ok ()))
  end.

Fixpoint do_calls (cs : list call) (v : rtc_vec_t A) : list answer :=
  match cs with
  | [] => []
  | c :: rest => let '(v', a) := do_call c v in a :: do_calls rest v'
  end.

(** indices are size_t values *)
Definition call_ok (c : call) : Prop :=
  match c with
  | CReserve _ n => 0 <= n < 2 ^ 64
  | CAt i | CRemove i | CSwapRemove i => 0 <= i
  | _ => True
  end.

(** The answers a list gives. *)
Fixpoint explained (l : list A) (cs : list call) (answers : list answer) : Prop :=
  match cs, answers with
  | [], [] => True
  | c :: cs, a :: answers =>
      match c, a with
      | CPush _ x, ARc (Ok _) => explained (l ++ [x]) cs answers
      | CPush _ _, ARc (Err e) | CReserve _ _, ARc (Err e) =>
          e = RTC_ERR_NOMEM /\ explained l cs answers
      | CReserve _ _, ARc (Ok _) => explained l cs answers
      | CAt i, AAt r => r = Ok (Some <$> (l !! Z.to_nat i)) /\ explained l cs answers
      | CLen, ALen n => n = blen l /\ explained l cs answers
      | CRemove i, ARc (Ok _) => explained (delete (Z.to_nat i) l) cs answers
      | CSwapRemove i, ARc (Ok _) => explained (list_swap_remove l (Z.to_nat i)) cs answers
      | CClear, ARc (Ok _) => explained [] cs answers
      | _, _ => False
      end
  | _, _ => False
  end.

Lemma vec_calls_explained cs : forall v l,
  vec_repr v l -> Forall call_ok cs -> explained l cs (do_calls cs v).
Proof.
  induction cs as [|c cs IH]; intros v l Hv HF; simpl; [done|].
  apply Forall_cons_1 in HF as [Hc HF]. destruct c as [a x|a n|i| |i|i|]; simpl in Hc |- *.
  - destruct (push_spec v l a x Hv) as (v' & [[-> ?]|[-> ->]]); auto.
  - destruct (reserve_spec v l a n Hv Hc) as (v' & [(-> & ? & _)|[-> ->]]); auto.
  - rewrite (at_spec v l i Hv Hc). auto.
  - split; [apply Hv|auto].
  - destruct (vec_remove_spec v l i Hv Hc) as (v' & -> & ?). auto.
  - destruct (swap_remove_spec v l i Hv Hc) as (v' & -> & ?). auto.
  - apply IH; [|done]. pose proof (vec_cap_max _ _ Hv) as (? & ? & ?). destruct Hv. by split.
Qed.

(** The dynamic array is a list.  On every sequence of push, reserve,
    at, len, remove, swap_remove and clear calls on a vector initialised
    with a positive element size, with any allocation failures, every answer
    is the one a list gives; no access leaves the buffer and the growth loop
    always ends. *)
Theorem vec_refines_list esz v cs :
  0 < esz < 2 ^ 64 -> rtc_vec_init esz = Ok v -> Forall call_ok cs ->
  explained [] cs (do_calls cs v).
Proof.
  intros He Hi. unfold rtc_vec_init in Hi. rewrite (proj2 (Z.eqb_neq esz 0)) in Hi by lia.
  injection Hi as <-. apply vec_calls_explained. split; simpl; auto; unfold SIZE_MAX; lia.
Qed.
End Trace.

Lemma vec_refines_list_witness :
  explained [] [CPush true 5; CPush true 6; CPush true 7; CRemove 0; CSwapRemove 0; CAt 0; CAt 1]
    (do_calls [CPush true 5; CPush true 6; CPush true 7; CRemove 0; CSwapRemove 0; CAt 0; CAt 1]
       (Vec [] 0 0 8)).
Proof.
  apply (vec_refines_list 8 (Vec [] 0 0 8)).
  - lia.
  - reflexivity.
  - repeat constructor; vm_compute; congruence.
Defined.

End Vec.
