(* ===== verification/NackBuf.v ===== *)
(** * The retransmission buffer (rtc/src/rtc_nack_buf.c) *)

From S2P Require Import Prelude.
From Stdlib Require Import ZArith Lia.
From stdpp Require Import base list numbers.
#[local] Open Scope Z_scope.

Module NackBuf.

Definition NACK_BUF_DEFAULT_SIZE : Z := 512.
Definition NACK_BUF_MAX_PKT_SIZE : Z := 1500.
Definition RTC_NACK_MAX_RETRANSMITS : Z := 10.

(** [data]: the first [len] bytes of the slot's array *)
Record rtc_nack_slot_t := Slot {
  data : bytes; seq : Z; twcc_seq : Z; retransmit_count : Z; has_twcc : bool; used : bool
}.
Definition slot_zero : rtc_nack_slot_t := Slot [] 0 0 0 false false.

Record rtc_nack_buf_t := Buf { slots : list rtc_nack_slot_t; capacity : Z; mask : Z }.

(** arithmetic on int; [v >> n] is arithmetic *)
Definition next_pow2 (v : Z) : Z :=
  let v := v - 1 in
  let v := Z.lor v (Z.shiftr v 1) in
  let v := Z.lor v (Z.shiftr v 2) in
  let v := Z.lor v (Z.shiftr v 4) in
  let v := Z.lor v (Z.shiftr v 8) in
  let v := Z.lor v (Z.shiftr v 16) in
  let v := v + 1 in
  if v <? 2 then 2 else v.

(** [None]: one of the two allocations failed *)
Definition rtc_nack_buf_create (alloc_buf alloc_slots : bool) (max_packets : Z) : option rtc_nack_buf_t :=
  let max_packets := if max_packets <=? 0 then NACK_BUF_DEFAULT_SIZE else max_packets in
  if negb alloc_buf then None
  else
    let cap := next_pow2 max_packets in
    if negb alloc_slots then None
    else Some (Buf (replicate (Z.to_nat cap) slot_zero) cap (cap - 1)).

(** the buffer after the call; packets of a bad length are ignored *)
Definition rtc_nack_buf_store (buf : rtc_nack_buf_t) (pkt : bytes) (sq : Z) (twcc : bool) (tw : Z)
    : res rtc_nack_buf_t :=
  if (blen pkt =? 0) || (NACK_BUF_MAX_PKT_SIZE <? blen pkt) then Ok buf
  else
    let idx := Z.land sq (mask buf) in
    s ← wr (slots buf) idx (Slot pkt sq tw 0 twcc true);
    Ok (Buf s (capacity buf) (mask buf)).

Definition rtc_nack_buf_get (buf : rtc_nack_buf_t) (sq : Z) : res (option bytes) :=
  let idx := Z.land sq (mask buf) in
  slot ← rd (slots buf) idx;
  if negb (used slot) || negb (seq slot =? sq) then Ok None else Ok (Some (data slot)).

(** the packet to send and its transport-cc number (0: none) *)
Definition rtc_nack_buf_retransmit (sq : Z) : st rtc_nack_buf_t (option (bytes * Z)) :=
  buf ← get;
  let idx := Z.land sq (mask buf) in
  slot ← lift (rd (slots buf) idx);
  if negb (used slot) || negb (seq slot =? sq) then mret None
  else if RTC_NACK_MAX_RETRANSMITS <=? retransmit_count slot then mret None
  else
    s ← lift (wr (slots buf) idx (Slot (data slot) (seq slot) (twcc_seq slot)
                (u8 (retransmit_count slot + 1)) (has_twcc slot) (used slot)));
    _ ← put (Buf s (capacity buf) (mask buf));
    mret (Some (data slot, if has_twcc slot then twcc_seq slot else 0)).

(** ** The rounding to a power of two *)

(** bit [i] of [y] is the disjunction of [w] consecutive bits of [x] *)
Definition smeared (x y w : Z) : Prop :=
  forall i, 0 <= i -> Z.testbit y i = true <-> exists j, i <= j < i + w /\ Z.testbit x j = true.

Lemma smear_step x y w : 0 < w -> smeared x y w -> smeared x (Z.lor y (Z.shiftr y w)) (2 * w).
Proof.
  intros Hw Hs i Hi. rewrite Z.lor_spec, Z.shiftr_spec, orb_true_iff, (Hs i), (Hs (i + w)) by lia.
  split.
  - intros [(j & ? & ?)|(j & ? & ?)]; exists j; split; auto; lia.
  - intros (j & Hj & Hb). destruct (Z.lt_ge_cases j (i + w)); [left|right]; exists j; split; auto; lia.
Qed.

Lemma smear_ones x y w :
  0 < x -> Z.log2 x < w -> smeared x y w -> 0 <= y -> y = Z.ones (Z.log2 x + 1).
Proof.
  intros Hx Hw Hs Hy. pose proof (Z.log2_nonneg x). apply Z.bits_inj_iff'. intros i Hi.
  apply eq_true_iff_eq. rewrite (Hs i Hi). destruct (Z.lt_ge_cases i (Z.log2 x + 1)).
  - rewrite Z.ones_spec_low by lia. split; [done|]. intros _. exists (Z.log2 x).
    split; [lia|]. by apply Z.bit_log2.
  - rewrite Z.ones_spec_high by lia. split; [|done]. intros (j & Hj & Hb).
    rewrite Z.bits_above_log2 in Hb by lia. done.
Qed.

Lemma lor_shiftr_nonneg y w : 0 <= y -> 0 <= Z.lor y (Z.shiftr y w).
Proof. intros. apply Z.lor_nonneg. split; [done|]. by apply Z.shiftr_nonneg. Qed.

Lemma next_pow2_spec v :
  1 <= v <= 2 ^ 30 ->
  exists k, 1 <= k <= 30 /\ next_pow2 v = 2 ^ k /\ v <= 2 ^ k /\ (2 < 2 ^ k -> 2 ^ k < 2 * v).
Proof.
  intros Hv. destruct (decide (v = 1)) as [->|]; [exists 1; repeat split; vm_compute; congruence|].
  set (x := v - 1). assert (Hx : 0 < x < 2 ^ 30) by (subst x; lia).
  pose proof (Z.log2_spec x ltac:(lia)) as [Hlo Hhi]. pose proof (Z.log2_nonneg x).
  assert (Z.log2 x < 30) by (apply Z.log2_lt_pow2; lia).
  exists (Z.log2 x + 1). rewrite Z.pow_succ_r in Hhi by lia. rewrite Z.pow_add_r by lia.
  change (2 ^ 1) with 2. split; [lia|].
  assert (next_pow2 v = 2 ^ (Z.log2 x + 1)) as ->.
  2:{ rewrite Z.pow_add_r by lia. subst x. lia. }
  unfold next_pow2. fold x. cbv zeta.
  assert (E : forall z, smeared x z 32 -> 0 <= z -> z + 1 = 2 ^ (Z.log2 x + 1)).
  { intros z Hz Hz0. rewrite (smear_ones x z 32), Z.ones_equiv by (auto; lia). lia. }
  rewrite E.
  - rewrite (proj2 (Z.ltb_ge _ 2)); [done|]. pose proof (Z.pow_le_mono_r 2 1 (Z.log2 x + 1)). lia.
  - apply (smear_step x _ 16); [lia|]. apply (smear_step x _ 8); [lia|]. apply (smear_step x _ 4); [lia|].
    apply (smear_step x _ 2); [lia|]. apply (smear_step x _ 1); [lia|].
    intros i Hi. split; [intros; exists i; split; [lia|done]|]. intros (j & Hj & Hb).
    by replace i with j by lia.
  - do 5 apply lor_shiftr_nonneg. lia.
Qed.

(** ** The buffer *)

Record buf_ok (b : rtc_nack_buf_t) : Prop := {
  bo_pow : exists k, 1 <= k <= 30 /\ capacity b = 2 ^ k;
  bo_mask : mask b = capacity b - 1;
  bo_slots : blen (slots b) = capacity b
}.

Definition pkt_ok (p : bytes) : Prop := 0 < blen p <= NACK_BUF_MAX_PKT_SIZE.

Lemma create_ok max_packets b :
  max_packets <= 2 ^ 30 -> rtc_nack_buf_create true true max_packets = Some b -> buf_ok b.
Proof.
  unfold rtc_nack_buf_create, NACK_BUF_DEFAULT_SIZE. intros Hm [= <-].
  destruct (next_pow2_spec (if max_packets <=? 0 then 512 else max_packets)) as (k & Hk & -> & _).
  { destruct (Z.leb_spec max_packets 0); lia. }
  split; simpl; eauto. rewrite blen_replicate. apply Z2Nat.id, Z.pow_nonneg. lia.
Qed.

Lemma idx_mod b s : buf_ok b -> Z.land s (mask b) = s mod capacity b.
Proof.
  intros [(k & Hk & Hc) Hm _]. rewrite Hm, Hc. apply land_mask; [lia|]. rewrite Z.ones_equiv. lia.
Qed.

Lemma idx_range b s : buf_ok b -> 0 <= s mod capacity b < blen (slots b).
Proof. intros [(k & Hk & Hc) _ ->]. rewrite Hc. apply Z.mod_pos_bound. lia. Qed.

Lemma store_run b p s tw t :
  buf_ok b -> pkt_ok p ->
  exists b', rtc_nack_buf_store b p s tw t = Ok b' /\ buf_ok b' /\ capacity b' = capacity b /\
    rd (slots b') (s mod capacity b) = Ok (Slot p s t 0 tw true) /\
    forall i, i <> s mod capacity b -> rd (slots b') i = rd (slots b) i.
Proof.
  intros Hb [Hp1 Hp2]. unfold rtc_nack_buf_store.
  rewrite (proj2 (Z.eqb_neq (blen p) 0)), (proj2 (Z.ltb_ge NACK_BUF_MAX_PKT_SIZE (blen p))) by lia.
  cbn [orb]. cbv zeta. rewrite (idx_mod b s Hb). pose proof (idx_range b s Hb) as Hr.
  rewrite wr_Ok by done. eexists. split; [done|]. destruct Hb as [Hpow Hm Hs].
  split_and!; [split; simpl; auto; unfold blen in *; by rewrite length_insert|done|..]; simpl.
  - unfold rd. rewrite (proj2 (Z.ltb_ge _ 0)) by lia.
    rewrite list_lookup_insert_eq; [done|]. unfold blen in Hr. lia.
  - intros i Hi. unfold rd. destruct (Z.ltb_spec i 0); [done|].
    rewrite list_lookup_insert_ne; [done|]. lia.
Qed.

(** storing packets under consecutive sequence numbers *)
Fixpoint store_all (b : rtc_nack_buf_t) (s : Z) (pkts : list bytes) : res rtc_nack_buf_t :=
  match pkts with
  | [] => Ok b
  | p :: rest => b' ← rtc_nack_buf_store b p (u16 s) false 0; store_all b' (s + 1) rest
  end.

Lemma u16_mod_cap b s : buf_ok b -> capacity b <= 2 ^ 16 -> u16 s mod capacity b = s mod capacity b.
Proof.
  intros [(k & Hk & Hc) _ _] Hcap. rewrite Hc in *. unfold u16.
  assert (k <= 16) by (apply (Z.pow_le_mono_r_iff 2); lia).
  replace 16 with (k + (16 - k)) by lia. rewrite Z.pow_add_r by lia.
  apply Z.mod_mod_divide. exists (2 ^ (16 - k)). lia.
Qed.

Lemma mod_ne c x y : 0 < c -> x < y < x + c -> x mod c <> y mod c.
Proof.
  intros Hc Hxy E. assert (Hd : (y - x) mod c = 0).
  { rewrite Zminus_mod, E, Z.sub_diag. by rewrite Z.mod_0_l by lia. }
  rewrite Z.mod_small in Hd by lia. lia.
Qed.

(** a slot survives stores that stay less than [capacity] ahead of it *)
Lemma store_all_keeps pkts : forall b s i x,
  buf_ok b -> capacity b <= 2 ^ 16 -> Forall pkt_ok pkts ->
  i < s -> s + blen pkts <= i + capacity b ->
  rd (slots b) (i mod capacity b) = Ok x ->
  exists b', store_all b s pkts = Ok b' /\ buf_ok b' /\ capacity b' = capacity b /\
    rd (slots b') (i mod capacity b) = Ok x.
Proof.
  induction pkts as [|p pkts IH]; intros b s i x Hb Hc HF Hi Hn Hx; simpl; [eauto|].
  apply Forall_cons_1 in HF as [Hp HF]. rewrite blen_cons in Hn. pose proof (blen_nonneg pkts).
  destruct (store_run b p (u16 s) false 0 Hb Hp) as (b1 & -> & Hb1 & Hc1 & _ & Hoth). simpl.
  rewrite u16_mod_cap in Hoth by done. rewrite <-Hc1 in *.
  apply IH; auto; [lia|lia|]. rewrite Hoth; [done|]. apply mod_ne; [|lia].
  destruct (bo_pow _ Hb1) as (k & ? & ->). lia.
Qed.

Lemma get_stored b s x :
  buf_ok b -> capacity b <= 2 ^ 16 -> rd (slots b) (s mod capacity b) = Ok x ->
  used x = true -> seq x = u16 s -> rtc_nack_buf_get b (u16 s) = Ok (Some (data x)).
Proof.
  intros Hb Hc Hr Hu Hs. unfold rtc_nack_buf_get. rewrite idx_mod, u16_mod_cap by done.
  step Hr. by rewrite Hu, Hs, Z.eqb_refl.
Qed.

(** ** Retransmission *)

(** the results of [n] requests for one sequence number *)
Fixpoint retransmits (n : nat) (s : Z) (b : rtc_nack_buf_t) : list (res (option (bytes * Z))) :=
  match n with
  | O => []
  | S n => let '(b', r) := rtc_nack_buf_retransmit s b in r :: retransmits n s b'
  end.

Lemma retransmit_run b s p t tw c :
  buf_ok b -> rd (slots b) (s mod capacity b) = Ok (Slot p s t c tw true) -> 0 <= c <= 10 ->
  if c <? 10 then
    exists b', rtc_nack_buf_retransmit s b = (b', Ok (Some (p, if tw then t else 0))) /\
      buf_ok b' /\ capacity b' = capacity b /\
      rd (slots b') (s mod capacity b) = Ok (Slot p s t (c + 1) tw true) /\
      (forall i, i <> s mod capacity b -> rd (slots b') i = rd (slots b) i)
  else rtc_nack_buf_retransmit s b = (b, Ok None).
Proof.
  intros Hb Hr Hc. unfold rtc_nack_buf_retransmit, RTC_NACK_MAX_RETRANSMITS.
  rewrite st_bind_eq. cbn [get]. cbv zeta. rewrite idx_mod by done.
  rewrite (st_bind_lift _ _ _ _ Hr). cbn [used seq]. rewrite Z.eqb_refl. cbn [negb orb retransmit_count].
  destruct (Z.ltb_spec c 10); [|by rewrite (proj2 (Z.leb_le 10 c)) by lia].
  rewrite (proj2 (Z.leb_gt 10 c)) by lia. pose proof (idx_range b s Hb) as Hi.
  rewrite (st_bind_lift _ _ _ _ (wr_Ok _ _ _ Hi)). rewrite st_bind_eq. cbn [put].
  eexists. split; [done|]. destruct Hb as [Hpow Hm Hs].
  split_and!; [split; simpl; auto; unfold blen in *; by rewrite length_insert|done|..]; simpl.
  - unfold rd. rewrite (proj2 (Z.ltb_ge _ 0)) by lia.
    rewrite list_lookup_insert_eq by (unfold blen in Hi; lia).
    unfold u8. rewrite Z.mod_small by lia. done.
  - intros i Hne. unfold rd. destruct (Z.ltb_spec i 0); [done|].
    rewrite list_lookup_insert_ne; [done|]. lia.
Qed.

Lemma retransmits_run n : forall b s p t tw c,
  buf_ok b -> rd (slots b) (s mod capacity b) = Ok (Slot p s t c tw true) -> 0 <= c <= 10 ->
  retransmits n s b =
    replicate (Nat.min n (Z.to_nat (10 - c))) (Ok (Some (p, if tw : bool then t else 0)))
    ++ replicate (n - Z.to_nat (10 - c)) (Ok None).
Proof.
  induction n as [|n IH]; intros b s p t tw c Hb Hr Hc; [done|]. cbn [retransmits].
  pose proof (retransmit_run b s p t tw c Hb Hr Hc) as Hrun. destruct (Z.ltb_spec c 10).
  - destruct Hrun as (b' & -> & Hb' & Hcap & Hr' & _). rewrite <-Hcap in Hr'.
    rewrite (IH b' s p t tw (c + 1) Hb' Hr') by lia.
    replace (Z.to_nat (10 - c)) with (S (Z.to_nat (10 - (c + 1)))) by lia. done.
  - rewrite Hrun, (IH b s p t tw c Hb Hr Hc). replace (10 - c) with 0 by lia. simpl.
    rewrite Nat.min_0_r, Nat.sub_0_r. done.
Qed.

(** ** Properties *)

(** Rounding to a power of two is exact: for every size up to 2^30 the
    result is the smallest power of two that is at least the argument and at
    least 2. *)
Theorem next_pow2_smallest v :
  1 <= v <= 2 ^ 30 ->
  exists k, 1 <= k <= 30 /\ next_pow2 v = 2 ^ k /\ v <= 2 ^ k /\ (2 < 2 ^ k -> 2 ^ k < 2 * v).
Proof. apply next_pow2_spec. Qed.

(** The buffer keeps the most recent packets.  After storing any packets
    under consecutive 16-bit sequence numbers (with any number of wraps) in a
    buffer created for at most 2^16 packets, each of the last [capacity]
    packets is found under its sequence number. *)
Theorem nack_buf_keeps_recent max_packets b0 s pre p post :
  max_packets <= 2 ^ 16 -> rtc_nack_buf_create true true max_packets = Some b0 ->
  Forall pkt_ok (pre ++ p :: post) -> blen post < capacity b0 ->
  exists b, store_all b0 s (pre ++ p :: post) = Ok b /\
    rtc_nack_buf_get b (u16 (s + blen pre)) = Ok (Some p).
Proof.
  intros Hmax Hcr HF Hlen.
  assert (Hb0 : buf_ok b0) by (eapply create_ok; [|done]; lia).
  assert (Hc0 : capacity b0 <= 2 ^ 16).
  { unfold rtc_nack_buf_create, NACK_BUF_DEFAULT_SIZE in Hcr. injection Hcr as <-. simpl.
    destruct (next_pow2_spec (if max_packets <=? 0 then 512 else max_packets)) as (k & Hk & -> & _ & Hs).
    { destruct (Z.leb_spec max_packets 0); lia. }
    apply Z.pow_le_mono_r; [lia|]. destruct (Z.le_gt_cases k 16); [done|].
    assert (2 ^ 17 <= 2 ^ k) by (apply Z.pow_le_mono_r; lia).
    destruct (Z.leb_spec max_packets 0); lia. }
  clear Hcr. revert s b0 Hb0 Hc0 Hlen. induction pre as [|q pre IH]; intros s b0 Hb0 Hc0 Hlen; simpl in HF |- *.
  - apply Forall_cons_1 in HF as [Hp HF].
    destruct (store_run b0 p (u16 s) false 0 Hb0 Hp) as (b1 & -> & Hb1 & Hc1 & Hr & _). simpl.
    rewrite u16_mod_cap in Hr by done. rewrite <-Hc1 in *.
    destruct (store_all_keeps post b1 (s + 1) s (Slot p (u16 s) 0 0 false true) Hb1 Hc0 HF) as (b & -> & Hb & Hc & Hr'); [lia|lia|done|].
    exists b. split; [done|]. change (blen (@nil bytes)) with 0. rewrite Z.add_0_r.
    rewrite <-Hc in Hr'. apply (get_stored b s _ Hb ltac:(lia) Hr'); done.
  - apply Forall_cons_1 in HF as [Hq HF].
    destruct (store_run b0 q (u16 s) false 0 Hb0 Hq) as (b1 & -> & Hb1 & Hc1 & _). simpl.
    destruct (IH HF (s + 1) b1) as (b & -> & Hg); auto; [lia|lia|]. exists b. split; [done|].
    rewrite blen_cons. by replace (s + (1 + blen pre)) with (s + 1 + blen pre) by lia.
Qed.

(** A stored packet is retransmitted at most ten times: the first ten
    requests for its sequence number return it with its transport-cc number,
    every later one returns nothing. *)
Theorem nack_retransmit_cap b p s tw t n :
  buf_ok b -> pkt_ok p ->
  exists b', rtc_nack_buf_store b p s tw t = Ok b' /\
    retransmits n s b' = replicate (Nat.min n 10) (Ok (Some (p, if tw then t else 0)))
                         ++ replicate (n - 10) (Ok None).
Proof.
  intros Hb Hp. destruct (store_run b p s tw t Hb Hp) as (b' & Hs & Hb' & Hc & Hr & _).
  exists b'. split; [done|]. rewrite <-Hc in Hr.
  apply (retransmits_run n b' s p t tw 0 Hb' Hr). lia.
Qed.

(** a buffer for four packets *)
Definition buf4 : rtc_nack_buf_t := Buf (replicate 4 slot_zero) 4 3.

Lemma next_pow2_smallest_witness :
  exists k, 1 <= k <= 30 /\ next_pow2 300 = 2 ^ k /\ 300 <= 2 ^ k /\ (2 < 2 ^ k -> 2 ^ k < 2 * 300).
Proof. apply (next_pow2_smallest 300). lia. Defined.

Lemma nack_buf_keeps_recent_witness :
  exists b, store_all buf4 65534 ([[1]; [2]] ++ [3] :: [[4]; [5]]) = Ok b /\
    rtc_nack_buf_get b 0 = Ok (Some [3]).
Proof.
  apply (nack_buf_keeps_recent 3 buf4 65534 [[1]; [2]] [3] [[4]; [5]]).
  - lia.
  - vm_compute. reflexivity.
  - repeat constructor; vm_compute; congruence.
  - vm_compute. reflexivity.
Defined.

Lemma nack_retransmit_cap_witness :
  exists b', rtc_nack_buf_store buf4 [9; 9] 77 true 5 = Ok b' /\
    retransmits 12 77 b' = replicate 10 (Ok (Some ([9; 9], 5))) ++ replicate 2 (Ok None).
Proof.
  apply (nack_retransmit_cap buf4 [9; 9] 77 true 5 12).
  - split; [exists 2; split; [lia|reflexivity]|reflexivity|reflexivity].
  - split; vm_compute; congruence.
Defined.

End NackBuf.
