(* ===== verification/RtpDemux.v ===== *)
(** * The SSRC demultiplexer (rtc/src/rtc_rtp_demux.c)

    A client of the map interface [MapSpec]: everything is proved for any map
    that satisfies it and then holds for [U32Map].  A consumer pointer is
    [option U] with [None] the null pointer; the resolver callback may change
    the world [W] it lives in; what the sink is called with is the result of a
    dispatch. *)

From S2P Require Import Prelude RtpExt Rtp Probe U32Map.
From Stdlib Require Import ZArith Lia.
From stdpp Require Import base list numbers gmap.
#[local] Open Scope Z_scope.

Module RtpDemux.
Import Rtp.

Section Ops.
Context {U M W : Type} {ops : MapOps M Z (option U)}.

(** the resolver: the consumer it names, and the world it leaves *)
Definition resolver : Type := rtc_rtp_packet_t -> W -> res (W * option U).

Record rtc_rtp_demux_t := Demux {
  by_ssrc : M;
  resolve : option resolver;
  ready : bool
}.

(** [sink]: whether a sink is given *)
Definition rtc_rtp_demux_init (sink : bool) (r : option resolver) : res rtc_rtp_demux_t :=
  _ ← fail_if (negb sink) RTC_ERR_INVALID;
  Ok (Demux map_init r true).

(** [rtc_u32_map_free] leaves an empty map *)
Definition rtc_rtp_demux_close (d : rtc_rtp_demux_t) : rtc_rtp_demux_t :=
  if negb (ready d) then d else Demux map_init (resolve d) false.

(** run a map operation on the table *)
Definition on_map {A} (f : st M A) : st rtc_rtp_demux_t A := fun d =>
  let '(m, r) := f (by_ssrc d) in (Demux m (resolve d) (ready d), r).

Definition rtc_rtp_demux_bind (alloc : bool) (ssrc : Z) (user : option U) : st rtc_rtp_demux_t unit :=
  d ← get;
  match user with
  | Some _ => if ready d then on_map (map_set alloc ssrc user) else lift (Err RTC_ERR_INVALID)
  | None => lift (Err RTC_ERR_INVALID)
  end.

Definition rtc_rtp_demux_unbind (alloc : bool) (ssrc : Z) : st rtc_rtp_demux_t unit :=
  d ← get;
  if ready d then _ ← on_map (map_remove alloc ssrc); mret () else mret ().

Definition rtc_rtp_demux_get (d : rtc_rtp_demux_t) (ssrc : Z) : res (option U) :=
  if ready d then map_get (by_ssrc d) ssrc else Ok None.

(** [(void)rtc_u32_map_set(...)]: the return code is ignored *)
Definition set_ignore (alloc : bool) (ssrc : Z) (user : option U) : st rtc_rtp_demux_t unit := fun d =>
  let '(m, rc) := map_set alloc ssrc user (by_ssrc d) in
  (Demux m (resolve d) (ready d), match rc with Fault => Fault | _ => Ok () end).

(** [Some u]: the packet was delivered to [u]; [None]: dropped *)
Definition rtc_rtp_demux_dispatch (alloc : bool) (pkt : rtc_rtp_packet_t)
    : st (rtc_rtp_demux_t * W) (option U) :=
  dw ← get;
  let '(d, w) := dw in
  if negb (ready d) then mret (None : option U) else
  user ← lift (map_get (V := option U) (by_ssrc d) (ssrc (header pkt)));
  match user, resolve d with
  | None, Some f =>
      fw ← lift (f pkt w);
      let '(w, found) := fw in
      _ ← put (d, w);
      match found with
      | None => mret (None : option U)
      | Some u => _ ← zoom fst (fun dw d => (d, dw.2)) (set_ignore alloc (ssrc (header pkt)) (Some u));
                  mret (Some u)
      end
  | _, _ => mret user
  end.

End Ops.
Arguments rtc_rtp_demux_t U M W : clear implicits.
Arguments resolver U W : clear implicits.

Section Proofs.
Context {U M W : Type} {ops : MapOps M Z (option U)} (repr : M -> gmap Z (option U) -> Prop) (load : M -> Z).
Context {spec : MapSpec M Z (option U) None repr load (fun _ => True)}.

(** ready, over a table whose bindings are [r], after at most [n] calls *)
Definition demux_repr (n : Z) (d : rtc_rtp_demux_t U M W) (r : gmap Z U) : Prop :=
  ready d = true /\ repr (by_ssrc d) (Some <$> r) /\ load (by_ssrc d) <= n.

Inductive call :=
  | CBind (alloc : bool) (s : Z) (u : U)
  | CUnbind (alloc : bool) (s : Z)
  | CDispatch (alloc : bool) (pkt : rtc_rtp_packet_t).

Inductive answer := ABind (rc : res unit) | AUnbind (rc : res unit) | ADispatch (to : res (option U)).

Definition do_call (c : call) (dw : rtc_rtp_demux_t U M W * W) : rtc_rtp_demux_t U M W * W * answer :=
  match c with
  | CBind a s u => let '(d', r) := rtc_rtp_demux_bind a s (Some u) dw.1 in (d', dw.2, ABind r)
  | CUnbind a s => let '(d', r) := rtc_rtp_demux_unbind a s dw.1 in (d', dw.2, AUnbind r)
  | CDispatch a p => let '(dw', r) := rtc_rtp_demux_dispatch a p dw in (dw', ADispatch r)
  end.

Fixpoint do_calls (cs : list call) (d : rtc_rtp_demux_t U M W * W) : list answer :=
  match cs with
  | [] => []
  | c :: rest => let '(d', a) := do_call c d in a :: do_calls rest d'
  end.

(** the binding after an insertion that succeeded, or failed *)
Definition bound (ok : bool) (s : Z) (u : U) (r : gmap Z U) : gmap Z U := if ok then <[s := u]> r else r.

(** The answers of a routing table [r] with resolver [f] after [n] calls: a
    bound SSRC goes to its consumer; an unbound one to the consumer the
    resolver names, which is then bound; else it is dropped.  A binding is
    only lost if the table has to grow and the allocation fails (or after 2^56
    calls). *)
Fixpoint routed (n : Z) (f : option (resolver U W)) (w : W) (r : gmap Z U) (cs : list call)
    (answers : list answer) : Prop :=
  match cs, answers with
  | [], [] => True
  | CBind _ s u :: cs, ABind (Ok _) :: answers => routed (n + 1) f w (<[s := u]> r) cs answers
  | CBind alloc s u :: cs, ABind (Err e) :: answers =>
      e = RTC_ERR_NOMEM /\ (alloc = false \/ 2 ^ 56 <= n) /\ routed (n + 1) f w r cs answers
  | CUnbind _ s :: cs, AUnbind (Ok _) :: answers => routed (n + 1) f w (delete s r) cs answers
  | CDispatch alloc p :: cs, ADispatch to :: answers =>
      match r !! ssrc (header p), f with
      | Some u, _ => to = Ok (Some u) /\ routed (n + 1) f w r cs answers
      | None, None => to = Ok None /\ routed (n + 1) f w r cs answers
      | None, Some g =>
          match g p w with
          | Ok (w', Some u) => to = Ok (Some u) /\
              exists ok, (ok = true \/ alloc = false \/ 2 ^ 56 <= n) /\
                routed (n + 1) f w' (bound ok (ssrc (header p)) u r) cs answers
          | Ok (w', None) => to = Ok None /\ routed (n + 1) f w' r cs answers
          | Err e => to = Err e /\ routed (n + 1) f w r cs answers
          | Fault => to = Fault /\ routed (n + 1) f w r cs answers
          end
      end
  | _, _ => False
  end.

Lemma map_get_bound m (r : gmap Z U) s : repr m (Some <$> r) -> map_get m s = Ok (r !! s).
Proof. intros Hm. rewrite (spec_get m _ s Hm I), lookup_fmap. by destruct (r !! s). Qed.

Lemma demux_set n (d : rtc_rtp_demux_t U M W) r alloc s u :
  demux_repr n d r ->
  exists m ok, (ok = true \/ alloc = false \/ 2 ^ 56 <= n) /\
    map_set alloc s (Some u) (by_ssrc d) = (m, if ok then Ok () else Err RTC_ERR_NOMEM) /\
    demux_repr (n + 1) (Demux m (resolve d) (ready d)) (bound ok s u r).
Proof.
  intros (Hr & Hm & Hl). destruct (spec_set _ _ alloc s (Some u) Hm I) as (m & Hl' & [[E Hm']|(E & Hm' & Hw)]).
  - exists m, true. split_and!; [by left|done|]. split_and!; [done| |cbn; lia]. cbn. by rewrite fmap_insert.
  - exists m, false. split_and!; [|done|by split_and!; [| |cbn; lia]]. right. destruct Hw; [by left|right; lia].
Qed.

Lemma demux_repr_mono n d r : demux_repr n d r -> demux_repr (n + 1) d r.
Proof. intros (? & ? & ?). split_and!; [done|done|lia]. Qed.

Lemma do_calls_routed cs : forall n d w r,
  demux_repr n d r -> routed n (resolve d) w r cs (do_calls cs (d, w)).
Proof.
  induction cs as [|c cs IH]; intros n d w r Hd; simpl; [done|].
  pose proof Hd as (Hr & Hm & Hl). pose proof (demux_repr_mono _ _ _ Hd) as Hd1.
  destruct c as [a s u|a s|a p]; simpl.
  - unfold rtc_rtp_demux_bind. rewrite st_bind_eq. cbn [get]. rewrite Hr. unfold on_map.
    destruct (demux_set n d r a s u Hd) as (m & ok & Hok & -> & Hd'). pose proof (IH _ _ w _ Hd') as IH'.
    destruct ok; [exact IH'|]. split_and!; [done|by destruct Hok|exact IH'].
  - unfold rtc_rtp_demux_unbind. rewrite st_bind_eq. cbn [get]. rewrite Hr, st_bind_eq. unfold on_map.
    destruct (spec_remove _ _ a s Hm I) as (m & -> & Hm' & Hl'). rewrite <-fmap_delete in Hm'.
    apply (IH _ (Demux m (resolve d) (ready d))). split_and!; [done|done|cbn; lia].
  - unfold rtc_rtp_demux_dispatch. rewrite st_bind_eq. cbn [get]. rewrite Hr. cbn [negb].
    rewrite (st_bind_lift _ _ _ _ (map_get_bound _ _ (ssrc (header p)) Hm)).
    destruct (r !! ssrc (header p)) as [u|] eqn:El; [split; [done|by apply IH]|].
    destruct (resolve d) as [f|] eqn:Ef; simpl; [|split; [done|rewrite <-Ef; by apply IH]].
    rewrite st_bind_eq. unfold lift at 1.
    destruct (f p w) as [[w' [u|]]|e|] eqn:Efw; [|split; [done|rewrite <-Ef; by apply IH]..].
    rewrite st_bind_eq. cbn [put]. rewrite st_bind_eq. unfold zoom, set_ignore. cbn [fst snd].
    rewrite <-Ef.
    destruct (demux_set n d r a (ssrc (header p)) u Hd) as (m & ok & Hok & -> & Hd').
    pose proof (IH _ _ w' _ Hd') as IH'. destruct ok; (split; [done|]); eexists; (split; [exact Hok|exact IH']).
Qed.
End Proofs.

(** C34: The demultiplexer routes by SSRC.  For every resolver and every
    sequence of bind, unbind and dispatch calls on a fresh demultiplexer over
    the hash map, each packet is delivered to the consumer bound for its
    SSRC; an unbound SSRC goes to the consumer the resolver names and is bound
    to it from then on, unless the table has to grow and the allocation fails
    (or after 2^56 calls); packets with neither are dropped. *)
Theorem demux_routes_by_ssrc {U W} (f : option (resolver U W)) (w : W)
    (d : rtc_rtp_demux_t U (U32Map.rtc_u32_map_t (option U)) W) (cs : list call) :
  rtc_rtp_demux_init (ops := U32Map.u32_map_ops None) true f = Ok d ->
  routed 0 f w ∅ cs (do_calls (ops := U32Map.u32_map_ops None) cs (d, w)).
Proof.
  intros [= <-].
  pose proof (U32Map.u32_map_spec (None : option U)) as Hs.
  apply (do_calls_routed (ops := U32Map.u32_map_ops None) U32Map.u32_repr U32Map.u32_load cs 0
           (Demux U32Map.rtc_u32_map_init f true) w ∅).
  split_and!; [done| |done]. rewrite fmap_empty. by left.
Qed.

Lemma demux_routes_by_ssrc_witness :
  let p := Packet (Header 2 false false 0 false 96 1 2 77) [] None 0 [] in
  let f := Some (fun q w => Ok (w + 1, if payload_type (header q) =? 96 then Some 5 else None)) in
  routed 0 f 0 ∅ [CDispatch true p; CDispatch true p; CUnbind true 77; CBind true 77 9; CDispatch true p]
    (do_calls (ops := U32Map.u32_map_ops None)
       [CDispatch true p; CDispatch true p; CUnbind true 77; CBind true 77 9; CDispatch true p]
       (Demux U32Map.rtc_u32_map_init f true, 0)).
Proof.
  intros p f. apply (demux_routes_by_ssrc f 0 (Demux U32Map.rtc_u32_map_init f true)). reflexivity.
Defined.

End RtpDemux.
