(* ===== verification/Stun.v ===== *)
(** * STUN messages and TURN attributes (rtc/src/rtc_stun.c)

    Every function of the file except the socket exchange of
    [rtc_stun_binding], whose request construction and response checks are
    [rtc_stun_binding_reply].  The array [msg->buf] with [buf_len] is the list
    of its first [buf_len] bytes; the array has [STUN_MAX_MSG_SIZE] bytes and a
    store beyond it is [Fault].  A C string is the list of its bytes without
    the terminator.  A pointer into the buffer with a length is the slice it
    denotes.  OpenSSL's HMAC and MD5 are parameters; where the code ignores the
    status of the HMAC, the array it leaves unset is the parameter
    [stale_hmac].  Random transaction ids are arguments. *)

From S2P Require Import Prelude Srtp.
From Stdlib Require Import ZArith Lia.
From stdpp Require Import base list numbers sets.
#[local] Open Scope Z_scope.

Module Stun.
Import Srtp.

(** ** Constants (rtc_stun.h) *)

Definition STUN_BINDING_REQUEST : Z := 0x0001.
Definition STUN_BINDING_RESPONSE : Z := 0x0101.
Definition STUN_ATTR_MAPPED_ADDRESS : Z := 0x0001.
Definition STUN_ATTR_USERNAME : Z := 0x0006.
Definition STUN_ATTR_MESSAGE_INTEGRITY : Z := 0x0008.
Definition STUN_ATTR_ERROR_CODE : Z := 0x0009.
Definition STUN_ATTR_XOR_MAPPED_ADDRESS : Z := 0x0020.
Definition STUN_ATTR_PRIORITY : Z := 0x0024.
Definition STUN_ATTR_USE_CANDIDATE : Z := 0x0025.
Definition STUN_ATTR_ICE_CONTROLLED : Z := 0x8029.
Definition STUN_ATTR_ICE_CONTROLLING : Z := 0x802A.
Definition STUN_ATTR_FINGERPRINT : Z := 0x8028.
Definition STUN_ATTR_CHANNEL_NUMBER : Z := 0x000C.
Definition STUN_ATTR_LIFETIME : Z := 0x000D.
Definition STUN_ATTR_XOR_PEER_ADDRESS : Z := 0x0012.
Definition STUN_ATTR_REALM : Z := 0x0014.
Definition STUN_ATTR_NONCE : Z := 0x0015.
Definition STUN_ATTR_XOR_RELAYED_ADDR : Z := 0x0016.
Definition STUN_ATTR_REQUESTED_TRANSPORT : Z := 0x0019.
Definition STUN_MAGIC_COOKIE : Z := 0x2112A442.
Definition STUN_HEADER_SIZE : Z := 20.
Definition STUN_MAX_MSG_SIZE : Z := 1500.
Definition TURN_CHANNEL_DATA_HEADER : Z := 4.
Definition TURN_CHANNEL_MIN : Z := 0x4000.
Definition TURN_CHANNEL_MAX : Z := 0x7FFF.

(** ** Data *)

(** [rtc_addr_t]: a socket address of one of the families the code handles,
    port and IPv4 address in host order, the IPv6 address as its bytes *)
Inductive rtc_addr_t :=
  | AF_INET (port ip : Z)
  | AF_INET6 (port : Z) (ip : bytes)
  | AF_OTHER.

#[export] Instance rtc_addr_eq_dec : EqDecision rtc_addr_t.
Proof. solve_decision. Defined.

Record rtc_stun_msg_t := mk_stun_msg {
  type : Z;
  len : Z;       (* the field [length] *)
  txn_id : bytes;
  buf : bytes;   (* [buf], [buf_len] *)
}.

(** OpenSSL beyond [Evp], and the contents of an unset [uint8_t hmac[20]] *)
Class StunEnv := {
  evp_md5 : bytes -> res bytes;
  stale_hmac : bytes;
}.

(** ** CRC-32 *)

Definition crc32_table : list Z :=
  [0; 1996959894; 3993919788; 2567524794; 124634137; 1886057615; 3915621685; 2657392035;
   249268274; 2044508324; 3772115230; 2547177864; 162941995; 2125561021; 3887607047; 2428444049;
   498536548; 1789927666; 4089016648; 2227061214; 450548861; 1843258603; 4107580753; 2211677639;
   325883990; 1684777152; 4251122042; 2321926636; 335633487; 1661365465; 4195302755; 2366115317;
   997073096; 1281953886; 3579855332; 2724688242; 1006888145; 1258607687; 3524101629; 2768942443;
   901097722; 1119000684; 3686517206; 2898065728; 853044451; 1172266101; 3705015759; 2882616665;
   651767980; 1373503546; 3369554304; 3218104598; 565507253; 1454621731; 3485111705; 3099436303;
   671266974; 1594198024; 3322730930; 2970347812; 795835527; 1483230225; 3244367275; 3060149565;
   1994146192; 31158534; 2563907772; 4023717930; 1907459465; 112637215; 2680153253; 3904427059;
   2013776290; 251722036; 2517215374; 3775830040; 2137656763; 141376813; 2439277719; 3865271297;
   1802195444; 476864866; 2238001368; 4066508878; 1812370925; 453092731; 2181625025; 4111451223;
   1706088902; 314042704; 2344532202; 4240017532; 1658658271; 366619977; 2362670323; 4224994405;
   1303535960; 984961486; 2747007092; 3569037538; 1256170817; 1037604311; 2765210733; 3554079995;
   1131014506; 879679996; 2909243462; 3663771856; 1141124467; 855842277; 2852801631; 3708648649;
   1342533948; 654459306; 3188396048; 3373015174; 1466479909; 544179635; 3110523913; 3462522015;
   1591671054; 702138776; 2966460450; 3352799412; 1504918807; 783551873; 3082640443; 3233442989;
   3988292384; 2596254646; 62317068; 1957810842; 3939845945; 2647816111; 81470997; 1943803523;
   3814918930; 2489596804; 225274430; 2053790376; 3826175755; 2466906013; 167816743; 2097651377;
   4027552580; 2265490386; 503444072; 1762050814; 4150417245; 2154129355; 426522225; 1852507879;
   4275313526; 2312317920; 282753626; 1742555852; 4189708143; 2394877945; 397917763; 1622183637;
   3604390888; 2714866558; 953729732; 1340076626; 3518719985; 2797360999; 1068828381; 1219638859;
   3624741850; 2936675148; 906185462; 1090812512; 3747672003; 2825379669; 829329135; 1181335161;
   3412177804; 3160834842; 628085408; 1382605366; 3423369109; 3138078467; 570562233; 1426400815;
   3317316542; 2998733608; 733239954; 1555261956; 3268935591; 3050360625; 752459403; 1541320221;
   2607071920; 3965973030; 1969922972; 40735498; 2617837225; 3943577151; 1913087877; 83908371;
   2512341634; 3803740692; 2075208622; 213261112; 2463272603; 3855990285; 2094854071; 198958881;
   2262029012; 4057260610; 1759359992; 534414190; 2176718541; 4139329115; 1873836001; 414664567;
   2282248934; 4279200368; 1711684554; 285281116; 2405801727; 4167216745; 1634467795; 376229701;
   2685067896; 3608007406; 1308918612; 956543938; 2808555105; 3495958263; 1231636301; 1047427035;
   2932959818; 3654703836; 1088359270; 936918000; 2847714899; 3736837829; 1202900863; 817233897;
   3183342108; 3401237130; 1404277552; 615818150; 3134207493; 3453421203; 1423857449; 601450431;
   3009837614; 3294710456; 1567103746; 711928724; 3020668471; 3272380065; 1510334235; 755167117].

Definition crc32_step (crc b : Z) : res Z :=
  t ← rd crc32_table (Z.land (Z.lxor crc b) 0xFF);
  Ok (Z.lxor t (Z.shiftr crc 8)).

Fixpoint crc32_loop (d : bytes) (crc : Z) : res Z :=
  match d with
  | [] => Ok crc
  | b :: d => crc ← crc32_step crc b; crc32_loop d crc
  end.

Definition crc32_calc (data : bytes) : res Z :=
  crc ← crc32_loop data 0xFFFFFFFF;
  Ok (Z.lxor crc 0xFFFFFFFF).

(** ** Buffer helpers *)

(** [write_u16(buf + off, v)] inside the used part *)
Definition write_u16_at (b : bytes) (off v : Z) : res bytes :=
  _ ← fault_if ((off <? 0) || (blen b <? off + 2));
  Ok (take (Z.to_nat off) b ++ be16 v ++ drop (Z.to_nat (off + 2)) b).

Definition write_u64 (v : Z) : bytes := be32 (u32 (Z.shiftr v 32)) ++ be32 (u32 v).

(** the 20 bytes written by the four stores at [buf + 0, 2, 4, 8] *)
Definition stun_header (ty l : Z) (txn : bytes) : bytes :=
  be16 ty ++ be16 l ++ be32 STUN_MAGIC_COOKIE ++ txn.

Definition write_header (b : bytes) (ty l : Z) (txn : bytes) : res bytes :=
  _ ← fault_if (blen b <? STUN_HEADER_SIZE);
  Ok (stun_header ty l txn ++ drop 20 b).

(** [(x + 3) & ~3] stored in a [uint16_t] *)
Definition pad4 (x : Z) : Z := u16 (Z.land (x + 3) (Z.lnot 3)).

(** [buf] is the used part of an array of [maxlen] bytes; the stores reach
    [pos + 4 + max(vlen, padded)] and the new used part ends at
    [pos + 4 + padded]. *)
Definition append_attr (b : bytes) (maxlen ty : Z) (value : bytes) (vlen : Z) : res bytes :=
  let pos := blen b in
  let padded := pad4 vlen in
  _ ← fail_if (maxlen <? pos + 4 + padded) RTC_ERR_NOMEM;
  _ ← fault_if (maxlen <? pos + 4 + vlen);
  v ← sub value 0 vlen;
  Ok (b ++ be16 ty ++ be16 vlen ++
      take (Z.to_nat padded) (v ++ replicate (Z.to_nat (padded - vlen)) 0)).

Section Ops.
Context `{Evp, StunEnv}.

Definition stun_hmac_sha1 (key data : bytes) : res bytes := evp_hmac_sha1 key data.

(** the array [hmac] after the call, whose status the callers ignore *)
Definition hmac_array (key data : bytes) : bytes :=
  match stun_hmac_sha1 key data with Ok t => t | _ => stale_hmac end.

(** append FINGERPRINT over what is in the buffer *)
Definition append_fingerprint (b : bytes) : res bytes :=
  c ← crc32_calc b;
  append_attr b STUN_MAX_MSG_SIZE STUN_ATTR_FINGERPRINT (be32 (Z.lxor c 0x5354554E)) 4.

(** append one attribute when [cond] holds *)
Definition append_if (cond : bool) (b : bytes) (ty : Z) (value : bytes) (vlen : Z) : res bytes :=
  if cond then append_attr b STUN_MAX_MSG_SIZE ty value vlen else Ok b.

Definition rtc_stun_build_binding_request (txn : bytes) (username password : option bytes)
    (priority : Z) (use_candidate : bool) (tie_breaker : Z) (controlling : bool)
    : res rtc_stun_msg_t :=
  let b := replicate 20 0 in
  b ← (match username with
       | Some u => append_attr b STUN_MAX_MSG_SIZE STUN_ATTR_USERNAME u (u16 (blen u))
       | None => Ok b
       end);
  b ← append_if (0 <? priority) b STUN_ATTR_PRIORITY (be32 priority) 4;
  b ← append_if use_candidate b STUN_ATTR_USE_CANDIDATE [] 0;
  b ← append_if (0 <? tie_breaker) b
        (if controlling then STUN_ATTR_ICE_CONTROLLING else STUN_ATTR_ICE_CONTROLLED)
        (write_u64 tie_breaker) 8;
  b ← (match password with
       | Some p =>
           b ← write_header b STUN_BINDING_REQUEST (u16 (blen b - STUN_HEADER_SIZE + 24)) txn;
           append_attr b STUN_MAX_MSG_SIZE STUN_ATTR_MESSAGE_INTEGRITY (hmac_array p b) 20
       | None => Ok b
       end);
  b ← write_header b STUN_BINDING_REQUEST (u16 (blen b - STUN_HEADER_SIZE + 8)) txn;
  b ← append_fingerprint b;
  let l := u16 (blen b - STUN_HEADER_SIZE) in
  b ← write_header b STUN_BINDING_REQUEST l txn;
  Ok (mk_stun_msg STUN_BINDING_REQUEST l txn b).

Definition rtc_stun_parse (data : bytes) : res rtc_stun_msg_t :=
  _ ← fail_if (blen data <? STUN_HEADER_SIZE) RTC_ERR_INVALID;
  ty ← rd_u16 data 0;
  l ← rd_u16 data 2;
  cookie ← rd_u32 data 4;
  _ ← fail_if (negb (cookie =? STUN_MAGIC_COOKIE)) RTC_ERR_INVALID;
  txn ← sub data 8 12;
  _ ← fail_if (blen data <? STUN_HEADER_SIZE + l) RTC_ERR_INVALID;
  let total := STUN_HEADER_SIZE + l in
  let total := if STUN_MAX_MSG_SIZE <? total then STUN_MAX_MSG_SIZE else total in
  b ← sub data 0 total;
  Ok (mk_stun_msg ty l txn b).

(** an IPv4 address as the value of an XOR-ed address attribute *)
Definition xor_addr_value (port ip : Z) : bytes :=
  [0; 1] ++ be16 (Z.lxor port (u16 (Z.shiftr STUN_MAGIC_COOKIE 16)))
    ++ be32 (Z.lxor ip STUN_MAGIC_COOKIE).

Definition rtc_stun_build_binding_response (req_buf : bytes) (mapped_addr : rtc_addr_t)
    (out_cap : Z) : res bytes :=
  _ ← fail_if (blen req_buf <? STUN_HEADER_SIZE) RTC_ERR_INVALID;
  _ ← fail_if (out_cap <? 128) RTC_ERR_NOMEM;
  match mapped_addr with
  | AF_INET port ip =>
      out ← append_attr (replicate 20 0) out_cap STUN_ATTR_XOR_MAPPED_ADDRESS
              (xor_addr_value port ip) 8;
      txn ← sub req_buf 8 12;
      write_header out STUN_BINDING_RESPONSE (u16 (blen out - STUN_HEADER_SIZE)) txn
  | _ => Err RTC_ERR_INVALID
  end.

(** the address in a (XOR-)MAPPED-ADDRESS attribute whose value of [alen]
    bytes starts at [pos] *)
Definition mapped_value (txn b : bytes) (atype alen pos : Z) : res rtc_addr_t :=
  let xored := atype =? STUN_ATTR_XOR_MAPPED_ADDRESS in
  _ ← fail_if (alen <? 8) RTC_ERR_INVALID;
  family ← rd b (pos + 1);
  port ← rd_u16 b (pos + 2);
  let port := if xored then Z.lxor port (Z.land (Z.shiftr STUN_MAGIC_COOKIE 16) 0xFFFF) else port in
  if family =? 1 then
    ip ← rd_u32 b (pos + 4);
    Ok (AF_INET port (if xored then Z.lxor ip STUN_MAGIC_COOKIE else ip))
  else if family =? 2 then
    _ ← fail_if (alen <? 20) RTC_ERR_INVALID;
    ip ← sub b (pos + 4) 16;
    Ok (AF_INET6 port (if xored then zip_with Z.lxor ip (be32 STUN_MAGIC_COOKIE ++ txn) else ip))
  else Err RTC_ERR_INVALID.

Fixpoint mapped_loop (fuel : nat) (txn b : bytes) (pos : Z) : res rtc_addr_t :=
  if pos + 4 <=? blen b then
    match fuel with
    | O => Fault
    | S fuel =>
        atype ← rd_u16 b pos;
        alen ← rd_u16 b (pos + 2);
        let padded := pad4 alen in
        let pos := pos + 4 in
        if blen b <? pos + alen then Err RTC_ERR_INVALID
        else if (atype =? STUN_ATTR_XOR_MAPPED_ADDRESS) || (atype =? STUN_ATTR_MAPPED_ADDRESS)
        then mapped_value txn b atype alen pos
        else mapped_loop fuel txn b (pos + padded)
    end
  else Err RTC_ERR_INVALID.

Definition rtc_stun_get_mapped_address (msg : rtc_stun_msg_t) : res rtc_addr_t :=
  mapped_loop (length (buf msg)) (txn_id msg) (buf msg) STUN_HEADER_SIZE.

(** the check of the MESSAGE-INTEGRITY attribute at [pos] *)
Definition integrity_at (data key : bytes) (pos alen : Z) : res unit :=
  _ ← fail_if (negb (alen =? 20)) RTC_ERR_INVALID;
  _ ← fail_if (STUN_MAX_MSG_SIZE <? pos) RTC_ERR_INVALID;
  tmp ← sub data 0 pos;
  tmp ← write_u16_at tmp 2 (u16 (pos - STUN_HEADER_SIZE + 24));
  mac ← sub data (pos + 4) 20;
  if bool_decide (hmac_array key tmp = mac) then Ok () else Err RTC_ERR_INVALID.

Fixpoint verify_loop (fuel : nat) (data key : bytes) (end_ pos : Z) : res unit :=
  if pos + 4 <=? end_ then
    match fuel with
    | O => Fault
    | S fuel =>
        atype ← rd_u16 data pos;
        alen ← rd_u16 data (pos + 2);
        if atype =? STUN_ATTR_MESSAGE_INTEGRITY then integrity_at data key pos alen
        else verify_loop fuel data key end_ (pos + (4 + pad4 alen))
    end
  else Err RTC_ERR_INVALID.

Definition rtc_stun_verify_integrity_key (data key : bytes) : res unit :=
  _ ← fail_if (blen data <? STUN_HEADER_SIZE + 24) RTC_ERR_INVALID;
  msg_len_claim ← rd_u16 data 2;
  let end_ := STUN_HEADER_SIZE + msg_len_claim in
  let end_ := if blen data <? end_ then blen data else end_ in
  verify_loop (length data) data key end_ STUN_HEADER_SIZE.

Definition rtc_stun_verify_integrity (data : bytes) (password : option bytes) : res unit :=
  match password with
  | None => Err RTC_ERR_INVALID
  | Some p => rtc_stun_verify_integrity_key data p
  end.

(** [rtc_stun_binding] after [recvfrom] has returned the bytes [reply] *)
Definition rtc_stun_binding_reply (req : rtc_stun_msg_t) (reply : bytes) : res rtc_addr_t :=
  _ ← fail_if (blen reply <? STUN_HEADER_SIZE) RTC_ERR_SOCKET;
  resp ← rtc_stun_parse reply;
  _ ← fail_if (negb (type resp =? STUN_BINDING_RESPONSE)) RTC_ERR_INVALID;
  _ ← fail_if (bool_decide (txn_id resp <> txn_id req)) RTC_ERR_INVALID;
  rtc_stun_get_mapped_address resp.

(** ** TURN requests *)

Definition rtc_stun_build_request (txn : bytes) (method : Z) : rtc_stun_msg_t :=
  mk_stun_msg method 0 txn (stun_header method 0 txn).

Definition msg_append_attr (ty : Z) (value : bytes) (vlen : Z) : st rtc_stun_msg_t unit :=
  msg ← get;
  b ← lift (append_attr (buf msg) STUN_MAX_MSG_SIZE ty value vlen);
  put (mk_stun_msg (type msg) (len msg) (txn_id msg) b).

Definition msg_update_header : st rtc_stun_msg_t unit :=
  msg ← get;
  let l := u16 (blen (buf msg) - STUN_HEADER_SIZE) in
  b ← lift (write_u16_at (buf msg) 2 l);
  put (mk_stun_msg (type msg) l (txn_id msg) b).

(** [rc = msg_append_attr(...); if (rc == RTC_OK) msg_update_header(msg);] *)
Definition add_attr (ty : Z) (value : bytes) (vlen : Z) : st rtc_stun_msg_t unit :=
  _ ← msg_append_attr ty value vlen; msg_update_header.

Definition rtc_stun_add_requested_transport (protocol : Z) : st rtc_stun_msg_t unit :=
  add_attr STUN_ATTR_REQUESTED_TRANSPORT [protocol; 0; 0; 0] 4.

Definition rtc_stun_add_lifetime (seconds : Z) : st rtc_stun_msg_t unit :=
  add_attr STUN_ATTR_LIFETIME (be32 seconds) 4.

Definition rtc_stun_add_xor_peer_address (peer : rtc_addr_t) : st rtc_stun_msg_t unit :=
  match peer with
  | AF_INET port ip => add_attr STUN_ATTR_XOR_PEER_ADDRESS (xor_addr_value port ip) 8
  | _ => lift (Err RTC_ERR_INVALID)
  end.

Definition rtc_stun_add_channel_number (channel : Z) : st rtc_stun_msg_t unit :=
  add_attr STUN_ATTR_CHANNEL_NUMBER (be16 channel ++ be16 0) 4.

Definition rtc_stun_add_username (username : bytes) : st rtc_stun_msg_t unit :=
  add_attr STUN_ATTR_USERNAME username (u16 (blen username)).

Definition rtc_stun_add_realm (realm : bytes) : st rtc_stun_msg_t unit :=
  add_attr STUN_ATTR_REALM realm (u16 (blen realm)).

Definition rtc_stun_add_nonce (nonce : bytes) : st rtc_stun_msg_t unit :=
  add_attr STUN_ATTR_NONCE nonce (u16 (blen nonce)).

(** A NULL key is the empty one: the code adds MESSAGE-INTEGRITY only for
    [key && key_len > 0].  The header bytes written before an append that
    fails stay written. *)
Definition set_buf (b : bytes) : st rtc_stun_msg_t unit :=
  modify (fun msg => mk_stun_msg (type msg) (len msg) (txn_id msg) b).

Definition rtc_stun_finalize_key (key : bytes) : st rtc_stun_msg_t unit :=
  msg ← get;
  let pos := blen (buf msg) in
  b ← (if 0 <? blen key then
         b ← lift (write_u16_at (buf msg) 2 (u16 (pos - STUN_HEADER_SIZE + 24)));
         _ ← set_buf b;
         lift (append_attr b STUN_MAX_MSG_SIZE STUN_ATTR_MESSAGE_INTEGRITY (hmac_array key b) 20)
       else lift (Ok (buf msg)));
  b ← lift (write_u16_at b 2 (u16 (blen b - STUN_HEADER_SIZE + 8)));
  _ ← set_buf (take (Z.to_nat pos) b);
  b ← lift (append_fingerprint b);
  let l := u16 (blen b - STUN_HEADER_SIZE) in
  b ← lift (write_u16_at b 0 (type msg));
  b ← lift (write_u16_at b 2 l);
  put (mk_stun_msg (type msg) l (txn_id msg) b).

Definition rtc_stun_finalize (password : option bytes) : st rtc_stun_msg_t unit :=
  rtc_stun_finalize_key (default [] password).

Fixpoint find_attr_loop (fuel : nat) (b : bytes) (attr_type pos : Z) : res (option bytes) :=
  if pos + 4 <=? blen b then
    match fuel with
    | O => Fault
    | S fuel =>
        atype ← rd_u16 b pos;
        alen ← rd_u16 b (pos + 2);
        if blen b <? pos + 4 + alen then Ok None
        else if atype =? attr_type then
          v ← sub b (pos + 4) alen; Ok (Some v)
        else find_attr_loop fuel b attr_type (pos + (4 + pad4 alen))
    end
  else Ok None.

Definition rtc_stun_find_attr (msg : rtc_stun_msg_t) (attr_type : Z) : res (option bytes) :=
  find_attr_loop (length (buf msg)) (buf msg) attr_type STUN_HEADER_SIZE.

(** [val = find_attr(...); if (!val || alen < min) return RTC_ERR_INVALID;] *)
Definition attr_value (msg : rtc_stun_msg_t) (attr_type min : Z) : res bytes :=
  r ← rtc_stun_find_attr msg attr_type;
  match r with
  | None => Err RTC_ERR_INVALID
  | Some val => _ ← fail_if (blen val <? min) RTC_ERR_INVALID; Ok val
  end.

Definition rtc_stun_get_relayed_address (msg : rtc_stun_msg_t) : res rtc_addr_t :=
  val ← attr_value msg STUN_ATTR_XOR_RELAYED_ADDR 8;
  family ← rd val 1;
  port ← rd_u16 val 2;
  let port := Z.lxor port (u16 (Z.shiftr STUN_MAGIC_COOKIE 16)) in
  if family =? 1 then
    ip ← rd_u32 val 4; Ok (AF_INET port (Z.lxor ip STUN_MAGIC_COOKIE))
  else Err RTC_ERR_INVALID.

Definition rtc_stun_get_lifetime (msg : rtc_stun_msg_t) : res Z :=
  val ← attr_value msg STUN_ATTR_LIFETIME 4; rd_u32 val 0.

Definition rtc_stun_get_error_code (msg : rtc_stun_msg_t) : res Z :=
  val ← attr_value msg STUN_ATTR_ERROR_CODE 4;
  c ← rd val 2; number ← rd val 3;
  Ok (Z.land c 7 * 100 + number).

(** the string stored in [buf], an array of [buflen] bytes *)
Definition copy_string (val : bytes) (buflen : Z) : res bytes :=
  let alen := blen val in
  let n := if alen <? u64 (buflen - 1) then alen else u64 (buflen - 1) in
  _ ← fault_if (buflen <? n + 1);
  sub val 0 n.

Definition rtc_stun_get_realm (msg : rtc_stun_msg_t) (buflen : Z) : res bytes :=
  val ← attr_value msg STUN_ATTR_REALM 0; copy_string val buflen.

Definition rtc_stun_get_nonce (msg : rtc_stun_msg_t) (buflen : Z) : res bytes :=
  val ← attr_value msg STUN_ATTR_NONCE 0; copy_string val buflen.

(** [ctx_ok]: EVP_MD_CTX_new succeeds; 58 is ':' *)
Definition rtc_stun_long_term_key (ctx_ok : bool) (username realm password : bytes) : res bytes :=
  let input := username ++ [58] ++ realm ++ [58] ++ password in
  _ ← fail_if ((blen input <=? 0) || (512 <=? blen input)) RTC_ERR_INVALID;
  _ ← fail_if (negb ctx_ok) RTC_ERR_GENERIC;
  match evp_md5 input with Ok k => Ok k | _ => Err RTC_ERR_GENERIC end.

End Ops.

(** ** TURN ChannelData *)

Definition rtc_turn_build_channel_data (buflen channel : Z) (data : bytes) : res bytes :=
  let len := blen data in
  let padded := u64 (Z.land (len + 3) (Z.lnot 3)) in
  _ ← fail_if (buflen <? TURN_CHANNEL_DATA_HEADER + padded) RTC_ERR_NOMEM;
  _ ← fail_if ((channel <? TURN_CHANNEL_MIN) || (TURN_CHANNEL_MAX <? channel)) RTC_ERR_INVALID;
  Ok (be16 channel ++ be16 (u16 len) ++ data ++ replicate (Z.to_nat (padded - len)) 0).

Definition rtc_turn_parse_channel_data (b : bytes) : res (Z * bytes) :=
  _ ← fail_if (blen b <? TURN_CHANNEL_DATA_HEADER) RTC_ERR_INVALID;
  channel ← rd_u16 b 0;
  data_len ← rd_u16 b 2;
  _ ← fail_if ((channel <? TURN_CHANNEL_MIN) || (TURN_CHANNEL_MAX <? channel)) RTC_ERR_INVALID;
  _ ← fail_if (blen b <? TURN_CHANNEL_DATA_HEADER + data_len) RTC_ERR_INVALID;
  data ← sub b TURN_CHANNEL_DATA_HEADER data_len;
  Ok (channel, data).

End Stun.
