(* ===== verification/StunSpec.v ===== *)
(** * Correctness of the STUN codec

    A message is specified as a header followed by a list of typed attributes
    ([msg_repr]).  The builders produce the encoding of exactly the attributes
    they were given, the parsers recover them, a message finalised with a key
    verifies under that key, and FINGERPRINT is the IEEE 802.3 CRC-32.  The
    last section proves the out-of-range reads and writes the code allows. *)

From S2P Require Import Prelude Srtp Stun SrtpWitness.
From Stdlib Require Import ZArith Lia.
From stdpp Require Import base list numbers sets.
#[local] Open Scope Z_scope.

Module StunSpec.
Import Srtp Stun.

(** ** Attribute lists *)

Definition attr : Type := Z * bytes.

Definition attr_ok (a : attr) : Prop := 0 <= a.1 < 2 ^ 16 /\ blen a.2 <= 65532.

Definition padding (n : Z) : Z := (- n) mod 4.

Definition enc_attr (a : attr) : bytes :=
  be16 a.1 ++ be16 (blen a.2) ++ a.2 ++ replicate (Z.to_nat (padding (blen a.2))) 0.

Definition enc_attrs (l : list attr) : bytes := mjoin (enc_attr <$> l).

(** the value of the first attribute of type [t] *)
Fixpoint lookup_attr (t : Z) (l : list attr) : option bytes :=
  match l with
  | [] => None
  | a :: l => if a.1 =? t then Some a.2 else lookup_attr t l
  end.

(** the message with attributes [l] *)
Definition msg_repr (msg : rtc_stun_msg_t) (ty : Z) (txn : bytes) (l : list attr) : Prop :=
  msg = mk_stun_msg ty (blen (enc_attrs l)) txn
          (stun_header ty (blen (enc_attrs l)) txn ++ enc_attrs l).

(** a bitwise CRC-32 with the reflected IEEE 802.3 polynomial *)
Definition crc_bit (c : Z) : Z :=
  Z.lxor (Z.shiftr c 1) (if Z.testbit c 0 then 0xEDB88320 else 0).
Definition crc_byte (c b : Z) : Z := Nat.iter 8 crc_bit (Z.lxor c b).
Definition crc32_ieee (d : bytes) : Z :=
  Z.lxor (foldl crc_byte 0xFFFFFFFF d) 0xFFFFFFFF.

(** ** Padding *)

Lemma land_lnot3 x : Z.land x (Z.lnot 3) = x - x mod 4.
Proof.
  change (Z.lnot 3) with (Z.lnot (Z.ones 2)). rewrite <-Z.ldiff_land, Z.ldiff_ones_r by lia.
  rewrite Z.shiftl_mul_pow2, Z.shiftr_div_pow2 by lia. pow_eval. dlia.
Qed.

Lemma pad4_spec n : 0 <= n <= 65532 -> pad4 n = n + padding n.
Proof.
  intros. unfold pad4, padding. rewrite land_lnot3, u16_id by (pow_eval; dlia). dlia.
Qed.

Lemma padding_range n : 0 <= padding n < 4.
Proof. unfold padding. dlia. Qed.

Lemma pad4_nonneg n : 0 <= pad4 n.
Proof. apply u16_range. Qed.

Lemma enc_attr_len a : attr_ok a -> blen (enc_attr a) = 4 + pad4 (blen a.2).
Proof.
  intros [_ Hv]. pose proof (blen_nonneg a.2). pose proof (padding_range (blen a.2)).
  rewrite pad4_spec by lia. unfold enc_attr. lens. lia.
Qed.

Lemma enc_attrs_cons a l : enc_attrs (a :: l) = enc_attr a ++ enc_attrs l.
Proof. done. Qed.

Lemma enc_attrs_app l1 l2 : enc_attrs (l1 ++ l2) = enc_attrs l1 ++ enc_attrs l2.
Proof. unfold enc_attrs. by rewrite fmap_app, join_app. Qed.

Lemma enc_attrs_one a : enc_attrs [a] = enc_attr a.
Proof. rewrite enc_attrs_cons. apply app_nil_r. Qed.

Lemma enc_attrs_length l : (length l <= length (enc_attrs l))%nat.
Proof.
  induction l as [|a l IH]; [done|]. rewrite enc_attrs_cons, length_app.
  unfold enc_attr at 1. rewrite length_app. simpl length. lia.
Qed.

Lemma stun_header_len ty l txn : length txn = 12%nat -> blen (stun_header ty l txn) = 20.
Proof. intros E. unfold stun_header. lens. unfold blen. rewrite E. lia. Qed.

Lemma append_attr_spec b maxlen a :
  attr_ok a -> blen b + blen (enc_attr a) <= maxlen ->
  append_attr b maxlen a.1 a.2 (blen a.2) = Ok (b ++ enc_attr a).
Proof.
  intros Ha. rewrite enc_attr_len by done. destruct Ha as [Ht Hv]. intros Hfit.
  pose proof (blen_nonneg a.2). pose proof (padding_range (blen a.2)).
  pose proof (pad4_spec (blen a.2) ltac:(lia)) as Hp.
  unfold append_attr. repeat pass_guard.
  rewrite (bind_Ok_l _ _ a.2).
  2: { rewrite sub_Ok by lia. unfold blen. by rewrite Nat2Z.id, drop_0, take_ge by lia. }
  unfold enc_attr. do 4 f_equal. rewrite Hp, take_ge.
  - do 2 f_equal. lia.
  - rewrite length_app, length_replicate. unfold blen in *. lia.
Qed.

Lemma append_attr_nomem b maxlen a :
  attr_ok a -> maxlen < blen b + blen (enc_attr a) ->
  append_attr b maxlen a.1 a.2 (blen a.2) = Err RTC_ERR_NOMEM.
Proof.
  intros Ha. rewrite enc_attr_len by done. intros. unfold append_attr, fail_if. cbv zeta.
  destruct (Z.ltb_spec maxlen (blen b + 4 + pad4 (blen a.2))); [done|lia].
Qed.

(** ** Reading an attribute *)

Section Read.
Context (pre post : bytes) (a : attr) (Ha : attr_ok a).

Lemma read_attr_type : rd_u16 (pre ++ enc_attr a ++ post) (blen pre) = Ok a.1.
Proof. unfold enc_attr. rewrite <-app_assoc. apply rd_u16_at; [done|apply Ha]. Qed.

Lemma read_attr_len : rd_u16 (pre ++ enc_attr a ++ post) (blen pre + 2) = Ok (blen a.2).
Proof.
  unfold enc_attr. rewrite <-!app_assoc, (app_assoc pre). destruct Ha.
  pose proof (blen_nonneg a.2). apply rd_u16_at; [by lens|lia].
Qed.

Lemma read_attr_value :
  sub (pre ++ enc_attr a ++ post) (blen pre + 4) (blen a.2) = Ok a.2.
Proof.
  unfold enc_attr. rewrite <-!app_assoc, (app_assoc (be16 a.1)), (app_assoc pre).
  apply sub_mid; [by lens|done].
Qed.
End Read.

(** ** Finding attributes *)

Lemma find_attr_loop_spec l : forall fuel pre t,
  Forall attr_ok l -> (length l <= fuel)%nat ->
  find_attr_loop fuel (pre ++ enc_attrs l) t (blen pre) = Ok (lookup_attr t l).
Proof.
  induction l as [|a l IH]; intros fuel pre t Hl Hf.
  - destruct fuel; unfold find_attr_loop; fold find_attr_loop;
      by rewrite (proj2 (Z.leb_gt _ _)) by (change (enc_attrs []) with (@nil Z); lens; lia).
  - apply Forall_cons_1 in Hl as [Ha Hl]. destruct fuel as [|fuel]; [simpl in Hf; lia|].
    rewrite enc_attrs_cons. unfold find_attr_loop; fold find_attr_loop.
    pose proof (enc_attr_len a Ha) as Hlen. pose proof (blen_nonneg (enc_attrs l)).
    pose proof (blen_nonneg a.2). destruct (padding_range (blen a.2)).
    pose proof (pad4_spec (blen a.2) ltac:(destruct Ha; lia)) as Hp.
    rewrite (proj2 (Z.leb_le _ _)) by (lens; lia).
    step (read_attr_type pre (enc_attrs l) a Ha). step (read_attr_len pre (enc_attrs l) a Ha).
    rewrite (proj2 (Z.ltb_ge _ _)) by (lens; lia). simpl lookup_attr.
    destruct (a.1 =? t); [by step (read_attr_value pre (enc_attrs l) a)|].
    rewrite app_assoc. replace (blen pre + _) with (blen (pre ++ enc_attr a)) by (lens; lia).
    apply IH; [done|simpl in Hf; lia].
Qed.

Lemma find_attr_repr msg ty txn l t :
  msg_repr msg ty txn l -> length txn = 12%nat -> Forall attr_ok l ->
  rtc_stun_find_attr msg t = Ok (lookup_attr t l).
Proof.
  intros -> Htx Hl. unfold rtc_stun_find_attr, STUN_HEADER_SIZE. cbn [buf].
  rewrite <-(stun_header_len ty (blen (enc_attrs l)) txn Htx).
  apply find_attr_loop_spec; [done|]. rewrite length_app. pose proof (enc_attrs_length l). lia.
Qed.

Lemma lookup_attr_app t l1 l2 :
  lookup_attr t (l1 ++ l2) = match lookup_attr t l1 with Some v => Some v | None => lookup_attr t l2 end.
Proof. induction l1 as [|a l1 IH]; simpl; [done|]. by destruct (a.1 =? t). Qed.

(** ** Parsing *)

Lemma parse_repr msg ty txn l :
  msg_repr msg ty txn l -> 0 <= ty < 2 ^ 16 -> length txn = 12%nat ->
  blen (buf msg) <= STUN_MAX_MSG_SIZE -> rtc_stun_parse (buf msg) = Ok msg.
Proof.
  intros -> Hty Htx. cbn [buf]. set (n := blen (enc_attrs l)).
  pose proof (stun_header_len ty n txn Htx) as Hh. rewrite blen_app, Hh. fold n.
  assert (0 <= n) by apply blen_nonneg. unfold STUN_MAX_MSG_SIZE. intros Hfit.
  unfold rtc_stun_parse, STUN_HEADER_SIZE, STUN_MAX_MSG_SIZE.
  rewrite blen_app, Hh. fold n. pass_guard.
  rewrite (bind_Ok_l _ _ ty).
  2: { unfold stun_header. rewrite <-!app_assoc. by apply (rd_u16_at []). }
  rewrite (bind_Ok_l _ _ n).
  2: { unfold stun_header. rewrite <-!app_assoc. apply rd_u16_at; [done|lia]. }
  rewrite (bind_Ok_l _ _ STUN_MAGIC_COOKIE).
  2: { unfold stun_header. rewrite <-!app_assoc, (app_assoc (be16 ty)). by apply rd_u32_at. }
  rewrite Z.eqb_refl. cbn [negb fail_if]. rewrite (bind_Ok_l (Ok ()) _ ()) by done.
  rewrite (bind_Ok_l _ _ txn).
  2: { unfold stun_header. rewrite <-!app_assoc, !(app_assoc (be16 ty)), (app_assoc (_ ++ _)).
       apply sub_mid; [done|]. unfold blen. by rewrite Htx. }
  pass_guard. rewrite (proj2 (Z.ltb_ge 1500 _)) by lia.
  rewrite sub_Ok by (rewrite ?blen_app, ?Hh; fold n; lia). cbn [mbind res_bind]. f_equal. f_equal.
  rewrite drop_0, take_ge; [done|]. unfold n, blen in *. rewrite length_app. lia.
Qed.

(** ** Building *)

Lemma write_len_header ty n n' txn rest :
  length txn = 12%nat ->
  write_u16_at (stun_header ty n txn ++ rest) 2 n' = Ok (stun_header ty n' txn ++ rest).
Proof.
  intros E. unfold write_u16_at. pose proof (blen_nonneg rest).
  rewrite blen_app, stun_header_len by done. pass_guard. done.
Qed.

Lemma write_type_header ty ty' n txn rest :
  length txn = 12%nat ->
  write_u16_at (stun_header ty n txn ++ rest) 0 ty' = Ok (stun_header ty' n txn ++ rest).
Proof.
  intros E. unfold write_u16_at. pose proof (blen_nonneg rest).
  rewrite blen_app, stun_header_len by done. pass_guard. done.
Qed.

Lemma write_header_app h ty n txn rest :
  blen h = 20 -> write_header (h ++ rest) ty n txn = Ok (stun_header ty n txn ++ rest).
Proof.
  intros E. unfold write_header, STUN_HEADER_SIZE. pose proof (blen_nonneg rest). rewrite blen_app.
  pass_guard. by rewrite drop_app_length' by (unfold blen in E; lia).
Qed.

Lemma add_attr_spec msg ty txn l a :
  msg_repr msg ty txn l -> length txn = 12%nat -> attr_ok a ->
  blen (buf msg) + blen (enc_attr a) <= STUN_MAX_MSG_SIZE ->
  exists msg', add_attr a.1 a.2 (blen a.2) msg = (msg', Ok ()) /\ msg_repr msg' ty txn (l ++ [a]).
Proof.
  unfold msg_repr. intros Hm Htx Ha. subst msg. cbn [buf]. intros Hfit.
  unfold add_attr, msg_append_attr, msg_update_header, mbind, st_bind, get, lift, put.
  cbn [buf type len txn_id]. rewrite (append_attr_spec _ _ a) by done.
  cbn [buf type len txn_id]. rewrite <-app_assoc, <-enc_attrs_one, <-enc_attrs_app.
  rewrite blen_app, stun_header_len by done.
  assert (Hr : 0 <= blen (enc_attrs (l ++ [a])) < 2 ^ 16).
  { split; [apply blen_nonneg|]. revert Hfit. unfold STUN_MAX_MSG_SIZE.
    rewrite enc_attrs_app, enc_attrs_one, !blen_app, stun_header_len by done. lia. }
  unfold STUN_HEADER_SIZE. rewrite Z.add_simpl_l, u16_id by done.
  rewrite write_len_header by done. by eexists.
Qed.

Lemma add_attr_full msg ty txn l a :
  msg_repr msg ty txn l -> attr_ok a ->
  STUN_MAX_MSG_SIZE < blen (buf msg) + blen (enc_attr a) ->
  add_attr a.1 a.2 (blen a.2) msg = (msg, Err RTC_ERR_NOMEM).
Proof.
  unfold msg_repr. intros Hm Ha. subst msg. cbn [buf]. intros Hfit. 
  unfold add_attr, msg_append_attr, mbind, st_bind, get, lift. cbn [buf type len txn_id].
  by rewrite (append_attr_nomem _ _ a).
Qed.

(** the attributes of [l], added one by one *)
Fixpoint add_attrs (l : list attr) : st rtc_stun_msg_t unit :=
  match l with
  | [] => mret ()
  | a :: l => _ ← add_attr a.1 a.2 (blen a.2); add_attrs l
  end.

Lemma add_attrs_spec l : forall msg ty txn l0,
  msg_repr msg ty txn l0 -> length txn = 12%nat -> Forall attr_ok l ->
  blen (buf msg) + blen (enc_attrs l) <= STUN_MAX_MSG_SIZE ->
  exists msg', add_attrs l msg = (msg', Ok ()) /\ msg_repr msg' ty txn (l0 ++ l).
Proof.
  induction l as [|a l IH]; intros msg ty txn l0 Hm Htx Hl Hfit.
  - exists msg. by rewrite app_nil_r.
  - apply Forall_cons_1 in Hl as [Ha Hl]. rewrite enc_attrs_cons, blen_app in Hfit.
    pose proof (blen_nonneg (enc_attrs l)).
    destruct (add_attr_spec msg ty txn l0 a) as (m1 & E1 & H1); auto with lia.
    destruct (IH m1 ty txn (l0 ++ [a])) as (m2 & E2 & H2); auto.
    { rewrite H1. rewrite Hm in Hfit. cbn [buf] in *. revert Hfit.
      rewrite enc_attrs_app, enc_attrs_one, !blen_app, !stun_header_len by done. lia. }
    exists m2. unfold add_attrs; fold add_attrs. rewrite st_bind_eq, E1.
    by rewrite <-app_assoc in H2.
Qed.

Lemma crc32_total d : exists c, crc32_calc d = Ok c.
Proof.
  assert (Hl : forall crc, exists c, crc32_loop d crc = Ok c).
  { induction d as [|b d IH]; intros crc; [by eexists|]. simpl. unfold crc32_step.
    rewrite land_255. destruct (rd_in_range crc32_table (Z.lxor crc b mod 256)) as [t ->].
    { change (blen crc32_table) with 256. apply Z.mod_pos_bound. lia. }
    apply IH. }
  unfold crc32_calc. destruct (Hl 0xFFFFFFFF) as [c ->]. by eexists.
Qed.

Lemma append_fingerprint_spec b :
  blen b + 8 <= STUN_MAX_MSG_SIZE ->
  exists fp, blen fp = 4 /\ append_fingerprint b = Ok (b ++ enc_attr (STUN_ATTR_FINGERPRINT, fp)).
Proof.
  intros Hfit. destruct (crc32_total b) as [c Hc]. unfold append_fingerprint. rewrite Hc.
  eexists; split; [|apply (append_attr_spec b _ (STUN_ATTR_FINGERPRINT, be32 _))]; [done|done|].
  exact Hfit.
Qed.

Lemma fp_attr_ok fp : blen fp = 4 -> attr_ok (STUN_ATTR_FINGERPRINT, fp).
Proof. intros. split; [done|]. cbn [snd]. lia. Qed.

Section Keyed.
Context `{!Evp, !EvpLaws, !StunEnv}.

(** the MESSAGE-INTEGRITY value of a message with attributes [l] *)
Definition mac_of (key : bytes) (ty : Z) (txn : bytes) (l : list attr) : bytes :=
  hmac_array key (stun_header ty (blen (enc_attrs l) + 24) txn ++ enc_attrs l).

Lemma hmac_array_len key d : blen (hmac_array key d) = 20.
Proof.
  unfold hmac_array, stun_hmac_sha1. destruct (hmac_ok key d) as (t & -> & Ht).
  unfold blen. by rewrite Ht.
Qed.

Lemma mac_attr_ok key d : attr_ok (STUN_ATTR_MESSAGE_INTEGRITY, hmac_array key d).
Proof. split; [done|]. cbn. by rewrite hmac_array_len. Qed.

Lemma enc_mac_len key d : blen (enc_attr (STUN_ATTR_MESSAGE_INTEGRITY, hmac_array key d)) = 24.
Proof. rewrite enc_attr_len by apply mac_attr_ok. cbn [snd]. by rewrite hmac_array_len. Qed.

(** appending MESSAGE-INTEGRITY to a message whose header is up to date *)
Lemma append_mac ty txn l key :
  length txn = 12%nat -> 20 + blen (enc_attrs l) + 24 <= STUN_MAX_MSG_SIZE ->
  let b := stun_header ty (blen (enc_attrs l) + 24) txn ++ enc_attrs l in
  append_attr b STUN_MAX_MSG_SIZE STUN_ATTR_MESSAGE_INTEGRITY (hmac_array key b) 20
  = Ok (stun_header ty (blen (enc_attrs l) + 24) txn
        ++ enc_attrs (l ++ [(STUN_ATTR_MESSAGE_INTEGRITY, mac_of key ty txn l)])).
Proof.
  intros Htx Hfit b.
  pose proof (append_attr_spec b STUN_MAX_MSG_SIZE (STUN_ATTR_MESSAGE_INTEGRITY, hmac_array key b)
    (mac_attr_ok _ _)) as Ha.
  rewrite enc_mac_len in Ha. cbn [fst snd] in Ha. rewrite hmac_array_len in Ha. rewrite Ha.
  - unfold b. by rewrite enc_attrs_app, enc_attrs_one, app_assoc.
  - unfold b. rewrite blen_app, stun_header_len by done. lia.
Qed.

Definition finalized (msg : rtc_stun_msg_t) (key : bytes) (ty : Z) (txn : bytes) (l : list attr) : Prop :=
  exists fp, blen fp = 4 /\
  msg_repr msg ty txn (l ++ [(STUN_ATTR_MESSAGE_INTEGRITY, mac_of key ty txn l);
                             (STUN_ATTR_FINGERPRINT, fp)]).


Lemma finalize_key_spec msg ty txn l key :
  msg_repr msg ty txn l -> length txn = 12%nat -> key <> [] ->
  20 + blen (enc_attrs l) + 32 <= STUN_MAX_MSG_SIZE ->
  exists msg', rtc_stun_finalize_key key msg = (msg', Ok ()) /\ finalized msg' key ty txn l.
Proof.
  unfold msg_repr. intros Hm Htx Hkey Hfit. subst msg. pose proof (blen_nonneg (enc_attrs l)).
  set (l1 := l ++ [(STUN_ATTR_MESSAGE_INTEGRITY, mac_of key ty txn l)]).
  assert (Hl1 : blen (enc_attrs l1) = blen (enc_attrs l) + 24).
  { unfold l1, mac_of. by rewrite enc_attrs_app, enc_attrs_one, blen_app, enc_mac_len. }
  destruct (append_fingerprint_spec (stun_header ty (blen (enc_attrs l1) + 8) txn ++ enc_attrs l1))
    as (fp & Hfp & Efp).
  { rewrite blen_app, stun_header_len by done. lia. }
  unfold STUN_MAX_MSG_SIZE, STUN_HEADER_SIZE in *.
  unfold rtc_stun_finalize_key, set_buf, modify, mbind, st_bind, get, lift, put.
  cbn [buf type len txn_id]. rewrite (proj2 (Z.ltb_lt 0 (blen key))).
  2: { destruct key; [done|]. rewrite blen_cons. pose proof (blen_nonneg key). lia. }
  rewrite !blen_app, !stun_header_len, !write_len_header by done. unfold STUN_HEADER_SIZE.
  rewrite !Z.add_simpl_l, !(u16_id (blen (enc_attrs l) + 24)) by lia. cbn [buf type len txn_id].
  pose proof (append_mac ty txn l key Htx) as Hmac. cbv zeta in Hmac.
  rewrite Hmac by (unfold STUN_MAX_MSG_SIZE; lia). fold l1.
  rewrite blen_app, stun_header_len, Z.add_simpl_l, write_len_header, u16_id by (done || lia).
  rewrite Efp, blen_app, blen_app, stun_header_len by done.
  rewrite <-app_assoc, <-enc_attrs_one, <-enc_attrs_app, <-Z.add_assoc, Z.add_simpl_l.
  rewrite <-blen_app, <-enc_attrs_app. rewrite write_type_header, write_len_header by done.
  eexists; split; [done|]. exists fp; split; [done|]. unfold msg_repr.
  replace (l ++ [(STUN_ATTR_MESSAGE_INTEGRITY, mac_of key ty txn l); (STUN_ATTR_FINGERPRINT, fp)])
    with (l1 ++ [(STUN_ATTR_FINGERPRINT, fp)]) by (unfold l1; by rewrite <-app_assoc).
  rewrite !enc_attrs_app, !blen_app, Hl1, !enc_attrs_one, !enc_attr_len by by apply fp_attr_ok.
  cbn [snd]. rewrite Hfp. rewrite u16_id by (change (pad4 4) with 4; lia). done.
Qed.

(** ** Verifying *)

Lemma verify_walk key end_ l : forall fuel pre rest,
  Forall attr_ok l -> Forall (fun a => a.1 <> STUN_ATTR_MESSAGE_INTEGRITY) l ->
  blen pre + blen (enc_attrs l) <= end_ ->
  verify_loop (length l + fuel) (pre ++ enc_attrs l ++ rest) key end_ (blen pre)
  = verify_loop fuel (pre ++ enc_attrs l ++ rest) key end_ (blen (pre ++ enc_attrs l)).
Proof.
  induction l as [|a l IH]; intros fuel pre rest Hl Hn Hend.
  - change (enc_attrs []) with (@nil Z). by rewrite app_nil_r.
  - apply Forall_cons_1 in Hl as [Ha Hl]. apply Forall_cons_1 in Hn as [Hna Hn].
    rewrite enc_attrs_cons, blen_app in Hend. pose proof (enc_attr_len a Ha) as Hlen.
    pose proof (blen_nonneg (enc_attrs l)). pose proof (pad4_nonneg (blen a.2)).
    rewrite enc_attrs_cons, <-app_assoc. cbn [length Nat.add].
    change (verify_loop (S ?n)) with (verify_loop (S n)). unfold verify_loop at 1. fold verify_loop.
    rewrite (proj2 (Z.leb_le _ _)) by lia.
    step (read_attr_type pre (enc_attrs l ++ rest) a Ha).
    step (read_attr_len pre (enc_attrs l ++ rest) a Ha).
    rewrite (proj2 (Z.eqb_neq _ _)) by done.
    specialize (IH fuel (pre ++ enc_attr a) rest Hl Hn).
    rewrite !blen_app, <-!app_assoc, Hlen in IH. rewrite IH by lia.
    f_equal. rewrite !blen_app, Hlen. lia.
Qed.

Lemma verify_at_mac key ty txn l n fuel end_ rest :
  let mac := (STUN_ATTR_MESSAGE_INTEGRITY, mac_of key ty txn l) in
  length txn = 12%nat ->
  20 + blen (enc_attrs l) + 24 <= end_ -> 20 + blen (enc_attrs l) <= STUN_MAX_MSG_SIZE ->
  verify_loop (S fuel) (stun_header ty n txn ++ enc_attrs l ++ enc_attr mac ++ rest) key end_
    (blen (stun_header ty n txn ++ enc_attrs l)) = Ok ().
Proof.
  intros mac Htx Hend Hmax. set (b := stun_header ty n txn ++ enc_attrs l).
  assert (Hb : blen b = 20 + blen (enc_attrs l)).
  { unfold b. by rewrite blen_app, stun_header_len. }
  pose proof (blen_nonneg (enc_attrs l)). pose proof (mac_attr_ok key
    (stun_header ty (blen (enc_attrs l) + 24) txn ++ enc_attrs l)) as Hok.
  rewrite app_assoc. fold b. unfold verify_loop. rewrite (proj2 (Z.leb_le _ _)) by lia.
  step (read_attr_type b rest mac Hok). step (read_attr_len b rest mac Hok).
  rewrite Z.eqb_refl. unfold integrity_at. fold (mac_of key ty txn l) in Hok.
  assert (H20 : blen mac.2 = 20) by apply hmac_array_len.
  rewrite H20. cbn [negb Z.eqb Pos.eqb fail_if].
  rewrite (bind_Ok_l (Ok ()) _ ()) by done. pass_guard.
  rewrite (bind_Ok_l _ _ b).
  2: { apply (sub_mid []); [done|done]. }
  rewrite (bind_Ok_l _ _ (stun_header ty (blen (enc_attrs l) + 24) txn ++ enc_attrs l)).
  2: { unfold b. rewrite write_len_header by done. do 3 f_equal. fold b. rewrite Hb.
       unfold STUN_HEADER_SIZE. rewrite u16_id by (unfold STUN_MAX_MSG_SIZE in *; lia). lia. }
  pose proof (read_attr_value b rest mac) as Hv. rewrite H20 in Hv. step Hv.
  by rewrite bool_decide_eq_true_2.
Qed.

Lemma verify_finalized msg key ty txn l :
  finalized msg key ty txn l -> length txn = 12%nat -> Forall attr_ok l ->
  Forall (fun a => a.1 <> STUN_ATTR_MESSAGE_INTEGRITY) l ->
  blen (buf msg) <= STUN_MAX_MSG_SIZE ->
  rtc_stun_verify_integrity_key (buf msg) key = Ok ().
Proof.
  intros (fp & Hfp & ->) Htx Hl Hn. cbn [buf].
  set (mac := (STUN_ATTR_MESSAGE_INTEGRITY, mac_of key ty txn l)).
  set (rest := enc_attr (STUN_ATTR_FINGERPRINT, fp)). set (n := blen (enc_attrs (l ++ _))).
  assert (E : enc_attrs (l ++ [mac; (STUN_ATTR_FINGERPRINT, fp)])
              = enc_attrs l ++ enc_attr mac ++ rest).
  { by rewrite enc_attrs_app, enc_attrs_cons, enc_attrs_one. }
  assert (Hmac : blen (enc_attr mac) = 24) by apply enc_mac_len.
  assert (Hrest : blen rest = 8).
  { unfold rest. rewrite enc_attr_len by by apply fp_attr_ok. cbn [snd]. by rewrite Hfp. }
  assert (Hn' : n = blen (enc_attrs l) + 32) by (unfold n; rewrite E, !blen_app; lia).
  pose proof (blen_nonneg (enc_attrs l)). pose proof (stun_header_len ty n txn Htx) as Hh.
  rewrite E, blen_app, Hh, blen_app, blen_app. unfold STUN_MAX_MSG_SIZE. intros Hfit.
  unfold rtc_stun_verify_integrity_key, STUN_HEADER_SIZE. rewrite !blen_app, Hh. pass_guard.
  rewrite (bind_Ok_l _ _ n).
  2: { unfold stun_header. rewrite <-!app_assoc. apply rd_u16_at; [done|lia]. }
  rewrite (proj2 (Z.ltb_ge _ _)) by lia. rewrite <-Hh at 2.
  assert (Hfuel : exists fuel, length (stun_header ty n txn ++ enc_attrs l ++ enc_attr mac ++ rest)
                    = (length l + S fuel)%nat).
  { rewrite !length_app. pose proof (enc_attrs_length l). exists (length (stun_header ty n txn)
      + (length (enc_attrs l) - length l) + length (enc_attr mac) + length rest - 1)%nat.
    unfold blen in *. lia. }
  destruct Hfuel as [fuel ->]. rewrite verify_walk by (done || lia).
  apply verify_at_mac; unfold STUN_MAX_MSG_SIZE; done || lia.
Qed.


End Keyed.

(** ** CRC-32 *)

Lemma crc_bit_lxor a b : crc_bit (Z.lxor a b) = Z.lxor (crc_bit a) (crc_bit b).
Proof.
  unfold crc_bit. rewrite Z.shiftr_lxor, Z.lxor_spec.
  set (p := Z.shiftr a 1). set (q := Z.shiftr b 1). generalize 0xEDB88320 as c. intros c.
  apply Z.bits_inj'. intros n _.
  destruct (Z.testbit a 0), (Z.testbit b 0); cbn [xorb]; rewrite !Z.lxor_spec, ?Z.bits_0;
    by destruct (Z.testbit p n), (Z.testbit q n), (Z.testbit c n).
Qed.

Lemma crc_iter_lxor n a b :
  Nat.iter n crc_bit (Z.lxor a b) = Z.lxor (Nat.iter n crc_bit a) (Nat.iter n crc_bit b).
Proof. induction n as [|n IH]; [done|]. simpl. by rewrite IH, crc_bit_lxor. Qed.

Lemma crc_iter_shift n h : Nat.iter n crc_bit (Z.shiftl h (Z.of_nat n)) = h.
Proof.
  revert h. induction n as [|n IH]; intros h; [apply Z.shiftl_0_r|].
  rewrite Nat.iter_succ_r. replace (crc_bit _) with (Z.shiftl h (Z.of_nat n)); [apply IH|].
  unfold crc_bit. rewrite Z.shiftl_spec_low, Z.lxor_0_r by lia.
  rewrite Z.shiftr_shiftl_l by lia. f_equal. lia.
Qed.

Lemma crc32_table_ieee i : 0 <= i < 256 -> rd crc32_table i = Ok (Nat.iter 8 crc_bit i).
Proof.
  intros Hi. assert (E : crc32_table = (fun n => Nat.iter 8 crc_bit (Z.of_nat n)) <$> seq 0 256)
    by (vm_compute; reflexivity).
  apply rd_Ok. split; [lia|]. rewrite E, list_lookup_fmap, lookup_seq_lt by lia. simpl.
  by rewrite Z2Nat.id by lia.
Qed.

Lemma crc32_step_ieee crc b : byte_ok b -> crc32_step crc b = Ok (crc_byte crc b).
Proof.
  intros Hb. unfold crc32_step, crc_byte. set (x := Z.lxor crc b).
  rewrite land_255. rewrite crc32_table_ieee by (apply Z.mod_pos_bound; lia).
  cbn [mbind res_bind]. f_equal.
  replace (Z.shiftr crc 8) with (Z.shiftr x 8).
  2: { unfold x. rewrite Z.shiftr_lxor, (Z.shiftr_div_pow2 b) by lia.
       rewrite Z.div_small by (unfold byte_ok in Hb; lia). apply Z.lxor_0_r. }
  rewrite <-(crc_iter_shift 8 (Z.shiftr x 8)), <-crc_iter_lxor. f_equal.
  rewrite Z.lxor_comm, <-Z.add_nocarry_lxor.
  - rewrite Z.shiftl_mul_pow2, Z.shiftr_div_pow2 by lia. pow_eval. change (2 ^ Z.of_nat 8) with 256. dlia.
  - apply Z.bits_inj'. intros n Hn. rewrite Z.land_spec, Z.bits_0. change 256 with (2 ^ 8).
    destruct (Z.lt_ge_cases n 8); [rewrite Z.shiftl_spec_low by lia; done|].
    rewrite Z.mod_pow2_bits_high by lia. apply andb_false_r.
Qed.

Lemma crc32_loop_ieee d : forall crc, bytes_ok d -> crc32_loop d crc = Ok (foldl crc_byte crc d).
Proof.
  induction d as [|b d IH]; intros crc Hd; [done|]. apply Forall_cons_1 in Hd as [Hb Hd].
  simpl. rewrite crc32_step_ieee by done. by apply IH.
Qed.

(** ** Theorems *)

(** the table-driven CRC of FINGERPRINT is the bitwise reflected CRC-32 of
    IEEE 802.3 on every input. *)
Theorem crc32_is_ieee d : bytes_ok d -> crc32_calc d = Ok (crc32_ieee d).
Proof. intros. unfold crc32_calc. by rewrite crc32_loop_ieee. Qed.

Lemma crc32_is_ieee_witness :
  crc32_calc [49; 50; 51; 52; 53; 54; 55; 56; 57] = Ok 0xCBF43926.
Proof.
  rewrite (crc32_is_ieee [49; 50; 51; 52; 53; 54; 55; 56; 57]) by (apply bytes_okb_ok; reflexivity).
  vm_compute. reflexivity.
Defined.

Section Theorems.
Context `{!Evp, !EvpLaws, !StunEnv}.

Lemma finalized_len msg key ty txn l :
  finalized msg key ty txn l -> length txn = 12%nat ->
  blen (buf msg) = 20 + blen (enc_attrs l) + 32.
Proof.
  intros (fp & Hfp & ->) Htx. cbn [buf]. rewrite blen_app, stun_header_len by done.
  rewrite enc_attrs_app, enc_attrs_cons, enc_attrs_one, !blen_app. unfold mac_of.
  rewrite enc_mac_len, enc_attr_len by by apply fp_attr_ok. cbn [snd]. rewrite Hfp.
  change (pad4 4) with 4. lia.
Qed.

(** what a receiver gets out of a finalised message *)
Definition received_as (data key : bytes) (ty : Z) (txn : bytes) (l : list attr) : Prop :=
  exists msg, rtc_stun_parse data = Ok msg /\ type msg = ty /\ txn_id msg = txn /\
    (forall t, t <> STUN_ATTR_MESSAGE_INTEGRITY -> t <> STUN_ATTR_FINGERPRINT ->
       rtc_stun_find_attr msg t = Ok (lookup_attr t l)) /\
    rtc_stun_verify_integrity_key data key = Ok ().

Lemma finalized_received msg key ty txn l :
  finalized msg key ty txn l -> 0 <= ty < 2 ^ 16 -> length txn = 12%nat ->
  Forall attr_ok l -> Forall (fun a => a.1 <> STUN_ATTR_MESSAGE_INTEGRITY) l ->
  20 + blen (enc_attrs l) + 32 <= STUN_MAX_MSG_SIZE ->
  received_as (buf msg) key ty txn l.
Proof.
  intros Hf Hty Htx Hl Hn Hfit. pose proof (finalized_len _ _ _ _ _ Hf Htx) as Hlen.
  pose proof Hf as (fp & Hfp & Hr). exists msg.
  split; [|split; [by rewrite Hr|split; [by rewrite Hr|split]]].
  - eapply parse_repr; eauto with lia.
  - intros t Hmi Hfpt. rewrite (find_attr_repr msg ty txn _ t Hr Htx).
    2: { apply Forall_app. split; [done|]. repeat constructor; apply mac_attr_ok || by apply fp_attr_ok. }
    rewrite lookup_attr_app. destruct (lookup_attr t l); [done|]. cbn [lookup_attr fst].
    rewrite (proj2 (Z.eqb_neq _ t)) by done. by rewrite (proj2 (Z.eqb_neq _ t)) by done.
  - eapply verify_finalized; eauto with lia.
Qed.

(** C19: a request built attribute by attribute and finalised with a key is
    accepted by the receiving side: it parses to the same type and transaction
    id, every attribute is found with its value, and MESSAGE-INTEGRITY verifies
    under the key. *)
Theorem stun_request_roundtrip txn method l key :
  length txn = 12%nat -> 0 <= method < 2 ^ 16 -> key <> [] ->
  Forall attr_ok l -> Forall (fun a => a.1 <> STUN_ATTR_MESSAGE_INTEGRITY) l ->
  20 + blen (enc_attrs l) + 32 <= STUN_MAX_MSG_SIZE ->
  exists msg,
    (_ ← add_attrs l; rtc_stun_finalize_key key) (rtc_stun_build_request txn method) = (msg, Ok ()) /\
    received_as (buf msg) key method txn l.
Proof.
  intros Htx Hm Hkey Hl Hn Hfit.
  destruct (add_attrs_spec l (rtc_stun_build_request txn method) method txn []) as (m1 & E1 & R1); auto.
  { unfold msg_repr, rtc_stun_build_request. change (enc_attrs []) with (@nil Z).
    by rewrite app_nil_r. }
  { unfold rtc_stun_build_request. cbn [buf]. rewrite stun_header_len by done. lia. }
  destruct (finalize_key_spec m1 method txn l key) as (m2 & E2 & R2); auto.
  exists m2. rewrite st_bind_eq, E1. split; [done|]. by apply finalized_received.
Qed.

(** ** Binding requests and responses *)

Definition opt_attr (c : bool) (ty : Z) (v : bytes) : list attr := if c then [(ty, v)] else [].

(** the attributes of an ICE connectivity check, in the order they are sent *)
Definition binding_attrs (username : option bytes) (priority : Z) (use_candidate : bool)
    (tie_breaker : Z) (controlling : bool) : list attr :=
  (match username with Some u => [(STUN_ATTR_USERNAME, u)] | None => [] end)
  ++ opt_attr (0 <? priority) STUN_ATTR_PRIORITY (be32 priority)
  ++ opt_attr use_candidate STUN_ATTR_USE_CANDIDATE []
  ++ opt_attr (0 <? tie_breaker)
       (if controlling then STUN_ATTR_ICE_CONTROLLING else STUN_ATTR_ICE_CONTROLLED)
       (write_u64 tie_breaker).

Lemma append_if_spec c h l ty v :
  attr_ok (ty, v) -> blen h + blen (enc_attrs l) + blen (enc_attr (ty, v)) <= STUN_MAX_MSG_SIZE ->
  append_if c (h ++ enc_attrs l) ty v (blen v) = Ok (h ++ enc_attrs (l ++ opt_attr c ty v)).
Proof.
  intros Ha Hfit. destruct c; simpl; [|by rewrite app_nil_r].
  rewrite (append_attr_spec _ _ (ty, v)) by (done || rewrite blen_app; lia).
  by rewrite enc_attrs_app, enc_attrs_one, app_assoc.
Qed.

Definition username_ok (username : option bytes) : Prop :=
  match username with Some u => blen u <= 1380 | None => True end.

Lemma small_attr_ok ty v : 0 <= ty < 2 ^ 16 -> blen v <= 8 -> attr_ok (ty, v).
Proof. intros. split; [done|]. cbn [snd]. lia. Qed.

(** one optional attribute of [n] bytes after attributes of at most [m] bytes *)
Lemma append_opt c h l ty v m n :
  blen h = 20 -> Forall attr_ok l -> blen (enc_attrs l) <= m ->
  0 <= ty < 2 ^ 16 -> blen v <= 8 -> blen (enc_attr (ty, v)) = n ->
  20 + m + n <= STUN_MAX_MSG_SIZE ->
  let l' := l ++ opt_attr c ty v in
  append_if c (h ++ enc_attrs l) ty v (blen v) = Ok (h ++ enc_attrs l') /\
  Forall attr_ok l' /\ blen (enc_attrs l') <= m + n.
Proof.
  intros Hh Hl Hm Hty Hv Hn Hfit l'. pose proof (small_attr_ok ty v Hty Hv) as Ha.
  pose proof (blen_nonneg (enc_attr (ty, v))).
  split; [apply append_if_spec; auto with lia|]. unfold l', opt_attr.
  destruct c; [|rewrite app_nil_r; split; auto with lia].
  split; [apply Forall_app; split; [done|by apply Forall_singleton]|].
  rewrite enc_attrs_app, enc_attrs_one, blen_app. lia.
Qed.

Lemma username_attr username :
  username_ok username ->
  let l := match username with Some u => [(STUN_ATTR_USERNAME, u)] | None => [] end in
  (match username with
   | Some u => append_attr (replicate 20 0) STUN_MAX_MSG_SIZE STUN_ATTR_USERNAME u (u16 (blen u))
   | None => Ok (replicate 20 0)
   end) = Ok (replicate 20 0 ++ enc_attrs l) /\
  Forall attr_ok l /\ blen (enc_attrs l) <= 1384.
Proof.
  destruct username as [u|]; [|by repeat split]. intros Hu l. simpl in Hu.
  pose proof (blen_nonneg u). pose proof (padding_range (blen u)).
  assert (Ha : attr_ok (STUN_ATTR_USERNAME, u)) by (split; [done|cbn [snd]; lia]).
  assert (Hlen : blen (enc_attr (STUN_ATTR_USERNAME, u)) <= 1384).
  { rewrite enc_attr_len by done. cbn [snd]. rewrite pad4_spec by lia. unfold padding in *. dlia. }
  unfold l. rewrite enc_attrs_one, u16_id by lia.
  rewrite (append_attr_spec _ _ (STUN_ATTR_USERNAME, u)).
  - split; [done|]. split; [by apply Forall_singleton|done].
  - done.
  - rewrite blen_replicate. unfold STUN_MAX_MSG_SIZE. lia.
Qed.

(** the common tail of [rtc_stun_build_binding_request] *)
Lemma binding_tail h l txn p :
  blen h = 20 -> length txn = 12%nat -> 20 + blen (enc_attrs l) + 32 <= STUN_MAX_MSG_SIZE ->
  let ty := STUN_BINDING_REQUEST in
  exists msg,
    (b ← (b ← write_header (h ++ enc_attrs l) ty
              (u16 (blen (h ++ enc_attrs l) - STUN_HEADER_SIZE + 24)) txn;
          append_attr b STUN_MAX_MSG_SIZE STUN_ATTR_MESSAGE_INTEGRITY (hmac_array p b) 20);
     b ← write_header b ty (u16 (blen b - STUN_HEADER_SIZE + 8)) txn;
     b ← append_fingerprint b;
     let len := u16 (blen b - STUN_HEADER_SIZE) in
     b ← write_header b ty len txn;
     Ok (mk_stun_msg ty len txn b)) = Ok msg /\ finalized msg p ty txn l.
Proof.
  intros Hh Htx Hfit ty. unfold STUN_MAX_MSG_SIZE in Hfit. pose proof (blen_nonneg (enc_attrs l)).
  set (l1 := l ++ [(STUN_ATTR_MESSAGE_INTEGRITY, mac_of p ty txn l)]).
  assert (Hl1 : blen (enc_attrs l1) = blen (enc_attrs l) + 24).
  { unfold l1, mac_of. by rewrite enc_attrs_app, enc_attrs_one, blen_app, enc_mac_len. }
  rewrite blen_app, Hh. unfold STUN_HEADER_SIZE.
  rewrite Z.add_simpl_l, (u16_id (_ + 24)) by lia. rewrite write_header_app by done.
  rewrite (bind_Ok_l (Ok _) _ _ eq_refl).
  pose proof (append_mac ty txn l p Htx) as Hmac. cbv zeta in Hmac.
  rewrite Hmac by (unfold STUN_MAX_MSG_SIZE; lia). fold l1. rewrite (bind_Ok_l (Ok _) _ _ eq_refl).
  rewrite blen_app, stun_header_len, Z.add_simpl_l, u16_id by (done || lia).
  rewrite write_header_app by by apply stun_header_len. rewrite (bind_Ok_l (Ok _) _ _ eq_refl).
  destruct (append_fingerprint_spec (stun_header ty (blen (enc_attrs l1) + 8) txn ++ enc_attrs l1))
    as (fp & Hfp & Efp).
  { rewrite blen_app, stun_header_len by done. unfold STUN_MAX_MSG_SIZE. lia. }
  rewrite Efp, (bind_Ok_l (Ok _) _ _ eq_refl), <-enc_attrs_one, <-app_assoc, <-enc_attrs_app.
  cbv zeta. rewrite blen_app, stun_header_len, Z.add_simpl_l by done.
  rewrite write_header_app by by apply stun_header_len.
  eexists; split; [done|]. exists fp; split; [done|]. unfold msg_repr.
  replace (l ++ [_; _]) with (l1 ++ [(STUN_ATTR_FINGERPRINT, fp)]) by (unfold l1; by rewrite <-app_assoc).
  rewrite u16_id; [done|]. rewrite enc_attrs_app, blen_app, Hl1, enc_attrs_one, enc_attr_len
    by by apply fp_attr_ok. cbn [snd]. rewrite Hfp. change (pad4 4) with 4. lia.
Qed.

Lemma finalized_buf msg key ty txn l :
  finalized msg key ty txn l -> exists n rest, buf msg = stun_header ty n txn ++ rest.
Proof. intros (fp & _ & ->). cbn [buf]. eauto. Qed.

Lemma binding_request_received txn username p priority use_candidate tie_breaker controlling :
  length txn = 12%nat -> username_ok username ->
  exists msg,
    rtc_stun_build_binding_request txn username (Some p) priority use_candidate tie_breaker
      controlling = Ok msg /\ txn_id msg = txn /\
    (exists n rest, buf msg = stun_header STUN_BINDING_REQUEST n txn ++ rest) /\
    received_as (buf msg) p STUN_BINDING_REQUEST txn
      (binding_attrs username priority use_candidate tie_breaker controlling).
Proof.
  intros Htx Hu. destruct (username_attr username Hu) as (E1 & F1 & L1).
  set (l1 := match username with Some u => [(STUN_ATTR_USERNAME, u)] | None => [] end) in *.
  assert (Hmax : STUN_MAX_MSG_SIZE = 1500) by done.
  destruct (append_opt (0 <? priority) (replicate 20 0) l1 STUN_ATTR_PRIORITY (be32 priority) 1384 8)
    as (E2 & F2 & L2); try done.
  set (l2 := @app attr l1 (opt_attr (0 <? priority) STUN_ATTR_PRIORITY (be32 priority))) in *.
  destruct (append_opt use_candidate (replicate 20 0) l2 STUN_ATTR_USE_CANDIDATE [] (1384 + 8) 4)
    as (E3 & F3 & L3); try done.
  set (l3 := @app attr l2 (opt_attr use_candidate STUN_ATTR_USE_CANDIDATE [])) in *.
  destruct (append_opt (0 <? tie_breaker) (replicate 20 0) l3
    (if controlling then STUN_ATTR_ICE_CONTROLLING else STUN_ATTR_ICE_CONTROLLED)
    (write_u64 tie_breaker) (1384 + 8 + 4) 12) as (E4 & F4 & L4); try done; try (by destruct controlling).
  set (l4 := @app attr l3 (opt_attr (0 <? tie_breaker)
    (if controlling then STUN_ATTR_ICE_CONTROLLING else STUN_ATTR_ICE_CONTROLLED)
    (write_u64 tie_breaker))) in *.
  destruct (binding_tail (replicate 20 0) l4 txn p) as (msg & E5 & F5); auto; [rewrite Hmax; lia|].
  exists msg. split; [|split; [|split]].
  - unfold rtc_stun_build_binding_request. cbv zeta. step E1. step E2. step E3. step E4. exact E5.
  - by destruct F5 as (fp & _ & ->).
  - exact (finalized_buf _ _ _ _ _ F5).
  - replace (binding_attrs _ _ _ _ _) with l4.
    2: { unfold l4, l3, l2, l1, binding_attrs. by rewrite <-!app_assoc. }
    apply finalized_received; auto; [done| |rewrite Hmax; lia].
    unfold l4, l3, l2, l1, opt_attr. repeat (apply Forall_app; split);
      destruct username, (0 <? priority), use_candidate, (0 <? tie_breaker), controlling;
      repeat constructor; done.
Qed.

(** an ICE connectivity check built with a password of the peer is
    accepted by that peer: its attributes are exactly those requested, and
    MESSAGE-INTEGRITY verifies under the password. *)
Theorem binding_request_roundtrip txn username p priority use_candidate tie_breaker controlling :
  length txn = 12%nat -> username_ok username ->
  exists msg,
    rtc_stun_build_binding_request txn username (Some p) priority use_candidate tie_breaker
      controlling = Ok msg /\
    received_as (buf msg) p STUN_BINDING_REQUEST txn
      (binding_attrs username priority use_candidate tie_breaker controlling).
Proof.
  intros Htx Hu. destruct (binding_request_received txn username p priority use_candidate tie_breaker controlling Htx Hu)
    as (msg & E & _ & _ & Hr). eauto.
Qed.

Lemma xor_addr_len port ip : blen (xor_addr_value port ip) = 8.
Proof. done. Qed.

Lemma lxor_range n a b : 0 <= n -> 0 <= a < 2 ^ n -> 0 <= b < 2 ^ n -> 0 <= Z.lxor a b < 2 ^ n.
Proof.
  intros Hn Ha Hb. split; [apply Z.lxor_nonneg; lia|].
  destruct (Z.eq_dec (Z.lxor a b) 0) as [->|]; [lia|].
  apply Z.log2_lt_pow2; [pose proof (proj2 (Z.lxor_nonneg a b)); lia|].
  eapply Z.le_lt_trans; [apply Z.log2_lxor; lia|].
  assert (Hlt : forall x, 0 <= x < 2 ^ n -> x <> 0 -> Z.log2 x < n).
  { intros x Hx ?. apply Z.log2_lt_pow2; lia. }
  destruct (Z.eq_dec a 0) as [->|]; destruct (Z.eq_dec b 0) as [->|]; simpl; try done.
  - specialize (Hlt b Hb). pose proof (Z.log2_nonneg b). lia.
  - specialize (Hlt a Ha). pose proof (Z.log2_nonneg a). lia.
  - specialize (Hlt a Ha) as H1'. specialize (Hlt b Hb). lia.
Qed.

(** reading an XOR-ed IPv4 address at [pos] gives the address written there *)
Lemma mapped_value_xor txn pre post port ip :
  0 <= port < 2 ^ 16 -> 0 <= ip < 2 ^ 32 ->
  mapped_value txn (pre ++ xor_addr_value port ip ++ post) STUN_ATTR_XOR_MAPPED_ADDRESS 8 (blen pre)
  = Ok (AF_INET port ip).
Proof.
  intros Hp Hi. unfold mapped_value, xor_addr_value. rewrite Z.eqb_refl. cbn [fail_if Z.ltb Z.compare].
  change (8 <? 8) with false. cbn [fail_if]. rewrite (bind_Ok_l (Ok ()) _ ()) by done.
  set (xp := Z.lxor port _). set (xi := Z.lxor ip _).
  rewrite <-!app_assoc.
  rewrite (bind_Ok_l _ _ 1).
  2: { rewrite rd_app_r by lia. by rewrite Z.add_simpl_l. }
  rewrite (bind_Ok_l _ _ xp).
  2: { rewrite (app_assoc pre). apply rd_u16_at; [by lens|]. by apply lxor_range. }
  rewrite Z.eqb_refl. rewrite (bind_Ok_l _ _ xi).
  2: { rewrite (app_assoc pre), (app_assoc (pre ++ _)). apply rd_u32_at; [lens; lia|]. by apply lxor_range. }
  unfold xp, xi. change (u16 (Z.shiftr STUN_MAGIC_COOKIE 16)) with 8466.
  change (Z.land (Z.shiftr STUN_MAGIC_COOKIE 16) 0xFFFF) with 8466.
  by rewrite !Z.lxor_assoc, !Z.lxor_nilpotent, !Z.lxor_0_r.
Qed.

(** the success response with transaction id [txn] and the address *)
Definition response_attr (port ip : Z) : attr :=
  (STUN_ATTR_XOR_MAPPED_ADDRESS, xor_addr_value port ip).
Definition response (txn : bytes) (port ip : Z) : bytes :=
  stun_header STUN_BINDING_RESPONSE 12 txn ++ enc_attrs [response_attr port ip].

Lemma response_attr_ok port ip : attr_ok (response_attr port ip).
Proof. by apply small_attr_ok. Qed.

Lemma response_len txn port ip : length txn = 12%nat -> blen (response txn port ip) = 32.
Proof. intros. unfold response. by rewrite blen_app, stun_header_len. Qed.

Lemma response_parse txn port ip :
  length txn = 12%nat ->
  rtc_stun_parse (response txn port ip)
  = Ok (mk_stun_msg STUN_BINDING_RESPONSE 12 txn (response txn port ip)).
Proof.
  intros Htx. eapply (parse_repr (mk_stun_msg _ _ _ _) _ txn [response_attr port ip]); try done.
  change (blen (response txn port ip) <= 1500). by rewrite response_len.
Qed.

Lemma response_mapped txn port ip :
  length txn = 12%nat -> 0 <= port < 2 ^ 16 -> 0 <= ip < 2 ^ 32 ->
  rtc_stun_get_mapped_address (mk_stun_msg STUN_BINDING_RESPONSE 12 txn (response txn port ip))
  = Ok (AF_INET port ip).
Proof.
  intros Htx Hp Hi. unfold rtc_stun_get_mapped_address, STUN_HEADER_SIZE. cbn [buf txn_id].
  pose proof (response_len txn port ip Htx) as Hlen.
  set (a := response_attr port ip). set (h := stun_header STUN_BINDING_RESPONSE 12 txn).
  assert (Hh : blen h = 20) by by apply stun_header_len.
  assert (Eo : response txn port ip = h ++ enc_attr a ++ [])
    by (unfold response; by rewrite enc_attrs_one, app_nil_r).
  destruct (length (response txn port ip)) as [|fuel] eqn:Ef; [unfold blen in Hlen; lia|].
  unfold mapped_loop; fold mapped_loop. rewrite Hlen. change (20 + 4 <=? 32) with true. cbv iota.
  pose proof (read_attr_type h [] a (response_attr_ok _ _)) as E1.
  pose proof (read_attr_len h [] a (response_attr_ok _ _)) as E2.
  rewrite <-Eo, Hh in E1, E2. step E1. step E2.
  change (blen a.2) with 8. change (32 <? 20 + 4 + 8) with false.
  change ((a.1 =? STUN_ATTR_XOR_MAPPED_ADDRESS) || (a.1 =? STUN_ATTR_MAPPED_ADDRESS)) with true.
  cbv iota. pose proof (mapped_value_xor txn (h ++ be16 a.1 ++ be16 8) [] port ip Hp Hi) as E3.
  rewrite blen_app, Hh in E3. rewrite Eo. rewrite <-!app_assoc in E3. exact E3.
Qed.

Lemma binding_response_run data txn port ip out_cap :
  20 <= blen data -> sub data 8 12 = Ok txn -> 128 <= out_cap ->
  rtc_stun_build_binding_response data (AF_INET port ip) out_cap = Ok (response txn port ip).
Proof.
  intros Hd Hsub Hc. unfold rtc_stun_build_binding_response, STUN_HEADER_SIZE. repeat pass_guard.
  rewrite (bind_Ok_l _ _ (replicate 20 0 ++ enc_attrs [response_attr port ip])).
  2: { rewrite enc_attrs_one. apply (append_attr_spec _ _ (response_attr port ip)).
       - apply response_attr_ok.
       - rewrite <-enc_attrs_one. change (20 + 12 <= out_cap). lia. }
  step Hsub. by rewrite write_header_app by done.
Qed.

(** what a parsed message has in its header *)
Lemma parse_header data msg :
  rtc_stun_parse data = Ok msg -> 20 <= blen data /\ sub data 8 12 = Ok (txn_id msg).
Proof.
  unfold rtc_stun_parse, STUN_HEADER_SIZE. intros (? & Hl%fail_if_Ok & (ty & _ & (ln & _ & (ck & _ & (_ & _ & (txn & Ht & (_ & _ &
    (b & _ & [= <-])%bind_Ok)%bind_Ok)%bind_Ok)%bind_Ok)%bind_Ok)%bind_Ok)%bind_Ok)%bind_Ok.
  apply Z.ltb_ge in Hl. done.
Qed.

(** the Binding response a server builds for a request, received by the
    client that sent it, yields exactly the client's address as seen by the
    server; a client waiting for another transaction refuses it. *)
Theorem mapped_address_roundtrip req data port ip out_cap :
  length (txn_id req) = 12%nat -> 20 <= blen data -> sub data 8 12 = Ok (txn_id req) ->
  0 <= port < 2 ^ 16 -> 0 <= ip < 2 ^ 32 -> 128 <= out_cap ->
  exists out,
    rtc_stun_build_binding_response data (AF_INET port ip) out_cap = Ok out /\
    rtc_stun_binding_reply req out = Ok (AF_INET port ip) /\
    (forall req', txn_id req' <> txn_id req -> rtc_stun_binding_reply req' out = Err RTC_ERR_INVALID).
Proof.
  intros Htx Hd Hsub Hp Hi Hc. exists (response (txn_id req) port ip).
  assert (Hreply : forall req', rtc_stun_binding_reply req' (response (txn_id req) port ip) =
    (_ ← fail_if (bool_decide (txn_id req <> txn_id req')) RTC_ERR_INVALID; Ok (AF_INET port ip))).
  { intros req'. unfold rtc_stun_binding_reply, STUN_HEADER_SIZE. rewrite response_len by done.
    pass_guard. step (response_parse (txn_id req) port ip Htx). cbn [type txn_id].
    rewrite response_mapped by done. done. }
  split; [|split].
  - by apply binding_response_run.
  - rewrite Hreply, bool_decide_eq_false_2; [done|tauto].
  - intros req' Hne. by rewrite Hreply, bool_decide_eq_true_2.
Qed.

(** ** Safety of the parsers *)

Lemma find_attr_loop_safe b t : bytes_ok b -> forall fuel pos,
  0 <= pos -> blen b <= pos + 4 * Z.of_nat fuel + 3 ->
  exists r, find_attr_loop fuel b t pos = Ok r /\
    match r with Some v => exists off, sub b off (blen v) = Ok v | None => True end.
Proof.
  intros Hb. induction fuel as [|fuel IH]; intros pos Hpos Hf; unfold find_attr_loop; fold find_attr_loop.
  { rewrite (proj2 (Z.leb_gt _ _)) by lia. by exists None. }
  destruct (Z.leb_spec (pos + 4) (blen b)); [|by exists None].
  destruct (rd_u16_in_range b pos) as [ty Ety]; [lia|lia|].
  destruct (rd_u16_in_range b (pos + 2)) as [al Eal]; [lia|lia|].
  pose proof (rd_u16_range _ _ _ Hb Eal). step Ety. step Eal.
  destruct (Z.ltb_spec (blen b) (pos + 4 + al)); [by exists None|].
  destruct (ty =? t).
  - assert (E : exists v, sub b (pos + 4) al = Ok v) by (rewrite sub_Ok by lia; by eexists).
    destruct E as [v Ev]. step Ev. exists (Some v). split; [done|]. exists (pos + 4).
    by rewrite (sub_length _ _ _ _ Ev).
  - pose proof (pad4_nonneg al). apply IH; lia.
Qed.

Lemma find_attr_safe msg t :
  bytes_ok (buf msg) -> exists r, rtc_stun_find_attr msg t = Ok r /\
    match r with Some v => exists off, sub (buf msg) off (blen v) = Ok v | None => True end.
Proof.
  intros Hb. apply find_attr_loop_safe; [done|unfold STUN_HEADER_SIZE; lia|].
  unfold blen, STUN_HEADER_SIZE. lia.
Qed.

Lemma attr_value_safe {B} msg t min (f : bytes -> res B) :
  bytes_ok (buf msg) -> (forall v, min <= blen v -> no_fault (f v)) ->
  no_fault (attr_value msg t min ≫= f).
Proof.
  intros Hb Hf. unfold attr_value. destruct (find_attr_safe msg t Hb) as ([v|] & -> & _); [|done].
  cbn [mbind res_bind]. destruct (Z.ltb_spec (blen v) min); [done|]. by apply Hf.
Qed.

Lemma mapped_value_safe txn b ty al pos :
  bytes_ok b -> 0 <= pos -> pos + al <= blen b -> no_fault (mapped_value txn b ty al pos).
Proof.
  intros Hb Hpos Hal. unfold mapped_value. cbv zeta. safe.
Qed.

Lemma mapped_loop_safe txn b : bytes_ok b -> forall fuel pos,
  0 <= pos -> blen b <= pos + 4 * Z.of_nat fuel + 3 -> no_fault (mapped_loop fuel txn b pos).
Proof.
  intros Hb. induction fuel as [|fuel IH]; intros pos Hpos Hf; unfold mapped_loop; fold mapped_loop.
  { by rewrite (proj2 (Z.leb_gt _ _)) by lia. }
  destruct (Z.leb_spec (pos + 4) (blen b)); [|done].
  destruct (rd_u16_in_range b pos) as [ty Ety]; [lia|lia|].
  destruct (rd_u16_in_range b (pos + 2)) as [al Eal]; [lia|lia|]. step Ety. step Eal. cbv zeta.
  pose proof (rd_u16_range _ _ _ Hb Eal). pose proof (pad4_nonneg al).
  destruct (Z.ltb_spec (blen b) (pos + 4 + al)); [done|].
  destruct (_ || _); [apply mapped_value_safe; auto; lia|apply IH; lia].
Qed.

Lemma parse_buf data msg :
  bytes_ok data -> rtc_stun_parse data = Ok msg ->
  bytes_ok (buf msg) /\ 20 <= blen (buf msg) <= STUN_MAX_MSG_SIZE.
Proof.
  intros Hd. unfold rtc_stun_parse, STUN_HEADER_SIZE, STUN_MAX_MSG_SIZE.
  intros (_ & Hlen%fail_if_Ok & (ty & _ & (l & Hl & (ck & _ & (_ & _ & (txn & _ & (_ & _ &
    (b & Hb & [= <-])%bind_Ok)%bind_Ok)%bind_Ok)%bind_Ok)%bind_Ok)%bind_Ok)%bind_Ok)%bind_Ok.
  pose proof (rd_u16_range _ _ _ Hd Hl). cbn [buf].
  pose proof (sub_length _ _ _ _ Hb) as El. apply sub_inv in Hb as (_ & _ & _ & ->).
  split; [by apply Forall_take, Forall_drop|].
  rewrite El. destruct (Z.ltb_spec 1500 (20 + l)); lia.
Qed.

Lemma parse_no_fault data : bytes_ok data -> no_fault (rtc_stun_parse data).
Proof.
  intros Hd. unfold rtc_stun_parse, STUN_HEADER_SIZE, STUN_MAX_MSG_SIZE. cbv zeta.
  safe; pose proof (rd_u16_range _ _ _ Hd Hx1); destruct (Z.ltb_spec 1500 (20 + x1)); lia.
Qed.

(** C32: whatever bytes arrive, parsing a STUN message and extracting any of its
    attributes ends and never reads outside the message. *)
Theorem stun_receive_safe data msg :
  bytes_ok data ->
  no_fault (rtc_stun_parse data) /\
  (rtc_stun_parse data = Ok msg ->
   (forall t, no_fault (rtc_stun_find_attr msg t)) /\
   no_fault (rtc_stun_get_mapped_address msg) /\ no_fault (rtc_stun_get_relayed_address msg) /\
   no_fault (rtc_stun_get_lifetime msg) /\ no_fault (rtc_stun_get_error_code msg) /\
   (forall n, 1 <= n < 2 ^ 64 -> no_fault (rtc_stun_get_realm msg n) /\
                                 no_fault (rtc_stun_get_nonce msg n))).
Proof.
  intros Hd. split; [by apply parse_no_fault|]. intros [Hb _]%parse_buf; [|done].
  assert (Hcopy : forall n v, 1 <= n < 2 ^ 64 -> no_fault (copy_string v n)).
  { intros n v Hn. unfold copy_string. pose proof (blen_nonneg v). rewrite u64_id by lia. cbv zeta.
    destruct (Z.ltb_spec (blen v) (n - 1)); safe. }
  split; [intros t; destruct (find_attr_safe msg t Hb) as (r & -> & _); done|].
  split; [apply mapped_loop_safe; unfold STUN_HEADER_SIZE, blen; done || lia|].
  split; [apply attr_value_safe; [done|]; intros v Hv; cbv zeta; safe|].
  split; [apply attr_value_safe; [done|]; intros v Hv; safe|].
  split; [apply attr_value_safe; [done|]; intros v Hv; safe|].
  intros n Hn. split; (apply attr_value_safe; [done|]; intros v Hv; by apply Hcopy).
Qed.

(** ** MESSAGE-INTEGRITY at the end of a datagram *)

Lemma integrity_at_safe data key pos al :
  20 <= pos -> pos + 24 <= blen data -> no_fault (integrity_at data key pos al).
Proof.
  intros. unfold integrity_at, write_u16_at, STUN_MAX_MSG_SIZE. safe.
  match goal with E : sub data 0 pos = Ok _ |- _ => pose proof (sub_length _ _ _ _ E) end.
  apply orb_false_iff; split; lia.
Qed.

Lemma verify_loop_safe data key end_ : bytes_ok data -> end_ + 20 <= blen data -> forall fuel pos,
  20 <= pos -> end_ <= pos + 4 * Z.of_nat fuel + 3 -> no_fault (verify_loop fuel data key end_ pos).
Proof.
  intros Hd Hend. induction fuel as [|fuel IH]; intros pos Hpos Hf;
    unfold verify_loop; fold verify_loop.
  { by rewrite (proj2 (Z.leb_gt _ _)) by lia. }
  destruct (Z.leb_spec (pos + 4) end_); [|done].
  destruct (rd_u16_in_range data pos) as [ty Ety]; [lia|lia|].
  destruct (rd_u16_in_range data (pos + 2)) as [al Eal]; [lia|lia|]. step Ety. step Eal.
  pose proof (pad4_nonneg al).
  destruct (ty =? STUN_ATTR_MESSAGE_INTEGRITY); [apply integrity_at_safe; lia|apply IH; lia].
Qed.

(** a Binding request of 44 bytes whose last four are the header of a
    MESSAGE-INTEGRITY attribute without its value *)
Definition truncated_mi : bytes :=
  stun_header STUN_BINDING_REQUEST 24 (replicate 12 0)
  ++ enc_attr (STUN_ATTR_USERNAME, replicate 16 97)
  ++ be16 STUN_ATTR_MESSAGE_INTEGRITY ++ be16 20.

(** C40: checking MESSAGE-INTEGRITY is memory safe when 20 more bytes follow the
    message, and not otherwise: a well-formed datagram that ends with the
    header of the attribute makes the comparison read 20 bytes past its end,
    whatever the key. *)
Theorem integrity_read_past_end :
  (forall data key claim, bytes_ok data -> rd_u16 data 2 = Ok claim -> 40 + claim <= blen data ->
     no_fault (rtc_stun_verify_integrity_key data key)) /\
  is_ok (rtc_stun_parse truncated_mi) = true /\
  (forall key, rtc_stun_verify_integrity_key truncated_mi key = Fault).
Proof.
  split; [|split; [vm_compute; reflexivity|intros key; reflexivity]].
  intros data key claim Hd Hc Hlen. pose proof (rd_u16_range _ _ _ Hd Hc).
  unfold rtc_stun_verify_integrity_key, STUN_HEADER_SIZE.
  apply no_fault_bind; [apply no_fault_fail_if|intros _ _]. step Hc. cbv zeta.
  rewrite (proj2 (Z.ltb_ge _ _)) by lia.
  apply verify_loop_safe; [done|lia|lia|unfold blen in Hlen; lia].
Qed.

(** ** Long strings *)

(** [append_attr] computes the padded length in 16 bits: a user name, realm
    or nonce of 65533 to 65535 bytes passes the capacity check as if it were
    empty and is copied over the end of the 1500-byte message buffer. *)
Theorem long_string_overflows msg s :
  65533 <= blen s <= 65535 -> blen (buf msg) + 4 <= STUN_MAX_MSG_SIZE ->
  rtc_stun_add_username s msg = (msg, Fault) /\
  rtc_stun_add_realm s msg = (msg, Fault) /\ rtc_stun_add_nonce s msg = (msg, Fault).
Proof.
  intros Hs Hb. pose proof (blen_nonneg (buf msg)). unfold STUN_MAX_MSG_SIZE in Hb.
  assert (E : forall ty, append_attr (buf msg) STUN_MAX_MSG_SIZE ty s (blen s) = Fault).
  { intros ty. unfold append_attr, STUN_MAX_MSG_SIZE.
    assert (Hp : pad4 (blen s) = 0).
    { unfold pad4, u16. rewrite land_lnot3.
      replace (blen s + 3 - (blen s + 3) mod 4) with 65536 by dlia. done. }
    rewrite Hp. pass_guard. unfold fault_if. by rewrite (proj2 (Z.ltb_lt _ _)) by lia. }
  unfold rtc_stun_add_username, rtc_stun_add_realm, rtc_stun_add_nonce, add_attr, msg_append_attr.
  rewrite u16_id by lia. unfold mbind, st_bind, get, lift. by rewrite !E.
Qed.

End Theorems.

(** ** TURN ChannelData *)

(** application data framed for a bound channel is recovered with its
    channel number, whatever follows the frame in the receive buffer. *)
Theorem channel_data_roundtrip buflen channel data rest :
  0x4000 <= channel <= 0x7FFF -> blen data <= 65535 -> 4 + blen data + 3 <= buflen ->
  exists frame,
    rtc_turn_build_channel_data buflen channel data = Ok frame /\
    blen frame mod 4 = 0 /\ blen frame <= buflen /\
    rtc_turn_parse_channel_data (frame ++ rest) = Ok (channel, data).
Proof.
  intros Hc Hd Hb. pose proof (blen_nonneg data). pose proof (blen_nonneg rest).
  unfold rtc_turn_build_channel_data, TURN_CHANNEL_DATA_HEADER, TURN_CHANNEL_MIN, TURN_CHANNEL_MAX.
  cbv zeta. rewrite land_lnot3. set (padded := u64 _).
  assert (Hp : padded = blen data + padding (blen data)).
  { unfold padded, padding. rewrite u64_id by (pow_eval; dlia). dlia. }
  pose proof (padding_range (blen data)). repeat pass_guard. rewrite u16_id by lia.
  eexists. split; [done|]. split; [|split].
  - lens. rewrite Hp. unfold padding. dlia.
  - lens. lia.
  - unfold rtc_turn_parse_channel_data, TURN_CHANNEL_DATA_HEADER, TURN_CHANNEL_MIN, TURN_CHANNEL_MAX.
    rewrite <-!app_assoc. set (post := replicate _ _ ++ rest).
    assert (0 <= blen post) by apply blen_nonneg.
    rewrite !blen_app, !blen_be16. pass_guard.
    rewrite (bind_Ok_l _ _ channel) by (apply rd_u16_here; lia).
    rewrite (bind_Ok_l _ _ (blen data)) by (apply rd_u16_at; [done|lia]).
    pass_guard. pass_guard. rewrite (bind_Ok_l _ _ data); [done|].
    rewrite (app_assoc (be16 channel)). by apply sub_mid.
Qed.

(** ** Witnesses *)

Import SrtpWitness.

#[export] Instance toy_stun_env : StunEnv := {
  evp_md5 d := Ok (replicate 16 (mix d));
  stale_hmac := replicate 20 0;
}.

Definition txn0 : bytes := [1; 2; 3; 4; 5; 6; 7; 8; 9; 10; 11; 12].

Lemma stun_request_roundtrip_witness :
  exists msg,
    (_ ← add_attrs [(STUN_ATTR_USERNAME, [97; 98; 99]); (STUN_ATTR_LIFETIME, be32 600)];
     rtc_stun_finalize_key [1; 2]) (rtc_stun_build_request txn0 3) = (msg, Ok ()) /\
    received_as (buf msg) [1; 2] 3 txn0
      [(STUN_ATTR_USERNAME, [97; 98; 99]); (STUN_ATTR_LIFETIME, be32 600)].
Proof.
  apply stun_request_roundtrip; try done.
  - repeat (constructor; [by split|]). constructor.
  - repeat (constructor; [done|]). constructor.
Defined.

Lemma binding_request_roundtrip_witness :
  exists msg,
    rtc_stun_build_binding_request txn0 (Some [97; 58; 98]) (Some [112; 119]) 100 true 77 true
    = Ok msg /\
    received_as (buf msg) [112; 119] STUN_BINDING_REQUEST txn0
      (binding_attrs (Some [97; 58; 98]) 100 true 77 true).
Proof. by apply binding_request_roundtrip. Defined.

Lemma mapped_address_roundtrip_witness :
  let req := mk_stun_msg STUN_BINDING_REQUEST 0 txn0 [] in
  exists out,
    rtc_stun_build_binding_response (stun_header STUN_BINDING_REQUEST 0 txn0)
      (AF_INET 5000 0xC0A80001) 128 = Ok out /\
    rtc_stun_binding_reply req out = Ok (AF_INET 5000 0xC0A80001) /\
    (forall req', txn_id req' <> txn_id req -> rtc_stun_binding_reply req' out = Err RTC_ERR_INVALID).
Proof. by apply mapped_address_roundtrip. Defined.

Lemma stun_receive_safe_witness :
  let data := stun_header STUN_BINDING_REQUEST 0 txn0 in
  no_fault (rtc_stun_find_attr (mk_stun_msg STUN_BINDING_REQUEST 0 txn0 data) STUN_ATTR_USERNAME).
Proof.
  refine (proj1 (proj2 (stun_receive_safe (stun_header STUN_BINDING_REQUEST 0 txn0) _ _) _) _).
  - apply bytes_okb_ok. reflexivity.
  - reflexivity.
Defined.

Lemma long_string_overflows_witness :
  rtc_stun_add_nonce (replicate 65533 97) (rtc_stun_build_request txn0 3)
  = (rtc_stun_build_request txn0 3, Fault).
Proof. apply long_string_overflows; [|done]. rewrite blen_replicate. vm_compute. done. Defined.

Lemma channel_data_roundtrip_witness :
  exists frame,
    rtc_turn_build_channel_data 64 0x4000 [1; 2; 3] = Ok frame /\
    blen frame mod 4 = 0 /\ blen frame <= 64 /\
    rtc_turn_parse_channel_data (frame ++ [9]) = Ok (0x4000, [1; 2; 3]).
Proof. by apply channel_data_roundtrip. Defined.

End StunSpec.
