(* ===== verification/Text.v ===== *)
(** * Text (printf conversions, addresses, random strings)

    C strings are the bytes before the NUL.  This file models the conversions
    of [printf] the code uses, the truncation of [snprintf], and the helpers
    of common/src/rtc_common.c on addresses and random strings.  [inet_ntop]
    and [inet_pton] belong to the system: they are the class [Inet], what the
    theorems rely on of them is [InetLaws]. *)

From S2P Require Import Prelude Stun.
From Stdlib Require Import ZArith Lia Ascii String.
From stdpp Require Import base list numbers.
#[local] Open Scope Z_scope.

Module Text.
Import Stun.

(** a string literal of the source *)
Fixpoint str (s : string) : bytes :=
  match s with
  | EmptyString => []
  | String c s => Z.of_N (N_of_ascii c) :: str s
  end.

Arguments str s%_string_scope : simpl never.

(** ** Decimal numbers *)

(** [%u]: the digits of [n], most significant first *)
Fixpoint dec_loop (fuel : nat) (n : Z) (acc : bytes) : bytes :=
  match fuel with
  | O => acc
  | S fuel =>
      let acc := (48 + n mod 10) :: acc in
      if n <? 10 then acc else dec_loop fuel (n / 10) acc
  end.
Definition dec (n : Z) : bytes := dec_loop (S (Z.to_nat (Z.log2 n))) n [].

(** [%d] *)
Definition sdec (n : Z) : bytes := if n <? 0 then 45 :: dec (- n) else dec n.

Definition is_digit (b : Z) : bool := (48 <=? b) && (b <=? 57).

(** the value of a sequence of digits *)
Definition dec_value (d : bytes) : Z := foldl (fun a b => a * 10 + (b - 48)) 0 d.

Lemma dec_value_app a b : dec_value (a ++ b) = dec_value a * 10 ^ blen b + dec_value b.
Proof.
  unfold dec_value. rewrite foldl_app. generalize (foldl (fun a b => a * 10 + (b - 48)) 0 a) as x.
  induction b as [|c b IH] using rev_ind; intros x; [change (10 ^ blen []) with 1; cbn [foldl]; lia|].
  rewrite !foldl_app. cbn [foldl]. rewrite IH, blen_app, Z.pow_add_r by apply blen_nonneg.
  change (10 ^ blen [c]) with 10. lia.
Qed.

Lemma dec_loop_spec fuel : forall n acc,
  0 <= n < 2 ^ Z.of_nat fuel -> (0 < fuel)%nat ->
  exists d, dec_loop fuel n acc = d ++ acc /\ dec_value d = n /\ Forall (fun b => is_digit b = true) d /\
    d <> [] /\ (hd 0 d = 48 -> n = 0).
Proof.
  induction fuel as [|fuel IH]; intros n acc Hn Hf; [lia|]. cbn [dec_loop].
  pose proof (Z.mod_pos_bound n 10 ltac:(lia)). pose proof (Z.div_mod n 10 ltac:(lia)).
  assert (Hd : is_digit (48 + n mod 10) = true).
  { unfold is_digit. apply andb_true_intro. split; apply Z.leb_le; lia. }
  destruct (Z.ltb_spec n 10).
  - exists [48 + n mod 10]. rewrite Z.mod_small in * by lia. split_and!; [done|cbn; lia|by constructor|done|cbn; lia].
  - assert (0 <= n / 10 < 2 ^ Z.of_nat fuel).
    { split; [by apply Z.div_pos; lia|]. apply Z.div_lt_upper_bound; [lia|].
      rewrite Nat2Z.inj_succ, Z.pow_succ_r in Hn by lia. lia. }
    destruct (IH (n / 10) ((48 + n mod 10) :: acc)) as (d & E & Hv & Hall & Hne & Hz); [done| |].
    { destruct fuel; [cbn in *; lia|lia]. }
    exists (d ++ [48 + n mod 10]). rewrite E, <-app_assoc. split_and!; [done| | | |].
    + rewrite dec_value_app, Hv. change (10 ^ blen [48 + n mod 10]) with 10.
      change (dec_value [48 + n mod 10]) with (0 * 10 + (48 + n mod 10 - 48)). lia.
    + apply Forall_app. split; [done|by constructor].
    + by destruct d.
    + destruct d; [done|]. cbn. intros Hd0. specialize (Hz Hd0). lia.
Qed.

Lemma dec_spec n :
  0 <= n -> exists d, dec n = d /\ dec_value d = n /\ Forall (fun b => is_digit b = true) d /\ d <> [].
Proof.
  intros Hn. destruct (dec_loop_spec (S (Z.to_nat (Z.log2 n))) n []) as (d & E & ? & ? & ? & _).
  - split; [done|]. rewrite Nat2Z.inj_succ, Z2Nat.id by apply Z.log2_nonneg.
    destruct (Z.eq_dec n 0) as [->|]; [done|]. apply Z.log2_spec. lia.
  - lia.
  - exists d. unfold dec. by rewrite E, app_nil_r.
Qed.

(** [%u] is injective *)
Lemma dec_inj a b : 0 <= a -> 0 <= b -> dec a = dec b -> a = b.
Proof.
  intros Ha Hb E. destruct (dec_spec a Ha) as (d & <- & H1 & _). destruct (dec_spec b Hb) as (d & <- & H2 & _).
  congruence.
Qed.

Lemma dec_digits n : 0 <= n -> Forall (fun b => is_digit b = true) (dec n) /\ dec n <> [].
Proof. intros Hn. by destruct (dec_spec n Hn) as (d & -> & _ & ? & ?). Qed.

(** a number below [10 ^ k] has at most [k] digits *)
Lemma dec_loop_length fuel : forall k n acc,
  0 <= n < 10 ^ Z.of_nat k -> (0 < k)%nat -> (length (dec_loop fuel n acc) <= k + length acc)%nat.
Proof.
  induction fuel as [|fuel IH]; intros k n acc Hn Hk; cbn [dec_loop]; [lia|].
  destruct (Z.ltb_spec n 10); [cbn; lia|].
  destruct k as [|[|k]]; [lia|cbn in Hn; lia|].
  specialize (IH (S k) (n / 10) ((48 + n mod 10) :: acc)). cbn [length] in IH.
  enough (0 <= n / 10 < 10 ^ Z.of_nat (S k)) by lia.
  split; [apply Z.div_pos; lia|]. apply Z.div_lt_upper_bound; [lia|].
  rewrite (Nat2Z.inj_succ (S k)), Z.pow_succ_r in Hn by lia. lia.
Qed.

Lemma dec_length k n : 0 <= n < 10 ^ Z.of_nat k -> (0 < k)%nat -> (length (dec n) <= k)%nat.
Proof. intros. unfold dec. pose proof (dec_loop_length (S (Z.to_nat (Z.log2 n))) k n []). cbn [length] in *. lia. Qed.

(** ** [snprintf] *)

(** the bytes stored in a buffer of [cap > 0] bytes, and whether all fit *)
Definition snprintf (cap : Z) (s : bytes) : bytes * bool := (take (Z.to_nat (cap - 1)) s, blen s <? cap).

(** copy_string and its variants: a string cut to a field of [cap] bytes *)
Definition cut (cap : Z) (s : bytes) : bytes := take (Z.to_nat (cap - 1)) s.

(** ** Addresses (common/src/rtc_common.c) *)

Class Inet := {
  inet_ntop4 : Z -> bytes;
  inet_ntop6 : bytes -> bytes;
  inet_pton4 : bytes -> option Z;
  inet_pton6 : bytes -> option bytes;
}.

(** an IPv4 address and an IPv6 address *)
Definition ip4 (ip : Z) : Prop := 0 <= ip < 2 ^ 32.
Definition ip6 (ip : bytes) : Prop := blen ip = 16 /\ Forall byte_ok ip.
Definition port_ok (p : Z) : Prop := 0 <= p < 2 ^ 16.
Definition addr_ok (a : rtc_addr_t) : Prop :=
  match a with
  | AF_INET port ip => port_ok port /\ ip4 ip
  | AF_INET6 port ip => port_ok port /\ ip6 ip
  | AF_OTHER => False
  end.

(** characters of the text form of an address *)
Definition inet_char (b : Z) : Prop := is_digit b = true \/ b = 46 \/ b = 58 \/ 97 <= b <= 102.

(** the documented behaviour of the conversions: the text has fewer than
    [INET6_ADDRSTRLEN] characters, is read back, and the two families are told
    apart *)
Class InetLaws `{Inet} := {
  ntop4_text ip : ip4 ip -> 0 < blen (inet_ntop4 ip) < 46 /\ Forall inet_char (inet_ntop4 ip);
  ntop6_text ip : ip6 ip -> 0 < blen (inet_ntop6 ip) < 46 /\ Forall inet_char (inet_ntop6 ip);
  pton4_ntop4 ip : ip4 ip -> inet_pton4 (inet_ntop4 ip) = Some ip;
  pton6_ntop6 ip : ip6 ip -> inet_pton6 (inet_ntop6 ip) = Some ip;
  pton4_ntop6 ip : ip6 ip -> inet_pton4 (inet_ntop6 ip) = None;
}.

Section Addr.
Context `{Inet}.

Definition rtc_addr_from_string (ip : bytes) (port : Z) : res rtc_addr_t :=
  match inet_pton4 ip with
  | Some a => Ok (AF_INET port a)
  | None =>
      match inet_pton6 ip with
      | Some a => Ok (AF_INET6 port a)
      | None => Err RTC_ERR_INVALID
      end
  end.

Definition rtc_addr_to_string (a : rtc_addr_t) (buflen : Z) : res (bytes * Z) :=
  match a with
  | AF_INET port ip =>
      let t := inet_ntop4 ip in
      if blen t <? buflen then Ok (t, port) else Err RTC_ERR_INVALID
  | AF_INET6 port ip =>
      let t := inet_ntop6 ip in
      if blen t <? buflen then Ok (t, port) else Err RTC_ERR_INVALID
  | AF_OTHER => Err RTC_ERR_INVALID
  end.
End Addr.

Section AddrLaws.
Context `{InetLaws}.

Lemma addr_text a :
  addr_ok a -> exists t p, rtc_addr_to_string a 64 = Ok (t, p) /\ rtc_addr_from_string t p = Ok a /\
    port_ok p /\ 0 < blen t < 46 /\ Forall inet_char t.
Proof.
  destruct a as [port ip|port ip|]; [intros [Hp Hi]..|done]; cbn.
  - destruct (ntop4_text ip Hi) as [Hl Hc]. rewrite (proj2 (Z.ltb_lt _ _)) by lia.
    exists (inet_ntop4 ip), port. unfold rtc_addr_from_string. by rewrite pton4_ntop4.
  - destruct (ntop6_text ip Hi) as [Hl Hc]. rewrite (proj2 (Z.ltb_lt _ _)) by lia.
    exists (inet_ntop6 ip), port. unfold rtc_addr_from_string. by rewrite pton4_ntop6, pton6_ntop6.
Qed.
End AddrLaws.

(** ** Random strings (common/src/rtc_common.c) *)

Definition charset : bytes := str "abcdefghijklmnopqrstuvwxyzABCDEFGHIJKLMNOPQRSTUVWXYZ0123456789".

(** [rnd n]: what RAND_bytes stores in a buffer of [n] bytes, [None] on failure *)
Definition rtc_random_string (rnd : Z -> option bytes) (len : Z) : res bytes :=
  if len =? 0 then Err RTC_ERR_INVALID else
  let need := Z.min (len - 1) 256 in
  match rnd need with
  | None => Err RTC_ERR_GENERIC
  | Some tmp => Ok ((fun b => nth (Z.to_nat (b mod 62)) charset 0) <$> take (Z.to_nat need) tmp)
  end.

(** alphanumeric strings of the requested length *)
Lemma random_string_spec rnd len s :
  rtc_random_string rnd len = Ok s -> Forall (fun b => b ∈ charset) s.
Proof.
  unfold rtc_random_string. destruct (len =? 0); [done|]. destruct (rnd _) as [tmp|]; [|done].
  intros [= <-]. apply Forall_fmap, Forall_forall. intros b _. unfold compose. apply list_elem_of_In.
  apply (nth_In charset 0).
  pose proof (Z.mod_pos_bound b 62 ltac:(lia)). change (length charset) with 62%nat. lia.
Qed.
End Text.
