(* ===== verification/PacketIo.v ===== *)
(** * Packet I/O (rtc/src/rtc_packet_io.c)

    The UDP socket of a listener: classification of datagrams (RFC 7983),
    mapping of IPv4 addresses on the dual-stack socket, sending with its
    counters, and the drain pass (the Linux path: one [recvmmsg] per pass).
    The kernel is the class [Kernel]: its answer to a send may depend on all
    sends before, which the ghost field [sends] records.  What [recvmmsg]
    stores in the slots is an argument of the drain.  The callback of a drain
    acts on a world [W] of which the packet I/O is a part.  Atomics are plain
    fields (all callbacks run on the worker's thread); the socket options set
    by init are best effort in the source and not modelled. *)

From Stdlib Require Import String.
From S2P Require Import Prelude Stun Text.
From Stdlib Require Import ZArith Lia.
From stdpp Require Import base list numbers.
#[local] Open Scope Z_scope.

Module PacketIo.
Import Stun Text.

Definition RTC_PACKET_IO_BUF_SIZE : Z := 9216.
Definition RTC_PACKET_IO_RECV_BATCH : Z := 16.

Inductive rtc_pkt_type_t :=
  | RTC_PKT_STUN | RTC_PKT_CHANNEL_DATA | RTC_PKT_DTLS | RTC_PKT_RTP | RTC_PKT_RTCP | RTC_PKT_UNKNOWN.

#[export] Instance rtc_pkt_type_eq_dec : EqDecision rtc_pkt_type_t.
Proof. solve_decision. Defined.

(** ** Addresses and classification *)

Definition V4_PREFIX : bytes := replicate 10 0 ++ [255; 255].

Definition addr_unmap_v4 (a : rtc_addr_t) : rtc_addr_t :=
  match a with
  | AF_INET6 port b =>
      if bool_decide (take 12 b = V4_PREFIX) then
        match rd_u32 b 12 with Ok v4 => AF_INET port v4 | _ => a end
      else a
  | _ => a
  end.

Definition addr_map_v4 (a : rtc_addr_t) : rtc_addr_t :=
  match a with
  | AF_INET port v4 => AF_INET6 port (V4_PREFIX ++ be32 v4)
  | _ => a
  end.

Definition transport_classify (data : bytes) : rtc_pkt_type_t :=
  match data with
  | [] => RTC_PKT_UNKNOWN
  | b :: rest =>
      if b <=? 3 then RTC_PKT_STUN
      else if (64 <=? b) && (b <=? 79) then RTC_PKT_CHANNEL_DATA
      else if (20 <=? b) && (b <=? 63) then RTC_PKT_DTLS
      else if (128 <=? b) && (b <=? 191) then
        match rest with
        | b1 :: _ => if (200 <=? b1) && (b1 <=? 206) then RTC_PKT_RTCP else RTC_PKT_RTP
        | [] => RTC_PKT_RTP
        end
      else RTC_PKT_UNKNOWN
  end.

(** ** State *)

(** a datagram handed to the kernel; [src]: the pinned source address *)
Record datagram := Datagram { dest : rtc_addr_t; src : option bytes; payload : bytes }.

(** [sendto] / [sendmsg]: the returned length, and whether [errno] is then
    EAGAIN or EWOULDBLOCK *)
Class Kernel := kernel_send : list datagram -> datagram -> Z * bool.

(** [sock]: the socket is valid; [arena]: recv_batch_arena is allocated;
    [sends]: the datagrams passed to the kernel, oldest first *)
Record rtc_packet_io_t := PacketIo {
  sock : option Z;
  local_addr : rtc_addr_t;
  on_recv : bool;
  remote_addr : rtc_addr_t;
  remote_addr_set : bool;
  pkts_recv : Z;
  bytes_recv : Z;
  pkts_sent : Z;
  bytes_sent : Z;
  send_errors : Z;
  send_would_block : Z;
  recv_drain_full : Z;
  recv_kernel_drops : Z;
  last_local_v6 : bytes;
  last_local_valid : bool;
  arena : bool;
  sends : list datagram
}.

Definition with_sock (t : rtc_packet_io_t) (s : option Z) (a : bool) : rtc_packet_io_t :=
  PacketIo s (local_addr t) (on_recv t) (remote_addr t) (remote_addr_set t) (pkts_recv t) (bytes_recv t)
    (pkts_sent t) (bytes_sent t) (send_errors t) (send_would_block t) (recv_drain_full t)
    (recv_kernel_drops t) (last_local_v6 t) (last_local_valid t) a (sends t).
Definition with_remote (t : rtc_packet_io_t) (a : rtc_addr_t) : rtc_packet_io_t :=
  PacketIo (sock t) (local_addr t) (on_recv t) a true (pkts_recv t) (bytes_recv t)
    (pkts_sent t) (bytes_sent t) (send_errors t) (send_would_block t) (recv_drain_full t)
    (recv_kernel_drops t) (last_local_v6 t) (last_local_valid t) (arena t) (sends t).
Definition with_recv (t : rtc_packet_io_t) (pkts nbytes full drops : Z) (l6 : bytes) (lv : bool)
    : rtc_packet_io_t :=
  PacketIo (sock t) (local_addr t) (on_recv t) (remote_addr t) (remote_addr_set t) pkts nbytes
    (pkts_sent t) (bytes_sent t) (send_errors t) (send_would_block t) full drops l6 lv (arena t) (sends t).
Definition with_send (t : rtc_packet_io_t) (pkts nbytes errs wb : Z) (l : list datagram) : rtc_packet_io_t :=
  PacketIo (sock t) (local_addr t) (on_recv t) (remote_addr t) (remote_addr_set t) (pkts_recv t) (bytes_recv t)
    pkts nbytes errs wb (recv_drain_full t) (recv_kernel_drops t) (last_local_v6 t) (last_local_valid t)
    (arena t) l.

(** ** Initialisation and close *)

Section Init.
Context `{Inet}.

Definition packet_io_fill_bind_addr (listen_ip : bytes) (port : Z) : res rtc_addr_t :=
  if bool_decide (listen_ip = []) || bool_decide (listen_ip = str "0.0.0.0") ||
     bool_decide (listen_ip = str "::")
  then Ok (AF_INET6 port (replicate 16 0))
  else match inet_pton6 listen_ip with
       | Some a => Ok (AF_INET6 port a)
       | None => match inet_pton4 listen_ip with
                 | Some v4 => Ok (AF_INET6 port (V4_PREFIX ++ be32 v4))
                 | None => Err RTC_ERR_INVALID
                 end
       end.

(** the outcome of the calls of init: the fd of [socket], what [bind] followed
    by [getsockname] yields for the requested address, whether the socket was
    made non-blocking, and the allocation of the arena *)
Record init_env := InitEnv {
  i_socket : option Z;
  i_bound : rtc_addr_t -> option rtc_addr_t;
  i_nonblocking : res unit;
  i_calloc : bool
}.

Definition rtc_packet_io_init_ex (env : init_env) (listen_ip : bytes) (port : Z) (cb : bool)
    : res rtc_packet_io_t :=
  match i_socket env with
  | None => Err RTC_ERR_SOCKET
  | Some s =>
      bind_addr ← packet_io_fill_bind_addr listen_ip port;
      match i_bound env bind_addr with
      | None => Err RTC_ERR_SOCKET
      | Some local =>
          _ ← i_nonblocking env;
          if negb (i_calloc env) then Err RTC_ERR_NOMEM
          else Ok (PacketIo (Some s) local cb AF_OTHER false 0 0 0 0 0 0 0 0 (replicate 16 0) false true [])
      end
  end.
End Init.

Definition rtc_packet_io_close (t : rtc_packet_io_t) : rtc_packet_io_t :=
  match sock t with None => t | Some _ => with_sock t None false end.

Definition rtc_packet_io_set_remote (t : rtc_packet_io_t) (a : rtc_addr_t) : rtc_packet_io_t :=
  with_remote t a.

(** ** Sending *)

Section Send.
Context `{Kernel}.

(** the counters after the kernel's answer; [drain_err_queue] only discards
    errors queued on the socket *)
Definition account (d : datagram) : st rtc_packet_io_t unit := fun t =>
  let '(sent, would_block) := kernel_send (sends t) d in
  let l := sends t ++ [d] in
  if 0 <? sent then
    (with_send t (u64 (pkts_sent t + 1)) (u64 (bytes_sent t + sent)) (send_errors t) (send_would_block t) l,
     Ok ())
  else if would_block then
    (with_send t (pkts_sent t) (bytes_sent t) (send_errors t) (u64 (send_would_block t + 1)) l,
     Err RTC_ERR_SOCKET)
  else
    (with_send t (pkts_sent t) (bytes_sent t) (u64 (send_errors t + 1)) (send_would_block t) l,
     Err RTC_ERR_SOCKET).

Definition send_closed : st rtc_packet_io_t unit := fun t =>
  (with_send t (pkts_sent t) (bytes_sent t) (u64 (send_errors t + 1)) (send_would_block t) (sends t),
   Err RTC_ERR_SOCKET).

Definition rtc_packet_io_send (data : bytes) (dest : rtc_addr_t) : st rtc_packet_io_t unit := fun t =>
  match sock t with
  | None => send_closed t
  | Some _ => account (Datagram (addr_map_v4 dest) None data) t
  end.

Definition rtc_packet_io_send_to_remote (data : bytes) : st rtc_packet_io_t unit := fun t =>
  if negb (remote_addr_set t) then (t, Err RTC_ERR_INVALID)
  else if last_local_valid t then
    match sock t with
    | None => send_closed t
    | Some _ => account (Datagram (addr_map_v4 (remote_addr t)) (Some (last_local_v6 t)) data) t
    end
  else rtc_packet_io_send data (remote_addr t) t.
End Send.

(** ** Receiving *)

(** what [recvmmsg] stores in a slot: the datagram, its source as the kernel
    reports it, and the two control messages *)
Record slot := Slot {
  s_data : bytes;
  s_from : rtc_addr_t;
  s_pktinfo : option bytes;
  s_ovfl : option Z
}.

Definition recv_count (s : slot) (t : rtc_packet_io_t) : rtc_packet_io_t :=
  with_recv t (u64 (pkts_recv t + 1)) (u64 (bytes_recv t + blen (s_data s))) (recv_drain_full t)
    (default (recv_kernel_drops t) (s_ovfl s)) (default (last_local_v6 t) (s_pktinfo s))
    (last_local_valid t || bool_decide (s_pktinfo s <> None)).

Section Drain.
Context {W : Type} (io : W -> rtc_packet_io_t) (set_io : W -> rtc_packet_io_t -> W).
Context (cb : rtc_pkt_type_t -> bytes -> rtc_addr_t -> st W unit).

(** one slot of the batch; the slots are freed by a close *)
Definition drain_slot (s : slot) : st W unit :=
  w ← get;
  _ ← lift (fault_if (negb (arena (io w))));
  _ ← put (set_io w (recv_count s (io w)));
  if on_recv (io w) then void (cb (transport_classify (s_data s)) (s_data s) (addr_unmap_v4 (s_from s)))
  else mret ().

Definition count_full (n : Z) (t : rtc_packet_io_t) : rtc_packet_io_t :=
  if n =? RTC_PACKET_IO_RECV_BATCH then
    with_recv t (pkts_recv t) (bytes_recv t) (u64 (recv_drain_full t + 1)) (recv_kernel_drops t)
      (last_local_v6 t) (last_local_valid t)
  else t.

(** [slots]: what recvmmsg received, [] when it returned 0 or an error *)
Definition rtc_packet_io_drain (slots : list slot) : st W Z :=
  w ← get;
  match sock (io w) with
  | None => mret 0
  | Some _ =>
      _ ← lift (fault_if (negb (arena (io w))));
      _ ← st_each drain_slot slots;
      _ ← modify (fun w => set_io w (count_full (blen slots) (io w)));
      mret (blen slots)
  end.
End Drain.

(** ** Lemmas *)

(** addresses outside the IPv4-mapped block *)
Definition plain (a : rtc_addr_t) : Prop :=
  match a with
  | AF_INET _ ip => ip4 ip
  | AF_INET6 _ b => take 12 b <> V4_PREFIX
  | AF_OTHER => True
  end.

(** what is sent to an address comes back from it *)
Lemma unmap_map a : plain a -> addr_unmap_v4 (addr_map_v4 a) = a.
Proof.
  destruct a as [port ip|port b|]; cbn [plain addr_map_v4]; intros Ha; [| |done].
  - unfold addr_unmap_v4. rewrite take_app_length' by done. rewrite bool_decide_true by done.
    rewrite <-(app_nil_r (be32 ip)). by rewrite (rd_u32_at V4_PREFIX ip [] 12).
  - unfold addr_unmap_v4. by rewrite bool_decide_false.
Qed.

(** the source of every datagram handed to the callback is unmapped *)
Definition delivered (s : slot) : rtc_pkt_type_t * bytes * rtc_addr_t :=
  (transport_classify (s_data s), s_data s, addr_unmap_v4 (s_from s)).

Section Spec.
Context {W : Type} (io : W -> rtc_packet_io_t) (set_io : W -> rtc_packet_io_t -> W).
Context (cb : rtc_pkt_type_t -> bytes -> rtc_addr_t -> st W unit).
Context (io_set : forall w t, io (set_io w t) = t).
(** the callbacks of the listener neither close the socket nor change the
    arena and the registration *)
Context (keeps : forall ty d a w w' r, cb ty d a w = (w', r) ->
  r <> Fault /\ arena (io w') = arena (io w) /\ on_recv (io w') = on_recv (io w)).

(** the calls of a pass: the world after counting and delivering each slot *)
Fixpoint deliver (slots : list slot) (w : W) : W :=
  match slots with
  | [] => w
  | s :: slots =>
      let w := set_io w (recv_count s (io w)) in
      deliver slots (cb (transport_classify (s_data s)) (s_data s) (addr_unmap_v4 (s_from s)) w).1
  end.

Lemma drain_each slots : forall w, arena (io w) = true -> on_recv (io w) = true ->
  st_each (drain_slot io set_io cb) slots w = (deliver slots w, Ok ()) /\
  arena (io (deliver slots w)) = true.
Proof.
  induction slots as [|s slots IH]; intros w Ha Ho; [done|]. cbn [st_each deliver].
  set (w1 := set_io w (recv_count s (io w))).
  destruct (cb (transport_classify (s_data s)) (s_data s) (addr_unmap_v4 (s_from s)) w1) as [w2 r] eqn:E.
  destruct (keeps _ _ _ _ _ _ E) as (Hr & Ha2 & Ho2).
  assert (Es : drain_slot io set_io cb s w = (w2, Ok ())).
  { unfold drain_slot. rewrite st_bind_eq. cbn [get]. rewrite st_bind_eq. unfold lift, fault_if. rewrite Ha. cbn.
    rewrite st_bind_eq. cbn [put]. rewrite Ho. by apply (void_run _ _ _ r). }
  rewrite (st_bind_run _ _ _ _ _ Es). cbn [fst]. apply IH.
  - rewrite Ha2. unfold w1. by rewrite io_set.
  - rewrite Ho2. unfold w1. by rewrite io_set.
Qed.

(** a pass on an open socket returns after delivering all slots in order *)
Lemma drain_run slots w fd :
  sock (io w) = Some fd -> arena (io w) = true -> on_recv (io w) = true ->
  rtc_packet_io_drain io set_io cb slots w =
    (let w' := deliver slots w in set_io w' (count_full (blen slots) (io w')), Ok (blen slots)).
Proof.
  intros Hs Ha Ho. unfold rtc_packet_io_drain. rewrite st_bind_eq. cbn [get]. rewrite Hs, Ha.
  rewrite st_bind_eq. cbn [lift negb fault_if].
  rewrite (st_bind_run _ _ _ _ _ (proj1 (drain_each slots w Ha Ho))). done.
Qed.
End Spec.
End PacketIo.
