(* ===== verification/Scanf.v ===== *)
(** * [sscanf], as the parsers of the repository use it

    A format is the list of its directives.  [sscanf] yields the values
    assigned before the first failure, so that the number returned by the C
    function is the length of that list (0 for EOF too, which no caller tells
    apart).  An integer that the destination cannot represent is undefined
    behaviour (C17 7.21.6.2p10): [Fault].  White space and numbers are read
    across line ends, as in C. *)

From Stdlib Require Import String.
From S2P Require Import Prelude Stun Text.
From Stdlib Require Import ZArith Lia.
From stdpp Require Import base list numbers.
#[local] Open Scope Z_scope.

Module Scanf.
Import Text.

Create HintDb scan.

Definition isspace (b : Z) : bool := (b =? 32) || ((9 <=? b) && (b <=? 13)).

(** the longest prefix that satisfies [p], and what follows *)
Fixpoint span (p : Z -> bool) (s : bytes) : bytes * bytes :=
  match s with
  | [] => ([], [])
  | x :: r => if p x then let '(a, b) := span p r in (x :: a, b) else ([], s)
  end.

(** the same with a field width *)
Fixpoint span_n (n : nat) (p : Z -> bool) (s : bytes) : bytes * bytes :=
  match n, s with
  | S n, x :: r => if p x then let '(a, b) := span_n n p r in (x :: a, b) else ([], s)
  | _, _ => ([], s)
  end.

Definition skip_ws (s : bytes) : bytes := (span isspace s).2.

(** [Ws]: white space; [Lit c]: the character [c]; [Int bits signed]: %d, %u,
    %lu; [SkipInt]: %*d; [Str n]: %<n>s; [SkipStr]: %*s; [Set_ n c]: %<n>[^c];
    [SkipSet c]: %*[^c] *)
Inductive directive :=
  | Ws
  | Lit (c : Z)
  | Int (bits : Z) (signed : bool)
  | SkipInt
  | Str (width : nat)
  | SkipStr
  | Set_ (width : nat) (c : Z)
  | SkipSet (c : Z).

Inductive scanned := VInt (v : Z) | VStr (s : bytes).

(** an optional sign *)
Definition sign (s : bytes) : bool * bytes :=
  match s with
  | 45 :: r => (true, r)
  | 43 :: r => (false, r)
  | _ => (false, s)
  end.

(** the digits of an integer: sign, digits, rest *)
Definition scan_int (s : bytes) : bool * bytes * bytes :=
  let '(neg, s) := sign (skip_ws s) in
  let '(d, r) := span is_digit s in
  (neg, d, r).

Definition int_of (bits : Z) (signed neg : bool) (d : bytes) : res Z :=
  let v := if neg then - dec_value d else dec_value d in
  if signed then
    if (- 2 ^ (bits - 1) <=? v) && (v <? 2 ^ (bits - 1)) then Ok v else Fault
  else if dec_value d <? 2 ^ bits then Ok (v mod 2 ^ bits) else Fault.

Definition nonspace (b : Z) : bool := negb (isspace b).

Fixpoint sscanf (fmt : list directive) (s : bytes) : res (list scanned) :=
  match fmt with
  | [] => Ok []
  | Ws :: fmt => sscanf fmt (skip_ws s)
  | Lit c :: fmt =>
      match s with
      | x :: s => if x =? c then sscanf fmt s else Ok []
      | [] => Ok []
      end
  | Int bits signed :: fmt =>
      let '(neg, d, r) := scan_int s in
      if bool_decide (d = []) then Ok [] else
      v ← int_of bits signed neg d; vs ← sscanf fmt r; Ok (VInt v :: vs)
  | SkipInt :: fmt =>
      let '(_, d, r) := scan_int s in
      if bool_decide (d = []) then Ok [] else sscanf fmt r
  | Str n :: fmt =>
      let '(w, r) := span_n n nonspace (skip_ws s) in
      if bool_decide (w = []) then Ok [] else
      vs ← sscanf fmt r; Ok (VStr w :: vs)
  | SkipStr :: fmt =>
      let '(w, r) := span nonspace (skip_ws s) in
      if bool_decide (w = []) then Ok [] else sscanf fmt r
  | Set_ n c :: fmt =>
      let '(w, r) := span_n n (fun b => negb (b =? c)) s in
      if bool_decide (w = []) then Ok [] else
      vs ← sscanf fmt r; Ok (VStr w :: vs)
  | SkipSet c :: fmt =>
      let '(w, r) := span (fun b => negb (b =? c)) s in
      if bool_decide (w = []) then Ok [] else sscanf fmt r
  end.

(** the literal characters of a format *)
Definition lits (s : bytes) : list directive := Lit <$> s.

(** ** Reading back what was printed *)

(** [s] does not start with a character satisfying [p] *)
Definition stops (p : Z -> bool) (s : bytes) : Prop :=
  match s with [] => True | x :: _ => p x = false end.

Lemma span_app p w r :
  Forall (fun b => p b = true) w -> stops p r -> span p (w ++ r) = (w, r).
Proof.
  induction 1 as [|x w Hx _ IH]; intros Hr.
  - destruct r as [|y r]; [done|]. cbn in *. by rewrite Hr.
  - cbn. rewrite Hx. by rewrite IH.
Qed.

Lemma span_n_app p w r : forall n,
  Forall (fun b => p b = true) w -> stops p r -> (length w <= n)%nat -> span_n n p (w ++ r) = (w, r).
Proof.
  induction w as [|x w IH]; intros n Hw Hr Hn.
  - destruct n, r as [|y r]; try done. cbn in *. by rewrite Hr.
  - destruct n; [cbn in Hn; lia|]. apply Forall_cons_1 in Hw as [Hx Hw]. cbn in *.
    rewrite Hx, IH; [done..|lia].
Qed.

Lemma skip_ws_id s : stops isspace s -> skip_ws s = s.
Proof. intros H. unfold skip_ws. change s with ([] ++ s) at 1. by rewrite span_app. Qed.

Lemma skip_ws_cons s : skip_ws (32 :: s) = skip_ws s.
Proof. unfold skip_ws. cbn. by destruct (span isspace s). Qed.

Lemma stops_app p w r : w <> [] -> Forall (fun b => p b = false) w -> stops p (w ++ r).
Proof. destruct w; [done|]. by intros _ [? _]%Forall_cons_1. Qed.

Lemma digit_not_space b : is_digit b = true -> isspace b = false.
Proof.
  unfold is_digit, isspace. intros [H1%Z.leb_le H2%Z.leb_le]%andb_true_iff.
  apply orb_false_iff. split; [apply Z.eqb_neq; lia|].
  apply andb_false_iff. right. apply Z.leb_gt. lia.
Qed.

Lemma sign_digit d r : d <> [] -> Forall (fun b => is_digit b = true) d -> sign (d ++ r) = (false, d ++ r).
Proof.
  destruct d as [|x d]; [done|]. intros _ [Hx _]%Forall_cons_1. unfold is_digit in Hx.
  apply andb_true_iff in Hx as [H1%Z.leb_le H2%Z.leb_le]. cbn [app sign].
  destruct x as [|p|p]; try lia.
  do 6 (destruct p as [p|p|]; try lia); done.
Qed.

(** a number printed by [%u], read by [%d] or [%u] *)
Lemma scan_dec n r :
  0 <= n -> stops is_digit r -> scan_int (dec n ++ r) = (false, dec n, r).
Proof.
  intros Hn Hr. destruct (dec_digits n Hn) as [Hd Hne]. unfold scan_int.
  rewrite skip_ws_id.
  - rewrite sign_digit by done. by rewrite span_app.
  - apply stops_app; [done|]. eapply Forall_impl; [|exact Hd]. intros; by apply digit_not_space.
Qed.

Lemma scan_sdec n r :
  stops is_digit r ->
  scan_int (sdec n ++ r) = (n <? 0, dec (Z.abs n), r).
Proof.
  intros Hr. unfold sdec. destruct (Z.ltb_spec n 0).
  - rewrite Z.abs_neq by lia. destruct (dec_digits (- n) ltac:(lia)) as [Hd Hne].
    unfold scan_int. rewrite skip_ws_id by done. cbn [app sign]. by rewrite span_app.
  - rewrite Z.abs_eq by lia. by apply scan_dec.
Qed.

Lemma dec_value_dec n : 0 <= n -> dec_value (dec n) = n.
Proof. intros Hn. by destruct (dec_spec n Hn) as (d & -> & H & _). Qed.

Lemma dec_not_nil n : 0 <= n -> bool_decide (dec n = []) = false.
Proof. intros Hn. apply bool_decide_false. by destruct (dec_digits n Hn). Qed.

(** [%d] of a printed [int] *)
Lemma sscanf_int n fmt r :
  - 2 ^ 31 <= n < 2 ^ 31 -> stops is_digit r ->
  sscanf (Int 32 true :: fmt) (sdec n ++ r) = vs ← sscanf fmt r; Ok (VInt n :: vs).
Proof.
  intros Hn Hr. cbn [sscanf]. rewrite scan_sdec by done. rewrite dec_not_nil by lia.
  unfold int_of. rewrite dec_value_dec by lia.
  replace (if n <? 0 then - Z.abs n else Z.abs n) with n by (destruct (Z.ltb_spec n 0); lia).
  rewrite (proj2 (Z.leb_le _ _)), (proj2 (Z.ltb_lt _ _)) by (cbn; lia). done.
Qed.

(** [%u], [%lu] of a printed unsigned number *)
Lemma sscanf_uint bits n fmt r :
  0 <= n < 2 ^ bits -> stops is_digit r ->
  sscanf (Int bits false :: fmt) (dec n ++ r) = vs ← sscanf fmt r; Ok (VInt n :: vs).
Proof.
  intros Hn Hr. cbn [sscanf]. rewrite scan_dec by (done || lia). rewrite dec_not_nil by lia.
  unfold int_of. rewrite dec_value_dec by lia. rewrite (proj2 (Z.ltb_lt _ _)) by lia.
  by rewrite Z.mod_small by lia.
Qed.

(** [%d] of a number printed by [%u] *)
Lemma sscanf_int_dec n fmt r :
  0 <= n < 2 ^ 31 -> stops is_digit r ->
  sscanf (Int 32 true :: fmt) (dec n ++ r) = vs ← sscanf fmt r; Ok (VInt n :: vs).
Proof.
  intros Hn Hr. rewrite <-(sscanf_int n fmt r) by (done || lia). unfold sdec.
  by rewrite (proj2 (Z.ltb_ge _ _)) by lia.
Qed.

(** a word: not empty, without white space *)
Definition word (w : bytes) : Prop := w <> [] /\ Forall (fun b => isspace b = false) w.

Lemma word_stops w r : word w -> stops isspace (w ++ r).
Proof. intros []. by apply stops_app. Qed.

Lemma word_nonspace w : word w -> Forall (fun b => nonspace b = true) w.
Proof. intros [_ H]. eapply Forall_impl; [|exact H]. cbn. unfold nonspace. by intros b ->. Qed.

Lemma sscanf_str n w fmt r :
  word w -> (length w <= n)%nat -> stops nonspace r ->
  sscanf (Str n :: fmt) (w ++ r) = vs ← sscanf fmt r; Ok (VStr w :: vs).
Proof.
  intros Hw Hn Hr. cbn [sscanf]. rewrite skip_ws_id by by apply word_stops.
  rewrite span_n_app by (done || by apply word_nonspace). destruct Hw. by rewrite bool_decide_false.
Qed.

Lemma sscanf_skip_str w fmt r :
  word w -> stops nonspace r -> sscanf (SkipStr :: fmt) (w ++ r) = sscanf fmt r.
Proof.
  intros Hw Hr. cbn [sscanf]. rewrite skip_ws_id by by apply word_stops.
  rewrite span_app by (done || by apply word_nonspace). destruct Hw. by rewrite bool_decide_false.
Qed.

Lemma sscanf_skip_int n fmt r :
  0 <= n -> stops is_digit r -> sscanf (SkipInt :: fmt) (dec n ++ r) = sscanf fmt r.
Proof. intros Hn Hr. cbn [sscanf]. rewrite scan_dec by done. by rewrite dec_not_nil. Qed.

Lemma sscanf_set n c w fmt r :
  w <> [] -> Forall (fun b => b <> c) w -> (length w <= n)%nat -> stops (fun b => negb (b =? c)) r ->
  sscanf (Set_ n c :: fmt) (w ++ r) = vs ← sscanf fmt r; Ok (VStr w :: vs).
Proof.
  intros Hne Hw Hn Hr. cbn [sscanf].
  rewrite span_n_app by (done || (eapply Forall_impl; [|exact Hw]; intros b Hb; cbn; by apply negb_true_iff, Z.eqb_neq)).
  by rewrite bool_decide_false.
Qed.

(** a space of the format before a word *)
Lemma sscanf_ws fmt r : stops isspace r -> sscanf (Ws :: fmt) (32 :: r) = sscanf fmt r.
Proof. intros Hr. cbn [sscanf]. by rewrite skip_ws_cons, skip_ws_id. Qed.

Lemma sscanf_lit c fmt r : sscanf (Lit c :: fmt) (c :: r) = sscanf fmt r.
Proof. cbn. by rewrite Z.eqb_refl. Qed.

Lemma sscanf_lits l fmt r : sscanf (lits l ++ fmt) (l ++ r) = sscanf fmt r.
Proof. induction l as [|c l IH]; [done|]. cbn. by rewrite Z.eqb_refl. Qed.

(** numbers start with a digit or a sign, words with a character that is not
    white space *)
Lemma dec_word n : 0 <= n -> word (dec n).
Proof.
  intros Hn. destruct (dec_digits n Hn) as [Hd Hne]. split; [done|].
  eapply Forall_impl; [|exact Hd]. intros; by apply digit_not_space.
Qed.

Lemma sdec_word n : word (sdec n).
Proof.
  unfold sdec. destruct (Z.ltb_spec n 0); [|apply dec_word; lia].
  destruct (dec_word (- n)) as [_ H1]; [lia|]. split; [done|by constructor].
Qed.

Lemma stops_cons p x r : p x = false -> stops p (x :: r).
Proof. done. Qed.

#[export] Hint Resolve word_stops dec_word sdec_word : scan.
#[export] Hint Extern 1 (stops _ (_ :: _)) => reflexivity : scan.
#[export] Hint Extern 1 (_ <= _) => lia : scan.
#[export] Hint Extern 1 (_ <= _ < _) => lia : scan.

(** evaluate the string literals of a goal *)
Ltac eval_str :=
  repeat match goal with
  | |- context [str ?s] => let v := eval vm_compute in (str s) in change (str s) with v
  end.

(** [sscanf] never writes a string longer than the field width *)
Lemma span_n_length p n s : (length (span_n n p s).1 <= n)%nat.
Proof.
  revert s. induction n as [|n IH]; intros [|x s]; cbn; try lia.
  destruct (p x); cbn; [|lia]. specialize (IH s). destruct (span_n n p s). cbn in *. lia.
Qed.
End Scanf.
