(* ===== verification/Candidate.v ===== *)
(** * ICE candidates (rtc/src/rtc_sdp.c: the candidate attribute)

    Candidates, their priority (RFC 8445 5.1.2.1), their text form and its
    parser.  A [char *] argument is the C string it points to, so the parser
    of a candidate line inside a session description sees the whole text that
    follows the line. *)

From Stdlib Require Import String.
From S2P Require Import Prelude Stun Text Scanf.
From Stdlib Require Import ZArith Lia.
From stdpp Require Import base list numbers.
#[local] Open Scope Z_scope.

Module Candidate.
Import Stun Text Scanf.

Inductive rtc_ice_candidate_type_t := ICE_CANDIDATE_HOST | ICE_CANDIDATE_SRFLX | ICE_CANDIDATE_RELAY.

#[export] Instance candidate_type_eq_dec : EqDecision rtc_ice_candidate_type_t.
Proof. solve_decision. Defined.

Record rtc_ice_candidate_t := Candidate {
  type : rtc_ice_candidate_type_t;
  addr : rtc_addr_t;
  related_addr : rtc_addr_t;
  priority : Z;
  component : Z;
  has_related_addr : bool;
  foundation : bytes
}.

#[export] Instance candidate_eq_dec : EqDecision rtc_ice_candidate_t.
Proof. solve_decision. Defined.

Definition with_related (c : rtc_ice_candidate_t) (a : rtc_addr_t) : rtc_ice_candidate_t :=
  Candidate (type c) (addr c) a (priority c) (component c) true (foundation c).

Definition rtc_ice_candidate_priority (ty : rtc_ice_candidate_type_t) (local_pref component : Z) : Z :=
  let type_pref := match ty with
                   | ICE_CANDIDATE_HOST => 126
                   | ICE_CANDIDATE_SRFLX => 100
                   | ICE_CANDIDATE_RELAY => 0
                   end in
  let local_pref := if local_pref <? 0 then 0 else local_pref in
  let local_pref := if 65535 <? local_pref then 65535 else local_pref in
  let component := if component <? 1 then 1 else component in
  let component := if 255 <? component then 255 else component in
  Z.lor (Z.lor (u32 (Z.shiftl type_pref 24)) (u32 (Z.shiftl local_pref 8))) (u32 (256 - component)).

Definition type_str (ty : rtc_ice_candidate_type_t) : bytes :=
  match ty with
  | ICE_CANDIDATE_HOST => str "host"
  | ICE_CANDIDATE_SRFLX => str "srflx"
  | ICE_CANDIDATE_RELAY => str "relay"
  end.

(** [strncmp(s, prefix, strlen(prefix)) == 0] *)
Fixpoint starts (prefix s : bytes) : bool :=
  match prefix, s with
  | [], _ => true
  | a :: prefix, b :: s => (a =? b) && starts prefix s
  | _ :: _, [] => false
  end.

(** [strstr]: the suffix that starts with the first occurrence *)
Fixpoint strstr (needle s : bytes) : option bytes :=
  if starts needle s then Some s
  else match s with [] => None | _ :: s => strstr needle s end.

Section Text.
Context `{Inet}.

Definition rtc_ice_candidate_to_string (c : rtc_ice_candidate_t) (len : Z) : res bytes :=
  '(ip, port) ← rtc_addr_to_string (addr c) 64;
  let s := str "candidate:" ++ foundation c ++ str " " ++ sdec (component c) ++ str " udp " ++
           dec (priority c) ++ str " " ++ ip ++ str " " ++ dec port ++ str " typ " ++ type_str (type c) in
  _ ← fail_if (len <=? blen s) RTC_ERR_NOMEM;
  if has_related_addr c then
    '(rip, rport) ← rtc_addr_to_string (related_addr c) 64;
    let r := str " raddr " ++ rip ++ str " rport " ++ dec rport in
    _ ← fail_if (len - blen s <=? blen r) RTC_ERR_NOMEM;
    Ok (s ++ r)
  else Ok s.

(** "%31s %d %7s %u %63s %u typ %7s" *)
Definition CANDIDATE_FMT : list directive :=
  [Str 31; Ws; Int 32 true; Ws; Str 7; Ws; Int 32 false; Ws; Str 63; Ws; Int 32 false; Ws]
  ++ lits (str "typ") ++ [Ws; Str 7].

(** " raddr %63s rport %u" *)
Definition RELATED_FMT : list directive :=
  [Ws] ++ lits (str "raddr") ++ [Ws; Str 63; Ws] ++ lits (str "rport") ++ [Ws; Int 32 false].

Definition candidate_type_of (s : bytes) : res rtc_ice_candidate_type_t :=
  if bool_decide (s = str "host") then Ok ICE_CANDIDATE_HOST
  else if bool_decide (s = str "srflx") then Ok ICE_CANDIDATE_SRFLX
  else if bool_decide (s = str "relay") then Ok ICE_CANDIDATE_RELAY
  else Err RTC_ERR_SDP.

(** the related address found from [p] on *)
Definition parse_related (p : bytes) (c : rtc_ice_candidate_t) : res rtc_ice_candidate_t :=
  match strstr (str " raddr ") p with
  | None => Ok c
  | Some related =>
      vs ← sscanf RELATED_FMT related;
      match vs with
      | [VStr rip; VInt rport] =>
          _ ← fail_if ((rport =? 0) || (65535 <? rport)) RTC_ERR_SDP;
          a ← rtc_addr_from_string rip (u16 rport);
          Ok (with_related c a)
      | _ => Ok c
      end
  end.

Definition rtc_sdp_parse_candidate_line (line : bytes) : res rtc_ice_candidate_t :=
  let p := if starts (str "a=") line then drop 2 line else line in
  _ ← fail_if (negb (starts (str "candidate:") p)) RTC_ERR_SDP;
  let p := drop 10 p in
  vs ← sscanf CANDIDATE_FMT p;
  match vs with
  | [VStr f; VInt comp; VStr tr; VInt prio; VStr ip; VInt port; VStr ty] =>
      _ ← fail_if (negb (bool_decide (tr = str "udp")) && negb (bool_decide (tr = str "UDP"))) RTC_ERR_SDP;
      _ ← fail_if ((comp <=? 0) || (port =? 0) || (65535 <? port)) RTC_ERR_SDP;
      ty ← candidate_type_of ty;
      a ← rtc_addr_from_string ip (u16 port);
      parse_related p (Candidate ty a AF_OTHER prio comp false f)
  | _ => Err RTC_ERR_SDP
  end.
End Text.

(** ** Priority *)

(** the fields of a priority do not overlap: host above server-reflexive above
    relay, then the local preference, then the component *)
Lemma priority_value ty lp comp :
  0 <= lp <= 65535 -> 1 <= comp <= 255 ->
  rtc_ice_candidate_priority ty lp comp =
    match ty with ICE_CANDIDATE_HOST => 126 | ICE_CANDIDATE_SRFLX => 100 | ICE_CANDIDATE_RELAY => 0 end * 2 ^ 24
    + lp * 2 ^ 8 + (256 - comp).
Proof.
  intros Hl Hc. unfold rtc_ice_candidate_priority. cbv zeta.
  rewrite (proj2 (Z.ltb_ge lp 0)), (proj2 (Z.ltb_ge 65535 lp)), (proj2 (Z.ltb_ge comp 1)),
    (proj2 (Z.ltb_ge 255 comp)) by lia.
  set (tp := match ty with ICE_CANDIDATE_HOST => 126 | ICE_CANDIDATE_SRFLX => 100 | ICE_CANDIDATE_RELAY => 0 end).
  assert (0 <= tp <= 126) by (unfold tp; destruct ty; lia).
  replace (u32 (Z.shiftl tp 24)) with (Z.shiftl tp 24) by solve_arith.
  replace (u32 (Z.shiftl lp 8)) with (lp * 256) by solve_arith.
  replace (u32 (256 - comp)) with (256 - comp) by solve_arith.
  rewrite lor_shiftl_add by (cbn; lia).
  replace (tp * 2 ^ 24 + lp * 256) with (Z.shiftl (tp * 2 ^ 16 + lp) 8) by (rewrite Z.shiftl_mul_pow2; lia).
  rewrite lor_shiftl_add by (cbn; lia). lia.
Qed.

(** ** The text form is read back *)

(** the candidates the code builds: the foundation is a word that fits its
    field, the component and the ports are positive *)
Definition addr_port (a : rtc_addr_t) : Z :=
  match a with AF_INET p _ | AF_INET6 p _ => p | AF_OTHER => 0 end.

Definition usable (a : rtc_addr_t) : Prop := addr_ok a /\ addr_port a <> 0.

Record wf_candidate (c : rtc_ice_candidate_t) : Prop := {
  wf_foundation : word (foundation c);
  wf_foundation_len : (length (foundation c) <= 31)%nat;
  wf_foundation_chars : Forall (fun b => 0 < b < 256) (foundation c);
  wf_component : 0 < component c < 2 ^ 31;
  wf_priority : 0 <= priority c < 2 ^ 32;
  wf_addr : usable (addr c);
  wf_related : if has_related_addr c then usable (related_addr c) else related_addr c = AF_OTHER
}.

Section RoundTrip.
Context `{InetLaws}.

Lemma inet_word t : 0 < blen t -> Forall inet_char t -> word t.
Proof.
  intros Hl Hc. split; [by intros ->|]. eapply Forall_impl; [|exact Hc]. intros b Hb.
  destruct Hb as [Hb|[->|[->|Hb]]]; [by apply digit_not_space|done..|].
  unfold isspace. rewrite (proj2 (Z.eqb_neq b 32)), (proj2 (Z.leb_gt b 13)) by lia. by rewrite andb_false_r.
Qed.

Lemma usable_text a :
  usable a -> exists t p, rtc_addr_to_string a 64 = Ok (t, p) /\ rtc_addr_from_string t p = Ok a /\
    0 < p < 2 ^ 16 /\ (length t <= 63)%nat /\ word t /\ Forall inet_char t.
Proof.
  intros [Ha Hp]. destruct (addr_text a Ha) as (t & p & Et & Ef & Hport & Hl & Hc).
  exists t, p. unfold port_ok in Hport. unfold blen in *. split_and!; [done|done| |lia|lia|by apply inet_word; [unfold blen; lia|]|done].
  assert (p = addr_port a) as ->; [|lia].
  destruct a; cbn in Et; [destruct (_ <? _); by simplify_eq..|done].
Qed.

(** " raddr " cannot start inside a text without space, or at a space that
    another character follows *)
Lemma strstr_skip n w s : Forall (fun b => b <> 32) w -> strstr (32 :: n) (w ++ s) = strstr (32 :: n) s.
Proof.
  induction 1 as [|x w Hx _ IH]; [done|]. cbn [app strstr starts].
  rewrite (proj2 (Z.eqb_neq 32 x)) by congruence. done.
Qed.

Lemma strstr_space a n x s :
  x <> a -> x <> 32 -> strstr (32 :: a :: n) (32 :: x :: s) = strstr (32 :: a :: n) s.
Proof.
  intros Ha Hs. cbn [strstr starts]. rewrite (proj2 (Z.eqb_neq a x)), (proj2 (Z.eqb_neq 32 x)) by congruence.
  done.
Qed.

Lemma word_no_space w : word w -> Forall (fun b => b <> 32) w.
Proof. intros [_ Hw]. eapply Forall_impl; [|exact Hw]. by intros b Hb ->. Qed.

(** a space followed by a word that does not start with [a] *)
Lemma strstr_word a n w s :
  word w -> hd 0 w <> a -> strstr (32 :: a :: n) (32 :: w ++ s) = strstr (32 :: a :: n) s.
Proof.
  intros Hw Ha. pose proof (word_no_space w Hw) as Hs. destruct w as [|x w]; [by destruct Hw|].
  cbn [app hd] in *. apply Forall_cons_1 in Hs as [Hx Hs]. rewrite strstr_space by done. by apply strstr_skip.
Qed.

Lemma dec_hd n a : 0 <= n -> is_digit a = false -> hd 0 (dec n) <> a.
Proof.
  intros Hn Ha. destruct (dec_digits n Hn) as [Hd Hne]. destruct (dec n); [done|].
  apply Forall_cons_1 in Hd as [Hd _]. cbn. congruence.
Qed.

Lemma inet_hd t : word t -> Forall inet_char t -> hd 0 t <> 114.
Proof.
  intros [Hne _] Hc. destruct t; [done|]. apply Forall_cons_1 in Hc as [Hc _]. cbn. intros ->.
  destruct Hc as [?|[?|[?|?]]]; try done. lia.
Qed.

(** the part of the line before the related address *)
Definition base_text (c : rtc_ice_candidate_t) (ip : bytes) (port : Z) : bytes :=
  foundation c ++ str " " ++ sdec (component c) ++ str " udp " ++ dec (priority c) ++ str " " ++
  ip ++ str " " ++ dec port ++ str " typ " ++ type_str (type c).

Lemma strstr_base c ip port s :
  wf_candidate c -> word ip -> Forall inet_char ip -> 0 < port ->
  strstr (str " raddr ") (base_text c ip port ++ s) = strstr (str " raddr ") s.
Proof.
  intros Hc Hip Hic Hp. destruct Hc. unfold base_text. rewrite <-!app_assoc.
  eval_str. cbn [app].
  rewrite strstr_skip by by apply word_no_space.
  unfold sdec. rewrite (proj2 (Z.ltb_ge _ _)) by lia.
  rewrite strstr_word by (apply dec_word || apply dec_hd; done || lia).
  rewrite strstr_space by done.
  change (100 :: 112 :: ?x) with ([100; 112] ++ x). rewrite strstr_skip by (repeat constructor; done).
  rewrite strstr_word by (apply dec_word || apply dec_hd; done || lia).
  rewrite strstr_word by (done || by apply inet_hd).
  rewrite strstr_word by (apply dec_word || apply dec_hd; done || lia).
  rewrite strstr_space by done.
  change (121 :: 112 :: ?x) with ([121; 112] ++ x). rewrite strstr_skip by (repeat constructor; done).
  destruct (type c); cbn; done.
Qed.

Lemma type_str_read ty : candidate_type_of (type_str ty) = Ok ty.
Proof. by destruct ty. Qed.

Lemma type_str_word ty : word (type_str ty) /\ (length (type_str ty) <= 7)%nat.
Proof. destruct ty; repeat split; try done; try (cbn; lia); repeat constructor. Qed.

(** the fields of a printed candidate, whatever follows it *)
Lemma scan_base c ip port s :
  wf_candidate c -> word ip -> (length ip <= 63)%nat -> 0 < port < 2 ^ 16 -> stops nonspace s ->
  sscanf CANDIDATE_FMT (base_text c ip port ++ s) =
    Ok [VStr (foundation c); VInt (component c); VStr (str "udp"); VInt (priority c); VStr ip; VInt port;
        VStr (type_str (type c))].
Proof.
  intros Hc Hip Hil Hp Hs. destruct Hc. destruct (type_str_word (type c)) as [Hw Hwl].
  unfold base_text, CANDIDATE_FMT. rewrite <-!app_assoc. eval_str. cbn [app].
  rewrite sscanf_str by (done || auto with scan).
  rewrite sscanf_ws by auto with scan. rewrite sscanf_int by (done || lia).
  rewrite sscanf_ws by done.
  change (117 :: 100 :: 112 :: ?x) with ([117; 100; 112] ++ x).
  rewrite sscanf_str by (done || (split; [done|repeat constructor]) || (cbn; lia)).
  rewrite sscanf_ws by auto with scan. rewrite sscanf_uint by (done || lia).
  rewrite sscanf_ws by auto with scan. rewrite sscanf_str by (done || lia).
  rewrite sscanf_ws by auto with scan. rewrite sscanf_uint by (done || lia).
  rewrite sscanf_ws by done.
  change (116 :: 121 :: 112 :: ?x) with ([116; 121; 112] ++ x).
  rewrite (sscanf_lits [116; 121; 112]). rewrite sscanf_ws by auto with scan.
  rewrite <-(app_nil_r (type_str _)) at 1. rewrite app_nil_r. rewrite sscanf_str by done. done.
Qed.

Lemma scan_related rip rport s :
  word rip -> (length rip <= 63)%nat -> 0 <= rport < 2 ^ 32 -> stops is_digit s ->
  sscanf RELATED_FMT (str " raddr " ++ rip ++ str " rport " ++ dec rport ++ s) = Ok [VStr rip; VInt rport].
Proof.
  intros Hw Hl Hp Hs. unfold RELATED_FMT. eval_str. cbn [app].
  rewrite sscanf_ws by done. change (114 :: 97 :: 100 :: 100 :: 114 :: ?x) with ([114; 97; 100; 100; 114] ++ x).
  rewrite (sscanf_lits [114; 97; 100; 100; 114]). rewrite sscanf_ws by auto with scan.
  rewrite sscanf_str by done. rewrite sscanf_ws by done.
  change (114 :: 112 :: 111 :: 114 :: 116 :: ?x) with ([114; 112; 111; 114; 116] ++ x).
  rewrite (sscanf_lits [114; 112; 111; 114; 116]). rewrite sscanf_ws by auto with scan.
  rewrite sscanf_uint by (done || lia). done.
Qed.

Definition related_text (rip : bytes) (rport : Z) : bytes := str " raddr " ++ rip ++ str " rport " ++ dec rport.

Lemma parse_related_text a rip rport c s :
  word rip -> (length rip <= 63)%nat -> 0 < rport < 2 ^ 16 -> rtc_addr_from_string rip rport = Ok a ->
  stops is_digit s -> parse_related (related_text rip rport ++ s) c = Ok (with_related c a).
Proof.
  intros Hw Hl Hp Ef Hs. unfold parse_related.
  assert (strstr (str " raddr ") (related_text rip rport ++ s) = Some (related_text rip rport ++ s)) as ->.
  { done. }
  unfold related_text. rewrite <-!app_assoc. rewrite scan_related by (done || lia). cbn [mbind res_bind].
  rewrite (proj2 (Z.eqb_neq rport 0)), (proj2 (Z.ltb_ge 65535 rport)) by lia. cbn.
  unfold u16. rewrite Z.mod_small by (cbn; lia). by rewrite Ef.
Qed.

Lemma parse_related_skip pre s c :
  strstr (str " raddr ") (pre ++ s) = strstr (str " raddr ") s ->
  parse_related (pre ++ s) c = parse_related s c.
Proof. intros E. unfold parse_related. by rewrite E. Qed.

(** a printed candidate is read back; a candidate without related address
    takes the first one that follows in the text *)
Lemma parse_candidate_text c len t s :
  wf_candidate c -> rtc_ice_candidate_to_string c len = Ok t -> stops nonspace s -> stops is_digit s ->
  rtc_sdp_parse_candidate_line (str "a=" ++ t ++ s) =
    if has_related_addr c then Ok c else parse_related s c.
Proof.
  intros Hc Et Hs Hd. pose proof Hc as [].
  destruct (usable_text _ wf_addr0) as (ip & port & Ea & Ef & Hp & Hl & Hw & Hic).
  unfold rtc_ice_candidate_to_string in Et. rewrite Ea in Et. cbn [mbind res_bind] in Et.
  apply bind_Ok in Et as ([] & _ & Et).
  assert (exists r, t = str "candidate:" ++ base_text c ip port ++ r /\ stops nonspace (r ++ s) /\
    parse_related (r ++ s) (Candidate (type c) (addr c) AF_OTHER (priority c) (component c) false (foundation c)) =
    if has_related_addr c then Ok c else parse_related s c) as (r & -> & Hsr & Hr).
  { destruct (has_related_addr c) eqn:Eh.
    - destruct (usable_text _ wf_related0) as (rip & rport & Ear & Efr & Hpr & Hlr & Hwr & Hicr).
      rewrite Ear in Et. cbn [mbind res_bind] in Et. apply bind_Ok in Et as ([] & _ & Et). apply Ok_inj in Et as <-.
      exists (related_text rip rport). unfold base_text. rewrite <-!app_assoc. split_and!; [done|done|].
      rewrite (parse_related_text (related_addr c)) by done. unfold with_related. cbn. destruct c; cbn in *. by subst.
    - apply Ok_inj in Et as <-. exists []. rewrite app_nil_r. split_and!; [done|done|]. cbn [app].
      destruct c; cbn in *. by subst. }
  rewrite <-!app_assoc. unfold rtc_sdp_parse_candidate_line.
  change (starts (str "a=") (str "a=" ++ ?x)) with true. cbv iota zeta.
  change (drop 2 (str "a=" ++ ?x)) with x. change (starts (str "candidate:") (str "candidate:" ++ ?x)) with true.
  change (drop 10 (str "candidate:" ++ ?x)) with x. cbn [negb fail_if mbind res_bind].
  rewrite scan_base by done. cbn [mbind res_bind]. rewrite bool_decide_true by done. cbn [negb andb fail_if].
  rewrite (proj2 (Z.leb_gt (component c) 0)), (proj2 (Z.eqb_neq port 0)), (proj2 (Z.ltb_ge 65535 port)) by lia.
  cbn [orb fail_if mbind res_bind]. rewrite type_str_read. cbn [mbind res_bind].
  unfold u16. rewrite Z.mod_small by (cbn; lia). rewrite Ef. cbn [mbind res_bind].
  rewrite parse_related_skip; [done|]. apply strstr_base; done || lia.
Qed.
End RoundTrip.
End Candidate.
