(* ===== verification/Sdp.v ===== *)
(** * Session descriptions (rtc/src/rtc_sdp.c)

    Generation and parsing of the SDP text.  The parser works on a pointer
    into the text: [s] is the memory from that pointer to the end of the
    buffer (which a NUL follows), [n] the number of bytes before [end].  The
    functions that take C strings ([sscanf], [strstr]) see [cstr s], that is
    everything up to the next NUL, also beyond the current line.  The media
    array with its count is the list of its first [media_count] entries. *)

From Stdlib Require Import String.
From S2P Require Import Prelude Vec Stun Text Scanf Candidate.
From Stdlib Require Import ZArith Lia.
From stdpp Require Import base list numbers.
#[local] Open Scope Z_scope.

Module Sdp.
Import Stun Text Scanf Candidate.

Definition SDP_MAX_SIZE : Z := 8192.
Definition SDP_MAX_MEDIA : Z := 4.
Definition SDP_MAX_EXTMAP : Z := 6.
Definition SDP_EXTMAP_URI_LEN : Z := 96.
Definition ICE_UFRAG_LEN : Z := 8.
Definition ICE_PWD_LEN : Z := 24.
Definition SIZEOF_CANDIDATE : Z := 328.

Inductive rtc_media_type_t := RTC_MEDIA_AUDIO | RTC_MEDIA_VIDEO | RTC_MEDIA_APPLICATION.
Inductive rtc_setup_role_t := RTC_SETUP_ACTIVE | RTC_SETUP_PASSIVE | RTC_SETUP_ACTPASS.

Record rtc_sdp_extmap_t := Extmap { id : Z; uri : bytes }.

Record rtc_sdp_media_t := MediaSection {
  m_type : rtc_media_type_t;
  m_payload_type : Z;
  m_clockrate : Z;
  m_channels : Z;
  m_codec_name : bytes;
  mid_index : Z;
  ssrc : Z;
  extmaps : list rtc_sdp_extmap_t
}.

Record rtc_sdp_t := SdpDesc {
  media_type : rtc_media_type_t;
  payload_type : Z;
  clockrate : Z;
  channels : Z;
  codec_name : bytes;
  media : list rtc_sdp_media_t;
  ice_ufrag : bytes;
  ice_pwd : bytes;
  fingerprint : bytes;
  setup : rtc_setup_role_t;
  ice_options_trickle : bool;
  candidates : @Vec.rtc_vec_t rtc_ice_candidate_t;
  session_id : bytes;
  raw : bytes;
  raw_len : Z
}.

(** [memset(&sdp, 0, sizeof(sdp))] *)
Definition sdp_zero : rtc_sdp_t :=
  SdpDesc RTC_MEDIA_AUDIO 0 0 0 [] [] [] [] [] RTC_SETUP_ACTIVE false (Vec.Vec [] 0 0 0) [] [] 0.
Definition media_zero (ty : rtc_media_type_t) (pt mid : Z) : rtc_sdp_media_t :=
  MediaSection ty pt 0 0 [] mid 0 [].

Definition with_legacy (s : rtc_sdp_t) (ty : rtc_media_type_t) (pt rate ch : Z) (codec : bytes) : rtc_sdp_t :=
  SdpDesc ty pt rate ch codec (media s) (ice_ufrag s) (ice_pwd s) (fingerprint s) (setup s)
    (ice_options_trickle s) (candidates s) (session_id s) (raw s) (raw_len s).
Definition with_sections (s : rtc_sdp_t) (ms : list rtc_sdp_media_t) : rtc_sdp_t :=
  SdpDesc (media_type s) (payload_type s) (clockrate s) (channels s) (codec_name s) ms (ice_ufrag s)
    (ice_pwd s) (fingerprint s) (setup s) (ice_options_trickle s) (candidates s) (session_id s) (raw s) (raw_len s).
Definition with_ice (s : rtc_sdp_t) (ufrag pwd fp : bytes) (role : rtc_setup_role_t) (trickle : bool) : rtc_sdp_t :=
  SdpDesc (media_type s) (payload_type s) (clockrate s) (channels s) (codec_name s) (media s) ufrag pwd fp role
    trickle (candidates s) (session_id s) (raw s) (raw_len s).
Definition with_candidates (s : rtc_sdp_t) (v : @Vec.rtc_vec_t rtc_ice_candidate_t) : rtc_sdp_t :=
  SdpDesc (media_type s) (payload_type s) (clockrate s) (channels s) (codec_name s) (media s) (ice_ufrag s)
    (ice_pwd s) (fingerprint s) (setup s) (ice_options_trickle s) v (session_id s) (raw s) (raw_len s).
Definition with_text (s : rtc_sdp_t) (sid r : bytes) (rl : Z) : rtc_sdp_t :=
  SdpDesc (media_type s) (payload_type s) (clockrate s) (channels s) (codec_name s) (media s) (ice_ufrag s)
    (ice_pwd s) (fingerprint s) (setup s) (ice_options_trickle s) (candidates s) sid r rl.

Section Sdp.
Context `{Inet}.

(** ** Generation

    The write pointer is at the end of [raw]. *)

Definition CRLF : bytes := [13; 10].

(** on overflow the truncated text is left in the buffer *)
Definition sdp_writef (t : bytes) : st rtc_sdp_t unit := fun s =>
  let remain := SDP_MAX_SIZE - blen (raw s) in
  if remain <=? blen t
  then (with_text s (session_id s) (raw s ++ take (Z.to_nat (remain - 1)) t) (raw_len s), Err RTC_ERR_SDP)
  else (with_text s (session_id s) (raw s ++ t) (raw_len s), Ok ()).

Definition is_av (m : rtc_sdp_media_t) : bool :=
  match m_type m with RTC_MEDIA_APPLICATION => false | _ => true end.

Definition sdp_write_media_section (m : rtc_sdp_media_t) : st rtc_sdp_t unit :=
  _ ← sdp_writef
        (match m_type m with
         | RTC_MEDIA_AUDIO => str "m=audio 9 UDP/TLS/RTP/SAVPF " ++ sdec (m_payload_type m) ++ CRLF
         | RTC_MEDIA_VIDEO => str "m=video 9 UDP/TLS/RTP/SAVPF " ++ sdec (m_payload_type m) ++ CRLF
         | RTC_MEDIA_APPLICATION => str "m=application 9 UDP/DTLS/SCTP webrtc-datachannel" ++ CRLF
         end);
  _ ← sdp_writef (str "c=IN IP4 0.0.0.0" ++ CRLF);
  _ ← sdp_writef (str "a=mid:" ++ sdec (mid_index m) ++ CRLF);
  s ← get;
  _ ← sdp_writef (str "a=ice-ufrag:" ++ ice_ufrag s ++ CRLF);
  _ ← sdp_writef (str "a=ice-pwd:" ++ ice_pwd s ++ CRLF);
  _ ← sdp_writef (str "a=fingerprint:sha-256 " ++ fingerprint s ++ CRLF);
  _ ← sdp_writef (str "a=setup:" ++
        match setup s with
        | RTC_SETUP_ACTIVE => str "active"
        | RTC_SETUP_PASSIVE => str "passive"
        | RTC_SETUP_ACTPASS => str "actpass"
        end ++ CRLF);
  _ ← (if is_av m then
         _ ← sdp_writef (str "a=sendrecv" ++ CRLF);
         sdp_writef (str "a=rtcp-mux" ++ CRLF)
       else mret ());
  _ ← (if is_av m && bool_decide (m_codec_name m <> []) then
         match m_type m with
         | RTC_MEDIA_AUDIO =>
             if 0 <? m_channels m then
               sdp_writef (str "a=rtpmap:" ++ sdec (m_payload_type m) ++ str " " ++ m_codec_name m ++ str "/"
                           ++ sdec (m_clockrate m) ++ str "/" ++ sdec (m_channels m) ++ CRLF)
             else
               sdp_writef (str "a=rtpmap:" ++ sdec (m_payload_type m) ++ str " " ++ m_codec_name m ++ str "/"
                           ++ sdec (m_clockrate m) ++ CRLF)
         | _ =>
             sdp_writef (str "a=rtpmap:" ++ sdec (m_payload_type m) ++ str " " ++ m_codec_name m ++ str "/"
                         ++ sdec (m_clockrate m) ++ CRLF)
         end
       else mret ());
  _ ← (if is_av m then
         st_each (fun e => if (id e =? 0) || bool_decide (uri e = []) then mret ()
                           else sdp_writef (str "a=extmap:" ++ dec (id e) ++ str " " ++ uri e ++ CRLF))
           (extmaps m)
       else mret ());
  _ ← (if is_av m then mret () else sdp_writef (str "a=sctp-port:5000" ++ CRLF));
  if is_av m && negb (ssrc m =? 0) then sdp_writef (str "a=ssrc:" ++ dec (ssrc m) ++ str " cname:mrtc" ++ CRLF)
  else mret ().

(** the media sections written *)
Definition effective_media (s : rtc_sdp_t) : res (list rtc_sdp_media_t) :=
  if 0 <? blen (media s) then _ ← fault_if (SDP_MAX_MEDIA <? blen (media s)); Ok (media s)
  else Ok [MediaSection (media_type s) (payload_type s) (clockrate s) (channels s) (codec_name s) 0 0 []].

(** candidate [i], skipped when it has no text form *)
Definition write_candidate (i : Z) : st rtc_sdp_t unit :=
  s ← get;
  o ← lift (Vec.rtc_vec_at (candidates s) i);
  match o with
  | Some (Some c) =>
      t ← lift (attempt (rtc_ice_candidate_to_string c 256));
      match t with
      | Some t => sdp_writef (str "a=" ++ t ++ CRLF)
      | None => mret ()
      end
  | _ => lift Fault
  end.

Definition write_session (sid : bytes) : st rtc_sdp_t unit :=
  _ ← sdp_writef (str "v=0" ++ CRLF);
  _ ← sdp_writef (str "o=mrtc " ++ sid ++ str " 1 IN IP4 0.0.0.0" ++ CRLF);
  _ ← sdp_writef (str "s=mrtc" ++ CRLF);
  sdp_writef (str "t=0 0" ++ CRLF).

Definition write_bundle (ms : list rtc_sdp_media_t) : st rtc_sdp_t unit :=
  _ ← sdp_writef (str "a=group:BUNDLE");
  _ ← st_each (fun m => sdp_writef (str " " ++ sdec (mid_index m))) ms;
  _ ← sdp_writef CRLF;
  sdp_writef (str "a=ice-options:trickle" ++ CRLF).

Definition rtc_sdp_generate (now_ms : Z) : st rtc_sdp_t unit :=
  _ ← modify (fun s => with_text s (if bool_decide (session_id s = []) then (snprintf 32 (dec now_ms)).1
                                     else session_id s) [] (raw_len s));
  s ← get;
  _ ← write_session (session_id s);
  ms ← lift (effective_media s);
  _ ← write_bundle ms;
  _ ← modify (fun s => with_ice s (ice_ufrag s) (ice_pwd s) (fingerprint s) (setup s) true);
  _ ← st_each sdp_write_media_section ms;
  _ ← st_each write_candidate (Z.of_nat <$> seq 0 (Z.to_nat (Vec.rtc_vec_len (candidates s))));
  modify (fun s => with_text s (session_id s) (raw s) (blen (raw s))).

(** ** Parsing *)

(** the bytes before the first NUL *)
Fixpoint cstr (b : bytes) : bytes :=
  match b with
  | [] => []
  | x :: b => if x =? 0 then [] else x :: cstr b
  end.

Definition is_crlf (b : Z) : bool := (b =? 10) || (b =? 13).

(** [nl - line] *)
Fixpoint line_length (n : nat) (s : bytes) : nat :=
  match n, s with
  | S n, x :: s => if is_crlf x then O else S (line_length n s)
  | _, _ => O
  end.

(** [sdp_next_line]: the pointer behind the next newline *)
Fixpoint sdp_next_line (n : nat) (s : bytes) : nat * bytes :=
  match n, s with
  | S n, x :: s => if x =? 10 then (n, s) else sdp_next_line n s
  | _, _ => (n, s)
  end.

Definition sdp_line_starts_n (s : bytes) (line_len : nat) (prefix : bytes) : bool :=
  starts prefix s && bool_decide (length prefix <= line_len)%nat.

(** the value after a prefix of [k] bytes, cut to a field of [cap] bytes *)
Definition field (s : bytes) (line_len k : nat) (cap : Z) : bytes :=
  cstr (take (Nat.min (line_len - k) (Z.to_nat (cap - 1))) (drop k s)).

Definition is_blank (b : Z) : bool := (b =? 32) || (b =? 9).

(** the token loop of ice-options; each round consumes a character *)
Fixpoint has_token (fuel : nat) (tok v : bytes) : bool :=
  match fuel, v with
  | S fuel, _ :: _ =>
      let '(t, r) := span (fun b => negb (is_blank b)) (span is_blank v).2 in
      bool_decide (t = tok) || has_token fuel tok r
  | _, _ => false
  end.

(** the description and [current_media] *)
Abbreviation parse_state := (rtc_sdp_t * Z)%type.

Definition has_current (p : parse_state) : bool := (0 <=? p.2) && (p.2 <? blen (media p.1)).
Definition on_current (f : rtc_sdp_media_t -> rtc_sdp_media_t) (p : parse_state) : parse_state :=
  (with_sections p.1 (alter f (Z.to_nat p.2) (media p.1)), p.2).

(** a new section, when there is room *)
Definition add_section (ty : rtc_media_type_t) (pt : Z) (p : parse_state) : parse_state :=
  let n := blen (media p.1) in
  if n <? SDP_MAX_MEDIA then (with_sections p.1 (media p.1 ++ [media_zero ty pt n]), n) else p.

Definition parse_m_av (ty : rtc_media_type_t) (prefix : bytes) (s : bytes) (p : parse_state) : res parse_state :=
  vs ← sscanf (lits prefix ++ [Ws; SkipInt; Ws; SkipStr; Ws; Int 32 true]) (cstr s);
  let d := p.1 in
  let '(pt, legacy) := match vs with [VInt pt] => (pt, pt) | _ => (0, payload_type d) end in
  Ok (add_section ty pt (with_legacy d ty legacy (clockrate d) (channels d) (codec_name d), p.2)).

Definition parse_m (s : bytes) (p : parse_state) : res parse_state :=
  if starts (str "m=audio") s then parse_m_av RTC_MEDIA_AUDIO (str "m=audio") s p
  else if starts (str "m=video") s then parse_m_av RTC_MEDIA_VIDEO (str "m=video") s p
  else if starts (str "m=application") s then
    let d := p.1 in
    Ok (add_section RTC_MEDIA_APPLICATION 0
          (with_legacy d RTC_MEDIA_APPLICATION (payload_type d) (clockrate d) (channels d) (codec_name d), p.2))
  else Ok p.

(** ice-ufrag, ice-pwd, fingerprint, setup and ice-options *)
Definition parse_ice (s : bytes) (n : nat) (d : rtc_sdp_t) : rtc_sdp_t :=
  let ufrag := if sdp_line_starts_n s n (str "a=ice-ufrag:") then field s n 12 ICE_UFRAG_LEN else ice_ufrag d in
  let pwd := if sdp_line_starts_n s n (str "a=ice-pwd:") then field s n 10 ICE_PWD_LEN else ice_pwd d in
  let fp := if sdp_line_starts_n s n (str "a=fingerprint:sha-256 ") then field s n 22 96 else fingerprint d in
  let role := if starts (str "a=setup:") s then
                let v := drop 8 s in
                if starts (str "active") v then RTC_SETUP_ACTIVE
                else if starts (str "passive") v then RTC_SETUP_PASSIVE
                else RTC_SETUP_ACTPASS
              else setup d in
  let trickle := if sdp_line_starts_n s n (str "a=ice-options:") then
                   let v := take (n - 14) (drop 14 s) in
                   has_token (length v) (str "trickle") v || ice_options_trickle d
                 else ice_options_trickle d in
  with_ice d ufrag pwd fp role trickle.

Definition set_mid (v : Z) (m : rtc_sdp_media_t) : rtc_sdp_media_t :=
  MediaSection (m_type m) (m_payload_type m) (m_clockrate m) (m_channels m) (m_codec_name m) v (ssrc m) (extmaps m).
Definition set_codec (pt rate ch : Z) (codec : bytes) (m : rtc_sdp_media_t) : rtc_sdp_media_t :=
  MediaSection (m_type m) pt rate ch codec (mid_index m) (ssrc m) (extmaps m).
Definition set_ssrc (v : Z) (m : rtc_sdp_media_t) : rtc_sdp_media_t :=
  MediaSection (m_type m) (m_payload_type m) (m_clockrate m) (m_channels m) (m_codec_name m) (mid_index m)
    (if ssrc m =? 0 then v else ssrc m) (extmaps m).
Definition push_extmap (e : rtc_sdp_extmap_t) (m : rtc_sdp_media_t) : rtc_sdp_media_t :=
  MediaSection (m_type m) (m_payload_type m) (m_clockrate m) (m_channels m) (m_codec_name m) (mid_index m)
    (ssrc m) (if blen (extmaps m) <? SDP_MAX_EXTMAP then extmaps m ++ [e] else extmaps m).

Definition parse_mid (s : bytes) (p : parse_state) : res parse_state :=
  if starts (str "a=mid:") s && has_current p then
    vs ← sscanf (lits (str "a=mid:") ++ [Int 32 true]) (cstr s);
    match vs with [VInt v] => Ok (on_current (set_mid v) p) | _ => Ok p end
  else Ok p.

Definition parse_rtpmap (s : bytes) (p : parse_state) : res parse_state :=
  if starts (str "a=rtpmap:") s then
    vs ← sscanf (lits (str "a=rtpmap:") ++ [Int 32 true; Ws; Set_ 31 47; Lit 47; Int 32 true; Lit 47; Int 32 true])
           (cstr s);
    match vs with
    | VInt pt :: VStr codec :: VInt rate :: more =>
        let ch := match more with [VInt ch] => ch | _ => 0 end in
        let p := (with_legacy p.1 (media_type p.1) pt rate ch codec, p.2) in
        Ok (if has_current p then on_current (set_codec pt rate ch codec) p else p)
    | _ => Ok p
    end
  else Ok p.

Definition parse_ssrc (s : bytes) (p : parse_state) : res parse_state :=
  if starts (str "a=ssrc:") s && has_current p then
    vs ← sscanf (lits (str "a=ssrc:") ++ [Int 64 false]) (cstr s);
    match vs with [VInt v] => Ok (on_current (set_ssrc (u32 v)) p) | _ => Ok p end
  else Ok p.

Definition parse_extmap (s : bytes) (p : parse_state) : res parse_state :=
  if starts (str "a=extmap:") s && has_current p then
    let add id_val u := Ok (if (1 <=? id_val) && (id_val <=? 14)
                            then on_current (push_extmap (Extmap (u8 id_val) u)) p else p) in
    vs ← sscanf (lits (str "a=extmap:") ++ [Int 32 true; Ws; Str 95]) (cstr s);
    match vs with
    | [VInt id_val; VStr u] => add id_val u
    | _ =>
        vs ← sscanf (lits (str "a=extmap:") ++ [Int 32 true; Lit 47; SkipSet 32; Ws; Str 95]) (cstr s);
        match vs with
        | [VInt id_val; VStr u] => add id_val u
        | _ => Ok p
        end
    end
  else Ok p.

(** [alloc]: the allocation of this push succeeds *)
Definition parse_candidate (alloc : bool) (s : bytes) (d : rtc_sdp_t) : res rtc_sdp_t :=
  if starts (str "a=candidate:") s then
    o ← attempt (rtc_sdp_parse_candidate_line (cstr s));
    match o with
    | None => Ok d
    | Some c =>
        match Vec.rtc_vec_push alloc c (candidates d) with
        | (_, Fault) => Fault
        | (v, _) => Ok (with_candidates d v)
        end
    end
  else Ok d.

Definition parse_line (alloc : bool) (s : bytes) (n : nat) (p : parse_state) : res parse_state :=
  let line_len := line_length n s in
  p ← parse_m s p;
  let p := (parse_ice s line_len p.1, p.2) in
  p ← parse_mid s p;
  p ← parse_rtpmap s p;
  p ← parse_ssrc s p;
  p ← parse_extmap s p;
  d ← parse_candidate alloc s p.1;
  Ok (d, p.2).

(** [while (p < end)]; every round passes at least one byte *)
Fixpoint parse_loop (fuel : nat) (alloc : nat -> bool) (n : nat) (s : bytes) (p : parse_state) : res parse_state :=
  match fuel, n with
  | _, O => Ok p
  | O, _ => Fault
  | S fuel, _ =>
      p ← parse_line (alloc n) s n p;
      let '(n, s) := sdp_next_line n s in
      parse_loop fuel alloc n s p
  end.

(** [text] is a buffer of at least [len] bytes; [alloc n]: the allocation of
    a push with [n] bytes left succeeds *)
Definition rtc_sdp_parse (alloc : nat -> bool) (text : bytes) (len : Z) : st rtc_sdp_t unit := fun d =>
  let len := if SDP_MAX_SIZE <=? len then SDP_MAX_SIZE - 1 else len in
  if blen text <? len then (d, Fault) else
  let d := with_text d (session_id d) (cstr (take (Z.to_nat len) text)) len in
  match (if Vec.elem_size (candidates d) =? 0 then Vec.rtc_vec_init SIZEOF_CANDIDATE
         else Ok (Vec.rtc_vec_clear (candidates d))) with
  | Ok v =>
      let d := with_sections (with_candidates d v) [] in
      match parse_loop (Z.to_nat len) alloc (Z.to_nat len) text (d, -1) with
      | Ok (d, _) => (d, Ok ())
      | Err e => (d, Err e)
      | Fault => (d, Fault)
      end
  | Err e => (d, Err RTC_ERR_NOMEM)
  | Fault => (d, Fault)
  end.

(** ** Accessors *)

Definition rtc_sdp_close (d : rtc_sdp_t) : rtc_sdp_t := with_candidates d (Vec.rtc_vec_free (candidates d)).

Definition rtc_sdp_add_candidate (alloc : bool) (c : rtc_ice_candidate_t) : st rtc_sdp_t unit := fun d =>
  match (if Vec.elem_size (candidates d) =? 0 then Vec.rtc_vec_init SIZEOF_CANDIDATE else Ok (candidates d)) with
  | Ok v => let '(v, r) := Vec.rtc_vec_push alloc c v in (with_candidates d v, r)
  | Err e => (d, Err e)
  | Fault => (d, Fault)
  end.

Definition rtc_sdp_candidate_count (d : rtc_sdp_t) : Z := Vec.rtc_vec_len (candidates d).
Definition rtc_sdp_get_candidate (d : rtc_sdp_t) (idx : Z) : res (option (option rtc_ice_candidate_t)) :=
  Vec.rtc_vec_at (candidates d) idx.
End Sdp.

(** [strcmp] on the URIs *)
Fixpoint extmap_index (l : list rtc_sdp_extmap_t) (u : bytes) : option nat :=
  match l with
  | [] => None
  | e :: l => if bool_decide (uri e = u) then Some O else S <$> extmap_index l u
  end.

Definition with_extmaps (m : rtc_sdp_media_t) (l : list rtc_sdp_extmap_t) : rtc_sdp_media_t :=
  MediaSection (m_type m) (m_payload_type m) (m_clockrate m) (m_channels m) (m_codec_name m) (mid_index m)
    (ssrc m) l.

Definition rtc_sdp_media_add_extmap (m : rtc_sdp_media_t) (i : Z) (u : bytes) : res rtc_sdp_media_t :=
  _ ← fail_if ((i <? 1) || (14 <? i)) RTC_ERR_INVALID;
  _ ← fail_if (SDP_MAX_EXTMAP <=? blen (extmaps m)) RTC_ERR_INVALID;
  match extmap_index (extmaps m) u with
  | Some k => Ok (with_extmaps m (alter (fun e => Extmap i (uri e)) k (extmaps m)))
  | None => Ok (with_extmaps m (extmaps m ++ [Extmap i (cut SDP_EXTMAP_URI_LEN u)]))
  end.

Definition rtc_sdp_media_find_extmap_id (m : rtc_sdp_media_t) (u : bytes) : Z :=
  match extmap_index (extmaps m) u with
  | Some k => match extmaps m !! k with Some e => id e | None => 0 end
  | None => 0
  end.
End Sdp.
