(* ===== verification/InetModel.v ===== *)
(** * The address conversions have a model

    [inet_ntop] and [inet_pton] are known through the class [Text.InetLaws];
    this file gives functions with these laws: dotted decimal for IPv4, and
    for IPv6 the form with eight groups of four hexadecimal digits.  Examples
    are evaluated with them. *)

From S2P Require Import Prelude Stun Text Scanf.
From Stdlib Require Import ZArith Lia.
From stdpp Require Import base list numbers.
#[local] Open Scope Z_scope.

Module InetModel.
Import Text Scanf.

(** ** IPv4 *)

Definition dotted (ip : Z) : bytes :=
  dec (ip / 2 ^ 24) ++ 46 :: dec (ip / 2 ^ 16 mod 256) ++ 46 :: dec (ip / 2 ^ 8 mod 256) ++ 46 :: dec (ip mod 256).

Definition undotted (s : bytes) : option Z :=
  match sscanf [Int 32 false; Lit 46; Int 32 false; Lit 46; Int 32 false; Lit 46; Int 32 false] s with
  | Ok [VInt a; VInt b; VInt c; VInt d] =>
      let ip := ((a * 256 + b) * 256 + c) * 256 + d in
      if (0 <=? ip) && (ip <? 2 ^ 32) && bool_decide (dotted ip = s) then Some ip else None
  | _ => None
  end.

Lemma octets ip : 0 <= ip < 2 ^ 32 ->
  0 <= ip / 2 ^ 24 < 256 /\ 0 <= ip / 2 ^ 16 mod 256 < 256 /\ 0 <= ip / 2 ^ 8 mod 256 < 256 /\ 0 <= ip mod 256 < 256 /\
  ((ip / 2 ^ 24 * 256 + ip / 2 ^ 16 mod 256) * 256 + ip / 2 ^ 8 mod 256) * 256 + ip mod 256 = ip.
Proof. intros. pow_eval. dlia. Qed.

Lemma undotted_dotted ip : ip4 ip -> undotted (dotted ip) = Some ip.
Proof.
  intros Hip. destruct (octets ip Hip) as (H1 & H2 & H3 & H4 & E). unfold undotted, dotted at 1.
  rewrite sscanf_uint by (done || lia). rewrite sscanf_lit. rewrite sscanf_uint by (done || lia).
  rewrite sscanf_lit. rewrite sscanf_uint by (done || lia). rewrite sscanf_lit.
  rewrite <-(app_nil_r (dec (ip mod 256))). rewrite sscanf_uint by (done || lia). cbn [sscanf mbind res_bind].
  rewrite E, bool_decide_true by done. unfold ip4 in Hip.
  by rewrite (proj2 (Z.leb_le _ _)), (proj2 (Z.ltb_lt _ _)) by lia.
Qed.

Definition dotted_char (b : Z) : Prop := is_digit b = true \/ b = 46.

Lemma dotted_chars ip : ip4 ip -> Forall dotted_char (dotted ip) /\ 0 < blen (dotted ip) < 46.
Proof.
  intros Hip. destruct (octets ip Hip) as (H1 & H2 & H3 & H4 & _).
  assert (Hd : forall n, 0 <= n < 256 -> Forall dotted_char (dec n) /\ (length (dec n) <= 3)%nat).
  { intros n Hn. destruct (dec_digits n) as [Hd _]; [lia|]. split.
    - eapply Forall_impl; [|exact Hd]. intros b Hb. by left.
    - apply dec_length; cbn; lia. }
  destruct (Hd _ H1), (Hd _ H2), (Hd _ H3), (Hd _ H4). unfold dotted. split.
  - repeat (apply Forall_app; split; [done|]; constructor; [by right|]). done.
  - unfold blen. rewrite !length_app; cbn [length]; rewrite !length_app; cbn [length]; rewrite !length_app; cbn [length].
    lia.
Qed.

Lemma undotted_Some s ip : undotted s = Some ip -> Forall dotted_char s.
Proof.
  unfold undotted. destruct (sscanf _ s) as [vs| |]; [|done..].
  destruct vs as [|[a|] [|[b|] [|[c|] [|[d|] [|]]]]]; try done.
  set (n := _ + d). destruct (Z.leb_spec 0 n), (Z.ltb_spec n (2 ^ 32)); cbn [andb]; try done.
  case_bool_decide as E; [|done]. intros _. rewrite <-E. by apply dotted_chars.
Qed.

(** ** IPv6 *)

Definition hexdigit (v : Z) : Z := if v <? 10 then 48 + v else 87 + v.
Definition hexvalue (c : Z) : Z := if c <? 58 then c - 48 else c - 87.
Definition hex (b : Z) : bytes := [hexdigit (b / 16); hexdigit (b mod 16)].

Fixpoint groups (b : bytes) : bytes :=
  match b with
  | x :: y :: r => hex x ++ hex y ++ match r with [] => [] | _ => 58 :: groups r end
  | _ => []
  end.

Fixpoint ungroups (s : bytes) : bytes :=
  match s with
  | a :: b :: c :: d :: r =>
      (hexvalue a * 16 + hexvalue b) :: (hexvalue c * 16 + hexvalue d) ::
      match r with _ :: r => ungroups r | [] => [] end
  | _ => []
  end.

Definition unhex6 (s : bytes) : option bytes :=
  let b := ungroups s in if bool_decide (blen b = 16) && bool_decide (groups b = s) then Some b else None.

Lemma hex_byte x : byte_ok x -> hexvalue (hexdigit (x / 16)) * 16 + hexvalue (hexdigit (x mod 16)) = x.
Proof.
  unfold byte_ok. intros Hx.
  assert (Hv : forall v, 0 <= v < 16 -> hexvalue (hexdigit v) = v).
  { intros v Hv. unfold hexvalue, hexdigit. destruct (Z.ltb_spec v 10).
    - rewrite (proj2 (Z.ltb_lt _ _)) by lia. lia.
    - rewrite (proj2 (Z.ltb_ge _ _)) by lia. lia. }
  rewrite !Hv by dlia. dlia.
Qed.

(** induction on pairs of bytes *)
Lemma ungroups_groups k : forall b, length b = (2 * k)%nat -> bytes_ok b -> ungroups (groups b) = b.
Proof.
  induction k as [|k IH]; intros [|x [|y r]] Hl Hb; cbn in Hl; try done; try lia.
  apply Forall_cons_1 in Hb as [Hx Hb]. apply Forall_cons_1 in Hb as [Hy Hb].
  destruct r as [|z r].
  - cbn. by rewrite !hex_byte.
  - change (ungroups _) with ((hexvalue (hexdigit (x / 16)) * 16 + hexvalue (hexdigit (x mod 16))) ::
      (hexvalue (hexdigit (y / 16)) * 16 + hexvalue (hexdigit (y mod 16))) :: ungroups (groups (z :: r))).
    rewrite !hex_byte by done. do 2 f_equal. apply IH; [cbn in *; lia|done].
Qed.

Lemma hexdigit_char v : 0 <= v < 16 -> inet_char (hexdigit v).
Proof.
  intros Hv. unfold hexdigit. destruct (Z.ltb_spec v 10).
  - left. unfold is_digit. by rewrite !(proj2 (Z.leb_le _ _)) by lia.
  - right. right. right. lia.
Qed.

Lemma groups_chars k : forall b, length b = (2 * k)%nat -> bytes_ok b ->
  Forall inet_char (groups b) /\ (length (groups b) <= 5 * k)%nat.
Proof.
  induction k as [|k IH]; intros [|x [|y r]] Hl Hb; cbn in Hl; try done; try lia.
  apply Forall_cons_1 in Hb as [Hx Hb]. apply Forall_cons_1 in Hb as [Hy Hb].
  assert (forall x, byte_ok x -> Forall inet_char (hex x)) as Hh.
  { unfold byte_ok. intros v Hv. constructor; [apply hexdigit_char; dlia|constructor; [apply hexdigit_char; dlia|constructor]]. }
  destruct (IH r) as [Hc Hlen]; [lia|done|]. cbn [groups]. destruct r as [|z r].
  - rewrite app_nil_r. split; [by apply Forall_app; split; apply Hh|cbn; lia].
  - split.
    + apply Forall_app; split; [by apply Hh|]. apply Forall_app; split; [by apply Hh|].
      constructor; [by right; right; left|done].
    + rewrite !length_app. cbn [hex length]. lia.
Qed.

#[export] Instance inet_model : Inet := {
  inet_ntop4 := dotted; inet_ntop6 := groups; inet_pton4 := undotted; inet_pton6 := unhex6
}.

#[export] Instance inet_model_laws : InetLaws.
Proof.
  assert (Hk : forall ip, ip6 ip -> length ip = (2 * 8)%nat) by (intros ip [Hl _]; unfold blen in Hl; lia).
  constructor.
  - intros ip Hip. destruct (dotted_chars ip Hip) as [Hc Hl]. split; [done|].
    eapply Forall_impl; [|exact Hc]. intros b [Hb| ->]; [by left|by right; left].
  - intros ip Hip. destruct (groups_chars 8 ip (Hk _ Hip) (proj2 Hip)) as [Hc Hl]. split; [|done].
    cbn [inet_ntop6 inet_model]. unfold blen. destruct ip as [|x [|y r]]; [by destruct Hip as [? _]..|].
    cbn [groups hex app length] in *. lia.
  - apply undotted_dotted.
  - intros ip Hip. cbn. unfold unhex6. rewrite (ungroups_groups 8) by (by apply Hk || apply Hip).
    rewrite !bool_decide_true by (done || apply Hip). done.
  - intros ip Hip. cbn. destruct (undotted (groups ip)) as [v|] eqn:E; [|done]. apply undotted_Some in E.
    destruct ip as [|x [|y [|z r]]]; [by destruct Hip as [? _]..|].
    change (groups (x :: y :: z :: r)) with ((hex x ++ hex y) ++ 58 :: groups (z :: r)) in E.
    apply Forall_app in E as [_ E]. apply Forall_cons_1 in E as [[E|E] _]; done.
Qed.
End InetModel.
