(* ===== verification/SdpSpec.v ===== *)
(** * A generated session description is read back

    The text [rtc_sdp_generate] writes is a sequence of lines; [rtc_sdp_parse]
    processes them one by one.  Each kind of line has its effect on the parsed
    description, whatever text follows, except the candidate lines: their
    parser looks for a related address in all the text that follows. *)

From Stdlib Require Import String.
From S2P Require Import Prelude Vec Stun Text Scanf Candidate Sdp InetModel.
From Stdlib Require Import ZArith Lia.
From stdpp Require Import base list numbers.
#[local] Open Scope Z_scope.

Module SdpSpec.
Import Stun Text Scanf Candidate Sdp.

(** ** The lines of a description *)

Definition m_line (m : rtc_sdp_media_t) : bytes :=
  match m_type m with
  | RTC_MEDIA_AUDIO => str "m=audio 9 UDP/TLS/RTP/SAVPF " ++ sdec (m_payload_type m)
  | RTC_MEDIA_VIDEO => str "m=video 9 UDP/TLS/RTP/SAVPF " ++ sdec (m_payload_type m)
  | RTC_MEDIA_APPLICATION => str "m=application 9 UDP/DTLS/SCTP webrtc-datachannel"
  end.

Definition setup_line (r : rtc_setup_role_t) : bytes :=
  str "a=setup:" ++ match r with
                    | RTC_SETUP_ACTIVE => str "active"
                    | RTC_SETUP_PASSIVE => str "passive"
                    | RTC_SETUP_ACTPASS => str "actpass"
                    end.

Definition rtpmap_line (m : rtc_sdp_media_t) : bytes :=
  str "a=rtpmap:" ++ sdec (m_payload_type m) ++ str " " ++ m_codec_name m ++ str "/" ++ sdec (m_clockrate m) ++
  match m_type m with
  | RTC_MEDIA_AUDIO => if 0 <? m_channels m then str "/" ++ sdec (m_channels m) else []
  | _ => []
  end.

Definition extmap_lines (l : list rtc_sdp_extmap_t) : list bytes :=
  flat_map (fun e => if (id e =? 0) || bool_decide (uri e = []) then []
                     else [str "a=extmap:" ++ dec (id e) ++ str " " ++ uri e]) l.

Definition section_lines (d : rtc_sdp_t) (m : rtc_sdp_media_t) : list bytes :=
  [m_line m; str "c=IN IP4 0.0.0.0"; str "a=mid:" ++ sdec (mid_index m);
   str "a=ice-ufrag:" ++ ice_ufrag d; str "a=ice-pwd:" ++ ice_pwd d;
   str "a=fingerprint:sha-256 " ++ fingerprint d; setup_line (setup d)]
  ++ (if is_av m then
        [str "a=sendrecv"; str "a=rtcp-mux"]
        ++ (if bool_decide (m_codec_name m <> []) then [rtpmap_line m] else [])
        ++ extmap_lines (extmaps m)
        ++ (if negb (ssrc m =? 0) then [str "a=ssrc:" ++ dec (ssrc m) ++ str " cname:mrtc"] else [])
      else [str "a=sctp-port:5000"]).

Definition header_lines (sid : bytes) (ms : list rtc_sdp_media_t) : list bytes :=
  [str "v=0"; str "o=mrtc " ++ sid ++ str " 1 IN IP4 0.0.0.0"; str "s=mrtc"; str "t=0 0";
   str "a=group:BUNDLE" ++ flat_map (fun m => str " " ++ sdec (mid_index m)) ms;
   str "a=ice-options:trickle"].

(** the text of a list of lines *)
Definition text_of (ls : list bytes) : bytes := flat_map (fun l => l ++ CRLF) ls.

Lemma text_of_app a b : text_of (a ++ b) = text_of a ++ text_of b.
Proof. apply flat_map_app. Qed.

(** ** Generation writes these lines *)

(** the description after [t] was written *)
Definition wrote (d : rtc_sdp_t) (t : bytes) : rtc_sdp_t := with_text d (session_id d) (raw d ++ t) (raw_len d).

Lemma wrote_wrote d a b : wrote (wrote d a) b = wrote d (a ++ b).
Proof. unfold wrote. destruct d; cbn. by rewrite app_assoc. Qed.

Lemma wrote_nil d : wrote d [] = d.
Proof. unfold wrote. destruct d; cbn. by rewrite app_nil_r. Qed.

(** [f] writes [t] when the text fits the buffer, and fails otherwise *)
Definition writes (f : st rtc_sdp_t unit) (d : rtc_sdp_t) (t : bytes) : Prop :=
  blen (raw d) < SDP_MAX_SIZE ->
  if blen (raw d) + blen t <? SDP_MAX_SIZE then f d = (wrote d t, Ok ())
  else exists d', f d = (d', Err RTC_ERR_SDP).

Lemma writes_writef t d : writes (sdp_writef t) d t.
Proof.
  intros _. unfold sdp_writef. destruct (Z.ltb_spec (blen (raw d) + blen t) SDP_MAX_SIZE).
  - by rewrite (proj2 (Z.leb_gt _ _)) by lia.
  - rewrite (proj2 (Z.leb_le _ _)) by lia. eauto.
Qed.

Lemma writes_ret d : writes (mret ()) d [].
Proof. intros Hd. change (blen []) with 0. rewrite (proj2 (Z.ltb_lt _ _)) by lia. by rewrite wrote_nil. Qed.

Lemma writes_bind f g d a b :
  writes f d a -> writes g (wrote d a) b -> writes (_ ← f; g) d (a ++ b).
Proof.
  intros Hf Hg Hd. specialize (Hf Hd). unfold writes in Hg. cbn [raw wrote with_text] in Hg.
  rewrite blen_app in *. pose proof (blen_nonneg b). rewrite st_bind_eq.
  destruct (Z.ltb_spec (blen (raw d) + blen a) SDP_MAX_SIZE).
  - rewrite Hf, Z.add_assoc. specialize (Hg ltac:(done)). rewrite <-wrote_wrote. by destruct (_ <? _).
  - destruct Hf as (d' & ->). rewrite (proj2 (Z.ltb_ge _ _)) by lia. eauto.
Qed.

Lemma writes_each {A} (f : A -> st rtc_sdp_t unit) (t : A -> bytes) l d :
  (forall a x, writes (f a) (wrote d x) (t a)) -> writes (st_each f l) d (flat_map t l).
Proof.
  intros Hf. revert d Hf. induction l as [|a l IH]; intros d Hf; cbn; [apply writes_ret|].
  apply writes_bind.
  - rewrite <-(wrote_nil d). apply Hf.
  - apply IH. intros b x. rewrite wrote_wrote. apply Hf.
Qed.

Lemma writes_eq f d a b : writes f d a -> a = b -> writes f d b.
Proof. by intros ? <-. Qed.

Lemma writes_get g d t : writes (g d) d t -> writes (s ← get; g s) d t.
Proof. done. Qed.

Lemma writes_skip g d t : writes g d t -> writes (_ ← mret (); g) d t.
Proof. done. Qed.

Lemma writes_last f d t : writes f d t -> writes (_ ← f; mret ()) d t.
Proof. intros Hf. eapply writes_eq; [|apply app_nil_r]. eapply writes_bind; [done|apply writes_ret]. Qed.

Section Generate.
Context `{Inet}.

Lemma text_of_cons l ls : text_of (l :: ls) = (l ++ CRLF) ++ text_of ls.
Proof. done. Qed.

Lemma writes_extmaps l d :
  writes (st_each (fun e => if (id e =? 0) || bool_decide (uri e = []) then mret ()
                            else sdp_writef (str "a=extmap:" ++ dec (id e) ++ str " " ++ uri e ++ CRLF)) l)
    d (text_of (extmap_lines l)).
Proof.
  eapply writes_eq.
  - apply (writes_each _ (fun e => text_of (if (id e =? 0) || bool_decide (uri e = []) then []
      else [str "a=extmap:" ++ dec (id e) ++ str " " ++ uri e]))).
    intros e x. destruct (_ || _); [apply writes_ret|]. cbn [text_of flat_map]. rewrite app_nil_r, <-!app_assoc.
    apply writes_writef.
  - unfold extmap_lines, text_of. induction l as [|e l IH]; [done|]. cbn [flat_map]. by rewrite flat_map_app, IH.
Qed.

Lemma writes_section m d : writes (sdp_write_media_section m) d (text_of (section_lines d m)).
Proof.
  assert (Hl : forall l d, writes (sdp_writef (l ++ CRLF)) d (text_of [l])).
  { intros. cbn. rewrite app_nil_r. apply writes_writef. }
  assert (Hr : forall c d, writes (sdp_writef (rtpmap_line m ++ CRLF)) d c ->
    writes (match m_type m with
         | RTC_MEDIA_AUDIO =>
             if 0 <? m_channels m then
               sdp_writef (str "a=rtpmap:" ++ sdec (m_payload_type m) ++ str " " ++ m_codec_name m ++ str "/"
                           ++ sdec (m_clockrate m) ++ str "/" ++ sdec (m_channels m) ++ CRLF)
             else
               sdp_writef (str "a=rtpmap:" ++ sdec (m_payload_type m) ++ str " " ++ m_codec_name m ++ str "/"
                           ++ sdec (m_clockrate m) ++ CRLF)
         | _ =>
             sdp_writef (str "a=rtpmap:" ++ sdec (m_payload_type m) ++ str " " ++ m_codec_name m ++ str "/"
                         ++ sdec (m_clockrate m) ++ CRLF)
         end) d c).
  { intros c x. unfold rtpmap_line. rewrite <-!app_assoc. destruct (m_type m); [destruct (0 <? _)|..]; done. }
  unfold sdp_write_media_section, section_lines. rewrite text_of_app.
  change (text_of [?a; ?b; ?c; ?e; ?f; ?g; ?h]) with
    ((a ++ CRLF) ++ (b ++ CRLF) ++ (c ++ CRLF) ++ (e ++ CRLF) ++ (f ++ CRLF) ++ (g ++ CRLF) ++ (h ++ CRLF) ++ []).
  rewrite app_nil_r. rewrite <-!(app_assoc (_ ++ CRLF)).
  apply writes_bind. { unfold m_line. destruct (m_type m); rewrite <-?app_assoc; apply writes_writef. }
  apply writes_bind; [apply writes_writef|].
  apply writes_bind. { rewrite <-app_assoc. apply writes_writef. }
  apply writes_get. cbn [ice_ufrag ice_pwd fingerprint setup wrote with_text].
  do 3 (apply writes_bind; [rewrite <-app_assoc; apply writes_writef|]).
  apply writes_bind. { unfold setup_line. rewrite <-app_assoc. apply writes_writef. }
  destruct (is_av m) eqn:Ea; cbn [andb].
  2: { do 3 apply writes_skip. apply writes_last, Hl. }
  rewrite !text_of_app. apply writes_bind.
  { change (text_of [?a; ?b]) with ((a ++ CRLF) ++ (b ++ CRLF) ++ []). rewrite app_nil_r.
    apply writes_bind; apply writes_writef. }
  apply writes_bind. { destruct (bool_decide _); [apply Hr, Hl|apply writes_ret]. }
  apply writes_bind; [apply writes_extmaps|].
  apply writes_skip. destruct (negb _); [|apply writes_ret].
  cbn [text_of flat_map]. rewrite app_nil_r, <-!app_assoc. apply writes_writef.
Qed.

Definition cand_lines (cs : list rtc_ice_candidate_t) : list bytes :=
  flat_map (fun c => match rtc_ice_candidate_to_string c 256 with Ok t => [str "a=" ++ t] | _ => [] end) cs.

Lemma to_string_no_fault c len : no_fault (rtc_ice_candidate_to_string c len).
Proof.
  assert (forall a, no_fault (rtc_addr_to_string a 64)) as Ha.
  { intros []; cbn; try done; by destruct (_ <? _). }
  apply no_fault_bind; [done|]. intros [ip port] _. apply no_fault_bind; [apply no_fault_fail_if|]. intros _ _.
  destruct (has_related_addr c); [|done]. apply no_fault_bind; [done|]. intros [rip rport] _.
  apply no_fault_bind; [apply no_fault_fail_if|done].
Qed.

Lemma writes_candidates cs : forall pre d,
  Vec.vec_repr (candidates d) (pre ++ cs) ->
  writes (st_each write_candidate (Z.of_nat <$> seq (length pre) (length cs))) d (text_of (cand_lines cs)).
Proof.
  induction cs as [|c cs IH]; intros pre d Hv; [apply writes_ret|].
  cbn [length seq fmap list_fmap st_each]. unfold cand_lines. cbn [flat_map]. rewrite text_of_app.
  apply writes_bind.
  - unfold write_candidate. apply writes_get.
    assert (Vec.rtc_vec_at (candidates d) (Z.of_nat (length pre)) = Ok (Some (Some c))) as E.
    { rewrite (Vec.at_spec _ _ _ Hv (Nat2Z.is_nonneg _)).
      by rewrite Nat2Z.id, lookup_app_r, Nat.sub_diag by lia. }
    unfold writes. rewrite (st_bind_lift _ _ _ _ E).
    destruct (rtc_ice_candidate_to_string c 256) as [t|e|] eqn:Et; cbn [attempt].
    + rewrite st_bind_eq. cbn [lift]. cbn [text_of flat_map]. rewrite app_nil_r, <-app_assoc. apply writes_writef.
    + rewrite st_bind_eq. cbn [lift]. apply writes_ret.
    + by destruct (to_string_no_fault c 256).
  - specialize (IH (pre ++ [c])). rewrite length_app, Nat.add_1_r in IH. apply IH.
    cbn. by rewrite <-app_assoc.
Qed.

(** the text of a generated description *)
Definition sdp_lines (d : rtc_sdp_t) (cs : list rtc_ice_candidate_t) (sid : bytes) (ms : list rtc_sdp_media_t)
    : list bytes :=
  header_lines sid ms ++ flat_map (section_lines d) ms ++ cand_lines cs.

Definition session_of (now : Z) (d : rtc_sdp_t) : bytes :=
  if bool_decide (session_id d = []) then (snprintf 32 (dec now)).1 else session_id d.

Lemma text_of_flat_map {A} (f : A -> list bytes) l : text_of (flat_map f l) = flat_map (fun a => text_of (f a)) l.
Proof. induction l as [|a l IH]; [done|]. cbn [flat_map]. by rewrite text_of_app, IH. Qed.

Lemma writes_session sid d : writes (write_session sid) d (text_of (take 4 (header_lines sid []))).
Proof.
  unfold header_lines. cbn [take]. rewrite !text_of_cons. cbn [text_of flat_map]. rewrite app_nil_r.
  do 3 (apply writes_bind; [rewrite <-?app_assoc; apply writes_writef|]). apply writes_writef.
Qed.

Lemma writes_bundle ms d : writes (write_bundle ms) d (text_of (drop 4 (header_lines [] ms))).
Proof.
  unfold header_lines. cbn [drop]. rewrite !text_of_cons. cbn [text_of flat_map]. rewrite app_nil_r, <-!app_assoc.
  apply writes_bind; [apply writes_writef|].
  apply writes_bind; [|apply writes_bind; apply writes_writef].
  apply (writes_each _ (fun m => str " " ++ sdec (mid_index m))). intros. apply writes_writef.
Qed.

Lemma writes_fits f d t :
  writes f d t -> blen (raw d) + blen t < SDP_MAX_SIZE -> f d = (wrote d t, Ok ()).
Proof.
  intros Hf Hd. pose proof (blen_nonneg t). specialize (Hf ltac:(lia)).
  by rewrite (proj2 (Z.ltb_lt _ _)) in Hf by done.
Qed.

(** a text that fits the buffer is generated *)
Lemma generate_text now d cs ms :
  Vec.vec_repr (candidates d) cs -> effective_media d = Ok ms ->
  let t := text_of (sdp_lines d cs (session_of now d) ms) in
  blen t < SDP_MAX_SIZE ->
  exists d', rtc_sdp_generate now d = (d', Ok ()) /\ raw d' = t /\ raw_len d' = blen t /\ candidates d' = candidates d.
Proof.
  intros Hv Hm. cbv zeta. unfold sdp_lines. rewrite !text_of_app, text_of_flat_map. intros Ht.
  set (sid := session_of now d) in *. set (h1 := text_of (take 4 (header_lines sid []))).
  set (h2 := text_of (drop 4 (header_lines [] ms))).
  assert (Eh : text_of (header_lines sid ms) = h1 ++ h2) by (unfold h1, h2; by rewrite <-text_of_app).
  set (sec := flat_map (fun m => text_of (section_lines d m)) ms) in *. set (cl := text_of (cand_lines cs)) in *.
  rewrite Eh, !blen_app in Ht. pose proof (blen_nonneg h1). pose proof (blen_nonneg h2).
  pose proof (blen_nonneg sec). pose proof (blen_nonneg cl).
  unfold rtc_sdp_generate. rewrite st_bind_eq. change (modify _ d) with (with_text d sid [] (raw_len d), Ok ()). cbv iota beta.
  set (d1 := with_text d sid [] (raw_len d)). rewrite st_bind_eq. cbn [get].
  change (session_id d1) with sid.
  rewrite (st_bind_run _ _ _ _ _ (writes_fits _ _ _ (writes_session sid d1) ltac:(cbn [raw d1 with_text]; fold h1; change (blen []) with 0; lia))).
  assert (effective_media d1 = Ok ms) as Hm1 by done. rewrite (st_bind_lift _ _ _ _ Hm1). fold h1.
  rewrite (st_bind_run _ _ _ _ _ (writes_fits _ _ _ (writes_bundle ms (wrote d1 h1))
    ltac:(cbn [raw d1 with_text wrote]; fold h2; cbn [app]; lia))). fold h2.
  rewrite st_bind_eq. set (d2 := with_ice (wrote (wrote d1 h1) h2) (ice_ufrag d) (ice_pwd d) (fingerprint d) (setup d) true).
  change (modify _ (wrote (wrote d1 h1) h2)) with (d2, Ok ()). cbv iota beta.
  assert (Er : raw d2 = h1 ++ h2) by done.
  assert (Hs : writes (st_each sdp_write_media_section ms) d2 sec).
  { apply (writes_each _ (fun m => text_of (section_lines d m))). intros m x.
    eapply writes_eq; [apply writes_section|done]. }
  rewrite (st_bind_run _ _ _ _ _ (writes_fits _ _ _ Hs ltac:(rewrite Er, blen_app; lia))).
  replace (Z.to_nat (Vec.rtc_vec_len (candidates d1))) with (length cs)
    by (destruct Hv; unfold Vec.rtc_vec_len; cbn; rewrite vr_len; unfold blen; lia).
  pose proof (writes_candidates cs [] (wrote d2 sec) Hv) as Hc. fold cl in Hc.
  rewrite (st_bind_run _ _ _ _ _ (writes_fits _ _ _ Hc ltac:(cbn [raw wrote with_text]; rewrite blen_app, Er, blen_app; lia))).
  eexists. split; [done|]. rewrite wrote_wrote. cbn [raw raw_len wrote with_text]. rewrite Er, Eh, <-!app_assoc. done.
Qed.
End Generate.

(** ** Parsing goes line by line *)

Definition line_ok (l : bytes) : Prop := Forall (fun b => 0 < b < 256 /\ is_crlf b = false) l.

Lemma cstr_app l s : Forall (fun b => 0 < b < 256) l -> cstr (l ++ s) = l ++ cstr s.
Proof.
  induction 1 as [|b l Hb _ IH]; [done|]. cbn [app cstr]. rewrite (proj2 (Z.eqb_neq b 0)) by lia. by rewrite IH.
Qed.

Lemma cstr_CRLF s : cstr (CRLF ++ s) = CRLF ++ cstr s.
Proof. done. Qed.

Lemma line_ok_chars l : line_ok l -> Forall (fun b => 0 < b < 256) l.
Proof. intros Hl. eapply Forall_impl; [|exact Hl]. naive_solver. Qed.

Definition line_okb (l : bytes) : bool := forallb (fun b => (0 <? b) && (b <? 256) && negb (is_crlf b)) l.
Lemma line_ok_lit l : line_okb l = true -> line_ok l.
Proof.
  intros Hl. assert (forallb (fun b => (0 <? b) && (b <? 256) && negb (is_crlf b)) l) as Hf by by apply Is_true_true.
  apply forallb_True in Hf. eapply Forall_impl; [|exact Hf]. intros b Hb. cbn in Hb.
  apply Is_true_true in Hb. apply andb_true_iff in Hb as [[H1%Z.ltb_lt H2%Z.ltb_lt]%andb_true_iff H3%negb_true_iff].
  done.
Qed.

Lemma line_length_line l s n :
  line_ok l -> (length l < n)%nat -> line_length n (l ++ CRLF ++ s) = length l.
Proof.
  intros Hl. revert n. induction Hl as [|b l [_ Hb] _ IH]; intros [|n] Hn; cbn in *; try lia.
  rewrite Hb. f_equal. apply IH. lia.
Qed.

Lemma next_line_line l s : forall k,
  line_ok l -> sdp_next_line (length l + (2 + k)) (l ++ CRLF ++ s) = (k, s).
Proof.
  induction l as [|b l IH]; intros k Hl; [done|]. apply Forall_cons_1 in Hl as [[_ Hb] Hl].
  unfold is_crlf in Hb. apply orb_false_iff in Hb as [Hb _]. cbn. rewrite Hb. by apply IH.
Qed.

Lemma line_ok_app a b : line_ok a -> line_ok b -> line_ok (a ++ b).
Proof. intros. by apply Forall_app. Qed.

Lemma digits_line_ok l : Forall (fun b => is_digit b = true) l -> line_ok l.
Proof.
  intros Hl. eapply Forall_impl; [|exact Hl]. intros b Hb. cbn in Hb. unfold is_digit in Hb.
  apply andb_true_iff in Hb as [H1%Z.leb_le H2%Z.leb_le]. split; [lia|]. unfold is_crlf.
  by rewrite (proj2 (Z.eqb_neq b 10)), (proj2 (Z.eqb_neq b 13)) by lia.
Qed.

Lemma dec_line_ok n : 0 <= n -> line_ok (dec n).
Proof. intros Hn. apply digits_line_ok, dec_digits, Hn. Qed.

Lemma sdec_line_ok n : line_ok (sdec n).
Proof.
  unfold sdec. destruct (Z.ltb_spec n 0); [|by apply dec_line_ok].
  constructor; [done|]. apply dec_line_ok. lia.
Qed.

Create HintDb lines.
#[export] Hint Resolve line_ok_app dec_line_ok sdec_line_ok : lines.
#[export] Hint Extern 1 (line_ok (str _)) => by apply line_ok_lit : lines.
#[export] Hint Extern 1 (line_ok []) => by apply line_ok_lit : lines.
#[export] Hint Extern 1 (_ <= _) => lia : lines.

Section Parse.
Context `{Inet}.

Definition ok_alloc : nat -> bool := fun _ => true.

(** the lines [ls] take the parser from [p] to [p'] when [rest] follows them *)
Definition reads (ls : list bytes) (rest : bytes) (p p' : rtc_sdp_t * Z) : Prop :=
  forall fuel, (length (text_of ls ++ rest) <= fuel)%nat ->
  exists fuel', (length rest <= fuel')%nat /\
    parse_loop fuel ok_alloc (length (text_of ls ++ rest)) (text_of ls ++ rest) p =
    parse_loop fuel' ok_alloc (length rest) rest p'.

Lemma reads_nil rest p : reads [] rest p p.
Proof. intros fuel Hf. by exists fuel. Qed.

Lemma reads_app a b rest p q r :
  reads a (text_of b ++ rest) p q -> reads b rest q r -> reads (a ++ b) rest p r.
Proof.
  intros Ha Hb fuel. rewrite text_of_app, <-app_assoc. intros Hf.
  destruct (Ha fuel Hf) as (f1 & Hf1 & ->). by apply Hb.
Qed.

(** the effect of one line *)
Definition line_effect (l rest : bytes) (p p' : rtc_sdp_t * Z) : Prop :=
  forall n, (length l < n)%nat -> parse_line true (l ++ CRLF ++ rest) n p = Ok p'.

Lemma reads_line l rest p p' : line_ok l -> line_effect l rest p p' -> reads [l] rest p p'.
Proof.
  intros Hl He fuel. cbn [text_of flat_map]. rewrite app_nil_r, <-!app_assoc, !length_app. cbn [length CRLF].
  intros Hf. destruct fuel as [|fuel]; [lia|]. exists fuel. split; [lia|].
  destruct (length l + (2 + length rest))%nat as [|n] eqn:En; [lia|]. cbn [parse_loop].
  rewrite He by lia. cbn [mbind res_bind]. rewrite <-En, next_line_line by done. done.
Qed.

Lemma reads_cons l ls rest p q r :
  line_ok l -> line_effect l (text_of ls ++ rest) p q -> reads ls rest q r -> reads (l :: ls) rest p r.
Proof. intros Hl He Hr. apply (reads_app [l] ls rest p q r); [by apply reads_line|done]. Qed.

(** the parts of a line's processing *)
Lemma parse_line_parts al s n d cur p0 d1 p1 p2 p3 p4 d5 :
  parse_m s (d, cur) = Ok p0 -> parse_ice s (line_length n s) p0.1 = d1 ->
  parse_mid s (d1, p0.2) = Ok p1 -> parse_rtpmap s p1 = Ok p2 -> parse_ssrc s p2 = Ok p3 ->
  parse_extmap s p3 = Ok p4 -> parse_candidate al s p4.1 = Ok d5 ->
  parse_line al s n (d, cur) = Ok (d5, p4.2).
Proof.
  intros E0 E1 E2 E3 E4 E5 E6. unfold parse_line. rewrite E0. cbn [mbind res_bind]. rewrite E1, E2.
  cbn [mbind res_bind]. rewrite E3. cbn [mbind res_bind]. rewrite E4. cbn [mbind res_bind]. rewrite E5.
  cbn [mbind res_bind]. by rewrite E6.
Qed.

Lemma with_ice_id d : with_ice d (ice_ufrag d) (ice_pwd d) (fingerprint d) (setup d) (ice_options_trickle d) = d.
Proof. by destruct d. Qed.

Lemma cstr_line l s : line_ok l -> cstr (l ++ CRLF ++ s) = l ++ CRLF ++ cstr s.
Proof. intros Hl. by rewrite cstr_app by by apply line_ok_chars. Qed.

(** *** The effect of each kind of line *)

(** a line no part reacts to *)
Ltac neutral_line :=
  let n := fresh in let Hn := fresh in intros n Hn; rewrite <-?app_assoc;
  match goal with
  | |- parse_line _ ?s _ (?d, ?cur) = _ =>
      refine (parse_line_parts true s n d cur (d, cur) d (d, cur) (d, cur) (d, cur) (d, cur) d
                _ (with_ice_id d) _ _ _ _ _); reflexivity
  end.

(** the lines without information of a media section *)
Lemma effect_fixed rest d cur :
  line_effect (str "c=IN IP4 0.0.0.0") rest (d, cur) (d, cur) /\
  line_effect (str "a=sendrecv") rest (d, cur) (d, cur) /\
  line_effect (str "a=rtcp-mux") rest (d, cur) (d, cur) /\
  line_effect (str "a=sctp-port:5000") rest (d, cur) (d, cur).
Proof. split_and!; neutral_line. Qed.

Lemma effect_trickle rest d cur :
  line_effect (str "a=ice-options:trickle") rest (d, cur)
    (with_ice d (ice_ufrag d) (ice_pwd d) (fingerprint d) (setup d) true, cur).
Proof.
  intros n Hn. set (s := str _ ++ _). set (d' := with_ice _ _ _ _ _ _).
  refine (parse_line_parts true s n d cur (d, cur) d' (d', cur) (d', cur) (d', cur) (d', cur) d' _ _ _ _ _ _ _);
    try reflexivity.
  unfold s. rewrite line_length_line by (done || by apply line_ok_lit). reflexivity.
Qed.

(** the lines before the sections only announce trickle ICE *)
Lemma read_header sid ms rest d cur :
  line_ok sid ->
  reads (header_lines sid ms) rest (d, cur)
    (with_ice d (ice_ufrag d) (ice_pwd d) (fingerprint d) (setup d) true, cur).
Proof.
  intros Hs. assert (forall l ls p, line_ok l -> (forall r, line_effect l r (d, cur) (d, cur)) ->
    reads ls rest (d, cur) p -> reads (l :: ls) rest (d, cur) p) as Hcons.
  { intros l ls p Hl He Hr. by eapply reads_cons. }
  assert (line_ok (flat_map (fun m => str " " ++ sdec (mid_index m)) ms)).
  { induction ms as [|m ms IH]; [constructor|]. cbn [flat_map]. rewrite <-app_assoc. auto 6 with lines. }
  unfold header_lines.
  do 5 (apply Hcons; [auto 8 with lines|intros r; neutral_line|]).
  apply reads_line; [auto with lines|apply effect_trickle].
Qed.

(** credentials *)
Lemma field_value pre u rest (k : nat) cap :
  line_ok u -> k = length pre -> Z.of_nat (length u) < cap ->
  field (pre ++ u ++ CRLF ++ rest) (length (pre ++ u)) k cap = u.
Proof.
  intros Hu -> Hc. unfold field. rewrite drop_app_length, length_app.
  replace (Nat.min _ _) with (length u) by lia. rewrite take_app_length.
  rewrite <-(app_nil_r u) at 1. rewrite cstr_app by by apply line_ok_chars. cbn. by rewrite app_nil_r.
Qed.

(** a line that only [parse_ice] reacts to *)
Lemma effect_ice l rest d cur d' :
  line_ok l ->
  (forall p, parse_m (l ++ CRLF ++ rest) p = Ok p) -> (forall p, parse_mid (l ++ CRLF ++ rest) p = Ok p) ->
  (forall p, parse_rtpmap (l ++ CRLF ++ rest) p = Ok p) -> (forall p, parse_ssrc (l ++ CRLF ++ rest) p = Ok p) ->
  (forall p, parse_extmap (l ++ CRLF ++ rest) p = Ok p) ->
  (forall d, parse_candidate true (l ++ CRLF ++ rest) d = Ok d) ->
  parse_ice (l ++ CRLF ++ rest) (length l) d = d' ->
  line_effect l rest (d, cur) (d', cur).
Proof.
  intros Hl H0 H2 H3 H4 H5 H6 H1 n Hn.
  refine (parse_line_parts true _ n d cur (d, cur) d' (d', cur) (d', cur) (d', cur) (d', cur) d'
            (H0 _) _ (H2 _) (H3 _) (H4 _) (H5 _) (H6 _)).
  by rewrite line_length_line.
Qed.

Lemma starts_app pre x : starts pre (pre ++ x) = true.
Proof. induction pre as [|a pre IH]; [by destruct x|]. cbn. by rewrite Z.eqb_refl. Qed.

Lemma starts_n_app pre u x : sdp_line_starts_n (pre ++ u ++ x) (length (pre ++ u)) pre = true.
Proof. unfold sdp_line_starts_n. rewrite starts_app, bool_decide_true; [done|]. rewrite length_app. lia. Qed.

Lemma effect_ufrag u rest d cur :
  line_ok (str "a=ice-ufrag:" ++ u) -> Z.of_nat (length u) < ICE_UFRAG_LEN ->
  line_effect (str "a=ice-ufrag:" ++ u) rest (d, cur)
    (with_ice d u (ice_pwd d) (fingerprint d) (setup d) (ice_options_trickle d), cur).
Proof.
  intros Hl Hu. pose proof (proj2 (proj1 (Forall_app _ _ _) Hl)) as Hlu. apply effect_ice; try done.
  unfold parse_ice. rewrite <-(app_assoc (str "a=ice-ufrag:")), starts_n_app.
  rewrite (field_value (str "a=ice-ufrag:") u rest 12) by done. reflexivity.
Qed.

Lemma effect_pwd u rest d cur :
  line_ok (str "a=ice-pwd:" ++ u) -> Z.of_nat (length u) < ICE_PWD_LEN ->
  line_effect (str "a=ice-pwd:" ++ u) rest (d, cur)
    (with_ice d (ice_ufrag d) u (fingerprint d) (setup d) (ice_options_trickle d), cur).
Proof.
  intros Hl Hu. pose proof (proj2 (proj1 (Forall_app _ _ _) Hl)) as Hlu. apply effect_ice; try done.
  unfold parse_ice. rewrite <-(app_assoc (str "a=ice-pwd:")), starts_n_app.
  rewrite (field_value (str "a=ice-pwd:") u rest 10) by done. reflexivity.
Qed.

Lemma effect_fingerprint u rest d cur :
  line_ok (str "a=fingerprint:sha-256 " ++ u) -> Z.of_nat (length u) < 96 ->
  line_effect (str "a=fingerprint:sha-256 " ++ u) rest (d, cur)
    (with_ice d (ice_ufrag d) (ice_pwd d) u (setup d) (ice_options_trickle d), cur).
Proof.
  intros Hl Hu. pose proof (proj2 (proj1 (Forall_app _ _ _) Hl)) as Hlu. apply effect_ice; try done.
  unfold parse_ice. rewrite <-(app_assoc (str "a=fingerprint:sha-256 ")), starts_n_app.
  rewrite (field_value (str "a=fingerprint:sha-256 ") u rest 22) by done. reflexivity.
Qed.

Lemma effect_setup r rest d cur :
  line_effect (setup_line r) rest (d, cur)
    (with_ice d (ice_ufrag d) (ice_pwd d) (fingerprint d) r (ice_options_trickle d), cur).
Proof. apply effect_ice; try (by destruct r). by apply line_ok_lit; destruct r. Qed.

(** the current section is the last one *)
Definition at_last (p : rtc_sdp_t * Z) (ms : list rtc_sdp_media_t) (x : rtc_sdp_media_t) : Prop :=
  media p.1 = ms ++ [x] /\ p.2 = blen ms.

Lemma at_last_current p ms x : at_last p ms x -> has_current p = true.
Proof.
  intros [E1 E2]. unfold has_current. rewrite E1, E2, blen_app. change (blen [x]) with 1.
  pose proof (blen_nonneg ms). rewrite (proj2 (Z.leb_le _ _)), (proj2 (Z.ltb_lt _ _)) by lia. done.
Qed.

Lemma at_last_on p ms x f :
  at_last p ms x -> on_current f p = (with_sections p.1 (ms ++ [f x]), p.2).
Proof.
  intros [E1 E2]. unfold on_current. rewrite E1, E2. unfold blen. rewrite Nat2Z.id.
  by rewrite alter_app_r_alt, Nat.sub_diag by lia.
Qed.

Lemma at_last_upd p ms x f : at_last p ms x -> at_last (on_current f p) ms (f x).
Proof. intros Hp. rewrite (at_last_on _ _ _ _ Hp). destruct Hp. done. Qed.

Lemma effect_mid v rest d cur ms x :
  - 2 ^ 31 <= v < 2 ^ 31 -> line_ok (str "a=mid:" ++ sdec v) -> at_last (d, cur) ms x ->
  line_effect (str "a=mid:" ++ sdec v) rest (d, cur) (on_current (set_mid v) (d, cur)).
Proof.
  intros Hv Hl Hp n Hn. set (s := (str "a=mid:" ++ sdec v) ++ CRLF ++ rest). set (p1 := on_current _ _).
  refine (parse_line_parts true s n d cur (d, cur) d p1 p1 p1 p1 p1.1 _ (with_ice_id d) _ _ _ _ _); try reflexivity.
  unfold parse_mid. change (starts (str "a=mid:") s) with true. cbn [fst snd]. rewrite (at_last_current _ _ _ Hp). cbn [andb].
  unfold s. rewrite cstr_line by done. rewrite <-app_assoc, sscanf_lits, sscanf_int by done. done.
Qed.

Lemma effect_ssrc v rest d cur ms x :
  0 <= v < 2 ^ 32 -> line_ok (str "a=ssrc:" ++ dec v ++ str " cname:mrtc") -> at_last (d, cur) ms x ->
  line_effect (str "a=ssrc:" ++ dec v ++ str " cname:mrtc") rest (d, cur) (on_current (set_ssrc v) (d, cur)).
Proof.
  intros Hv Hl Hp n Hn. set (s := (str "a=ssrc:" ++ dec v ++ str " cname:mrtc") ++ CRLF ++ rest).
  set (p1 := on_current _ _).
  refine (parse_line_parts true s n d cur (d, cur) d (d, cur) (d, cur) p1 p1 p1.1 _ (with_ice_id d) _ _ _ _ _);
    try reflexivity.
  unfold parse_ssrc. change (starts (str "a=ssrc:") s) with true. rewrite (at_last_current _ _ _ Hp). cbn [andb].
  unfold s. rewrite cstr_line by done. rewrite <-!app_assoc, sscanf_lits, sscanf_uint by (done || lia).
  cbn [sscanf mbind res_bind]. unfold u32. by rewrite Z.mod_small.
Qed.

Lemma effect_extmap i u rest d cur ms x :
  1 <= i <= 14 -> word u -> (length u <= 95)%nat -> line_ok (str "a=extmap:" ++ dec i ++ str " " ++ u) ->
  at_last (d, cur) ms x ->
  line_effect (str "a=extmap:" ++ dec i ++ str " " ++ u) rest (d, cur)
    (on_current (push_extmap (Extmap i u)) (d, cur)).
Proof.
  intros Hi Hw Hu Hl Hp n Hn. set (s := (str "a=extmap:" ++ dec i ++ str " " ++ u) ++ CRLF ++ rest).
  set (p1 := on_current _ _).
  refine (parse_line_parts true s n d cur (d, cur) d (d, cur) (d, cur) (d, cur) p1 p1.1 _ (with_ice_id d) _ _ _ _ _);
    try reflexivity.
  assert (sscanf (lits (str "a=extmap:") ++ [Int 32 true; Ws; Str 95]) (cstr s) = Ok [VInt i; VStr u]) as Es.
  { unfold s. rewrite cstr_line by done. rewrite <-!app_assoc, sscanf_lits, sscanf_int_dec by (done || lia).
    change (str " " ++ ?y) with (32 :: y). rewrite sscanf_ws by by apply word_stops. by rewrite sscanf_str. }
  unfold parse_extmap. change (starts (str "a=extmap:") s) with true. rewrite (at_last_current _ _ _ Hp), Es.
  cbn [andb mbind res_bind].
  rewrite (proj2 (Z.leb_le 1 i)), (proj2 (Z.leb_le i 14)) by lia. cbn [andb].
  unfold u8. by rewrite Z.mod_small by lia.
Qed.

(** An [a=extmap] line with a direction: the space of the first format matches
    nothing, so the word read as the URI is the direction. *)
Lemma extmap_direction_misread i dir u rest d cur ms x :
  1 <= i <= 14 -> word (47 :: dir) -> (length dir < 95)%nat ->
  line_ok (str "a=extmap:" ++ dec i ++ 47 :: dir ++ 32 :: u) -> at_last (d, cur) ms x ->
  parse_extmap ((str "a=extmap:" ++ dec i ++ 47 :: dir ++ 32 :: u) ++ CRLF ++ rest) (d, cur) =
    Ok (on_current (push_extmap (Extmap i (47 :: dir))) (d, cur)).
Proof.
  intros Hi Hw Hlen Hl Hp. set (s := (_ ++ _) ++ CRLF ++ rest).
  assert (sscanf (lits (str "a=extmap:") ++ [Int 32 true; Ws; Str 95]) (cstr s) = Ok [VInt i; VStr (47 :: dir)]) as Es.
  { unfold s. rewrite cstr_line by done. rewrite <-!app_assoc, sscanf_lits, sscanf_int_dec by (done || lia).
    cbn [app]. rewrite <-(app_assoc dir). change (47 :: dir ++ ?y) with ((47 :: dir) ++ y).
    change (sscanf [Ws; Str 95] ?y) with (sscanf [Str 95] (skip_ws y)). rewrite skip_ws_id by done.
    rewrite sscanf_str by (done || cbn; lia). done. }
  unfold parse_extmap. change (starts (str "a=extmap:") s) with true. rewrite (at_last_current _ _ _ Hp), Es.
  cbn [andb mbind res_bind]. rewrite (proj2 (Z.leb_le 1 i)), (proj2 (Z.leb_le i 14)) by lia. cbn [andb].
  unfold u8. by rewrite Z.mod_small by lia.
Qed.

(** Credentials longer than the fields are cut without an error. *)
Lemma long_pwd_cut u rest d :
  line_ok u -> ICE_PWD_LEN <= Z.of_nat (length u) ->
  ice_pwd (parse_ice ((str "a=ice-pwd:" ++ u) ++ CRLF ++ rest) (length (str "a=ice-pwd:" ++ u)) d) = take 23 u.
Proof.
  intros Hu Hl. unfold parse_ice. cbn [ice_pwd with_ice]. rewrite <-(app_assoc (str "a=ice-pwd:")), starts_n_app.
  unfold field. change 10%nat with (length (str "a=ice-pwd:")) at 1 2. rewrite drop_app_length, length_app.
  unfold ICE_PWD_LEN in *. replace (Nat.min _ _) with 23%nat by (cbn; lia).
  rewrite take_app_le by lia. rewrite <-(app_nil_r (take 23 u)) at 1.
  rewrite cstr_app; [by rewrite app_nil_r|]. by apply Forall_take, line_ok_chars.
Qed.

(** the description with other legacy fields *)
Definition ice_of (d : rtc_sdp_t) : bytes * bytes * bytes * rtc_setup_role_t * bool :=
  (ice_ufrag d, ice_pwd d, fingerprint d, setup d, ice_options_trickle d).

Definition codec_ok (c : bytes) : Prop :=
  word c /\ Forall (fun b => b <> 47) c /\ (length c <= 31)%nat.

(** the channels a section line carries *)
Definition line_channels (m : rtc_sdp_media_t) : Z :=
  match m_type m with RTC_MEDIA_AUDIO => if 0 <? m_channels m then m_channels m else 0 | _ => 0 end.

Lemma rtpmap_scan m rest :
  - 2 ^ 31 <= m_payload_type m < 2 ^ 31 -> - 2 ^ 31 <= m_clockrate m < 2 ^ 31 -> m_channels m < 2 ^ 31 ->
  codec_ok (m_codec_name m) ->
  exists more,
    sscanf (lits (str "a=rtpmap:") ++ [Int 32 true; Ws; Set_ 31 47; Lit 47; Int 32 true; Lit 47; Int 32 true])
      (rtpmap_line m ++ CRLF ++ rest) =
    Ok (VInt (m_payload_type m) :: VStr (m_codec_name m) :: VInt (m_clockrate m) :: more) /\
    match more with [VInt ch] => ch | _ => 0 end = line_channels m.
Proof.
  intros Hpt Hr Hch (Hw & Hs & Hlen). unfold rtpmap_line, line_channels. rewrite <-!app_assoc, sscanf_lits.
  eval_str. cbn [app].
  rewrite sscanf_int by done. rewrite sscanf_ws by by apply word_stops.
  rewrite sscanf_set by (done || by destruct Hw). rewrite sscanf_lit.
  assert (Hnone : forall r, sscanf [Lit 47; Int 32 true] (CRLF ++ r) = Ok []) by done.
  destruct (m_type m); [destruct (Z.ltb_spec 0 (m_channels m))|..]; cbn [app].
  2-4: rewrite sscanf_int by done; rewrite Hnone; exists []; done.
  rewrite sscanf_int by done. rewrite sscanf_lit.
  rewrite sscanf_int by (done || lia). exists [VInt (m_channels m)]. done.
Qed.

(** only the media sections and the legacy fields differ *)
Definition same (d d' : rtc_sdp_t) : Prop := ice_of d' = ice_of d /\ candidates d' = candidates d.

Lemma same_trans d1 d2 d3 : same d1 d2 -> same d2 d3 -> same d1 d3.
Proof. intros [? ?] [? ?]. split; congruence. Qed.

Lemma same_on f p : same p.1 (on_current f p).1.
Proof. done. Qed.

Lemma effect_rtpmap m rest d cur ms x :
  - 2 ^ 31 <= m_payload_type m < 2 ^ 31 -> - 2 ^ 31 <= m_clockrate m < 2 ^ 31 -> m_channels m < 2 ^ 31 ->
  codec_ok (m_codec_name m) -> line_ok (rtpmap_line m) -> at_last (d, cur) ms x ->
  exists d', line_effect (rtpmap_line m) rest (d, cur) (d', cur) /\ same d d' /\
    at_last (d', cur) ms (set_codec (m_payload_type m) (m_clockrate m) (line_channels m) (m_codec_name m) x).
Proof.
  intros Hpt Hr Hch Hc Hl Hp.
  set (d1 := with_legacy d (media_type d) (m_payload_type m) (m_clockrate m) (line_channels m) (m_codec_name m)).
  set (p1 := on_current (set_codec (m_payload_type m) (m_clockrate m) (line_channels m) (m_codec_name m)) (d1, cur)).
  assert (Hp1 : at_last (d1, cur) ms x) by done.
  exists p1.1. split_and!; [|done|]; [|exact (at_last_upd _ _ _ _ Hp1)].
  intros n Hn. set (s := rtpmap_line m ++ CRLF ++ rest).
  refine (parse_line_parts true s n d cur (d, cur) d (d, cur) p1 p1 p1 p1.1 _ (with_ice_id d) _ _ _ _ _);
    try reflexivity.
  unfold parse_rtpmap. change (starts (str "a=rtpmap:") s) with true. cbv iota.
  unfold s. rewrite cstr_line by done.
  destruct (rtpmap_scan m (cstr rest)) as (more & -> & Em); try done. cbn [mbind res_bind fst snd]. rewrite Em.
  fold d1. by rewrite (at_last_current _ _ _ Hp1).
Qed.

Lemma m_av_scan pre pt rest :
  - 2 ^ 31 <= pt < 2 ^ 31 ->
  sscanf (lits pre ++ [Ws; SkipInt; Ws; SkipStr; Ws; Int 32 true])
    (pre ++ str " 9 UDP/TLS/RTP/SAVPF " ++ sdec pt ++ CRLF ++ rest) = Ok [VInt pt].
Proof.
  intros Hpt. rewrite sscanf_lits.
  change (str " 9 UDP/TLS/RTP/SAVPF ") with ([32] ++ dec 9 ++ [32] ++ str "UDP/TLS/RTP/SAVPF" ++ [32]).
  rewrite <-!app_assoc. change ([32] ++ ?a ++ ?b ++ ?c) with (32 :: a ++ b ++ c).
  rewrite sscanf_ws by done. rewrite sscanf_skip_int by done.
  change ([32] ++ ?a ++ ?b ++ ?c) with (32 :: a ++ b ++ c).
  rewrite sscanf_ws by done. rewrite (sscanf_skip_str (str "UDP/TLS/RTP/SAVPF")) by (done || (split; [done|by repeat constructor])).
  change ([32] ++ ?a ++ ?b) with (32 :: a ++ b). rewrite sscanf_ws by auto with scan.
  by rewrite sscanf_int.
Qed.

Lemma effect_m m rest d cur :
  - 2 ^ 31 <= m_payload_type m < 2 ^ 31 -> line_ok (m_line m) -> blen (media d) < SDP_MAX_MEDIA ->
  exists d', line_effect (m_line m) rest (d, cur) (d', blen (media d)) /\ same d d' /\
    at_last (d', blen (media d)) (media d)
      (media_zero (m_type m) (if is_av m then m_payload_type m else 0) (blen (media d))).
Proof.
  intros Hpt Hl Hroom.
  set (pt := if is_av m then m_payload_type m else payload_type d).
  set (d1 := with_legacy d (m_type m) pt (clockrate d) (channels d) (codec_name d)).
  set (x := media_zero (m_type m) (if is_av m then m_payload_type m else 0) (blen (media d))).
  set (p0 := (with_sections d1 (media d ++ [x]), blen (media d))).
  exists p0.1. split_and!; [|done|done].
  intros n Hn. set (s := m_line m ++ CRLF ++ rest).
  assert (E0 : parse_m s (d, cur) = Ok p0).
  { unfold parse_m, s. unfold p0, x, d1, pt, is_av. unfold m_line. unfold m_line in Hl.
    assert (Hadd : forall ty p d, blen (media d) < SDP_MAX_MEDIA -> add_section ty p (d, cur) =
      (with_sections d (media d ++ [media_zero ty p (blen (media d))]), blen (media d))).
    { intros ty p d0 Hd. unfold add_section. cbn [fst]. by rewrite (proj2 (Z.ltb_lt _ _)). }
    destruct (m_type m).
    - change (starts (str "m=audio") _) with true. cbv iota. unfold parse_m_av. rewrite cstr_line by done.
      change (str "m=audio 9 UDP/TLS/RTP/SAVPF ") with (str "m=audio" ++ str " 9 UDP/TLS/RTP/SAVPF ").
      rewrite <-!app_assoc, m_av_scan by done.
      cbn [sscanf mbind res_bind fst snd]. by rewrite Hadd.
    - change (starts (str "m=audio") _) with false. change (starts (str "m=video") _) with true. cbv iota.
      unfold parse_m_av. rewrite cstr_line by done.
      change (str "m=video 9 UDP/TLS/RTP/SAVPF ") with (str "m=video" ++ str " 9 UDP/TLS/RTP/SAVPF ").
      rewrite <-!app_assoc, m_av_scan by done.
      cbn [sscanf mbind res_bind fst snd]. by rewrite Hadd.
    - change (starts (str "m=audio") _) with false. change (starts (str "m=video") _) with false.
      change (starts (str "m=application") _) with true. cbv iota zeta. cbn [fst snd]. by rewrite Hadd. }
  refine (parse_line_parts true s n d cur p0 p0.1 p0 p0 p0 p0 p0.1 E0 _ _ _ _ _ _);
    [|unfold s, m_line; by destruct (m_type m)..].
  unfold s, m_line. by destruct (m_type m); apply with_ice_id.
Qed.

(** *** A media section *)

Definition wf_ext (e : rtc_sdp_extmap_t) : Prop :=
  1 <= id e <= 14 /\ word (uri e) /\ line_ok (uri e) /\ (length (uri e) <= 95)%nat.

Definition int32 (v : Z) : Prop := - 2 ^ 31 <= v < 2 ^ 31.

(** the sections the text can carry: an audio or video section with its codec,
    or the data channel section *)
Record wf_av (m : rtc_sdp_media_t) : Prop := {
  wm_pt : int32 (m_payload_type m);
  wm_rate : int32 (m_clockrate m);
  wm_channels : m_channels m = line_channels m /\ m_channels m < 2 ^ 31;
  wm_codec : if bool_decide (m_codec_name m <> []) then codec_ok (m_codec_name m) /\ line_ok (m_codec_name m)
             else m_clockrate m = 0 /\ m_channels m = 0;
  wm_exts : Forall wf_ext (extmaps m);
  wm_ext_count : blen (extmaps m) <= SDP_MAX_EXTMAP;
  wm_ssrc : 0 <= ssrc m < 2 ^ 32
}.

Definition wf_media (m : rtc_sdp_media_t) : Prop :=
  int32 (mid_index m) /\
  if is_av m then wf_av m else m = media_zero RTC_MEDIA_APPLICATION 0 (mid_index m).

Lemma read_extmaps l : forall rest d cur ms x,
  Forall wf_ext l -> blen (extmaps x ++ l) <= SDP_MAX_EXTMAP -> at_last (d, cur) ms x ->
  exists d', reads (extmap_lines l) rest (d, cur) (d', cur) /\ same d d' /\
    at_last (d', cur) ms (with_extmaps x (extmaps x ++ l)).
Proof.
  induction l as [|e l IH]; intros rest d cur ms x Hl Hn Hp.
  { exists d. split_and!; [apply reads_nil|done|]. rewrite app_nil_r. by destruct x. }
  apply Forall_cons_1 in Hl as [(Hi & Hw & Hu & Hlen) Hl]. unfold extmap_lines. cbn [flat_map].
  rewrite (proj2 (Z.eqb_neq (id e) 0)), bool_decide_false by (lia || apply Hw). cbn [orb app].
  assert (line_ok (str "a=extmap:" ++ dec (id e) ++ str " " ++ uri e)) as Hok by auto 6 with lines.
  destruct e as [i u]. cbn [id uri] in *.
  set (q := on_current (push_extmap (Extmap i u)) (d, cur)).
  pose proof (at_last_upd _ _ _ (push_extmap (Extmap i u)) Hp) as Hq. fold q in Hq.
  assert (Epush : push_extmap (Extmap i u) x = with_extmaps x (extmaps x ++ [Extmap i u])).
  { unfold push_extmap, with_extmaps. rewrite blen_app, blen_cons in Hn. pose proof (blen_nonneg l).
    by rewrite (proj2 (Z.ltb_lt _ _)) by lia. }
  rewrite Epush in Hq.
  destruct (IH rest q.1 cur ms (with_extmaps x (extmaps x ++ [Extmap i u])) Hl) as (d' & Hr & Hs & Hp').
  { cbn. by rewrite <-app_assoc. }
  { exact Hq. }
  exists d'. split_and!.
  - eapply reads_cons; [done| |exact Hr]. by eapply effect_extmap.
  - by eapply same_trans; [|exact Hs].
  - destruct Hp' as [E1 E2]. split; [|done]. rewrite E1. unfold with_extmaps. cbn. by rewrite <-app_assoc.
Qed.

(** the credentials fit the fields of the description *)
Record wf_creds (d : rtc_sdp_t) : Prop := {
  wc_ufrag : line_ok (ice_ufrag d) /\ Z.of_nat (length (ice_ufrag d)) < ICE_UFRAG_LEN;
  wc_pwd : line_ok (ice_pwd d) /\ Z.of_nat (length (ice_pwd d)) < ICE_PWD_LEN;
  wc_fingerprint : line_ok (fingerprint d) /\ Z.of_nat (length (fingerprint d)) < 96
}.

(** the credentials of [d0], and whether trickle was seen *)
Definition creds_of (d0 : rtc_sdp_t) (trickle : bool) : bytes * bytes * bytes * rtc_setup_role_t * bool :=
  (ice_ufrag d0, ice_pwd d0, fingerprint d0, setup d0, trickle).

(** the first seven lines of a section *)
Lemma read_section_head d0 m rest d cur :
  wf_creds d0 -> int32 (mid_index m) -> int32 (m_payload_type m) -> blen (media d) < SDP_MAX_MEDIA ->
  exists d', reads (take 7 (section_lines d0 m)) rest (d, cur) (d', blen (media d)) /\
    ice_of d' = creds_of d0 (ice_options_trickle d) /\ candidates d' = candidates d /\
    at_last (d', blen (media d)) (media d)
      (set_mid (mid_index m) (media_zero (m_type m) (if is_av m then m_payload_type m else 0) (blen (media d)))).
Proof.
  intros [[Hu Hul] [Hp Hpl] [Hf Hfl]] Hmid Hpt Hroom. unfold section_lines. cbn [app take].
  destruct (effect_m m (text_of (take 6 (tail (section_lines d0 m))) ++ rest) d cur) as (d1 & He & [Hi Hc] & Hl); [done| |done|].
  { unfold m_line. destruct (m_type m); auto with lines. }
  set (n := blen (media d)) in *. set (x := media_zero _ _ _) in *.
  pose proof (at_last_upd _ _ _ (set_mid (mid_index m)) Hl) as Hl2.
  set (d2 := (on_current (set_mid (mid_index m)) (d1, n)).1) in Hl2.
  set (d3 := with_ice d2 (ice_ufrag d0) (ice_pwd d0) (fingerprint d0) (setup d0) (ice_options_trickle d2)).
  assert (ice_options_trickle d1 = ice_options_trickle d) as Ht by (unfold ice_of in Hi; congruence).
  exists d3. split_and!; [|unfold creds_of; cbn; by rewrite <-Ht|done|exact Hl2].
  eapply reads_cons; [unfold m_line; destruct (m_type m); auto with lines|exact He|].
  eapply reads_cons; [auto with lines| |].
  { pose proof (effect_fixed (text_of (take 5 (drop 2 (section_lines d0 m))) ++ rest) d1 n) as Hfix.
    exact (proj1 Hfix). }
  eapply reads_cons; [auto with lines|eapply effect_mid; [done|auto with lines|exact Hl]|].
  change (on_current (set_mid (mid_index m)) (d1, n)) with (d2, n).
  eapply reads_cons; [auto with lines|by apply effect_ufrag; [auto with lines|]|].
  eapply reads_cons; [auto with lines|by apply effect_pwd; [auto with lines|]|].
  eapply reads_cons; [auto with lines|by apply effect_fingerprint; [auto with lines|]|].
  eapply reads_cons; [by apply line_ok_lit; destruct (setup d0)|apply effect_setup|]. apply reads_nil.
Qed.

(** one section *)
Lemma read_section d0 m rest d cur :
  wf_creds d0 -> wf_media m -> blen (media d) < SDP_MAX_MEDIA ->
  exists d' cur', reads (section_lines d0 m) rest (d, cur) (d', cur') /\
    ice_of d' = creds_of d0 (ice_options_trickle d) /\ candidates d' = candidates d /\ media d' = media d ++ [m].
Proof.
  intros Hcr [Hmid Hm] Hroom. rewrite <-(take_drop 7 (section_lines d0 m)).
  assert (int32 (m_payload_type m)) as Hpt by (destruct (is_av m); [apply Hm|by rewrite Hm]).
  destruct (read_section_head d0 m (text_of (drop 7 (section_lines d0 m)) ++ rest) d cur Hcr Hmid Hpt Hroom)
    as (d1 & Hr1 & Hi1 & Hc1 & Hl1).
  set (n := blen (media d)) in *. unfold section_lines at 2. cbn [app drop].
  enough (exists d', reads (drop 7 (section_lines d0 m)) rest (d1, n) (d', n) /\ same d1 d' /\
    at_last (d', n) (media d) m) as (d' & Hr2 & [Hi2 Hc2] & [Hm2 _]).
  { exists d', n. split_and!; [by eapply reads_app|congruence|congruence|exact Hm2]. }
  unfold section_lines. cbn [app drop]. destruct (is_av m) eqn:Eav.
  2: { exists d1. split_and!; [|done|by rewrite Hm in Hl1 |- *].
       apply reads_line; [auto with lines|]. apply (effect_fixed rest d1 n). }
  pose proof Hm as [_ Hrate [Hch Hch2] Hcodec Hexts Hcount Hssrc].
  set (tl3 := if negb (ssrc m =? 0) then [str "a=ssrc:" ++ dec (ssrc m) ++ str " cname:mrtc"] else []).
  set (tl2 := extmap_lines (extmaps m) ++ tl3).
  set (tl1 := (if bool_decide (m_codec_name m <> []) then [rtpmap_line m] else []) ++ tl2).
  (* the codec *)
  assert (exists d2, reads (if bool_decide (m_codec_name m <> []) then [rtpmap_line m] else [])
            (text_of tl2 ++ rest) (d1, n) (d2, n) /\ same d1 d2 /\
          at_last (d2, n) (media d) (MediaSection (m_type m) (m_payload_type m) (m_clockrate m) (m_channels m)
            (m_codec_name m) (mid_index m) 0 [])) as (d2 & Hr2 & Hs2 & Hl2).
  { case_bool_decide as Ec.
    - destruct Hcodec as [Hco Hcl]. assert (line_ok (rtpmap_line m)) as Hok.
      { unfold rtpmap_line. destruct (m_type m); [destruct (0 <? m_channels m)|..]; auto 12 with lines. }
      destruct (effect_rtpmap m (text_of tl2 ++ rest) d1 n _ _ Hpt Hrate Hch2 Hco Hok Hl1) as (d2 & He & Hs & Hl).
      exists d2. split_and!; [by apply reads_line|done|]. rewrite <-Hch in Hl. exact Hl.
    - exists d1. split_and!; [apply reads_nil|done|]. destruct Hcodec as [E1 E2]. rewrite E1, E2, Ec.
      exact Hl1. }
  (* the header extensions *)
  destruct (read_extmaps (extmaps m) (text_of tl3 ++ rest) d2 n (media d)
    (MediaSection (m_type m) (m_payload_type m) (m_clockrate m) (m_channels m) (m_codec_name m) (mid_index m) 0 [])
    Hexts) as (d3 & Hr3 & Hs3 & Hl3); [done|done|]. cbn [with_extmaps m_type] in Hl3.
  (* the source *)
  assert (exists d4, reads tl3 rest (d3, n) (d4, n) /\ same d3 d4 /\ at_last (d4, n) (media d) m)
    as (d4 & Hr4 & Hs4 & Hl4).
  { unfold tl3. destruct (Z.eqb_spec (ssrc m) 0) as [E|E]; cbn [negb].
    - exists d3. split_and!; [apply reads_nil|done|]. destruct m; cbn in *. by subst.
    - eexists. split_and!.
      + apply reads_line; [auto 6 with lines|]. eapply effect_ssrc; [done|auto 6 with lines|exact Hl3].
      + apply (same_on _ (d3, n)).
      + pose proof (at_last_upd _ _ _ (set_ssrc (ssrc m)) Hl3) as Hl4. destruct m; exact Hl4. }
  exists d4. split_and!; [|by repeat (eapply same_trans; [eassumption|])|done].
  pose proof (effect_fixed (text_of tl1 ++ rest) d1 n) as Hf1.
  pose proof (effect_fixed (text_of (str "a=rtcp-mux" :: tl1) ++ rest) d1 n) as Hf2.
  eapply reads_cons; [auto with lines|apply Hf2|]. eapply reads_cons; [auto with lines|apply Hf1|].
  eapply reads_app; [exact Hr2|]. by eapply reads_app.
Qed.

Lemma read_sections d0 ms : forall rest d cur,
  wf_creds d0 -> Forall wf_media ms -> blen (media d ++ ms) <= SDP_MAX_MEDIA ->
  exists d' cur', reads (flat_map (section_lines d0) ms) rest (d, cur) (d', cur') /\
    media d' = media d ++ ms /\ candidates d' = candidates d /\
    ice_of d' = match ms with [] => ice_of d | _ => creds_of d0 (ice_options_trickle d) end.
Proof.
  induction ms as [|m ms IH]; intros rest d cur Hcr Hms Hn.
  { exists d, cur. rewrite app_nil_r. split_and!; [apply reads_nil|done..]. }
  apply Forall_cons_1 in Hms as [Hm Hms]. rewrite blen_app, blen_cons in Hn. pose proof (blen_nonneg ms).
  destruct (read_section d0 m (text_of (flat_map (section_lines d0) ms) ++ rest) d cur) as
    (d1 & cur1 & Hr1 & Hi1 & Hc1 & Hm1); [done|done|lia|].
  destruct (IH rest d1 cur1 Hcr Hms) as (d2 & cur2 & Hr2 & Hm2 & Hc2 & Hi2).
  { rewrite Hm1, <-app_assoc, blen_app. cbn [app]. rewrite blen_cons. lia. }
  exists d2, cur2. split_and!; [by eapply reads_app| |congruence|].
  - rewrite Hm2, Hm1, <-app_assoc. done.
  - rewrite Hi2. unfold ice_of, creds_of in *. destruct ms; [done|]. congruence.
Qed.
End Parse.

(** *** The candidates *)

(** a candidate without related address takes the next one in the text *)
Fixpoint next_related (cs : list rtc_ice_candidate_t) : option rtc_addr_t :=
  match cs with
  | [] => None
  | c :: cs => if has_related_addr c then Some (related_addr c) else next_related cs
  end.
Definition inherit_one (c : rtc_ice_candidate_t) (cs : list rtc_ice_candidate_t) : rtc_ice_candidate_t :=
  if has_related_addr c then c
  else match next_related cs with Some a => with_related c a | None => c end.
Fixpoint inherit (cs : list rtc_ice_candidate_t) : list rtc_ice_candidate_t :=
  match cs with
  | [] => []
  | c :: cs => inherit_one c cs :: inherit cs
  end.

Section Candidates.
Context `{InetLaws}.

(** a well-formed candidate has a text form *)
Lemma candidate_text c :
  wf_candidate c -> exists ip port r, rtc_ice_candidate_to_string c 256 =
    Ok (str "candidate:" ++ base_text c ip port ++ r) /\
    word ip /\ Forall inet_char ip /\ 0 < port /\
    (if has_related_addr c then
       exists rip rport, r = related_text rip rport /\ word rip /\ (length rip <= 63)%nat /\ Forall inet_char rip /\
         0 < rport < 2 ^ 16 /\ rtc_addr_from_string rip rport = Ok (related_addr c)
     else r = []).
Proof.
  intros Hc. pose proof Hc as [].
  destruct (usable_text _ wf_addr0) as (ip & port & Ea & _ & Hp & Hl & Hw & Hic).
  assert (Hb : blen (str "candidate:" ++ base_text c ip port) <= 170).
  { unfold base_text, blen. rewrite !length_app.
    pose proof (dec_length 10 (component c) ltac:(cbn; lia) ltac:(lia)).
    pose proof (dec_length 10 (priority c) ltac:(cbn; lia) ltac:(lia)).
    pose proof (dec_length 5 port ltac:(cbn; lia) ltac:(lia)).
    unfold sdec. rewrite (proj2 (Z.ltb_ge _ _)) by lia.
    destruct (type_str_word (type c)) as [_ ?]. cbn [length str]. 
    change (length (str "candidate:")) with 10%nat. change (length (str " ")) with 1%nat.
    change (length (str " udp ")) with 5%nat. change (length (str " typ ")) with 5%nat. lia. }
  unfold rtc_ice_candidate_to_string. rewrite Ea. cbn [mbind res_bind].
  fold (base_text c ip port). cbv zeta. rewrite (proj2 (Z.leb_gt 256 _)) by lia. cbn [fail_if].
  destruct (has_related_addr c).
  - destruct (usable_text _ wf_related0) as (rip & rport & Er & Ef & Hpr & Hlr & Hwr & Hicr).
    rewrite Er. cbn [mbind res_bind]. fold (related_text rip rport).
    assert (blen (related_text rip rport) <= 85).
    { unfold related_text, blen. rewrite !length_app. pose proof (dec_length 5 rport ltac:(cbn; lia) ltac:(lia)).
      change (length (str " raddr ")) with 7%nat. change (length (str " rport ")) with 7%nat. lia. }
    rewrite (proj2 (Z.leb_gt _ _)) by lia. cbn [fail_if mbind res_bind].
    exists ip, port, (related_text rip rport). rewrite <-app_assoc. split_and!; [done|done|done|lia|].
    exists rip, rport. done.
  - exists ip, port, []. rewrite app_nil_r. split_and!; [done|done|done|lia|done].
Qed.

(** the related address found after a line end *)
Lemma related_of_rest cs : forall c, Forall wf_candidate cs ->
  parse_related (CRLF ++ text_of (cand_lines cs)) c =
    Ok (match next_related cs with Some a => with_related c a | None => c end).
Proof.
  induction cs as [|c' cs IH]; intros c Hcs; [done|]. apply Forall_cons_1 in Hcs as [Hc' Hcs].
  destruct (candidate_text c' Hc') as (ip & port & r & Et & Hw & Hic & Hp & Hr).
  unfold cand_lines. cbn [flat_map]. rewrite Et. cbn [app]. rewrite text_of_cons, <-!app_assoc.
  change (CRLF ++ str "a=" ++ str "candidate:" ++ ?y) with ((CRLF ++ str "a=candidate:") ++ y).
  rewrite parse_related_skip.
  2: { eval_str. apply strstr_skip. repeat constructor; done. }
  rewrite parse_related_skip by by apply strstr_base. cbn [next_related].
  destruct (has_related_addr c').
  - destruct Hr as (rip & rport & -> & ? & ? & ? & ? & ?). by apply parse_related_text.
  - subst r. cbn [app]. by apply IH.
Qed.

Lemma word_line_ok w : word w -> Forall (fun b => 0 < b < 256) w -> line_ok w.
Proof.
  intros [_ Hw] Hc. apply Forall_forall. intros b Hb. rewrite Forall_forall in Hw, Hc. split; [by apply Hc|].
  specialize (Hw b Hb). cbn in Hw. unfold isspace in Hw. unfold is_crlf.
  destruct (Z.eqb_spec b 10) as [->|]; [done|]. by destruct (Z.eqb_spec b 13) as [->|].
Qed.

Lemma inet_line_ok t : word t -> Forall inet_char t -> line_ok t.
Proof.
  intros Hw Hc. apply word_line_ok; [done|]. eapply Forall_impl; [|exact Hc]. intros b Hb. cbn in Hb.
  destruct Hb as [Hb|[->|[->|Hb]]]; [|lia..]. unfold is_digit in Hb.
  apply andb_true_iff in Hb as [H1%Z.leb_le H2%Z.leb_le]. lia.
Qed.

(** the candidate lines have no line end inside *)
Lemma cand_lines_ok cs : Forall wf_candidate cs -> Forall line_ok (cand_lines cs).
Proof.
  induction 1 as [|c cs Hc _ IH]; [constructor|]. unfold cand_lines. cbn [flat_map].
  destruct (candidate_text c Hc) as (ip & port & r & -> & Hw & Hic & Hp & Hr). cbn [app].
  constructor; [|done]. pose proof Hc as [].
  assert (line_ok r) as Hrok.
  { destruct (has_related_addr c); [|subst; constructor].
    destruct Hr as (rip & rport & -> & ? & ? & ? & ? & ?). unfold related_text.
    pose proof (inet_line_ok rip). auto 8 with lines. }
  pose proof (inet_line_ok ip Hw Hic). pose proof (word_line_ok (foundation c) wf_foundation0 wf_foundation_chars0).
  assert (line_ok (type_str (type c))) by (apply line_ok_lit; by destruct (type c)).
  unfold base_text. rewrite <-!app_assoc. auto 20 with lines.
Qed.

Lemma cstr_text ls : Forall line_ok ls -> cstr (text_of ls) = text_of ls.
Proof.
  induction 1 as [|l ls Hl _ IH]; [done|]. rewrite text_of_cons, <-app_assoc, cstr_line by done. by rewrite IH.
Qed.

(** the effect of a candidate line on the vector *)
Lemma effect_candidate c cs d cur l :
  wf_candidate c -> Forall wf_candidate cs -> Vec.vec_repr (candidates d) l ->
  Vec.elem_size (candidates d) <= 2 ^ 16 -> blen l < 2 ^ 20 ->
  exists t v, cand_lines (c :: cs) = (str "a=" ++ t) :: cand_lines cs /\
    line_effect (str "a=" ++ t) (text_of (cand_lines cs)) (d, cur) (with_candidates d v, cur) /\
    Vec.vec_repr v (l ++ [inherit_one c cs]) /\ Vec.elem_size v = Vec.elem_size (candidates d).
Proof.
  intros Hc Hcs Hv He Hl.
  destruct (Vec.push_small (candidates d) l (inherit_one c cs) Hv He Hl) as (v & Ev & Hv' & He').
  pose proof (cand_lines_ok (c :: cs) (Forall_cons _ _ _ Hc Hcs)) as Hok. unfold cand_lines in Hok. cbn [flat_map] in Hok.
  destruct (candidate_text c Hc) as (ip & port & r & Et & _). rewrite Et in Hok.
  set (t := str "candidate:" ++ base_text c ip port ++ r) in *.
  exists t, v. unfold cand_lines. cbn [flat_map]. rewrite Et. split_and!; [done| |done|done].
  cbn [app] in Hok. apply Forall_cons_1 in Hok as [Hlok Hok]. intros n Hn.
  fold (cand_lines cs). set (s := (str "a=" ++ t) ++ CRLF ++ text_of (cand_lines cs)).
  refine (parse_line_parts true s n d cur (d, cur) d (d, cur) (d, cur) (d, cur) (d, cur) (with_candidates d v)
            _ (with_ice_id d) _ _ _ _ _); try reflexivity.
  unfold parse_candidate. change (starts (str "a=candidate:") s) with true. cbv iota.
  unfold s. rewrite cstr_line by done. rewrite cstr_text by by apply cand_lines_ok. rewrite <-app_assoc.
  rewrite (parse_candidate_text c 256 t) by done. cbn [fst].
  assert ((if has_related_addr c then Ok c else parse_related (CRLF ++ text_of (cand_lines cs)) c) =
    Ok (inherit_one c cs)) as ->.
  { unfold inherit_one. destruct (has_related_addr c); [done|]. by apply related_of_rest. }
  cbn [attempt mbind res_bind]. by rewrite Ev.
Qed.

Lemma read_candidates cs : forall d cur l,
  Forall wf_candidate cs -> Vec.vec_repr (candidates d) l -> Vec.elem_size (candidates d) <= 2 ^ 16 ->
  blen (l ++ cs) <= 2 ^ 20 ->
  exists d', reads (cand_lines cs) [] (d, cur) (d', cur) /\ media d' = media d /\ ice_of d' = ice_of d /\
    Vec.vec_repr (candidates d') (l ++ inherit cs).
Proof.
  induction cs as [|c cs IH]; intros d cur l Hcs Hv He Hn.
  { exists d. rewrite app_nil_r. split_and!; [apply reads_nil|done..]. }
  apply Forall_cons_1 in Hcs as [Hc Hcs]. rewrite blen_app, blen_cons in Hn. pose proof (blen_nonneg cs).
  pose proof (cand_lines_ok (c :: cs) (Forall_cons _ _ _ Hc Hcs)) as Hok.
  destruct (effect_candidate c cs d cur l Hc Hcs Hv He ltac:(lia)) as (t & v & Et & Hef & Hv' & He').
  rewrite Et in Hok |- *. apply Forall_cons_1 in Hok as [Hlok _].
  destruct (IH (with_candidates d v) cur (l ++ [inherit_one c cs]) Hcs Hv') as (d' & Hr & Hm & Hi & Hv2).
  { cbn [candidates with_candidates]. by rewrite He'. }
  { rewrite <-app_assoc, blen_app. cbn [app]. rewrite blen_cons. lia. }
  exists d'. split_and!; [|done|done|].
  - eapply reads_cons; [done| |exact Hr]. by rewrite app_nil_r.
  - by rewrite <-app_assoc in Hv2.
Qed.

(** ** Round trip *)

(** what the parser starts from: an empty description, or one parsed before *)
Definition parseable (d : rtc_sdp_t) : Prop :=
  Vec.elem_size (candidates d) = 0 \/
  exists l, Vec.vec_repr (candidates d) l /\ Vec.elem_size (candidates d) = SIZEOF_CANDIDATE.

Lemma parse_start d :
  parseable d ->
  exists v, (if Vec.elem_size (candidates d) =? 0 then Vec.rtc_vec_init SIZEOF_CANDIDATE
             else Ok (Vec.rtc_vec_clear (candidates d))) = Ok v /\
    Vec.vec_repr v [] /\ Vec.elem_size v = SIZEOF_CANDIDATE.
Proof.
  intros [E|(l & Hv & E)]; rewrite E.
  - eexists. split; [done|]. split; [|done]. constructor; try done; by left.
  - eexists. split; [done|]. split; [|done]. destruct Hv. constructor; cbn in *; try done.
    pose proof (blen_nonneg l). lia.
Qed.

(** a text of bounded length has few candidates *)
Lemma cand_count cs : Forall wf_candidate cs -> blen cs <= blen (text_of (cand_lines cs)).
Proof.
  induction 1 as [|c cs Hc _ IH]; [done|]. unfold cand_lines. cbn [flat_map].
  destruct (candidate_text c Hc) as (ip & port & r & -> & _). cbn [app]. rewrite text_of_cons, !blen_app, blen_cons.
  change (blen (str "a=")) with 2. fold (cand_lines cs). unfold blen in *. lia.
Qed.

(** a description that fits is written, and read back *)
Lemma describe_run now d cs d0 :
  wf_creds d -> Forall wf_media (media d) -> 0 < blen (media d) <= SDP_MAX_MEDIA ->
  line_ok (session_of now d) -> Vec.vec_repr (candidates d) cs -> Forall wf_candidate cs ->
  blen (text_of (sdp_lines d cs (session_of now d) (media d))) < SDP_MAX_SIZE -> parseable d0 ->
  exists d1 d2,
    rtc_sdp_generate now d = (d1, Ok ()) /\ candidates d1 = candidates d /\ raw_len d1 = blen (raw d1) /\
    rtc_sdp_parse ok_alloc (raw d1) (raw_len d1) d0 = (d2, Ok ()) /\
    media d2 = media d /\ ice_of d2 = creds_of d true /\ Vec.vec_repr (candidates d2) (inherit cs).
Proof.
  intros Hcr Hms Hn Hsid Hv Hcs Hfit Hd0.
  assert (effective_media d = Ok (media d)) as Hm.
  { unfold effective_media. by rewrite (proj2 (Z.ltb_lt _ _)), (proj2 (Z.ltb_ge _ _)) by lia. }
  destruct (generate_text now d cs _ Hv Hm Hfit) as (d1 & Eg & Er & El & Ec).
  set (t := text_of _) in *. exists d1.
  destruct (parse_start d0 Hd0) as (v & Ev & Hv0 & He0).
  set (s0 := with_sections (with_candidates (with_text d0 (session_id d0) (cstr t) (blen t)) v) []).
  set (s1 := with_ice s0 (ice_ufrag s0) (ice_pwd s0) (fingerprint s0) (setup s0) true).
  destruct (read_sections d (media d) (text_of (cand_lines cs) ++ []) s1 (-1) Hcr Hms) as (s2 & cur2 & Hr2 & Hm2 & Hc2 & Hi2).
  { cbn. lia. }
  destruct (read_candidates cs s2 cur2 [] Hcs) as (s3 & Hr3 & Hm3 & Hi3 & Hv3).
  { by rewrite Hc2. }
  { rewrite Hc2. cbn. rewrite He0. unfold SIZEOF_CANDIDATE. lia. }
  { cbn [app]. pose proof (cand_count cs Hcs) as Hcount. unfold t, sdp_lines in Hfit.
    rewrite !text_of_app, !blen_app in Hfit. unfold SDP_MAX_SIZE in Hfit.
    pose proof (blen_nonneg (text_of (header_lines (session_of now d) (media d)))).
    pose proof (blen_nonneg (text_of (flat_map (section_lines d) (media d)))). lia. }
  exists s3. split; [done|]. split; [done|]. split; [by rewrite El, Er|]. split; [|split_and!].
  - unfold rtc_sdp_parse. rewrite Er, El. rewrite (proj2 (Z.leb_gt _ _)) by lia.
    rewrite (proj2 (Z.ltb_ge (blen t) (blen t))) by lia.
    cbn [with_text candidates]. rewrite Ev.
    replace (Z.to_nat (blen t)) with (length t) by (unfold blen; lia). rewrite firstn_all.
    assert (Hr : reads (sdp_lines d cs (session_of now d) (media d)) [] (s0, -1) (s3, cur2)).
    { unfold sdp_lines. eapply reads_app; [by apply read_header|]. by eapply reads_app. }
    destruct (Hr (length t)) as (f' & _ & E); [by rewrite app_nil_r|]. rewrite app_nil_r in E.
    fold t in E. fold s0. rewrite E. by destruct f'.
  - rewrite Hm3, Hm2. done.
  - rewrite Hi3, Hi2. destruct (media d); [unfold blen in Hn; cbn in Hn; lia|done].
  - done.
Qed.

(** C10: a session description whose text fits the buffer is generated, and
    parsing that text yields the same media sections (type, payload type,
    codec, clock rate, channels, mid, SSRC, header extensions), ICE
    credentials, fingerprint and setup role, and the same candidates, except
    that a candidate without related address takes over the related address
    of the next candidate that has one. *)
Theorem sdp_roundtrip now d cs d0 :
  wf_creds d -> Forall wf_media (media d) -> 0 < blen (media d) <= SDP_MAX_MEDIA ->
  line_ok (session_of now d) -> Vec.vec_repr (candidates d) cs -> Forall wf_candidate cs ->
  blen (text_of (sdp_lines d cs (session_of now d) (media d))) < SDP_MAX_SIZE -> parseable d0 ->
  exists d1 d2,
    rtc_sdp_generate now d = (d1, Ok ()) /\
    rtc_sdp_parse ok_alloc (raw d1) (raw_len d1) d0 = (d2, Ok ()) /\
    media d2 = media d /\ ice_of d2 = creds_of d true /\ Vec.vec_repr (candidates d2) (inherit cs).
Proof.
  intros. destruct (describe_run now d cs d0) as (d1 & d2 & ? & _ & _ & ?); try done. by exists d1, d2.
Qed.
End Candidates.

Import InetModel.

(** ** An example: audio with an extension, video, data channel; a host and a
    server-reflexive candidate *)

Definition ex_host : rtc_ice_candidate_t :=
  Candidate ICE_CANDIDATE_HOST (AF_INET 5000 0xC0A80102) AF_OTHER 2130706431 1 false (str "H0").
Definition ex_srflx : rtc_ice_candidate_t :=
  Candidate ICE_CANDIDATE_SRFLX (AF_INET 6000 0x01020304) (AF_INET 5000 0xC0A80102) 1694498815 1 true (str "S0").
Definition ex_audio : rtc_sdp_media_t :=
  MediaSection RTC_MEDIA_AUDIO 111 48000 2 (str "opus") 0 1234
    [Extmap 3 (str "urn:ietf:params:rtp-hdrext:sdes:mid")].
Definition ex_video : rtc_sdp_media_t := MediaSection RTC_MEDIA_VIDEO 96 90000 0 (str "VP8") 1 0 [].
Definition ex_sdp : rtc_sdp_t :=
  with_candidates
    (with_ice (with_sections sdp_zero [ex_audio; ex_video; media_zero RTC_MEDIA_APPLICATION 0 2])
       (str "abcdefg") (str "0123456789012345678901") (str "AB:CD:EF") RTC_SETUP_ACTPASS false)
    (Vec.Vec (Some ex_host :: Some ex_srflx :: replicate 6 None) 2 8 SIZEOF_CANDIDATE).

Lemma sdp_roundtrip_witness :
  exists d1 d2,
    rtc_sdp_generate 1700000000000 ex_sdp = (d1, Ok ()) /\
    rtc_sdp_parse ok_alloc (raw d1) (raw_len d1) sdp_zero = (d2, Ok ()) /\
    media d2 = media ex_sdp /\ ice_of d2 = creds_of ex_sdp true /\
    Vec.vec_repr (candidates d2) (inherit [ex_host; ex_srflx]).
Proof.
  assert (Hav : forall m, m = ex_audio \/ m = ex_video -> wf_av m).
  { assert (forall w, bool_decide (w <> []) && bool_decide (Forall (fun b => isspace b = false) w) = true -> word w) as Hw.
    { intros w [E1%bool_decide_eq_true_1 E2%bool_decide_eq_true_1]%andb_true_iff. by split. }
    intros m [-> | ->]; constructor; try done; try (cbn; lia).
    - cbn. split; [|by apply line_ok_lit]. split_and!; [by apply Hw| |vm_compute; lia].
      by apply (bool_decide_eq_true_1 (Forall (fun b => b <> 47) _)).
    - constructor; [|constructor]. split_and!; [cbn; lia..|by apply Hw|by apply line_ok_lit|vm_compute; lia].
    - cbn. split; [|by apply line_ok_lit]. split_and!; [by apply Hw| |vm_compute; lia].
      by apply (bool_decide_eq_true_1 (Forall (fun b => b <> 47) _)). }
  apply (sdp_roundtrip 1700000000000 ex_sdp [ex_host; ex_srflx] sdp_zero).
  - constructor; (split; [by apply line_ok_lit|done]).
  - apply Forall_cons; [split; [done|apply Hav; by left]|].
    apply Forall_cons; [split; [done|apply Hav; by right]|].
    apply Forall_cons; [split; [done|done]|by apply Forall_nil].
  - done.
  - by apply line_ok_lit.
  - constructor; try done. right. by exists 3.
  - apply Forall_cons; [|apply Forall_cons; [|by apply Forall_nil]]; constructor; try done; try (vm_compute; lia);
      try (repeat split; done); try (split; [done|by apply (bool_decide_eq_true_1 (Forall _ _))]);
      by apply (bool_decide_eq_true_1 (Forall (fun b => 0 < b < 256) _)).
  - vm_compute. done.
  - by left.
Defined.
End SdpSpec.
