(* ===== verification/Dtls.v ===== *)
(** * The DTLS endpoint (rtc/src/rtc_dtls.c)

    OpenSSL is the interface [OpenSsl]: a value of type [X] is a connection
    object with its two memory BIOs and whatever else the library consults
    (clock, random numbers); [OpenSslLaws] states what its manual says of the
    write BIO.  The object that [send_fn] acts on is part of the world [W] the
    operations run in.  The certificate and its key are set and released
    together and are one flag. *)

From Stdlib Require Import String.
From S2P Require Import Prelude Text Srtp.
From Stdlib Require Import ZArith Lia.
From stdpp Require Import base list numbers.
#[local] Open Scope Z_scope.

Module Dtls.
Import Text.

Definition RTC_DTLS_FINGERPRINT_SIZE : Z := 96.
Definition RTC_SRTP_MASTER_KEY_LEN : Z := 16.
Definition RTC_SRTP_MASTER_KEY_MAX : Z := 32.
Definition RTC_SRTP_MASTER_SALT_LEN : Z := 14.

Inductive rtc_dtls_state_t :=
  | RTC_DTLS_STATE_NEW | RTC_DTLS_STATE_CONNECTING | RTC_DTLS_STATE_CONNECTED
  | RTC_DTLS_STATE_FAILED | RTC_DTLS_STATE_CLOSED.
#[export] Instance dtls_state_eq_dec : EqDecision rtc_dtls_state_t.
Proof. solve_decision. Defined.

Inductive rtc_dtls_role_t := RTC_DTLS_ROLE_CLIENT | RTC_DTLS_ROLE_SERVER.
#[export] Instance dtls_role_eq_dec : EqDecision rtc_dtls_role_t.
Proof. solve_decision. Defined.

(** ** OpenSSL *)

(** what [SSL_do_handshake], then [SSL_get_error], report *)
Inductive handshake_status := HS_DONE | HS_WANT | HS_ERROR.

(** the id of an [SRTP_PROTECTION_PROFILE] *)
Inductive srtp_profile_id := SRTP_AEAD_AES_256_GCM | SRTP_AEAD_AES_128_GCM | SRTP_AES128_CM_SHA1_80.

Class OpenSsl (X : Type) := {
  (** [SSL_set_connect_state] or [SSL_set_accept_state] *)
  ssl_set_state : rtc_dtls_role_t -> X -> X;
  ssl_do_handshake : X -> X * handshake_status;
  (** [DTLSv1_handle_timeout] *)
  ssl_handle_timeout : X -> X * Z;
  (** [BIO_write] to the read BIO *)
  bio_write : bytes -> X -> X;
  (** [BIO_ctrl_pending] of the write BIO *)
  bio_pending : X -> Z;
  (** [BIO_read] of at most so many bytes from the write BIO; [None]: it
      returned zero or less *)
  bio_read : Z -> X -> X * option bytes;
  (** [SSL_read] of at most so many bytes, [SSL_write] *)
  ssl_read : Z -> X -> X * option bytes;
  (** how many records at most are there to be read *)
  ssl_backlog : X -> nat;
  ssl_write : bytes -> X -> X * Z;
  (** [SSL_get_selected_srtp_profile]; [SSL_export_keying_material] of so many
      bytes for a label, without context *)
  ssl_srtp_profile : X -> option srtp_profile_id;
  ssl_export : X -> Z -> bytes -> option bytes
}.

(** A read from a memory BIO takes a nonempty prefix out of it, of at most the
    size asked for, and fails when it is empty; every [SSL_read] that delivers data uses up a record; the
    exporter delivers the length asked for. *)
Class OpenSslLaws (X : Type) {ops : OpenSsl X} := {
  bio_text : X -> bytes;
  law_pending x : bio_pending x = blen (bio_text x);
  law_bio_read n x :
    0 < n -> 0 < blen (bio_text x) ->
    exists x', bio_read n x = (x', Some (take (Z.to_nat n) (bio_text x))) /\
      bio_text x' = drop (Z.to_nat n) (bio_text x);
  law_bio_empty n x : bio_text x = [] -> exists x', bio_read n x = (x', None) /\ bio_text x' = [];
  law_ssl_read n x x' d : ssl_read n x = (x', Some d) -> (ssl_backlog x' < ssl_backlog x)%nat;
  law_export x n l d : ssl_export x n l = Some d -> blen d = n
}.

(** ** State *)

(** [ctx]: the context exists; [ssl]: the connection with its BIOs, [None]:
    NULL; [cert]: certificate and key exist *)
Record rtc_dtls_transport_t (X : Type) := DtlsState {
  ctx : bool;
  ssl : option X;
  cert : bool;
  state : rtc_dtls_state_t;
  role : rtc_dtls_role_t;
  local_fingerprint : bytes;
  srtp_client_key : bytes;
  srtp_client_salt : bytes;
  srtp_server_key : bytes;
  srtp_server_salt : bytes;
  srtp_aead_gcm : bool;
  srtp_key_len : Z;
  srtp_salt_len : Z;
  srtp_keys_ready : bool
}.
Arguments DtlsState {X}. Arguments ctx {X}. Arguments ssl {X}. Arguments cert {X}.
Arguments state {X}. Arguments role {X}. Arguments local_fingerprint {X}.
Arguments srtp_client_key {X}. Arguments srtp_client_salt {X}. Arguments srtp_server_key {X}.
Arguments srtp_server_salt {X}. Arguments srtp_aead_gcm {X}. Arguments srtp_key_len {X}.
Arguments srtp_salt_len {X}. Arguments srtp_keys_ready {X}.

Section Setters.
Context {X : Type}.
Implicit Types d : rtc_dtls_transport_t X.

Definition with_state d (s : rtc_dtls_state_t) : rtc_dtls_transport_t X :=
  DtlsState (ctx d) (ssl d) (cert d) s (role d) (local_fingerprint d) (srtp_client_key d) (srtp_client_salt d)
    (srtp_server_key d) (srtp_server_salt d) (srtp_aead_gcm d) (srtp_key_len d) (srtp_salt_len d) (srtp_keys_ready d).
Definition with_ssl d (c : bool) (x : option X) : rtc_dtls_transport_t X :=
  DtlsState c x (cert d) (state d) (role d) (local_fingerprint d) (srtp_client_key d) (srtp_client_salt d)
    (srtp_server_key d) (srtp_server_salt d) (srtp_aead_gcm d) (srtp_key_len d) (srtp_salt_len d) (srtp_keys_ready d).
Definition with_cert d (c : bool) (fp : bytes) : rtc_dtls_transport_t X :=
  DtlsState (ctx d) (ssl d) c (state d) (role d) fp (srtp_client_key d) (srtp_client_salt d)
    (srtp_server_key d) (srtp_server_salt d) (srtp_aead_gcm d) (srtp_key_len d) (srtp_salt_len d) (srtp_keys_ready d).
Definition with_gcm d (g : bool) : rtc_dtls_transport_t X :=
  DtlsState (ctx d) (ssl d) (cert d) (state d) (role d) (local_fingerprint d) (srtp_client_key d) (srtp_client_salt d)
    (srtp_server_key d) (srtp_server_salt d) g (srtp_key_len d) (srtp_salt_len d) (srtp_keys_ready d).
Definition with_keys d (ck cs sk ss : bytes) (kl sl : Z) : rtc_dtls_transport_t X :=
  DtlsState (ctx d) (ssl d) (cert d) (state d) (role d) (local_fingerprint d) ck cs sk ss (srtp_aead_gcm d) kl sl true.

(** [memset(dtls, 0, sizeof( *dtls))] *)
Definition dtls_zero : rtc_dtls_transport_t X :=
  DtlsState false None false RTC_DTLS_STATE_NEW RTC_DTLS_ROLE_CLIENT [] (Srtp.zeros 32) (Srtp.zeros 14)
    (Srtp.zeros 32) (Srtp.zeros 14) false 0 0 false.
End Setters.

(** ** The certificate *)

Definition hex_upper : bytes := str "0123456789ABCDEF".
(** ["%02X"] *)
Definition hex2 (b : Z) : bytes :=
  [nth (Z.to_nat (Z.shiftr b 4)) hex_upper 0; nth (Z.to_nat (Z.land b 15)) hex_upper 0].

(** the loop over the digest; [out]: the text written, [offset]: the variable *)
Fixpoint fp_loop (digest : bytes) (first : bool) (fp_size offset : Z) (out : bytes) : res bytes :=
  match digest with
  | [] => _ ← fault_if (fp_size <=? offset); Ok out
  | b :: rest =>
      let colon := negb first && (offset <? fp_size - 1) in
      let out := if colon then out ++ [58] else out in
      let offset := if colon then offset + 1 else offset in
      _ ← fault_if (fp_size <? offset);
      fp_loop rest false fp_size (offset + 2) (out ++ take (Z.to_nat (fp_size - offset - 1)) (hex2 b))
  end.

(** [digest]: [None] when one of the OpenSSL calls that make the key, the
    certificate and its SHA-256 digest fails *)
Definition dtls_generate_cert (digest : option bytes) : res bytes :=
  match digest with
  | None => Err RTC_ERR_SSL
  | Some digest => fp_loop digest true RTC_DTLS_FINGERPRINT_SIZE 0 []
  end.

(** ** The connection *)

(** [ssl_ctx_new], [use_srtp], [install]: the outcome of the calls that make
    and configure the context; [ssl_new]: the object; [bios]: both allocated *)
Record setup_env (X : Type) := SetupEnv {
  ssl_ctx_new : bool;
  use_srtp : bool;
  install : bool;
  ssl_new : option X;
  bios : bool
}.
Arguments SetupEnv {X}. Arguments ssl_ctx_new {X}. Arguments use_srtp {X}. Arguments install {X}.
Arguments ssl_new {X}. Arguments bios {X}.

Section Setup.
Context {X : Type} {ops : OpenSsl X}.

Definition dtls_close_ssl (d : rtc_dtls_transport_t X) : rtc_dtls_transport_t X := with_ssl d false None.

Definition setup_failed : st (rtc_dtls_transport_t X) unit := fun d => (dtls_close_ssl d, Err RTC_ERR_SSL).

Definition dtls_setup_ssl (env : setup_env X) (r : rtc_dtls_role_t) : st (rtc_dtls_transport_t X) unit := fun d =>
  if negb (cert d) then (d, Err RTC_ERR_INVALID) else
  let d := with_ssl d (ssl_ctx_new env) (ssl d) in
  if negb (ssl_ctx_new env) then (d, Err RTC_ERR_SSL) else
  if negb (use_srtp env) then setup_failed d else
  if negb (install env) then setup_failed d else
  match ssl_new env with
  | None => setup_failed d
  | Some x =>
      if negb (bios env) then setup_failed d else
      (DtlsState true (Some (ssl_set_state r x)) (cert d) RTC_DTLS_STATE_NEW r (local_fingerprint d)
         (Srtp.zeros 32) (Srtp.zeros 14) (Srtp.zeros 32) (Srtp.zeros 14) false RTC_SRTP_MASTER_KEY_LEN
         RTC_SRTP_MASTER_SALT_LEN false, Ok ())
  end.

Definition rtc_dtls_close (d : rtc_dtls_transport_t X) : rtc_dtls_transport_t X :=
  with_state (with_cert (dtls_close_ssl d) false (local_fingerprint d)) RTC_DTLS_STATE_CLOSED.

Definition rtc_dtls_init (digest : option bytes) (env : setup_env X) (r : rtc_dtls_role_t)
    : rtc_dtls_transport_t X * res unit :=
  match dtls_generate_cert digest with
  | Ok fp =>
      match dtls_setup_ssl env r (with_cert dtls_zero true fp) with
      | (d, Ok _) => (d, Ok ())
      | (d, Err e) => (rtc_dtls_close d, Err e)
      | (d, Fault) => (d, Fault)
      end
  | Err e => (dtls_zero, Err e)
  | Fault => (dtls_zero, Fault)
  end.

Definition rtc_dtls_set_role (env : setup_env X) (r : rtc_dtls_role_t) : st (rtc_dtls_transport_t X) unit := fun d =>
  if negb (cert d) then (d, Err RTC_ERR_INVALID)
  else if negb (bool_decide (state d = RTC_DTLS_STATE_NEW)) then (d, Err RTC_ERR_INVALID)
  else if bool_decide (role d = r) then (d, Ok ())
  else match dtls_setup_ssl env r (dtls_close_ssl d) with
       | (d, Ok _) => (d, Ok ())
       | (d, Err e) => (with_state d RTC_DTLS_STATE_FAILED, Err e)
       | (d, Fault) => (d, Fault)
       end.

Definition rtc_dtls_get_fingerprint (d : rtc_dtls_transport_t X) : bytes := local_fingerprint d.

(** ** Keying material *)

Definition EXPORTER_LABEL : bytes := str "EXTRACTOR-dtls_srtp".

(** is AEAD, key length, salt length of the negotiated profile *)
Definition profile_lengths (p : option srtp_profile_id) : bool * Z * Z :=
  match p with
  | Some SRTP_AEAD_AES_256_GCM => (true, 32, 12)
  | Some SRTP_AEAD_AES_128_GCM => (true, RTC_SRTP_MASTER_KEY_LEN, 12)
  | _ => (false, RTC_SRTP_MASTER_KEY_LEN, RTC_SRTP_MASTER_SALT_LEN)
  end.

(** [memcpy] of [s] to the start of the array [a] *)
Definition overlay (s a : bytes) : bytes := s ++ drop (length s) a.

Definition rtc_dtls_export_srtp_keys : st (rtc_dtls_transport_t X) unit :=
  d ← get;
  _ ← lift (fail_if (negb (bool_decide (state d = RTC_DTLS_STATE_CONNECTED))) RTC_ERR_SSL);
  match ssl d with
  | None => lift Fault
  | Some x =>
      let '(gcm, key_len, salt_len) := profile_lengths (ssl_srtp_profile x) in
      let d := with_gcm d gcm in
      _ ← put d;
      let total := 2 * (key_len + salt_len) in
      match ssl_export x total EXPORTER_LABEL with
      | None => lift (Err RTC_ERR_SSL)
      | Some material =>
          ck ← lift (sub material 0 key_len);
          sk ← lift (sub material key_len key_len);
          cs ← lift (sub material (2 * key_len) salt_len);
          ss ← lift (sub material (2 * key_len + salt_len) salt_len);
          put (with_keys d (overlay ck (srtp_client_key d)) (overlay cs (srtp_client_salt d))
                 (overlay sk (srtp_server_key d)) (overlay ss (srtp_server_salt d)) key_len salt_len)
      end
  end.
End Setup.

(** ** Handshake and records

    [dtls], [set_dtls]: the endpoint in the world; [send]: the callback
    [send_fn]. *)

Section Run.
Context {X W : Type} {ops : OpenSsl X}.
Context (dtls : W -> rtc_dtls_transport_t X) (set_dtls : W -> rtc_dtls_transport_t X -> W).
Context (send : bytes -> st W unit).

Definition on_dtls {A} (f : st (rtc_dtls_transport_t X) A) : st W A := zoom dtls set_dtls f.

(** apply an OpenSSL call to the connection; NULL is not a valid argument *)
Definition on_ssl {A} (f : X -> X * A) : st W A := fun w =>
  match ssl (dtls w) with
  | None => (w, Fault)
  | Some x => let '(x, a) := f x in (set_dtls w (with_ssl (dtls w) (ctx (dtls w)) (Some x)), Ok a)
  end.

Definition set_state (s : rtc_dtls_state_t) : st W unit := on_dtls (modify (fun d => with_state d s)).

(** the loop of [dtls_flush_wbio]; BIO functions do nothing on NULL *)
Fixpoint flush_loop (fuel : nat) : st W unit := fun w =>
  match ssl (dtls w) with
  | None => (w, Ok ())
  | Some x =>
      if negb (0 <? bio_pending x) then (w, Ok ()) else
      match fuel with
      | O => (w, Fault)
      | S fuel =>
          (n ← on_ssl (bio_read 2048);
           match n with
           | None => mret ()
           | Some buf => _ ← send buf; flush_loop fuel
           end) w
      end
  end.

(** a round sends at least one pending byte *)
Definition pending (w : W) : Z := match ssl (dtls w) with None => 0 | Some x => bio_pending x end.
Definition dtls_flush_wbio : st W unit := fun w => flush_loop (Z.to_nat (pending w)) w.

Definition rtc_dtls_handshake : st W unit :=
  _ ← set_state RTC_DTLS_STATE_CONNECTING;
  ret ← on_ssl ssl_do_handshake;
  _ ← void dtls_flush_wbio;
  match ret with
  | HS_DONE => set_state RTC_DTLS_STATE_CONNECTED
  | HS_WANT => mret ()
  | HS_ERROR => _ ← set_state RTC_DTLS_STATE_FAILED; lift (Err RTC_ERR_SSL)
  end.

Definition rtc_dtls_retransmit : st W unit :=
  w ← get;
  if negb (bool_decide (state (dtls w) = RTC_DTLS_STATE_CONNECTING)) then mret () else
  ret ← on_ssl ssl_handle_timeout;
  if 0 <? ret then void dtls_flush_wbio else mret ().

Definition feed (data : bytes) : st W unit := fun w =>
  match ssl (dtls w) with
  | None => (w, Ok ())
  | Some x => (set_dtls w (with_ssl (dtls w) (ctx (dtls w)) (Some (bio_write data x))), Ok ())
  end.

Definition rtc_dtls_recv (data : bytes) : st W unit :=
  _ ← feed data;
  w ← get;
  match state (dtls w) with
  | RTC_DTLS_STATE_CONNECTING | RTC_DTLS_STATE_NEW => rtc_dtls_handshake
  | _ => void dtls_flush_wbio
  end.
End Run.

(** ** The fingerprint *)

(** the colon-separated text *)
Fixpoint fp_text (digest : bytes) : bytes :=
  match digest with
  | [] => []
  | [b] => hex2 b
  | b :: rest => hex2 b ++ [58] ++ fp_text rest
  end.

Lemma fp_loop_run digest : forall out,
  digest <> [] -> blen out + 3 * blen digest < RTC_DTLS_FINGERPRINT_SIZE ->
  fp_loop digest false RTC_DTLS_FINGERPRINT_SIZE (blen out) out = Ok (out ++ [58] ++ fp_text digest).
Proof.
  induction digest as [|b rest IH]; intros out Hne Hl; [done|]. cbn [fp_loop negb andb]. rewrite blen_cons in Hl.
  pose proof (blen_nonneg rest). unfold RTC_DTLS_FINGERPRINT_SIZE in *.
  rewrite (proj2 (Z.ltb_lt _ _)) by lia. pass_guard.
  rewrite take_ge by (cbn [hex2 length]; lia).
  replace (blen out + 1 + 2) with (blen ((out ++ [58]) ++ hex2 b)) by (rewrite !blen_app; unfold blen; cbn; lia).
  destruct rest as [|b' rest].
  - cbn [fp_loop]. rewrite !blen_app. change (blen [58]) with 1. change (blen (hex2 b)) with 2. pass_guard.
    by rewrite <-app_assoc.
  - rewrite IH; [|done|].
    + by rewrite <-!app_assoc.
    + rewrite !blen_app. change (blen [58]) with 1. change (blen (hex2 b)) with 2. lia.
Qed.

Lemma dtls_generate_cert_run digest :
  length digest = 32%nat -> dtls_generate_cert (Some digest) = Ok (fp_text digest).
Proof.
  intros Hl. destruct digest as [|b [|b' rest]]; [done..|].
  change (fp_loop (b' :: rest) false RTC_DTLS_FINGERPRINT_SIZE (blen (hex2 b)) (hex2 b) =
    Ok (fp_text (b :: b' :: rest))).
  rewrite fp_loop_run; [done|done|].
  change (blen (hex2 b)) with 2. unfold blen, RTC_DTLS_FINGERPRINT_SIZE. cbn [length] in *. lia.
Qed.

Lemma hex2_inj a b x y : byte_ok a -> byte_ok b -> hex2 a ++ x = hex2 b ++ y -> a = b /\ x = y.
Proof.
  intros Ha Hb. unfold hex2. cbn [app]. intros [= H1 H2 Hxy]. split; [|done].
  assert (E : forallb (fun i => forallb (fun j => implb (nth i hex_upper 0 =? nth j hex_upper 0) (i =? j)%nat)
    (seq 0 16)) (seq 0 16) = true) by (vm_compute; reflexivity).
  assert (inj : forall i j, (i < 16)%nat -> (j < 16)%nat -> nth i hex_upper 0 = nth j hex_upper 0 -> i = j).
  { intros i j Hi Hj Hij. rewrite forallb_forall in E. specialize (E i (proj2 (in_seq 16 0 i) (conj (Nat.le_0_l _) Hi))).
    rewrite forallb_forall in E. specialize (E j (proj2 (in_seq 16 0 j) (conj (Nat.le_0_l _) Hj))).
    rewrite Hij, Z.eqb_refl in E. by apply Nat.eqb_eq in E. }
  apply inj in H1; [|revert Ha Hb; clear; intros; bits_to_arith; unfold byte_ok in *; pow_eval; dlia..].
  apply inj in H2; [|revert Ha Hb; clear; intros; bits_to_arith; unfold byte_ok in *; pow_eval; dlia..].
  revert Ha Hb H1 H2. clear. intros Ha Hb. bits_to_arith. unfold byte_ok in *. pow_eval. dlia.
Qed.

Lemma fp_text_inj d1 : forall d2, bytes_ok d1 -> bytes_ok d2 -> length d1 = length d2 -> fp_text d1 = fp_text d2 -> d1 = d2.
Proof.
  induction d1 as [|a d1 IH]; intros [|b d2] H1 H2 Hl; try done.
  apply Forall_cons_iff in H1 as [Ha H1]. apply Forall_cons_iff in H2 as [Hb H2]. injection Hl as Hl.
  destruct d1 as [|a' d1], d2 as [|b' d2]; try done.
  - cbn [fp_text]. intros E. rewrite <-(app_nil_r (hex2 a)), <-(app_nil_r (hex2 b)) in E.
    by apply hex2_inj in E as [-> _].
  - intros E. change (hex2 a ++ [58] ++ fp_text (a' :: d1) = hex2 b ++ [58] ++ fp_text (b' :: d2)) in E.
    apply hex2_inj in E as [-> E]; [|done..]. f_equal. apply IH; [done..|]. by apply (app_inv_head [58]) in E.
Qed.

(** ** Flushing the write BIO *)

Section Flush.
Context {X W : Type} {ops : OpenSsl X} {laws : OpenSslLaws X}.
Context (dtls : W -> rtc_dtls_transport_t X) (set_dtls : W -> rtc_dtls_transport_t X -> W).
Context (send : bytes -> st W unit).
Context (dtls_set : forall w d, dtls (set_dtls w d) = d).
(** the callback leaves the endpoint alone *)
Context (send_keeps : forall b w w' r, send b w = (w', r) -> dtls w' = dtls w /\ no_fault r).

Definition unsent (w : W) : bytes := match ssl (dtls w) with None => [] | Some x => bio_text x end.

Lemma pending_unsent w : pending dtls w = blen (unsent w).
Proof. unfold pending, unsent. destruct (ssl _); [apply law_pending|done]. Qed.

(** everything of the endpoint but the connection *)
Definition same_but_ssl (d d' : rtc_dtls_transport_t X) : Prop := d' = with_ssl d (ctx d) (ssl d') /\ (ssl d = None <-> ssl d' = None).

Lemma same_but_ssl_refl d : same_but_ssl d d.
Proof. by destruct d. Qed.
Lemma same_but_ssl_trans a b c : same_but_ssl a b -> same_but_ssl b c -> same_but_ssl a c.
Proof. intros [-> H1] [-> H2]. split; [done|]. cbn in *. tauto. Qed.
Lemma same_but_ssl_set d x y : ssl d = Some x -> same_but_ssl d (with_ssl d (ctx d) (Some y)).
Proof. intros E. split; [done|]. rewrite E. done. Qed.

Lemma flush_step w n x :
  ssl (dtls w) = Some x -> 0 < blen (bio_text x) ->
  exists x', let w1 := set_dtls w (with_ssl (dtls w) (ctx (dtls w)) (Some x')) in
    bio_text x' = drop 2048 (bio_text x) /\
    flush_loop dtls set_dtls send (S n) w =
      (_ ← send (take 2048 (bio_text x)); flush_loop dtls set_dtls send n) w1.
Proof.
  intros Hx Hl. destruct (law_bio_read 2048 x) as (x' & Er & Et); [done..|]. exists x'. split; [done|].
  cbn [flush_loop]. rewrite Hx, law_pending, (proj2 (Z.ltb_lt _ _) Hl). cbn [negb].
  rewrite st_bind_eq. unfold on_ssl. by rewrite Hx, Er.
Qed.

(** The loop ends: every round takes bytes out of the BIO, and a failing
    callback ends it.  Only the connection object changes. *)
Lemma flush_loop_ends n : forall w, blen (unsent w) <= Z.of_nat n ->
  exists w' r, flush_loop dtls set_dtls send n w = (w', r) /\ no_fault r /\ same_but_ssl (dtls w) (dtls w').
Proof.
  induction n as [|n IH]; intros w Hn.
  { cbn [flush_loop]. unfold unsent in Hn. destruct (ssl (dtls w)) as [x|] eqn:E;
      [|by eexists _, _; split; [done|split; [done|apply same_but_ssl_refl]]].
    rewrite law_pending, (proj2 (Z.ltb_ge _ _)) by lia. eexists _, _. split; [done|]. split; [done|apply same_but_ssl_refl]. }
  unfold unsent in Hn. destruct (ssl (dtls w)) as [x|] eqn:E.
  2: { cbn [flush_loop]. rewrite E. by eexists _, _; split; [done|split; [done|apply same_but_ssl_refl]]. }
  destruct (Z.le_gt_cases (blen (bio_text x)) 0) as [H0|H0].
  { cbn [flush_loop]. rewrite E, law_pending, (proj2 (Z.ltb_ge _ _)) by lia. eexists _, _. split; [done|].
    split; [done|apply same_but_ssl_refl]. }
  destruct (flush_step w n x E H0) as (x' & Et & ->). rewrite st_bind_eq.
  destruct (send _ _) as [w2 r] eqn:Es. apply send_keeps in Es as [Ed Hr]. rewrite dtls_set in Ed.
  pose proof (same_but_ssl_set (dtls w) x x' E) as Hs.
  destruct r as [u|e|]; [|by eexists _, _; split; [done|split; [done|rewrite Ed]]|done].
  destruct (IH w2) as (w3 & r & -> & Hr3 & Hs3).
  { unfold unsent. rewrite Ed. cbn [ssl with_ssl]. rewrite Et. unfold blen in *. rewrite length_drop. lia. }
  eexists _, _. split; [done|]. split; [done|]. rewrite Ed in Hs3. by eapply same_but_ssl_trans.
Qed.

Lemma flush_ends w :
  exists w' r, dtls_flush_wbio dtls set_dtls send w = (w', r) /\ no_fault r /\ same_but_ssl (dtls w) (dtls w').
Proof. apply flush_loop_ends. rewrite pending_unsent. pose proof (blen_nonneg (unsent w)). lia. Qed.

(** With a callback that succeeds and logs what it sends, all the pending
    bytes are sent, in order, in pieces of at most 2048. *)
Lemma flush_loop_sends (log : W -> list bytes) n : forall w,
  (forall w d, log (set_dtls w d) = log w) ->
  (forall b w, exists w', send b w = (w', Ok ()) /\ log w' = log w ++ [b]) ->
  blen (unsent w) <= Z.of_nat n ->
  exists w' chunks, flush_loop dtls set_dtls send n w = (w', Ok ()) /\ log w' = log w ++ chunks /\
    concat chunks = unsent w /\ Forall (fun c => 0 < blen c <= 2048) chunks /\ unsent w' = [].
Proof.
  intros w Hlog Hsend. revert w. induction n as [|n IH]; intros w Hn; unfold unsent in Hn;
    (destruct (ssl (dtls w)) as [x|] eqn:E;
      [|cbn [flush_loop]; rewrite E; exists w, []; unfold unsent; rewrite E, app_nil_r; by repeat split]).
  { cbn [flush_loop]. rewrite E, law_pending, (proj2 (Z.ltb_ge _ _)) by lia. exists w, []. unfold unsent.
    rewrite E, app_nil_r. destruct (bio_text x); [by repeat split|unfold blen in Hn; cbn [length] in Hn; lia]. }
  destruct (Z.le_gt_cases (blen (bio_text x)) 0) as [H0|H0].
  { cbn [flush_loop]. rewrite E, law_pending, (proj2 (Z.ltb_ge _ _)) by lia. exists w, []. unfold unsent.
    rewrite E, app_nil_r. destruct (bio_text x); [by repeat split|unfold blen in H0; cbn [length] in H0; lia]. }
  destruct (flush_step w n x E H0) as (x' & Et & ->).
  set (w1 := set_dtls w _). destruct (Hsend (take 2048 (bio_text x)) w1) as (w2 & Es & El).
  rewrite (st_bind_run _ _ _ _ _ Es). destruct (send_keeps _ _ _ _ Es) as [Ed _].
  assert (Hu : unsent w2 = drop 2048 (bio_text x)).
  { unfold unsent. rewrite Ed. unfold w1. rewrite dtls_set. cbn [ssl with_ssl]. done. }
  destruct (IH w2) as (w3 & chunks & -> & El3 & Ec & Hf & Hu3).
  { rewrite Hu. unfold blen in *. rewrite length_drop. lia. }
  exists w3, (take 2048 (bio_text x) :: chunks). split; [done|]. split.
  { rewrite El3, El. unfold w1. by rewrite Hlog, <-app_assoc. }
  split; [cbn [concat]; rewrite Ec, Hu; unfold unsent; rewrite E; apply take_drop|]. split; [|done].
  constructor; [|done]. unfold blen in *. rewrite length_take. lia.
Qed.

(** ** The state machine *)

(** a connection exists in the states that use it; the key buffers have the
    size of their arrays *)
Record dtls_ok (d : rtc_dtls_transport_t X) : Prop := {
  do_ssl : state d <> RTC_DTLS_STATE_FAILED -> state d <> RTC_DTLS_STATE_CLOSED -> is_Some (ssl d);
  do_client_key : length (srtp_client_key d) = 32%nat;
  do_server_key : length (srtp_server_key d) = 32%nat;
  do_client_salt : length (srtp_client_salt d) = 14%nat;
  do_server_salt : length (srtp_server_salt d) = 14%nat
}.

Lemma dtls_ok_state d s : dtls_ok d -> is_Some (ssl d) \/ s = RTC_DTLS_STATE_FAILED \/ s = RTC_DTLS_STATE_CLOSED ->
  dtls_ok (with_state d s).
Proof. intros [] Hs. constructor; cbn; [|done..]. destruct Hs as [?|[->| ->]]; [by auto|done..]. Qed.

Lemma dtls_ok_same d d' : same_but_ssl d d' -> dtls_ok d -> dtls_ok d'.
Proof.
  intros [-> Hs] []. constructor; cbn in *; [|done..]. intros H1 H2. destruct (do_ssl0 H1 H2) as [x Hx].
  destruct (ssl d'); [by eauto|]. exfalso. destruct Hs as [_ Hs]. rewrite Hx in Hs. discriminate (Hs eq_refl).
Qed.

(** what a received record or a timeout may change *)
Record dtls_moves (d d' : rtc_dtls_transport_t X) : Prop := {
  dm_role : role d' = role d;
  dm_cert : cert d' = cert d;
  dm_fingerprint : local_fingerprint d' = local_fingerprint d;
  dm_ready : srtp_keys_ready d' = srtp_keys_ready d;
  dm_ssl : is_Some (ssl d) <-> is_Some (ssl d');
  dm_ok : dtls_ok d -> dtls_ok d'
}.

Lemma dtls_moves_same d d' : same_but_ssl d d' -> dtls_moves d d' /\ state d' = state d.
Proof.
  intros H. pose proof (dtls_ok_same d d' H). destruct H as [E Hs]. rewrite E. split; [|done].
  constructor; cbn [role cert local_fingerprint srtp_keys_ready with_ssl ssl]; try done.
  - rewrite <-!not_eq_None_Some. tauto.
  - by rewrite <-E.
Qed.

Lemma dtls_moves_trans a b c : dtls_moves a b -> dtls_moves b c -> dtls_moves a c.
Proof. intros [] []. constructor; [congruence..|tauto|auto]. Qed.

Lemma dtls_moves_state d s : is_Some (ssl d) -> dtls_moves d (with_state d s).
Proof. intros H. constructor; try done. intros Hd. apply dtls_ok_state; auto. Qed.

Lemma void_flush_run w :
  exists w', void (dtls_flush_wbio dtls set_dtls send) w = (w', Ok ()) /\ same_but_ssl (dtls w) (dtls w').
Proof.
  destruct (flush_ends w) as (w' & r & E & Hr & Hs). exists w'. split; [|done].
  unfold void. rewrite st_bind_eq. unfold st_attempt. rewrite E. by destruct r.
Qed.

Lemma handshake_run w :
  is_Some (ssl (dtls w)) ->
  exists w' r, rtc_dtls_handshake dtls set_dtls send w = (w', r) /\ dtls_moves (dtls w) (dtls w') /\
    match r with
    | Ok _ => state (dtls w') = RTC_DTLS_STATE_CONNECTING \/ state (dtls w') = RTC_DTLS_STATE_CONNECTED
    | Err e => e = RTC_ERR_SSL /\ state (dtls w') = RTC_DTLS_STATE_FAILED
    | Fault => False
    end.
Proof.
  intros Hx. pose proof (dtls_moves_state (dtls w) RTC_DTLS_STATE_CONNECTING Hx) as M1. destruct Hx as [x Hx].
  unfold rtc_dtls_handshake, set_state, on_dtls. rewrite st_bind_eq. unfold zoom, modify at 1. cbv beta iota.
  rewrite st_bind_eq. unfold on_ssl. rewrite dtls_set. cbn [ssl with_state]. rewrite Hx.
  destruct (ssl_do_handshake x) as [x' hs]. set (w1 := set_dtls (set_dtls w _) _).
  assert (E1 : dtls w1 = with_ssl (with_state (dtls w) RTC_DTLS_STATE_CONNECTING) (ctx (dtls w)) (Some x'))
    by (unfold w1; by rewrite dtls_set).
  destruct (void_flush_run w1) as (w2 & Ev & Hs2). rewrite (st_bind_run _ _ _ _ _ Ev).
  apply dtls_moves_same in Hs2 as [M2 S2]. rewrite E1 in M2, S2. cbn [state with_ssl with_state] in S2.
  assert (M : dtls_moves (dtls w) (dtls w2)).
  { eapply dtls_moves_trans; [exact M1|]. eapply dtls_moves_trans; [|exact M2].
    refine (proj1 (dtls_moves_same _ _ (same_but_ssl_set _ x x' _))). done. }
  assert (is_Some (ssl (dtls w2))) as Hx2 by (apply (dm_ssl _ _ M); eauto).
  destruct hs.
  - unfold modify. eexists _, _. split; [done|]. rewrite dtls_set. split; [|by right].
    eapply dtls_moves_trans; [exact M|by apply dtls_moves_state].
  - eexists _, _. split; [done|]. auto.
  - rewrite st_bind_eq. unfold modify. cbv beta iota. eexists _, _. split; [done|]. rewrite dtls_set.
    split; [|done]. eapply dtls_moves_trans; [exact M|by apply dtls_moves_state].
Qed.

Lemma feed_run data w :
  exists w', feed dtls set_dtls data w = (w', Ok ()) /\ same_but_ssl (dtls w) (dtls w').
Proof.
  unfold feed. destruct (ssl (dtls w)) as [x|] eqn:E.
  - eexists. split; [done|]. rewrite dtls_set. by eapply same_but_ssl_set.
  - eexists. split; [done|]. apply same_but_ssl_refl.
Qed.

(** A received record never uses a connection that does not exist. *)
Lemma recv_run data w :
  dtls_ok (dtls w) ->
  exists w' r, rtc_dtls_recv dtls set_dtls send data w = (w', r) /\ no_fault r /\ dtls_moves (dtls w) (dtls w') /\
    (state (dtls w) = RTC_DTLS_STATE_FAILED \/ state (dtls w) = RTC_DTLS_STATE_CLOSED ->
     state (dtls w') = state (dtls w)).
Proof.
  intros Hok. unfold rtc_dtls_recv. destruct (feed_run data w) as (w1 & E1 & Hs1).
  rewrite (st_bind_run _ _ _ _ _ E1). rewrite st_bind_eq. cbn [get].
  apply dtls_moves_same in Hs1 as [M1 S1]. pose proof (dm_ok _ _ M1 Hok) as [Hssl _ _ _ _].
  assert (F : exists w', void (dtls_flush_wbio dtls set_dtls send) w1 = (w', Ok ()) /\
    dtls_moves (dtls w) (dtls w') /\ state (dtls w') = state (dtls w)).
  { destruct (void_flush_run w1) as (w2 & E2 & Hs2). apply dtls_moves_same in Hs2 as [M2 S2].
    exists w2. split; [done|]. split; [by eapply dtls_moves_trans|congruence]. }
  rewrite S1 in *. destruct (state (dtls w)) eqn:S; try (destruct F as (w2 & E2 & M2 & S2); by exists w2, (Ok ()));
    (destruct (handshake_run w1) as (w2 & r & E2 & M2 & Hr); [by apply Hssl|];
     exists w2, r; split; [done|]; split; [by destruct r|]; split; [by eapply dtls_moves_trans|by intros [?|?]]).
Qed.
End Flush.

(** ** Keying material *)

Section Export.
Context {X : Type} {ops : OpenSsl X} {laws : OpenSslLaws X}.

(** client key, server key, client salt, server salt (RFC 5764, 4.2) *)
Record material := Material { m_client_key : bytes; m_server_key : bytes; m_client_salt : bytes; m_server_salt : bytes }.

Definition split_material (kl sl : nat) (d : bytes) : material :=
  Material (take kl d) (take kl (drop kl d)) (take sl (drop (2 * kl) d)) (take sl (drop (2 * kl + sl) d)).

Record material_ok (kl sl : Z) (m : material) : Prop := {
  mo_client_key : blen (m_client_key m) = kl;
  mo_server_key : blen (m_server_key m) = kl;
  mo_client_salt : blen (m_client_salt m) = sl;
  mo_server_salt : blen (m_server_salt m) = sl
}.

Lemma split_material_ok kl sl d :
  0 <= kl -> 0 <= sl -> blen d = 2 * (kl + sl) -> material_ok kl sl (split_material (Z.to_nat kl) (Z.to_nat sl) d).
Proof. intros Hk Hs Hd. unfold blen in *. constructor; cbn; unfold blen; rewrite length_take, ?length_drop; lia. Qed.

Lemma profile_lengths_range p :
  let '(g, kl, sl) := profile_lengths p in
  (kl = 16 \/ kl = 32) /\ 12 <= sl <= 14 /\ (g = false -> kl = 16).
Proof. destruct p as [[]|]; cbn; unfold RTC_SRTP_MASTER_KEY_LEN, RTC_SRTP_MASTER_SALT_LEN; repeat split; auto; lia. Qed.

Lemma export_run d x g kl sl mat :
  state d = RTC_DTLS_STATE_CONNECTED -> ssl d = Some x -> profile_lengths (ssl_srtp_profile x) = (g, kl, sl) ->
  ssl_export x (2 * (kl + sl)) EXPORTER_LABEL = Some mat ->
  let m := split_material (Z.to_nat kl) (Z.to_nat sl) mat in
  material_ok kl sl m /\
  rtc_dtls_export_srtp_keys d =
    (with_keys (with_gcm d g) (overlay (m_client_key m) (srtp_client_key d)) (overlay (m_client_salt m) (srtp_client_salt d))
       (overlay (m_server_key m) (srtp_server_key d)) (overlay (m_server_salt m) (srtp_server_salt d)) kl sl, Ok ()).
Proof.
  intros Hs Hx Hp He. cbv zeta. pose proof (law_export _ _ _ _ He) as Hl.
  pose proof (profile_lengths_range (ssl_srtp_profile x)) as Hr. rewrite Hp in Hr. destruct Hr as (Hk & Hsl & _).
  split; [apply split_material_ok; lia|].
  unfold rtc_dtls_export_srtp_keys. rewrite st_bind_eq. cbn [get]. rewrite bool_decide_eq_true_2 by done. cbn [negb fail_if].
  rewrite (st_bind_lift _ _ _ _ eq_refl), Hx, Hp. rewrite st_bind_eq. cbn [put]. rewrite He.
  rewrite !sub_Ok by lia. rewrite !(st_bind_lift _ _ _ _ eq_refl). unfold put, split_material. cbn.
  replace (Z.to_nat (2 * kl)) with (2 * Z.to_nat kl)%nat by lia.
  by replace (Z.to_nat (2 * kl + sl)) with (2 * Z.to_nat kl + Z.to_nat sl)%nat by lia.
Qed.

Lemma overlay_sub s a : sub (overlay s a) 0 (blen s) = Ok s.
Proof. unfold overlay. by apply (sub_mid [] s). Qed.
End Export.

(** Only the leading bytes of the key buffers enter a context. *)
Lemma init_profile_overlay `{Srtp.Evp} m p k a kl s b sl :
  blen k = kl -> blen s = sl -> kl = 16 \/ kl = 32 -> 0 <= sl <= 14 ->
  Srtp.rtc_srtp_init_profile m p (overlay k a) kl (overlay s b) sl = Srtp.rtc_srtp_init_profile m p k kl s sl.
Proof.
  intros Hk Hs Hkl Hsl. unfold Srtp.rtc_srtp_init_profile, Srtp.SRTP_MAX_KEY_LEN, Srtp.SRTP_MAX_SALT_LEN.
  rewrite (proj2 (Z.ltb_ge 32 kl)), (proj2 (Z.ltb_ge 14 sl)) by lia.
  assert (Ek : sub (overlay k a) 0 kl = sub k 0 kl).
  { rewrite <-Hk, overlay_sub. symmetry. pose proof (sub_mid [] k [] 0 (blen k) eq_refl eq_refl) as E.
    cbn [app] in E. by rewrite app_nil_r in E. }
  assert (Es : sub (overlay s b) 0 sl = sub s 0 sl).
  { rewrite <-Hs, overlay_sub. symmetry. pose proof (sub_mid [] s [] 0 (blen s) eq_refl eq_refl) as E.
    cbn [app] in E. by rewrite app_nil_r in E. }
  assert (Ekdf : forall l n, Srtp.srtp_kdf (overlay k a) kl (overlay s b) sl l n = Srtp.srtp_kdf k kl s sl l n).
  { intros l n. unfold Srtp.srtp_kdf. rewrite (proj2 (Z.ltb_ge 14 sl)) by lia. rewrite Es.
    replace (if 32 <=? kl then 32 else 16) with kl by (destruct Hkl as [-> | ->]; done). by rewrite Ek. }
  rewrite Ek, Es, !Ekdf. done.
Qed.
End Dtls.
