(* ===== verification/Listener.v ===== *)
(** * The shared listener (rtc/src/rtc_listener.c)

    A listener owns the UDP socket and routes datagrams to the transports
    registered with it: STUN requests by the local ufrag of their user name,
    other STUN messages by transaction id, DTLS, RTP and RTCP by the source
    address.  It gathers host candidates from the interfaces and one
    server-reflexive candidate with a STUN request.  A route is the callback
    and user pointer of the source: the listener's own gather handler, or a
    registered user of type [U].  The calls of the application's callbacks
    are recorded, oldest first, in [log].  The two mutexes make every critical
    section one step.  Allocation results are arguments. *)

From Stdlib Require Import String.
From S2P Require Import Prelude Srtp U32Map StrMap Stun Text PacketIo Candidate Sdp.
From Stdlib Require Import ZArith Lia.
From stdpp Require Import base list numbers gmap.
#[local] Open Scope Z_scope.

Module Listener.
Import Stun Text PacketIo Candidate Sdp.

Definition ICE_MAX_CANDIDATES : Z := 16.
Definition STUN_TXN_ID_SIZE : Z := 12.
Definition RTC_WORKER_TIMER_INVALID : Z := 0.

(** [rtc_worker_add_timer] with the callback it is given, and
    [rtc_worker_cancel_timer] *)
Class WorkerTimers (K C : Type) := {
  wk_add_timer : Z -> C -> st K Z;
  wk_cancel_timer : Z -> st K unit
}.

(** the timers of a listener *)
Inductive listener_timer := START_STUN_GATHER | STUN_TIMEOUT.

Inductive rtc_transport_candidate_type_t :=
  | RTC_TRANSPORT_CANDIDATE_HOST | RTC_TRANSPORT_CANDIDATE_SRFLX | RTC_TRANSPORT_CANDIDATE_RELAY.

#[export] Instance transport_candidate_type_eq_dec : EqDecision rtc_transport_candidate_type_t.
Proof. solve_decision. Defined.

Record rtc_transport_candidate_t := TransportCandidate {
  t_foundation : bytes;
  t_address : bytes;
  t_related_address : bytes;
  t_port : Z;
  t_related_port : Z;
  t_protocol : bytes;
  t_type : rtc_transport_candidate_type_t;
  t_has_related_address : bool
}.

Inductive listener_route_t (U : Type) := GATHER | ROUTE (user : U).
Arguments GATHER {U}.
Arguments ROUTE {U} user.

(** the callbacks made *)
Inductive listener_event := OnCandidate (c : rtc_transport_candidate_t) | OnGatheringDone.

Record rtc_listener_t (U : Type) := ListenerState {
  io : rtc_packet_io_t;
  l_candidates : list rtc_transport_candidate_t;
  l_local_addr : rtc_addr_t;
  ufrag_routes : StrMap.rtc_str_map_t (option (listener_route_t U));
  txn_routes : StrMap.rtc_str_map_t (option (listener_route_t U));
  tuple_routes : StrMap.rtc_str_map_t (option (listener_route_t U));
  on_candidate : bool;
  on_gathering_done : bool;
  gathering_complete : bool;
  stun_server : bytes;
  stun_port : Z;
  stun_addr : rtc_addr_t;
  gather_txn_id : bytes;
  gather_txn_registered : bool;
  gather_timer : Z;
  gather_related_addr : rtc_addr_t;
  l_closed : bool;
  packets_unhandled : Z;
  log : list listener_event
}.
Arguments ListenerState {U}. Arguments io {U}. Arguments l_candidates {U}. Arguments l_local_addr {U}.
Arguments ufrag_routes {U}. Arguments txn_routes {U}. Arguments tuple_routes {U}. Arguments on_candidate {U}.
Arguments on_gathering_done {U}. Arguments gathering_complete {U}. Arguments stun_server {U}.
Arguments stun_port {U}. Arguments stun_addr {U}. Arguments gather_txn_id {U}. Arguments gather_txn_registered {U}.
Arguments gather_timer {U}. Arguments gather_related_addr {U}. Arguments l_closed {U}.
Arguments packets_unhandled {U}. Arguments log {U}.

(** which table a registration goes to *)
Inductive table := UFRAG | TXN | TUPLE.

Section Listener.
Context {U : Type}.
Implicit Types l : rtc_listener_t U.

Definition with_io l (x : rtc_packet_io_t) : rtc_listener_t U :=
  ListenerState x (l_candidates l) (l_local_addr l) (ufrag_routes l) (txn_routes l) (tuple_routes l)
    (on_candidate l) (on_gathering_done l) (gathering_complete l) (stun_server l) (stun_port l) (stun_addr l)
    (gather_txn_id l) (gather_txn_registered l) (gather_timer l) (gather_related_addr l) (l_closed l)
    (packets_unhandled l) (log l).
Definition with_cands l (cs : list rtc_transport_candidate_t) (done : bool) (evs : list listener_event)
    : rtc_listener_t U :=
  ListenerState (io l) cs (l_local_addr l) (ufrag_routes l) (txn_routes l) (tuple_routes l)
    (on_candidate l) (on_gathering_done l) done (stun_server l) (stun_port l) (stun_addr l)
    (gather_txn_id l) (gather_txn_registered l) (gather_timer l) (gather_related_addr l) (l_closed l)
    (packets_unhandled l) (log l ++ evs).
Definition with_callbacks l (oc od : bool) (evs : list listener_event) : rtc_listener_t U :=
  ListenerState (io l) (l_candidates l) (l_local_addr l) (ufrag_routes l) (txn_routes l) (tuple_routes l)
    oc od (gathering_complete l) (stun_server l) (stun_port l) (stun_addr l)
    (gather_txn_id l) (gather_txn_registered l) (gather_timer l) (gather_related_addr l) (l_closed l)
    (packets_unhandled l) (log l ++ evs).
Definition with_gather l (sa : rtc_addr_t) (txn : bytes) (reg : bool) (tm : Z) (rel : rtc_addr_t) : rtc_listener_t U :=
  ListenerState (io l) (l_candidates l) (l_local_addr l) (ufrag_routes l) (txn_routes l) (tuple_routes l)
    (on_candidate l) (on_gathering_done l) (gathering_complete l) (stun_server l) (stun_port l) sa
    txn reg tm rel (l_closed l) (packets_unhandled l) (log l).
Definition with_closed l (c : bool) (unhandled : Z) : rtc_listener_t U :=
  ListenerState (io l) (l_candidates l) (l_local_addr l) (ufrag_routes l) (txn_routes l) (tuple_routes l)
    (on_candidate l) (on_gathering_done l) (gathering_complete l) (stun_server l) (stun_port l) (stun_addr l)
    (gather_txn_id l) (gather_txn_registered l) (gather_timer l) (gather_related_addr l) c unhandled (log l).

Definition routes l (t : table) : StrMap.rtc_str_map_t (option (listener_route_t U)) :=
  match t with UFRAG => ufrag_routes l | TXN => txn_routes l | TUPLE => tuple_routes l end.
Definition with_routes l (t : table) (m : StrMap.rtc_str_map_t (option (listener_route_t U))) : rtc_listener_t U :=
  ListenerState (io l) (l_candidates l) (l_local_addr l)
    (match t with UFRAG => m | _ => ufrag_routes l end) (match t with TXN => m | _ => txn_routes l end)
    (match t with TUPLE => m | _ => tuple_routes l end)
    (on_candidate l) (on_gathering_done l) (gathering_complete l) (stun_server l) (stun_port l) (stun_addr l)
    (gather_txn_id l) (gather_txn_registered l) (gather_timer l) (gather_related_addr l) (l_closed l)
    (packets_unhandled l) (log l).

Definition is_wildcard_ip (ip : bytes) : bool :=
  bool_decide (ip = []) || bool_decide (ip = str "0.0.0.0") || bool_decide (ip = str "::").

(** ** Candidates *)

Definition listener_add_candidate (c : rtc_transport_candidate_t) : st (rtc_listener_t U) unit := fun l =>
  if ICE_MAX_CANDIDATES <=? blen (l_candidates l) then (l, Err RTC_ERR_NOMEM)
  else (with_cands l (l_candidates l ++ [c]) (gathering_complete l)
          (if on_candidate l then [OnCandidate c] else []), Ok ()).

Definition listener_mark_gathering_done : st (rtc_listener_t U) unit := fun l =>
  if gathering_complete l then (l, Ok ())
  else (with_cands l (l_candidates l) true (if on_gathering_done l then [OnGatheringDone] else []), Ok ()).

Definition listener_candidate_from_address (foundation address : bytes) (port : Z)
    (ty : rtc_transport_candidate_type_t) : res rtc_transport_candidate_t :=
  _ ← fail_if (port =? 0) RTC_ERR_INVALID;
  Ok (TransportCandidate (cut 32 foundation) (cut 64 address) [] port 0 (str "udp") ty false).

Definition listener_add_host_address (address : bytes) (port : Z) : st (rtc_listener_t U) unit :=
  l ← get;
  c ← lift (listener_candidate_from_address (str "H" ++ sdec (blen (l_candidates l))) address port
              RTC_TRANSPORT_CANDIDATE_HOST);
  listener_add_candidate c.

Definition is_type (ty : rtc_transport_candidate_type_t) (c : rtc_transport_candidate_t) : bool :=
  bool_decide (t_type c = ty).

Definition listener_has_srflx_duplicate_locked l (address : bytes) (port : Z) : bool :=
  existsb (fun c => is_type RTC_TRANSPORT_CANDIDATE_HOST c && (t_port c =? port) &&
                    bool_decide (t_address c = address)) (l_candidates l).

Definition listener_first_host_candidate l : option rtc_transport_candidate_t :=
  List.find (is_type RTC_TRANSPORT_CANDIDATE_HOST) (l_candidates l).

Section Addresses.
Context `{Inet}.

Definition listener_add_srflx_candidate (mapped related : rtc_addr_t) : st (rtc_listener_t U) unit :=
  '(ip, port) ← lift (rtc_addr_to_string mapped 64);
  '(related_ip, related_port) ← lift (rtc_addr_to_string related 64);
  l ← get;
  if listener_has_srflx_duplicate_locked l ip port then mret ()
  else if ICE_MAX_CANDIDATES <=? blen (l_candidates l) then lift (Err RTC_ERR_NOMEM)
  else
    let srflx_index := blen (filter (fun c => is_type RTC_TRANSPORT_CANDIDATE_SRFLX c = true) (l_candidates l)) in
    (* with port 0 the source leaves [cand] uninitialised *)
    _ ← lift (fault_if (port =? 0));
    let c := TransportCandidate (cut 32 (str "S" ++ sdec srflx_index)) (cut 64 ip) (cut 64 related_ip) port
               related_port (str "udp") RTC_TRANSPORT_CANDIDATE_SRFLX true in
    put (with_cands l (l_candidates l ++ [c]) (gathering_complete l)
           (if on_candidate l then [OnCandidate c] else [])).

(** ** Keys *)

Definition hex_digits : bytes := str "0123456789abcdef".

Definition txn_key (txn_id : bytes) : bytes :=
  flat_map (fun b => [nth (Z.to_nat (Z.shiftr b 4)) hex_digits 0; nth (Z.to_nat (Z.land b 15)) hex_digits 0]) txn_id.

(** [sa_family] on Linux *)
Definition sa_family (a : rtc_addr_t) : Z :=
  match a with AF_INET _ _ => 2 | AF_INET6 _ _ => 10 | AF_OTHER => 0 end.

Definition tuple_key (a : rtc_addr_t) (out_len : Z) : res bytes :=
  '(ip, port) ← rtc_addr_to_string a 64;
  let s := sdec (sa_family a) ++ str "|" ++ ip ++ str "|" ++ dec port in
  _ ← fail_if (out_len <=? blen s) RTC_ERR_INVALID;
  Ok s.

(** the part of the user name before the first colon *)
Fixpoint before_colon (s : bytes) : bytes :=
  match s with
  | [] => []
  | x :: s => if x =? 58 then [] else x :: before_colon s
  end.

Definition username_local_ufrag (msg : rtc_stun_msg_t) (out_len : Z) : res bytes :=
  attr ← rtc_stun_find_attr msg STUN_ATTR_USERNAME;
  match attr with
  | None => Err RTC_ERR_INVALID
  | Some a =>
      _ ← fail_if (blen a =? 0) RTC_ERR_INVALID;
      let u := before_colon a in
      _ ← fail_if (blen u =? 0) RTC_ERR_INVALID;
      Ok (cstr (take (Z.to_nat (out_len - 1)) u))
  end.

(** ** Routes *)

(** the outcome of the allocations of a registration *)
Record allocs := Allocs { a_route : bool; a_map : bool; a_key : bool }.

Definition listener_lookup_route l (t : table) (key : bytes) : res (option (listener_route_t U)) :=
  StrMap.rtc_str_map_get None (routes l t) key.

Definition listener_register_route (al : allocs) (t : table) (key : bytes) (r : listener_route_t U)
    : st (rtc_listener_t U) unit := fun l =>
  if negb (a_route al) then (l, Err RTC_ERR_NOMEM) else
  let '(m, rc) := StrMap.rtc_str_map_set None (a_map al) (a_key al) key (Some r) (routes l t) in
  (with_routes l t m, rc).

Definition listener_unregister_route (al : allocs) (t : table) (key : bytes) : st (rtc_listener_t U) unit := fun l =>
  let '(m, rc) := StrMap.rtc_str_map_remove None (a_map al) key (routes l t) in
  (with_routes l t m, match rc with Fault => Fault | _ => Ok () end).

Definition rtc_listener_register_ufrag (al : allocs) (ufrag : bytes) (u : U) : st (rtc_listener_t U) unit :=
  listener_register_route al UFRAG ufrag (ROUTE u).
Definition rtc_listener_unregister_ufrag (al : allocs) (ufrag : bytes) : st (rtc_listener_t U) unit :=
  listener_unregister_route al UFRAG ufrag.
Definition rtc_listener_register_stun_txn (al : allocs) (txn_id : bytes) (r : listener_route_t U)
    : st (rtc_listener_t U) unit :=
  listener_register_route al TXN (txn_key txn_id) r.
Definition rtc_listener_unregister_stun_txn (al : allocs) (txn_id : bytes) : st (rtc_listener_t U) unit :=
  listener_unregister_route al TXN (txn_key txn_id).
Definition rtc_listener_register_tuple (al : allocs) (remote : rtc_addr_t) (u : U) : st (rtc_listener_t U) unit :=
  key ← lift (tuple_key remote 128);
  listener_register_route al TUPLE key (ROUTE u).
Definition rtc_listener_unregister_tuple (al : allocs) (remote : rtc_addr_t) : st (rtc_listener_t U) unit :=
  key ← lift (attempt (tuple_key remote 128));
  match key with
  | None => mret ()
  | Some key => listener_unregister_route al TUPLE key
  end.

Definition rtc_listener_send_to `{Kernel} (data : bytes) (dest : rtc_addr_t) : st (rtc_listener_t U) unit :=
  zoom io with_io (rtc_packet_io_send data dest).

(** ** Inbound datagrams *)

(** the route of a STUN message *)
Definition listener_route_stun l (data : bytes) : res (option (listener_route_t U)) :=
  o ← attempt (rtc_stun_parse data);
  match o with
  | None => Ok None
  | Some msg =>
      by_ufrag ←
        (if Stun.type msg =? STUN_BINDING_REQUEST then
           u ← attempt (username_local_ufrag msg 128);
           match u with
           | Some ufrag => listener_lookup_route l UFRAG ufrag
           | None => Ok None
           end
         else Ok None);
      match by_ufrag with
      | Some r => Ok (Some r)
      | None => listener_lookup_route l TXN (txn_key (txn_id msg))
      end
  end.

Definition listener_route_tuple l (from : rtc_addr_t) : res (option (listener_route_t U)) :=
  o ← attempt (tuple_key from 128);
  match o with
  | None => Ok None
  | Some key => listener_lookup_route l TUPLE key
  end.

Definition listener_route l (ty : rtc_pkt_type_t) (data : bytes) (from : rtc_addr_t)
    : res (option (listener_route_t U)) :=
  match ty with
  | RTC_PKT_STUN => listener_route_stun l data
  | RTC_PKT_DTLS | RTC_PKT_RTP | RTC_PKT_RTCP => listener_route_tuple l from
  | _ => Ok None
  end.

(** ** Gathering *)

(** [getaddrinfo] for an IPv4 datagram socket: the first address found *)
Class Resolver := getaddrinfo : bytes -> Z -> option rtc_addr_t.

Definition listener_resolve_addr `{Resolver} (server : bytes) (port : Z) : res rtc_addr_t :=
  match rtc_addr_from_string server port with
  | Ok a => Ok a
  | Err _ => match getaddrinfo server port with Some a => Ok a | None => Err RTC_ERR_INVALID end
  | Fault => Fault
  end.

Section Gather.
Context {K : Type} `{!WorkerTimers K listener_timer} `{!Kernel} `{!Resolver}.

(** a call on the listener, or on its worker *)
Definition on_listener {A} (f : st (rtc_listener_t U) A) : st (rtc_listener_t U * K) A :=
  zoom fst (fun p l => (l, p.2)) f.
Definition on_worker {A} (f : st K A) : st (rtc_listener_t U * K) A :=
  zoom snd (fun p k => (p.1, k)) f.

Definition set_gather_timer (tm : Z) : st (rtc_listener_t U * K) unit :=
  on_listener (modify (fun l => with_gather l (stun_addr l) (gather_txn_id l) (gather_txn_registered l) tm
                                  (gather_related_addr l))).

Definition listener_cancel_gather (al : allocs) : st (rtc_listener_t U * K) unit :=
  '(l, _) ← get;
  _ ← (if negb (gather_timer l =? RTC_WORKER_TIMER_INVALID) then
         _ ← on_worker (wk_cancel_timer (gather_timer l));
         set_gather_timer RTC_WORKER_TIMER_INVALID
       else mret ());
  if gather_txn_registered l then
    _ ← on_listener (rtc_listener_unregister_stun_txn al (gather_txn_id l));
    on_listener (modify (fun l => with_gather l (stun_addr l) (gather_txn_id l) false (gather_timer l)
                                    (gather_related_addr l)))
  else mret ().

Definition listener_stun_timeout (al : allocs) : st (rtc_listener_t U * K) unit :=
  _ ← set_gather_timer RTC_WORKER_TIMER_INVALID;
  _ ← listener_cancel_gather al;
  on_listener listener_mark_gathering_done.

Definition listener_on_stun_gather_packet (al : allocs) (data : bytes) : st (rtc_listener_t U * K) unit :=
  o ← lift (attempt (rtc_stun_parse data));
  match o with
  | None => mret ()
  | Some msg =>
      if negb (Stun.type msg =? STUN_BINDING_RESPONSE) then mret () else
      _ ← listener_cancel_gather al;
      mapped ← lift (attempt (rtc_stun_get_mapped_address msg));
      _ ← (match mapped with
           | Some a =>
               '(l, _) ← get;
               void (on_listener (listener_add_srflx_candidate a (gather_related_addr l)))
           | None => mret ()
           end);
      on_listener listener_mark_gathering_done
  end.

(** [txn]: the random transaction id; [now]: rtc_time_ms *)
Definition listener_start_stun_gather `{!Srtp.Evp} `{!StunEnv} (al : allocs) (txn : bytes) (now : Z)
    : st (rtc_listener_t U * K) unit :=
  _ ← set_gather_timer RTC_WORKER_TIMER_INVALID;
  '(l, _) ← get;
  if l_closed l then mret () else
  let done := on_listener listener_mark_gathering_done in
  if bool_decide (stun_server l = []) then done else
  match listener_first_host_candidate l with
  | None => done
  | Some host =>
      related ← lift (attempt (rtc_addr_from_string (t_address host) (t_port host)));
      match related with
      | None => done
      | Some related =>
          _ ← on_listener (modify (fun l => with_gather l (stun_addr l) (gather_txn_id l) (gather_txn_registered l)
                                              (gather_timer l) related));
          server ← lift (attempt (listener_resolve_addr (stun_server l) (stun_port l)));
          match server with
          | None => done
          | Some server =>
              _ ← on_listener (modify (fun l => with_gather l server (gather_txn_id l) (gather_txn_registered l)
                                                  (gather_timer l) (gather_related_addr l)));
              req ← lift (attempt (rtc_stun_build_binding_request txn None None 0 false 0 false));
              match req with
              | None => done
              | Some req =>
                  _ ← on_listener (modify (fun l => with_gather l (stun_addr l) (txn_id req)
                                                      (gather_txn_registered l) (gather_timer l)
                                                      (gather_related_addr l)));
                  reg ← st_attempt (on_listener (rtc_listener_register_stun_txn al (txn_id req) GATHER));
                  match reg with
                  | None => done
                  | Some _ =>
                      _ ← on_listener (modify (fun l => with_gather l (stun_addr l) (gather_txn_id l) true
                                                          (gather_timer l) (gather_related_addr l)));
                      sent ← st_attempt (on_listener (rtc_listener_send_to (buf req) server));
                      match sent with
                      | None => _ ← listener_cancel_gather al; done
                      | Some _ =>
                          tm ← on_worker (wk_add_timer (u64 (now + 3000)) STUN_TIMEOUT);
                          set_gather_timer tm
                      end
                  end
              end
          end
      end
  end.

(** an entry of [getifaddrs] *)
Record iface := Iface { if_addr : option rtc_addr_t; if_loopback : bool; if_up : bool }.

Record rtc_listener_config_t := ListenerConfig {
  listen_ip : bytes;
  announced_ip : bytes;
  udp_port : Z;
  enable_udp : bool;
  enable_tcp : bool;
  c_stun_server : bytes;
  c_stun_port : Z
}.

(** [ifs]: the interfaces, [None] when getifaddrs fails; a missing
    configuration is the one with empty strings and zeros *)
Definition listener_gather_host_candidates (ifs : option (list iface)) (cfg : rtc_listener_config_t)
    : st (rtc_listener_t U) unit :=
  l ← get;
  '(ip, port) ← lift (rtc_addr_to_string (l_local_addr l) 64);
  if negb (bool_decide (announced_ip cfg = [])) then listener_add_host_address (announced_ip cfg) port
  else if negb (is_wildcard_ip (listen_ip cfg)) then listener_add_host_address (listen_ip cfg) port
  else
    match ifs with
    | None => lift (Err RTC_ERR_SOCKET)
    | Some ifs =>
        _ ← st_each (fun ifa =>
              match if_addr ifa with
              | Some (AF_INET _ a) =>
                  if if_loopback ifa || negb (if_up ifa) then mret ()
                  else void (listener_add_host_address (inet_ntop4 a) port)
              | _ => mret ()
              end) ifs;
        l ← get;
        if blen (l_candidates l) =? 0 then
          listener_add_host_address (if is_wildcard_ip ip then str "127.0.0.1" else ip) port
        else mret ()
    end.

(** the listener after calloc and the initialisation of its maps *)
Definition listener_zero (cfg : rtc_listener_config_t) (x : rtc_packet_io_t) : rtc_listener_t U :=
  ListenerState x [] (local_addr x) StrMap.rtc_str_map_init_owned StrMap.rtc_str_map_init_owned
    StrMap.rtc_str_map_init_owned false false false (cut 256 (c_stun_server cfg))
    (if c_stun_port cfg =? 0 then 3478 else c_stun_port cfg) AF_OTHER (replicate 12 0) false
    RTC_WORKER_TIMER_INVALID AF_OTHER false 0 [].

(** [alloc]: calloc and the mutexes; [added]: rtc_worker_add_io *)
Definition rtc_listener_create (alloc : bool) (env : init_env) (ifs : option (list iface)) (added : bool)
    (now : Z) (cfg : rtc_listener_config_t) : st K (option (rtc_listener_t U)) :=
  let enable := enable_udp cfg || negb (enable_tcp cfg) in
  if negb enable || enable_tcp cfg then mret None
  else if negb alloc then mret None
  else
    x ← lift (attempt (rtc_packet_io_init_ex env (listen_ip cfg) (udp_port cfg) true));
    match x with
    | None => mret None
    | Some x =>
        match listener_gather_host_candidates ifs cfg (listener_zero cfg x) with
        | (_, Fault) => lift Fault
        | (_, Err _) => mret None
        | (l, Ok _) =>
            if negb added then mret None
            else if negb (bool_decide (stun_server l = [])) then
              tm ← wk_add_timer now START_STUN_GATHER;
              mret (Some (with_gather l (stun_addr l) (gather_txn_id l) (gather_txn_registered l) tm
                            (gather_related_addr l)))
            else mret (Some (listener_mark_gathering_done l).1)
        end
    end.

(** [rtc_worker_remove_io] ends the polling of the socket *)
Definition rtc_listener_close (al : allocs) : st (rtc_listener_t U * K) unit :=
  '(l, _) ← get;
  if l_closed l then mret () else
  _ ← on_listener (modify (fun l => with_closed l true (packets_unhandled l)));
  _ ← listener_cancel_gather al;
  on_listener (modify (fun l => with_io l (rtc_packet_io_close (io l)))).
End Gather.

(** ** Queries and callbacks *)

(** the array is written only up to its capacity *)
Definition rtc_listener_get_candidates l (capacity : Z) : list rtc_transport_candidate_t * Z * res unit :=
  let actual := blen (l_candidates l) in
  (take (Z.to_nat (Z.min capacity actual)) (l_candidates l), actual,
   if capacity <? actual then Err RTC_ERR_NOMEM else Ok ()).

Definition rtc_listener_gathering_complete l : bool := gathering_complete l.
Definition rtc_listener_get_local_addr l : rtc_addr_t := l_local_addr l.

Definition rtc_listener_set_on_candidate (fn : bool) l : rtc_listener_t U :=
  with_callbacks l fn (on_gathering_done l) (if fn then OnCandidate <$> l_candidates l else []).
Definition rtc_listener_set_on_gathering_done (fn : bool) l : rtc_listener_t U :=
  with_callbacks l (on_candidate l) fn (if fn && gathering_complete l then [OnGatheringDone] else []).

Definition listener_ice_type (ty : rtc_transport_candidate_type_t) : rtc_ice_candidate_type_t :=
  match ty with
  | RTC_TRANSPORT_CANDIDATE_SRFLX => ICE_CANDIDATE_SRFLX
  | RTC_TRANSPORT_CANDIDATE_RELAY => ICE_CANDIDATE_RELAY
  | RTC_TRANSPORT_CANDIDATE_HOST => ICE_CANDIDATE_HOST
  end.

Definition rtc_listener_candidate_to_ice (c : rtc_transport_candidate_t) (local_pref : Z) : res rtc_ice_candidate_t :=
  let ty := listener_ice_type (t_type c) in
  a ← rtc_addr_from_string (t_address c) (t_port c);
  let out := Candidate ty a AF_OTHER (rtc_ice_candidate_priority ty local_pref 1) 1 false
               (cut 32 (t_foundation c)) in
  if t_has_related_address c then
    r ← rtc_addr_from_string (t_related_address c) (t_related_port c);
    Ok (with_related out r)
  else Ok out.

(** the local preference counts down per type *)
Fixpoint fill_loop (alloc : bool) (host_index srflx_index : Z) (cs : list rtc_transport_candidate_t)
    : st rtc_sdp_t unit :=
  match cs with
  | [] => mret ()
  | c :: cs =>
      let ty := listener_ice_type (t_type c) in
      let pref := match ty with
                  | ICE_CANDIDATE_HOST => 65535 - host_index
                  | ICE_CANDIDATE_SRFLX => 65535 - srflx_index
                  | ICE_CANDIDATE_RELAY => 65535
                  end in
      ice ← lift (rtc_listener_candidate_to_ice c pref);
      _ ← rtc_sdp_add_candidate alloc ice;
      fill_loop alloc
        (match ty with ICE_CANDIDATE_HOST => host_index + 1 | _ => host_index end)
        (match ty with ICE_CANDIDATE_SRFLX => srflx_index + 1 | _ => srflx_index end) cs
  end.

Definition rtc_listener_fill_sdp_candidates (alloc : bool) l : st rtc_sdp_t unit :=
  let '(cs, count, _) := rtc_listener_get_candidates l ICE_MAX_CANDIDATES in
  _ ← lift (fault_if (blen cs <? count));
  fill_loop alloc 0 0 cs.

Record rtc_listener_stats_t := ListenerStats {
  ls_closed : bool; ls_local_addr : rtc_addr_t; ls_packets_received : Z; ls_bytes_received : Z;
  ls_packets_sent : Z; ls_bytes_sent : Z; ls_packets_unhandled : Z
}.

Definition rtc_listener_get_stats l : rtc_listener_stats_t :=
  ListenerStats (l_closed l) (l_local_addr l) (pkts_recv (io l)) (bytes_recv (io l)) (pkts_sent (io l))
    (bytes_sent (io l)) (packets_unhandled l).

(** ** Dispatch

    The listener is a part of the world [W] the callbacks act on. *)

Section Dispatch.
Context {W : Type} (lis : W -> rtc_listener_t U) (set_lis : W -> rtc_listener_t U -> W).
Context (cb : listener_route_t U -> rtc_pkt_type_t -> bytes -> rtc_addr_t -> st W unit).

Definition listener_on_packet (ty : rtc_pkt_type_t) (data : bytes) (from : rtc_addr_t) : st W unit :=
  w ← get;
  r ← lift (listener_route (lis w) ty data from);
  match r with
  | Some r => void (cb r ty data from)
  | None => modify (fun w => set_lis w (with_closed (lis w) (l_closed (lis w)) (u64 (packets_unhandled (lis w) + 1))))
  end.

(** the socket is readable: [slots] is what recvmmsg delivers *)
Definition listener_io_ready (slots : list slot) : st W unit :=
  void (rtc_packet_io_drain (fun w => io (lis w)) (fun w x => set_lis w (with_io (lis w) x))
          listener_on_packet slots).
End Dispatch.
End Addresses.
End Listener.
End Listener.
