(* ===== verification/ListenerSpec.v ===== *)
(** * The listener refines a map from keys to routes

    The three hash tables of a listener, keyed by printed strings, implement
    one finite map whose keys are local ufrags, transaction ids and remote
    addresses.  The printed keys are injective, so registrations of different
    transports never interfere. *)

From Stdlib Require Import String.
From S2P Require Import Prelude Srtp U32Map StrMap Stun StunSpec Text PacketIo Candidate Sdp InetModel Listener.
From Stdlib Require Import ZArith Lia.
From stdpp Require Import base list numbers gmap.
#[local] Open Scope Z_scope.

Module ListenerSpec.
Import Stun Text PacketIo Candidate Sdp Listener.

(** ** Printed keys are injective *)

Lemma sep_inj {A} (x : A) a b c d :
  Forall (fun y => y <> x) a -> Forall (fun y => y <> x) b -> a ++ x :: c = b ++ x :: d -> a = b /\ c = d.
Proof.
  intros Ha. revert b. induction Ha as [|y a Hy _ IH]; intros [|z b] Hb E; cbn in E.
  - by injection E as ->.
  - injection E as -> _. by apply Forall_cons_1 in Hb as [? _].
  - by injection E as -> _.
  - injection E as -> E. apply Forall_cons_1 in Hb as [_ Hb]. by destruct (IH b Hb E) as [-> ->].
Qed.

Lemma hex_digit_inj i j :
  (i < 16)%nat -> (j < 16)%nat -> nth i hex_digits 0 = nth j hex_digits 0 -> i = j.
Proof.
  intros Hi Hj E. assert (NoDup hex_digits) as Hnd by by apply (bool_decide_eq_true_1 (NoDup hex_digits)).
  apply (proj1 (NoDup_nth hex_digits 0)) in E; try done. by apply NoDup_ListNoDup.
Qed.

Lemma txn_key_inj a b : bytes_ok a -> bytes_ok b -> txn_key a = txn_key b -> a = b.
Proof.
  intros Ha. revert b. induction Ha as [|x a Hx _ IH]; intros [|y b] Hb E; try done.
  apply Forall_cons_1 in Hb as [Hy Hb]. cbn [txn_key flat_map app] in E. injection E as E1 E2 E3.
  rewrite (IH b Hb E3). f_equal. unfold byte_ok in *.
  assert (forall z, 0 <= z < 256 -> Z.shiftr z 4 = z / 16 /\ Z.land z 15 = z mod 16) as Hz.
  { intros z Hz. rewrite Z.shiftr_div_pow2 by lia. change 15 with (Z.ones 4). by rewrite Z.land_ones by lia. }
  destruct (Hz x Hx) as [Ex1 Ex2], (Hz y Hy) as [Ey1 Ey2]. rewrite Ex1, Ey1 in E1. rewrite Ex2, Ey2 in E2.
  apply hex_digit_inj in E1; [|dlia..]. apply hex_digit_inj in E2; [|dlia..]. dlia.
Qed.

Section Keys.
Context `{InetLaws}.

Lemma inet_no_bar t : Forall inet_char t -> Forall (fun b => b <> 124) t.
Proof.
  intros Hc. eapply Forall_impl; [exact Hc|]. intros b Hb -> . cbn in Hb.
  destruct Hb as [Hb|[Hb|[Hb|Hb]]]; try done. lia.
Qed.

(** every address has a key, and different addresses have different keys *)
Lemma tuple_key_ok a : addr_ok a -> exists k, tuple_key a 128 = Ok k.
Proof.
  intros Ha. destruct (addr_text a Ha) as (t & p & Et & _ & Hp & Hl & _). unfold tuple_key. rewrite Et.
  cbn [mbind res_bind]. rewrite (proj2 (Z.leb_gt 128 _)); [by eexists|].
  pose proof (dec_length 5 p). unfold port_ok in Hp. rewrite !blen_app. change (blen (str "|")) with 1.
  assert (blen (sdec (sa_family a)) <= 2) by (by destruct a). unfold blen in *. cbn in *. lia.
Qed.

Lemma tuple_key_inj a b k :
  addr_ok a -> addr_ok b -> tuple_key a 128 = Ok k -> tuple_key b 128 = Ok k -> a = b.
Proof.
  intros Ha Hb. destruct (addr_text a Ha) as (t & p & Et & Ef & Hp & _ & Hc).
  destruct (addr_text b Hb) as (t' & p' & Et' & Ef' & Hp' & _ & Hc'). unfold tuple_key. rewrite Et, Et'.
  cbn [mbind res_bind]. intros ([] & _ & Ek)%bind_Ok ([] & _ & Ek')%bind_Ok.
  apply Ok_inj in Ek as <-. apply Ok_inj in Ek'. change (str "|" ++ ?x) with (124 :: x) in Ek'.
  apply sep_inj in Ek' as [_ E]; [|by destruct b; repeat constructor|by destruct a; repeat constructor].
  change (str "|" ++ ?x) with (124 :: x) in E.
  apply sep_inj in E as [-> E]; [|by apply inet_no_bar..]. unfold port_ok in *.
  apply dec_inj in E as ->; [|lia..]. congruence.
Qed.
End Keys.

(** ** The abstract map *)

(** what a registration is made for *)
Inductive rkey := KUfrag (ufrag : bytes) | KTxn (txn_id : bytes) | KTuple (remote : rtc_addr_t).

#[export] Instance rkey_eq_dec : EqDecision rkey.
Proof. solve_decision. Defined.

Definition key_ok (k : rkey) : Prop :=
  match k with KUfrag _ => True | KTxn t => bytes_ok t | KTuple a => addr_ok a end.

Definition key_table (k : rkey) : table :=
  match k with KUfrag _ => UFRAG | KTxn _ => TXN | KTuple _ => TUPLE end.

(** a call of one of the six registration functions *)
Inductive route_op (U : Type) := Register (al : allocs) (k : rkey) (u : U) | Unregister (al : allocs) (k : rkey).
Arguments Register {U}. Arguments Unregister {U}.

Definition op_key {U} (o : route_op U) : rkey := match o with Register _ k _ | Unregister _ k => k end.

Section Spec.
Context `{InetLaws} {U : Type}.
Implicit Types (l : rtc_listener_t U) (m : rkey -> option (listener_route_t U)).

Definition do_op (o : route_op U) : st (rtc_listener_t U) unit :=
  match o with
  | Register al (KUfrag f) u => rtc_listener_register_ufrag al f u
  | Register al (KTxn t) u => rtc_listener_register_stun_txn al t (ROUTE u)
  | Register al (KTuple a) u => rtc_listener_register_tuple al a u
  | Unregister al (KUfrag f) => rtc_listener_unregister_ufrag al f
  | Unregister al (KTxn t) => rtc_listener_unregister_stun_txn al t
  | Unregister al (KTuple a) => rtc_listener_unregister_tuple al a
  end.

(** the specification: the last successful call for a key decides *)
Definition upd m (k : rkey) (r : option (listener_route_t U)) : rkey -> option (listener_route_t U) :=
  fun k' => if decide (k' = k) then r else m k'.

Definition spec_op m (o : route_op U) (r : res unit) : rkey -> option (listener_route_t U) :=
  match o, r with
  | Register _ k u, Ok _ => upd m k (Some (ROUTE u))
  | Unregister _ k, _ => upd m k None
  | _, _ => m
  end.

Fixpoint do_ops (os : list (route_op U)) l : rtc_listener_t U * list (res unit) :=
  match os with
  | [] => (l, [])
  | o :: os =>
      let '(l, r) := do_op o l in
      let '(l, rs) := do_ops os l in (l, r :: rs)
  end.

Fixpoint spec_ops m (os : list (route_op U)) (rs : list (res unit)) : rkey -> option (listener_route_t U) :=
  match os, rs with
  | o :: os, r :: rs => spec_ops (spec_op m o r) os rs
  | _, _ => m
  end.

(** where a datagram goes *)
Definition abs_route m (ty : rtc_pkt_type_t) (data : bytes) (from : rtc_addr_t) : option (listener_route_t U) :=
  match ty with
  | RTC_PKT_STUN =>
      match rtc_stun_parse data with
      | Ok msg =>
          let by_ufrag := if Stun.type msg =? STUN_BINDING_REQUEST then
                            match username_local_ufrag msg 128 with Ok f => m (KUfrag f) | _ => None end
                          else None in
          match by_ufrag with Some r => Some r | None => m (KTxn (txn_id msg)) end
      | _ => None
      end
  | RTC_PKT_DTLS | RTC_PKT_RTP | RTC_PKT_RTCP => m (KTuple from)
  | _ => None
  end.

(** ** Refinement *)

(** the string a key is stored under *)
Definition key_text (k : rkey) : res bytes :=
  match k with KUfrag f => Ok f | KTxn t => Ok (txn_key t) | KTuple a => tuple_key a 128 end.

Lemma key_text_ok k : key_ok k -> exists s, key_text k = Ok s.
Proof. destruct k; cbn; eauto using tuple_key_ok. Qed.

Lemma key_text_inj k k' s :
  key_ok k -> key_ok k' -> key_table k = key_table k' -> key_text k = Ok s -> key_text k' = Ok s -> k = k'.
Proof.
  destruct k, k'; cbn; try done; intros H1 H2 _.
  - intros E1 E2. congruence.
  - intros [= <-] [= E]. f_equal. by apply txn_key_inj.
  - intros E1 E2. f_equal. by eapply tuple_key_inj.
Qed.

(** the tables of [l] hold the routes of [m] *)
Definition holds l m : Prop :=
  forall t, exists g, StrMap.str_repr (routes l t) g /\
    forall k s, key_ok k -> key_table k = t -> key_text k = Ok s -> m k = mjoin (g !! s).

Lemma holds_lookup l m k s :
  holds l m -> key_ok k -> key_text k = Ok s -> listener_lookup_route l (key_table k) s = Ok (m k).
Proof.
  intros Hl Hk Hs. destruct (Hl (key_table k)) as (g & Hg & Hm). unfold listener_lookup_route.
  rewrite (StrMap.str_get_spec None _ _ _ Hg), (Hm k s) by done. by destruct (g !! s).
Qed.

Lemma holds_init l : (forall t, routes l t = StrMap.rtc_str_map_init_owned) -> holds l (fun _ => None).
Proof.
  intros Hl t. exists ∅. split; [left; rewrite Hl; split; [by exists true|done]|].
  intros k s _ _ _. by rewrite lookup_empty.
Qed.

#[local] Instance table_eq_dec : EqDecision table.
Proof. solve_decision. Defined.

Lemma routes_with l t x t' : routes (with_routes l t x) t' = if decide (t = t') then x else routes l t'.
Proof. by destruct t, t'. Qed.

(** a change of the entry of one key *)
Lemma holds_upd l m k s x v :
  holds l m -> key_ok k -> key_text k = Ok s ->
  (forall g, StrMap.str_repr (routes l (key_table k)) g ->
     StrMap.str_repr x (match v with Some r => <[s := Some r]> g | None => delete s g end)) ->
  holds (with_routes l (key_table k) x) (upd m k v).
Proof.
  intros Hl Hk Hs Hx t. rewrite routes_with. destruct (Hl t) as (g & Hg & Hm).
  destruct (decide (key_table k = t)) as [<-|Hne].
  - eexists. split; [by apply Hx|]. intros k' s' Hk' Ht Hs'. unfold upd. destruct (decide (k' = k)) as [->|Hkk].
    + assert (s' = s) as -> by congruence. destruct v; by rewrite ?lookup_insert_eq, ?lookup_delete_eq.
    + assert (s <> s') by (intros ->; apply Hkk; by eapply key_text_inj).
      rewrite (Hm k' s') by done. destruct v; by rewrite ?lookup_insert_ne, ?lookup_delete_ne by done.
  - exists g. split; [done|]. intros k' s' Hk' Ht Hs'. unfold upd.
    rewrite decide_False by congruence. by apply Hm.
Qed.

(** a table replaced by one with the same contents *)
Lemma holds_same l m k x :
  holds l m -> (forall g, StrMap.str_repr (routes l (key_table k)) g -> StrMap.str_repr x g) ->
  holds (with_routes l (key_table k) x) m.
Proof.
  intros Hl Hx t. rewrite routes_with. destruct (Hl t) as (g & Hg & Hm). exists g. split; [|done].
  destruct (decide _) as [<-|]; [by apply Hx|done].
Qed.

Lemma register_holds l m al k s u l' r :
  holds l m -> key_ok k -> key_text k = Ok s ->
  listener_register_route al (key_table k) s (ROUTE u) l = (l', r) ->
  holds l' (match r with Ok _ => upd m k (Some (ROUTE u)) | _ => m end) /\ no_fault r.
Proof.
  intros Hl Hk Hs. unfold listener_register_route. destruct (a_route al); cbn [negb].
  2: { intros [= <- <-]. done. }
  destruct (Hl (key_table k)) as (g0 & Hg0 & _).
  destruct (StrMap.str_set_spec None _ _ (a_map al) (a_key al) s (Some (ROUTE u)) Hg0) as (x & [[E _]|[E _]]);
    rewrite E; intros [= <- <-]; split; try done.
  - apply (holds_upd _ _ _ s); [done..|]. intros g Hg.
    destruct (StrMap.str_set_spec None _ _ (a_map al) (a_key al) s (Some (ROUTE u)) Hg) as (x' & [[E' Hx']|[E' _]]);
      rewrite E in E'; congruence.
  - apply holds_same; [done|]. intros g Hg.
    destruct (StrMap.str_set_spec None _ _ (a_map al) (a_key al) s (Some (ROUTE u)) Hg) as (x' & [[E' _]|(E' & Hx' & _)]);
      rewrite E in E'; congruence.
Qed.

Lemma unregister_holds l m al k s l' r :
  holds l m -> key_ok k -> key_text k = Ok s ->
  listener_unregister_route al (key_table k) s l = (l', r) -> holds l' (upd m k None) /\ r = Ok ().
Proof.
  intros Hl Hk Hs. unfold listener_unregister_route. destruct (Hl (key_table k)) as (g0 & Hg0 & _).
  destruct (StrMap.str_remove_spec None _ _ (a_map al) s Hg0) as (x & E & _ & _). rewrite E. intros [= <- <-].
  split; [|done]. apply (holds_upd _ _ _ s); [done..|]. intros g Hg.
  destruct (StrMap.str_remove_spec None _ _ (a_map al) s Hg) as (x' & E' & Hx' & _). congruence.
Qed.

Lemma do_op_holds l m o l' r :
  holds l m -> key_ok (op_key o) -> do_op o l = (l', r) -> holds l' (spec_op m o r) /\ no_fault r.
Proof.
  intros Hl Hk. destruct (key_text_ok _ Hk) as (s & Hs).
  destruct o as [al k u|al k]; cbn [op_key] in *.
  - intros E. assert (listener_register_route al (key_table k) s (ROUTE u) l = (l', r)) as E'.
    { destruct k; cbn [key_text do_op] in *; [by apply Ok_inj in Hs; subst..|]. unfold rtc_listener_register_tuple in E.
      by rewrite (st_bind_lift _ _ _ _ Hs) in E. }
    destruct (register_holds _ _ _ _ _ _ _ _ Hl Hk Hs E') as [Hh Hf]. by destruct r.
  - intros E. assert (listener_unregister_route al (key_table k) s l = (l', r)) as E'.
    { destruct k; cbn [key_text do_op] in *; [by apply Ok_inj in Hs; subst..|]. unfold rtc_listener_unregister_tuple in E.
      rewrite Hs in E. exact E. }
    destruct (unregister_holds _ _ _ _ _ _ _ Hl Hk Hs E') as [Hh ->]. done.
Qed.

Lemma do_ops_holds os : forall l m l' rs,
  holds l m -> Forall (fun o => key_ok (op_key o)) os -> do_ops os l = (l', rs) ->
  holds l' (spec_ops m os rs) /\ Forall no_fault rs.
Proof.
  induction os as [|o os IH]; intros l m l' rs Hl Hos; cbn [do_ops].
  { intros [= <- <-]. by split. }
  apply Forall_cons_1 in Hos as [Ho Hos]. destruct (do_op o l) as [l1 r] eqn:E1.
  destruct (do_ops os l1) as [l2 rs'] eqn:E2. intros [= <- <-].
  destruct (do_op_holds _ _ _ _ _ Hl Ho E1) as [Hl1 Hr].
  destruct (IH _ _ _ _ Hl1 Hos E2) as [Hl2 Hrs]. split; [done|by constructor].
Qed.

Lemma username_no_fault msg n : bytes_ok (buf msg) -> no_fault (username_local_ufrag msg n).
Proof.
  intros Hb. unfold username_local_ufrag. destruct (StunSpec.find_attr_safe msg STUN_ATTR_USERNAME Hb) as (r & -> & _).
  cbn [mbind res_bind]. destruct r; [|done]. repeat (apply no_fault_bind; [apply no_fault_fail_if|intros _ _]). done.
Qed.

Lemma parse_txn data msg : bytes_ok data -> rtc_stun_parse data = Ok msg -> bytes_ok (txn_id msg).
Proof.
  intros Hd. unfold rtc_stun_parse. intros (_ & _ & (ty & _ & (ln & _ & (ck & _ & (_ & _ & (txn & Ht & (_ & _ &
    (b & Hb & [= <-])%bind_Ok)%bind_Ok)%bind_Ok)%bind_Ok)%bind_Ok)%bind_Ok)%bind_Ok)%bind_Ok.
  apply sub_inv in Ht as (_ & _ & _ & ->). by apply Forall_take, Forall_drop.
Qed.

Lemma listener_route_spec l m ty data from :
  holds l m -> bytes_ok data -> addr_ok from -> listener_route l ty data from = Ok (abs_route m ty data from).
Proof.
  intros Hl Hd Hf. assert (Htuple : listener_route_tuple l from = Ok (m (KTuple from))).
  { destruct (tuple_key_ok from Hf) as (k & Ek). unfold listener_route_tuple. rewrite Ek. cbn [attempt mbind res_bind].
    by apply (holds_lookup l m (KTuple from)). }
  destruct ty; try done. cbn [listener_route abs_route]. unfold listener_route_stun.
  pose proof (StunSpec.parse_no_fault data Hd). destruct (rtc_stun_parse data) as [msg|e|] eqn:Ep; [|done..].
  destruct (StunSpec.parse_buf _ _ Hd Ep) as [Hb _]. cbn [attempt mbind res_bind].
  assert (bytes_ok (txn_id msg)) as Htx by exact (parse_txn _ _ Hd Ep).
  assert (by_ufrag : (if Stun.type msg =? STUN_BINDING_REQUEST then
      u ← attempt (username_local_ufrag msg 128);
      match u with Some ufrag => listener_lookup_route l UFRAG ufrag | None => Ok None end
    else Ok None) = Ok (if Stun.type msg =? STUN_BINDING_REQUEST then
      match username_local_ufrag msg 128 with Ok f => m (KUfrag f) | _ => None end else None)).
  { destruct (_ =? _); [|done]. pose proof (username_no_fault msg 128 Hb).
    destruct (username_local_ufrag msg 128) as [f|e|]; [|done..]. cbn [attempt mbind res_bind].
    by apply (holds_lookup l m (KUfrag f)). }
  rewrite by_ufrag. cbn [mbind res_bind]. cbv zeta.
  match goal with |- context [match ?o with Some r => Ok (Some r) | None => _ end] => destruct o; [done|] end.
  by apply (holds_lookup l m (KTxn (txn_id msg))).
Qed.

(** C14: on every sequence of registrations and removals of local ufrags,
    transaction ids and remote addresses, with any allocation failures, the
    listener hands every datagram to the transport that the abstract map of
    successful registrations names for it (ufrag of the user name of a
    Binding Request first, then transaction id; source address for DTLS, RTP
    and RTCP), and counts it as unhandled when there is none. *)
Theorem listener_refines_route_map l0 os l rs {W} (lis : W -> rtc_listener_t U)
    (set_lis : W -> rtc_listener_t U -> W) cb w ty data from :
  (forall t, routes l0 t = StrMap.rtc_str_map_init_owned) ->
  Forall (fun o => key_ok (op_key o)) os -> do_ops os l0 = (l, rs) ->
  lis w = l -> bytes_ok data -> addr_ok from ->
  Forall no_fault rs /\
  listener_on_packet lis set_lis cb ty data from w =
    match abs_route (spec_ops (fun _ => None) os rs) ty data from with
    | Some r => void (cb r ty data from) w
    | None => (set_lis w (with_closed l (l_closed l) (u64 (packets_unhandled l + 1))), Ok ())
    end.
Proof.
  intros H0' Hos E Hw Hd Hf. destruct (do_ops_holds os _ _ _ _ (holds_init _ H0') Hos E) as [Hl Hrs].
  split; [done|]. unfold listener_on_packet. rewrite st_bind_eq. cbn [get]. rewrite Hw.
  rewrite (st_bind_lift _ _ _ _ (listener_route_spec _ _ _ _ _ Hl Hd Hf)).
  destruct (abs_route _ _ _ _); [done|]. unfold modify. by rewrite Hw.
Qed.
End Spec.

(** ** An example: two transports, one of which leaves *)

Import InetModel.

Definition ex_listener : rtc_listener_t Z :=
  listener_zero (ListenerConfig [] [] 0 true false [] 0)
    (PacketIo.PacketIo (Some 3) (AF_INET6 5000 (replicate 16 0)) true AF_OTHER false 0 0 0 0 0 0 0 0 [] false true []).
Definition ok_allocs : allocs := Allocs true true true.
Definition ex_ops : list (route_op Z) :=
  [Register ok_allocs (KUfrag (str "alice")) 7; Register ok_allocs (KTuple (AF_INET 4000 0x0A000001)) 7;
   Register ok_allocs (KTuple (AF_INET 4000 0x0A000002)) 8; Unregister ok_allocs (KTuple (AF_INET 4000 0x0A000002))].

Lemma listener_refines_route_map_witness :
  let '(l, rs) := do_ops ex_ops ex_listener in
  abs_route (spec_ops (fun _ => None) ex_ops rs) RTC_PKT_RTP [128; 96] (AF_INET 4000 0x0A000001) = Some (ROUTE 7) /\
  abs_route (spec_ops (fun _ => None) ex_ops rs) RTC_PKT_RTP [128; 96] (AF_INET 4000 0x0A000002) = None /\
  Forall no_fault rs /\
  listener_on_packet (fun w => w.1) (fun w l => (l, w.2))
    (fun r _ _ _ => modify (fun w : rtc_listener_t Z * list (listener_route_t Z) => (w.1, w.2 ++ [r])))
    RTC_PKT_RTP [128; 96] (AF_INET 4000 0x0A000001) (l, []) = ((l, [ROUTE 7]), Ok ()).
Proof.
  destruct (do_ops ex_ops ex_listener) as [l rs] eqn:E.
  assert (rs = [Ok (); Ok (); Ok (); Ok ()]) as Ers.
  { apply (f_equal snd) in E. vm_compute in E. congruence. }
  destruct (listener_refines_route_map ex_listener ex_ops l rs (fun w => w.1) (fun w l => (l, w.2))
    (fun r _ _ _ => modify (fun w : rtc_listener_t Z * list (listener_route_t Z) => (w.1, w.2 ++ [r])))
    (l, []) RTC_PKT_RTP [128; 96] (AF_INET 4000 0x0A000001)) as [Hrs Hp].
  - by intros [].
  - apply Forall_cons_2; [done|]. apply Forall_cons_2; [by repeat split|]. apply Forall_cons_2; [by repeat split|].
    apply Forall_cons_2; [by repeat split|by apply Forall_nil].
  - done.
  - done.
  - clear E. apply Forall_cons_2; [done|]. apply Forall_cons_2; [done|by apply Forall_nil].
  - clear E. by repeat split.
  - subst rs. split; [done|]. split; [done|]. split; [exact Hrs|]. exact Hp.
Defined.
End ListenerSpec.
