(* ===== verification/Transport.v ===== *)
(** * The endpoint transport (rtc/src/rtc_transport.c)

    A transport joins ICE checks, the DTLS endpoint, the two SRTP contexts,
    the RTP demultiplexer and transport-wide congestion control on top of a
    listener and a worker.  The fields of [struct rtc_transport] are grouped in
    records; a registered callback is a flag, and what the callbacks do is the
    interface [AppHooks] on the whole world [world], so that they can call the
    transport again.  [self] is the pointer the transport registers with the
    listener.  The public operations run their [tx_*_impl] on the worker thread
    and wait for it; they are modelled as the call.  [env] holds what clock,
    allocator and random source answer during a call.  TWCC is compiled in. *)

From Stdlib Require Import String.
From S2P Require Import Prelude Bwe Srtp RtpExt Rtp Rtcp Twcc U32Map RtpDemux Stun Text PacketIo Candidate Sdp.
From S2P Require Import Dtls Listener.
From Stdlib Require Import ZArith Lia.
From stdpp Require Import base list numbers gmap.
#[local] Open Scope Z_scope.

Module Transport.
Import Stun Text PacketIo Listener.

Definition SRTP_MAX_PACKET : Z := 1500.
Definition ICE_UFRAG_LEN : Z := 8.
Definition ICE_PWD_LEN : Z := 24.
Definition RTC_TRANSPORT_RTCP_PROTECT_OVERHEAD : Z := 20.

Inductive rtc_ice_mode_t := RTC_ICE_MODE_FULL | RTC_ICE_MODE_LITE.
#[export] Instance ice_mode_eq_dec : EqDecision rtc_ice_mode_t.
Proof. solve_decision. Defined.

Inductive rtc_transport_dtls_role_t := RTC_TRANSPORT_DTLS_ROLE_CLIENT | RTC_TRANSPORT_DTLS_ROLE_SERVER.
Inductive rtc_transport_dtls_state_t :=
  | RTC_TRANSPORT_DTLS_NEW | RTC_TRANSPORT_DTLS_CONNECTING | RTC_TRANSPORT_DTLS_CONNECTED
  | RTC_TRANSPORT_DTLS_FAILED | RTC_TRANSPORT_DTLS_CLOSED.

Record rtc_ice_parameters_t := IceParameters { username_fragment : bytes; password : bytes; mode : rtc_ice_mode_t }.
Record rtc_dtls_parameters_t := DtlsParameters { d_role : rtc_transport_dtls_role_t; fingerprint : bytes }.

(** the timers of a transport *)
Inductive transport_timer := ICE_TIMER | DTLS_TIMER | TWCC_FB_TIMER.

(** ** State *)

Record conf_t := Conf {
  ice_mode : rtc_ice_mode_t;
  enable_sctp : bool;
  enable_twcc : bool;
  initial_outgoing_bitrate_bps : Z
}.

Record ice_t := Ice {
  ice_ufrag : bytes;
  ice_pwd : bytes;
  remote_ufrag : bytes;
  remote_pwd : bytes;
  remote_ice_valid : bool;
  remote_candidate : rtc_addr_t;
  remote_candidate_valid : bool;
  ice_txn_id : bytes;
  ice_txn_registered : bool;
  ice_timer : Z;
  ice_check_count : Z;
  selected_remote : rtc_addr_t;
  selected_remote_valid : bool
}.

Record security_t (X : Type) := Security {
  dtls : Dtls.rtc_dtls_transport_t X;
  srtp_send : Srtp.rtc_srtp_ctx_t;
  srtp_recv : Srtp.rtc_srtp_ctx_t;
  srtp_ready : bool;
  dtls_timer : Z
}.
Arguments Security {X}. Arguments dtls {X}. Arguments srtp_send {X}. Arguments srtp_recv {X}.
Arguments srtp_ready {X}. Arguments dtls_timer {X}.

(** the registered callbacks, and the router of inbound RTP *)
Record handlers_t (App : Type) := Handlers {
  on_rtp : bool;
  on_rtcp : bool;
  on_data : bool;
  on_bitrate : bool;
  rtp_demux : RtpDemux.rtc_rtp_demux_t Z (U32Map.rtc_u32_map_t (option Z)) App
}.
Arguments Handlers {App}. Arguments on_rtp {App}. Arguments on_rtcp {App}. Arguments on_data {App}.
Arguments on_bitrate {App}. Arguments rtp_demux {App}.

Record counters_t := Counters { packets_received : Z; bytes_received : Z; dtls_packets_received : Z }.

Record twcc_t := TwccState {
  twcc_enabled : bool;
  twcc_ext_id : Z;
  twcc_local_ssrc : Z;
  twcc_remote_ssrc : Z;
  twcc_have_packets : bool;
  twcc_sender : Twcc.rtc_twcc_sender_t;
  twcc_receiver : Twcc.rtc_twcc_receiver_t;
  bwe : option Bwe.rtc_bwe_t;
  twcc_fb_timer : Z
}.

Record rtc_transport_t (X App : Type) := TransportState {
  conf : conf_t;
  ice : ice_t;
  sec : security_t X;
  cbs : handlers_t App;
  counters : counters_t;
  cc : twcc_t;
  closed : bool
}.
Arguments TransportState {X App}. Arguments conf {X App}. Arguments ice {X App}. Arguments sec {X App}.
Arguments cbs {X App}. Arguments counters {X App}. Arguments cc {X App}. Arguments closed {X App}.

(** the transport and the listener it sends through *)
Abbreviation link X App := (rtc_transport_t X App * rtc_listener_t Z)%type.

Record world (X K App : Type) := World { lnk : link X App; wk : K; app : App }.
Arguments World {X K App}. Arguments lnk {X K App}. Arguments wk {X K App}. Arguments app {X K App}.

Section Setters.
Context {X App : Type}.
Implicit Types t : rtc_transport_t X App.

Definition with_ice t (i : ice_t) := TransportState (conf t) i (sec t) (cbs t) (counters t) (cc t) (closed t).
Definition with_sec t (s : security_t X) := TransportState (conf t) (ice t) s (cbs t) (counters t) (cc t) (closed t).
Definition with_cbs t (h : handlers_t App) := TransportState (conf t) (ice t) (sec t) h (counters t) (cc t) (closed t).
Definition with_counters t (c : counters_t) := TransportState (conf t) (ice t) (sec t) (cbs t) c (cc t) (closed t).
Definition with_cc t (c : twcc_t) := TransportState (conf t) (ice t) (sec t) (cbs t) (counters t) c (closed t).
Definition with_closed t (c : bool) := TransportState (conf t) (ice t) (sec t) (cbs t) (counters t) (cc t) c.

Definition ice_set_txn (i : ice_t) (txn : bytes) (reg : bool) : ice_t :=
  Ice (ice_ufrag i) (ice_pwd i) (remote_ufrag i) (remote_pwd i) (remote_ice_valid i) (remote_candidate i)
    (remote_candidate_valid i) txn reg (ice_timer i) (ice_check_count i) (selected_remote i) (selected_remote_valid i).
Definition ice_set_timer (i : ice_t) (tm : Z) : ice_t :=
  Ice (ice_ufrag i) (ice_pwd i) (remote_ufrag i) (remote_pwd i) (remote_ice_valid i) (remote_candidate i)
    (remote_candidate_valid i) (ice_txn_id i) (ice_txn_registered i) tm (ice_check_count i) (selected_remote i)
    (selected_remote_valid i).
Definition ice_set_count (i : ice_t) (n : Z) : ice_t :=
  Ice (ice_ufrag i) (ice_pwd i) (remote_ufrag i) (remote_pwd i) (remote_ice_valid i) (remote_candidate i)
    (remote_candidate_valid i) (ice_txn_id i) (ice_txn_registered i) (ice_timer i) n (selected_remote i)
    (selected_remote_valid i).
Definition ice_select (i : ice_t) (a : rtc_addr_t) : ice_t :=
  Ice (ice_ufrag i) (ice_pwd i) (remote_ufrag i) (remote_pwd i) (remote_ice_valid i) (remote_candidate i)
    (remote_candidate_valid i) (ice_txn_id i) (ice_txn_registered i) (ice_timer i) (ice_check_count i) a true.
Definition ice_set_local (i : ice_t) (ufrag pwd : bytes) : ice_t :=
  Ice ufrag pwd (remote_ufrag i) (remote_pwd i) (remote_ice_valid i) (remote_candidate i)
    (remote_candidate_valid i) (ice_txn_id i) (ice_txn_registered i) (ice_timer i) (ice_check_count i)
    (selected_remote i) (selected_remote_valid i).
Definition ice_set_remote (i : ice_t) (ufrag pwd : bytes) : ice_t :=
  Ice (ice_ufrag i) (ice_pwd i) ufrag pwd true (remote_candidate i)
    (remote_candidate_valid i) (ice_txn_id i) (ice_txn_registered i) (ice_timer i) (ice_check_count i)
    (selected_remote i) (selected_remote_valid i).
Definition ice_set_candidate (i : ice_t) (a : rtc_addr_t) (valid : bool) : ice_t :=
  Ice (ice_ufrag i) (ice_pwd i) (remote_ufrag i) (remote_pwd i) (remote_ice_valid i) a
    valid (ice_txn_id i) (ice_txn_registered i) (ice_timer i) (ice_check_count i)
    (selected_remote i) (selected_remote_valid i).

Definition sec_set_dtls (s : security_t X) (d : Dtls.rtc_dtls_transport_t X) : security_t X :=
  Security d (srtp_send s) (srtp_recv s) (srtp_ready s) (dtls_timer s).
Definition sec_set_timer (s : security_t X) (tm : Z) : security_t X :=
  Security (dtls s) (srtp_send s) (srtp_recv s) (srtp_ready s) tm.
Definition sec_set_srtp (s : security_t X) (snd rcv : Srtp.rtc_srtp_ctx_t) (ready : bool) : security_t X :=
  Security (dtls s) snd rcv ready (dtls_timer s).

Definition cbs_set_demux (h : handlers_t App) d : handlers_t App :=
  Handlers (on_rtp h) (on_rtcp h) (on_data h) (on_bitrate h) d.

Definition cc_set_recv (c : twcc_t) (remote : Z) (have : bool) (r : Twcc.rtc_twcc_receiver_t) : twcc_t :=
  TwccState (twcc_enabled c) (twcc_ext_id c) (twcc_local_ssrc c) remote have (twcc_sender c) r (bwe c) (twcc_fb_timer c).
Definition cc_set_sender (c : twcc_t) (s : Twcc.rtc_twcc_sender_t) : twcc_t :=
  TwccState (twcc_enabled c) (twcc_ext_id c) (twcc_local_ssrc c) (twcc_remote_ssrc c) (twcc_have_packets c) s
    (twcc_receiver c) (bwe c) (twcc_fb_timer c).
Definition cc_set_bwe (c : twcc_t) (b : option Bwe.rtc_bwe_t) : twcc_t :=
  TwccState (twcc_enabled c) (twcc_ext_id c) (twcc_local_ssrc c) (twcc_remote_ssrc c) (twcc_have_packets c)
    (twcc_sender c) (twcc_receiver c) b (twcc_fb_timer c).
Definition cc_set_timer (c : twcc_t) (tm : Z) : twcc_t :=
  TwccState (twcc_enabled c) (twcc_ext_id c) (twcc_local_ssrc c) (twcc_remote_ssrc c) (twcc_have_packets c)
    (twcc_sender c) (twcc_receiver c) (bwe c) tm.
End Setters.

#[local] Existing Instances Dtls.dtls_state_eq_dec Dtls.dtls_role_eq_dec.
#[local] Instance demux_map_ops : MapOps (U32Map.rtc_u32_map_t (option Z)) Z (option Z) := U32Map.u32_map_ops None.

(** what the environment answers during one call: the clocks, the random
    transaction id, the allocations of the route tables and of the demux map,
    the mutexes of the two SRTP contexts, and what the stack held where a
    packet is parsed to *)
Record env := Env {
  now_ms : Z;
  now_us : Z;
  rnd_txn : bytes;
  al : allocs;
  alloc : bool;
  mutex_send : bool;
  mutex_recv : bool;
  stale_pkt : bytes
}.

(** what the registered callbacks do; the sink of the RTP router gets the
    consumer and the packet *)
Class AppHooks (X K App : Type) := {
  hook_rtp : Rtp.rtc_rtp_packet_t -> st (world X K App) unit;
  hook_sink : Z -> Rtp.rtc_rtp_packet_t -> st (world X K App) unit;
  hook_rtcp : bytes -> st (world X K App) unit;
  hook_data : bytes -> st (world X K App) unit;
  hook_bitrate : Z -> st (world X K App) unit
}.

(** ** Sending *)

Section Send.
Context {X App : Type} {kern : Kernel} {evp : Srtp.Evp}.

Definition set_tp (t : rtc_transport_t X App) : st (link X App) unit := fun p => ((t, p.2), Ok ()).
Definition on_lis {A} (f : st (rtc_listener_t Z) A) : st (link X App) A := zoom snd (fun p l => (p.1, l)) f.
Definition on_ice (f : ice_t -> ice_t) : st (link X App) unit := fun p =>
  ((with_ice p.1 (f (ice p.1)), p.2), Ok ()).
Definition on_srtp_send {A} (f : st Srtp.rtc_srtp_ctx_t A) : st (link X App) A :=
  zoom (fun p => srtp_send (sec p.1))
    (fun p c => (with_sec p.1 (sec_set_srtp (sec p.1) c (srtp_recv (sec p.1)) (srtp_ready (sec p.1))), p.2)) f.
Definition on_srtp_recv {A} (f : st Srtp.rtc_srtp_ctx_t A) : st (link X App) A :=
  zoom (fun p => srtp_recv (sec p.1))
    (fun p c => (with_sec p.1 (sec_set_srtp (sec p.1) (srtp_send (sec p.1)) c (srtp_ready (sec p.1))), p.2)) f.

Definition rtc_transport_send_raw (data : bytes) : st (link X App) unit :=
  p ← get;
  _ ← lift (fail_if (blen data =? 0) RTC_ERR_INVALID);
  _ ← lift (fail_if (negb (selected_remote_valid (ice p.1))) RTC_ERR_INVALID);
  on_lis (rtc_listener_send_to data (selected_remote (ice p.1))).

(** the buffer after the call *)
Definition rtc_transport_send_rtp (buf : bytes) (buf_cap : Z) : st (link X App) bytes :=
  p ← get;
  _ ← lift (fail_if (negb (srtp_ready (sec p.1)) || negb (selected_remote_valid (ice p.1))) RTC_ERR_INVALID);
  out ← on_srtp_send (Srtp.rtc_srtp_protect buf buf_cap);
  _ ← rtc_transport_send_raw out;
  mret out.

Definition rtc_transport_send_rtcp (buf : bytes) (buf_cap : Z) : st (link X App) bytes :=
  p ← get;
  _ ← lift (fail_if (negb (srtp_ready (sec p.1)) || negb (selected_remote_valid (ice p.1))) RTC_ERR_INVALID);
  out ← on_srtp_send (Srtp.rtc_srtp_protect_rtcp buf buf_cap);
  _ ← rtc_transport_send_raw out;
  mret out.

(** [rtc_transport_report_rtcp_loss] up to the callbacks the estimator asks for *)
Definition report_loss (fraction_lost : Z) : st (link X App) (list Z) :=
  p ← get;
  match bwe (cc p.1) with
  | Some b =>
      if negb (twcc_enabled (cc p.1)) then mret [] else
      r ← lift (Bwe.rtc_bwe_on_loss fraction_lost b);
      _ ← set_tp (with_cc p.1 (cc_set_bwe (cc p.1) (Some r.1)));
      mret r.2
  | None => mret []
  end.

(** ** The RTP router *)

Definition on_demux {A} (f : st (RtpDemux.rtc_rtp_demux_t Z (U32Map.rtc_u32_map_t (option Z)) App) A) : st (link X App) A :=
  zoom (fun p => rtp_demux (cbs p.1)) (fun p d => (with_cbs p.1 (cbs_set_demux (cbs p.1) d), p.2)) f.

(** [r]: the resolver, if one is given *)
Definition rtc_transport_set_rtp_router (r : option (RtpDemux.resolver Z App)) : st (link X App) unit :=
  on_demux (fun d =>
    if RtpDemux.ready d then (RtpDemux.Demux (RtpDemux.by_ssrc d) r true, Ok ())
    else match RtpDemux.rtc_rtp_demux_init true r with
         | Ok d => (d, Ok ())
         | Err e => (d, Ok ())
         | Fault => (d, Fault)
         end).
Definition rtc_transport_bind_rtp (ok : bool) (ssrc user : Z) : st (link X App) unit :=
  on_demux (RtpDemux.rtc_rtp_demux_bind ok ssrc (Some user)).
Definition rtc_transport_unbind_rtp (ok : bool) (ssrc : Z) : st (link X App) unit :=
  on_demux (RtpDemux.rtc_rtp_demux_unbind ok ssrc).
Definition rtc_transport_rtp_bound (p : link X App) (ssrc : Z) : res (option Z) :=
  RtpDemux.rtc_rtp_demux_get (rtp_demux (cbs p.1)) ssrc.

(** ** Connectivity checks *)

Context {inet : Inet} {senv : StunEnv} (self : Z).

Definition transport_unregister_ice_txn (e : env) : st (link X App) unit :=
  p ← get;
  if ice_txn_registered (ice p.1) then
    _ ← on_lis (rtc_listener_unregister_stun_txn (al e) (ice_txn_id (ice p.1)));
    on_ice (fun i => ice_set_txn i (ice_txn_id i) false)
  else mret ().

(** ["%s:%s"] in a buffer of 18 bytes *)
Definition check_username (i : ice_t) : bytes :=
  take 17 (remote_ufrag i ++ str ":" ++ ice_ufrag i).

Definition transport_send_ice_check (e : env) : st (link X App) unit :=
  p ← get;
  let i := ice p.1 in
  _ ← lift (fail_if (negb (remote_ice_valid i) || negb (remote_candidate_valid i)) RTC_ERR_INVALID);
  req ← lift (rtc_stun_build_binding_request (rnd_txn e) (Some (check_username i)) (Some (remote_pwd i))
                0x7E0000FF true 0x123456789ABCDEF0 true);
  _ ← transport_unregister_ice_txn e;
  _ ← on_ice (fun i => ice_set_txn i (txn_id req) (ice_txn_registered i));
  _ ← on_lis (rtc_listener_register_stun_txn (al e) (txn_id req) (ROUTE self));
  _ ← on_ice (fun i => ice_set_txn i (ice_txn_id i) true);
  _ ← on_lis (rtc_listener_send_to (buf req) (remote_candidate i));
  n ← lift (int_val (ice_check_count i + 1));
  on_ice (fun i => ice_set_count i n).

(** the tuple route's return code is ignored *)
Definition select_remote (e : env) (from : rtc_addr_t) : st (link X App) unit :=
  p ← get;
  if selected_remote_valid (ice p.1) then mret () else
  _ ← on_ice (fun i => ice_select i from);
  void (on_lis (rtc_listener_register_tuple (al e) from self)).
End Send.

(** ** Timers, DTLS and SRTP *)

Section Run.
Context {X K App : Type} {kern : Kernel} {evp : Srtp.Evp} {inet : Inet} {senv : StunEnv}.
Context {ossl : Dtls.OpenSsl X} {wkt : WorkerTimers K transport_timer} {hooks : AppHooks X K App} (self : Z).
#[local] Abbreviation world := (world X K App).

Definition tp (w : world) : rtc_transport_t X App := (lnk w).1.
Definition lis (w : world) : rtc_listener_t Z := (lnk w).2.
Definition set_lnk (w : world) (p : link X App) : world := World p (wk w) (app w).
Definition on_link {A} (f : st (link X App) A) : st world A := zoom lnk set_lnk f.
Definition on_wk {A} (f : st K A) : st world A := zoom wk (fun w k => World (lnk w) k (app w)) f.
Definition on_tp (f : rtc_transport_t X App -> rtc_transport_t X App) : st world unit := fun w =>
  (World (f (tp w), lis w) (wk w) (app w), Ok ()).
Definition set_ice_timer (tm : Z) : st world unit := on_tp (fun t => with_ice t (ice_set_timer (ice t) tm)).
Definition set_dtls_timer (tm : Z) : st world unit := on_tp (fun t => with_sec t (sec_set_timer (sec t) tm)).
Definition set_fb_timer (tm : Z) : st world unit := on_tp (fun t => with_cc t (cc_set_timer (cc t) tm)).

Definition transport_cancel_ice_timer : st world unit :=
  w ← get;
  let tm := ice_timer (ice (tp w)) in
  if tm =? RTC_WORKER_TIMER_INVALID then mret () else
  _ ← on_wk (wk_cancel_timer tm);
  set_ice_timer RTC_WORKER_TIMER_INVALID.

Definition transport_arm_ice_timer (e : env) : st world unit :=
  w ← get;
  if selected_remote_valid (ice (tp w)) || closed (tp w) then mret () else
  if negb (ice_timer (ice (tp w)) =? RTC_WORKER_TIMER_INVALID) then mret () else
  tm ← on_wk (wk_add_timer (u64 (now_ms e + 250)) ICE_TIMER);
  set_ice_timer tm.

Definition transport_ice_timer (e : env) : st world unit :=
  _ ← set_ice_timer RTC_WORKER_TIMER_INVALID;
  w ← get;
  if closed (tp w) || selected_remote_valid (ice (tp w)) then mret () else
  if 120 <=? ice_check_count (ice (tp w)) then mret () else
  o ← st_attempt (on_link (transport_send_ice_check self e));
  match o with
  | Some _ => transport_arm_ice_timer e
  | None => mret ()
  end.

Definition w_dtls (w : world) : Dtls.rtc_dtls_transport_t X := dtls (sec (tp w)).
Definition set_w_dtls (w : world) (d : Dtls.rtc_dtls_transport_t X) : world :=
  World (with_sec (tp w) (sec_set_dtls (sec (tp w)) d), lis w) (wk w) (app w).
Definition transport_dtls_send (data : bytes) : st world unit := on_link (rtc_transport_send_raw data).
Definition set_dtls_state (s : Dtls.rtc_dtls_state_t) : st world unit := Dtls.set_state w_dtls set_w_dtls s.
Definition dtls_is (s : Dtls.rtc_dtls_state_t) (w : world) : bool := bool_decide (Dtls.state (w_dtls w) = s).

Definition transport_cancel_dtls_timer : st world unit :=
  w ← get;
  let tm := dtls_timer (sec (tp w)) in
  if tm =? RTC_WORKER_TIMER_INVALID then mret () else
  _ ← on_wk (wk_cancel_timer tm);
  set_dtls_timer RTC_WORKER_TIMER_INVALID.

Definition transport_arm_dtls_timer (e : env) (delay_ms : Z) : st world unit :=
  w ← get;
  if negb (dtls_is Dtls.RTC_DTLS_STATE_CONNECTING w) || closed (tp w) then mret () else
  if negb (dtls_timer (sec (tp w)) =? RTC_WORKER_TIMER_INVALID) then mret () else
  tm ← on_wk (wk_add_timer (u64 (now_ms e + delay_ms)) DTLS_TIMER);
  set_dtls_timer tm.

Definition transport_dtls_timer (e : env) : st world unit :=
  _ ← set_dtls_timer RTC_WORKER_TIMER_INVALID;
  w ← get;
  if closed (tp w) then mret () else
  if negb (dtls_is Dtls.RTC_DTLS_STATE_CONNECTING w) then mret () else
  _ ← void (Dtls.rtc_dtls_retransmit w_dtls set_w_dtls transport_dtls_send);
  transport_arm_dtls_timer e 1000.

(** the profile, and keys and salts to send and to receive with *)
Definition srtp_profile (d : Dtls.rtc_dtls_transport_t X) : Srtp.rtc_srtp_profile_t :=
  if negb (Dtls.srtp_aead_gcm d) then Srtp.AES128_CM_SHA1_80
  else if 32 <=? Dtls.srtp_key_len d then Srtp.AEAD_AES_256_GCM
  else Srtp.AEAD_AES_128_GCM.
Definition send_keys (d : Dtls.rtc_dtls_transport_t X) : bytes * bytes :=
  match Dtls.role d with
  | Dtls.RTC_DTLS_ROLE_CLIENT => (Dtls.srtp_client_key d, Dtls.srtp_client_salt d)
  | Dtls.RTC_DTLS_ROLE_SERVER => (Dtls.srtp_server_key d, Dtls.srtp_server_salt d)
  end.
Definition recv_keys (d : Dtls.rtc_dtls_transport_t X) : bytes * bytes :=
  match Dtls.role d with
  | Dtls.RTC_DTLS_ROLE_CLIENT => (Dtls.srtp_server_key d, Dtls.srtp_server_salt d)
  | Dtls.RTC_DTLS_ROLE_SERVER => (Dtls.srtp_client_key d, Dtls.srtp_client_salt d)
  end.

Definition set_srtp (snd rcv : Srtp.rtc_srtp_ctx_t) (ready : bool) : st world unit :=
  on_tp (fun t => with_sec t (sec_set_srtp (sec t) snd rcv ready)).

Definition transport_try_export_srtp (e : env) : st world unit :=
  w ← get;
  if srtp_ready (sec (tp w)) || negb (dtls_is Dtls.RTC_DTLS_STATE_CONNECTED w) then mret () else
  _ ← transport_cancel_dtls_timer;
  o ← st_attempt (Dtls.on_dtls w_dtls set_w_dtls Dtls.rtc_dtls_export_srtp_keys);
  match o with
  | None => set_dtls_state Dtls.RTC_DTLS_STATE_FAILED
  | Some _ =>
      w ← get;
      let d := w_dtls w in
      let init m keys := Srtp.rtc_srtp_init_profile m (srtp_profile d) keys.1 (Dtls.srtp_key_len d) keys.2
                           (Dtls.srtp_salt_len d) in
      let '(snd, rc) := init (mutex_send e) (send_keys d) in
      _ ← set_srtp snd (srtp_recv (sec (tp w))) false;
      match rc with
      | Fault => lift Fault
      | Err _ => set_dtls_state Dtls.RTC_DTLS_STATE_FAILED
      | Ok _ =>
          let '(rcv, rc) := init (mutex_recv e) (recv_keys d) in
          match rc with
          | Fault => lift Fault
          | Err _ =>
              _ ← set_srtp (Srtp.rtc_srtp_close snd) rcv false;
              set_dtls_state Dtls.RTC_DTLS_STATE_FAILED
          | Ok _ => set_srtp snd rcv true
          end
      end
  end.

(** ** Inbound media *)

(** The callbacks the estimator asked for.  The estimator writes to itself
    after the callback returns, which must not have released it. *)
Definition report_bitrates (bps : list Z) : st world unit :=
  st_each (fun v =>
    w ← get;
    _ ← (if on_bitrate (cbs (tp w)) then hook_bitrate v else mret ());
    w ← get;
    lift (fault_if (bool_decide (bwe (cc (tp w)) = None)))) bps.

Definition transport_record_twcc_arrival (e : env) (pkt : Rtp.rtc_rtp_packet_t) : st world unit :=
  w ← get;
  let c := cc (tp w) in
  match Rtp.ext_data pkt with
  | None => mret ()
  | Some ext =>
      if negb (twcc_enabled c) || (twcc_ext_id c =? 0) || negb (Rtp.extension (Rtp.header pkt)) ||
         (Rtp.ext_len pkt =? 0) then mret () else
      exts ← lift (attempt (RtpExt.rtc_rtp_ext_parse_body ext (Rtp.ext_len pkt) RtpExt.RTC_RTP_EXT_MAX_ENTRIES));
      match exts ≫= fun exts => RtpExt.rtc_rtp_ext_find exts (twcc_ext_id c) with
      | None => mret ()
      | Some x =>
          tseq ← lift (RtpExt.rtc_rtp_ext_read_transport_cc (Some x));
          r ← lift (Twcc.rtc_twcc_receiver_on_packet (twcc_receiver c) tseq (now_us e));
          on_tp (fun t => with_cc t (cc_set_recv (cc t)
            (if twcc_remote_ssrc c =? 0 then Rtp.ssrc (Rtp.header pkt) else twcc_remote_ssrc c) true r))
      end
  end.

(** one reported packet *)
Definition feed_bwe (it : Twcc.twcc_item) : st world unit :=
  w ← get;
  s ← lift (Twcc.rtc_twcc_sender_lookup (twcc_sender (cc (tp w))) (Twcc.it_seq it));
  match s, bwe (cc (tp w)) with
  | Some s, Some b =>
      r ← lift (Bwe.rtc_bwe_on_packet_feedback (Twcc.sp_send_time_us s)
                  (if Twcc.it_received it then Twcc.it_recv_time_us it else 0) (Twcc.sp_size s) b);
      _ ← on_tp (fun t => with_cc t (cc_set_bwe (cc t) (Some r.1)));
      report_bitrates r.2
  | _, _ => mret ()
  end.

Fixpoint twcc_walk (fuel : nat) (buf : bytes) (offset : Z) : st world unit :=
  match fuel with
  | O => lift Fault
  | S fuel =>
      if negb (offset + 4 <=? blen buf) then mret () else
      b0 ← lift (rd buf offset);
      if negb (Z.land (Z.shiftr b0 6) 3 =? 2) then mret () else
      b2 ← lift (rd buf (offset + 2));
      b3 ← lift (rd buf (offset + 3));
      let sub_len := (Z.lor (Z.shiftl b2 8) b3 + 1) * 4 in
      if blen buf <? offset + sub_len then mret () else
      pkt ← lift (sub buf offset sub_len);
      ptfmt ← lift (Rtcp.rtc_rtcp_get_pt_fmt pkt);
      _ ← match ptfmt with
          | Some (pt, fmt) =>
              if (pt =? Rtcp.RTCP_PT_RTPFB) && (fmt =? 15) then
                tw ← lift (attempt (Twcc.rtc_rtcp_parse_twcc pkt));
                match tw with
                | Some tw => st_each feed_bwe (Twcc.tw_items tw)
                | None => mret ()
                end
              else mret ()
          | None => mret ()
          end;
      twcc_walk fuel buf (offset + sub_len)
  end.

Definition transport_consume_twcc_feedback (buf : bytes) : st world unit :=
  w ← get;
  match bwe (cc (tp w)) with
  | Some _ => if twcc_enabled (cc (tp w)) then twcc_walk (S (length buf)) buf 0 else mret ()
  | None => mret ()
  end.

(** hand a parsed packet to the router; was it delivered? *)
Definition route_rtp (e : env) (pkt : Rtp.rtc_rtp_packet_t) : st world bool :=
  o ← zoom (fun w => (rtp_demux (cbs (tp w)), app w))
        (fun w da => World (with_cbs (tp w) (cbs_set_demux (cbs (tp w)) da.1), lis w) (wk w) da.2)
        (RtpDemux.rtc_rtp_demux_dispatch (alloc e) pkt);
  match o with
  | Some u => _ ← hook_sink u pkt; mret true
  | None => mret false
  end.

Definition transport_handle_rtp (e : env) (data : bytes) : st world unit :=
  w ← get;
  if negb (srtp_ready (sec (tp w))) || (SRTP_MAX_PACKET <? blen data) then mret () else
  o ← st_attempt (on_link (on_srtp_recv (Srtp.rtc_srtp_unprotect data)));
  match o with
  | None => mret ()
  | Some buf =>
      o ← lift (attempt (Rtp.rtc_rtp_parse (stale_pkt e) buf));
      match o with
      | None => mret ()
      | Some pkt =>
          w ← get;
          delivered ← (if RtpDemux.ready (rtp_demux (cbs (tp w))) then route_rtp e pkt else mret false);
          w ← get;
          _ ← (if negb delivered && on_rtp (cbs (tp w)) then hook_rtp pkt else mret ());
          transport_record_twcc_arrival e pkt
      end
  end.

Definition transport_handle_rtcp (data : bytes) : st world unit :=
  w ← get;
  if negb (srtp_ready (sec (tp w))) || (SRTP_MAX_PACKET <? blen data) then mret () else
  if negb (on_rtcp (cbs (tp w)) || twcc_enabled (cc (tp w))) then mret () else
  o ← st_attempt (on_link (on_srtp_recv (Srtp.rtc_srtp_unprotect_rtcp data)));
  match o with
  | None => mret ()
  | Some buf =>
      _ ← transport_consume_twcc_feedback buf;
      w ← get;
      if on_rtcp (cbs (tp w)) then hook_rtcp buf else mret ()
  end.

(** the loop of [transport_read_app_data] *)
Fixpoint read_loop (fuel : nat) : st world unit :=
  match fuel with
  | O => lift Fault
  | S fuel =>
      o ← Dtls.on_ssl w_dtls set_w_dtls (Dtls.ssl_read 65536);
      match o with
      | None => mret ()
      | Some d => _ ← hook_data d; read_loop fuel
      end
  end.

Definition backlog (w : world) : nat :=
  match Dtls.ssl (w_dtls w) with None => 0%nat | Some x => Dtls.ssl_backlog x end.

Definition transport_read_app_data : st world unit :=
  w ← get;
  if negb (on_data (cbs (tp w))) || negb (dtls_is Dtls.RTC_DTLS_STATE_CONNECTED w) then mret () else
  read_loop (S (backlog w)).

(** ** Inbound datagrams *)

Definition count_packet (len : Z) : st world unit := on_tp (fun t =>
  with_counters t (Counters (u64 (packets_received (counters t) + 1)) (u64 (bytes_received (counters t) + len))
                     (dtls_packets_received (counters t)))).

Definition transport_on_stun (e : env) (data : bytes) (from : rtc_addr_t) : st world unit :=
  o ← lift (attempt (rtc_stun_parse data));
  match o with
  | None => mret ()
  | Some msg =>
      w ← get;
      let i := ice (tp w) in
      if Stun.type msg =? STUN_BINDING_RESPONSE then
        if negb (ice_txn_registered i) || negb (bool_decide (txn_id msg = ice_txn_id i)) then mret () else
        _ ← on_link (transport_unregister_ice_txn e);
        _ ← transport_cancel_ice_timer;
        on_link (select_remote self e from)
      else if negb (Stun.type msg =? STUN_BINDING_REQUEST) then mret ()
      else
        _ ← on_link (select_remote self e from);
        resp ← lift (attempt (rtc_stun_build_binding_response data from 128));
        match resp with
        | Some resp => void (on_link (on_lis (rtc_listener_send_to resp from)))
        | None => mret ()
        end
  end.

Definition transport_on_dtls (e : env) (data : bytes) : st world unit :=
  _ ← on_tp (fun t => with_counters t (Counters (packets_received (counters t)) (bytes_received (counters t))
                                         (u64 (dtls_packets_received (counters t) + 1))));
  o ← st_attempt (Dtls.rtc_dtls_recv w_dtls set_w_dtls transport_dtls_send data);
  match o with
  | None => mret ()
  | Some _ =>
      _ ← transport_arm_dtls_timer e 1000;
      _ ← transport_try_export_srtp e;
      transport_read_app_data
  end.

Definition transport_on_packet (e : env) (ty : rtc_pkt_type_t) (data : bytes) (from : rtc_addr_t) : st world unit :=
  w ← get;
  if closed (tp w) then mret () else
  _ ← count_packet (blen data);
  match ty with
  | RTC_PKT_STUN => transport_on_stun e data from
  | RTC_PKT_DTLS => transport_on_dtls e data
  | RTC_PKT_RTP => transport_handle_rtp e data
  | RTC_PKT_RTCP => transport_handle_rtcp data
  | _ => mret ()
  end.

(** ** Feedback *)

Definition transport_twcc_fb_timer (e : env) : st world unit :=
  _ ← set_fb_timer RTC_WORKER_TIMER_INVALID;
  w ← get;
  if closed (tp w) then mret () else
  let c := cc (tp w) in
  _ ← (if twcc_have_packets c && Twcc.have_base (twcc_receiver c) then
         let '(r, fb) := Twcc.rtc_twcc_receiver_build_feedback (twcc_local_ssrc c) (twcc_remote_ssrc c)
                           Rtcp.RTCP_MAX_PACKET (twcc_receiver c) in
         _ ← on_tp (fun t => with_cc t (cc_set_recv (cc t) (twcc_remote_ssrc c) (twcc_have_packets c) r));
         o ← lift (attempt fb);
         _ ← match o with
             | Some fb =>
                 void (on_link (rtc_transport_send_rtcp fb (Rtcp.RTCP_MAX_PACKET + RTC_TRANSPORT_RTCP_PROTECT_OVERHEAD)))
             | None => mret ()
             end;
         on_tp (fun t => with_cc t (cc_set_recv (cc t) (twcc_remote_ssrc (cc t)) false (twcc_receiver (cc t))))
       else mret ());
  tm ← on_wk (wk_add_timer (u64 (now_ms e + 100)) TWCC_FB_TIMER);
  set_fb_timer tm.

(** [ok]: the allocation of the estimator *)
Definition rtc_transport_enable_twcc (e : env) (ok : bool) (ext_id local_ssrc : Z) : st world unit :=
  w ← get;
  _ ← lift (fail_if (ext_id =? 0) RTC_ERR_INVALID);
  let cf := conf (tp w) in
  _ ← lift (fail_if (negb (enable_twcc cf)) RTC_ERR_INVALID);
  let c := cc (tp w) in
  if twcc_enabled c then mret () else
  let initial := if initial_outgoing_bitrate_bps cf =? 0 then 500000 else initial_outgoing_bitrate_bps cf in
  let b := Bwe.rtc_bwe_create ok (Bwe.Config initial 100000 4000000) in
  _ ← on_tp (fun t => with_cc t (TwccState false ext_id local_ssrc (twcc_remote_ssrc c) (twcc_have_packets c)
                                   Twcc.rtc_twcc_sender_init Twcc.rtc_twcc_receiver_init b (twcc_fb_timer c)));
  match b with
  | None => lift (Err RTC_ERR_NOMEM)
  | Some b =>
      _ ← on_tp (fun t => with_cc t (TwccState true ext_id local_ssrc (twcc_remote_ssrc c) (twcc_have_packets c)
            (twcc_sender (cc t)) (twcc_receiver (cc t)) (Some (Bwe.rtc_bwe_on_bitrate_change b true)) (twcc_fb_timer c)));
      if negb (twcc_fb_timer c =? RTC_WORKER_TIMER_INVALID) then mret () else
      tm ← on_wk (wk_add_timer (u64 (now_ms e + 100)) TWCC_FB_TIMER);
      set_fb_timer tm
  end.

Definition rtc_transport_report_rtcp_loss (fraction_lost : Z) : st world unit :=
  bps ← on_link (report_loss fraction_lost);
  report_bitrates bps.

(** ** Control operations *)

Record rtc_transport_config_t := TransportConfig {
  c_ice_mode : rtc_ice_mode_t;
  c_enable_sctp : bool;
  c_enable_twcc : bool;
  c_initial_outgoing_bitrate_bps : Z
}.

(** [calloc] *)
Definition transport_zero (cfg : rtc_transport_config_t) (ufrag pwd : bytes) (d : Dtls.rtc_dtls_transport_t X)
    : rtc_transport_t X App :=
  TransportState (Conf (c_ice_mode cfg) (c_enable_sctp cfg) (c_enable_twcc cfg) (c_initial_outgoing_bitrate_bps cfg))
    (Ice ufrag pwd [] [] false AF_OTHER false (replicate 12 0) false RTC_WORKER_TIMER_INVALID 0 AF_OTHER false)
    (Security d Srtp.ctx_zero Srtp.ctx_zero false RTC_WORKER_TIMER_INVALID)
    (Handlers false false false false (RtpDemux.Demux U32Map.rtc_u32_map_init None false))
    (Counters 0 0 0)
    (TwccState false 0 0 0 false Twcc.rtc_twcc_sender_init Twcc.rtc_twcc_receiver_init None RTC_WORKER_TIMER_INVALID)
    false.

(** [calloc_ok], [malloc_ok]: the two allocations; [rnd_ufrag], [rnd_pwd]: the
    random bytes; [digest], [setup]: OpenSSL's part of [rtc_dtls_init].
    [None]: NULL.  The enumeration has no third mode to replace. *)
Definition rtc_transport_create (calloc_ok malloc_ok : bool) (rnd_ufrag rnd_pwd : Z -> option bytes)
    (digest : option bytes) (setup : Dtls.setup_env X) (a : allocs) (cfg : rtc_transport_config_t)
    : st (rtc_listener_t Z) (option (rtc_transport_t X App)) :=
  if negb calloc_ok then mret None else
  creds ← lift (attempt (u ← rtc_random_string rnd_ufrag ICE_UFRAG_LEN;
                         p ← rtc_random_string rnd_pwd ICE_PWD_LEN; Ok (u, p)));
  match creds with
  | None => mret None
  | Some (ufrag, pwd) =>
      if negb malloc_ok then mret None else
      let r := match c_ice_mode cfg with
               | RTC_ICE_MODE_FULL => Dtls.RTC_DTLS_ROLE_CLIENT
               | RTC_ICE_MODE_LITE => Dtls.RTC_DTLS_ROLE_SERVER
               end in
      match Dtls.rtc_dtls_init digest setup r with
      | (_, Fault) => lift Fault
      | (_, Err _) => mret None
      | (d, Ok _) =>
          o ← st_attempt (rtc_listener_register_ufrag a ufrag self);
          mret (option_map (fun _ => transport_zero cfg ufrag pwd d) o)
      end
  end.

Definition rtc_transport_get_ice_parameters (w : world) : rtc_ice_parameters_t :=
  IceParameters (ice_ufrag (ice (tp w))) (ice_pwd (ice (tp w))) (ice_mode (conf (tp w))).

(** the two strings are drawn one after the other: a failing second draw
    leaves the first one set *)
Definition rtc_transport_restart_ice (a_un : allocs) (e : env) (rnd_ufrag rnd_pwd : Z -> option bytes) : st world unit :=
  w ← get;
  _ ← lift (fail_if (selected_remote_valid (ice (tp w))) RTC_ERR_INVALID);
  _ ← on_link (on_lis (rtc_listener_unregister_ufrag a_un (ice_ufrag (ice (tp w)))));
  match rtc_random_string rnd_ufrag ICE_UFRAG_LEN with
  | Fault => lift Fault
  | Err _ => lift (Err RTC_ERR_GENERIC)
  | Ok u =>
      _ ← on_link (on_ice (fun i => ice_set_local i u (ice_pwd i)));
      match rtc_random_string rnd_pwd ICE_PWD_LEN with
      | Fault => lift Fault
      | Err _ => lift (Err RTC_ERR_GENERIC)
      | Ok p =>
          _ ← on_link (on_ice (fun i => ice_set_local i (ice_ufrag i) p));
          on_link (on_lis (rtc_listener_register_ufrag (al e) u self))
      end
  end.

Definition rtc_transport_set_remote_ice_parameters (remote : rtc_ice_parameters_t) : st world unit :=
  _ ← lift (fail_if (bool_decide (username_fragment remote = []) || bool_decide (password remote = [])) RTC_ERR_INVALID);
  on_link (on_ice (fun i => ice_set_remote i (username_fragment remote) (password remote))).

(** [rtc_addr_from_string] clears its output first *)
Definition rtc_transport_add_remote_candidate (c : rtc_transport_candidate_t) : st world unit :=
  _ ← lift (fail_if (bool_decide (t_address c = []) || (t_port c =? 0)) RTC_ERR_INVALID);
  _ ← lift (fail_if (negb (bool_decide (t_protocol c = str "udp"))) RTC_ERR_INVALID);
  match rtc_addr_from_string (t_address c) (t_port c) with
  | Ok a => on_link (on_ice (fun i => ice_set_candidate i a true))
  | Err e => _ ← on_link (on_ice (fun i => ice_set_candidate i AF_OTHER (remote_candidate_valid i))); lift (Err e)
  | Fault => lift Fault
  end.

Definition rtc_transport_candidate_from_ice (c : Candidate.rtc_ice_candidate_t) : res rtc_transport_candidate_t :=
  '(ip, port) ← rtc_addr_to_string (Candidate.addr c) 64;
  let ty := match Candidate.type c with
            | Candidate.ICE_CANDIDATE_SRFLX => RTC_TRANSPORT_CANDIDATE_SRFLX
            | Candidate.ICE_CANDIDATE_RELAY => RTC_TRANSPORT_CANDIDATE_RELAY
            | Candidate.ICE_CANDIDATE_HOST => RTC_TRANSPORT_CANDIDATE_HOST
            end in
  '(rip, rport) ← (if Candidate.has_related_addr c then rtc_addr_to_string (Candidate.related_addr c) 64
                   else Ok ([], 0));
  Ok (TransportCandidate (cut 32 (Candidate.foundation c)) (cut 64 ip) (cut 64 rip) port rport (str "udp") ty
        (Candidate.has_related_addr c)).

Definition rtc_transport_start_ice (e : env) : st world unit :=
  w ← get;
  _ ← lift (fail_if (negb (bool_decide (ice_mode (conf (tp w)) = RTC_ICE_MODE_FULL))) RTC_ERR_INVALID);
  if selected_remote_valid (ice (tp w)) then mret () else
  _ ← on_link (transport_send_ice_check self e);
  transport_arm_ice_timer e.

Definition rtc_transport_start_dtls (e : env) : st world unit :=
  w ← get;
  _ ← lift (fail_if (negb (selected_remote_valid (ice (tp w)))) RTC_ERR_INVALID);
  if dtls_is Dtls.RTC_DTLS_STATE_CONNECTED w then mret () else
  _ ← Dtls.rtc_dtls_handshake w_dtls set_w_dtls transport_dtls_send;
  _ ← transport_arm_dtls_timer e 1000;
  transport_try_export_srtp e.

Definition transport_dtls_state (s : Dtls.rtc_dtls_state_t) : rtc_transport_dtls_state_t :=
  match s with
  | Dtls.RTC_DTLS_STATE_NEW => RTC_TRANSPORT_DTLS_NEW
  | Dtls.RTC_DTLS_STATE_CONNECTING => RTC_TRANSPORT_DTLS_CONNECTING
  | Dtls.RTC_DTLS_STATE_CONNECTED => RTC_TRANSPORT_DTLS_CONNECTED
  | Dtls.RTC_DTLS_STATE_FAILED => RTC_TRANSPORT_DTLS_FAILED
  | Dtls.RTC_DTLS_STATE_CLOSED => RTC_TRANSPORT_DTLS_CLOSED
  end.
Definition transport_public_dtls_role (r : Dtls.rtc_dtls_role_t) : rtc_transport_dtls_role_t :=
  match r with
  | Dtls.RTC_DTLS_ROLE_CLIENT => RTC_TRANSPORT_DTLS_ROLE_CLIENT
  | Dtls.RTC_DTLS_ROLE_SERVER => RTC_TRANSPORT_DTLS_ROLE_SERVER
  end.
Definition transport_internal_dtls_role (r : rtc_transport_dtls_role_t) : Dtls.rtc_dtls_role_t :=
  match r with
  | RTC_TRANSPORT_DTLS_ROLE_CLIENT => Dtls.RTC_DTLS_ROLE_CLIENT
  | RTC_TRANSPORT_DTLS_ROLE_SERVER => Dtls.RTC_DTLS_ROLE_SERVER
  end.

Definition rtc_transport_get_dtls_parameters (w : world) : rtc_dtls_parameters_t :=
  DtlsParameters (transport_public_dtls_role (Dtls.role (w_dtls w))) (Dtls.rtc_dtls_get_fingerprint (w_dtls w)).

Definition rtc_transport_set_dtls_role (setup : Dtls.setup_env X) (r : rtc_transport_dtls_role_t) : st world unit :=
  w ← get;
  _ ← lift (fail_if (negb (dtls_is Dtls.RTC_DTLS_STATE_NEW w)) RTC_ERR_INVALID);
  if bool_decide (Dtls.role (w_dtls w) = transport_internal_dtls_role r) then mret () else
  Dtls.on_dtls w_dtls set_w_dtls (Dtls.rtc_dtls_set_role setup (transport_internal_dtls_role r)).

Record rtc_transport_stats_t := TransportStats {
  st_closed : bool;
  st_ice_mode : rtc_ice_mode_t;
  selected_tuple_valid : bool;
  st_selected_remote : rtc_addr_t;
  st_dtls_state : rtc_transport_dtls_state_t;
  st_srtp_ready : bool;
  st_packets_received : Z;
  st_bytes_received : Z;
  st_dtls_packets_received : Z
}.

Definition rtc_transport_get_stats (w : world) : rtc_transport_stats_t :=
  let t := tp w in
  let v := selected_remote_valid (ice t) in
  TransportStats (closed t) (ice_mode (conf t)) v (if v then selected_remote (ice t) else AF_OTHER)
    (transport_dtls_state (Dtls.state (w_dtls w))) (srtp_ready (sec t)) (packets_received (counters t))
    (bytes_received (counters t)) (dtls_packets_received (counters t)).

(** the setters made by [TX_DEFINE_CB_SETTER]; the flag: a function is given *)
Definition rtc_transport_on_rtp (fn : bool) : st world unit := on_tp (fun t =>
  with_cbs t (Handlers fn (on_rtcp (cbs t)) (on_data (cbs t)) (on_bitrate (cbs t)) (rtp_demux (cbs t)))).
Definition rtc_transport_on_rtcp (fn : bool) : st world unit := on_tp (fun t =>
  with_cbs t (Handlers (on_rtp (cbs t)) fn (on_data (cbs t)) (on_bitrate (cbs t)) (rtp_demux (cbs t)))).
Definition rtc_transport_on_data (fn : bool) : st world unit := on_tp (fun t =>
  with_cbs t (Handlers (on_rtp (cbs t)) (on_rtcp (cbs t)) fn (on_bitrate (cbs t)) (rtp_demux (cbs t)))).
Definition rtc_transport_on_bitrate_estimate (fn : bool) : st world unit := on_tp (fun t =>
  with_cbs t (Handlers (on_rtp (cbs t)) (on_rtcp (cbs t)) (on_data (cbs t)) fn (rtp_demux (cbs t)))).

(** [a_ufrag], [a_tuple]: the allocations of the table when a slot is freed *)
Definition tx_close_impl (a_ufrag a_tuple : allocs) (e : env) : st world unit :=
  w ← get;
  _ ← on_link (on_lis (rtc_listener_unregister_ufrag a_ufrag (ice_ufrag (ice (tp w)))));
  _ ← on_link (transport_unregister_ice_txn e);
  _ ← (if selected_remote_valid (ice (tp w)) then
         on_link (on_lis (rtc_listener_unregister_tuple a_tuple (selected_remote (ice (tp w)))))
       else mret ());
  _ ← transport_cancel_ice_timer;
  _ ← transport_cancel_dtls_timer;
  _ ← on_tp (fun t => with_cbs t (cbs_set_demux (cbs t) (RtpDemux.rtc_rtp_demux_close (rtp_demux (cbs t)))));
  _ ← (if twcc_fb_timer (cc (tp w)) =? RTC_WORKER_TIMER_INVALID then mret () else
       _ ← on_wk (wk_cancel_timer (twcc_fb_timer (cc (tp w))));
       set_fb_timer RTC_WORKER_TIMER_INVALID);
  _ ← on_tp (fun t => with_cc t (cc_set_bwe (cc t) None));
  _ ← (if srtp_ready (sec (tp w)) then
         on_tp (fun t => with_sec t (sec_set_srtp (sec t) (Srtp.rtc_srtp_close (srtp_send (sec t)))
                                       (Srtp.rtc_srtp_close (srtp_recv (sec t))) false))
       else mret ());
  on_tp (fun t => with_sec t (sec_set_dtls (sec t) (Dtls.rtc_dtls_close (dtls (sec t))))).

Definition rtc_transport_close (a_ufrag a_tuple : allocs) (e : env) : st world unit :=
  w ← get;
  if closed (tp w) then mret () else
  _ ← on_tp (fun t => with_closed t true);
  tx_close_impl a_ufrag a_tuple e.

(** the loop of [tx_send_data_impl]; [BIO_read] empties the write BIO *)
Fixpoint data_loop (fuel : nat) : st world unit :=
  match fuel with
  | O => lift Fault
  | S fuel =>
      o ← Dtls.on_ssl w_dtls set_w_dtls (Dtls.bio_read 2048);
      match o with
      | None => mret ()
      | Some buf => _ ← transport_dtls_send buf; data_loop fuel
      end
  end.

Definition rtc_transport_send_data (data : bytes) : st world unit :=
  w ← get;
  _ ← lift (fail_if (negb (dtls_is Dtls.RTC_DTLS_STATE_CONNECTED w)) RTC_ERR_INVALID);
  written ← Dtls.on_ssl w_dtls set_w_dtls (Dtls.ssl_write data);
  _ ← lift (fail_if (written <=? 0) RTC_ERR_SSL);
  w ← get;
  data_loop (S (Z.to_nat (Dtls.pending w_dtls w))).
End Run.
End Transport.
