(* ===== verification/TransportSpec.v ===== *)
(** * Two connected transports exchange media

    The composition of DTLS key export, SRTP and the transports' send and
    receive paths: what one end sends with [rtc_transport_send_rtp] is what the
    application of the other end is given.  The application is the one that
    records its callbacks. *)

From S2P Require Import Prelude Bwe Srtp SrtpReplay SrtpSession Rtp U32Map RtpDemux Stun Text PacketIo Dtls.
From S2P Require Import Listener Transport.
From Stdlib Require Import ZArith Lia.
From stdpp Require Import base list numbers gmap.
#[local] Open Scope Z_scope.

Module TransportSpec.
Import Srtp SrtpSession Stun Text PacketIo Listener Transport.

(** ** An application that records *)

Inductive app_event :=
  | GotRtp (pkt : Rtp.rtc_rtp_packet_t) | GotSink (u : Z) (pkt : Rtp.rtc_rtp_packet_t)
  | GotRtcp (data : bytes) | GotData (data : bytes) | GotBitrate (bps : Z).

Definition record_event {X K} (ev : app_event) : st (world X K (list app_event)) unit := fun w =>
  (World (lnk w) (wk w) (app w ++ [ev]), Ok ()).

#[export] Instance recorder X K : AppHooks X K (list app_event) := {|
  hook_rtp pkt := record_event (GotRtp pkt);
  hook_sink u pkt := record_event (GotSink u pkt);
  hook_rtcp d := record_event (GotRtcp d);
  hook_data d := record_event (GotData d);
  hook_bitrate v := record_event (GotBitrate v)
|}.

(** the timer calls of a worker return *)
Class TimersTotal (K C : Type) {T : WorkerTimers K C} := {
  cancel_total : forall tm k, exists k', wk_cancel_timer tm k = (k', Ok ());
  add_total : forall at_ms c k, exists k' tm, wk_add_timer at_ms c k = (k', Ok tm)
}.

(** a socket the kernel takes every datagram from *)
Class KernelAccepts {K : Kernel} := kernel_accepts : forall l d, 0 < (kernel_send l d).1.

Section Keys.
Context {X K App : Type} {kern : Kernel} {evp : Srtp.Evp} {elaws : Srtp.EvpLaws}.
Context {ossl : Dtls.OpenSsl X} {olaws : Dtls.OpenSslLaws X} {wkt : WorkerTimers K transport_timer}.
Context {tot : TimersTotal K transport_timer}.
#[local] Abbreviation world := (world X K App).

(** A completed handshake: the ends have opposite roles, agree on the profile,
    and export the same keying material (RFC 5764). *)
Record handshaken (d : Dtls.rtc_dtls_transport_t X) (g : bool) (kl sl : Z) (mat : bytes) : Prop := {
  hs_state : Dtls.state d = Dtls.RTC_DTLS_STATE_CONNECTED;
  hs_ssl : exists x, Dtls.ssl d = Some x /\ Dtls.profile_lengths (Dtls.ssl_srtp_profile x) = (g, kl, sl) /\
    Dtls.ssl_export x (2 * (kl + sl)) Dtls.EXPORTER_LABEL = Some mat
}.

Definition role_keys (r : Dtls.rtc_dtls_role_t) (m : Dtls.material) : (bytes * bytes) * (bytes * bytes) :=
  let c := (Dtls.m_client_key m, Dtls.m_client_salt m) in
  let s := (Dtls.m_server_key m, Dtls.m_server_salt m) in
  match r with Dtls.RTC_DTLS_ROLE_CLIENT => (c, s) | Dtls.RTC_DTLS_ROLE_SERVER => (s, c) end.

Definition profile_of (g : bool) (kl : Z) : rtc_srtp_profile_t :=
  if negb g then AES128_CM_SHA1_80 else if 32 <=? kl then AEAD_AES_256_GCM else AEAD_AES_128_GCM.

Definition context_of (g : bool) (kl sl : Z) (k : bytes * bytes) : rtc_srtp_ctx_t :=
  (rtc_srtp_init_profile true (profile_of g kl) k.1 kl k.2 sl).1.

Lemma context_of_init g kl sl k :
  evp_ctx_new = true -> blen k.1 = kl -> blen k.2 = sl -> kl = 16 \/ kl = 32 -> 12 <= sl <= 14 ->
  rtc_srtp_init_profile true (profile_of g kl) k.1 kl k.2 sl = (context_of g kl sl k, Ok ()).
Proof.
  intros Hc Hk Hs Hkl Hsl. unfold context_of.
  assert (exists c, rtc_srtp_init_profile true (profile_of g kl) k.1 kl k.2 sl = (c, Ok ())) as [c E];
    [|by rewrite E].
  assert (Hkdf : forall l n, 0 <= n -> exists o, srtp_kdf k.1 kl k.2 sl l n = Ok o /\ blen o = n).
  { intros l n Hn. apply srtp_kdf_ok; try done; [lia|lia|]. destruct Hkl as [-> | ->]; cbn; lia. }
  unfold rtc_srtp_init_profile, SRTP_MAX_KEY_LEN, SRTP_MAX_SALT_LEN. cbn [negb].
  rewrite (proj2 (Z.ltb_ge 32 kl)), (proj2 (Z.ltb_ge 14 sl)) by lia. rewrite !sub_Ok by lia. cbn [mbind res_bind].
  destruct (Hkdf SRTP_LABEL_RTP_ENCRYPTION kl) as (? & -> & _); [lia|].
  destruct (Hkdf SRTP_LABEL_RTP_SALT sl) as (? & -> & _); [lia|].
  destruct (Hkdf SRTP_LABEL_RTCP_ENCRYPTION kl) as (? & -> & _); [lia|].
  destruct (Hkdf SRTP_LABEL_RTCP_SALT sl) as (? & -> & _); [lia|]. cbn [mbind res_bind].
  destruct (bool_decide _); [|by eexists].
  destruct (Hkdf SRTP_LABEL_RTP_AUTH 20) as (? & -> & _); [lia|].
  destruct (Hkdf SRTP_LABEL_RTCP_AUTH 20) as (? & -> & _); [lia|]. by eexists.
Qed.

Lemma cancel_dtls_timer_run (w : world) :
  exists w', transport_cancel_dtls_timer w = (w', Ok ()) /\ lis w' = lis w /\ app w' = app w /\
    exists tm, tp w' = with_sec (tp w) (sec_set_timer (sec (tp w)) tm).
Proof.
  unfold transport_cancel_dtls_timer. rewrite st_bind_eq. cbn [get]. destruct (_ =? _) eqn:E.
  { exists w. split; [done|]. split; [done|]. split; [done|]. exists (dtls_timer (sec (tp w))).
    destruct w as [[[? ? [] ? ? ? ?] ?] ? ?]. done. }
  rewrite st_bind_eq. unfold on_wk, zoom. destruct (cancel_total (dtls_timer (sec (tp w))) (wk w)) as [k' ->].
  eexists. split; [done|]. split; [done|]. split; [done|]. by eexists.
Qed.

(** what the export leaves as it was *)
Record same_but_sec (w w' : world) : Prop := {
  ss_lis : lis w' = lis w;
  ss_app : app w' = app w;
  ss_ice : ice (tp w') = ice (tp w);
  ss_cbs : cbs (tp w') = cbs (tp w);
  ss_cc : cc (tp w') = cc (tp w);
  ss_closed : closed (tp w') = closed (tp w)
}.

Lemma try_export_run e (w : world) g kl sl mat :
  evp_ctx_new = true -> mutex_send e = true -> mutex_recv e = true ->
  srtp_ready (sec (tp w)) = false -> handshaken (w_dtls w) g kl sl mat ->
  let m := Dtls.split_material (Z.to_nat kl) (Z.to_nat sl) mat in
  let k := role_keys (Dtls.role (w_dtls w)) m in
  exists w', transport_try_export_srtp e w = (w', Ok ()) /\ same_but_sec w w' /\
    srtp_ready (sec (tp w')) = true /\
    srtp_send (sec (tp w')) = context_of g kl sl k.1 /\ srtp_recv (sec (tp w')) = context_of g kl sl k.2.
Proof.
  intros Hc Hms Hmr Hr [Hst (x & Hx & Hp & He)]. cbv zeta.
  unfold transport_try_export_srtp. rewrite st_bind_eq. cbn [get]. rewrite Hr.
  unfold dtls_is. rewrite bool_decide_eq_true_2 by done. cbn [negb orb].
  destruct (cancel_dtls_timer_run w) as (w1 & E1 & Hl1 & Ha1 & tm & Ht1). rewrite (st_bind_run _ _ _ _ _ E1).
  assert (Hd1 : w_dtls w1 = w_dtls w) by (unfold w_dtls; by rewrite Ht1).
  destruct (Dtls.export_run (w_dtls w) x g kl sl mat Hst Hx Hp He) as [Hm Ee].
  set (m := Dtls.split_material _ _ _) in *. rewrite st_bind_eq. unfold st_attempt, Dtls.on_dtls, zoom.
  rewrite Hd1, Ee. cbn [attempt]. rewrite st_bind_eq. cbn [get].
  change (w_dtls (set_w_dtls w1 ?d)) with d. set (d := Dtls.with_keys _ _ _ _ _ _ _).
  pose proof (Dtls.profile_lengths_range (Dtls.ssl_srtp_profile x)) as Hpr. rewrite Hp in Hpr.
  destruct Hpr as (Hkl & Hsl & _). destruct Hm as [M1 M2 M3 M4].
  change (Dtls.srtp_key_len d) with kl. change (Dtls.srtp_salt_len d) with sl.
  change (srtp_profile d) with (profile_of g kl). rewrite Hms, Hmr.
  assert (Ek : forall b, rtc_srtp_init_profile true (profile_of g kl)
      ((if b : bool then send_keys d else recv_keys d).1) kl ((if b then send_keys d else recv_keys d).2) sl =
    (context_of g kl sl (if b then (role_keys (Dtls.role (w_dtls w)) m).1 else (role_keys (Dtls.role (w_dtls w)) m).2),
     Ok ())).
  { intros b. unfold send_keys, recv_keys, role_keys. change (Dtls.role d) with (Dtls.role (w_dtls w)).
    destruct (Dtls.role (w_dtls w)), b; cbn [fst snd];
      (etrans; [apply (Dtls.init_profile_overlay true (profile_of g kl)); (done || lia)|];
       by apply (context_of_init g kl sl (_, _))). }
  rewrite (Ek true). rewrite st_bind_eq. unfold set_srtp at 1, on_tp at 1. cbv beta iota.
  rewrite (Ek false). unfold set_srtp, on_tp. eexists. split; [done|]. cbn. rewrite Ht1, Hl1, Ha1. cbn. by repeat split.
Qed.

(** the ends of one connection protect with each other's keys *)
Lemma role_keys_opposite ra rb m : ra <> rb -> role_keys rb m = ((role_keys ra m).2, (role_keys ra m).1).
Proof. by destruct ra, rb. Qed.
End Keys.

(** ** Sending and receiving *)

Section Link.
Context {X App : Type} {kern : Kernel} {kacc : KernelAccepts}.

(** the transport can send: it has a selected address, and the socket is open *)
Record link_up (p : link X App) : Prop := {
  lu_selected : selected_remote_valid (ice p.1) = true;
  lu_sock : sock (io p.2) <> None
}.

Definition sent_payloads (p : link X App) : list bytes := payload <$> sends (io p.2).

(** what [rtc_listener_send_to] leaves as it was *)
Lemma send_to_run (l : rtc_listener_t Z) data dest :
  sock (io l) <> None ->
  exists l', rtc_listener_send_to data dest l = (l', Ok ()) /\
    sends (io l') = sends (io l) ++ [Datagram (addr_map_v4 dest) None data] /\ sock (io l') = sock (io l) /\
    (forall t, routes l' t = routes l t) /\ l_closed l' = l_closed l.
Proof.
  intros Hs. unfold rtc_listener_send_to, zoom, rtc_packet_io_send. destruct (sock (io l)) eqn:E; [|done].
  unfold account. pose proof (kernel_accepts (sends (io l)) (Datagram (addr_map_v4 dest) None data)) as Hk.
  destruct (kernel_send _ _) as [n wb]. cbn [fst] in Hk. rewrite (proj2 (Z.ltb_lt _ _) Hk).
  eexists. split; [done|]. cbn. split; [done|]. split; [done|]. split; [by intros []|done].
Qed.

Lemma send_raw_run (p : link X App) data :
  link_up p -> 0 < blen data ->
  exists l', rtc_transport_send_raw data p = ((p.1, l'), Ok ()) /\
    sends (io l') = sends (io p.2) ++ [Datagram (addr_map_v4 (selected_remote (ice p.1))) None data] /\
    sock (io l') = sock (io p.2) /\ (forall t, routes l' t = routes p.2 t).
Proof.
  intros [Hv Hs] Hd. unfold rtc_transport_send_raw. rewrite st_bind_eq. cbn [get].
  rewrite (proj2 (Z.eqb_neq _ _)) by lia. rewrite Hv. cbn [negb fail_if].
  rewrite !(st_bind_lift _ _ _ _ eq_refl).
  destruct (send_to_run p.2 data (selected_remote (ice p.1)) Hs) as (l' & E & Hl).
  exists l'. split; [|tauto]. unfold on_lis. by erewrite zoom_eq by exact E.
Qed.

Context {evp : Srtp.Evp} {elaws : Srtp.EvpLaws}.

(** a transport that sends packets of [ssrc] with keys like those of [c],
    having last sent index [i] *)
Record sends_at (p : link X App) (c : rtc_srtp_ctx_t) (ssrc : Z) (i : option Z) : Prop := {
  sa_up : link_up p;
  sa_ready : srtp_ready (sec p.1) = true;
  sa_init : initialized (srtp_send (sec p.1)) = true;
  sa_at : sender_at (srtp_send (sec p.1)) ssrc i;
  sa_keys : same_keys c (srtp_send (sec p.1))
}.

Lemma send_rtp_run (p : link X App) c ssrc i I buf hdr data cap :
  sends_at p c ssrc i -> follows i I -> rtp_packet buf ssrc I -> rtp_split buf hdr data ->
  blen buf + SRTP_GCM_TAG_LEN <= cap ->
  exists p' ct tag, rtc_transport_send_rtp buf cap p = (p', Ok (hdr ++ ct ++ tag)) /\
    wire c ssrc I hdr data ct tag /\ sends_at p' c ssrc (Some I) /\
    sends (io p'.2) = sends (io p.2) ++ [Datagram (addr_map_v4 (selected_remote (ice p.1))) None (hdr ++ ct ++ tag)].
Proof.
  intros [Hup Hr Hi Hat Hk] Hf Hp Hsp Hcap.
  destruct (protect_run (srtp_send (sec p.1)) ssrc i I buf hdr data cap) as (c' & ct & tag & E & Hw & Hs' & Hk'); auto.
  { unfold tag_len, SRTP_AUTH_TAG_LEN, SRTP_GCM_TAG_LEN in *. destruct (srtp_is_gcm _); lia. }
  unfold rtc_transport_send_rtp. rewrite st_bind_eq. cbn [get]. rewrite Hr, (lu_selected p Hup). cbn [negb orb fail_if].
  rewrite (st_bind_lift _ _ _ _ eq_refl). unfold on_srtp_send.
  rewrite (st_bind_run _ _ _ _ _ (zoom_eq _ _ _ p _ _ E)).
  set (p1 := (_, _) : link X App).
  assert (link_up p1) as Hup1 by (destruct Hup; by constructor).
  destruct Hsp as (_ & Hh & _).
  destruct (send_raw_run p1 (hdr ++ ct ++ tag) Hup1) as (l' & Es & Hl & Hso & _).
  { rewrite blen_app. pose proof (blen_nonneg (ct ++ tag)). lia. }
  rewrite (st_bind_run _ _ _ _ _ Es). eexists _, ct, tag. split; [done|].
  split; [by eapply wire_same_keys; [symmetry|]|]. split; [|done].
  constructor; cbn; [|done| |done|by etrans].
  - constructor; cbn; [apply Hup|]. rewrite Hso. apply Hup.
  - destruct Hk'; intuition congruence.
Qed.
End Link.

Section Media.
Context {X K : Type} {kern : Kernel} {kacc : KernelAccepts} {evp : Srtp.Evp} {elaws : Srtp.EvpLaws}.
Context {inet : Inet} {senv : StunEnv} {ossl : Dtls.OpenSsl X} {olaws : Dtls.OpenSslLaws X}.
Context {wkt : WorkerTimers K transport_timer} {tot : TimersTotal K transport_timer}.
#[local] Abbreviation world := (world X K (list app_event)).

(** a transport that receives packets of [ssrc] with keys like those of [c],
    the last one with index [i], and hands them to the RTP callback *)
Record receives_at (w : world) (c : rtc_srtp_ctx_t) (ssrc : Z) (i : option Z) : Prop := {
  ra_open : closed (tp w) = false;
  ra_ready : srtp_ready (sec (tp w)) = true;
  ra_init : initialized (srtp_recv (sec (tp w))) = true;
  ra_at : receiver_at (srtp_recv (sec (tp w))) ssrc i;
  ra_keys : same_keys c (srtp_recv (sec (tp w)));
  ra_demux : RtpDemux.ready (rtp_demux (cbs (tp w))) = false;
  ra_cb : on_rtp (cbs (tp w)) = true;
  ra_twcc : twcc_enabled (cc (tp w)) = false
}.

Lemma record_arrival_off e pkt (w : world) :
  twcc_enabled (cc (tp w)) = false -> transport_record_twcc_arrival e pkt w = (w, Ok ()).
Proof.
  intros H. unfold transport_record_twcc_arrival. rewrite st_bind_eq. cbn [get].
  destruct (Rtp.ext_data pkt); [|done]. by rewrite H.
Qed.

Lemma on_rtp_run self e from (w : world) c ssrc i I buf hdr data ct tag pkt :
  receives_at w c ssrc i -> follows i I -> rtp_packet buf ssrc I -> rtp_split buf hdr data ->
  wire c ssrc I hdr data ct tag -> blen (hdr ++ ct ++ tag) <= SRTP_MAX_PACKET ->
  Rtp.rtc_rtp_parse (stale_pkt e) buf = Ok pkt ->
  exists w', transport_on_packet self e RTC_PKT_RTP (hdr ++ ct ++ tag) from w = (w', Ok ()) /\
    app w' = app w ++ [GotRtp pkt] /\ receives_at w' c ssrc (Some I).
Proof.
  intros [Ho Hr Hi Hat Hk Hd Hcb Ht] Hf Hp Hsp Hw Hl Hpkt.
  destruct (unprotect_run (srtp_recv (sec (tp w))) ssrc i I buf hdr data ct tag) as (c' & E & Hr' & Hk'); auto.
  { by eapply wire_same_keys. }
  unfold transport_on_packet. rewrite st_bind_eq. cbn [get]. rewrite Ho. rewrite st_bind_eq.
  unfold count_packet, on_tp at 1. cbv beta iota. set (w1 := World _ _ _ : world).
  unfold transport_handle_rtp. rewrite st_bind_eq. cbn [get].
  change (srtp_ready (sec (tp w1))) with (srtp_ready (sec (tp w))). rewrite Hr, (proj2 (Z.ltb_ge _ _) Hl). cbn [negb orb].
  rewrite st_bind_eq. unfold st_attempt, on_link, on_srtp_recv, zoom.
  change (srtp_recv (sec (lnk w1).1)) with (srtp_recv (sec (tp w))). rewrite E. cbn [attempt].
  rewrite Hpkt. cbn [attempt]. rewrite (st_bind_lift _ _ _ _ eq_refl). rewrite st_bind_eq. cbn [get].
  set (w2 := set_lnk w1 _).
  change (cbs (tp w2)) with (cbs (tp w)). rewrite Hd.
  rewrite st_bind_eq. cbn [mret st_ret]. rewrite st_bind_eq. cbn [get]. change (cbs (tp w2)) with (cbs (tp w)). rewrite Hcb.
  cbn [negb andb]. rewrite st_bind_eq. cbn [hook_rtp recorder]. unfold record_event.
  rewrite record_arrival_off by done. eexists. split; [done|]. split; [done|].
  constructor; cbn; try done.
  - destruct Hk'; intuition congruence.
  - by etrans.
Qed.

Lemma classify_prefix hdr x y : 12 <= blen hdr -> transport_classify (hdr ++ x) = transport_classify (hdr ++ y).
Proof. intros H. destruct hdr as [|a [|b hdr]]; [done| |done]. unfold blen in H. cbn in H. lia. Qed.

(** ** A flow of packets

    The sender passes packets to [rtc_transport_send_rtp]; the datagram the
    kernel got last is lost, or arrives and is classified and handed to the
    receiving transport. *)

Definition last_datagram {X'} (p : link X' (list app_event)) : bytes :=
  default [] (payload <$> last (sends (io p.2))).

Fixpoint media_flow (self : Z) (e : env) (from : rtc_addr_t) (cap : Z) (a : link X (list app_event)) (b : world)
    (pkts : list (Z * bool * bytes)) : link X (list app_event) * world * list (res unit) :=
  match pkts with
  | [] => (a, b, [])
  | (_, delivered, buf) :: rest =>
      let '(a, r) := rtc_transport_send_rtp buf cap a in
      let d := last_datagram a in
      let '(b, r') := if delivered : bool then transport_on_packet self e (transport_classify d) d from b else (b, Ok ()) in
      let '(a, b, rs) := media_flow self e from cap a b rest in
      (a, b, (_ ← r; r') :: rs)
  end.

(** the packets parse, and are seen as RTP *)
Definition rtp_buffers (e : env) (pkts : list (Z * bool * bytes)) : Prop :=
  Forall (fun '(_, _, buf) => is_ok (Rtp.rtc_rtp_parse (stale_pkt e) buf) = true /\ transport_classify buf = RTC_PKT_RTP) pkts.

Definition parsed (e : env) (buf : bytes) : list app_event :=
  match Rtp.rtc_rtp_parse (stale_pkt e) buf with Ok p => [GotRtp p] | _ => [] end.

Lemma media_flow_run self e from cap c ssrc pkts : forall (a : link X (list app_event)) (b : world) sent recvd,
  cap <= SRTP_MAX_PACKET -> sends_at a c ssrc sent -> receives_at b c ssrc recvd ->
  session_ok ssrc cap sent recvd pkts -> rtp_buffers e pkts ->
  exists a' b', media_flow self e from cap a b pkts = (a', b', (fun _ => Ok ()) <$> pkts) /\
    app b' = app b ++ mjoin (parsed e <$> delivered_packets pkts).
Proof.
  induction pkts as [|[[I d] buf] rest IH]; intros a b sent recvd Hcap Ha Hb Hok Hbuf.
  { exists a, b. by rewrite app_nil_r. }
  destruct Hok as (Hp & Hc & Hfs & Hfr & Hrest). apply Forall_cons_1 in Hbuf as [[Hpar Hcl] Hbuf].
  destruct (rtp_packet_split _ _ _ Hp) as (hdr & data & Hsp).
  destruct (send_rtp_run a c ssrc sent I buf hdr data cap Ha Hfs Hp Hsp Hc) as (a1 & ct & tag & E & Hw & Ha1 & Hs).
  cbn [media_flow]. rewrite E. unfold last_datagram. rewrite Hs, last_snoc. cbn [fmap option_fmap option_map default from_option id payload].
  destruct d; cbn [delivered_packets omap list_omap].
  - assert (transport_classify (hdr ++ ct ++ tag) = RTC_PKT_RTP) as ->.
    { destruct Hsp as (-> & Hh & _). by rewrite (classify_prefix hdr (ct ++ tag) data). }
    destruct (Rtp.rtc_rtp_parse (stale_pkt e) buf) as [pkt| |] eqn:Epkt; [|done..].
    destruct (on_rtp_run self e from b c ssrc recvd I buf hdr data ct tag pkt) as (b1 & E1 & Happ & Hb1); auto.
    { destruct Hw as (Hct & Htag & _), Hsp as (-> & _). rewrite !blen_app in *.
      unfold tag_len, SRTP_GCM_TAG_LEN, SRTP_AUTH_TAG_LEN in *. destruct (srtp_is_gcm _); lia. }
    rewrite E1. destruct (IH a1 b1 (Some I) (Some I)) as (a' & b' & -> & Happ'); auto.
    exists a', b'. split; [done|]. rewrite Happ', Happ, <-app_assoc. cbn [fmap list_fmap mjoin list_join]. f_equal.
    unfold parsed at 2. by rewrite Epkt.
  - destruct (IH a1 b (Some I) recvd) as (a' & b' & -> & Happ'); auto. by exists a', b'.
Qed.

(** the sending end [wa] and the receiving end [wb] of one DTLS connection, at
    the moment both handshakes are complete *)
Record connected_pair (wa wb : world) (ea eb : env) : Prop := {
  cp_mutex : mutex_send ea = true /\ mutex_recv ea = true /\ mutex_send eb = true /\ mutex_recv eb = true;
  cp_fresh : srtp_ready (sec (tp wa)) = false /\ srtp_ready (sec (tp wb)) = false;
  cp_roles : Dtls.role (w_dtls wa) <> Dtls.role (w_dtls wb);
  cp_link : exists g kl sl mat, handshaken (w_dtls wa) g kl sl mat /\ handshaken (w_dtls wb) g kl sl mat;
  cp_up : link_up (lnk wa);
  cp_open : closed (tp wb) = false;
  cp_cb : on_rtp (cbs (tp wb)) = true;
  cp_demux : RtpDemux.ready (rtp_demux (cbs (tp wb))) = false;
  cp_twcc : twcc_enabled (cc (tp wb)) = false
}.

Lemma context_of_start g kl sl k ssrc :
  evp_ctx_new = true -> blen k.1 = kl -> blen k.2 = sl -> kl = 16 \/ kl = 32 -> 12 <= sl <= 14 ->
  initialized (context_of g kl sl k) = true /\ sender_at (context_of g kl sl k) ssrc None /\
  receiver_at (context_of g kl sl k) ssrc None.
Proof.
  intros Hc Hk Hs Hkl Hsl. pose proof (context_of_init g kl sl k Hc Hk Hs Hkl Hsl) as E.
  destruct (init_start _ _ _ _ _ _ _ ssrc E) as (? & ? & ? & _). done.
Qed.

End Media.
End TransportSpec.
