(* ===== verification/TransportModel.v ===== *)
(** * Models of what the transport gets from outside

    A DTLS library, a worker and a network with the laws the theorems about
    transports rely on, for evaluating examples.  The handshake is two
    records: the client's, then the server's; both ends export the same
    bytes. *)

From S2P Require Import Prelude Srtp SrtpSession SrtpWitness StunSpec InetModel Stun PacketIo Dtls Listener Transport.
From S2P Require Import TransportSpec.
From Stdlib Require Import ZArith Lia.
From stdpp Require Import base list numbers.
#[local] Open Scope Z_scope.

Module TransportModel.
Import Srtp SrtpSession SrtpWitness StunSpec InetModel Stun PacketIo Dtls Listener Transport TransportSpec.

(** ** DTLS *)

Record toy := Toy { t_client : bool; t_in : bytes; t_out : bytes; t_started : bool; t_done : bool }.

Definition toy_handshake (x : toy) : toy * handshake_status :=
  if t_done x then (x, HS_DONE)
  else if t_client x then
    if negb (t_started x) then (Toy true (t_in x) (t_out x ++ [22; 1]) true false, HS_WANT)
    else if bool_decide (t_in x = [22; 2]) then (Toy true [] (t_out x) true true, HS_DONE)
    else (x, HS_WANT)
  else if bool_decide (t_in x = [22; 1]) then (Toy false [] (t_out x ++ [22; 2]) true true, HS_DONE)
  else (x, HS_WANT).

#[export] Instance toy_openssl : OpenSsl toy := {|
  ssl_set_state r x :=
    Toy (match r with RTC_DTLS_ROLE_CLIENT => true | RTC_DTLS_ROLE_SERVER => false end) (t_in x) (t_out x) false false;
  ssl_do_handshake := toy_handshake;
  ssl_handle_timeout x := (x, 0);
  bio_write d x := Toy (t_client x) (t_in x ++ d) (t_out x) (t_started x) (t_done x);
  bio_pending x := blen (t_out x);
  bio_read n x :=
    match t_out x with
    | [] => (x, None)
    | o => (Toy (t_client x) (t_in x) (drop (Z.to_nat n) o) (t_started x) (t_done x), Some (take (Z.to_nat n) o))
    end;
  ssl_read n x := (x, None);
  ssl_backlog x := 0%nat;
  ssl_write d x := (Toy (t_client x) (t_in x) (t_out x ++ d) (t_started x) (t_done x), blen d);
  ssl_srtp_profile x := Some SRTP_AEAD_AES_128_GCM;
  ssl_export x n l := if 0 <=? n then Some ((fun i => Z.of_nat i mod 256) <$> seq 0 (Z.to_nat n)) else None
|}.

#[export] Instance toy_openssl_laws : OpenSslLaws toy.
Proof.
  refine {| bio_text := t_out |}.
  - done.
  - intros n x Hn Hx. cbn. destruct (t_out x) as [|b o] eqn:E; [done|]. by eexists.
  - intros n x E. exists x. cbn. by rewrite E.
  - by intros n x x' d [=].
  - intros x n l d. cbn. destruct (Z.leb_spec 0 n); [|done]. intros [= <-]. unfold blen.
    rewrite length_fmap, length_seq. lia.
Defined.

(** ** Worker and network *)

(** handles count up; the armed timers *)
Record toy_worker := ToyWorker { next_handle : Z; armed : list (Z * Z * transport_timer) }.

#[export] Instance toy_timers : WorkerTimers toy_worker transport_timer := {|
  wk_add_timer at_ms c k :=
    (ToyWorker (next_handle k + 1) (armed k ++ [(next_handle k, at_ms, c)]), Ok (next_handle k));
  wk_cancel_timer tm k := (ToyWorker (next_handle k) (filter (fun x => x.1.1 <> tm) (armed k)), Ok ())
|}.

#[export] Instance toy_timers_total : TimersTotal toy_worker transport_timer.
Proof. split; by eauto. Qed.

(** a datagram of any size is taken *)
#[export] Instance toy_kernel : Kernel := fun _ d => (1 + blen (payload d), false).
#[export] Instance toy_kernel_accepts : KernelAccepts.
Proof. intros l d. cbn. pose proof (blen_nonneg (payload d)). lia. Qed.

(** ** Two ends after the handshake *)

Definition ok_env : env :=
  Env 1000 1000000 (replicate 12 7) (Allocs true true true) true true true [].

Definition ex_io : rtc_packet_io_t :=
  PacketIo (Some 3) (AF_INET6 5000 (replicate 16 0)) true AF_OTHER false 0 0 0 0 0 0 0 0 [] false true [].
Definition ex_lis : rtc_listener_t Z := listener_zero (ListenerConfig [] [] 0 true false [] 0) ex_io.
Definition ex_worker : toy_worker := ToyWorker 1 [].

Definition ex_dtls (r : rtc_dtls_role_t) : rtc_dtls_transport_t toy :=
  with_state (DtlsState true (Some (Toy (bool_decide (r = RTC_DTLS_ROLE_CLIENT)) [] [] true true)) true RTC_DTLS_STATE_NEW r
    [] (zeros 32) (zeros 14) (zeros 32) (zeros 14) false 16 14 false) RTC_DTLS_STATE_CONNECTED.

Definition ex_end (r : rtc_dtls_role_t) (peer : rtc_addr_t) : world toy toy_worker (list app_event) :=
  let t := transport_zero (TransportConfig RTC_ICE_MODE_FULL false false 0) [97] [98] (ex_dtls r) in
  let t := with_ice t (ice_select (ice t) peer) in
  World (with_cbs t (Handlers true false false false (rtp_demux (cbs t))), ex_lis) ex_worker [].

Definition addr_a : rtc_addr_t := AF_INET 4000 0x0A000001.
Definition addr_b : rtc_addr_t := AF_INET 4000 0x0A000002.

End TransportModel.
