(* ===== verification/TransportIce.v ===== *)
(** * Connectivity checks between two transports

    Two transports find each other over STUN: the check one end sends reaches
    the transport the other end registered under its ufrag, whose answer
    reaches the first one under the transaction id; both then have a selected
    address and a route for it.  Checks end, and a closed transport is silent.
    The peer and the network between the listeners are as the statements
    spell out. *)

From Stdlib Require Import String.
From S2P Require Import Prelude Srtp U32Map StrMap RtpDemux Stun StunSpec Text PacketIo Sdp Dtls Listener ListenerSpec.
From S2P Require Import InetModel SrtpWitness Transport TransportSpec TransportModel.
From Stdlib Require Import ZArith Lia.
From stdpp Require Import base list numbers gmap.
#[local] Open Scope Z_scope.

Module TransportIce.
Import Stun Text PacketIo Listener ListenerSpec Transport TransportSpec.

(** ** Routes *)

Definition allocs_ok (a : allocs) : Prop := a_route a = true /\ a_map a = true /\ a_key a = true.

Section Routes.
Context `{InetLaws}.
Implicit Types (l : rtc_listener_t Z) (m : rkey -> option (listener_route_t Z)).

(** a registration that has the memory it needs succeeds *)
Lemma register_ok l m a k s u :
  holds l m -> key_ok k -> key_text k = Ok s -> allocs_ok a -> StrMap.cap (routes l (key_table k)) <= 2 ^ 58 ->
  exists x, listener_register_route a (key_table k) s (ROUTE u) l = (with_routes l (key_table k) x, Ok ()) /\
    holds (with_routes l (key_table k) x) (upd m k (Some (ROUTE u))).
Proof.
  intros Hl Hk Hs (H1 & H2 & H3) Hc. destruct (listener_register_route a (key_table k) s (ROUTE u) l) as [l' r] eqn:E.
  destruct (register_holds _ _ _ _ _ _ _ _ Hl Hk Hs E) as [Hl' _].
  unfold listener_register_route in E. rewrite H1, H2, H3 in E. cbn [negb] in E.
  destruct (Hl (key_table k)) as (g & Hg & _).
  destruct (StrMap.str_set_spec None _ _ true true s (Some (ROUTE u)) Hg) as (x & [[Ex _]|(_ & _ & [?|[?|?]])]);
    [|done|done|lia].
  rewrite Ex in E. injection E as <- <-. by exists x.
Qed.

Lemma unregister_ok l m a k s :
  holds l m -> key_ok k -> key_text k = Ok s ->
  exists x, listener_unregister_route a (key_table k) s l = (with_routes l (key_table k) x, Ok ()) /\
    holds (with_routes l (key_table k) x) (upd m k None).
Proof.
  intros Hl Hk Hs. destruct (listener_unregister_route a (key_table k) s l) as [l' r] eqn:E.
  destruct (unregister_holds _ _ _ _ _ _ _ Hl Hk Hs E) as [Hl' ->]. unfold listener_unregister_route in E.
  destruct (StrMap.rtc_str_map_remove _ _ _ _) as [x rc] eqn:Ex. injection E as <- _. by exists x.
Qed.

Lemma register_tuple_ok l m a remote u :
  holds l m -> addr_ok remote -> allocs_ok a -> StrMap.cap (routes l TUPLE) <= 2 ^ 58 ->
  exists x, rtc_listener_register_tuple a remote u l = (with_routes l TUPLE x, Ok ()) /\
    holds (with_routes l TUPLE x) (upd m (KTuple remote) (Some (ROUTE u))).
Proof.
  intros Hl Ha Hal Hc. destruct (tuple_key_ok remote Ha) as (s & Es).
  destruct (register_ok l m a (KTuple remote) s u Hl Ha Es Hal Hc) as (x & E & Hx).
  exists x. split; [|done]. unfold rtc_listener_register_tuple. by rewrite (st_bind_lift _ _ _ _ Es).
Qed.

Lemma route_request l m data msg f r from :
  holds l m -> rtc_stun_parse data = Ok msg -> Stun.type msg = STUN_BINDING_REQUEST ->
  username_local_ufrag msg 128 = Ok f -> m (KUfrag f) = Some r ->
  listener_route l RTC_PKT_STUN data from = Ok (Some r).
Proof.
  intros Hl Hp Ht Hu Hm. cbn [listener_route]. unfold listener_route_stun. rewrite Hp. cbn [attempt mbind res_bind].
  rewrite Ht, Z.eqb_refl, Hu. cbn [attempt mbind res_bind].
  by rewrite (holds_lookup l m (KUfrag f) f Hl I eq_refl : listener_lookup_route l UFRAG f = _), Hm.
Qed.

Lemma route_response l m data msg r from :
  holds l m -> rtc_stun_parse data = Ok msg -> Stun.type msg <> STUN_BINDING_REQUEST ->
  bytes_ok (txn_id msg) -> m (KTxn (txn_id msg)) = Some r ->
  listener_route l RTC_PKT_STUN data from = Ok (Some r).
Proof.
  intros Hl Hp Ht Hb Hm. cbn [listener_route]. unfold listener_route_stun. rewrite Hp. cbn [attempt mbind res_bind].
  rewrite (proj2 (Z.eqb_neq _ _) Ht). cbn [mbind res_bind].
  by rewrite (holds_lookup l m (KTxn (txn_id msg)) _ Hl Hb eq_refl : listener_lookup_route l TXN _ = _), Hm.
Qed.

Lemma route_media l m from r data :
  holds l m -> addr_ok from -> m (KTuple from) = Some r -> listener_route l RTC_PKT_DTLS data from = Ok (Some r).
Proof.
  intros Hl Ha Hm. destruct (tuple_key_ok from Ha) as (s & Es). cbn [listener_route]. unfold listener_route_tuple.
  rewrite Es. cbn [attempt mbind res_bind].
  by rewrite (holds_lookup l m (KTuple from) s Hl Ha Es : listener_lookup_route l TUPLE s = _), Hm.
Qed.
End Routes.

(** ** The user name of a check *)

Lemma before_colon_app u rest : Forall (fun b => b <> 58) u -> before_colon (u ++ 58 :: rest) = u.
Proof.
  induction 1 as [|b u Hb _ IH]; [done|]. simpl. by rewrite (proj2 (Z.eqb_neq b 58) Hb), IH.
Qed.

(** an ICE ufrag as [rtc_random_string] makes them *)
Definition ufrag_ok (u : bytes) : Prop := 0 < blen u < ICE_UFRAG_LEN /\ Forall (fun b => b <> 58 /\ b <> 0) u.

Lemma cstr_id u : Forall (fun b => b <> 0) u -> Sdp.cstr u = u.
Proof. induction 1 as [|b u Hb _ IH]; [done|]. cbn [Sdp.cstr]. by rewrite (proj2 (Z.eqb_neq b 0) Hb), IH. Qed.

Lemma check_username_eq i :
  ufrag_ok (remote_ufrag i) -> blen (ice_ufrag i) < ICE_UFRAG_LEN ->
  check_username i = remote_ufrag i ++ 58 :: ice_ufrag i.
Proof.
  intros [Hl _] Hl'. unfold check_username. change (str ":") with [58]. apply take_ge.
  unfold blen, ICE_UFRAG_LEN in *. rewrite !length_app. cbn [length]. lia.
Qed.

Lemma username_of_check msg i :
  rtc_stun_find_attr msg STUN_ATTR_USERNAME = Ok (Some (check_username i)) ->
  ufrag_ok (remote_ufrag i) -> blen (ice_ufrag i) < ICE_UFRAG_LEN ->
  username_local_ufrag msg 128 = Ok (remote_ufrag i).
Proof.
  intros Hf Hu Hl. unfold username_local_ufrag. rewrite Hf. cbn [mbind res_bind].
  rewrite (check_username_eq i Hu Hl). destruct Hu as [Hul Hc].
  assert (blen (remote_ufrag i ++ 58 :: ice_ufrag i) <> 0) as Hne.
  { rewrite blen_app, blen_cons. pose proof (blen_nonneg (ice_ufrag i)). lia. }
  rewrite (proj2 (Z.eqb_neq _ 0) Hne).
  cbn [fail_if mbind res_bind]. rewrite before_colon_app.
  2: { eapply Forall_impl; [exact Hc|]. by intros b [? _]. }
  rewrite (proj2 (Z.eqb_neq (blen (remote_ufrag i)) 0)) by lia. cbn [fail_if mbind res_bind].
  rewrite take_ge by (unfold blen, ICE_UFRAG_LEN in *; lia). rewrite cstr_id; [done|].
  eapply Forall_impl; [exact Hc|]. by intros b [_ ?].
Qed.

(** ** Sending a check *)

(** whatever the kernel answers *)
Lemma send_to_any {kern : Kernel} (l l' : rtc_listener_t Z) data dest r :
  rtc_listener_send_to data dest l = (l', r) ->
  no_fault r /\ (forall t, routes l' t = routes l t) /\ blen (sends (io l')) <= blen (sends (io l)) + 1.
Proof.
  unfold rtc_listener_send_to, zoom, rtc_packet_io_send, send_closed, account.
  destruct (sock (io l)); [|by intros [= <- <-]; split; [done|]; split; [by intros []|cbn; lia]].
  destruct (kernel_send _ _) as [n wb]. destruct (0 <? n); [|destruct wb]; intros [= <- <-];
    (split; [done|]; split; [by intros []|]; cbn; rewrite blen_app; done).
Qed.

Section Check.
Context `{InetLaws} {X App : Type} {kern : Kernel} {evp : Srtp.Evp} {elaws : Srtp.EvpLaws} {senv : StunEnv}.
#[local] Abbreviation link := (link X App).

(** what a transport needs to send checks; [m]: the routes of its listener *)
Record can_check (p : link) (m : rkey -> option (listener_route_t Z)) (e : env) : Prop := {
  ck_remote : remote_ice_valid (ice p.1) = true;
  ck_cand : remote_candidate_valid (ice p.1) = true;
  ck_txn : length (rnd_txn e) = 12%nat /\ bytes_ok (rnd_txn e);
  ck_old : bytes_ok (ice_txn_id (ice p.1));
  ck_count : 0 <= ice_check_count (ice p.1) < INT_MAX;
  ck_holds : holds p.2 m
}.

(** the routes once the previous transaction is forgotten *)
Definition forget (i : ice_t) (m : rkey -> option (listener_route_t Z)) : rkey -> option (listener_route_t Z) :=
  if ice_txn_registered i then upd m (KTxn (ice_txn_id i)) None else m.

Lemma unregister_txn_run e (p : link) m :
  holds p.2 m -> bytes_ok (ice_txn_id (ice p.1)) ->
  exists l', transport_unregister_ice_txn e p =
      ((with_ice p.1 (ice_set_txn (ice p.1) (ice_txn_id (ice p.1)) false), l'), Ok ()) /\
    holds l' (forget (ice p.1) m) /\ io l' = io p.2 /\
    (forall t, t <> TXN -> routes l' t = routes p.2 t).
Proof.
  intros Hl Hb. unfold transport_unregister_ice_txn, forget. rewrite st_bind_eq. cbn [get].
  destruct (ice_txn_registered (ice p.1)) eqn:Er.
  - destruct (unregister_ok p.2 m (al e) (KTxn (ice_txn_id (ice p.1))) _ Hl Hb eq_refl) as (x & E & Hx).
    cbn [key_table] in *. rewrite st_bind_eq. unfold on_lis, zoom, rtc_listener_unregister_stun_txn. rewrite E.
    eexists. split; [done|]. split; [done|]. split; [done|]. by intros [].
  - exists p.2. split; [|done]. destruct p as [[? [] ? ? ? ? ?] ?]. cbn in Er. by subst.
Qed.

Lemma check_request e (p : link) m :
  can_check p m e -> blen (check_username (ice p.1)) <= 17 ->
  exists req, rtc_stun_build_binding_request (rnd_txn e) (Some (check_username (ice p.1))) (Some (remote_pwd (ice p.1)))
      0x7E0000FF true 0x123456789ABCDEF0 true = Ok req /\ txn_id req = rnd_txn e /\
    transport_classify (buf req) = RTC_PKT_STUN /\
    exists msg, rtc_stun_parse (buf req) = Ok msg /\ Stun.type msg = STUN_BINDING_REQUEST /\ txn_id msg = rnd_txn e /\
      rtc_stun_find_attr msg STUN_ATTR_USERNAME = Ok (Some (check_username (ice p.1))).
Proof.
  intros [_ _ [Ht _] _ _ _] Hu.
  destruct (StunSpec.binding_request_received (rnd_txn e) (Some (check_username (ice p.1))) (remote_pwd (ice p.1)) 0x7E0000FF true
    0x123456789ABCDEF0 true Ht) as (req & E & Hid & (n & rest & Hb) & msg & Hp & Hty & Htx & Hf & _); [cbn; lia|].
  exists req. split; [done|]. split; [done|]. split; [by rewrite Hb|]. exists msg. split; [done|]. split; [done|].
  split; [done|]. rewrite Hf by done. done.
Qed.

Lemma check_username_short i : blen (check_username i) <= 17.
Proof. unfold check_username, blen. rewrite length_take. lia. Qed.

(** With the memory it needs and a socket that takes the datagram, a check is
    sent and waits for its answer. *)
Lemma send_check_run self e (p : link) m `{!KernelAccepts} :
  can_check p m e -> allocs_ok (al e) -> StrMap.cap (routes p.2 TXN) <= 2 ^ 57 -> sock (io p.2) <> None ->
  ice_txn_registered (ice p.1) = false ->
  exists req l', transport_send_ice_check self e p =
      ((with_ice p.1 (ice_set_count (ice_set_txn (ice p.1) (rnd_txn e) true) (ice_check_count (ice p.1) + 1)), l'), Ok ()) /\
    holds l' (upd m (KTxn (rnd_txn e)) (Some (ROUTE self))) /\ sock (io l') = sock (io p.2) /\
    sends (io l') = sends (io p.2) ++ [Datagram (addr_map_v4 (remote_candidate (ice p.1))) None (buf req)] /\
    (forall t, t <> TXN -> routes l' t = routes p.2 t) /\
    transport_classify (buf req) = RTC_PKT_STUN /\
    exists msg, rtc_stun_parse (buf req) = Ok msg /\ Stun.type msg = STUN_BINDING_REQUEST /\ txn_id msg = rnd_txn e /\
      rtc_stun_find_attr msg STUN_ATTR_USERNAME = Ok (Some (check_username (ice p.1))).
Proof.
  intros Hck Hal Hcap Hsock Hreg.
  destruct (check_request e p m Hck (check_username_short _)) as (req & Ereq & Hid & Hcl & Hmsg).
  destruct Hck as [Hr Hc [Ht Htb] Hold Hcnt Hl]. unfold transport_send_ice_check. rewrite st_bind_eq. cbn [get].
  rewrite Hr, Hc. cbn [negb orb fail_if]. rewrite (st_bind_lift _ _ _ _ eq_refl), (st_bind_lift _ _ _ _ Ereq).
  rewrite st_bind_eq. unfold transport_unregister_ice_txn. rewrite st_bind_eq. cbn [get]. rewrite Hreg.
  cbn [mret st_ret]. rewrite st_bind_eq. unfold on_ice at 1. cbv beta iota. rewrite Hid.
  destruct (register_ok p.2 m (al e) (KTxn (rnd_txn e)) _ self Hl Htb eq_refl Hal) as (x & Ex & Hx).
  { cbn [key_table]. lia. }
  cbn [key_table key_text] in *. rewrite st_bind_eq. unfold on_lis at 1, zoom at 1, rtc_listener_register_stun_txn.
  cbn [snd]. rewrite Ex. rewrite st_bind_eq. unfold on_ice at 1. cbv beta iota.
  destruct (send_to_run (with_routes p.2 TXN x) (buf req) (remote_candidate (ice p.1)) Hsock) as (l' & El & Hs & Hso & Hro & _).
  rewrite st_bind_eq. unfold on_lis, zoom. cbn [snd]. rewrite El.
  rewrite (st_bind_lift _ _ _ (ice_check_count (ice p.1) + 1)) by (apply int_val_Ok; unfold INT_MAX in *; lia).
  exists req, l'. split; [done|]. split; [|split; [done|split; [done|split; [|done]]]].
  - intros t. rewrite Hro. apply Hx.
  - intros t Hne. rewrite Hro. by destruct t.
Qed.
End Check.

(** ** Answering a check, and the answer *)

Section Answer.
Context `{InetLaws} {X K App : Type} {kern : Kernel} {kacc : KernelAccepts} {evp : Srtp.Evp} {elaws : Srtp.EvpLaws}.
Context {senv : StunEnv} {ossl : Dtls.OpenSsl X} {wkt : WorkerTimers K transport_timer}.
Context {tot : TimersTotal K transport_timer} {hooks : AppHooks X K App}.
#[local] Abbreviation world := (world X K App).

Lemma on_link_run {A} (f : st (link X App) A) (w : world) p r :
  f (lnk w) = (p, r) -> on_link f w = (set_lnk w p, r).
Proof. intros E. unfold on_link. by erewrite zoom_eq by exact E. Qed.

Lemma select_run self e from (p : link X App) m :
  holds p.2 m -> addr_ok from -> allocs_ok (al e) -> StrMap.cap (routes p.2 TUPLE) <= 2 ^ 58 ->
  selected_remote_valid (ice p.1) = false ->
  exists l', select_remote self e from p = ((with_ice p.1 (ice_select (ice p.1) from), l'), Ok ()) /\
    holds l' (upd m (KTuple from) (Some (ROUTE self))) /\ io l' = io p.2.
Proof.
  intros Hl Ha Hal Hc Hv. unfold select_remote. rewrite st_bind_eq. cbn [get]. rewrite Hv.
  rewrite st_bind_eq. unfold on_ice at 1. cbv beta iota.
  destruct (register_tuple_ok p.2 m (al e) from self Hl Ha Hal Hc) as (x & E & Hx).
  exists (with_routes p.2 TUPLE x). split; [|done].
  unfold void. rewrite st_bind_eq. unfold st_attempt, on_lis, zoom. cbn [snd]. by rewrite E.
Qed.

(** a Binding Request at a transport that has no selected address *)
Lemma on_request_run self e data msg port ip (w : world) m :
  holds (lis w) m -> addr_ok (AF_INET port ip) -> allocs_ok (al e) -> StrMap.cap (routes (lis w) TUPLE) <= 2 ^ 58 ->
  closed (tp w) = false -> selected_remote_valid (ice (tp w)) = false -> sock (io (lis w)) <> None ->
  rtc_stun_parse data = Ok msg -> Stun.type msg = STUN_BINDING_REQUEST ->
  exists w', transport_on_packet self e RTC_PKT_STUN data (AF_INET port ip) w = (w', Ok ()) /\
    ice (tp w') = ice_select (ice (tp w)) (AF_INET port ip) /\
    holds (lis w') (upd m (KTuple (AF_INET port ip)) (Some (ROUTE self))) /\
    sends (io (lis w')) = sends (io (lis w)) ++
      [Datagram (addr_map_v4 (AF_INET port ip)) None (StunSpec.response (txn_id msg) port ip)].
Proof.
  intros Hl Ha Hal Hc Ho Hv Hs Hp Ht. destruct (StunSpec.parse_header _ _ Hp) as [Hd Hsub].
  unfold transport_on_packet. rewrite st_bind_eq. cbn [get]. rewrite Ho. rewrite st_bind_eq.
  unfold count_packet, on_tp at 1. cbv beta iota. set (w1 := World _ _ _ : world).
  unfold transport_on_stun. rewrite Hp. cbn [attempt]. rewrite (st_bind_lift _ _ _ _ eq_refl).
  rewrite st_bind_eq. cbn [get]. rewrite Ht. cbn [Z.eqb Pos.eqb].
  change (STUN_BINDING_REQUEST =? STUN_BINDING_RESPONSE) with false.
  change (STUN_BINDING_REQUEST =? STUN_BINDING_REQUEST) with true. cbn [negb].
  destruct (select_run self e (AF_INET port ip) (lnk w1) m) as (l' & Es & Hl' & Hio); try done.
  rewrite (st_bind_run _ _ _ _ _ (on_link_run _ w1 _ _ Es)).
  rewrite (StunSpec.binding_response_run _ _ _ _ _ Hd Hsub) by lia. cbn [attempt].
  rewrite (st_bind_lift _ _ _ _ eq_refl). unfold void. rewrite st_bind_eq. unfold st_attempt, on_link, on_lis, zoom.
  cbn [lnk set_lnk snd].
  destruct (send_to_run l' (StunSpec.response (txn_id msg) port ip) (AF_INET port ip)) as (l2 & -> & Hs2 & _ & Hr2 & _).
  { by rewrite Hio. }
  eexists. split; [done|]. split; [done|]. split.
  - intros t. cbn. rewrite Hr2. apply Hl'.
  - cbn. by rewrite Hs2, Hio.
Qed.

(** the worker once the timer [tm] is cancelled, if it is one *)
Definition cancelled (k : K) (tm : Z) : K := if tm =? RTC_WORKER_TIMER_INVALID then k else (wk_cancel_timer tm k).1.

Lemma cancel_ice_timer_run (w : world) :
  exists w', transport_cancel_ice_timer w = (w', Ok ()) /\ lis w' = lis w /\ app w' = app w /\
    tp w' = with_ice (tp w) (ice_set_timer (ice (tp w)) RTC_WORKER_TIMER_INVALID) /\
    wk w' = cancelled (wk w) (ice_timer (ice (tp w))).
Proof.
  unfold transport_cancel_ice_timer, cancelled. rewrite st_bind_eq. cbn [get].
  destruct (Z.eqb_spec (ice_timer (ice (tp w))) RTC_WORKER_TIMER_INVALID) as [E|E].
  { exists w. split; [done|]. split; [done|]. split; [done|]. split; [|done].
    destruct w as [[[? [] ? ? ? ? ?] ?] ? ?]. unfold tp in *. cbn in *. by subst. }
  rewrite st_bind_eq. unfold on_wk, zoom. destruct (cancel_total (ice_timer (ice (tp w))) (wk w)) as [k' ->].
  eexists. split; [done|]. split; [done|]. by split.
Qed.

(** the answer to the outstanding check *)
Lemma on_response_run self e data msg from (w : world) m :
  holds (lis w) m -> addr_ok from -> allocs_ok (al e) -> StrMap.cap (routes (lis w) TUPLE) <= 2 ^ 58 ->
  closed (tp w) = false -> selected_remote_valid (ice (tp w)) = false ->
  ice_txn_registered (ice (tp w)) = true -> bytes_ok (ice_txn_id (ice (tp w))) ->
  rtc_stun_parse data = Ok msg -> Stun.type msg = STUN_BINDING_RESPONSE -> txn_id msg = ice_txn_id (ice (tp w)) ->
  exists w', transport_on_packet self e RTC_PKT_STUN data from w = (w', Ok ()) /\
    selected_remote (ice (tp w')) = from /\ selected_remote_valid (ice (tp w')) = true /\
    ice_txn_registered (ice (tp w')) = false /\ ice_timer (ice (tp w')) = RTC_WORKER_TIMER_INVALID /\
    holds (lis w') (upd (upd m (KTxn (ice_txn_id (ice (tp w)))) None) (KTuple from) (Some (ROUTE self))) /\
    io (lis w') = io (lis w).
Proof.
  intros Hl Ha Hal Hc Ho Hv Hreg Hb Hp Ht Hid.
  unfold transport_on_packet. rewrite st_bind_eq. cbn [get]. rewrite Ho. rewrite st_bind_eq.
  unfold count_packet, on_tp at 1. cbv beta iota. set (w1 := World _ _ _ : world).
  unfold transport_on_stun. rewrite Hp. cbn [attempt]. rewrite (st_bind_lift _ _ _ _ eq_refl).
  rewrite st_bind_eq. cbn [get]. rewrite Ht, Z.eqb_refl. change (ice (tp w1)) with (ice (tp w)).
  rewrite Hreg, Hid, bool_decide_eq_true_2 by done. cbn [negb orb].
  destruct (unregister_txn_run e (lnk w1) m) as (l1 & E1 & Hl1 & Hio1 & Hr1); [done|done|].
  rewrite (st_bind_run _ _ _ _ _ (on_link_run _ w1 _ _ E1)). set (w2 := set_lnk w1 _).
  destruct (cancel_ice_timer_run w2) as (w3 & E3 & L3 & _ & T3 & _). rewrite (st_bind_run _ _ _ _ _ E3).
  unfold forget in Hl1. change (ice (lnk w1).1) with (ice (tp w)) in *. rewrite Hreg in Hl1.
  destruct (select_run self e from (lnk w3) (upd m (KTxn (ice_txn_id (ice (tp w)))) None)) as (l4 & E4 & Hl4 & Hio4); try done.
  { change ((lnk w3).2) with (lis w3). by rewrite L3. }
  { change ((lnk w3).2) with (lis w3). rewrite L3. change (lis w2) with l1. by rewrite Hr1. }
  { change ((lnk w3).1) with (tp w3). by rewrite T3. }
  change ((lnk w3).1) with (tp w3) in *. change ((lnk w3).2) with (lis w3) in *.
  rewrite (on_link_run _ w3 _ _ E4). eexists. split; [done|].
  unfold tp, lis, set_lnk in *. cbn in *. rewrite T3. cbn. repeat (split; [done|]). by rewrite Hio4, L3, <-Hio1.
Qed.

(** ** Connecting *)

(** the listener hands the datagrams of [self] to the transport; [other]: what
    the other transports of the listener do *)
Definition to_transport (self : Z) (e : env) (other : listener_route_t Z -> rtc_pkt_type_t -> bytes -> rtc_addr_t -> st world unit)
    (r : listener_route_t Z) : rtc_pkt_type_t -> bytes -> rtc_addr_t -> st world unit :=
  match r with
  | ROUTE u => if u =? self then transport_on_packet self e else other r
  | GATHER => other r
  end.
Definition set_lis (w : world) (l : rtc_listener_t Z) : world := World (tp w, l) (wk w) (app w).
Definition arrives self e other (d : bytes) (from : rtc_addr_t) : st world unit :=
  listener_on_packet lis set_lis (to_transport self e other) (transport_classify d) d from.

Lemma arrives_routed self e other d from (w w' : world) :
  transport_classify d = RTC_PKT_STUN -> listener_route (lis w) RTC_PKT_STUN d from = Ok (Some (ROUTE self)) ->
  transport_on_packet self e RTC_PKT_STUN d from w = (w', Ok ()) -> arrives self e other d from w = (w', Ok ()).
Proof.
  intros Hc Hr E. unfold arrives, listener_on_packet. rewrite Hc, st_bind_eq. cbn [get].
  rewrite (st_bind_lift _ _ _ _ Hr). cbn [to_transport]. rewrite Z.eqb_refl. unfold void. rewrite st_bind_eq.
  by rewrite (st_attempt_Ok _ _ _ _ E).
Qed.

Lemma arm_ice_timer_run e (w : world) :
  exists w' tm, transport_arm_ice_timer e w = (w', Ok ()) /\ lis w' = lis w /\
    tp w' = with_ice (tp w) (ice_set_timer (ice (tp w)) tm).
Proof.
  assert (Hs : exists tm, tp w = with_ice (tp w) (ice_set_timer (ice (tp w)) tm)).
  { exists (ice_timer (ice (tp w))). destruct w as [[[? [] ? ? ? ? ?] ?] ? ?]. done. }
  unfold transport_arm_ice_timer. rewrite st_bind_eq. cbn [get].
  destruct (_ || _); [destruct Hs; by eexists w, _|]. destruct (negb _); [destruct Hs; by eexists w, _|].
  destruct (add_total (u64 (now_ms e + 250)) ICE_TIMER (wk w)) as (k' & tm & E).
  rewrite st_bind_eq. unfold on_wk, zoom. rewrite E. by eexists _, tm.
Qed.

(** the caller [wa] and the callee [wb], which were told each other's
    parameters: the caller the callee's ufrag and address *)
Record callable (wa wb : world) ma mb (addr_b : rtc_addr_t) (self_b : Z) (ea eb ea' : env) : Prop := {
  cl_mode : ice_mode (conf (tp wa)) = RTC_ICE_MODE_FULL;
  cl_check : can_check (lnk wa) ma ea;
  cl_new : ice_txn_registered (ice (tp wa)) = false;
  cl_ufrag : remote_ufrag (ice (tp wa)) = ice_ufrag (ice (tp wb));
  cl_ufrag_ok : ufrag_ok (ice_ufrag (ice (tp wb))) /\ blen (ice_ufrag (ice (tp wa))) < ICE_UFRAG_LEN;
  cl_addr : remote_candidate (ice (tp wa)) = addr_b;
  cl_route : holds (lis wb) mb /\ mb (KUfrag (ice_ufrag (ice (tp wb)))) = Some (ROUTE self_b);
  cl_open : closed (tp wa) = false /\ closed (tp wb) = false;
  cl_unselected : selected_remote_valid (ice (tp wa)) = false /\ selected_remote_valid (ice (tp wb)) = false;
  cl_sock : sock (io (lis wa)) <> None /\ sock (io (lis wb)) <> None;
  cl_memory : allocs_ok (al ea) /\ allocs_ok (al eb) /\ allocs_ok (al ea');
  cl_tables : forall t, StrMap.cap (routes (lis wa) t) <= 2 ^ 57 /\ StrMap.cap (routes (lis wb) t) <= 2 ^ 57
}.

(** C3: Two transports connect.  [rtc_transport_start_ice] sends one check to
    the peer's address; arriving at the peer's listener it is handed to the
    transport registered under the ufrag, which selects the sender's address
    and answers it; the answer, arriving at the first listener, is handed to
    the transport that sent the check, which selects the peer, forgets the
    transaction and cancels its timer.  From then on both listeners route the
    other end's datagrams to these two transports. *)
Theorem ice_connects self_a self_b other_a other_b ea eb ea' (wa wb : world) ma mb port ip addr_b :
  callable wa wb ma mb addr_b self_b ea eb ea' -> addr_ok (AF_INET port ip) -> addr_ok addr_b ->
  let addr_a := AF_INET port ip in
  exists wa1 wa2 wb1 check reply,
    rtc_transport_start_ice self_a ea wa = (wa1, Ok ()) /\
    sends (io (lis wa1)) = sends (io (lis wa)) ++ [Datagram (addr_map_v4 addr_b) None check] /\
    arrives self_b eb other_b check addr_a wb = (wb1, Ok ()) /\
    sends (io (lis wb1)) = sends (io (lis wb)) ++ [Datagram (addr_map_v4 addr_a) None reply] /\
    arrives self_a ea' other_a reply addr_b wa1 = (wa2, Ok ()) /\
    (selected_remote (ice (tp wa2)) = addr_b /\ selected_remote_valid (ice (tp wa2)) = true) /\
    (selected_remote (ice (tp wb1)) = addr_a /\ selected_remote_valid (ice (tp wb1)) = true) /\
    ice_txn_registered (ice (tp wa2)) = false /\ ice_timer (ice (tp wa2)) = RTC_WORKER_TIMER_INVALID /\
    (forall d, listener_route (lis wa2) RTC_PKT_DTLS d addr_b = Ok (Some (ROUTE self_a))) /\
    (forall d, listener_route (lis wb1) RTC_PKT_DTLS d addr_a = Ok (Some (ROUTE self_b))).
Proof.
  intros [Hmode Hck Hnew Huf [Hub Hua] Hcand [Hlb Hmb] [Hoa Hob] [Hva Hvb] [Hsa Hsb] (Hal1 & Hal2 & Hal3) Hcap] Ha Hb addr_a.
  destruct (Hcap TXN) as [CT _]. destruct (Hcap TUPLE) as [CA CB].
  destruct (send_check_run self_a ea (lnk wa) ma Hck Hal1 CT Hsa Hnew)
    as (req & l1 & E1 & Hl1 & Hso1 & Hs1 & Hr1 & Hcl & msg & Hp & Hty & Hid & Hf).
  set (wa0 := set_lnk wa (with_ice (tp wa) (ice_set_count (ice_set_txn (ice (tp wa)) (rnd_txn ea) true)
    (ice_check_count (ice (tp wa)) + 1)), l1)).
  destruct (arm_ice_timer_run ea wa0) as (wa1 & tm & Earm & L1 & T1).
  assert (Estart : rtc_transport_start_ice self_a ea wa = (wa1, Ok ())).
  { unfold rtc_transport_start_ice. rewrite st_bind_eq. cbn [get]. rewrite Hmode, bool_decide_eq_true_2 by done.
    cbn [negb fail_if]. rewrite (st_bind_lift _ _ _ _ eq_refl), Hva.
    by rewrite (st_bind_run _ _ _ _ _ (on_link_run _ wa _ _ E1)). }
  destruct (on_request_run self_b eb (buf req) msg port ip wb mb) as (wb1 & Eb & Ib & Hlb1 & Hsb1); try done; [lia|].
  assert (Hu : username_local_ufrag msg 128 = Ok (ice_ufrag (ice (tp wb)))).
  { rewrite <-Huf. apply username_of_check; [done|by rewrite Huf|done]. }
  pose proof (route_request _ _ _ _ _ _ addr_a Hlb Hp Hty Hu Hmb) as Rb.
  set (resp := StunSpec.response (txn_id msg) port ip) in *.
  destruct (ck_txn _ _ _ Hck) as [Hlen Hbts].
  assert (Hpr : rtc_stun_parse resp = Ok (mk_stun_msg STUN_BINDING_RESPONSE 12 (rnd_txn ea) resp)).
  { unfold resp. rewrite Hid. by apply StunSpec.response_parse. }
  destruct (on_response_run self_a ea' resp (mk_stun_msg STUN_BINDING_RESPONSE 12 (rnd_txn ea) resp) addr_b wa1 (upd ma (KTxn (rnd_txn ea)) (Some (ROUTE self_a))))
    as (wa2 & Ea & Sel & Val & Reg & Tm & Hla2 & _); try (rewrite ?L1, ?T1; done).
  { rewrite L1. change (lis wa0) with l1. rewrite Hr1 by done. change ((lnk wa).2) with (lis wa). lia. }
  exists wa1, wa2, wb1, (buf req), resp.
  split; [done|]. split; [rewrite L1, <-Hcand; exact Hs1|].
  split; [by apply arrives_routed|]. split; [done|]. split.
  { apply arrives_routed; [done| |done]. rewrite L1.
    eapply (route_response l1); [exact Hl1|exact Hpr|done|done|]. cbn [txn_id]. unfold upd. by rewrite decide_True. }
  split; [done|]. split; [by rewrite Ib|]. split; [done|]. split; [done|]. split.
  - intros d. eapply route_media; [exact Hla2|done|]. unfold upd. by rewrite decide_True.
  - intros d. eapply route_media; [exact Hlb1|done|]. unfold upd. by rewrite decide_True.
Qed.
End Answer.

(** ** Checks end *)

Section Timer.
Context `{InetLaws} {X K App : Type} {kern : Kernel} {evp : Srtp.Evp} {elaws : Srtp.EvpLaws}.
Context {senv : StunEnv} {ossl : Dtls.OpenSsl X} {wkt : WorkerTimers K transport_timer}.
Context {tot : TimersTotal K transport_timer} {hooks : AppHooks X K App}.
#[local] Abbreviation world := (world X K App).

(** one expiry after the other, as long as the timer is armed *)
Fixpoint expire_all (self : Z) (es : list env) : st world unit := fun w =>
  match es with
  | [] => (w, Ok ())
  | e :: es =>
      if ice_timer (ice (tp w)) =? RTC_WORKER_TIMER_INVALID then (w, Ok ())
      else (_ ← transport_ice_timer self e; expire_all self es) w
  end.

Definition txn_ok (e : env) : Prop := length (rnd_txn e) = 12%nat /\ bytes_ok (rnd_txn e).

(** the tables are sound, and the identifiers are byte strings *)
Definition ice_ok (p : link X App) : Prop :=
  (exists m, holds p.2 m) /\ bytes_ok (ice_txn_id (ice p.1)) /\ 0 <= ice_check_count (ice p.1).

(** one attempt: at most one datagram; the counter counts the successful ones *)
Lemma send_check_step self e (p : link X App) p' r :
  ice_ok p -> txn_ok e -> ice_check_count (ice p.1) < 120 -> transport_send_ice_check self e p = (p', r) ->
  no_fault r /\ ice_ok p' /\ ice_timer (ice p'.1) = ice_timer (ice p.1) /\
  ice_check_count (ice p'.1) = ice_check_count (ice p.1) + (if is_ok r then 1 else 0) /\
  blen (sends (io p'.2)) <= blen (sends (io p.2)) + 1.
Proof.
  intros ((m & Hl) & Hb & Hc0) [Ht Htb] Hlt. unfold transport_send_ice_check. rewrite st_bind_eq. cbn [get].
  assert (Hstop : forall (q : link X App) e', ice_ok q -> ice_timer (ice q.1) = ice_timer (ice p.1) ->
    ice_check_count (ice q.1) = ice_check_count (ice p.1) -> blen (sends (io q.2)) <= blen (sends (io p.2)) + 1 ->
    (q, Err e' : res unit) = (p', r) -> no_fault r /\ ice_ok p' /\ ice_timer (ice p'.1) = ice_timer (ice p.1) /\
      ice_check_count (ice p'.1) = ice_check_count (ice p.1) + (if is_ok r then 1 else 0) /\
      blen (sends (io p'.2)) <= blen (sends (io p.2)) + 1).
  { intros q e' Hq Hq2 Hq3 Hq4 [= <- <-]. cbn [is_ok]. rewrite Z.add_0_r. done. }
  destruct (negb (remote_ice_valid (ice p.1)) || negb (remote_candidate_valid (ice p.1))) eqn:Ev; cbn [fail_if].
  { apply Hstop; [by split; [eauto|]|done..|lia]. }
  apply orb_false_iff in Ev as [Ev1%negb_false_iff Ev2%negb_false_iff].
  rewrite (st_bind_lift _ _ _ _ eq_refl).
  destruct (check_request e p m) as (req & Ereq & Hid & _); [|apply check_username_short|].
  { constructor; try done. unfold INT_MAX. lia. }
  rewrite (st_bind_lift _ _ _ _ Ereq).
  destruct (unregister_txn_run e p m Hl Hb) as (l1 & E1 & Hl1 & Hio1 & _). rewrite (st_bind_run _ _ _ _ _ E1).
  rewrite st_bind_eq. unfold on_ice at 1. cbv beta iota. rewrite Hid.
  rewrite st_bind_eq. unfold on_lis at 1, zoom at 1, rtc_listener_register_stun_txn. cbn [fst snd].
  destruct (listener_register_route (al e) TXN (txn_key (rnd_txn e)) (ROUTE self) l1) as [l2 r2] eqn:E2.
  destruct (register_holds l1 _ (al e) (KTxn (rnd_txn e)) _ self l2 r2 Hl1 Htb eq_refl E2) as [Hl2 Hr2].
  assert (io l2 = io p.2) as Hio2.
  { rewrite <-Hio1. unfold listener_register_route in E2. destruct (negb _); [by injection E2 as <- _|].
    destruct (StrMap.rtc_str_map_set _ _ _ _ _ _). by injection E2 as <- _. }
  destruct r2 as [[]|e2|]; [|apply Hstop; [by split; [eauto|]|done..|cbn [snd]; rewrite Hio2; lia]|done].
  rewrite st_bind_eq. unfold on_ice at 1. cbv beta iota. rewrite st_bind_eq. unfold on_lis, zoom. cbn [fst snd].
  destruct (rtc_listener_send_to (buf req) (remote_candidate (ice p.1)) l2) as [l3 r3] eqn:E3.
  destruct (send_to_any l2 _ _ _ _ E3) as (Hr3 & Hro & Hle). rewrite Hio2 in Hle.
  assert (holds l3 (upd (forget (ice p.1) m) (KTxn (rnd_txn e)) (Some (ROUTE self)))) as Hl3.
  { intros t. rewrite Hro. apply Hl2. }
  destruct r3 as [[]|e3|]; [|apply Hstop; [by split; [eauto|]|done..]|done].
  rewrite (st_bind_lift _ _ _ (ice_check_count (ice p.1) + 1)) by (apply int_val_Ok; unfold INT_MAX; lia).
  intros [= <- <-]. split; [done|]. split; [|done]. split; [by eauto|]. split; [done|]. cbn. lia.
Qed.

Lemma ice_timer_step self e (w w' : world) r :
  ice_ok (lnk w) -> txn_ok e -> transport_ice_timer self e w = (w', r) ->
  r = Ok () /\ ice_ok (lnk w') /\
  ((ice_timer (ice (tp w')) = RTC_WORKER_TIMER_INVALID /\
    blen (sends (io (lis w'))) <= blen (sends (io (lis w))) + (if ice_check_count (ice (tp w)) <? 120 then 1 else 0)) \/
   (ice_check_count (ice (tp w)) < 120 /\ ice_check_count (ice (tp w')) = ice_check_count (ice (tp w)) + 1 /\
    blen (sends (io (lis w'))) <= blen (sends (io (lis w))) + 1)).
Proof.
  intros Hok He. unfold transport_ice_timer. rewrite st_bind_eq. unfold set_ice_timer at 1, on_tp at 1. cbv beta iota.
  set (w1 := World _ _ _ : world). assert (ice_ok (lnk w1)) as Hok1 by exact Hok.
  change (ice_check_count (ice (tp w))) with (ice_check_count (ice (tp w1))). change (lis w) with (lis w1).
  assert (ice_timer (ice (tp w1)) = RTC_WORKER_TIMER_INVALID) as Hoff by done.
  clearbody w1. rewrite st_bind_eq. cbn [get].
  destruct (_ || _).
  { intros [= <- <-]. split; [done|]. split; [done|]. left. split; [done|]. destruct (_ <? _); lia. }
  destruct (Z.leb_spec 120 (ice_check_count (ice (tp w1)))) as [Hge|Hlt].
  { intros [= <- <-]. split; [done|]. split; [done|]. left. split; [done|]. destruct (_ <? _); lia. }
  destruct (transport_send_ice_check self e (lnk w1)) as [p2 r2] eqn:E2.
  destruct (send_check_step self e (lnk w1) p2 r2 Hok1 He Hlt E2) as (Hr2 & Hok2 & Htm2 & Hc2 & Hs2).
  rewrite st_bind_eq. unfold st_attempt. rewrite (on_link_run _ w1 _ _ E2).
  rewrite (proj2 (Z.ltb_lt _ _) Hlt).
  destruct r2 as [[]|e2|]; [|by intros [= <- <-]; split; [done|]; split; [done|]; left; rewrite <-Hoff|done].
  cbn [attempt is_ok] in *. destruct (arm_ice_timer_run e (set_lnk w1 p2)) as (w3 & tm & -> & L3 & T3).
  intros [= <- <-]. split; [done|].
  assert (Hok3 : ice_ok (lnk w3)).
  { destruct Hok2 as (Hm & Hb & Hc). unfold ice_ok. change ((lnk w3).2) with (lis w3). change ((lnk w3).1) with (tp w3).
    rewrite L3, T3. done. }
  split; [done|]. right. split; [done|]. rewrite L3, T3. done.
Qed.

Lemma expire_all_ends self es : forall (w : world),
  ice_ok (lnk w) -> Forall txn_ok es -> 121 - ice_check_count (ice (tp w)) <= Z.of_nat (length es) -> (0 < length es)%nat ->
  exists w', expire_all self es w = (w', Ok ()) /\ ice_timer (ice (tp w')) = RTC_WORKER_TIMER_INVALID /\
    blen (sends (io (lis w'))) <= blen (sends (io (lis w))) + Z.max 0 (120 - ice_check_count (ice (tp w))).
Proof.
  induction es as [|e es IH]; intros w Hok Hes Hn Hpos; [cbn in Hpos; lia|].
  apply Forall_cons_1 in Hes as [He Hes]. cbn [expire_all].
  destruct (Z.eqb_spec (ice_timer (ice (tp w))) RTC_WORKER_TIMER_INVALID); [exists w; split; [done|]; split; [done|lia]|].
  destruct (transport_ice_timer self e w) as [w1 r] eqn:E1.
  destruct (ice_timer_step self e w w1 r Hok He E1) as (-> & Hok1 & Hcase). rewrite (st_bind_run _ _ _ _ _ E1).
  destruct Hcase as [[Ht Hs]|(Hlt & Hc & Hs)].
  - exists w1. split; [|split; [done|destruct (Z.ltb_spec (ice_check_count (ice (tp w))) 120); lia]].
    destruct es; cbn [expire_all]; [done|]. by rewrite Ht, Z.eqb_refl.
  - destruct (IH w1) as (w2 & E2 & Ht & Hs2); [done|done|rewrite Hc; cbn [length] in Hn; lia|cbn [length] in Hn; lia|].
    exists w2. split; [done|]. split; [done|]. lia.
Qed.

(** C16: Connectivity checks end.  Whatever the kernel, the allocator and the
    network do, the expiries of the check timer that follow each other end
    after at most 121 of them with no timer armed, and at most 120 checks are
    sent, counting those before. *)
Theorem ice_checks_end self es (w : world) :
  ice_ok (lnk w) -> Forall txn_ok es -> 121 <= Z.of_nat (length es) ->
  exists w', expire_all self es w = (w', Ok ()) /\ ice_timer (ice (tp w')) = RTC_WORKER_TIMER_INVALID /\
    blen (sends (io (lis w'))) <= blen (sends (io (lis w))) + Z.max 0 (120 - ice_check_count (ice (tp w))).
Proof. intros Hok Hes Hn. apply expire_all_ends; [done|done| |lia]. destruct Hok as (_ & _ & ?). unfold tp in *. lia. Qed.
End Timer.

(** ** Closing *)

Section Close.
Context `{InetLaws} {X K App : Type} {kern : Kernel} {evp : Srtp.Evp} {elaws : Srtp.EvpLaws}.
Context {senv : StunEnv} {ossl : Dtls.OpenSsl X} {wkt : WorkerTimers K transport_timer}.
Context {tot : TimersTotal K transport_timer} {hooks : AppHooks X K App}.
#[local] Abbreviation world := (world X K App).

Lemma unregister_tuple_run a remote (l : rtc_listener_t Z) m :
  holds l m -> addr_ok remote ->
  exists l', rtc_listener_unregister_tuple a remote l = (l', Ok ()) /\ holds l' (upd m (KTuple remote) None) /\ io l' = io l.
Proof.
  intros Hl Ha. destruct (tuple_key_ok remote Ha) as (s & Es).
  destruct (unregister_ok l m a (KTuple remote) s Hl Ha Es) as (x & E & Hx).
  eexists. split; [|by split; [exact Hx|]]. unfold rtc_listener_unregister_tuple. rewrite Es. cbn [attempt].
  by rewrite (st_bind_lift _ _ _ _ eq_refl).
Qed.

(** the routes once the entries for a transport's ufrag, its outstanding
    transaction and its selected address are removed, whoever they lead to *)
Definition without (i : ice_t) (m : rkey -> option (listener_route_t Z)) : rkey -> option (listener_route_t Z) :=
  let m := forget i (upd m (KUfrag (ice_ufrag i)) None) in
  if selected_remote_valid i then upd m (KTuple (selected_remote i)) None else m.

Lemma cancel_fb_run (w : world) tm :
  exists w', (if tm =? RTC_WORKER_TIMER_INVALID then mret () else
      _ ← on_wk (wk_cancel_timer tm); set_fb_timer RTC_WORKER_TIMER_INVALID) w = (w', Ok ()) /\ lis w' = lis w /\ app w' = app w /\
    tp w' = with_cc (tp w) (if tm =? RTC_WORKER_TIMER_INVALID then cc (tp w) else cc_set_timer (cc (tp w)) RTC_WORKER_TIMER_INVALID) /\
    wk w' = cancelled (wk w) tm.
Proof.
  unfold cancelled. destruct (tm =? _); [exists w; destruct w as [[[] ?] ? ?]; done|].
  rewrite st_bind_eq. unfold on_wk, zoom. destruct (cancel_total tm (wk w)) as [k' ->]. by eexists.
Qed.

(** nothing that can make a transport act is left *)
Record shut (t : rtc_transport_t X App) : Prop := {
  sh_closed : closed t = true;
  sh_ice : ice_timer (ice t) = RTC_WORKER_TIMER_INVALID;
  sh_dtls : dtls_timer (sec t) = RTC_WORKER_TIMER_INVALID;
  sh_fb : twcc_fb_timer (cc t) = RTC_WORKER_TIMER_INVALID;
  sh_srtp : srtp_ready (sec t) = false;
  sh_state : Dtls.state (dtls (sec t)) = Dtls.RTC_DTLS_STATE_CLOSED;
  sh_ssl : Dtls.ssl (dtls (sec t)) = None;
  sh_demux : RtpDemux.ready (rtp_demux (cbs t)) = false;
  sh_bwe : bwe (cc t) = None
}.

Lemma cancel_dtls_timer_off (w : world) :
  exists w', transport_cancel_dtls_timer w = (w', Ok ()) /\ lis w' = lis w /\ app w' = app w /\
    tp w' = with_sec (tp w) (sec_set_timer (sec (tp w)) RTC_WORKER_TIMER_INVALID) /\
    wk w' = cancelled (wk w) (dtls_timer (sec (tp w))).
Proof.
  unfold transport_cancel_dtls_timer, cancelled. rewrite st_bind_eq. cbn [get].
  destruct (Z.eqb_spec (dtls_timer (sec (tp w))) RTC_WORKER_TIMER_INVALID) as [E|E].
  { exists w. split; [done|]. split; [done|]. split; [done|]. split; [|done].
    destruct w as [[[? ? [] ? ? ? ?] ?] ? ?]. unfold tp in *. cbn in *. by subst. }
  rewrite st_bind_eq. unfold on_wk, zoom. destruct (cancel_total (dtls_timer (sec (tp w))) (wk w)) as [k' ->]. by eexists.
Qed.

Lemma close_run a1 a2 e (w : world) m :
  holds (lis w) m -> bytes_ok (ice_txn_id (ice (tp w))) ->
  (selected_remote_valid (ice (tp w)) = true -> addr_ok (selected_remote (ice (tp w)))) -> closed (tp w) = false ->
  exists w', rtc_transport_close a1 a2 e w = (w', Ok ()) /\ shut (tp w') /\ holds (lis w') (without (ice (tp w)) m) /\
    io (lis w') = io (lis w) /\ app w' = app w /\
    wk w' = foldl cancelled (wk w) [ice_timer (ice (tp w)); dtls_timer (sec (tp w)); twcc_fb_timer (cc (tp w))] /\
    selected_remote (ice (tp w')) = selected_remote (ice (tp w)) /\
    selected_remote_valid (ice (tp w')) = selected_remote_valid (ice (tp w)).
Proof.
  intros Hl Hb Ha Ho. unfold rtc_transport_close. rewrite st_bind_eq. cbn [get]. rewrite Ho.
  rewrite st_bind_eq. unfold on_tp at 1. cbv beta iota. set (w0 := World _ _ _ : world).
  unfold tx_close_impl. rewrite st_bind_eq. cbn [get].
  destruct (unregister_ok (lis w) m a1 (KUfrag (ice_ufrag (ice (tp w)))) _ Hl I eq_refl) as (x & E1 & Hl1).
  cbn [key_table] in *. set (l1 := with_routes (lis w) UFRAG x) in *.
  assert (on_link (on_lis (rtc_listener_unregister_ufrag a1 (ice_ufrag (ice (tp w0))))) w0 =
    (set_lnk w0 (tp w0, l1), Ok ())) as E1'.
  { apply on_link_run. unfold on_lis, rtc_listener_unregister_ufrag. by erewrite zoom_eq by exact E1. }
  rewrite (st_bind_run _ _ _ _ _ E1').
  destruct (unregister_txn_run e (tp w0, l1) _ Hl1 Hb) as (l2 & E2 & Hl2 & Hio2 & _).
  rewrite (st_bind_run _ _ _ _ _ (on_link_run _ (set_lnk w0 (tp w0, l1)) _ _ E2)). set (w2 := set_lnk _ _).
  assert (exists l3, (if selected_remote_valid (ice (tp w0)) then
      on_link (on_lis (rtc_listener_unregister_tuple a2 (selected_remote (ice (tp w0))))) else mret ()) w2 =
      (set_lnk w2 (tp w2, l3), Ok ()) /\ holds l3 (without (ice (tp w)) m) /\ io l3 = io (lis w)) as (l3 & E3 & Hl3 & Hio3).
  { unfold without. change (ice (tp w0)) with (ice (tp w)). destruct (selected_remote_valid (ice (tp w))) eqn:Ev.
    - destruct (unregister_tuple_run a2 (selected_remote (ice (tp w))) l2 _ Hl2 (Ha eq_refl)) as (l3 & E3 & Hl3 & Hio3).
      exists l3. split; [|split; [done|by rewrite Hio3, Hio2]].
      apply on_link_run. unfold on_lis. by erewrite zoom_eq by exact E3.
    - exists l2. by rewrite Hio2. }
  rewrite (st_bind_run _ _ _ _ _ E3). set (w3 := set_lnk w2 _).
  destruct (cancel_ice_timer_run w3) as (w4 & E4 & L4 & A4 & T4 & K4). rewrite (st_bind_run _ _ _ _ _ E4).
  destruct (cancel_dtls_timer_off w4) as (w5 & E5 & L5 & A5 & T5 & K5). rewrite (st_bind_run _ _ _ _ _ E5).
  rewrite st_bind_eq. unfold on_tp at 1. cbv beta iota. set (w6 := World _ _ _ : world).
  destruct (cancel_fb_run w6 (twcc_fb_timer (cc (tp w0)))) as (w7 & E7 & L7 & A7 & T7 & K7). rewrite (st_bind_run _ _ _ _ _ E7).
  rewrite st_bind_eq. unfold on_tp at 1. cbv beta iota. set (w8 := World _ _ _ : world).
  assert (exists s r, (if srtp_ready (sec (tp w0)) then
      on_tp (fun t => with_sec t (sec_set_srtp (sec t) (Srtp.rtc_srtp_close (srtp_send (sec t)))
        (Srtp.rtc_srtp_close (srtp_recv (sec t))) false)) else mret ()) w8 =
      (World (with_sec (tp w8) (sec_set_srtp (sec (tp w8)) s r false), lis w8) (wk w8) (app w8), Ok ())) as (s & r & E9).
  { destruct (srtp_ready (sec (tp w0))) eqn:Er; [by eexists _, _|].
    exists (srtp_send (sec (tp w8))), (srtp_recv (sec (tp w8))). unfold mret, st_ret. do 2 f_equal.
    assert (srtp_ready (sec (tp w8)) = false) as E by (unfold w8; cbn; rewrite T7; unfold w6; cbn; rewrite T5; cbn; by rewrite T4).
    unfold w8 in *. cbn in *. unfold sec_set_srtp. rewrite <-E. by destruct (tp w7) as [? ? [] ? ? ? ?]. }
  rewrite (st_bind_run _ _ _ _ _ E9). unfold on_tp. eexists. split; [done|].
  split; [|split; [by cbn; rewrite L7; cbn; rewrite L5, L4|split; [by cbn; rewrite L7; cbn; rewrite L5, L4|
    split; [by cbn; rewrite A7; cbn; rewrite A5, A4|split; [|by cbn; rewrite T7; cbn; rewrite T5; cbn; rewrite T4]]]]].
  2: { etrans; [exact K7|]. change (wk w6) with (wk w5). rewrite K5, K4, T4. done. }
  assert (tp w7 = with_cc (tp w6) (cc (tp w7))) as T7' by (by rewrite T7 at 1 2).
  constructor; cbn; rewrite ?T7; cbn; rewrite ?T5; cbn; rewrite ?T4; cbn; try done.
  - destruct (Z.eqb_spec (twcc_fb_timer (cc (tp w))) RTC_WORKER_TIMER_INVALID); done.
  - by destruct (rtp_demux (cbs (tp w))) as [? ? []].
Qed.

(** C15: A closed transport is silent.  Closing cancels its three timers at the
    worker, removes the listener's entries for its ufrag, its outstanding
    transaction and its selected address (whichever transport they lead to) and
    no others, and sends nothing; afterwards no datagram and no timer that was
    already running has any effect, packets and data are refused, and closing
    again does nothing.  [rtc_transport_send_raw], which DTLS and SRTP send
    through, does not look at the flag: once a remote address was selected it
    sends on a closed transport as before. *)
Theorem closed_transport_silent a1 a2 e (w : world) m :
  holds (lis w) m -> bytes_ok (ice_txn_id (ice (tp w))) ->
  (selected_remote_valid (ice (tp w)) = true -> addr_ok (selected_remote (ice (tp w)))) -> closed (tp w) = false ->
  exists w', rtc_transport_close a1 a2 e w = (w', Ok ()) /\ shut (tp w') /\
    holds (lis w') (without (ice (tp w)) m) /\ io (lis w') = io (lis w) /\ app w' = app w /\
    wk w' = foldl cancelled (wk w) [ice_timer (ice (tp w)); dtls_timer (sec (tp w)); twcc_fb_timer (cc (tp w))] /\
    (forall self e ty d from, transport_on_packet self e ty d from w' = (w', Ok ())) /\
    (forall self e, transport_ice_timer self e w' = (w', Ok ()) /\ transport_dtls_timer e w' = (w', Ok ()) /\
       transport_twcc_fb_timer e w' = (w', Ok ())) /\
    (forall b cap, rtc_transport_send_rtp b cap (lnk w') = (lnk w', Err RTC_ERR_INVALID) /\
       rtc_transport_send_rtcp b cap (lnk w') = (lnk w', Err RTC_ERR_INVALID) /\
       rtc_transport_send_data b w' = (w', Err RTC_ERR_INVALID)) /\
    (forall a1 a2 e, rtc_transport_close a1 a2 e w' = (w', Ok ())) /\
    (forall b, b <> [] -> selected_remote_valid (ice (tp w)) = true ->
       rtc_transport_send_raw b (lnk w') = on_lis (rtc_listener_send_to b (selected_remote (ice (tp w)))) (lnk w')).
Proof.
  intros Hl Hb Ha Ho. destruct (close_run a1 a2 e w m Hl Hb Ha Ho) as (w' & E & Hs & Hl' & Hio & Happ & Hwk & Hsel & Hval).
  exists w'. do 6 (split; [done|]). destruct Hs as [Hc Hi Hd Hf Hsr Hst _ _ _].
  split; [|split; [|split; [|split]]].
  - intros. unfold transport_on_packet. rewrite st_bind_eq. cbn [get]. by rewrite Hc.
  - intros. unfold transport_ice_timer, transport_dtls_timer, transport_twcc_fb_timer.
    unfold set_ice_timer at 1, set_dtls_timer at 1, set_fb_timer at 1, on_tp. clear Hwk.
    destruct w' as [[[? [] [] ? ? [] ?] ?] ? ?]. unfold tp, lis in *. cbn in *. by subst.
  - intros. unfold rtc_transport_send_rtp, rtc_transport_send_rtcp, rtc_transport_send_data.
    rewrite !st_bind_eq. cbn [get]. change ((lnk w').1) with (tp w'). rewrite Hsr. unfold dtls_is, w_dtls.
    by rewrite Hst.
  - intros. unfold rtc_transport_close. rewrite st_bind_eq. cbn [get]. by rewrite Hc.
  - intros b Hne Hv. unfold rtc_transport_send_raw. rewrite st_bind_eq. cbn [get]. change ((lnk w').1) with (tp w').
    rewrite Hval, Hv, Hsel. destruct b; [done|]. done.
Qed.

(** C39: A remote address is selected without authentication: any datagram that
    parses as a Binding Request, with or without MESSAGE-INTEGRITY, makes a
    transport without selected address take the source of the datagram as the
    address all its traffic goes to, and answers it. *)
Theorem request_selects_unauthenticated `{!KernelAccepts} self e data msg port ip (w : world) m :
  holds (lis w) m -> addr_ok (AF_INET port ip) -> allocs_ok (al e) -> StrMap.cap (routes (lis w) TUPLE) <= 2 ^ 58 ->
  closed (tp w) = false -> selected_remote_valid (ice (tp w)) = false -> sock (io (lis w)) <> None ->
  rtc_stun_parse data = Ok msg -> Stun.type msg = STUN_BINDING_REQUEST ->
  exists w', transport_on_packet self e RTC_PKT_STUN data (AF_INET port ip) w = (w', Ok ()) /\
    selected_remote (ice (tp w')) = AF_INET port ip /\ selected_remote_valid (ice (tp w')) = true.
Proof.
  intros G1 G2 G3 G4 G5 G6 G7 G8 G9.
  destruct (on_request_run self e data msg port ip w m G1 G2 G3 G4 G5 G6 G7 G8 G9) as (w' & E & Hi & _).
  exists w'. by rewrite Hi.
Qed.
End Close.

(** ** An example *)

Import InetModel SrtpWitness StunSpec TransportModel.

Definition ex_caller : world toy toy_worker (list app_event) :=
  let t := transport_zero (TransportConfig RTC_ICE_MODE_FULL false false 0) (str "alice12") [98] Dtls.dtls_zero in
  World (with_ice t (ice_set_candidate (ice_set_remote (ice t) (str "bob1234") (str "secret")) addr_b true), ex_lis) ex_worker [].
Definition ex_callee : world toy toy_worker (list app_event) :=
  let t := transport_zero (TransportConfig RTC_ICE_MODE_LITE false false 0) (str "bob1234") (str "secret") Dtls.dtls_zero in
  World (t, (rtc_listener_register_ufrag (Allocs true true true) (str "bob1234") 2 ex_lis).1) ex_worker [].

Lemma ex_callable :
  callable ex_caller ex_callee (fun _ => None) (upd (fun _ => None) (KUfrag (str "bob1234")) (Some (ROUTE 2)))
    addr_b 2 ok_env ok_env ok_env.
Proof.
  constructor; try done.
  - constructor; try done.
    + split; [done|]. by apply bytes_okb_ok.
    + by apply bytes_okb_ok.
    + apply holds_init. by intros [].
  - split; [|done]. split; [done|]. change (ice_ufrag (ice (tp ex_callee))) with (str "bob1234"). 
    apply (bool_decide_eq_true_1 _). vm_compute. reflexivity.
  - split; [|by vm_compute].
    destruct (rtc_listener_register_ufrag (Allocs true true true) (str "bob1234") 2 ex_lis) as [l' r] eqn:E.
    assert (r = Ok ()) as -> by (apply (f_equal snd) in E; vm_compute in E; congruence).
    unfold ex_callee, lis. rewrite E.
    apply (register_holds ex_lis (fun _ => None) (Allocs true true true) (KUfrag (str "bob1234")) (str "bob1234") 2 l' (Ok ()));
      [|done..]. apply holds_init. by intros [].
  - intros t. split; destruct t; vm_compute; congruence.
Qed.

Lemma ice_connects_witness :
  exists wa1 wa2 wb1 check reply,
    rtc_transport_start_ice 1 ok_env ex_caller = (wa1, Ok ()) /\
    sends (io (lis wa1)) = [] ++ [Datagram (addr_map_v4 addr_b) None check] /\
    arrives 2 ok_env (fun _ _ _ _ => mret ()) check addr_a ex_callee = (wb1, Ok ()) /\
    sends (io (lis wb1)) = [] ++ [Datagram (addr_map_v4 addr_a) None reply] /\
    arrives 1 ok_env (fun _ _ _ _ => mret ()) reply addr_b wa1 = (wa2, Ok ()) /\
    (selected_remote (ice (tp wa2)) = addr_b /\ selected_remote_valid (ice (tp wa2)) = true) /\
    (selected_remote (ice (tp wb1)) = addr_a /\ selected_remote_valid (ice (tp wb1)) = true) /\
    ice_txn_registered (ice (tp wa2)) = false /\ ice_timer (ice (tp wa2)) = RTC_WORKER_TIMER_INVALID /\
    (forall d, listener_route (lis wa2) RTC_PKT_DTLS d addr_b = Ok (Some (ROUTE 1))) /\
    (forall d, listener_route (lis wb1) RTC_PKT_DTLS d addr_a = Ok (Some (ROUTE 2))).
Proof.
  apply (ice_connects 1 2 (fun _ _ _ _ => mret ()) (fun _ _ _ _ => mret ()) ok_env ok_env ok_env ex_caller ex_callee
    (fun _ => None) (upd (fun _ => None) (KUfrag (str "bob1234")) (Some (ROUTE 2))) 4000 0x0A000001 addr_b ex_callable);
    by repeat split.
Defined.

Definition ex_armed : world toy toy_worker (list app_event) :=
  World (with_ice (tp ex_caller) (ice_set_timer (ice (tp ex_caller)) 5), ex_lis) ex_worker [].

Lemma ice_checks_end_witness :
  exists w', expire_all 1 (replicate 121 ok_env) ex_armed = (w', Ok ()) /\
    ice_timer (ice (tp w')) = RTC_WORKER_TIMER_INVALID /\ blen (sends (io (lis w'))) <= 120.
Proof.
  apply (ice_checks_end 1 (replicate 121 ok_env) ex_armed).
  - destruct (cl_check _ _ _ _ _ _ _ _ _ ex_callable). split; [by eauto|]. split; [by apply bytes_okb_ok|done].
  - apply Forall_replicate. split; [done|]. by apply bytes_okb_ok.
  - done.
Defined.

Lemma closed_transport_silent_witness :
  exists w', rtc_transport_close (Allocs true true true) (Allocs true true true) ok_env ex_armed = (w', Ok ()) /\
    shut (tp w') /\ holds (lis w') (without (ice (tp ex_armed)) (fun _ => None)) /\ io (lis w') = ex_io /\ app w' = [] /\
    wk w' = foldl cancelled (wk ex_armed) [ice_timer (ice (tp ex_armed)); dtls_timer (sec (tp ex_armed)); twcc_fb_timer (cc (tp ex_armed))] /\
    (forall self e ty d from, transport_on_packet self e ty d from w' = (w', Ok ())) /\
    (forall self e, transport_ice_timer self e w' = (w', Ok ()) /\ transport_dtls_timer e w' = (w', Ok ()) /\
       transport_twcc_fb_timer e w' = (w', Ok ())) /\
    (forall b cap, rtc_transport_send_rtp b cap (lnk w') = (lnk w', Err RTC_ERR_INVALID) /\
       rtc_transport_send_rtcp b cap (lnk w') = (lnk w', Err RTC_ERR_INVALID) /\
       rtc_transport_send_data b w' = (w', Err RTC_ERR_INVALID)) /\
    (forall a1 a2 e, rtc_transport_close a1 a2 e w' = (w', Ok ())) /\
    (forall b, b <> [] -> selected_remote_valid (ice (tp ex_armed)) = true ->
       rtc_transport_send_raw b (lnk w') = on_lis (rtc_listener_send_to b (selected_remote (ice (tp ex_armed)))) (lnk w')).
Proof.
  apply (closed_transport_silent (Allocs true true true) (Allocs true true true) ok_env ex_armed (fun _ => None)).
  - apply holds_init. by intros [].
  - by apply bytes_okb_ok.
  - done.
  - done.
Defined.

(** a Binding Request without attributes *)
Definition bare_request : bytes := stun_header STUN_BINDING_REQUEST 0 (replicate 12 1).

Lemma request_selects_unauthenticated_witness :
  exists w', transport_on_packet 2 ok_env RTC_PKT_STUN bare_request addr_a ex_callee = (w', Ok ()) /\
    selected_remote (ice (tp w')) = addr_a /\ selected_remote_valid (ice (tp w')) = true.
Proof.
  destruct (cl_route _ _ _ _ _ _ _ _ _ ex_callable) as [Hl _].
  apply (request_selects_unauthenticated 2 ok_env bare_request
    (mk_stun_msg STUN_BINDING_REQUEST 0 (replicate 12 1) bare_request) 4000 0x0A000001 ex_callee _ Hl); try done.
Defined.
End TransportIce.
