(* ===== verification/Vp8.v ===== *)
(** * VP8 payload format (media/src/vp8_packetizer.c)

    The packetizer and the reassembly state machine.  The depacketizer's
    buffer is the list of its first [frame_len] bytes; the frame returned
    through a pointer into it is that list. *)

From S2P Require Import Prelude.
From Stdlib Require Import ZArith Lia.
From stdpp Require Import base list numbers sets.
#[local] Open Scope Z_scope.

Module Vp8.

Definition VP8_PD_SIZE : Z := 1.
Definition VP8_MAX_FRAG_SIZE : Z := 1399.
Definition VP8_MAX_FRAME_SIZE : Z := 256 * 1024.

(** [data]: its first [len] bytes *)
Record rtc_vp8_payload_t := Payload { data : bytes; marker : bool }.

Record rtc_vp8_depacketizer_t := Depacketizer {
  frame_buf : bytes;
  frame_timestamp : Z;
  collecting : bool;
  got_start : bool
}.

(** the fragments of [frame] from [offset] on; [n] of them are already written *)
Fixpoint packetize_loop (fuel : nat) (frame : bytes) (is_keyframe first : bool)
    (offset n max_payloads : Z) : res (list rtc_vp8_payload_t) :=
  if offset <? blen frame then
    match fuel with
    | O => Fault
    | S fuel =>
        _ ← fail_if (max_payloads <=? n) RTC_ERR_NOMEM;
        let remaining := blen frame - offset in
        let frag := if VP8_MAX_FRAG_SIZE <? remaining then VP8_MAX_FRAG_SIZE else remaining in
        let last := blen frame <=? offset + frag in
        let pd := if first then Z.lor 0 0x10 else 0 in
        let pd := if is_keyframe then pd else Z.lor pd 0x20 in
        d ← sub frame offset frag;
        ps ← packetize_loop fuel frame is_keyframe false (offset + frag) (n + 1) max_payloads;
        Ok (Payload (pd :: d) last :: ps)
    end
  else Ok [].

Definition rtc_vp8_packetize (frame : bytes) (is_keyframe : bool) (max_payloads : Z)
    : res (list rtc_vp8_payload_t) :=
  _ ← fail_if (blen frame =? 0) RTC_ERR_INVALID;
  packetize_loop (length frame) frame is_keyframe true 0 0 max_payloads.

Definition rtc_vp8_depacketizer_init : rtc_vp8_depacketizer_t := Depacketizer [] 0 false false.

Definition flag (b m : Z) : bool := negb (Z.land b m =? 0).

(** the length of the payload descriptor *)
Definition descriptor_len (payload : bytes) : res Z :=
  pd ← rd payload 0;
  if flag pd 0x80 then
    _ ← fail_if (blen payload <? 2) RTC_ERR_INVALID;
    ext ← rd payload 1;
    n ← (if flag ext 0x80 then
           _ ← fail_if (blen payload <=? 2) RTC_ERR_INVALID;
           b ← rd payload 2;
           Ok (2 + (if flag b 0x80 then 2 else 1))
         else Ok 2);
    let n := if flag ext 0x40 then n + 1 else n in
    let n := if flag ext 0x20 || flag ext 0x10 then n + 1 else n in
    _ ← fail_if (blen payload <? n) RTC_ERR_INVALID;
    Ok n
  else Ok VP8_PD_SIZE.

(** frame boundary detection: the S bit starts a frame *)
Definition frame_boundary (s_bit : bool) (ts : Z) : st rtc_vp8_depacketizer_t unit :=
  d ← get;
  if s_bit || negb (collecting d) || (collecting d && negb (ts =? frame_timestamp d)) then
    if s_bit then put (Depacketizer [] ts true true)
    else if collecting d && negb (ts =? frame_timestamp d) then
      _ ← put (Depacketizer [] (frame_timestamp d) false (got_start d));
      lift (Err RTC_ERR_GENERIC)
    else lift (Err RTC_ERR_GENERIC)
  else mret ().

Definition rtc_vp8_depacketize (payload : bytes) (timestamp : Z) (mk : bool)
    : st rtc_vp8_depacketizer_t (bytes * bool) :=
  _ ← lift (fail_if (blen payload <? VP8_PD_SIZE) RTC_ERR_INVALID);
  pd ← lift (rd payload 0);
  let s_bit := flag pd 0x10 in
  let n_bit := flag pd 0x20 in
  pd_len ← lift (descriptor_len payload);
  vp8_data ← lift (sub payload pd_len (blen payload - pd_len));
  _ ← frame_boundary s_bit timestamp;
  d ← get;
  _ ← lift (fail_if (negb (collecting d) || negb (got_start d)) RTC_ERR_GENERIC);
  if VP8_MAX_FRAME_SIZE <? blen (frame_buf d) + blen vp8_data then
    _ ← put (Depacketizer [] (frame_timestamp d) false (got_start d));
    lift (Err RTC_ERR_NOMEM)
  else
    let fb := frame_buf d ++ vp8_data in
    if mk then
      _ ← put (Depacketizer [] (frame_timestamp d) false (got_start d));
      mret (fb, negb n_bit)
    else
      _ ← put (Depacketizer fb (frame_timestamp d) (collecting d) (got_start d));
      lift (Err RTC_ERR_GENERIC).

(** ** Reference: a frame cut into chunks *)

(** the descriptor byte of a fragment *)
Definition descriptor (is_keyframe first : bool) : Z :=
  (if first then 0x10 else 0) + (if is_keyframe then 0 else 0x20).

(** number of fragments of [n] bytes *)
Definition frag_count (n : Z) : Z := (n + 1398) / 1399.

(** feed payloads in order; the results *)
Fixpoint feed (ps : list (bytes * Z * bool)) (d : rtc_vp8_depacketizer_t)
    : rtc_vp8_depacketizer_t * list (res (bytes * bool)) :=
  match ps with
  | [] => (d, [])
  | (p, ts, mk) :: ps =>
      let '(d, r) := rtc_vp8_depacketize p ts mk d in
      let '(d, rs) := feed ps d in (d, r :: rs)
  end.

Definition on_wire (ts : Z) (ps : list rtc_vp8_payload_t) : list (bytes * Z * bool) :=
  (fun p => (data p, ts, marker p)) <$> ps.

(** ** Packetizer *)

(** the fragments of the rest of a frame: a chain of descriptors and chunks
    whose concatenation is the rest, with the marker on the last one *)
Inductive fragments (kf : bool) : bool -> bytes -> list rtc_vp8_payload_t -> Prop :=
  | frag_last first d : 0 < blen d <= 1399 ->
      fragments kf first d [Payload (descriptor kf first :: d) true]
  | frag_more first d rest ps : 0 < blen d <= 1399 -> fragments kf false rest ps ->
      fragments kf first (d ++ rest) (Payload (descriptor kf first :: d) false :: ps).

Lemma packetize_done fuel frame kf first offset n maxp :
  blen frame <= offset -> packetize_loop fuel frame kf first offset n maxp = Ok [].
Proof. intros. destruct fuel; cbn [packetize_loop]; by rewrite (proj2 (Z.ltb_ge _ _)). Qed.

Lemma packetize_loop_spec kf frame maxp : forall fuel first offset n,
  0 <= offset < blen frame -> blen frame - offset <= Z.of_nat fuel -> 0 <= n ->
  n + frag_count (blen frame - offset) <= maxp ->
  exists ps, packetize_loop fuel frame kf first offset n maxp = Ok ps /\
    fragments kf first (drop (Z.to_nat offset) frame) ps /\
    blen ps = frag_count (blen frame - offset).
Proof.
  induction fuel as [|fuel IH]; intros first offset n Ho Hf Hn Hmax; [lia|].
  unfold packetize_loop; fold packetize_loop. unfold VP8_MAX_FRAG_SIZE.
  rewrite (proj2 (Z.ltb_lt _ _)) by lia. unfold frag_count in *.
  assert (n < maxp) by dlia. pass_guard. set (frag := if _ <? _ then _ else _).
  set (pd := if kf then _ else _).
  assert (Hpd : pd = descriptor kf first) by (unfold pd; by destruct kf, first).
  assert (Hfrag : frag = Z.min 1399 (blen frame - offset)).
  { unfold frag. destruct (Z.ltb_spec 1399 (blen frame - offset)); lia. }
  clearbody frag pd. subst pd.
  rewrite sub_Ok by lia. rewrite (bind_Ok_l (Ok _) _ _ eq_refl).
  set (d := take _ _).
  assert (Hd : blen d = frag).
  { unfold d, blen in *. rewrite length_take, length_drop. lia. }
  assert (Hsplit : drop (Z.to_nat offset) frame = d ++ drop (Z.to_nat (offset + frag)) frame).
  { unfold d. replace (Z.to_nat (offset + frag)) with (Z.to_nat offset + Z.to_nat frag)%nat by lia.
    by rewrite <-drop_drop, take_drop. }
  destruct (Z.leb_spec (blen frame) (offset + frag)) as [Hlast|Hmore].
  - rewrite packetize_done by done. eexists. split; [done|].
    rewrite Hsplit, (drop_ge frame), app_nil_r by (unfold blen in *; lia).
    split; [constructor; lia|]. change (1 = (blen frame - offset + 1398) / 1399). dlia.
  - destruct (IH false (offset + frag) (n + 1)) as (ps & -> & Hfr & Hps); [lia|lia|lia|dlia|].
    eexists. split; [done|]. rewrite Hsplit. split; [by constructor; [lia|]|].
    rewrite blen_cons, Hps. dlia.
Qed.

Lemma packetize_spec frame kf maxp :
  0 < blen frame -> frag_count (blen frame) <= maxp ->
  exists ps, rtc_vp8_packetize frame kf maxp = Ok ps /\ fragments kf true frame ps /\
    blen ps = frag_count (blen frame).
Proof.
  intros Hf Hmax. unfold rtc_vp8_packetize. rewrite (proj2 (Z.eqb_neq _ _)) by lia. cbn [fail_if].
  rewrite (bind_Ok_l (Ok ()) _ _ eq_refl).
  destruct (packetize_loop_spec kf frame maxp (length frame) true 0 0) as (ps & E & Hfr & Hps);
    rewrite ?Z.sub_0_r in *; try (unfold blen in *; lia). by exists ps.
Qed.

Lemma packetize_loop_full kf frame maxp : forall fuel first offset n,
  0 <= offset -> blen frame - offset <= Z.of_nat fuel ->
  n <= maxp < n + frag_count (blen frame - offset) ->
  packetize_loop fuel frame kf first offset n maxp = Err RTC_ERR_NOMEM.
Proof.
  unfold frag_count.
  induction fuel as [|fuel IH]; intros first offset n Ho Hf Hmax; [dlia|].
  unfold packetize_loop; fold packetize_loop. unfold VP8_MAX_FRAG_SIZE.
  destruct (Z.ltb_spec offset (blen frame)); [|dlia].
  unfold fail_if. destruct (Z.leb_spec maxp n); [done|]. rewrite (bind_Ok_l (Ok ()) _ _ eq_refl).
  set (frag := if _ <? _ then _ else _).
  assert (Hfrag : frag = Z.min 1399 (blen frame - offset)).
  { unfold frag. destruct (Z.ltb_spec 1399 (blen frame - offset)); lia. }
  rewrite sub_Ok by lia. rewrite (bind_Ok_l (Ok _) _ _ eq_refl).
  by rewrite IH by (clearbody frag; dlia).
Qed.

(** ** Depacketizer *)

Lemma descriptor_flags kf first :
  flag (descriptor kf first) 0x10 = first /\ flag (descriptor kf first) 0x20 = negb kf /\
  flag (descriptor kf first) 0x80 = false.
Proof. by destruct kf, first. Qed.

(** what a payload without descriptor extension does *)
Lemma depacketize_plain b c ts mk d :
  flag b 0x80 = false ->
  rtc_vp8_depacketize (b :: c) ts mk d =
  (_ ← frame_boundary (flag b 0x10) ts;
   d ← get;
   _ ← lift (fail_if (negb (collecting d) || negb (got_start d)) RTC_ERR_GENERIC);
   if VP8_MAX_FRAME_SIZE <? blen (frame_buf d) + blen c then
     _ ← put (Depacketizer [] (frame_timestamp d) false (got_start d));
     lift (Err RTC_ERR_NOMEM)
   else if mk then
     _ ← put (Depacketizer [] (frame_timestamp d) false (got_start d));
     mret (frame_buf d ++ c, negb (flag b 0x20))
   else
     _ ← put (Depacketizer (frame_buf d ++ c) (frame_timestamp d) (collecting d) (got_start d));
     lift (Err RTC_ERR_GENERIC)) d.
Proof.
  intros Hb. pose proof (blen_nonneg c). unfold rtc_vp8_depacketize, VP8_PD_SIZE. rewrite blen_cons.
  rewrite (st_bind_lift _ _ _ ()) by (apply fail_if_Ok; lia).
  rewrite (st_bind_lift _ _ _ b) by done. rewrite (st_bind_lift _ _ _ 1).
  2: { unfold descriptor_len. rewrite (bind_Ok_l _ _ b) by done. by rewrite Hb. }
  rewrite (st_bind_lift _ _ _ c); [done|].
  rewrite sub_Ok by (rewrite ?blen_cons; lia). change (drop (Z.to_nat 1) (b :: c)) with c.
  by rewrite take_ge by (unfold blen; lia).
Qed.

(** starting a frame, from any state *)
Lemma depacketize_start b c ts mk d :
  flag b 0x80 = false -> flag b 0x10 = true -> blen c <= VP8_MAX_FRAME_SIZE ->
  rtc_vp8_depacketize (b :: c) ts mk d =
  if mk then (Depacketizer [] ts false true, Ok (c, negb (flag b 0x20)))
  else (Depacketizer c ts true true, Err RTC_ERR_GENERIC).
Proof.
  intros Hx Hs Hmax. rewrite depacketize_plain, Hs by done.
  unfold frame_boundary, mbind, st_bind, get, lift, put, mret, st_ret.
  cbn [fail_if orb negb collecting got_start frame_buf]. rewrite blen_nil.
  rewrite (proj2 (Z.ltb_ge _ _)) by lia. by destruct mk.
Qed.

(** continuing the frame [acc] *)
Lemma depacketize_continue b c ts mk acc :
  flag b 0x80 = false -> flag b 0x10 = false -> blen acc + blen c <= VP8_MAX_FRAME_SIZE ->
  rtc_vp8_depacketize (b :: c) ts mk (Depacketizer acc ts true true) =
  if mk then (Depacketizer [] ts false true, Ok (acc ++ c, negb (flag b 0x20)))
  else (Depacketizer (acc ++ c) ts true true, Err RTC_ERR_GENERIC).
Proof.
  intros Hx Hs Hmax. rewrite depacketize_plain, Hs by done.
  unfold frame_boundary, mbind, st_bind, get, lift, put, mret, st_ret.
  cbn [collecting frame_timestamp got_start frame_buf orb andb negb]. rewrite Z.eqb_refl.
  cbn [fail_if orb negb collecting got_start frame_buf].
  rewrite (proj2 (Z.ltb_ge _ _)) by lia. by destruct mk.
Qed.

Lemma feed_fragments kf ts rest ps : fragments kf false rest ps -> forall acc,
  blen acc + blen rest <= VP8_MAX_FRAME_SIZE ->
  feed (on_wire ts ps) (Depacketizer acc ts true true)
  = (Depacketizer [] ts false true,
     replicate (length ps - 1) (Err RTC_ERR_GENERIC) ++ [Ok (acc ++ rest, kf)]).
Proof.
  intros Hfr. remember false as first eqn:Ef.
  induction Hfr as [first d Hd|first d rest ps Hd Hfr IH]; intros acc Hmax; subst first;
    destruct (descriptor_flags kf false) as (E1 & E2 & E3);
    cbn [on_wire fmap list_fmap feed data marker].
  - by rewrite depacketize_continue, E2, negb_involutive.
  - rewrite blen_app in Hmax. pose proof (blen_nonneg rest). fold (on_wire ts ps).
    rewrite depacketize_continue by (done || lia). rewrite (IH eq_refl (acc ++ d)) by (lens; lia).
    destruct ps as [|q ps]; [inversion Hfr|]. simpl. by rewrite Nat.sub_0_r, app_assoc.
Qed.

(** the first fragment of a frame starts from any state *)
Lemma feed_frame kf ts frame ps d :
  fragments kf true frame ps -> blen frame <= VP8_MAX_FRAME_SIZE ->
  feed (on_wire ts ps) d
  = (Depacketizer [] ts false true,
     replicate (length ps - 1) (Err RTC_ERR_GENERIC) ++ [Ok (frame, kf)]).
Proof.
  intros Hfr Hmax. destruct (descriptor_flags kf true) as (E1 & E2 & E3).
  inversion Hfr as [first c Hc|first c rest ps' Hc Hfr']; subst;
    cbn [on_wire fmap list_fmap feed data marker].
  - by rewrite depacketize_start, E2, negb_involutive.
  - rewrite blen_app in Hmax. pose proof (blen_nonneg rest). fold (on_wire ts ps').
    rewrite depacketize_start by (done || lia). rewrite (feed_fragments kf ts rest ps' Hfr' c) by lia.
    destruct ps' as [|q ps']; [inversion Hfr'|]. simpl. by rewrite Nat.sub_0_r.
Qed.

Lemma fragments_mtu kf first frame ps :
  fragments kf first frame ps -> Forall (fun p => blen (data p) <= 1400) ps.
Proof.
  induction 1; repeat constructor; cbn [data]; rewrite ?blen_cons; auto; lia.
Qed.

(** ** Theorems *)

(** C18: every VP8 frame of up to 256 KiB is cut into exactly ceil(n / 1399)
    payloads of at most 1400 bytes, and feeding them in order to a depacketizer
    in any state returns "more needed" for all but the last, and for the last
    the frame and its key-frame flag. *)
Theorem vp8_frame_roundtrip frame kf ts maxp d :
  0 < blen frame <= VP8_MAX_FRAME_SIZE -> frag_count (blen frame) <= maxp ->
  exists ps, rtc_vp8_packetize frame kf maxp = Ok ps /\
    blen ps = frag_count (blen frame) /\ Forall (fun p => blen (data p) <= 1400) ps /\
    (feed (on_wire ts ps) d).2 =
      replicate (length ps - 1) (Err RTC_ERR_GENERIC) ++ [Ok (frame, kf)].
Proof.
  intros Hf Hmax. destruct (packetize_spec frame kf maxp) as (ps & E & Hfr & Hps); [lia|done|].
  exists ps. split; [done|]. split; [done|]. split; [by eapply fragments_mtu|].
  by rewrite (feed_frame kf ts frame ps d) by (done || lia).
Qed.

(** a frame that does not fit the caller's array is refused, never
    truncated. *)
Theorem vp8_capacity frame kf maxp :
  0 <= maxp < frag_count (blen frame) ->
  rtc_vp8_packetize frame kf maxp = Err RTC_ERR_NOMEM.
Proof.
  intros Hmax. unfold rtc_vp8_packetize.
  destruct (Z.eqb_spec (blen frame) 0) as [E|E].
  { rewrite E in Hmax. change (frag_count 0) with 0 in Hmax. lia. }
  cbn [fail_if]. rewrite (bind_Ok_l (Ok ()) _ _ eq_refl).
  apply packetize_loop_full; rewrite ?Z.sub_0_r; unfold blen in *; lia.
Qed.

Lemma descriptor_len_safe payload :
  1 <= blen payload -> no_fault (descriptor_len payload) /\
  (forall n, descriptor_len payload = Ok n -> 0 <= n <= blen payload).
Proof.
  intros Hp. unfold descriptor_len, VP8_PD_SIZE. split.
  - cbv zeta. safe.
  - intros n (pd & _ & Hn)%bind_Ok. destruct (flag pd 128); [|injection Hn; lia].
    apply bind_Ok in Hn as (_ & H2%fail_if_Ok & Hn). apply bind_Ok in Hn as (ext & _ & Hn).
    apply bind_Ok in Hn as (m & Hm & Hn). apply bind_Ok in Hn as (_ & Hle%fail_if_Ok & [= <-]).
    assert (2 <= m).
    { destruct (flag ext 128); [|injection Hm; lia].
      apply bind_Ok in Hm as (_ & _ & (b & _ & [= <-])%bind_Ok). destruct (flag b 128); lia. }
    destruct (flag ext 64), (flag ext 32 || flag ext 16); lia.
Qed.

Definition dep_ok (d : rtc_vp8_depacketizer_t) : Prop := blen (frame_buf d) <= VP8_MAX_FRAME_SIZE.

Lemma frame_boundary_ok s ts d :
  dep_ok d -> let '(d', r) := frame_boundary s ts d in dep_ok d' /\ no_fault r.
Proof.
  intros Hd. unfold frame_boundary, mbind, st_bind, get, lift, put, mret, st_ret.
  destruct s, (collecting d); cbn [orb negb andb]; try (by split).
  destruct (ts =? frame_timestamp d); by split.
Qed.

(** whatever payloads arrive, in whatever order, the depacketizer reads only
    inside the payload, never writes past its 256 KiB buffer, and returns only
    frames that fit it. *)
Theorem vp8_depacketize_safe payload ts mk d :
  dep_ok d ->
  let '(d', r) := rtc_vp8_depacketize payload ts mk d in
  dep_ok d' /\ r <> Fault /\
  (forall f kf, r = Ok (f, kf) -> blen f <= VP8_MAX_FRAME_SIZE /\ mk = true).
Proof.
  intros Hd. unfold rtc_vp8_depacketize, VP8_PD_SIZE. cbv zeta. rewrite st_bind_eq. unfold lift at 1.
  destruct (Z.ltb_spec (blen payload) 1) as [|Hp]; cbn [fail_if]; [by repeat split|].
  destruct (rd_in_range payload 0) as [pd Epd]; [lia|]. rewrite (st_bind_lift _ _ _ pd Epd).
  destruct (descriptor_len_safe payload Hp) as [Hs Hr].
  rewrite st_bind_eq. unfold lift at 1. destruct (descriptor_len payload) as [n| |]; [|by repeat split|done].
  destruct (Hr n eq_refl).
  rewrite (st_bind_lift _ _ _ _ (sub_Ok payload n (blen payload - n) ltac:(lia) ltac:(lia) ltac:(lia))).
  set (c := take _ _). rewrite st_bind_eq.
  pose proof (frame_boundary_ok (flag pd 16) ts d Hd) as Hb.
  destruct (frame_boundary (flag pd 16) ts d) as [d1 [[]|e|]]; destruct Hb as [Hd1 Hnf];
    [|by repeat split|by destruct Hnf].
  unfold mbind, st_bind, get, lift, put, mret, st_ret.
  destruct (negb (collecting d1) || negb (got_start d1)); cbn [fail_if]; [by repeat split|].
  destruct (Z.ltb_spec VP8_MAX_FRAME_SIZE (blen (frame_buf d1) + blen c)); [by repeat split|].
  assert (blen (frame_buf d1 ++ c) <= VP8_MAX_FRAME_SIZE) by (rewrite blen_app; lia).
  destruct mk; (split; [done|split; [done|]]); by intros f kf [= <- _].
Qed.

(** the depacketizer tells frames apart by the S bit and the timestamp only:
    a payload that starts a later partition of the same frame (S set, partition
    index not 0, as RFC 7741 allows) discards the partitions collected before
    it, and a fragment lost inside a frame leaves a shorter frame that is
    reported as complete. *)
Theorem vp8_partial_frames c1 c2 ts d :
  blen c1 + blen c2 <= VP8_MAX_FRAME_SIZE ->
  (feed [(0x10 :: c1, ts, false); (0x11 :: c2, ts, true)] d).2 = [Err RTC_ERR_GENERIC; Ok (c2, true)] /\
  (feed [(0x10 :: c1, ts, false); (0x00 :: c2, ts, true)] d).2
  = [Err RTC_ERR_GENERIC; Ok (c1 ++ c2, true)].
Proof.
  intros Hmax. pose proof (blen_nonneg c1). pose proof (blen_nonneg c2).
  split; cbn [feed].
  - by rewrite !depacketize_start by (done || lia).
  - rewrite depacketize_start by (done || lia). by rewrite depacketize_continue by (done || lia).
Qed.

Lemma vp8_frame_roundtrip_witness :
  exists ps, rtc_vp8_packetize (replicate 1500 7) false 4 = Ok ps /\
    blen ps = frag_count (blen (replicate 1500 7)) /\ Forall (fun p => blen (data p) <= 1400) ps /\
    (feed (on_wire 9 ps) rtc_vp8_depacketizer_init).2 =
      replicate (length ps - 1) (Err RTC_ERR_GENERIC) ++ [Ok (replicate 1500 7, false)].
Proof.
  apply vp8_frame_roundtrip; [split|]; change (blen (replicate 1500 7)) with 1500; done.
Defined.

Lemma vp8_capacity_witness : rtc_vp8_packetize (replicate 1500 7) false 1 = Err RTC_ERR_NOMEM.
Proof. apply vp8_capacity. vm_compute. split; congruence. Defined.

Lemma vp8_depacketize_safe_witness :
  let '(d', r) := rtc_vp8_depacketize [0x90; 0x80; 0xFF] 5 true rtc_vp8_depacketizer_init in
  dep_ok d' /\ r <> Fault /\ (forall f kf, r = Ok (f, kf) -> blen f <= VP8_MAX_FRAME_SIZE /\ true = true).
Proof. apply (vp8_depacketize_safe [0x90; 0x80; 0xFF] 5 true). vm_compute. discriminate. Defined.

Lemma vp8_partial_frames_witness :
  (feed [(0x10 :: [1; 2], 5, false); (0x11 :: [3], 5, true)] rtc_vp8_depacketizer_init).2
  = [Err RTC_ERR_GENERIC; Ok ([3], true)].
Proof. apply (vp8_partial_frames [1; 2] [3]). vm_compute. discriminate. Defined.

End Vp8.
