(* ===== verification/JitterBuffer.v ===== *)
(** * The jitter buffer (media/src/jitter_buffer.c)

    Reordering and adaptive delay on top of the hash map of [U32Map].  Slots
    live in a heap of their own: the map and [last_popped] hold addresses,
    [malloc] adds a slot, [free] removes it, and reading or freeing an address
    that is not live is a [Fault], so that use after free, double free and
    leaks are visible.  The allocator, the outcome of the map's allocations and
    the clock are arguments. *)

From S2P Require Import Prelude Probe U32Map.
From Stdlib Require Import ZArith Lia.
From stdpp Require Import base list numbers sets gmap fin_maps.
#[local] Open Scope Z_scope.

Module JitterBuffer.
Import U32Map.

Definition JB_MAX_PACKETS : Z := 256.

(** [data]: the first [len] bytes of the array of 2048 *)
Record jb_slot_t := Slot {
  data : bytes; seq : Z; timestamp : Z; marker : bool; arrival_ms : Z
}.

(** [by_seq]: sequence number to slot address, [None] being NULL *)
Record jitter_buffer_t := JB {
  by_seq : rtc_u32_map_t (option Z);
  last_popped : option Z;
  next_seq : Z;
  started : bool;
  target_delay_ms : Z;
  min_delay_ms : Z;
  max_delay_ms : Z;
  est_jitter_ms : Z;
  last_arrival_ms : Z;
  last_timestamp : Z
}.

(** the buffer and the slots that are allocated *)
Record jb_world := JbWorld { jb : jitter_buffer_t; heap : gmap Z jb_slot_t }.

(** ** The heap *)

(** an address outside the live ones, or [None] when out of memory *)
Abbreviation allocator := (gset Z -> option Z).

Definition deref (p : Z) : st jb_world jb_slot_t :=
  fun w => (w, match heap w !! p with Some s => Ok s | None => Fault end).

Definition free (p : option Z) : st jb_world unit :=
  match p with
  | None => mret ()
  | Some p => _ ← deref p; modify (fun w => JbWorld (jb w) (delete p (heap w)))
  end.

Definition get_jb : st jb_world jitter_buffer_t := fun w => (w, Ok (jb w)).
Definition put_jb (j : jitter_buffer_t) : st jb_world unit := modify (fun w => JbWorld j (heap w)).

(** ** The buffer *)

(** [cfg]: target and maximum delay *)
Definition jitter_buffer_create (alloc : bool) (cfg : option (Z * Z)) : option jitter_buffer_t :=
  if negb alloc then None
  else
    let target := match cfg with Some (t, _) => t | None => 80 end in
    let max := match cfg with Some (_, m) => m | None => 500 end in
    Some (JB rtc_u32_map_init None 0 false
            (if target <? 0 then 80 else target) target
            (if max <=? 0 then 500 else max) 0 0 0).

Definition seq_compare (a b : Z) : Z := s16 (a - b).

(** the loop of [find_oldest] over the pairs of the map *)
Fixpoint oldest_loop (kvs : list (Z * option Z)) (oldest : option Z) : st jb_world (option Z) :=
  match kvs with
  | [] => mret oldest
  | (_, v) :: kvs =>
      match oldest, v with
      | None, _ => oldest_loop kvs v
      | Some o, Some p =>
          s ← deref p;
          so ← deref o;
          oldest_loop kvs (if seq_compare (seq s) (seq so) <? 0 then Some p else Some o)
      | Some _, None => lift Fault
      end
  end.

(** the slot with the smallest sequence number, and that number *)
Definition find_oldest : st jb_world (option (Z * Z)) :=
  j ← get_jb;
  oldest ← oldest_loop (iterate (S (length (entries (by_seq j)))) (by_seq j) 0) None;
  match oldest with
  | None => mret None
  | Some o => s ← deref o; mret (Some (o, seq s))
  end.

Definition set_map (j : jitter_buffer_t) (m : rtc_u32_map_t (option Z)) : jitter_buffer_t :=
  JB m (last_popped j) (next_seq j) (started j) (target_delay_ms j) (min_delay_ms j)
     (max_delay_ms j) (est_jitter_ms j) (last_arrival_ms j) (last_timestamp j).

Definition set_next (j : jitter_buffer_t) (n : Z) : jitter_buffer_t :=
  JB (by_seq j) (last_popped j) n (started j) (target_delay_ms j) (min_delay_ms j)
     (max_delay_ms j) (est_jitter_ms j) (last_arrival_ms j) (last_timestamp j).

(** a call on [&jb->by_seq] *)
Definition on_map {A} (f : st (rtc_u32_map_t (option Z)) A) : st jb_world A :=
  zoom (fun w => by_seq (jb w)) (fun w m => JbWorld (set_map (jb w) m) (heap w)) f.

(** the expected sequence number on arrival of [sq]; [None]: too old *)
Definition push_order (j : jitter_buffer_t) (now sq ts : Z) : option jitter_buffer_t :=
  if negb (started j) then
    Some (JB (by_seq j) (last_popped j) sq true (target_delay_ms j) (min_delay_ms j)
            (max_delay_ms j) (est_jitter_ms j) now ts)
  else if seq_compare sq (next_seq j) <? 0 then
    let gap := seq_compare (next_seq j) sq in
    if (0 <? gap) && (gap <? JB_MAX_PACKETS / 2) then Some (set_next j sq) else None
  else Some j.

(** the new jitter estimate *)
Definition jitter_estimate (j : jitter_buffer_t) (now ts : Z) : res Z :=
  if 0 <? last_arrival_ms j then
    let arrival_diff := s32 (u64 (now - last_arrival_ms j)) in
    let ts_diff := s32 (u32 (ts - last_timestamp j) / 90) in
    diff ← int_val (arrival_diff - ts_diff);
    jitter_sample ← int_val (Z.abs diff);
    e15 ← int_val (est_jitter_ms j * 15);
    sum ← int_val (e15 + jitter_sample);
    Ok (Z.quot sum 16)
  else Ok (est_jitter_ms j).

Definition adapt_delay (j : jitter_buffer_t) (est : Z) : res Z :=
  if 0 <? min_delay_ms j then
    new_target ← int_val (est * 2);
    let new_target := if new_target <? min_delay_ms j then min_delay_ms j else new_target in
    Ok (if max_delay_ms j <? new_target then max_delay_ms j else new_target)
  else Ok (target_delay_ms j).

(** evict the oldest slot of a full buffer *)
Definition evict (alloc : bool) : st jb_world unit :=
  j ← get_jb;
  if JB_MAX_PACKETS <=? rtc_u32_map_len (by_seq j) then
    old ← find_oldest;
    match old with
    | Some (o, oldest_seq) =>
        _ ← on_map (rtc_u32_map_remove None alloc oldest_seq);
        free (Some o)
    | None => mret ()
    end
  else mret ().

(** [int copy_len]: the packet length clamped to the slot *)
Definition clamp_len (len : Z) : Z :=
  let copy_len := if len <? 0 then 0 else len in
  if 2048 <? copy_len then 2048 else copy_len.

(** allocate a slot, copy the packet into it and enter it in the map *)
Definition store (malloc : allocator) (alloc_set : bool) (now : Z) (d : bytes) (len sq ts : Z)
    (mk : bool) : st jb_world unit :=
  w ← get;
  match malloc (dom (heap w)) with
  | None => mret ()
  | Some slot =>
      copied ← lift (sub d 0 (clamp_len len));
      _ ← modify (fun w => JbWorld (jb w) (<[slot := Slot copied sq ts mk now]> (heap w)));
      rc ← st_attempt (on_map (rtc_u32_map_set None alloc_set sq (Some slot)));
      match rc with
      | Some _ => mret ()
      | None => free (Some slot)
      end
  end.

(** [alloc_evict], [alloc_set]: the map's allocations on removal and insertion *)
Definition jitter_buffer_push (alloc_evict : bool) (malloc : allocator) (alloc_set : bool)
    (now : Z) (d : bytes) (len sq ts : Z) (mk : bool) : st jb_world unit :=
  j ← get_jb;
  match push_order j now sq ts with
  | None => mret ()
  | Some j =>
      _ ← put_jb j;
      dup ← lift (rtc_u32_map_get None (by_seq j) sq);
      match dup with
      | Some _ => mret ()
      | None =>
          est ← lift (jitter_estimate j now ts);
          target ← lift (adapt_delay j est);
          _ ← put_jb (JB (by_seq j) (last_popped j) (next_seq j) (started j) target
                        (min_delay_ms j) (max_delay_ms j) est now ts);
          _ ← evict alloc_evict;
          store malloc alloc_set now d len sq ts mk
      end
  end.

(** [int] age of a slot *)
Definition age (now : Z) (s : jb_slot_t) : Z := s32 (u64 (now - arrival_ms s)).

(** hand out the slot at [p]: the previous one is freed, this one stays
    allocated as [last_popped].  The result: the address [out->data] points
    into and the fields copied to [out]. *)
Definition pop_slot (alloc : bool) (p : Z) : st jb_world (Z * jb_slot_t) :=
  j ← get_jb;
  _ ← on_map (rtc_u32_map_remove None alloc (next_seq j));
  _ ← free (last_popped j);
  j ← get_jb;
  _ ← put_jb (JB (by_seq j) (Some p) (next_seq j) (started j) (target_delay_ms j)
                (min_delay_ms j) (max_delay_ms j) (est_jitter_ms j) (last_arrival_ms j)
                (last_timestamp j));
  s ← deref p;
  j ← get_jb;
  _ ← put_jb (set_next j (u16 (next_seq j + 1)));
  mret (p, s).

Fixpoint pop_loop (fuel : nat) (alloc : bool) (now : Z) : st jb_world (option (Z * jb_slot_t)) :=
  j ← get_jb;
  slot ← lift (rtc_u32_map_get None (by_seq j) (next_seq j));
  match slot with
  | Some p =>
      s ← deref p;
      if age now s <? target_delay_ms j then mret None
      else out ← pop_slot alloc p; mret (Some out)
  | None =>
      oldest ← find_oldest;
      match oldest with
      | None => mret None
      | Some (earliest, earliest_seq) =>
          s ← deref earliest;
          if age now s <=? max_delay_ms j then mret None
          else
            _ ← put_jb (set_next j earliest_seq);
            match fuel with
            | O => lift Fault
            | S fuel => pop_loop fuel alloc now
            end
      end
  end.

(** [None]: the result -1.  One retry is enough (see [pop_spec]). *)
Definition jitter_buffer_pop (alloc : bool) (now : Z) : st jb_world (option (Z * jb_slot_t)) :=
  j ← get_jb;
  if rtc_u32_map_len (by_seq j) =? 0 then mret None else pop_loop 1 alloc now.

Definition jitter_buffer_get_delay (j : jitter_buffer_t) : Z := target_delay_ms j.

(** the buffer itself is gone afterwards; what is left is the heap *)
Definition jitter_buffer_destroy : st jb_world unit :=
  j ← get_jb;
  _ ← st_each (fun kv => free kv.2) (iterate (S (length (entries (by_seq j)))) (by_seq j) 0);
  _ ← put_jb (set_map j (rtc_u32_map_free (by_seq j)));
  free (last_popped j).

(** ** Reasoning about the heap *)

Lemma bind_get_jb {B} (f : jitter_buffer_t -> st jb_world B) w : (get_jb ≫= f) w = f (jb w) w.
Proof. done. Qed.

Lemma bind_put_jb {B} j (f : unit -> st jb_world B) w : (put_jb j ≫= f) w = f () (JbWorld j (heap w)).
Proof. done. Qed.

Lemma bind_deref {B} p s (f : jb_slot_t -> st jb_world B) w :
  heap w !! p = Some s -> (deref p ≫= f) w = f s w.
Proof. intros E. rewrite st_bind_eq. unfold deref. by rewrite E. Qed.

Lemma free_live p w :
  is_Some (heap w !! p) -> free (Some p) w = (JbWorld (jb w) (delete p (heap w)), Ok ()).
Proof. intros [s E]. unfold free. by rewrite (bind_deref p s). Qed.

Lemma bind_on_map {A B} (f : st (rtc_u32_map_t (option Z)) A) (k : A -> st jb_world B) w m a :
  f (by_seq (jb w)) = (m, Ok a) -> (on_map f ≫= k) w = k a (JbWorld (set_map (jb w) m) (heap w)).
Proof. intros E. apply st_bind_run. unfold on_map, zoom. by rewrite E. Qed.

(** ** Invariant *)

(** the map's entry [v] for [k] is the address of a live slot with that number *)
Definition slot_ok (h : gmap Z jb_slot_t) (k : Z) (v : option Z) : Prop :=
  exists p s, v = Some p /\ h !! p = Some s /\ seq s = k /\ 0 <= k < 2 ^ 16 /\ blen (data s) <= 2048.

(** [g]: the contents of the map.  The live slots are those of the map and the
    last one popped, which is not in the map. *)
Record jb_inv (w : jb_world) (g : gmap Z (option Z)) : Prop := {
  inv_repr : u32_repr (by_seq (jb w)) g;
  inv_slots : map_Forall (slot_ok (heap w)) g;
  inv_last : forall q, last_popped (jb w) = Some q -> is_Some (heap w !! q) /\ forall k, g !! k <> Some (Some q);
  inv_live : forall p, is_Some (heap w !! p) -> last_popped (jb w) = Some p \/ exists k, g !! k = Some (Some p);
  inv_size : (size g <= 256)%nat;
  inv_next : 0 <= next_seq (jb w) < 2 ^ 16;
  inv_est : 0 <= est_jitter_ms (jb w) <= 2 ^ 27;
  inv_delay : 0 < min_delay_ms (jb w) <= max_delay_ms (jb w) ->
    min_delay_ms (jb w) <= target_delay_ms (jb w) <= max_delay_ms (jb w)
}.

(** the clock does not run backwards and two packets are less than 2^26 ms
    (18 hours) apart *)
Definition clock_ok (j : jitter_buffer_t) (now : Z) : Prop :=
  0 < last_arrival_ms j -> 0 <= now - last_arrival_ms j < 2 ^ 26.

Lemma repr_len (m : rtc_u32_map_t (option Z)) g :
  u32_repr m g -> rtc_u32_map_len m = Z.of_nat (size g).
Proof. intros [[-> ->]|[]]; [by rewrite map_size_empty|done]. Qed.

Lemma oldest_loop_spec w l : forall acc,
  Forall (fun kv => slot_ok (heap w) kv.1 kv.2) l ->
  (forall o, acc = Some o -> is_Some (heap w !! o)) ->
  exists r, oldest_loop l acc w = (w, Ok r) /\
    match r with
    | None => acc = None /\ l = []
    | Some p => acc = Some p \/ exists k, (k, Some p) ∈ l
    end.
Proof.
  induction l as [|[k v] l IH]; intros acc Hl Hacc; [exists acc; destruct acc; simpl; auto|].
  apply Forall_cons_1 in Hl as [(p & s & Hv & Hp & _) Hl]. cbn [fst snd] in *. subst v. cbn [oldest_loop].
  assert (Hgo : forall a, (a = Some p \/ a = acc) -> (forall o, a = Some o -> is_Some (heap w !! o)) ->
    (a = None -> False) -> exists r, oldest_loop l a w = (w, Ok r) /\
      match r with None => acc = None /\ (k, Some p) :: l = [] | Some q => acc = Some q \/ exists k', (k', Some q) ∈ (k, Some p) :: l end).
  { intros a Ha Hlive Hne. destruct (IH a Hl Hlive) as (r & E & Hr). exists r. split; [done|].
    destruct r as [q|]; [|tauto]. destruct Hr as [->|[k' Hk']]; [|right; exists k'; by right].
    destruct Ha as [[= ->]|<-]; [right; exists k; by left|by left]. }
  destruct acc as [o|].
  - destruct (Hacc o eq_refl) as [so Ho]. rewrite (bind_deref p s), (bind_deref o so) by done.
    destruct (seq_compare _ _ <? 0); (apply Hgo; [auto|intros ? [= <-]; eauto|done]).
  - apply Hgo; [auto|intros ? [= <-]; eauto|done].
Qed.

Lemma find_oldest_spec w g :
  jb_inv w g ->
  exists r, find_oldest w = (w, Ok r) /\
    match r with
    | None => g = ∅
    | Some (p, k) => g !! k = Some (Some p)
    end.
Proof.
  intros []. unfold find_oldest. rewrite bind_get_jb.
  pose proof (iterate_repr (by_seq (jb w)) g inv_repr0) as Hp. set (l := iterate _ _ _) in *.
  assert (Hl : Forall (fun kv => slot_ok (heap w) kv.1 kv.2) l).
  { rewrite Hp. apply map_Forall_to_list in inv_slots0.
    eapply Forall_impl; [exact inv_slots0|]. by intros []. }
  destruct (oldest_loop_spec w l None Hl ltac:(done)) as (r & E & Hr). rewrite (st_bind_run _ _ _ _ _ E).
  destruct r as [p|].
  - destruct Hr as [?|[k Hk]]; [done|]. rewrite Hp in Hk. apply elem_of_map_to_list in Hk.
    destruct (inv_slots0 _ _ Hk) as (p' & s & [= <-] & Hs & <- & _).
    exists (Some (p, seq s)). by rewrite (bind_deref p s).
  - exists None. split; [done|]. destruct Hr as [_ ->]. apply map_to_list_empty_iff. symmetry. by apply Permutation_nil_l.
Qed.

Lemma inv_get w g k :
  jb_inv w g -> rtc_u32_map_get None (by_seq (jb w)) k = Ok (default None (g !! k)).
Proof. intros []. by apply get_spec. Qed.

Lemma inv_slot w g k p :
  jb_inv w g -> g !! k = Some (Some p) ->
  exists s, heap w !! p = Some s /\ seq s = k /\ 0 <= k < 2 ^ 16 /\ blen (data s) <= 2048.
Proof. intros [] Hk. destruct (inv_slots0 _ _ Hk) as (p' & s & [= <-] & ?). eauto. Qed.

(** a slot is entered in the map once *)
Lemma inv_inj w g k1 k2 p :
  jb_inv w g -> g !! k1 = Some (Some p) -> g !! k2 = Some (Some p) -> k1 = k2.
Proof.
  intros Hi H1 H2. destruct (inv_slot _ _ _ _ Hi H1) as (s1 & E1 & <- & _).
  destruct (inv_slot _ _ _ _ Hi H2) as (s2 & E2 & <- & _). by simplify_eq.
Qed.

Lemma slots_delete w g k p :
  jb_inv w g -> g !! k = Some (Some p) -> map_Forall (slot_ok (delete p (heap w))) (delete k g).
Proof.
  intros Hi Hk k' v [Hne Hv]%lookup_delete_Some. destruct (inv_slots _ _ Hi _ _ Hv) as (p' & s & -> & Hs & Hr).
  exists p', s. split; [done|]. split; [|done]. rewrite lookup_delete_ne; [done|].
  intros <-. apply Hne. by eapply inv_inj.
Qed.

Lemma size_delete_le {A} (g : gmap Z A) k : (size (delete k g) <= size g)%nat.
Proof. rewrite map_size_delete. destruct (g !! k); simpl; lia. Qed.

(** ** Popping *)

(** the heap once the slot popped last is freed *)
Definition heap_rest (w : jb_world) : gmap Z jb_slot_t :=
  match last_popped (jb w) with Some q => delete q (heap w) | None => heap w end.

Lemma free_last w g j :
  jb_inv w g -> free (last_popped (jb w)) (JbWorld j (heap w)) = (JbWorld j (heap_rest w), Ok ()).
Proof.
  intros []. unfold heap_rest. destruct (last_popped (jb w)) as [q|]; [|done].
  destruct (inv_last0 q eq_refl). by rewrite free_live.
Qed.

Lemma heap_rest_lookup w g k p :
  jb_inv w g -> g !! k = Some (Some p) -> heap_rest w !! p = heap w !! p.
Proof.
  intros [] Hk. unfold heap_rest. destruct (last_popped (jb w)) as [q|]; [|done].
  destruct (inv_last0 q eq_refl) as [_ Hq]. rewrite lookup_delete_ne; [done|]. intros ->. by apply (Hq k).
Qed.

Lemma heap_rest_slots w g : jb_inv w g -> map_Forall (slot_ok (heap_rest w)) g.
Proof.
  intros Hi k v Hk. destruct (inv_slots _ _ Hi _ _ Hk) as (p & s & -> & Hs & Hr). exists p, s.
  by rewrite (heap_rest_lookup w g k p).
Qed.

Lemma heap_rest_live w g p :
  jb_inv w g -> is_Some (heap_rest w !! p) -> exists k, g !! k = Some (Some p).
Proof.
  intros [] Hp. unfold heap_rest in Hp. destruct (last_popped (jb w)) as [q|] eqn:Eq.
  - destruct Hp as [s [Hne Hs]%lookup_delete_Some]. destruct (inv_live0 p) as [[= ?]|?]; [by eexists|done|done].
  - by destruct (inv_live0 p Hp).
Qed.

(** the configuration and the delay, which a pop does not change *)
Definition same_delay (j j' : jitter_buffer_t) : Prop :=
  target_delay_ms j' = target_delay_ms j /\ min_delay_ms j' = min_delay_ms j /\
  max_delay_ms j' = max_delay_ms j /\ last_arrival_ms j' = last_arrival_ms j.

(** what a pop that returns [r] does to the contents [g] *)
Definition pop_result (w : jb_world) (g : gmap Z (option Z)) (now : Z)
    (w' : jb_world) (r : option (Z * jb_slot_t)) : Prop :=
  same_delay (jb w) (jb w') /\
  match r with
  | None => jb_inv w' g /\ heap w' = heap w /\ last_popped (jb w') = last_popped (jb w)
  | Some (p, s) =>
      g !! seq s = Some (Some p) /\ heap w !! p = Some s /\ target_delay_ms (jb w) <= age now s /\
      jb_inv w' (delete (seq s) g) /\ next_seq (jb w') = u16 (seq s + 1) /\
      heap w' = heap_rest w /\ last_popped (jb w') = Some p
  end.

Lemma pop_slot_spec alloc w g p s :
  jb_inv w g -> g !! next_seq (jb w) = Some (Some p) -> heap w !! p = Some s ->
  exists w', pop_slot alloc p w = (w', Ok (p, s)) /\ same_delay (jb w) (jb w') /\
    jb_inv w' (delete (next_seq (jb w)) g) /\ next_seq (jb w') = u16 (next_seq (jb w) + 1) /\
    heap w' = heap_rest w /\ last_popped (jb w') = Some p.
Proof.
  intros Hi Hp Hs. unfold pop_slot. rewrite bind_get_jb.
  destruct (remove_spec None (by_seq (jb w)) g alloc (next_seq (jb w)) (inv_repr _ _ Hi)) as (m' & Er & Hm' & _).
  rewrite (bind_on_map _ _ w m' _ Er), (st_bind_run _ _ _ _ _ (free_last w g _ Hi)).
  rewrite bind_get_jb, bind_put_jb. cbn [jb heap].
  rewrite (bind_deref p s) by (cbn [heap]; by rewrite (heap_rest_lookup w g (next_seq (jb w)) p)).
  rewrite bind_get_jb, bind_put_jb. eexists. split; [done|]. split; [done|]. split; [|done].
  pose proof (heap_rest_slots w g Hi) as Hsl. pose proof (size_delete_le g (next_seq (jb w))).
  pose proof Hi as []. split; cbn [jb heap set_next set_map by_seq last_popped next_seq est_jitter_ms min_delay_ms max_delay_ms target_delay_ms]; auto; try lia.
  - by apply map_Forall_delete.
  - intros q [= <-]. split; [rewrite (heap_rest_lookup w g (next_seq (jb w)) p) by done; by eexists|].
    intros k [Hne Hk]%lookup_delete_Some. apply Hne. by eapply inv_inj.
  - intros q Hq. destruct (heap_rest_live w g q Hi Hq) as [k Hk].
    destruct (decide (k = next_seq (jb w))) as [->|Hne]; [left; congruence|].
    right. exists k. by rewrite lookup_delete_ne.
  - apply u16_range.
Qed.

Lemma pop_present fuel alloc now w g p s :
  jb_inv w g -> g !! next_seq (jb w) = Some (Some p) -> heap w !! p = Some s ->
  exists w' r, pop_loop fuel alloc now w = (w', Ok r) /\ pop_result w g now w' r /\
    r = if age now s <? target_delay_ms (jb w) then None else Some (p, s).
Proof.
  intros Hi Hp Hs. destruct (inv_slot _ _ _ _ Hi Hp) as (s' & Hs' & Hseq & _). simplify_eq.
  assert (E : pop_loop fuel alloc now w =
    if age now s <? target_delay_ms (jb w) then (w, Ok None)
    else (out ← pop_slot alloc p; mret (Some out)) w).
  { destruct fuel; cbn [pop_loop]; rewrite bind_get_jb, (st_bind_lift _ _ _ _ (inv_get w g _ Hi)), Hp;
      cbn [default from_option id]; rewrite (bind_deref p s) by done; by destruct (_ <? _). }
  rewrite E. destruct (Z.ltb_spec (age now s) (target_delay_ms (jb w))).
  { exists w, None. split; [done|]. split; [|done]. by split. }
  destruct (pop_slot_spec alloc w g p s Hi Hp Hs) as (w' & Ew & Hd & Hi' & Hn & Hh & Hl).
  rewrite (st_bind_run _ _ _ _ _ Ew). exists w', (Some (p, s)). split; [done|]. split; [|done].
  split; [done|]. rewrite Hseq. by split_and!.
Qed.

Lemma inv_set_next w g k p :
  jb_inv w g -> g !! k = Some (Some p) -> jb_inv (JbWorld (set_next (jb w) k) (heap w)) g.
Proof. intros Hi Hk. destruct (inv_slot _ _ _ _ Hi Hk) as (s & _ & _ & ? & _). destruct Hi. by split. Qed.

Lemma pop_spec alloc now w g :
  jb_inv w g -> exists w' r, jitter_buffer_pop alloc now w = (w', Ok r) /\ pop_result w g now w' r.
Proof.
  intros Hi. unfold jitter_buffer_pop. rewrite bind_get_jb.
  assert (Hnone : forall w1, same_delay (jb w) (jb w1) -> jb_inv w1 g -> heap w1 = heap w ->
    last_popped (jb w1) = last_popped (jb w) -> pop_result w g now w1 None) by by split.
  destruct (rtc_u32_map_len (by_seq (jb w)) =? 0); [exists w, None; split; [done|by apply Hnone]|].
  destruct (g !! next_seq (jb w)) as [v|] eqn:Hg.
  { destruct (inv_slots _ _ Hi _ _ Hg) as (p & s & -> & Hs & _).
    destruct (pop_present 1 alloc now w g p s Hi Hg Hs) as (w' & r & E & Hr & _). eauto. }
  cbn [pop_loop]. rewrite bind_get_jb, (st_bind_lift _ _ _ _ (inv_get w g _ Hi)), Hg. cbn [default from_option].
  destruct (find_oldest_spec w g Hi) as (o & Eo & Ho). rewrite (st_bind_run _ _ _ _ _ Eo).
  destruct o as [[e k]|]; [|exists w, None; split; [done|by apply Hnone]].
  destruct (inv_slot _ _ _ _ Hi Ho) as (s & Hs & Hseq & _). rewrite (bind_deref e s) by done.
  destruct (Z.leb_spec (age now s) (max_delay_ms (jb w))); [exists w, None; split; [done|by apply Hnone]|].
  rewrite bind_put_jb. pose proof (inv_set_next w g k e Hi Ho) as Hi'.
  destruct (pop_present 0 alloc now _ g e s Hi' Ho Hs) as (w' & r & E & Hr & _).
  exists w', r. split; [exact E|exact Hr].
Qed.

(** ** Pushing *)

Lemma ts_diff_range a b : 0 <= s32 (u32 (a - b) / 90) <= 47721858.
Proof.
  pose proof (u32_range (a - b)). rewrite s32_small by (pow_eval; dlia). pow_eval. dlia.
Qed.

Lemma jitter_estimate_ok j now ts :
  0 <= est_jitter_ms j <= 2 ^ 27 -> clock_ok j now ->
  exists e, jitter_estimate j now ts = Ok e /\ 0 <= e <= 2 ^ 27.
Proof.
  intros He Hc. unfold jitter_estimate. destruct (Z.ltb_spec 0 (last_arrival_ms j)) as [Ha|]; [|eauto].
  specialize (Hc Ha). rewrite u64_id, s32_small by (pow_eval; lia).
  pose proof (ts_diff_range ts (last_timestamp j)). set (td := s32 _) in *. clearbody td.
  set (x := now - last_arrival_ms j) in *. clearbody x. pow_eval.
  step (int_val_Ok (x - td) ltac:(unfold INT_MAX; lia)).
  step (int_val_Ok (Z.abs (x - td)) ltac:(unfold INT_MAX; lia)).
  step (int_val_Ok (est_jitter_ms j * 15) ltac:(unfold INT_MAX; lia)).
  step (int_val_Ok (est_jitter_ms j * 15 + Z.abs (x - td)) ltac:(unfold INT_MAX; lia)).
  eexists; split; [done|]. rewrite Z.quot_div_nonneg by lia. dlia.
Qed.

Lemma adapt_delay_ok j est :
  0 <= est <= 2 ^ 27 ->
  exists t, adapt_delay j est = Ok t /\
    (0 < min_delay_ms j -> t = Z.min (max_delay_ms j) (Z.max (min_delay_ms j) (est * 2))) /\
    (min_delay_ms j <= 0 -> t = target_delay_ms j).
Proof.
  intros He. unfold adapt_delay. destruct (Z.ltb_spec 0 (min_delay_ms j)); [|eauto with lia].
  step (int_val_Ok (est * 2) ltac:(unfold INT_MAX; lia)). eexists; split; [done|]. split; [|lia]. intros _.
  destruct (Z.ltb_spec (est * 2) (min_delay_ms j)).
  - destruct (Z.ltb_spec (max_delay_ms j) (min_delay_ms j)); lia.
  - destruct (Z.ltb_spec (max_delay_ms j) (est * 2)); lia.
Qed.

Lemma push_order_frame j now sq ts j' :
  push_order j now sq ts = Some j' ->
  by_seq j' = by_seq j /\ last_popped j' = last_popped j /\ min_delay_ms j' = min_delay_ms j /\
  max_delay_ms j' = max_delay_ms j /\ target_delay_ms j' = target_delay_ms j /\
  (last_arrival_ms j' = last_arrival_ms j \/ last_arrival_ms j' = now).
Proof.
  unfold push_order. destruct (negb _); [intros [= <-]; cbn; auto 10|].
  destruct (_ <? 0); [destruct (_ && _)|]; intros [= <-]; cbn; auto 10.
Qed.

Lemma push_order_inv w g now sq ts j' :
  jb_inv w g -> 0 <= sq < 2 ^ 16 -> push_order (jb w) now sq ts = Some j' ->
  jb_inv (JbWorld j' (heap w)) g /\ (clock_ok (jb w) now -> clock_ok j' now).
Proof.
  intros Hi Hsq. unfold push_order.
  destruct (started (jb w)); cbn [negb].
  - destruct (_ <? 0); [destruct (_ && _)|]; intros [= <-]; (split; [|done]); by destruct Hi.
  - intros [= <-]. split; [by destruct Hi|]. intros _ _. cbn [last_arrival_ms]. lia.
Qed.

(** storage that cannot run into the size limits of the map *)
Definition compact (j : jitter_buffer_t) : Prop := tombstones (by_seq j) <= 0 /\ cap (by_seq j) <= 768.

Lemma evict_spec alloc w g :
  jb_inv w g ->
  exists m h g', evict alloc w = (JbWorld (set_map (jb w) m) h, Ok ()) /\
    jb_inv (JbWorld (set_map (jb w) m) h) g' /\ (size g' < 256)%nat /\ g' ⊆ g /\ h ⊆ heap w /\
    (forall q, last_popped (jb w) = Some q -> h !! q = heap w !! q) /\
    ((size g < 256)%nat -> m = by_seq (jb w) /\ h = heap w /\ g' = g).
Proof.
  intros Hi. unfold evict. rewrite bind_get_jb, (repr_len _ _ (inv_repr _ _ Hi)). unfold JB_MAX_PACKETS.
  destruct (Z.leb_spec 256 (Z.of_nat (size g))).
  2: { exists (by_seq (jb w)), (heap w), g.
       assert (JbWorld (set_map (jb w) (by_seq (jb w))) (heap w) = w) as -> by by destruct w as [[] ?].
       split_and!; auto. lia. }
  destruct (find_oldest_spec w g Hi) as (o & Eo & Ho). rewrite (st_bind_run _ _ _ _ _ Eo).
  destruct o as [[p k]|]; [|subst g; rewrite map_size_empty in *; lia].
  destruct (remove_spec None (by_seq (jb w)) g alloc k (inv_repr _ _ Hi)) as (m' & Er & Hm' & _).
  rewrite (bind_on_map _ _ w m' _ Er).
  destruct (inv_slot _ _ _ _ Hi Ho) as (s & Hs & _). rewrite free_live by (by eexists).
  exists m', (delete p (heap w)), (delete k g). split; [done|].
  assert (Hsz : (size (delete k g) < 256)%nat).
  { rewrite map_size_delete_Some by (by eexists). pose proof (inv_size _ _ Hi). lia. }
  assert (Hq : forall q, last_popped (jb w) = Some q -> p <> q).
  { intros q Hq ->. destruct (inv_last _ _ Hi q Hq) as [_ Hn]. by apply (Hn k). }
  split; [|split_and!; [done|apply delete_subseteq|apply delete_subseteq|
    intros q Hl; rewrite lookup_delete_ne; eauto|lia]].
  pose proof (slots_delete w g k p Hi Ho). pose proof Hi as []. split; cbn [jb heap set_map by_seq last_popped]; auto; [|  |lia].
  - intros q Hl. rewrite lookup_delete_ne by eauto. destruct (inv_last0 q Hl) as [? Hn]. split; [done|].
    intros k' [_ ?]%lookup_delete_Some. by eapply Hn.
  - intros q [s' [Hne Hs']%lookup_delete_Some]. destruct (inv_live0 q) as [?|[k' Hk']]; [by eexists|by left|].
    right. exists k'. rewrite lookup_delete_ne; [done|]. intros <-. congruence.
Qed.

(** [malloc] returns no live address *)
Definition fresh_alloc (malloc : allocator) : Prop := forall live a, malloc live = Some a -> a ∉ live.

(** the slot a packet is copied to *)
Definition slot_of (now : Z) (d : bytes) (len sq ts : Z) (mk : bool) : jb_slot_t :=
  Slot (take (Z.to_nat (clamp_len len)) d) sq ts mk now.

Lemma clamp_len_range len : 0 <= clamp_len len <= 2048.
Proof. unfold clamp_len. destruct (Z.ltb_spec len 0); [done|]. destruct (Z.ltb_spec 2048 len); lia. Qed.

Lemma inv_insert w g m' a s :
  jb_inv w g -> (size g < 256)%nat -> 0 <= seq s < 2 ^ 16 -> blen (data s) <= 2048 ->
  g !! seq s = None -> heap w !! a = None -> u32_repr m' (<[seq s := Some a]> g) ->
  jb_inv (JbWorld (set_map (jb w) m') (<[a := s]> (heap w))) (<[seq s := Some a]> g).
Proof.
  intros Hi Hsz Hsq Hd Hg Ha Hm. pose proof Hi as [].
  split; cbn [jb heap set_map by_seq last_popped]; auto.
  - apply map_Forall_insert_2; [exists a, s; by rewrite lookup_insert_eq|].
    intros k v Hk. destruct (inv_slots0 _ _ Hk) as (p & s' & -> & Hs' & Hr). exists p, s'.
    rewrite lookup_insert_ne; [done|]. congruence.
  - intros q Hq. destruct (inv_last0 q Hq) as [[s' Hs'] Hn].
    split; [rewrite lookup_insert_ne by congruence; by eexists|].
    intros k [[_ [= ->]]|[_ Hk]]%lookup_insert_Some; [congruence|by apply (Hn k)].
  - intros p [s' [[<- <-]|[Hne Hs']]%lookup_insert_Some].
    + right. exists (seq s). by rewrite lookup_insert_eq.
    + destruct (inv_live0 p) as [?|[k Hk]]; [by eexists|by left|]. right. exists k.
      rewrite lookup_insert_ne; [done|]. congruence.
  - rewrite map_size_insert_None by done. lia.
Qed.

(** the slot [s] of a new packet is in the buffer *)
Definition inserted (w : jb_world) (g : gmap Z (option Z)) (a : Z) (s : jb_slot_t)
    (w' : jb_world) (g' : gmap Z (option Z)) : Prop :=
  g' = <[seq s := Some a]> g /\ heap w' = <[a := s]> (heap w) /\ heap w !! a = None /\ compact (jb w').

Lemma slot_stored malloc alloc_set now d len sq ts mk w g :
  let s := slot_of now d len sq ts mk in
  jb_inv w g -> (size g < 256)%nat -> 0 <= sq < 2 ^ 16 -> g !! sq = None ->
  fresh_alloc malloc -> len <= blen d ->
  exists m h g', store malloc alloc_set now d len sq ts mk w = (JbWorld (set_map (jb w) m) h, Ok ()) /\
    jb_inv (JbWorld (set_map (jb w) m) h) g' /\
    (forall p s', h !! p = Some s' -> heap w !! p = Some s' \/ s' = s) /\
    (forall p, is_Some (heap w !! p) -> h !! p = heap w !! p) /\
    (forall a, malloc (dom (heap w)) = Some a -> alloc_set = true -> compact (jb w) ->
     inserted w g a s (JbWorld (set_map (jb w) m) h) g').
Proof.
  intros s Hi Hsz Hsq Hg Hfr Hlen. unfold store. rewrite st_bind_eq. cbn [get].
  assert (Hsame : JbWorld (set_map (jb w) (by_seq (jb w))) (heap w) = w) by by destruct w as [[] ?].
  destruct (malloc (dom (heap w))) as [a|] eqn:Ea.
  2: { exists (by_seq (jb w)), (heap w), g. rewrite Hsame. split_and!; auto. done. }
  pose proof (Hfr _ _ Ea) as Ha%not_elem_of_dom. pose proof (clamp_len_range len) as Hcl.
  assert (Hclb : clamp_len len <= blen d).
  { pose proof (blen_nonneg d). unfold clamp_len. destruct (Z.ltb_spec len 0); [done|]. destruct (Z.ltb_spec 2048 len); lia. }
  rewrite (st_bind_lift _ _ _ (take (Z.to_nat (clamp_len len)) d)) by (rewrite sub_Ok by lia; by rewrite drop_0).
  rewrite st_bind_eq. cbn [modify]. fold (slot_of now d len sq ts mk). fold s.
  assert (Hd : blen (data s) <= 2048) by (cbn [s slot_of data]; unfold blen in *; rewrite length_take; lia).
  destruct (set_spec None (by_seq (jb w)) g alloc_set sq (Some a) (inv_repr _ _ Hi))
    as (m' & [(E & Hm' & Ht & Hc)|(-> & E & _ & Hw)]).
  - exists m', (<[a := s]> (heap w)), (<[sq := Some a]> g).
    erewrite st_bind_run by (apply st_attempt_Ok; unfold on_map; by apply zoom_eq).
    split; [done|]. split; [by apply (inv_insert w g m' a s)|].
    split; [intros p s' [[_ <-]|[_ ?]]%lookup_insert_Some; auto|].
    split; [intros p [s' Hp]; rewrite lookup_insert_ne by congruence; done|].
    intros a' [= <-] _ [Hct Hcc]. split; [done|]. split; [done|]. split; [done|].
    pose proof (repr_len _ _ (inv_repr _ _ Hi)) as Hl. unfold rtc_u32_map_len in Hl.
    split; cbn [jb set_map by_seq]; lia.
  - exists (by_seq (jb w)), (heap w), g. rewrite Hsame.
    assert (Ef : st_attempt (on_map (rtc_u32_map_set None alloc_set sq (Some a)))
      (JbWorld (jb w) (<[a := s]> (heap w))) = (JbWorld (jb w) (<[a := s]> (heap w)), Ok None)).
    { unfold st_attempt, on_map, zoom. cbn [jb heap]. rewrite E. cbn [attempt]. by destruct w as [[] ?]. }
    rewrite (st_bind_run _ _ _ _ _ Ef), free_live by (cbn [heap]; rewrite lookup_insert_eq; by eexists).
    cbn [jb heap]. rewrite delete_insert_id by done. destruct w as [j h]. split; [done|]. split_and!; auto.
    intros a' _ -> [_ ?]. destruct Hw as [?|?]; [done|]. cbn [jb] in *. lia.
Qed.

(** what a push of the packet [s] may do to the contents *)
Definition push_result (w : jb_world) (s : jb_slot_t) (w' : jb_world) : Prop :=
  (forall p s', heap w' !! p = Some s' -> heap w !! p = Some s' \/ s' = s) /\
  (forall q, last_popped (jb w) = Some q -> heap w' !! q = heap w !! q) /\
  last_popped (jb w') = last_popped (jb w) /\
  (last_arrival_ms (jb w') = last_arrival_ms (jb w) \/ last_arrival_ms (jb w') = arrival_ms s) /\
  min_delay_ms (jb w') = min_delay_ms (jb w) /\ max_delay_ms (jb w') = max_delay_ms (jb w).

(** the state of a buffer that took the new packet [s] *)
Definition taken (w : jb_world) (g : gmap Z (option Z)) (a : Z) (s : jb_slot_t) (j1 : jitter_buffer_t)
    (w' : jb_world) (g' : gmap Z (option Z)) : Prop :=
  inserted w g a s w' g' /\ next_seq (jb w') = next_seq j1 /\ started (jb w') = started j1 /\
  last_arrival_ms (jb w') = arrival_ms s /\
  (target_delay_ms j1 <= max_delay_ms j1 -> target_delay_ms (jb w') <= max_delay_ms (jb w')).

Lemma jb_push_spec a1 malloc a3 now d len sq ts mk w g :
  let s := slot_of now d len sq ts mk in
  jb_inv w g -> 0 <= sq < 2 ^ 16 -> clock_ok (jb w) now -> fresh_alloc malloc -> len <= blen d ->
  exists w' g', jitter_buffer_push a1 malloc a3 now d len sq ts mk w = (w', Ok ()) /\
    jb_inv w' g' /\ push_result w s w' /\
    (forall a j1, push_order (jb w) now sq ts = Some j1 -> g !! sq = None -> (size g < 256)%nat ->
     malloc (dom (heap w)) = Some a -> a3 = true -> compact (jb w) -> taken w g a s j1 w' g').
Proof.
  intros s Hi Hsq Hclk Hfr Hlen. unfold jitter_buffer_push. rewrite bind_get_jb.
  destruct (push_order (jb w) now sq ts) as [j1|] eqn:Ho.
  2: { exists w, g. split; [done|]. split; [done|]. split; [|done]. by split_and!; auto. }
  destruct (push_order_inv _ _ _ _ _ _ Hi Hsq Ho) as [H1 Hclk1]. specialize (Hclk1 Hclk).
  destruct (push_order_frame _ _ _ _ _ Ho) as (Hby & Hlp & Hmin & Hmax & Htgt & Hla).
  rewrite bind_put_jb, (st_bind_lift _ _ _ _ (inv_get _ g sq H1)).
  destruct (g !! sq) as [v|] eqn:Hg.
  { destruct (inv_slots _ _ Hi _ _ Hg) as (p & s' & -> & _). cbn [default from_option id].
    exists (JbWorld j1 (heap w)), g. split; [done|]. split; [done|]. split; [|done]. by split_and!; auto. }
  cbn [default from_option].
  destruct (jitter_estimate_ok j1 now ts (inv_est _ _ H1) Hclk1) as (est & Ee & He).
  destruct (adapt_delay_ok j1 est He) as (t & Et & Ht1 & Ht2).
  rewrite (st_bind_lift _ _ _ _ Ee), (st_bind_lift _ _ _ _ Et), bind_put_jb. cbn [heap].
  set (j2 := JB _ _ _ _ _ _ _ _ _ _).
  assert (H2 : jb_inv (JbWorld j2 (heap w)) g).
  { destruct H1. split; cbn; auto. intros Hm. rewrite Ht1 by lia. lia. }
  destruct (evict_spec a1 _ g H2) as (m & h & g3 & Ev & H3 & Hsz & Hsub & Hsubh & Hlast & Heq).
  rewrite (st_bind_run _ _ _ _ _ Ev). cbn [jb heap] in *.
  destruct (slot_stored malloc a3 now d len sq ts mk _ g3 H3 Hsz Hsq) as (m' & h' & g' & Es & H4 & Hnew & Hold & Hins);
    [by eapply lookup_weaken_None|done|done|]. cbn [jb heap] in *.
  eexists _, g'. split; [exact Es|]. split; [exact H4|]. split.
  - split_and!; cbn [jb heap set_map last_popped last_arrival_ms min_delay_ms max_delay_ms]; auto.
    + intros p s' Hp. destruct (Hnew p s' Hp) as [Hp'|?]; [left; by eapply lookup_weaken|by right].
    + intros q Hq. rewrite <-Hlp in Hq. rewrite Hold, Hlast; [done|done|]. rewrite Hlast by done. by apply (inv_last _ _ H2 q).
  - intros a j1' [= <-] _ Hs Ha -> Hc. destruct (Heq Hs) as (-> & -> & ->). cbn [set_map by_seq j2] in *.
    split; [|split_and!; try done]. { apply Hins; [done|done|]. unfold compact. cbn [set_map by_seq]. by rewrite Hby. }
    cbn. intros ?. destruct (Z.lt_ge_cases 0 (min_delay_ms j1)); [rewrite Ht1 by lia|rewrite Ht2 by lia]; lia.
Qed.

(** ** Destruction *)

Lemma slots_freed (l : list (Z * option Z)) : forall w,
  NoDup (snd <$> l) -> Forall (fun kv => exists p, kv.2 = Some p /\ is_Some (heap w !! p)) l ->
  exists h, st_each (fun kv => free kv.2) l w = (JbWorld (jb w) h, Ok ()) /\
    forall p, h !! p = if decide (Some p ∈ snd <$> l) then None else heap w !! p.
Proof.
  induction l as [|[k v] l IH]; intros w Hnd Hl.
  { exists (heap w). split; [by destruct w|]. intros p. rewrite decide_False; [done|]. by apply not_elem_of_nil. }
  apply Forall_cons_1 in Hl as [(p & Hv & Hp) Hl]. cbn [fmap list_fmap snd] in *. subst v.
  apply NoDup_cons in Hnd as [Hnin Hnd]. cbn [st_each].
  rewrite (st_bind_run _ _ _ _ _ (free_live p w Hp)).
  destruct (IH (JbWorld (jb w) (delete p (heap w))) Hnd) as (h & E & Hh).
  { apply Forall_forall. intros kv Hkv. eapply Forall_forall in Hl as (q & Hq & Hs); [|exact Hkv].
    exists q. split; [done|]. cbn [heap]. rewrite lookup_delete_ne; [done|]. intros <-.
    apply Hnin. rewrite <-Hq. by apply list_elem_of_fmap_2. }
  exists h. split; [exact E|]. intros q. rewrite Hh. cbn [heap].
  change (list_fmap _ _ snd l) with (snd <$> l). destruct (decide (Some q ∈ snd <$> l)) as [Hq|Hq].
  - rewrite decide_True by (by right). done.
  - destruct (decide (p = q)) as [->|Hne].
    + rewrite decide_True by (by left). by rewrite lookup_delete_eq.
    + rewrite decide_False; [by rewrite lookup_delete_ne|]. intros [[= ->]|?]%elem_of_cons; done.
Qed.

Lemma map_addresses_NoDup w g : jb_inv w g -> NoDup (snd <$> map_to_list g).
Proof.
  intros Hi. apply NoDup_fmap_2_strong; [|apply NoDup_map_to_list].
  intros [k1 v1] [k2 v2] H1%elem_of_map_to_list H2%elem_of_map_to_list E. cbn [snd] in E. subst v2.
  destruct (inv_slots _ _ Hi _ _ H1) as (p & s & -> & _). f_equal. by eapply inv_inj.
Qed.

(** destroying the buffer frees every slot, each once *)
Lemma destroy_spec w g :
  jb_inv w g -> exists j, jitter_buffer_destroy w = (JbWorld j ∅, Ok ()).
Proof.
  intros Hi. unfold jitter_buffer_destroy. rewrite bind_get_jb.
  pose proof (iterate_repr (by_seq (jb w)) g (inv_repr _ _ Hi)) as Hp. set (l := iterate _ _ _) in *.
  destruct (slots_freed l w) as (h & E & Hh).
  { rewrite Hp. by eapply map_addresses_NoDup. }
  { rewrite Hp. apply Forall_forall. intros [k v] Hk%elem_of_map_to_list.
    destruct (inv_slots _ _ Hi _ _ Hk) as (p & s & -> & Hs & _). exists p. split; [done|by eexists]. }
  rewrite (st_bind_run _ _ _ _ _ E), bind_put_jb. cbn [jb heap].
  assert (Hin : forall p, Some p ∈ snd <$> l <-> exists k, g !! k = Some (Some p)).
  { intros p. rewrite Hp, list_elem_of_fmap. split.
    - intros ([k v] & Hv & Hk%elem_of_map_to_list). cbn [snd] in Hv. subst v. by exists k.
    - intros [k Hk]. exists (k, Some p). split; [done|]. by apply elem_of_map_to_list. }
  eexists. destruct (last_popped (jb w)) as [q|] eqn:Eq.
  - destruct (inv_last _ _ Hi q Eq) as [Hq Hn]. rewrite free_live.
    2: { cbn [heap]. rewrite Hh, decide_False; [done|]. intros [k Hk]%Hin. by apply (Hn k). }
    cbn [jb heap]. do 2 f_equal. apply map_eq. intros p. rewrite lookup_empty.
    destruct (decide (q = p)) as [->|Hne]; [by rewrite lookup_delete_eq|]. rewrite lookup_delete_ne, Hh by done.
    destruct (decide (Some p ∈ snd <$> l)) as [|Hno]; [done|]. apply eq_None_not_Some. intros Hs.
    destruct (inv_live _ _ Hi p Hs) as [?|?]; [congruence|]. by apply Hno, Hin.
  - cbn [free]. assert (h = ∅) as ->; [|done]. apply map_eq. intros p. rewrite lookup_empty, Hh.
    destruct (decide (Some p ∈ snd <$> l)) as [|Hno]; [done|]. apply eq_None_not_Some. intros Hs.
    destruct (inv_live _ _ Hi p Hs) as [?|?]; [congruence|]. by apply Hno, Hin.
Qed.

(** ** Sequences of operations *)

(** [Reread]: the caller looks again at the packet the last successful pop
    returned, through the pointer it was given *)
Inductive jb_op :=
  | Push (alloc_evict : bool) (malloc : allocator) (alloc_set : bool)
      (now : Z) (d : bytes) (len sq ts : Z) (mk : bool)
  | Pop (alloc : bool) (now : Z)
  | Reread (now : Z).

Definition op_time (o : jb_op) : Z :=
  match o with Push _ _ _ now _ _ _ _ _ => now | Pop _ now => now | Reread now => now end.

(** what the caller sees *)
Inductive jb_event :=
  | Delivered (s : jb_slot_t)
  | Seen (s : jb_slot_t).

(** [held]: the pointer of the last successful pop *)
Definition jb_step (o : jb_op) (held : option Z) : st jb_world (option Z * list jb_event) :=
  match o with
  | Push a1 malloc a3 now d len sq ts mk =>
      _ ← jitter_buffer_push a1 malloc a3 now d len sq ts mk; mret (held, [])
  | Pop alloc now =>
      r ← jitter_buffer_pop alloc now;
      mret match r with Some (p, s) => (Some p, [Delivered s]) | None => (held, []) end
  | Reread _ =>
      match held with
      | None => mret (held, [])
      | Some p => s ← deref p; mret (held, [Seen s])
      end
  end.

Fixpoint jb_run (os : list jb_op) (held : option Z) : st jb_world (list jb_event) :=
  match os with
  | [] => mret []
  | o :: os => r ← jb_step o held; evs ← jb_run os r.1; mret (r.2 ++ evs)
  end.

(** what the caller's code and the allocator promise: 16-bit sequence numbers
    and packets of at least [len] bytes, fresh addresses *)
Definition op_ok (o : jb_op) : Prop :=
  match o with
  | Push _ malloc _ _ d len sq _ _ => 0 <= sq < 2 ^ 16 /\ fresh_alloc malloc /\ len <= blen d
  | _ => True
  end.

(** times grow from [t] and stay within 2^26 ms (18 hours) of [t0] *)
Fixpoint ops_ok (t0 t : Z) (os : list jb_op) : Prop :=
  match os with
  | [] => True
  | o :: os => t <= op_time o < t0 + 2 ^ 26 /\ op_ok o /\ ops_ok t0 (op_time o) os
  end.

(** the slot a push stores *)
Definition pushed (o : jb_op) : option jb_slot_t :=
  match o with
  | Push _ _ _ now d len sq ts mk => Some (slot_of now d len sq ts mk)
  | _ => None
  end.

(** the packets delivered *)
Definition delivered (evs : list jb_event) : list jb_slot_t :=
  omap (fun e => match e with Delivered s => Some s | Seen _ => None end) evs.

(** every look at a packet shows the one delivered last, [cur] at the start *)
Fixpoint seen_last (cur : option jb_slot_t) (evs : list jb_event) : Prop :=
  match evs with
  | [] => True
  | Delivered s :: evs => seen_last (Some s) evs
  | Seen s :: evs => cur = Some s /\ seen_last cur evs
  end.

(** the state during a run that began at [t0]; [h]: all slots pushed so far,
    [held]: the caller's pointer, [cur]: the packet delivered last *)
Record run_inv (t0 t cfg_min cfg_max : Z) (h : list jb_slot_t) (held : option Z)
    (cur : option jb_slot_t) (w : jb_world) (g : gmap Z (option Z)) : Prop := {
  run_jb : jb_inv w g;
  run_hist : forall p s, heap w !! p = Some s -> s ∈ h;
  run_held : last_popped (jb w) = held;
  run_cur : forall p, held = Some p -> heap w !! p = cur;
  run_clock : last_arrival_ms (jb w) = 0 \/ t0 <= last_arrival_ms (jb w) <= t;
  run_min : min_delay_ms (jb w) = cfg_min;
  run_max : max_delay_ms (jb w) = cfg_max
}.

(** the packet delivered last once [evs] have happened *)
Definition last_delivered (cur : option jb_slot_t) (evs : list jb_event) : option jb_slot_t :=
  foldl (fun cur e => match e with Delivered s => Some s | Seen _ => cur end) cur evs.

Lemma seen_last_app cur e1 e2 :
  seen_last cur (e1 ++ e2) <-> seen_last cur e1 /\ seen_last (last_delivered cur e1) e2.
Proof.
  revert cur. induction e1 as [|[s|s] e1 IH]; intros cur; simpl; [tauto|apply IH|].
  rewrite IH. tauto.
Qed.

Lemma run_step_push t0 t cmin cmax h held cur w g a1 malloc a3 now d len sq ts mk :
  run_inv t0 t cmin cmax h held cur w g -> 0 < t0 <= t -> t <= now < t0 + 2 ^ 26 ->
  0 <= sq < 2 ^ 16 -> fresh_alloc malloc -> len <= blen d ->
  exists w' g', jitter_buffer_push a1 malloc a3 now d len sq ts mk w = (w', Ok ()) /\
    run_inv t0 now cmin cmax (slot_of now d len sq ts mk :: h) held cur w' g'.
Proof.
  intros [] Ht Hnow Hsq Hfr Hlen.
  destruct (jb_push_spec a1 malloc a3 now d len sq ts mk w g) as (w' & g' & E & Hi & Hp & _); auto.
  { intros Hpos. lia. }
  destruct Hp as (Hnew & Hlast & Hlp & Hla & Hmin & Hmax). exists w', g'. split; [done|].
  split; [done| |congruence| |cbn [slot_of arrival_ms] in Hla; lia|congruence|congruence].
  - intros p s Hs. destruct (Hnew p s Hs) as [Hs'| ->]; [right; eauto|by left].
  - intros p Hp. rewrite Hlast by congruence. by apply run_cur0.
Qed.

Lemma run_step_pop t0 t cmin cmax h held cur w g alloc now :
  run_inv t0 t cmin cmax h held cur w g -> t <= now ->
  exists w' g' r, jitter_buffer_pop alloc now w = (w', Ok r) /\
    match r with
    | None => run_inv t0 now cmin cmax h held cur w' g'
    | Some (p, s) => run_inv t0 now cmin cmax h (Some p) (Some s) w' g' /\ s ∈ h
    end.
Proof.
  intros [] Hnow. destruct (pop_spec alloc now w g run_jb0) as (w' & r & E & (Ht & Hmin & Hmax & Hla) & Hr).
  destruct r as [[p s]|].
  - destruct Hr as (Hg & Hs & _ & Hi & _ & Hh & Hlp). exists w', (delete (seq s) g), (Some (p, s)).
    split; [done|]. split; [|eauto]. split; auto; [| |lia|congruence|congruence].
    + intros q s'. rewrite Hh. unfold heap_rest. destruct (last_popped (jb w)); [|eauto].
      intros [_ ?]%lookup_delete_Some. eauto.
    + intros q [= <-]. by rewrite Hh, (heap_rest_lookup w g (seq s) p).
  - destruct Hr as (Hi & Hh & Hlp). exists w', g, None. split; [done|].
    split; auto; [by rewrite Hh|congruence|by rewrite Hh|lia|congruence|congruence].
Qed.

Lemma run_inv_step t0 t cmin cmax h held cur w g o :
  run_inv t0 t cmin cmax h held cur w g -> 0 < t0 <= t -> ops_ok t0 t [o] ->
  exists w' g' held' evs, jb_step o held w = (w', Ok (held', evs)) /\
    run_inv t0 (op_time o) cmin cmax (option_list (pushed o) ++ h) held' (last_delivered cur evs) w' g' /\
    Forall (fun s => s ∈ h) (delivered evs) /\ seen_last cur evs.
Proof.
  intros Hr Ht [Htime [Ho _]]. destruct o as [a1 malloc a3 now d len sq ts mk|alloc now|now];
    cbn [op_time pushed option_list app jb_step] in *.
  - destruct Ho as (Hsq & Hfr & Hlen).
    destruct (run_step_push t0 t cmin cmax h held cur w g a1 malloc a3 now d len sq ts mk) as (w' & g' & E & Hr'); auto.
    exists w', g', held, []. rewrite (st_bind_run _ _ _ _ _ E). by split_and!.
  - destruct (run_step_pop t0 t cmin cmax h held cur w g alloc now) as (w' & g' & r & E & Hr'); auto; [lia|].
    rewrite (st_bind_run _ _ _ _ _ E). destruct r as [[p s]|].
    + destruct Hr' as [Hr' Hs]. exists w', g', (Some p), [Delivered s]. split_and!; try done.
      by apply Forall_singleton.
    + exists w', g', held, []. by split_and!.
  - assert (Hr' : run_inv t0 now cmin cmax h held cur w g) by (destruct Hr; split; auto; lia).
    destruct held as [p|]; [|exists w, g, None, []; by split_and!].
    destruct (inv_last _ _ (run_jb _ _ _ _ _ _ _ _ _ Hr) p (run_held _ _ _ _ _ _ _ _ _ Hr)) as [[s Hs] _].
    rewrite (bind_deref p s) by done. exists w, g, (Some p), [Seen s]. split_and!; try done.
    simpl. split; [|done]. rewrite <-(run_cur _ _ _ _ _ _ _ _ _ Hr p eq_refl). by rewrite Hs.
Qed.

Lemma jb_run_spec t0 cmin cmax os : forall t h held cur w g,
  run_inv t0 t cmin cmax h held cur w g -> 0 < t0 <= t -> ops_ok t0 t os ->
  exists w' g' t' h' held' cur' evs, jb_run os held w = (w', Ok evs) /\
    run_inv t0 t' cmin cmax h' held' cur' w' g' /\
    Forall (fun s => s ∈ omap pushed os ++ h) (delivered evs) /\ seen_last cur evs.
Proof.
  induction os as [|o os IH]; intros t h held cur w g Hr Ht Hos.
  { exists w, g, t, h, held, cur, []. by split_and!. }
  destruct Hos as (Htime & Ho & Hos).
  destruct (run_inv_step t0 t cmin cmax h held cur w g o) as (w1 & g1 & held1 & ev1 & E & Hr1 & Hd & Hs); [done|done|done|].
  destruct (IH _ _ _ _ _ _ Hr1) as (w' & g' & t' & h' & held' & cur' & evs & E' & Hr' & Hd' & Hs'); auto; [lia|].
  exists w', g', t', h', held', cur', (ev1 ++ evs). cbn [jb_run].
  rewrite (st_bind_run _ _ _ _ _ E). cbn [fst snd]. rewrite (st_bind_run _ _ _ _ _ E').
  split; [done|]. split; [done|]. split; [|by apply seen_last_app].
  replace (omap pushed (o :: os)) with (option_list (pushed o) ++ omap pushed os)
    by (simpl; by destruct (pushed o)).
  unfold delivered. rewrite omap_app. apply Forall_app. split.
  - eapply Forall_impl; [exact Hd|]. intros s. rewrite !elem_of_app. tauto.
  - eapply Forall_impl; [exact Hd'|]. intros s. rewrite !elem_of_app. tauto.
Qed.

Lemma create_inv cfg j :
  jitter_buffer_create true cfg = Some j ->
  jb_inv (JbWorld j ∅) ∅ /\ started j = false /\ last_arrival_ms j = 0 /\ last_popped j = None /\ compact j.
Proof.
  intros [= <-]. split; [|by repeat split].
  split; cbn; try (rewrite ?map_size_empty; lia); [by left|apply map_Forall_empty|done| |].
  - intros p. rewrite lookup_empty. by intros [].
  - intros H. destruct (Z.ltb_spec (match cfg with Some (t, _) => t | None => 80 end) 0); lia.
Qed.

(** ** Reordering *)

(** packet number [i] of a stream: arrival time, data, timestamp, marker *)
Abbreviation packet := (Z * (Z * bytes * Z * bool))%type.

Definition nth_push (A : gset Z -> Z) (s : Z) (e : packet) : jb_op :=
  let '(i, (now, d, ts, mk)) := e in
  Push true (fun live => Some (A live)) true now d (blen d) (u16 (s + i)) ts mk.

Definition nth_slot (s : Z) (e : packet) : jb_slot_t :=
  let '(i, (now, d, ts, mk)) := e in slot_of now d (blen d) (u16 (s + i)) ts mk.

(** the buffer holds exactly the packets [ps] of the stream that starts at [s] *)
Record holds (s : Z) (ps : list packet) (w : jb_world) (g : gmap Z (option Z)) : Prop := {
  hold_jb : jb_inv w g;
  hold_only : forall k v, g !! k = Some v -> exists e, e ∈ ps /\ k = u16 (s + e.1);
  hold_all : forall e, e ∈ ps ->
    exists p, g !! u16 (s + e.1) = Some (Some p) /\ heap w !! p = Some (nth_slot s e);
  hold_size : size g = length ps
}.

Lemma u16_index_inj s i j : 0 <= i < 128 -> 0 <= j < 128 -> u16 (s + i) = u16 (s + j) -> i = j.
Proof. intros ? ? E. unfold u16 in E. pow_eval. dlia. Qed.

(** while packets arrive *)
Record gathering (t0 t s : Z) (ps : list packet) (w : jb_world) (g : gmap Z (option Z)) : Prop := {
  gat_holds : holds s ps w g;
  gat_compact : compact (jb w);
  gat_target : target_delay_ms (jb w) <= max_delay_ms (jb w);
  gat_clock : last_arrival_ms (jb w) = 0 \/ t0 <= last_arrival_ms (jb w) <= t;
  gat_next : if started (jb w) then exists e, e ∈ ps /\ next_seq (jb w) = u16 (s + e.1) /\
               forall e', e' ∈ ps -> e.1 <= e'.1
             else ps = []
}.

Definition window (ps : list packet) : Prop := Forall (fun e => 0 <= e.1 < 128) ps.

(** the expected sequence number follows the smallest packet number *)
Lemma push_order_window t0 t s ps w g e now ts :
  gathering t0 t s ps w g -> window (e :: ps) ->
  exists j1, push_order (jb w) now (u16 (s + e.1)) ts = Some j1 /\ started j1 = true /\
    exists e0, e0 ∈ e :: ps /\ next_seq j1 = u16 (s + e0.1) /\ forall e', e' ∈ e :: ps -> e0.1 <= e'.1.
Proof.
  intros [_ _ _ _ Hn] Hw. apply Forall_cons_1 in Hw as [He Hw]. unfold push_order.
  destruct (started (jb w)) eqn:Es; cbn [negb].
  - destruct Hn as (e0 & He0 & Hnx & Hmin). rewrite Hnx.
    assert (H0 : 0 <= e0.1 < 128) by (by eapply Forall_forall in Hw).
    unfold seq_compare. rewrite !s16_u16_diff by lia.
    destruct (Z.ltb_spec (s + e.1 - (s + e0.1)) 0).
    + rewrite (proj2 (Z.ltb_lt 0 _)), (proj2 (Z.ltb_lt _ (JB_MAX_PACKETS / 2))) by
        (change (JB_MAX_PACKETS / 2) with 128; lia). cbn [andb].
      eexists. split; [done|]. split; [done|]. exists e. split; [by left|]. split; [done|].
      intros e' [->|Hin]%elem_of_cons; [done|]. specialize (Hmin e' Hin). lia.
    + exists (jb w). split; [done|]. split; [done|]. exists e0. split; [by right|]. split; [done|].
      intros e' [->|Hin]%elem_of_cons; [lia|auto].
  - subst ps. eexists. split; [done|]. split; [done|]. exists e. split; [by left|]. split; [done|].
    by intros e' ->%list_elem_of_singleton.
Qed.

Lemma holds_insert s ps w g a e w' g' :
  holds s ps w g -> window (e :: ps) -> g !! u16 (s + e.1) = None -> jb_inv w' g' ->
  seq (nth_slot s e) = u16 (s + e.1) -> inserted w g a (nth_slot s e) w' g' -> holds s (e :: ps) w' g'.
Proof.
  intros [] Hw Hfresh Hi Hseq (-> & Hh & Ha & _). rewrite Hseq in *. split; [done| | |].
  - intros k v [[<- _]|[_ Hk]]%lookup_insert_Some; [exists e; split; [by left|done]|].
    destruct (hold_only0 _ _ Hk) as (e' & ? & ?). exists e'. split; [by right|done].
  - intros e' [->|He']%elem_of_cons; [exists a; by rewrite Hh, !lookup_insert_eq|].
    destruct (hold_all0 e' He') as (p & Hp & Hs). exists p. rewrite Hh, !lookup_insert_ne; [done| |].
    + intros ->. congruence.
    + intros Heq. rewrite Heq in Hfresh. congruence.
  - rewrite map_size_insert_None by done. simpl. lia.
Qed.

Lemma gather_step A t0 t s ps w g e :
  (forall live, A live ∉ live) ->
  0 < t0 <= t -> gathering t0 t s ps w g -> window (e :: ps) -> e.1 ∉ ps.*1 ->
  (length ps < 128)%nat -> t <= op_time (nth_push A s e) < t0 + 2 ^ 26 ->
  exists w' g', jb_step (nth_push A s e) None w = (w', Ok (None, [])) /\
    gathering t0 (op_time (nth_push A s e)) s (e :: ps) w' g' /\
    max_delay_ms (jb w') = max_delay_ms (jb w).
Proof.
  intros HA Ht0 Hg Hw Hnew Hlen Hop.
  assert (Hfresh : g !! u16 (s + e.1) = None).
  { destruct (g !! u16 (s + e.1)) as [v|] eqn:E; [|done].
    destruct (hold_only _ _ _ _ (gat_holds _ _ _ _ _ _ Hg) _ _ E) as (e' & He & Hk).
    exfalso. apply Hnew. apply list_elem_of_fmap. exists e'. split; [|done]. apply (u16_index_inj s); auto.
    - by apply Forall_cons_1 in Hw as [? _].
    - apply Forall_cons_1 in Hw as [_ Hw]. by eapply Forall_forall in Hw. }
  destruct (push_order_window t0 t s ps w g e (op_time (nth_push A s e)) (timestamp (nth_slot s e)) Hg Hw)
    as (j1 & Ho & Hst & e0 & He0 & Hn0 & Hmin0).
  destruct Hg as [Hh Hcomp Htgt Hclk _]. destruct e as [i [[[now d] ts] mk]].
  cbn [nth_push nth_slot slot_of timestamp op_time jb_step fst] in *.
  destruct (jb_push_spec true (fun live => Some (A live)) true now d (blen d) (u16 (s + i)) ts mk w g (hold_jb _ _ _ _ Hh))
    as (w' & g' & E & Hi & (_ & _ & _ & _ & _ & Hmax) & Htk);
    [apply u16_range|intros Hpos; lia|intros live a [= <-]; apply HA|lia|].
  destruct (Htk (A (dom (heap w))) j1) as (Hins & Hnx & Hs' & Hla & Htg); auto.
  { rewrite (hold_size _ _ _ _ Hh). lia. }
  destruct (push_order_frame _ _ _ _ _ Ho) as (_ & _ & _ & Hmax1 & Ht1 & _).
  exists w', g'. rewrite (st_bind_run _ _ _ _ _ E). split; [done|]. split; [|done].
  split; [by eapply (holds_insert s ps w g _ (i, (now, d, ts, mk)))|by destruct Hins as (_ & _ & _ & ?)| | |].
  - apply Htg. congruence.
  - rewrite Hla. cbn [slot_of arrival_ms]. lia.
  - rewrite Hs', Hst. exists e0. by rewrite Hnx.
Qed.

Lemma gather A t0 s evs : (forall live, A live ∉ live) -> forall t ps w g,
  0 < t0 <= t -> gathering t0 t s ps w g -> window (evs ++ ps) -> NoDup ((evs ++ ps).*1) ->
  (length evs + length ps <= 128)%nat -> ops_ok t0 t (nth_push A s <$> evs) ->
  exists w' g' t', jb_run (nth_push A s <$> evs) None w = (w', Ok []) /\
    gathering t0 t' s (reverse evs ++ ps) w' g' /\ max_delay_ms (jb w') = max_delay_ms (jb w).
Proof.
  intros HA. induction evs as [|e evs IH]; intros t ps w g Ht0 Hg Hw Hnd Hlen Hos.
  { by exists w, g, t. }
  destruct Hos as (Htime & Hop & Hos). cbn [app fmap list_fmap] in Hnd. apply NoDup_cons in Hnd as [Hnew Hnd].
  change (e.1 ∉ (evs ++ ps).*1) in Hnew. rewrite fmap_app in Hnew. apply not_elem_of_app in Hnew as [Hnew1 Hnew2].
  simpl in Hlen. apply Forall_cons_1 in Hw as [He Hw].
  destruct (gather_step A t0 t s ps w g e) as (w1 & g1 & E1 & Hg1 & Hm1); auto; [|lia|].
  { apply Forall_app in Hw as [_ ?]. by constructor. }
  destruct (IH (op_time (nth_push A s e)) (e :: ps) w1 g1) as (w2 & g2 & t2 & E2 & Hg2 & Hm2); auto.
  - lia.
  - unfold window. rewrite <-Permutation_middle. by constructor.
  - rewrite <-Permutation_middle. apply NoDup_cons. split; [|done].
    change (e.1 ∉ (evs ++ ps).*1). rewrite fmap_app. by apply not_elem_of_app.
  - simpl. lia.
  - exists w2, g2, t2. cbn [fmap list_fmap jb_run]. rewrite (st_bind_run _ _ _ _ _ E1).
    change (list_fmap _ _ (nth_push A s) evs) with (nth_push A s <$> evs). rewrite (st_bind_run _ _ _ _ _ E2).
    rewrite reverse_cons, <-app_assoc. split; [done|]. split; [done|]. congruence.
Qed.

(** at time [T] the packet [e] is at least [delay] old *)
Definition due (delay T : Z) (e : packet) : Prop :=
  let '(_, (now, _, _, _)) := e in delay <= T - now < 2 ^ 31 /\ 0 <= T - now.

Lemma due_age delay T s e : due delay T e -> delay <= age T (nth_slot s e).
Proof.
  destruct e as [i [[[now d] ts] mk]]. intros [H1 H2]. unfold age. cbn [nth_slot slot_of arrival_ms].
  rewrite u64_id, s32_small by lia. lia.
Qed.

Lemma holds_delete s k e ps w g p :
  holds s (e :: ps) w g -> (e :: ps).*1 = seqZ k (1 + blen ps) -> 0 <= k -> k + blen ps < 128 ->
  g !! u16 (s + k) = Some (Some p) ->
  forall w', jb_inv w' (delete (u16 (s + k)) g) -> heap w' = heap_rest w -> holds s ps w' (delete (u16 (s + k)) g).
Proof.
  intros Hh Hk Hk0 Hk1 Hp w' Hi Hheap. pose proof (blen_nonneg ps). rewrite seqZ_cons in Hk by lia.
  cbn [fmap list_fmap] in Hk. injection Hk as Hk Hks. replace (Z.pred (1 + blen ps)) with (blen ps) in Hks by lia.
  assert (Hne : forall e', e' ∈ ps -> u16 (s + k) <> u16 (s + e'.1)).
  { intros e' He' Heq. assert (He1 : e'.1 ∈ seqZ (Z.succ k) (blen ps)) by (rewrite <-Hks; by apply list_elem_of_fmap_2).
    apply elem_of_seqZ in He1. apply u16_index_inj in Heq; lia. }
  split; [done| | |].
  - intros k' v [Hne' Hv]%lookup_delete_Some. destruct (hold_only _ _ _ _ Hh _ _ Hv) as (e' & [->|He']%elem_of_cons & Hk').
    + congruence.
    + by exists e'.
  - intros e' He'. destruct (hold_all _ _ _ _ Hh e') as (q & Hq & Hs); [by right|].
    exists q. rewrite lookup_delete_ne by auto. split; [done|].
    by rewrite Hheap, (heap_rest_lookup w g _ q (hold_jb _ _ _ _ Hh) Hq).
  - rewrite map_size_delete_Some by (by eexists). rewrite (hold_size _ _ _ _ Hh). simpl. lia.
Qed.

(** popping in order, each packet once it is due *)
Lemma drain s delay : forall ps Ts k held w g,
  holds s ps w g -> ps.*1 = seqZ k (blen ps) -> 0 <= k -> k + blen ps <= 128 ->
  target_delay_ms (jb w) = delay -> Forall2 (due delay) Ts ps -> next_seq (jb w) = u16 (s + k) ->
  exists w', jb_run (Pop true <$> Ts) held w = (w', Ok (Delivered ∘ nth_slot s <$> ps)).
Proof.
  induction ps as [|e ps IH]; intros Ts k held w g Hh Hk Hk0 Hk1 Hd Hdue Hn.
  { apply Forall2_nil_inv_r in Hdue as ->. by eexists. }
  apply Forall2_cons_inv_r in Hdue as (T & Ts' & He & Hdue & ->). rewrite blen_cons in *. pose proof (blen_nonneg ps).
  assert (Hks : e.1 = k /\ ps.*1 = seqZ (k + 1) (blen ps)).
  { rewrite seqZ_cons in Hk by lia. cbn [fmap list_fmap] in Hk. injection Hk as Hk Hks. split; [done|].
    rewrite Hks. f_equal; lia. }
  destruct Hks as [He1 Hks]. pose proof (hold_jb _ _ _ _ Hh) as Hi.
  destruct (hold_all _ _ _ _ Hh e) as (p & Hp & Hs); [by left|]. rewrite He1, <-Hn in Hp.
  change (Pop true <$> T :: Ts') with (Pop true T :: (Pop true <$> Ts')). cbn [jb_run jb_step].
  destruct (pop_present 1 true T w g p _ Hi Hp Hs) as (w1 & r & E & Hr & Er).
  rewrite (proj2 (Z.ltb_ge _ _)) in Er by (rewrite Hd; by apply due_age). subst r.
  assert (Ep : jitter_buffer_pop true T w = (w1, Ok (Some (p, nth_slot s e)))).
  { unfold jitter_buffer_pop. rewrite bind_get_jb, (repr_len _ _ (inv_repr _ _ Hi)), (hold_size _ _ _ _ Hh).
    rewrite (proj2 (Z.eqb_neq _ _)) by (simpl; lia). exact E. }
  destruct Hr as ((Ht & _) & _ & _ & _ & Hi' & Hn' & Hh' & _).
  assert (Hseq : seq (nth_slot s e) = u16 (s + k)) by (rewrite <-He1; by destruct e as [i [[[]]]]).
  rewrite Hseq in *. rewrite Hn in Hp.
  destruct (IH Ts' (k + 1) (Some p) w1 (delete (u16 (s + k)) g)) as (w2 & E2); auto; try lia.
  - by apply (holds_delete s k e ps w g p); [| |lia|lia|..].
  - rewrite Hn'. unfold u16. rewrite Zplus_mod_idemp_l. f_equal. lia.
  - exists w2. rewrite st_bind_eq, (st_bind_run _ _ _ _ _ Ep). cbn [mret st_ret fst snd].
    rewrite (st_bind_run _ _ _ _ _ E2). done.
Qed.

(** ** Theorems *)

(** C25: on every sequence of pushes, pops and looks at the packet popped last
    that spans less than 2^26 ms (18 hours), with any packets, any lengths
    (negative ones count as 0) and any allocation failures, the buffer never
    faults: no slot is used after it was freed or freed twice, no integer
    overflows, no copy leaves the packet, and the skip loop of pop ends after
    one retry.  It holds at most 256 packets, keeps its delay between the
    configured bounds and delivers only packets that were pushed; what a pop
    returned stays readable and unchanged through the pointer it gave out until
    the next successful pop.  Destroying the buffer then frees every slot, each
    once. *)
Theorem jitter_buffer_invariant cfg j t0 os :
  jitter_buffer_create true cfg = Some j -> 0 < t0 -> ops_ok t0 t0 os ->
  exists w' evs, jb_run os None (JbWorld j ∅) = (w', Ok evs) /\
    rtc_u32_map_len (by_seq (jb w')) <= JB_MAX_PACKETS /\
    (0 < min_delay_ms j <= max_delay_ms j ->
     min_delay_ms j <= jitter_buffer_get_delay (jb w') <= max_delay_ms j) /\
    Forall (fun s => s ∈ omap pushed os) (delivered evs) /\
    seen_last None evs /\
    exists j', jitter_buffer_destroy w' = (JbWorld j' ∅, Ok ()).
Proof.
  intros Hc Ht0 Hos. destruct (create_inv cfg j Hc) as (Hi & _ & Hla & Hlp & _).
  destruct (jb_run_spec t0 (min_delay_ms j) (max_delay_ms j) os t0 [] None None (JbWorld j ∅) ∅)
    as (w' & g' & t' & h' & held' & cur' & evs & E & Hr & Hd & Hs); [|lia|done|].
  { split; auto. intros p s. cbn [heap]. by rewrite lookup_empty. }
  exists w', evs. split; [done|]. destruct Hr as [Hi' _ _ _ _ Hmin Hmax].
  split; [rewrite (repr_len _ _ (inv_repr _ _ Hi')); pose proof (inv_size _ _ Hi');
    unfold JB_MAX_PACKETS; lia|].
  split; [intros Hm; pose proof (inv_delay _ _ Hi'); unfold jitter_buffer_get_delay; lia|].
  rewrite app_nil_r in Hd. split; [done|]. split; [done|]. by eapply destroy_spec.
Qed.

Lemma first_packet ps evs (e0 : packet) :
  ps.*1 = seqZ 0 (blen ps) -> 0 < blen ps -> evs ≡ₚ ps -> e0 ∈ evs ->
  (forall e, e ∈ evs -> e0.1 <= e.1) -> e0.1 = 0.
Proof.
  intros Hidx Hlen Hp He0 Hmin. rewrite Hp in He0.
  assert (Hin : 0 ∈ ps.*1) by (rewrite Hidx; apply elem_of_seqZ; lia).
  apply list_elem_of_fmap in Hin as (e & He & Hin).
  assert (e0.1 <= e.1) by (apply Hmin; by rewrite Hp).
  assert (He1 : e0.1 ∈ seqZ 0 (blen ps)) by (rewrite <-Hidx; by apply list_elem_of_fmap_2).
  apply elem_of_seqZ in He1. lia.
Qed.

Lemma window_perm ps evs :
  ps.*1 = seqZ 0 (blen ps) -> blen ps <= 128 -> evs ≡ₚ ps -> window evs.
Proof.
  intros Hidx Hlen Hp. unfold window. rewrite Hp. apply Forall_forall. intros e He.
  assert (He1 : e.1 ∈ seqZ 0 (blen ps)) by (rewrite <-Hidx; by apply list_elem_of_fmap_2).
  apply elem_of_seqZ in He1. lia.
Qed.

(** C17: up to 128 consecutive packets pushed in any order before the first
    pop, with successful allocations, are delivered in sequence order, across a
    wrap of the sequence number: the pops return them one after the other, each
    once it is as old as the delay the pushes arrived at (at most the
    configured maximum). *)
Theorem jitter_buffer_reorders A target maxd j t0 s ps evs :
  jitter_buffer_create true (Some (target, maxd)) = Some j -> 0 <= target <= maxd -> 0 < maxd ->
  (forall live, A live ∉ live) ->
  ps.*1 = seqZ 0 (blen ps) -> 0 < blen ps <= 128 -> evs ≡ₚ ps ->
  0 < t0 -> ops_ok t0 t0 (nth_push A s <$> evs) ->
  exists w1, jb_run (nth_push A s <$> evs) None (JbWorld j ∅) = (w1, Ok []) /\
    jitter_buffer_get_delay (jb w1) <= maxd /\
    forall Ts, Forall2 (due (jitter_buffer_get_delay (jb w1))) Ts ps ->
      exists w', jb_run (Pop true <$> Ts) None w1 = (w', Ok (Delivered ∘ nth_slot s <$> ps)).
Proof.
  intros Hc Htm Hm0 HA Hidx Hlen Hp Ht0 Hos.
  destruct (create_inv _ j Hc) as (Hi & Hst & Hla & _ & Hcomp).
  assert (Hcfg : max_delay_ms j = maxd /\ target_delay_ms j = target).
  { injection Hc as <-. cbn. rewrite (proj2 (Z.leb_gt _ _)), (proj2 (Z.ltb_ge _ _)) by lia. done. }
  destruct Hcfg as [Hmax Htgt]. pose proof (window_perm ps evs Hidx ltac:(lia) Hp) as Hw.
  destruct (gather A t0 s evs HA t0 [] (JbWorld j ∅) ∅) as (w1 & g1 & t1 & E1 & Hg & Hm1); rewrite ?app_nil_r; auto.
  { lia. }
  { split; [|done|cbn [jb]; lia|by left|cbn [jb]; by rewrite Hst].
    split; [done| |intros e He; by apply elem_of_nil in He|by rewrite map_size_empty].
    intros k v. by rewrite lookup_empty. }
  { rewrite Hp, Hidx. apply NoDup_seqZ. }
  { rewrite Hp. unfold blen in Hlen. simpl. lia. }
  rewrite app_nil_r in Hg. destruct Hg as [[Hi1 Honly Hall Hsize] _ Ht1 _ Hnext]. cbn [jb] in *.
  assert (Hperm : reverse evs ≡ₚ ps) by by rewrite reverse_Permutation.
  destruct (started (jb w1)).
  2: { apply (f_equal length) in Hnext. rewrite length_reverse, Hp in Hnext. unfold blen in Hlen. simpl in Hnext. lia. }
  destruct Hnext as (e0 & He0 & Hn0 & Hmin). rewrite (first_packet ps (reverse evs) e0) in Hn0 by (done || lia).
  exists w1. split; [done|]. split; [unfold jitter_buffer_get_delay; lia|]. intros Ts HTs.
  apply (drain s (jitter_buffer_get_delay (jb w1)) ps Ts 0 None w1 g1); auto; try lia.
  split; auto; [|intros e He; apply Hall; by rewrite Hperm|by rewrite Hsize, Hperm].
  intros k v Hk. destruct (Honly k v Hk) as (e & He & ?). exists e. by rewrite <-Hperm.
Qed.

(** the timestamp difference is taken as unsigned: a reordered packet, whose
    timestamp is older than the last one, counts as hours ahead, so a single
    such packet raises the delay to the maximum whatever the real jitter is. *)
Theorem jitter_reordered_packet_maxes_delay j now ts :
  2 ^ 31 <= u32 (ts - last_timestamp j) -> 0 < last_arrival_ms j ->
  0 <= now - last_arrival_ms j <= 10 ^ 6 -> 0 <= est_jitter_ms j <= 2 ^ 27 ->
  0 < min_delay_ms j <= max_delay_ms j -> max_delay_ms j <= 10 ^ 6 ->
  exists e, jitter_estimate j now ts = Ok e /\ adapt_delay j e = Ok (max_delay_ms j).
Proof.
  intros Hts Hla Hnow Hest Hmin Hmax.
  destruct (jitter_estimate_ok j now ts Hest) as (e & He & Hr); [intros _; lia|].
  exists e. split; [done|].
  assert (Hbig : 10 ^ 6 <= e * 2).
  { revert He. unfold jitter_estimate. rewrite (proj2 (Z.ltb_lt _ _)) by lia.
    pose proof (u32_range (ts - last_timestamp j)).
    rewrite u64_id, s32_small, s32_small by (pow_eval; dlia).
    set (x := now - last_arrival_ms j) in *. set (y := u32 (ts - last_timestamp j)) in *.
    clearbody x y. pow_eval.
    repeat (rewrite int_val_Ok by (unfold INT_MAX; dlia); cbn [mbind res_bind]).
    intros [= <-]. rewrite Z.quot_div_nonneg by dlia. dlia. }
  destruct (adapt_delay_ok j e Hr) as (t & -> & Ht & _). rewrite Ht by lia. f_equal. lia.
Qed.

(** an allocator that never reuses an address below the highest live one *)
Definition next_address (live : gset Z) : Z := 1 + foldr Z.max 0 (elements live).

Lemma next_address_fresh live : next_address live ∉ live.
Proof.
  assert (Hmax : forall l x, x ∈ l -> x <= foldr Z.max 0 l).
  { induction l as [|y l IH]; intros x; [by intros ?%elem_of_nil|].
    intros [->|Hx]%elem_of_cons; cbn [foldr]; [lia|]. specialize (IH x Hx). lia. }
  intros Hin%elem_of_elements. apply Hmax in Hin. unfold next_address in Hin. lia.
Qed.

Definition grow (live : gset Z) : option Z := Some (next_address live).

Lemma grow_fresh : fresh_alloc grow.
Proof. intros live a [= <-]. apply next_address_fresh. Qed.

(** only packets still in the buffer are recognised as duplicates: a copy of
    a packet that arrives after it was delivered moves the expected sequence
    number back and is delivered a second time. *)
Theorem jitter_late_duplicate_redelivered :
  exists j slot, jitter_buffer_create true (Some (0, 500)) = Some j /\
    (jb_run [Push true grow true 1000 [1; 2; 3] 3 7 9000 true; Pop true 1000;
             Push true grow true 1010 [1; 2; 3] 3 7 9000 true; Pop true 1010] None (JbWorld j ∅)).2
    = Ok [Delivered (slot 1000); Delivered (slot 1010)] /\
    forall t, slot t = Slot [1; 2; 3] 7 9000 true t.
Proof.
  eexists. exists (fun t => Slot [1; 2; 3] 7 9000 true t). split; [reflexivity|].
  split; [vm_compute; reflexivity|done].
Qed.

(** the maximum delay drops nothing: a packet that waited longer than it is
    delivered all the same, and so is one that arrives late, after the packets
    behind it were delivered. *)
Theorem jitter_late_packet_delivered :
  exists j a b, jitter_buffer_create true (Some (0, 500)) = Some j /\
    (jb_run [Push true grow true 1000 [1] 1 8 9000 true; Pop true 3000;
             Push true grow true 3010 [2] 1 7 8910 true; Pop true 6000] None (JbWorld j ∅)).2
    = Ok [Delivered a; Delivered b] /\
    seq a = 8 /\ seq b = 7 /\ 500 < 3000 - arrival_ms a /\ 500 < 6000 - arrival_ms b.
Proof.
  eexists. exists (Slot [1] 8 9000 true 1000), (Slot [2] 7 8910 true 3010). split; [reflexivity|].
  split; [vm_compute; reflexivity|]. by repeat split.
Qed.

(** ** Witnesses *)

Definition jb0 : jitter_buffer_t := JB rtc_u32_map_init None 0 false 50 50 500 0 0 0.

(** one packet pushed, popped and read again after a packet of negative length *)
Definition ops0 : list jb_op :=
  [Push true grow true 100 [1] 1 5 0 false; Pop true 300; Push true grow true 300 [] (-1) 6 0 false; Reread 310].

Lemma jitter_buffer_invariant_witness :
  exists w' evs, jb_run ops0 None (JbWorld jb0 ∅) = (w', Ok evs) /\
    rtc_u32_map_len (by_seq (jb w')) <= JB_MAX_PACKETS /\
    (0 < 50 <= 500 -> 50 <= jitter_buffer_get_delay (jb w') <= 500) /\
    Forall (fun s => s ∈ omap pushed ops0) (delivered evs) /\ seen_last None evs /\
    exists j', jitter_buffer_destroy w' = (JbWorld j' ∅, Ok ()).
Proof.
  apply (jitter_buffer_invariant (Some (50, 500)) jb0 100); [reflexivity|lia|].
  repeat split; first [by vm_compute|apply grow_fresh].
Defined.

Lemma jitter_buffer_reorders_witness :
  let ps := [(0, (110, [1], 0, false)); (1, (100, [2], 90, true))] in
  exists w1 w', jb_run (nth_push next_address 65535 <$> reverse ps) None (JbWorld jb0 ∅) = (w1, Ok []) /\
    jb_run (Pop true <$> [620; 700]) None w1 = (w', Ok (Delivered ∘ nth_slot 65535 <$> ps)).
Proof.
  intros ps. destruct (jitter_buffer_reorders next_address 50 500 jb0 100 65535 ps (reverse ps))
    as (w1 & E1 & Hd & Hpop); try reflexivity; try lia.
  - apply next_address_fresh.
  - done.
  - by apply reverse_Permutation.
  - repeat split; first [by vm_compute|apply grow_fresh].
  - destruct (Hpop [620; 700]) as [w' E2]; [|exists w1, w'; exact (conj E1 E2)].
    repeat constructor; cbn; lia.
Defined.

Lemma jitter_reordered_packet_maxes_delay_witness :
  let j := JB rtc_u32_map_init None 0 true 50 50 500 0 100 9000 in
  exists e, jitter_estimate j 120 8910 = Ok e /\ adapt_delay j e = Ok 500.
Proof.
  apply (jitter_reordered_packet_maxes_delay (JB rtc_u32_map_init None 0 true 50 50 500 0 100 9000) 120 8910);
    vm_compute; try split; congruence.
Defined.

End JitterBuffer.
