(* ===== verification/Interceptor.v ===== *)
(** * The RTCP interceptor chain (rtc/src/rtc_interceptor.c)

    An interceptor's callbacks act on a world [W] ([Fault]: a callback with
    undefined behaviour); a NULL callback is [None].  [items] is the array of eight pointers. *)

From S2P Require Import Prelude.
From Stdlib Require Import ZArith Lia.
From stdpp Require Import base list numbers sets.
#[local] Open Scope Z_scope.

Module Interceptor.

Definition RTC_INTERCEPTOR_CHAIN_MAX : Z := 8.

Section Chain.
Context {W : Type}.

Record rtc_interceptor_t := Ops {
  on_rtcp : option (Z -> Z -> bytes -> W -> res W);
  on_tick : option (Z -> W -> res W);
  destroy : option (W -> res W)
}.

Record rtc_interceptor_chain_t := Chain { items : list (option rtc_interceptor_t); count : Z }.

Definition rtc_interceptor_chain_init (c : rtc_interceptor_chain_t) : rtc_interceptor_chain_t :=
  Chain (items c) 0.

Definition rtc_interceptor_chain_add (it : rtc_interceptor_t) : st rtc_interceptor_chain_t unit :=
  c ← get;
  _ ← lift (fail_if (RTC_INTERCEPTOR_CHAIN_MAX <=? count c) RTC_ERR_NOMEM);
  l ← lift (wr (items c) (count c) (Some it));
  put (Chain l (count c + 1)).

(** [for (i = 0; i < count; i++)]: [n] items from [i] on, [f] applied to each *)
Fixpoint each (n : nat) (i : Z) (l : list (option rtc_interceptor_t)) (f : rtc_interceptor_t -> W -> res W)
    (w : W) : res W :=
  match n with
  | O => Ok w
  | S n =>
      it ← rd l i;
      match it with
      | None => Fault
      | Some it => w ← f it w; each n (i + 1) l f w
      end
  end.

Definition call_rtcp (pt fmt : Z) (buf : bytes) (it : rtc_interceptor_t) (w : W) : res W :=
  match on_rtcp it with Some f => f pt fmt buf w | None => Ok w end.
Definition call_tick (now_ms : Z) (it : rtc_interceptor_t) (w : W) : res W :=
  match on_tick it with Some f => f now_ms w | None => Ok w end.
Definition call_destroy (it : rtc_interceptor_t) (w : W) : res W :=
  match destroy it with Some f => f w | None => Ok w end.

Definition rtc_interceptor_chain_on_rtcp (c : rtc_interceptor_chain_t) (pt fmt : Z) (buf : bytes)
    (w : W) : res W :=
  each (Z.to_nat (count c)) 0 (items c) (call_rtcp pt fmt buf) w.

Definition rtc_interceptor_chain_tick (c : rtc_interceptor_chain_t) (now_ms : Z) (w : W) : res W :=
  each (Z.to_nat (count c)) 0 (items c) (call_tick now_ms) w.

Definition rtc_interceptor_chain_close (c : rtc_interceptor_chain_t) (w : W)
    : res (rtc_interceptor_chain_t * W) :=
  w ← each (Z.to_nat (count c)) 0 (items c) call_destroy w;
  Ok (Chain (replicate (Z.to_nat (count c)) None ++ drop (Z.to_nat (count c)) (items c)) 0, w).

(** ** The chain is a list of at most eight interceptors *)

Record chain_repr (c : rtc_interceptor_chain_t) (l : list rtc_interceptor_t) : Prop := {
  repr_items : length (items c) = 8%nat;
  repr_used : take (length l) (items c) = Some <$> l;
  repr_count : count c = blen l;
  repr_max : blen l <= 8
}.

Lemma each_spec f l rest n : forall pre w,
  n = length l ->
  each n (blen pre) (pre ++ (Some <$> l) ++ rest) f w = mfoldl f l w.
Proof.
  revert n. induction l as [|it l IH]; intros n pre w ->; [done|]. cbn [length each fmap list_fmap mfoldl].
  rewrite (bind_Ok_l _ _ (Some it)).
  2: { rewrite rd_app_r, Z.sub_diag by lia. done. }
  destruct (f it w) as [w'| |]; simpl; auto.
  specialize (IH (length l) (pre ++ [Some it]) w' eq_refl).
  rewrite <-app_assoc, blen_app in IH. exact IH.
Qed.

Lemma each_repr c l f w :
  chain_repr c l ->
  each (Z.to_nat (count c)) 0 (items c) f w = mfoldl f l w.
Proof.
  intros [H8 Hu Hc _]. rewrite <-(take_drop (length l) (items c)), Hu, Hc.
  apply (each_spec f l _ _ [] w). unfold blen. by rewrite Nat2Z.id.
Qed.

(** the chain behaves as a list of at most eight interceptors: adding
    appends, a full chain refuses with RTC_ERR_NOMEM and keeps its contents,
    every packet and tick reaches each interceptor exactly once in the order
    they were added, and closing destroys each once, so a second close has no
    effect. *)
Theorem interceptor_chain_is_list c l :
  chain_repr c l ->
  (forall it, if blen l <? 8
     then exists c', rtc_interceptor_chain_add it c = (c', Ok ()) /\ chain_repr c' (l ++ [it])
     else rtc_interceptor_chain_add it c = (c, Err RTC_ERR_NOMEM)) /\
  (forall pt fmt buf w, rtc_interceptor_chain_on_rtcp c pt fmt buf w =
     mfoldl (call_rtcp pt fmt buf) l w) /\
  (forall now w, rtc_interceptor_chain_tick c now w = mfoldl (call_tick now) l w) /\
  (exists c', (forall w, rtc_interceptor_chain_close c w = w ← mfoldl call_destroy l w; Ok (c', w)) /\
     chain_repr c' [] /\ forall w', rtc_interceptor_chain_close c' w' = Ok (c', w')).
Proof.
  intros Hr. pose proof Hr as [H8 Hu Hc Hm]. split_and!.
  - intros it. unfold rtc_interceptor_chain_add, RTC_INTERCEPTOR_CHAIN_MAX. rewrite st_bind_eq. cbn [get].
    rewrite Hc. destruct (Z.ltb_spec (blen l) 8).
    + rewrite (st_bind_lift _ _ _ ()) by (apply fail_if_Ok; lia).
      assert (Hi : 0 <= blen l < blen (items c)) by (unfold blen in *; lia).
      rewrite (st_bind_lift _ _ _ _ (wr_Ok _ _ _ Hi)).
      eexists. split; [done|]. split; cbn [items count]; [by rewrite length_insert| |by lens|lens; lia].
      unfold blen. rewrite Nat2Z.id, length_app, fmap_app. simpl.
      rewrite Nat.add_1_r, (take_S_r _ _ (Some it)).
      * by rewrite take_insert_ge, Hu by lia.
      * apply list_lookup_insert_eq. unfold blen in *. lia.
    + unfold lift. by rewrite (proj2 (Z.leb_le _ _)) by lia.
  - intros. by apply each_repr.
  - intros. by apply each_repr.
  - eexists. split; [intros w; unfold rtc_interceptor_chain_close; by rewrite (each_repr c l)|].
    split; [|done]. split; cbn [items count]; auto; [|by lens].
    rewrite length_app, length_replicate, length_drop, H8, Hc. unfold blen in *. lia.
Qed.
End Chain.

Arguments rtc_interceptor_t W : clear implicits.
Arguments rtc_interceptor_chain_t W : clear implicits.

(** a chain of two counting interceptors *)
Definition counting (n : Z) : rtc_interceptor_t Z :=
  Ops (Some (fun pt _ _ w => Ok (w * 10 + pt + n))) None (Some (fun w => Ok (w - 1))).
Definition chain2 : rtc_interceptor_chain_t Z :=
  Chain ([Some (counting 1); Some (counting 2)] ++ replicate 6 None) 2.

Lemma interceptor_chain_is_list_witness :
  rtc_interceptor_chain_on_rtcp chain2 3 0 [] 0 = Ok 45.
Proof.
  apply (interceptor_chain_is_list chain2 [counting 1; counting 2]).
  split; [reflexivity|reflexivity|reflexivity|vm_compute; discriminate].
Defined.

End Interceptor.
