(* ===== verification/RtpStream.v ===== *)
(** * RTP send and receive streams (rtc/src/rtc_rtp_stream.c)

    A stream composes an RTP session, RTCP statistics, the retransmission
    buffer, the rate controller and the transport's TWCC history.  The
    transport it is attached to is known through the interface
    [TransportOps]; the laws the theorems rely on are [TransportLaws].  The
    TWCC sender belongs to the transport and is shared by its streams: a
    stream's [twcc] pointer is a flag.  Callbacks a function makes are the
    list of [event]s it returns.  Clock reads are arguments; TWCC and rate
    control are compiled in; NULL arguments are not modelled. *)

From S2P Require Import Prelude RtpExt Rtp Rtcp Twcc RateControl NackBuf.
From Stdlib Require Import ZArith Lia.
From stdpp Require Import base list numbers sets.
#[local] Open Scope Z_scope.

Module RtpStream.
Import Rtp RtpExt.

Definition RTC_PLI_MIN_INTERVAL_MS : Z := 500.
Definition RTC_RTP_MID_MAX : Z := 17.
Definition RTC_TRANSPORT_RTCP_PROTECT_OVERHEAD : Z := 20.

(** ** The transport, as the streams see it *)

Class TransportOps (T : Type) := {
  (** [rtc_transport_send_rtp]: the protected packet left in the buffer *)
  transport_send_rtp : bytes -> Z -> st T bytes;
  (** [rtc_transport_send_rtcp] *)
  transport_send_rtcp : bytes -> Z -> st T bytes;
  (** [rtc_transport_send_raw] *)
  transport_send_raw : bytes -> st T unit;
  (** [rtc_transport_twcc_sender] is not NULL *)
  transport_twcc_enabled : T -> bool;
  (** the object it points to *)
  transport_twcc : T -> Twcc.rtc_twcc_sender_t;
  transport_set_twcc : T -> Twcc.rtc_twcc_sender_t -> T
}.

(** a callback the application registered was called *)
Inductive event :=
  | OnNack (lost_seqs : list Z)
  | OnPli
  | OnFrame (payload : bytes) (seq timestamp ssrc : Z) (marker : bool).

(** ** Streams *)

(** [transport], [twcc]: the pointer is set; [on_nack], [on_pli], [on_frame]:
    a callback is registered *)
Record rtc_rtp_send_stream_t := SendStream {
  rtp_session : rtc_rtp_session_t;
  transport : bool;
  rtcp_stats : Rtcp.rtc_rtcp_stats_t;
  rate_ctrl : option RateControl.rtc_rate_controller_t;
  nack_buf : option NackBuf.rtc_nack_buf_t;
  active : bool;
  max_bitrate_bps : Z;
  send_active : bool;
  on_nack : bool;
  on_pli : bool;
  last_pli_handled_ms : Z;
  twcc : bool;
  twcc_ext_id : Z
}.

Record rtc_rtp_recv_stream_t := RecvStream {
  r_payload_type : Z;
  r_clock_rate : Z;
  on_frame : bool;
  r_ssrc : Z;
  mid : bytes;
  has_mid : bool;
  r_rtcp_stats : Rtcp.rtc_rtcp_stats_t;
  r_active : bool
}.

Definition with_session (s : rtc_rtp_send_stream_t) (x : rtc_rtp_session_t) : rtc_rtp_send_stream_t :=
  SendStream x (transport s) (rtcp_stats s) (rate_ctrl s) (nack_buf s) (active s)
    (max_bitrate_bps s) (send_active s) (on_nack s) (on_pli s) (last_pli_handled_ms s) (twcc s)
    (twcc_ext_id s).
Definition with_stats (s : rtc_rtp_send_stream_t) (x : Rtcp.rtc_rtcp_stats_t) : rtc_rtp_send_stream_t :=
  SendStream (rtp_session s) (transport s) x (rate_ctrl s) (nack_buf s) (active s)
    (max_bitrate_bps s) (send_active s) (on_nack s) (on_pli s) (last_pli_handled_ms s) (twcc s)
    (twcc_ext_id s).
Definition with_media (s : rtc_rtp_send_stream_t) (rc : option RateControl.rtc_rate_controller_t)
    (nb : option NackBuf.rtc_nack_buf_t) : rtc_rtp_send_stream_t :=
  SendStream (rtp_session s) (transport s) (rtcp_stats s) rc nb (active s)
    (max_bitrate_bps s) (send_active s) (on_nack s) (on_pli s) (last_pli_handled_ms s) (twcc s)
    (twcc_ext_id s).
Definition with_flags (s : rtc_rtp_send_stream_t) (act sact : bool) : rtc_rtp_send_stream_t :=
  SendStream (rtp_session s) (transport s) (rtcp_stats s) (rate_ctrl s) (nack_buf s) act
    (max_bitrate_bps s) sact (on_nack s) (on_pli s) (last_pli_handled_ms s) (twcc s)
    (twcc_ext_id s).
Definition with_callbacks (s : rtc_rtp_send_stream_t) (nack pli : bool) : rtc_rtp_send_stream_t :=
  SendStream (rtp_session s) (transport s) (rtcp_stats s) (rate_ctrl s) (nack_buf s) (active s)
    (max_bitrate_bps s) (send_active s) nack pli (last_pli_handled_ms s) (twcc s) (twcc_ext_id s).
Definition with_recv_stats (s : rtc_rtp_recv_stream_t) (x : Rtcp.rtc_rtcp_stats_t)
    : rtc_rtp_recv_stream_t :=
  RecvStream (r_payload_type s) (r_clock_rate s) (on_frame s) (r_ssrc s) (mid s) (has_mid s) x
    (r_active s).

(** [alloc]: calloc succeeds; [ssrc], [seq]: what rtc_random_bytes delivers *)
Definition rtc_rtp_send_stream_create (alloc : bool) (payload_type clock_rate ssrc seq now : Z)
    : option rtc_rtp_send_stream_t :=
  if negb alloc then None
  else
    let session := rtc_rtp_session_init payload_type clock_rate ssrc seq in
    Some (SendStream session false (Rtcp.rtc_rtcp_stats_init (s_ssrc session) now) None None true
            0 true false false 0 false 0).

Definition rtc_rtp_recv_stream_create (alloc : bool) (payload_type clock_rate local_ssrc now : Z)
    : option rtc_rtp_recv_stream_t :=
  if negb alloc then None
  else Some (RecvStream payload_type clock_rate false 0 [] false
               (Rtcp.rtc_rtcp_stats_init local_ssrc now) false).

Definition rtc_rtp_send_stream_set_active (s : rtc_rtp_send_stream_t) (act : bool)
    : rtc_rtp_send_stream_t := with_flags s act (send_active s).
Definition rtc_rtp_send_stream_is_active (s : rtc_rtp_send_stream_t) : bool := active s.
Definition rtc_rtp_send_stream_ssrc (s : rtc_rtp_send_stream_t) : Z := s_ssrc (rtp_session s).
Definition rtc_rtp_send_stream_stats (s : rtc_rtp_send_stream_t) : Rtcp.rtc_rtcp_stats_t :=
  rtcp_stats s.

Definition rtc_rtp_send_stream_attach_transport (s : rtc_rtp_send_stream_t) : rtc_rtp_send_stream_t :=
  if negb (active s) then s
  else SendStream (rtp_session s) true (rtcp_stats s) (rate_ctrl s) (nack_buf s) (active s)
    (max_bitrate_bps s) (send_active s) (on_nack s) (on_pli s) (last_pli_handled_ms s) (twcc s)
    (twcc_ext_id s).

(** [alloc_*]: the three allocations of the rate controller and the buffer *)
Definition rtc_rtp_send_stream_arm_video (alloc_rc alloc_buf alloc_slots : bool)
    (s : rtc_rtp_send_stream_t) : rtc_rtp_send_stream_t :=
  if negb (active s) then s
  else with_media s
         (RateControl.rtc_rate_control_create alloc_rc (RateControl.Config 500 100 2500))
         (NackBuf.rtc_nack_buf_create alloc_buf alloc_slots NackBuf.NACK_BUF_DEFAULT_SIZE).

Definition rtc_rtp_send_stream_set_send_active (s : rtc_rtp_send_stream_t) (act : bool)
    : rtc_rtp_send_stream_t := with_flags s (active s) act.
Definition rtc_rtp_send_stream_send_active (s : rtc_rtp_send_stream_t) : bool := send_active s.
Definition rtc_rtp_send_stream_set_max_bitrate (s : rtc_rtp_send_stream_t) (bps : Z)
    : rtc_rtp_send_stream_t :=
  SendStream (rtp_session s) (transport s) (rtcp_stats s) (rate_ctrl s) (nack_buf s) (active s)
    bps (send_active s) (on_nack s) (on_pli s) (last_pli_handled_ms s) (twcc s) (twcc_ext_id s).
Definition rtc_rtp_send_stream_max_bitrate (s : rtc_rtp_send_stream_t) : Z := max_bitrate_bps s.

Definition rtc_rtp_send_stream_get_target_bitrate (s : rtc_rtp_send_stream_t) : Z :=
  match rate_ctrl s with
  | None => if negb (max_bitrate_bps s =? 0) then s32 (max_bitrate_bps s / 1000) else 0
  | Some rc =>
      let kbps := RateControl.rtc_rate_control_get_bitrate rc in
      if negb (max_bitrate_bps s =? 0) then
        let cap_kbps := s32 (max_bitrate_bps s / 1000) in
        if (0 <? cap_kbps) && (cap_kbps <? kbps) then cap_kbps else kbps
      else kbps
  end.

Definition rtc_rtp_send_stream_should_keyframe (s : rtc_rtp_send_stream_t)
    : bool * rtc_rtp_send_stream_t :=
  match rate_ctrl s with
  | None => (false, s)
  | Some rc =>
      let '(b, rc) := RateControl.rtc_rate_control_should_keyframe rc in
      (b, with_media s (Some rc) (nack_buf s))
  end.

Definition rtc_rtp_send_stream_on_nack (s : rtc_rtp_send_stream_t) (fn : bool)
    : rtc_rtp_send_stream_t := with_callbacks s fn (on_pli s).
Definition rtc_rtp_send_stream_on_pli (s : rtc_rtp_send_stream_t) (fn : bool)
    : rtc_rtp_send_stream_t := with_callbacks s (on_nack s) fn.

Section Ops.
Context {T : Type} `{TransportOps T}.

Definition rtc_rtp_send_stream_attach_twcc (t : T) (ext_id : Z) (s : rtc_rtp_send_stream_t)
    : rtc_rtp_send_stream_t :=
  if negb (active s) || (ext_id =? 0) || negb (transport s) then s
  else SendStream (rtp_session s) (transport s) (rtcp_stats s) (rate_ctrl s) (nack_buf s) (active s)
    (max_bitrate_bps s) (send_active s) (on_nack s) (on_pli s) (last_pli_handled_ms s)
    (transport_twcc_enabled t) ext_id.

(** the state of a call: the stream and its transport *)
Abbreviation stream_transport := (rtc_rtp_send_stream_t * T)%type.

Definition on_session {A} (f : st rtc_rtp_session_t A) : st stream_transport A :=
  zoom (fun p => rtp_session p.1) (fun p x => (with_session p.1 x, p.2)) f.
Definition on_transport {A} (f : st T A) : st stream_transport A :=
  zoom snd (fun p t => (p.1, t)) f.
Definition on_stream (f : rtc_rtp_send_stream_t -> rtc_rtp_send_stream_t) : st stream_transport unit :=
  modify (fun p => (f p.1, p.2)).

(** [atomic_fetch_add(&stream->twcc->next_seq, 1)] *)
Definition twcc_fetch_add : st T Z := fun t =>
  let w := transport_twcc t in
  (transport_set_twcc t (Twcc.Sender (u16 (Twcc.next_seq w + 1)) (Twcc.ring w)), Ok (Twcc.next_seq w)).

(** the history entry written after a packet was sent *)
Definition twcc_record (twcc_seq pkt_len now_us : Z) : st T unit := fun t =>
  let w := transport_twcc t in
  match wr (Twcc.ring w) (Z.land twcc_seq (Twcc.RTC_TWCC_SENDER_RING - 1))
          (Twcc.SentPkt twcc_seq (u16 pkt_len) now_us true) with
  | Ok ring => (transport_set_twcc t (Twcc.Sender (Twcc.next_seq w) ring), Ok ())
  | Err e => (t, Err e)
  | Fault => (t, Fault)
  end.

Definition nack_store (pkt : bytes) (sq : Z) (tagged : bool) (twcc_seq : Z) : st stream_transport unit :=
  p ← get;
  match nack_buf p.1 with
  | None => mret ()
  | Some nb =>
      nb ← lift (NackBuf.rtc_nack_buf_store nb pkt sq tagged twcc_seq);
      on_stream (fun s => with_media s (rate_ctrl s) (Some nb))
  end.

Definition rtc_rtp_send_stream_send (now_us : Z) (payload : bytes) (samples : Z) (mk : bool)
    : st stream_transport unit :=
  p ← get;
  let s := p.1 in
  _ ← lift (fail_if (negb (active s)) RTC_ERR_INVALID);
  _ ← lift (fail_if (negb (transport s)) RTC_ERR_INVALID);
  if negb (send_active s) then mret () else
  let tagged := twcc s && negb (twcc_ext_id s =? 0) in
  twcc_seq ← (if tagged then on_transport twcc_fetch_add else mret 0);
  pkt ← on_session
    (if tagged then
       rtc_rtp_session_send_with_ext [rtc_rtp_ext_make_transport_cc (twcc_ext_id s) twcc_seq]
         payload samples mk
     else rtc_rtp_session_send payload samples mk);
  _ ← on_stream (fun s => with_stats s
        (Rtcp.rtc_rtcp_stats_on_rtp_send (rtcp_stats s) (timestamp (header pkt)) (blen payload)));
  out ← on_transport (transport_send_rtp (buf pkt) RTP_BUF_SIZE);
  _ ← (if tagged then on_transport (twcc_record twcc_seq (blen out) now_us) else mret ());
  nack_store out (seq (header pkt)) tagged twcc_seq.

(** run on the stream's buffer *)
Definition on_nack_buf {A} (nb : NackBuf.rtc_nack_buf_t) (f : st NackBuf.rtc_nack_buf_t A)
    : st stream_transport A :=
  zoom (fun _ => nb) (fun p x => (with_media p.1 (rate_ctrl p.1) (Some x), p.2)) f.

(** one iteration of the loop: [rtc_transport_send_raw]'s result is ignored *)
Definition retransmit_one (sq : Z) : st stream_transport unit :=
  p ← get;
  match nack_buf p.1 with
  | None => mret ()
  | Some nb =>
      found ← on_nack_buf nb (NackBuf.rtc_nack_buf_retransmit sq);
      match found with
      | None => mret ()
      | Some (pkt, twcc_seq) =>
          _ ← on_transport (st_attempt (transport_send_raw pkt));
          if negb (twcc_seq =? 0) && twcc p.1 then
            q ← get;
            w ← lift (Twcc.rtc_twcc_sender_invalidate (transport_twcc q.2) twcc_seq);
            on_transport (modify (fun t => transport_set_twcc t w))
          else mret ()
      end
  end.

Fixpoint retransmit_loop (lost_seqs : list Z) : st stream_transport unit :=
  match lost_seqs with
  | [] => mret ()
  | sq :: rest => _ ← retransmit_one sq; retransmit_loop rest
  end.

Definition rtc_rtp_send_stream_handle_nack (lost_seqs : list Z) : st stream_transport (list event) :=
  p ← get;
  if blen lost_seqs <=? 0 then mret [] else
  _ ← (if bool_decide (nack_buf p.1 = None) || negb (transport p.1) then mret ()
       else retransmit_loop lost_seqs);
  mret (if on_nack p.1 then [OnNack lost_seqs] else []).

Definition rtc_rtp_send_stream_handle_pli (now : Z) (s : rtc_rtp_send_stream_t)
    : rtc_rtp_send_stream_t * list event :=
  if u64 (now - last_pli_handled_ms s) <? RTC_PLI_MIN_INTERVAL_MS then (s, [])
  else
    let rc := match rate_ctrl s with
              | Some rc => Some (RateControl.Rc (RateControl.current_bitrate_kbps rc)
                  (RateControl.min_bitrate_kbps rc) (RateControl.max_bitrate_kbps rc) true)
              | None => None
              end in
    (SendStream (rtp_session s) (transport s) (rtcp_stats s) rc (nack_buf s) (active s)
       (max_bitrate_bps s) (send_active s) (on_nack s) (on_pli s) now (twcc s) (twcc_ext_id s),
     if on_pli s then [OnPli] else []).

Definition rtc_rtp_send_stream_on_rr (rr : Rtcp.rtc_rtcp_rr_block_t) (rtt_ms : Z)
    : st rtc_rtp_send_stream_t bool :=
  s ← get;
  match rate_ctrl s with
  | None => mret false
  | Some rc =>
      rc ← lift (RateControl.rtc_rate_control_on_rtcp_rr rc (Rtcp.fraction_lost rr) rtt_ms);
      _ ← put (with_media s (Some rc) (nack_buf s));
      mret true
  end.

(** [build]: the report built from the statistics *)
Definition emit_rtcp_report (now : Z) (stats : Rtcp.rtc_rtcp_stats_t)
    (build : res Rtcp.rtc_rtcp_packet_t) : st T Rtcp.rtc_rtcp_stats_t :=
  pkt ← lift (attempt build);
  match pkt with
  | None => mret stats
  | Some pkt =>
      let cap := Rtcp.RTCP_MAX_PACKET + RTC_TRANSPORT_RTCP_PROTECT_OVERHEAD in
      if cap <? blen (Rtcp.buf pkt) then mret stats else
      sent ← st_attempt (transport_send_rtcp (Rtcp.buf pkt) cap);
      match sent with
      | None => mret stats
      | Some _ =>
          mret (Rtcp.Stats (Rtcp.ssrc stats) (Rtcp.packets_sent stats) (Rtcp.octets_sent stats)
            (Rtcp.rtp_timestamp stats) (Rtcp.remote_ssrc stats) (Rtcp.packets_received stats)
            (Rtcp.packets_expected stats) (Rtcp.packets_lost stats) (Rtcp.base_seq stats)
            (Rtcp.highest_seq stats) (Rtcp.jitter stats) (Rtcp.last_transit stats)
            (Rtcp.first_packet stats) (Rtcp.last_sr_ntp stats) (Rtcp.last_sr_recv_time stats) now)
      end
  end.

(** [report]: the clock when the report is built, [now] when it was sent *)
Definition rtc_rtp_send_stream_emit_sr (report unix now : Z) (s : rtc_rtp_send_stream_t)
    : st T rtc_rtp_send_stream_t :=
  if negb (active s) || (Rtcp.packets_sent (rtcp_stats s) =? 0) then mret s
  else
    stats ← emit_rtcp_report now (rtcp_stats s) (Rtcp.rtc_rtcp_build_sr (rtcp_stats s) report unix);
    mret (with_stats s stats).

Definition rtc_rtp_recv_stream_emit_rr (report now : Z) (s : rtc_rtp_recv_stream_t)
    : st T rtc_rtp_recv_stream_t :=
  if negb (r_active s) || (Rtcp.packets_received (r_rtcp_stats s) =? 0) then mret s
  else
    stats ← emit_rtcp_report now (r_rtcp_stats s) (Rtcp.rtc_rtcp_build_rr (r_rtcp_stats s) report);
    mret (with_recv_stats s stats).
End Ops.

(** ** Receive streams *)

Definition rtc_rtp_recv_stream_set_active (s : rtc_rtp_recv_stream_t) (act : bool)
    : rtc_rtp_recv_stream_t :=
  RecvStream (r_payload_type s) (r_clock_rate s) (on_frame s) (r_ssrc s) (mid s) (has_mid s)
    (r_rtcp_stats s) act.
Definition rtc_rtp_recv_stream_is_active (s : rtc_rtp_recv_stream_t) : bool := r_active s.
Definition rtc_rtp_recv_stream_can_receive (s : rtc_rtp_recv_stream_t) (pt : Z) : bool :=
  r_active s && on_frame s && (r_payload_type s =? pt).
Definition rtc_rtp_recv_stream_set_ssrc (s : rtc_rtp_recv_stream_t) (sc : Z) : rtc_rtp_recv_stream_t :=
  RecvStream (r_payload_type s) (r_clock_rate s) (on_frame s) sc (mid s) (has_mid s)
    (r_rtcp_stats s) (r_active s).

(** [m]: the bytes before the NUL, [None] for a null pointer; [mid] is the
    string in the array *)
Definition rtc_rtp_recv_stream_set_mid (s : rtc_rtp_recv_stream_t) (m : option bytes)
    : rtc_rtp_recv_stream_t :=
  match m with
  | None | Some [] =>
      RecvStream (r_payload_type s) (r_clock_rate s) (on_frame s) (r_ssrc s) [] false
        (r_rtcp_stats s) (r_active s)
  | Some m =>
      let n := if RTC_RTP_MID_MAX <=? blen m then RTC_RTP_MID_MAX - 1 else blen m in
      RecvStream (r_payload_type s) (r_clock_rate s) (on_frame s) (r_ssrc s)
        (take (Z.to_nat n) m) true (r_rtcp_stats s) (r_active s)
  end.
Definition rtc_rtp_recv_stream_mid (s : rtc_rtp_recv_stream_t) : option bytes :=
  if has_mid s then Some (mid s) else None.
Definition rtc_rtp_recv_stream_mid_matches (s : rtc_rtp_recv_stream_t) (m : bytes) : bool :=
  has_mid s && bool_decide (mid s = m).
Definition rtc_rtp_recv_stream_ssrc (s : rtc_rtp_recv_stream_t) : Z := r_ssrc s.
Definition rtc_rtp_recv_stream_stats (s : rtc_rtp_recv_stream_t) : Rtcp.rtc_rtcp_stats_t :=
  r_rtcp_stats s.
Definition rtc_rtp_recv_stream_on_frame (s : rtc_rtp_recv_stream_t) (fn : bool)
    : rtc_rtp_recv_stream_t :=
  RecvStream (r_payload_type s) (r_clock_rate s) fn (r_ssrc s) (mid s) (has_mid s)
    (r_rtcp_stats s) (r_active s).

Definition rtc_rtp_recv_stream_on_packet (now : Z) (pkt : rtc_rtp_packet_t)
    : st rtc_rtp_recv_stream_t (list event) :=
  s ← get;
  if negb (r_active s) || negb (on_frame s) then mret [] else
  let h := header pkt in
  stats ← lift (Rtcp.rtc_rtcp_stats_on_rtp_recv (r_rtcp_stats s) (seq h) (timestamp h) (ssrc h)
                  (r_clock_rate s) now);
  _ ← put (with_recv_stats s stats);
  mret [OnFrame (payload pkt) (seq h) (timestamp h) (ssrc h) (marker h)].

Definition rtc_rtp_recv_stream_on_sr (now : Z) (sr : Rtcp.rtc_rtcp_sr_t) (s : rtc_rtp_recv_stream_t)
    : rtc_rtp_recv_stream_t :=
  with_recv_stats s (Rtcp.rtc_rtcp_stats_on_sr_recv (r_rtcp_stats s) sr now).

(** ** What the streams rely on *)

(** [transport_sent]: the datagrams given to the network so far;
    [transport_up]: a remote address is selected and the socket takes what is
    sent to it. *)
Class TransportLaws (T : Type) {ops : TransportOps T} := {
  transport_sent : T -> list bytes;
  transport_up : T -> Prop;
  law_send_rtp t b cap t' out :
    transport_send_rtp b cap t = (t', Ok out) ->
    transport_sent t' = transport_sent t ++ [out] /\ 0 < blen out <= cap /\
    transport_twcc t' = transport_twcc t /\ (transport_up t -> transport_up t');
  law_send_raw t d :
    transport_up t -> 0 < blen d ->
    exists t', transport_send_raw d t = (t', Ok ()) /\ transport_up t' /\
      transport_sent t' = transport_sent t ++ [d] /\ transport_twcc t' = transport_twcc t;
  law_set_twcc t w :
    transport_twcc (transport_set_twcc t w) = w /\
    transport_sent (transport_set_twcc t w) = transport_sent t /\
    (transport_up t -> transport_up (transport_set_twcc t w))
}.

Section Proofs.
Context {T : Type} {ops : TransportOps T} {laws : TransportLaws T}.
#[local] Abbreviation stream_transport := (rtc_rtp_send_stream_t * T)%type.

(** a stream that sends, over a transport that works *)
Record sending (p : rtc_rtp_send_stream_t * T) : Prop := {
  sg_active : active p.1 = true;
  sg_transport : transport p.1 = true;
  sg_send : send_active p.1 = true;
  sg_up : transport_up p.2;
  sg_ring : blen (Twcc.ring (transport_twcc p.2)) = 1024
}.

(** the buffer holds the last [capacity] of the datagrams [outs], sent with the
    sequence numbers [q], [q + 1], ...; [n i]: how often the [i]-th was
    retransmitted *)
Record stored (q : Z) (outs : list bytes) (n : Z -> Z) (nb : NackBuf.rtc_nack_buf_t) : Prop := {
  so_buf : NackBuf.buf_ok nb;
  so_cap : NackBuf.capacity nb <= 2 ^ 16;
  so_slot i out : 0 <= i -> outs !! Z.to_nat i = Some out -> blen outs - NackBuf.capacity nb <= i ->
    0 < blen out /\ exists tw tg, rd (NackBuf.slots nb) ((q + i) mod NackBuf.capacity nb) =
      Ok (NackBuf.Slot out (u16 (q + i)) tw (n i) tg true)
}.

Lemma cap_pos nb : NackBuf.buf_ok nb -> 0 < NackBuf.capacity nb.
Proof. intros [(k & Hk & ->) _ _]. lia. Qed.

Lemma stored_snoc q outs n nb out tg tw :
  stored q outs n nb -> n (blen outs) = 0 -> 0 < blen out <= NackBuf.NACK_BUF_MAX_PKT_SIZE ->
  exists nb', NackBuf.rtc_nack_buf_store nb out (u16 (q + blen outs)) tg tw = Ok nb' /\
    stored q (outs ++ [out]) n nb' /\ NackBuf.capacity nb' = NackBuf.capacity nb.
Proof.
  intros [Hb Hc Hs] Hn Hlen. pose proof (cap_pos nb Hb) as Hcap.
  destruct (NackBuf.store_run nb out (u16 (q + blen outs)) tg tw Hb Hlen)
    as (nb' & E & Hb' & Hc' & Hr & Ho).
  rewrite (NackBuf.u16_mod_cap nb _ Hb Hc) in Hr, Ho.
  exists nb'. split; [done|]. split; [|done]. split; [done|by rewrite Hc'|].
  intros i o Hi Hl Hw. rewrite Hc', blen_app in *. change (blen [out]) with 1 in Hw.
  apply lookup_app_Some in Hl as [Hl|[Hge Hl]].
  - pose proof (lookup_lt_Some _ _ _ Hl) as Hlt. rewrite Ho; [apply Hs; auto; lia|].
    apply NackBuf.mod_ne; [done|]. unfold blen in *. lia.
  - apply list_lookup_singleton_Some in Hl as [Hl <-].
    assert (i = blen outs) as -> by (unfold blen; lia). split; [lia|]. exists tw, tg.
    by rewrite Hn.
Qed.

Lemma twcc_fetch_add_spec t :
  exists t', twcc_fetch_add t = (t', Ok (Twcc.next_seq (transport_twcc t))) /\
    transport_sent t' = transport_sent t /\ (transport_up t -> transport_up t') /\
    Twcc.ring (transport_twcc t') = Twcc.ring (transport_twcc t).
Proof.
  unfold twcc_fetch_add. eexists. split; [done|].
  edestruct law_set_twcc as (E1 & E2 & E3). by rewrite E1, E2.
Qed.

Lemma twcc_record_spec t sq len now t' :
  twcc_record sq len now t = (t', Ok ()) ->
  transport_sent t' = transport_sent t /\ (transport_up t -> transport_up t') /\
  blen (Twcc.ring (transport_twcc t')) = blen (Twcc.ring (transport_twcc t)).
Proof.
  unfold twcc_record. destruct (wr _ _ _) as [ring| |] eqn:Ew; intros [= <-].
  edestruct law_set_twcc as (E1 & E2 & E3). rewrite E1, E2. split_and!; auto. simpl.
  unfold wr in Ew. destruct (_ || _); simplify_eq. unfold blen. by rewrite length_insert.
Qed.

(** a successful build of the session's next packet *)
Lemma session_send_seq exts pl samples mk ss ss' pkt :
  rtc_rtp_session_send_with_ext exts pl samples mk ss = (ss', Ok pkt) ->
  seq (header pkt) = s_seq ss /\ s_seq ss' = u16 (s_seq ss + 1).
Proof.
  unfold rtc_rtp_session_send_with_ext. intros (s0 & s1 & [= <- <-] & Hb)%st_bind_Ok.
  apply st_bind_Ok in Hb as (p & s1 & [Hp ->]%lift_Ok & Hb).
  apply st_bind_Ok in Hb as ([] & s2 & [= <-] & [= <- <-]). split; [|done].
  unfold rtc_rtp_build_with_ext in Hp. apply bind_Ok in Hp as (_ & _ & Hp).
  apply bind_Ok in Hp as ([[blk ed] el] & _ & Hp). apply bind_Ok in Hp as (_ & _ & [= <-]). done.
Qed.

(** ** Sending *)

Lemma on_session_Ok {A} (f : st rtc_rtp_session_t A) p p' (a : A) :
  on_session (T := T) f p = (p', Ok a) ->
  exists ss, f (rtp_session p.1) = (ss, Ok a) /\ p' = (with_session p.1 ss, p.2).
Proof. unfold on_session, zoom. destruct (f _) as [ss r]. intros [= <- ->]. eauto. Qed.

Lemma on_transport_Ok {A} (f : st T A) p p' (a : A) :
  on_transport f p = (p', Ok a) -> exists t, f p.2 = (t, Ok a) /\ p' = (p.1, t).
Proof. unfold on_transport, zoom. destruct (f _) as [t r]. intros [= <- ->]. eauto. Qed.

Lemma on_session_run {A} (f : st rtc_rtp_session_t A) (p : stream_transport) ss r :
  f (rtp_session p.1) = (ss, r) -> on_session f p = ((with_session p.1 ss, p.2), r).
Proof. unfold on_session, zoom. by intros ->. Qed.

Lemma on_transport_run {A} (f : st T A) (p : stream_transport) t r :
  f p.2 = (t, r) -> on_transport f p = ((p.1, t), r).
Proof. unfold on_transport, zoom. by intros ->. Qed.

Lemma nack_store_Ok (p p' : stream_transport) pkt sq tg tw nb :
  nack_buf p.1 = Some nb -> nack_store pkt sq tg tw p = (p', Ok ()) ->
  exists nb', NackBuf.rtc_nack_buf_store nb pkt sq tg tw = Ok nb' /\
    p' = (with_media p.1 (rate_ctrl p.1) (Some nb'), p.2).
Proof.
  intros Hnb. unfold nack_store. intros (q & q1 & [= <- <-] & Hs)%st_bind_Ok. rewrite Hnb in Hs.
  apply st_bind_Ok in Hs as (nb' & q2 & [Hst ->]%lift_Ok & [= <-]). eauto.
Qed.

(** what one successful call to [rtc_rtp_send_stream_send] does *)
Lemma send_step now pl samples mk p p' nb q outs n :
  sending p -> nack_buf p.1 = Some nb -> stored q outs n nb -> n (blen outs) = 0 ->
  s_seq (rtp_session p.1) = u16 (q + blen outs) ->
  rtc_rtp_send_stream_send now pl samples mk p = (p', Ok ()) ->
  exists out nb', sending p' /\ nack_buf p'.1 = Some nb' /\ stored q (outs ++ [out]) n nb' /\
    NackBuf.capacity nb' = NackBuf.capacity nb /\ on_nack p'.1 = on_nack p.1 /\
    s_seq (rtp_session p'.1) = u16 (q + blen (outs ++ [out])) /\
    transport_sent p'.2 = transport_sent p.2 ++ [out].
Proof.
  intros [Ha Ht Hsa Hup Hring] Hnb Hst Hn Hseq. unfold rtc_rtp_send_stream_send.
  intros (p0 & p1 & [= <- <-] & H)%st_bind_Ok. cbv zeta in H. rewrite Ha, Ht, Hsa in H.
  cbn [negb] in H. do 2 (apply st_bind_Ok in H as ([] & p1 & [_ ->]%lift_Ok & H)).
  set (tagged := twcc p.1 && _) in *.
  apply st_bind_Ok in H as (tw & p1 & H1 & H).
  assert (exists t1, p1 = (p.1, t1) /\ transport_sent t1 = transport_sent p.2 /\ transport_up t1 /\
    blen (Twcc.ring (transport_twcc t1)) = 1024) as (t1 & -> & Hs1 & Hu1 & Hr1).
  { destruct tagged; [|injection H1 as <- <-; exists p.2; by destruct p].
    apply on_transport_Ok in H1 as (t1 & H1 & ->). exists t1. split; [done|].
    destruct (twcc_fetch_add_spec p.2) as (t' & E & ? & ? & ?). rewrite E in H1. simplify_eq.
    split_and!; auto; congruence. }
  apply st_bind_Ok in H as (pkt & p2 & (ss & H2 & ->)%on_session_Ok & H). cbn [fst snd] in *.
  assert (Hq : seq (header pkt) = s_seq (rtp_session p.1) /\ s_seq ss = u16 (s_seq (rtp_session p.1) + 1)).
  { destruct tagged; [|change rtc_rtp_session_send with (rtc_rtp_session_send_with_ext []) in H2];
      by eapply session_send_seq. }
  destruct Hq as [Hq1 Hq2].
  apply st_bind_Ok in H as ([] & p2 & [= <-] & H). cbn [fst snd] in *.
  apply st_bind_Ok in H as (out & p2 & (t2 & H3 & ->)%on_transport_Ok & H). cbn [fst snd] in *.
  apply law_send_rtp in H3 as (Hs2 & Hlen & Htw2 & Hu2).
  apply st_bind_Ok in H as ([] & p3 & H4 & H).
  assert (exists t3, p3 = (with_stats (with_session p.1 ss)
      (Rtcp.rtc_rtcp_stats_on_rtp_send (rtcp_stats p.1) (timestamp (header pkt)) (blen pl)), t3) /\
    transport_sent t3 = transport_sent t2 /\ transport_up t3 /\
    blen (Twcc.ring (transport_twcc t3)) = 1024) as (t3 & -> & Hs3 & Hu3 & Hr3).
  { destruct tagged; [|injection H4 as <-; eexists; split_and!; eauto; by rewrite Htw2].
    apply on_transport_Ok in H4 as (t3 & H4 & ->). exists t3. split; [done|].
    apply twcc_record_spec in H4 as (? & ? & Hr). cbn [snd] in *. split_and!; auto.
    by rewrite Hr, Htw2. }
  eapply nack_store_Ok in H as (nb' & Hnb' & ->); [|exact Hnb]. cbn [fst snd] in *.
  rewrite Hq1, Hseq in Hnb'.
  destruct (stored_snoc q outs n nb out tagged tw Hst Hn) as (nb2 & E & Hst' & Hc').
  { unfold RTP_BUF_SIZE, RTP_MAX_PACKET, RTP_HEADER_SIZE, RTP_MAX_EXT_LEN, RTP_SRTP_PAD in Hlen.
    unfold NackBuf.NACK_BUF_MAX_PKT_SIZE. lia. }
  rewrite E in Hnb'. simplify_eq. exists out, nb'. split_and!; try done.
  - cbn [rtp_session with_media with_stats with_session]. rewrite Hq2, Hseq, blen_app.
    change (blen [out]) with 1. unfold u16. rewrite Zplus_mod_idemp_l. f_equal. lia.
  - by rewrite Hs3, Hs2, Hs1.
Qed.

(** calls with the clock, payload, duration and marker of each packet *)
Fixpoint send_all (ps : list (Z * bytes * Z * bool)) : st stream_transport unit :=
  match ps with
  | [] => mret ()
  | (now, pl, samples, mk) :: ps => _ ← rtc_rtp_send_stream_send now pl samples mk; send_all ps
  end.

Lemma send_all_run ps : forall p p' nb q outs,
  sending p -> nack_buf p.1 = Some nb -> stored q outs (fun _ => 0) nb ->
  s_seq (rtp_session p.1) = u16 (q + blen outs) ->
  send_all ps p = (p', Ok ()) ->
  exists new nb', length new = length ps /\ sending p' /\ nack_buf p'.1 = Some nb' /\
    stored q (outs ++ new) (fun _ => 0) nb' /\ NackBuf.capacity nb' = NackBuf.capacity nb /\
    on_nack p'.1 = on_nack p.1 /\ transport_sent p'.2 = transport_sent p.2 ++ new.
Proof.
  induction ps as [|[[[now pl] samples] mk] ps IH]; intros p p' nb q outs Hp Hnb Hst Hseq H.
  - injection H as <-. exists [], nb. by rewrite !app_nil_r.
  - apply st_bind_Ok in H as ([] & p1 & H1 & H).
    destruct (send_step now pl samples mk p p1 nb q outs _ Hp Hnb Hst eq_refl Hseq H1)
      as (out & nb1 & Hp1 & Hnb1 & Hst1 & Hc1 & Hn1 & Hseq1 & Hs1).
    destruct (IH p1 p' nb1 q (outs ++ [out]) Hp1 Hnb1 Hst1 Hseq1 H)
      as (new & nb' & Hl & Hp' & Hnb' & Hst' & Hc' & Hn' & Hs').
    exists (out :: new), nb'. rewrite <-app_assoc in Hst'. split_and!; try done; [simpl; congruence..|].
    by rewrite Hs', Hs1, <-app_assoc.
Qed.

(** ** Retransmission *)

Definition bump (n : Z -> Z) (i : Z) : Z -> Z := fun j => if j =? i then n j + 1 else n j.

Lemma stored_retransmit q outs n nb i out :
  stored q outs n nb -> 0 <= i -> outs !! Z.to_nat i = Some out ->
  blen outs - NackBuf.capacity nb <= i -> 0 <= n i < 10 ->
  exists nb' tw, NackBuf.rtc_nack_buf_retransmit (u16 (q + i)) nb = (nb', Ok (Some (out, tw))) /\
    stored q outs (bump n i) nb' /\ NackBuf.capacity nb' = NackBuf.capacity nb.
Proof.
  intros [Hb Hc Hs] Hi Hl Hw Hn. pose proof (cap_pos nb Hb) as Hcap.
  pose proof (lookup_lt_Some _ _ _ Hl) as Hlt.
  destruct (Hs i out Hi Hl Hw) as (Hout & tw & tg & Hr).
  rewrite <-(NackBuf.u16_mod_cap nb _ Hb Hc) in Hr.
  pose proof (NackBuf.retransmit_run nb _ _ _ _ _ Hb Hr ltac:(lia)) as Hrun.
  rewrite (proj2 (Z.ltb_lt _ _)) in Hrun by lia. destruct Hrun as (nb' & E & Hb' & Hc' & Hr' & Ho).
  rewrite (NackBuf.u16_mod_cap nb _ Hb Hc) in Hr', Ho.
  eexists nb', _. split; [exact E|]. split; [|done]. split; [done|by rewrite Hc'|].
  intros j o Hj Hlj Hwj. rewrite Hc' in *. unfold bump. destruct (Z.eqb_spec j i) as [->|Hne].
  - assert (o = out) as -> by congruence. eauto.
  - rewrite Ho; [by apply Hs|]. pose proof (lookup_lt_Some _ _ _ Hlj).
    unfold blen in *. destruct (Z.lt_ge_cases j i); [|symmetry]; apply NackBuf.mod_ne; lia.
Qed.

Lemma retransmit_step p nb q outs n i out :
  sending p -> nack_buf p.1 = Some nb -> stored q outs n nb -> 0 <= i ->
  outs !! Z.to_nat i = Some out -> blen outs - NackBuf.capacity nb <= i -> 0 <= n i < 10 ->
  exists p' nb', retransmit_one (u16 (q + i)) p = (p', Ok ()) /\ sending p' /\
    nack_buf p'.1 = Some nb' /\ stored q outs (bump n i) nb' /\
    NackBuf.capacity nb' = NackBuf.capacity nb /\ transport_sent p'.2 = transport_sent p.2 ++ [out].
Proof.
  intros [Ha Ht Hsa Hup Hring] Hnb Hst Hi Hl Hw Hn.
  destruct (stored_retransmit q outs n nb i out Hst Hi Hl Hw Hn) as (nb' & tw & E & Hst' & Hc').
  destruct (so_slot _ _ _ _ Hst i out Hi Hl Hw) as [Hout _].
  destruct (law_send_raw p.2 out Hup Hout) as (t' & Et & Hup' & Hsent & Htw).
  unfold retransmit_one. rewrite st_bind_eq. cbn [get]. rewrite Hnb, st_bind_eq.
  unfold on_nack_buf. rewrite (zoom_eq _ _ _ _ _ _ E). rewrite st_bind_eq.
  unfold on_transport at 1. rewrite (zoom_eq _ _ _ _ t' (Ok (Some ()))).
  2: { apply st_attempt_Ok, Et. }
  cbn [fst snd]. destruct (negb (tw =? 0) && twcc p.1).
  - rewrite st_bind_eq. cbn [get fst snd].
    assert (exists w, Twcc.rtc_twcc_sender_invalidate (transport_twcc t') tw = Ok w /\
      blen (Twcc.ring w) = 1024) as (w & Ew & Hw').
    { unfold Twcc.rtc_twcc_sender_invalidate, Twcc.RTC_TWCC_SENDER_RING. rewrite Htw.
      assert (Hx : 0 <= Z.land tw (1024 - 1) < blen (Twcc.ring (transport_twcc p.2))).
      { rewrite Hring, (land_mask 10) by done. apply Z.mod_pos_bound. lia. }
      destruct (rd_in_range _ _ Hx) as [e ->]. simpl. destruct (_ =? _); [|eauto].
      rewrite wr_Ok by done. eexists. split; [done|]. simpl. unfold blen in *. by rewrite length_insert. }
    rewrite (st_bind_lift _ _ _ _ Ew). destruct (law_set_twcc t' w) as (E1 & E2 & E3).
    eexists (_, _), nb'. split; [done|]. cbn [fst snd]. rewrite E2, Hsent. split_and!; try done.
    split; cbn [fst snd]; auto. by rewrite E1.
  - eexists (_, _), nb'. split; [done|]. cbn [fst snd]. split_and!; try done.
    split; cbn [fst snd]; auto. by rewrite Htw.
Qed.

(** how often [i] occurs *)
Definition occ (i : Z) (ks : list Z) : Z := blen (filter (fun j => j = i) ks).

Lemma occ_cons i j ks : occ i (j :: ks) = (if j =? i then 1 else 0) + occ i ks.
Proof.
  unfold occ. rewrite filter_cons. destruct (Z.eqb_spec j i).
  - rewrite decide_True by done. apply blen_cons.
  - rewrite decide_False by done. lia.
Qed.

Lemma retransmit_run_all ks : forall p nb q outs n,
  sending p -> nack_buf p.1 = Some nb -> stored q outs n nb ->
  Forall (fun i => 0 <= i < blen outs /\ blen outs - NackBuf.capacity nb <= i) ks ->
  (forall i, 0 <= n i /\ n i + occ i ks <= 10) ->
  exists p', retransmit_loop ((fun i => u16 (q + i)) <$> ks) p = (p', Ok ()) /\
    transport_sent p'.2 = transport_sent p.2 ++ omap (fun i => outs !! Z.to_nat i) ks.
Proof.
  induction ks as [|i ks IH]; intros p nb q outs n Hp Hnb Hst HF Hn.
  - exists p. by rewrite app_nil_r.
  - apply Forall_cons_1 in HF as [[Hi Hw] HF].
    destruct (lookup_lt_is_Some_2 outs (Z.to_nat i)) as [out Hl]; [unfold blen in Hi; lia|].
    pose proof (Hn i) as Hni. rewrite occ_cons, Z.eqb_refl in Hni.
    assert (0 <= occ i ks) by apply blen_nonneg.
    destruct (retransmit_step p nb q outs n i out Hp Hnb Hst) as (p1 & nb1 & E & Hp1 & Hnb1 & Hst1 & Hc1 & Hs1);
      [lia|done|lia|lia|].
    destruct (IH p1 nb1 q outs (bump n i) Hp1 Hnb1 Hst1) as (p' & E' & Hs').
    { by rewrite Hc1. }
    { intros j. pose proof (Hn j) as Hnj. rewrite occ_cons in Hnj. unfold bump.
      destruct (Z.eqb_spec j i), (Z.eqb_spec i j); lia. }
    exists p'. cbn [fmap list_fmap retransmit_loop]. rewrite st_bind_eq, E. split; [done|].
    rewrite Hs', Hs1. cbn [omap list_omap]. rewrite Hl. by rewrite <-app_assoc.
Qed.

Lemma nack_resends s t q nb ps s' t' ks :
  sending (s, t) -> nack_buf s = Some nb -> NackBuf.buf_ok nb -> NackBuf.capacity nb <= 2 ^ 16 ->
  s_seq (rtp_session s) = u16 q ->
  send_all ps (s, t) = ((s', t'), Ok ()) ->
  Forall (fun i => 0 <= i < blen ps /\ blen ps - NackBuf.capacity nb <= i) ks ->
  (forall i, occ i ks <= 10) -> ks <> [] ->
  exists outs s'' t'', length outs = length ps /\ transport_sent t' = transport_sent t ++ outs /\
    rtc_rtp_send_stream_handle_nack ((fun i => u16 (q + i)) <$> ks) (s', t') =
      ((s'', t''), Ok (if on_nack s then [OnNack ((fun i => u16 (q + i)) <$> ks)] else [])) /\
    transport_sent t'' = transport_sent t' ++ omap (fun i => outs !! Z.to_nat i) ks.
Proof.
  intros Hp Hnb Hb Hc Hseq Hsend HF Hocc Hne.
  destruct (send_all_run ps (s, t) (s', t') nb q [] Hp Hnb) as
    (outs & nb' & Hl & Hp' & Hnb' & Hst' & Hc' & Hn' & Hs'); [split; try done| |done|].
  { by rewrite blen_nil, Z.add_0_r. }
  assert (Hlb : blen outs = blen ps) by (unfold blen; congruence).
  destruct (retransmit_run_all ks (s', t') nb' q outs (fun _ => 0) Hp' Hnb' Hst') as ([s'' t''] & E & Hs'').
  { by rewrite Hlb, Hc'. }
  { intros i. specialize (Hocc i). lia. }
  exists outs, s'', t''. split_and!; try done. unfold rtc_rtp_send_stream_handle_nack.
  rewrite st_bind_eq. cbn [get fst]. rewrite (proj2 (Z.leb_gt _ _)).
  2: { destruct ks; [done|]. cbn [fmap list_fmap]. rewrite blen_cons. pose proof (blen_nonneg ((fun i => u16 (q + i)) <$> ks)). unfold fmap in *. lia. }
  cbn [fst] in Hnb', Hn'. rewrite bool_decide_eq_false_2 by (rewrite Hnb'; done).
  rewrite (sg_transport _ Hp' : transport s' = true), st_bind_eq. cbn [orb negb]. rewrite E. by rewrite Hn'.
Qed.

(** A NACK is answered with exactly what was lost.  A stream with a
    retransmission buffer sends any number of packets; when the peer reports
    some of the last [capacity] of them lost (each at most ten times), the
    datagrams that went out for them are sent again, byte for byte and in the
    order of the report. *)
Theorem nack_resends_exactly s t q nb ps s' t' ks :
  sending (s, t) -> nack_buf s = Some nb -> NackBuf.buf_ok nb -> NackBuf.capacity nb <= 2 ^ 16 ->
  s_seq (rtp_session s) = u16 q ->
  send_all ps (s, t) = ((s', t'), Ok ()) ->
  Forall (fun i => 0 <= i < blen ps /\ blen ps - NackBuf.capacity nb <= i) ks ->
  (forall i, occ i ks <= 10) -> ks <> [] ->
  exists outs s'' t'', length outs = length ps /\ transport_sent t' = transport_sent t ++ outs /\
    rtc_rtp_send_stream_handle_nack ((fun i => u16 (q + i)) <$> ks) (s', t') =
      ((s'', t''), Ok (if on_nack s then [OnNack ((fun i => u16 (q + i)) <$> ks)] else [])) /\
    transport_sent t'' = transport_sent t' ++ omap (fun i => outs !! Z.to_nat i) ks.
Proof. apply nack_resends. Qed.

(** ** Key-frame requests *)

(** the times at which a sequence of requests notifies the application *)
Fixpoint pli_run (ts : list Z) (s : rtc_rtp_send_stream_t) : rtc_rtp_send_stream_t * list Z :=
  match ts with
  | [] => (s, [])
  | now :: ts =>
      let '(s1, ev) := rtc_rtp_send_stream_handle_pli now s in
      let '(s2, ns) := pli_run ts s1 in
      (s2, match ev with [] => ns | _ => now :: ns end)
  end.

(** [l] does not decrease from [a] on; [l] advances by at least 500 ms *)
Fixpoint ordered (a : Z) (l : list Z) : Prop :=
  match l with [] => True | b :: l => a <= b < 2 ^ 64 /\ ordered b l end.
Fixpoint spaced (a : Z) (l : list Z) : Prop :=
  match l with [] => True | b :: l => a + RTC_PLI_MIN_INTERVAL_MS <= b /\ spaced b l end.

Lemma pli_step s now :
  0 <= last_pli_handled_ms s <= now -> now < 2 ^ 64 -> on_pli s = true ->
  let '(s', ev) := rtc_rtp_send_stream_handle_pli now s in
  on_pli s' = true /\
  if now <? last_pli_handled_ms s + 500 then s' = s /\ ev = []
  else last_pli_handled_ms s' = now /\ ev = [OnPli] /\
    (rate_ctrl s <> None -> (rtc_rtp_send_stream_should_keyframe s').1 = true) /\
    (rate_ctrl s <> None -> rate_ctrl s' <> None).
Proof.
  intros Hl Hn Hp. unfold rtc_rtp_send_stream_handle_pli, RTC_PLI_MIN_INTERVAL_MS.
  rewrite u64_id by lia.
  destruct (Z.ltb_spec (now - last_pli_handled_ms s) 500), (Z.ltb_spec now (last_pli_handled_ms s + 500));
    try lia; [done|].
  rewrite Hp. split; [done|]. split_and!; try done; intros Hr; cbn; by destruct (rate_ctrl s).
Qed.

Lemma pli_run_spec ts : forall s,
  on_pli s = true -> 0 <= last_pli_handled_ms s -> ordered (last_pli_handled_ms s) ts ->
  let '(s', ns) := pli_run ts s in
  spaced (last_pli_handled_ms s) ns /\
  (forall now, now ∈ ts -> exists n, n ∈ last_pli_handled_ms s :: ns /\ n <= now < n + 500) /\
  (rate_ctrl s <> None -> ns <> [] -> (rtc_rtp_send_stream_should_keyframe s').1 = true) /\
  (ns = [] -> s' = s).
Proof.
  induction ts as [|now ts IH]; intros s Hp Hl Ho; simpl; [split_and!; try done; set_solver|].
  destruct Ho as [Hnow Ho]. pose proof (pli_step s now) as Hs.
  destruct (rtc_rtp_send_stream_handle_pli now s) as [s1 ev]. destruct Hs as [Hp1 Hs]; [lia|lia|done|].
  assert (Hmono : forall a b l, a <= b -> ordered b l -> ordered a l).
  { intros a b l Hab. destruct l; simpl; [done|]. intros [? ?]. split; [lia|done]. }
  destruct (Z.ltb_spec now (last_pli_handled_ms s + 500)).
  - destruct Hs as [-> ->]. pose proof (IH s Hp Hl ltac:(eapply Hmono; [|done]; lia)) as IH'.
    destruct (pli_run ts s) as [s2 ns]. destruct IH' as (H1 & H2 & H3 & H4). split_and!; auto.
    intros t [->|Ht]%elem_of_cons; [|by apply H2]. exists (last_pli_handled_ms s). split; [left|lia].
  - destruct Hs as (Hl1 & -> & Hk & Hrc). pose proof (IH s1 Hp1) as IH'. rewrite Hl1 in IH'.
    specialize (IH' ltac:(lia) Ho). destruct (pli_run ts s1) as [s2 ns].
    destruct IH' as (H1 & H2 & H3 & H4). unfold RTC_PLI_MIN_INTERVAL_MS. split_and!; [simpl; auto| | |done].
    + intros t [->|Ht]%elem_of_cons; [exists now; split; [set_solver|lia]|].
      destruct (H2 t Ht) as (n & Hn & ?). exists n. split; [set_solver|done].
    + intros Hr _. destruct ns as [|n ns]; [by rewrite H4; auto|]. by apply H3; auto.
Qed.

(** Key-frame requests are rate limited but never lost.  Whatever sequence
    of PLI and FIR requests arrives, the application is notified at times at
    least 500 ms apart, every request follows a notification (or the start) by
    less than 500 ms, and after a notification the encoder is asked for a key
    frame. *)
Theorem pli_rate_limited ts s :
  on_pli s = true -> 0 <= last_pli_handled_ms s -> ordered (last_pli_handled_ms s) ts ->
  let '(s', ns) := pli_run ts s in
  spaced (last_pli_handled_ms s) ns /\
  (forall now, now ∈ ts -> exists n, n ∈ last_pli_handled_ms s :: ns /\ n <= now < n + 500) /\
  (rate_ctrl s <> None -> ns <> [] -> (rtc_rtp_send_stream_should_keyframe s').1 = true).
Proof.
  intros Hp Hl Ho. pose proof (pli_run_spec ts s Hp Hl Ho) as Hr.
  destruct (pli_run ts s). naive_solver.
Qed.

Lemma session_send_total pl samples mk ss :
  blen pl <= RTP_MAX_PACKET ->
  exists pkt, rtc_rtp_session_send pl samples mk ss = (session_advance ss samples, Ok pkt).
Proof.
  intros Hpl. unfold rtc_rtp_session_send. rewrite st_bind_eq. cbn [get].
  assert (exists pkt, rtc_rtp_build (s_payload_type ss) (s_seq ss) (s_timestamp ss) (s_ssrc ss) mk pl
    = Ok pkt) as [pkt Hb].
  { unfold rtc_rtp_build, rtc_rtp_build_with_ext. pass_guard. eexists.
    change (0 <? blen (@nil rtc_rtp_ext_t)) with false. cbv iota.
    rewrite (bind_Ok_l (Ok _) _ _ eq_refl). cbv iota. rewrite (bind_Ok_l _ _ ()); [done|].
    apply fault_if_Ok, Z.ltb_ge. unfold RTP_MAX_PACKET in Hpl.
    unfold RTP_BUF_SIZE, RTP_MAX_PACKET, RTP_HEADER_SIZE, RTP_MAX_EXT_LEN, RTP_SRTP_PAD.
    lens. lia. }
  rewrite (st_bind_lift _ _ _ _ Hb). by exists pkt.
Qed.

(** A send the transport refuses is not undone: the error code is
    returned and the packet cannot be retransmitted, but its sequence number
    is used up and it counts as sent in the next sender report. *)
Theorem failed_send_consumes_seq now pl samples mk s t e :
  active s = true -> transport s = true -> send_active s = true -> twcc s = false ->
  blen pl <= RTP_MAX_PACKET ->
  (forall b cap, exists t', transport_send_rtp b cap t = (t', Err e)) ->
  exists s' t', rtc_rtp_send_stream_send now pl samples mk (s, t) = ((s', t'), Err e) /\
    s_seq (rtp_session s') = u16 (s_seq (rtp_session s) + 1) /\
    Rtcp.packets_sent (rtcp_stats s') = u32 (Rtcp.packets_sent (rtcp_stats s) + 1) /\
    nack_buf s' = nack_buf s.
Proof.
  intros Ha Ht Hs Htw Hpl Hfail. unfold rtc_rtp_send_stream_send. rewrite st_bind_eq.
  cbn [get fst]. cbv zeta. rewrite Ha, Ht, Hs, Htw. cbn [negb andb].
  rewrite !(st_bind_lift (Ok ()) _ _ () eq_refl), !st_bind_eq. cbn [mret st_ret].
  destruct (session_send_total pl samples mk (rtp_session s) Hpl) as [pkt Hpkt].
  rewrite (st_bind_run _ _ _ _ _ (on_session_run _ (s, t) _ _ Hpkt)).
  rewrite (st_bind_run (on_stream _) _ _ _ _ eq_refl). cbn [fst snd].
  destruct (Hfail (buf pkt) RTP_BUF_SIZE) as (t' & Hf).
  rewrite (st_bind_err _ _ _ _ _ (on_transport_run _ (_, t) _ _ Hf)). eexists _, t'. done.
Qed.
End Proofs.

(** ** Witnesses *)

(** a transport that appends a ten-byte tag and records what it sends *)
Record toy_transport := Toy { toy_sent : list bytes; toy_twcc : Twcc.rtc_twcc_sender_t; toy_ok : bool }.

#[export] Instance toy_ops : TransportOps toy_transport := {
  transport_send_rtp b cap t :=
    let out := b ++ replicate 10 0 in
    if negb (toy_ok t) then (t, Err RTC_ERR_SRTP)
    else if cap <? blen out then (t, Err RTC_ERR_NOMEM)
    else (Toy (toy_sent t ++ [out]) (toy_twcc t) (toy_ok t), Ok out);
  transport_send_rtcp b cap t := (t, Ok b);
  transport_send_raw b t := (Toy (toy_sent t ++ [b]) (toy_twcc t) (toy_ok t), Ok ());
  transport_twcc_enabled t := true;
  transport_twcc := toy_twcc;
  transport_set_twcc t w := Toy (toy_sent t) w (toy_ok t)
}.

#[export, refine] Instance toy_laws : TransportLaws toy_transport := {
  transport_sent := toy_sent;
  transport_up := fun _ => True
}.
Proof.
  - intros t b cap t' out. cbn [transport_send_rtp toy_ops]. destruct (toy_ok t); cbn [negb]; [|done].
    cbv zeta. pose proof (blen_app b (replicate 10 0)) as Hl. rewrite blen_replicate in Hl.
    pose proof (blen_nonneg b). remember (b ++ replicate 10 0) as o.
    destruct (Z.ltb_spec cap (blen o)); [done|]. intros [= <- <-]. split_and!; try done; lia.
  - intros t d _ _. by eexists.
  - done.
Defined.

Definition stats0 : Rtcp.rtc_rtcp_stats_t := Rtcp.rtc_rtcp_stats_init 9 0.
Definition buf4 : NackBuf.rtc_nack_buf_t := NackBuf.Buf (replicate 4 NackBuf.slot_zero) 4 3.
Definition stream0 : rtc_rtp_send_stream_t :=
  SendStream (Session 9 65535 0 96 90000) true stats0
    (Some (RateControl.Rc 500 100 2500 false)) (Some buf4) true 0 true true true 0 true 3.
Definition toy0 : toy_transport := Toy [] Twcc.rtc_twcc_sender_init true.

Lemma nack_resends_exactly_witness :
  let ps := [(1, [1], 10, true); (2, [2], 10, true); (3, [3], 10, true)] in
  exists p outs s'' t'', send_all ps (stream0, toy0) = (p, Ok ()) /\ length outs = 3%nat /\
    rtc_rtp_send_stream_handle_nack [1; 0] p = ((s'', t''), Ok [OnNack [1; 0]]) /\
    toy_sent t'' = toy_sent p.2 ++ omap (fun i => outs !! Z.to_nat i) [2; 1].
Proof.
  intros ps. destruct (send_all ps (stream0, toy0)) as [[s' t'] r] eqn:E.
  assert (r = Ok ()) as -> by (apply (f_equal snd) in E; vm_compute in E; congruence).
  destruct (nack_resends_exactly stream0 toy0 65535 buf4 ps s' t' [2; 1]) as
    (outs & s'' & t'' & Hl & _ & Hh & Hs).
  - constructor; [reflexivity|reflexivity|reflexivity|exact I|vm_compute; reflexivity].
  - reflexivity.
  - split; [exists 2; split; [lia|done]|done|done].
  - vm_compute. discriminate.
  - reflexivity.
  - exact E.
  - repeat constructor; vm_compute; congruence.
  - intros i. unfold occ. rewrite !filter_cons. repeat case_decide; vm_compute; discriminate.
  - discriminate.
  - exists (s', t'), outs, s'', t''. exact (conj eq_refl (conj Hl (conj Hh Hs))).
Defined.

Lemma pli_rate_limited_witness :
  let '(s', ns) := pli_run [600; 700; 1100; 1400; 1700] stream0 in
  spaced 0 ns /\
  (forall now, now ∈ [600; 700; 1100; 1400; 1700] -> exists n, n ∈ 0 :: ns /\ n <= now < n + 500) /\
  (rate_ctrl stream0 <> None -> ns <> [] -> (rtc_rtp_send_stream_should_keyframe s').1 = true).
Proof.
  apply (pli_rate_limited [600; 700; 1100; 1400; 1700] stream0); [reflexivity|vm_compute; discriminate|].
  repeat split; vm_compute; congruence.
Defined.

Lemma failed_send_consumes_seq_witness :
  exists s' t', rtc_rtp_send_stream_send 0 [1; 2] 10 true
      (rtc_rtp_send_stream_attach_transport
        (SendStream (Session 9 7 0 96 90000) false stats0 None None true 0 true false false 0 false 0),
       Toy [] Twcc.rtc_twcc_sender_init false) = ((s', t'), Err RTC_ERR_SRTP) /\
    s_seq (rtp_session s') = 8 /\ Rtcp.packets_sent (rtcp_stats s') = 1 /\ nack_buf s' = None.
Proof.
  apply (failed_send_consumes_seq 0 [1; 2] 10 true); try reflexivity.
  - vm_compute. discriminate.
  - intros b cap. eexists. reflexivity.
Defined.

End RtpStream.
