(* ===== verification/MediaSession.v ===== *)
(** * The media session of a peer (rtc/src/rtc_media_session.c)

    A session routes inbound RTP to receive streams and inbound RTCP to send
    streams, and emits the periodic reports.  Streams are pointers: the
    session holds identifiers into the stores [send_store] and [recv_store]
    of the world (a missing identifier is a dangling pointer, [Fault]).  The
    transport and the worker are known through the interfaces
    [SessionTransport] and [WorkerOps].  [clock] is what the clock functions
    return during a call.  Callbacks of the streams are logged in [events]
    with the stream they belong to. *)

From S2P Require Import Prelude RtpExt Rtp Rtcp RtcpFb Twcc RateControl NackBuf Probe U32Map.
From S2P Require Import Vec Interceptor RtpStream.
From Stdlib Require Import ZArith Lia.
From stdpp Require Import base list numbers gmap.
#[local] Open Scope Z_scope.

Module MediaSession.
Import RtpStream Interceptor.

Definition RTC_MEDIA_SESSION_REPORT_MS : Z := 5000.
Definition RTC_WORKER_TIMER_INVALID : Z := 0.

(** the part of the transport a session uses, beside sending *)
Class SessionTransport (T : Type) := {
  session_transport_ops :: TransportOps T;
  (** [rtc_transport_rtp_bound] *)
  transport_rtp_bound : T -> Z -> res (option Z);
  (** [rtc_transport_bind_rtp]; the flag is the outcome of the allocation *)
  transport_bind_rtp : bool -> Z -> Z -> st T unit;
  (** [rtc_transport_report_rtcp_loss] *)
  transport_report_rtcp_loss : Z -> T -> res T
}.

(** [rtc_worker_add_timer] and [rtc_worker_cancel_timer] *)
Class WorkerOps (K : Type) := {
  worker_add_timer : Z -> st K Z;
  worker_cancel_timer : Z -> st K unit
}.

Record clock := Clock { now_ms : Z; now_us : Z; unix_ms : Z }.

Record rtc_media_session_t := Session {
  has_transport : bool;
  has_worker : bool;
  send_streams : U32Map.rtc_u32_map_t (option Z);
  recv_streams : @Vec.rtc_vec_t Z;
  report_timer : Z;
  mid_ext_id : Z;
  running : bool;
  ready : bool
}.

(** what the handlers of a session act on, apart from transport and worker *)
Record media := Media {
  session : rtc_media_session_t;
  send_store : gmap Z rtc_rtp_send_stream_t;
  recv_store : gmap Z rtc_rtp_recv_stream_t;
  events : list (Z * event);
  clk : clock
}.

Definition with_sess (m : media) (s : rtc_media_session_t) : media :=
  Media s (send_store m) (recv_store m) (events m) (clk m).
Definition with_sender (m : media) (id : Z) (s : rtc_rtp_send_stream_t) (evs : list event) : media :=
  Media (session m) (<[id := s]> (send_store m)) (recv_store m) (events m ++ (pair id <$> evs)) (clk m).
Definition with_receiver (m : media) (id : Z) (s : rtc_rtp_recv_stream_t) (evs : list event) : media :=
  Media (session m) (send_store m) (<[id := s]> (recv_store m)) (events m ++ (pair id <$> evs)) (clk m).

(** dereference a stream pointer *)
Definition deref {A} (store : gmap Z A) (id : Z) : res A :=
  match store !! id with Some a => Ok a | None => Fault end.

(** ** Inbound RTP *)

(** [session_rtp_sink] *)
Definition session_rtp_sink (id : Z) (pkt : Rtp.rtc_rtp_packet_t) (m : media) : res media :=
  rs ← deref (recv_store m) id;
  match rtc_rtp_recv_stream_on_packet (now_ms (clk m)) pkt rs with
  | (rs, Ok evs) => Ok (with_receiver m id rs evs)
  | (_, Err e) => Err e
  | (_, Fault) => Fault
  end.

(** the pointer in cell [i]; [None]: NULL *)
Definition session_recv_at (s : rtc_media_session_t) (i : Z) : res (option Z) :=
  slot ← Vec.rtc_vec_at (recv_streams s) i;
  match slot with
  | None => Ok None
  | Some None => Fault
  | Some (Some id) => Ok (Some id)
  end.

(** the first stream from [i] on that satisfies [p]; [n] cells are left *)
Fixpoint find_recv (n : nat) (i : Z) (m : media) (p : rtc_rtp_recv_stream_t -> bool) : res (option Z) :=
  match n with
  | O => Ok None
  | S n =>
      o ← session_recv_at (session m) i;
      match o with
      | None => find_recv n (i + 1) m p
      | Some id =>
          rs ← deref (recv_store m) id;
          if p rs then Ok (Some id) else find_recv n (i + 1) m p
      end
  end.

(** the bytes before the first NUL *)
Fixpoint cstr (b : bytes) : bytes :=
  match b with
  | [] => []
  | x :: b => if x =? 0 then [] else x :: cstr b
  end.

(** [rtc_rtp_recv_stream_set_ssrc(rs, ...); return rs;] *)
Definition resolved (id ssrc : Z) (m : media) : res (media * option Z) :=
  rs ← deref (recv_store m) id;
  Ok (with_receiver m id (rtc_rtp_recv_stream_set_ssrc rs ssrc) [], Some id).

Definition rtc_media_session_resolve (pkt : Rtp.rtc_rtp_packet_t) (m : media) : res (media * option Z) :=
  let s := session m in
  if negb (ready s) then Ok (m, None) else
  let n := Z.to_nat (Vec.rtc_vec_len (recv_streams s)) in
  let h := Rtp.header pkt in
  by_mid ←
    (if negb (mid_ext_id s =? 0) && Rtp.extension h && bool_decide (Rtp.ext_data pkt <> None)
        && negb (Rtp.ext_len pkt =? 0) then
       mid ← RtpExt.rtc_rtp_ext_get_string (Rtp.ext_data pkt) (Rtp.ext_len pkt) (mid_ext_id s)
               RTC_RTP_MID_MAX;
       if 0 <? blen mid then
         find_recv n 0 m (fun rs => rtc_rtp_recv_stream_mid_matches rs (cstr mid) &&
                                    rtc_rtp_recv_stream_can_receive rs (Rtp.payload_type h))
       else Ok None
     else Ok None);
  match by_mid with
  | Some id => resolved id (Rtp.ssrc h) m
  | None =>
      by_pt ← find_recv n 0 m (fun rs => rtc_rtp_recv_stream_can_receive rs (Rtp.payload_type h));
      match by_pt with
      | Some id => resolved id (Rtp.ssrc h) m
      | None => Ok (m, None)
      end
  end.

(** ** Inbound RTCP *)

Section Ops.
Context {T K : Type} {STr : SessionTransport T} {Wk : WorkerOps K}.

(** session and streams, transport, worker *)
Record world := World { med : media; tr : T; wk : K }.

Definition session_sender (m : media) (ssrc : Z) : res (option Z) :=
  U32Map.rtc_u32_map_get None (send_streams (session m)) ssrc.

Definition session_handle_sr (buf : bytes) (w : world) : res world :=
  rtcp ← attempt (Rtcp.rtc_rtcp_parse buf);
  match rtcp with
  | None => Ok w
  | Some rtcp =>
      rs ← (if has_transport (session (med w)) then
              transport_rtp_bound (tr w) (Rtcp.pk_sender_ssrc rtcp)
            else Ok None);
      match rs with
      | None => Ok w
      | Some id =>
          s ← deref (recv_store (med w)) id;
          let s := rtc_rtp_recv_stream_on_sr (now_ms (clk (med w))) (Rtcp.pk_sr rtcp) s in
          Ok (World (with_receiver (med w) id s []) (tr w) (wk w))
      end
  end.

(** the largest [fraction_lost] *)
Definition worst_loss (rrs : list Rtcp.rtc_rtcp_rr_block_t) : Z :=
  foldl (fun worst rr => if worst <? Rtcp.fraction_lost rr then Rtcp.fraction_lost rr else worst) 0 rrs.

(** the loop body that hands one report block to the stream it is about *)
Definition handle_rr_block (rr : Rtcp.rtc_rtcp_rr_block_t) (m : media) : res media :=
  ss ← session_sender m (Rtcp.rr_ssrc rr);
  match ss with
  | None => Ok m
  | Some id =>
      s ← deref (send_store m) id;
      match rtc_rtp_send_stream_on_rr rr (Rtcp.rtc_rtcp_rtt_from_rr rr (unix_ms (clk m))) s with
      | (s, Ok _) => Ok (with_sender m id s [])
      | (_, Err e) => Err e
      | (_, Fault) => Fault
      end
  end.

Definition session_handle_rr (buf : bytes) (w : world) : res world :=
  rtcp ← attempt (Rtcp.rtc_rtcp_parse buf);
  match rtcp with
  | None => Ok w
  | Some rtcp =>
      let rrs := Rtcp.reports rtcp in
      t ← (if (0 <? blen rrs) && has_transport (session (med w)) then
             transport_report_rtcp_loss (worst_loss rrs) (tr w)
           else Ok (tr w));
      m ← mfoldl handle_rr_block rrs (med w);
      Ok (World m t (wk w))
  end.

(** a NACK for the stream [id] *)
Definition sender_handle_nack (id : Z) (lost_seqs : list Z) (w : world) : res world :=
  s ← deref (send_store (med w)) id;
  match rtc_rtp_send_stream_handle_nack lost_seqs (s, tr w) with
  | ((s, t), Ok evs) => Ok (World (with_sender (med w) id s evs) t (wk w))
  | (_, Err e) => Err e
  | (_, Fault) => Fault
  end.

Definition session_handle_nack (buf : bytes) (w : world) : res world :=
  nack ← attempt (RtcpFb.rtc_rtcp_parse_nack buf);
  match nack with
  | None => Ok w
  | Some nack =>
      ss ← session_sender (med w) (RtcpFb.nk_media_ssrc nack);
      match ss with
      | None => Ok w
      | Some id => sender_handle_nack id (RtcpFb.lost_seqs nack) w
      end
  end.

(** the SSRC a PLI or FIR asks a key frame of *)
Definition psfb_media_ssrc (fmt : Z) (buf : bytes) : res (option Z) :=
  if fmt =? RtcpFb.RTCP_FMT_PLI then
    pli ← attempt (RtcpFb.rtc_rtcp_parse_pli buf); Ok (option_map RtcpFb.pli_media_ssrc pli)
  else if fmt =? RtcpFb.RTCP_FMT_FIR then
    fir ← attempt (RtcpFb.rtc_rtcp_parse_fir buf); Ok (option_map RtcpFb.fir_media_ssrc fir)
  else Ok None.

Definition session_handle_psfb (fmt : Z) (buf : bytes) (w : world) : res world :=
  media_ssrc ← psfb_media_ssrc fmt buf;
  match media_ssrc with
  | None => Ok w
  | Some media_ssrc =>
      ss ← session_sender (med w) media_ssrc;
      match ss with
      | None => Ok w
      | Some id =>
          s ← deref (send_store (med w)) id;
          let '(s, evs) := rtc_rtp_send_stream_handle_pli (now_ms (clk (med w))) s in
          Ok (World (with_sender (med w) id s evs) (tr w) (wk w))
      end
  end.

(** ** The built-in interceptors *)

Definition report_intercept_rtcp (pt fmt : Z) (buf : bytes) (w : world) : res world :=
  if pt =? Rtcp.RTCP_PT_SR then session_handle_sr buf w
  else if pt =? Rtcp.RTCP_PT_RR then session_handle_rr buf w
  else Ok w.

Definition emit_sr_one (ssrc_id : Z * option Z) (w : world) : res world :=
  match ssrc_id.2 with
  | None => Ok w
  | Some id =>
      s ← deref (send_store (med w)) id;
      let c := clk (med w) in
      if negb (has_transport (session (med w))) then Ok w else
      match rtc_rtp_send_stream_emit_sr (now_ms c) (unix_ms c) (now_ms c) s (tr w) with
      | (t, Ok s) => Ok (World (with_sender (med w) id s []) t (wk w))
      | (_, Err e) => Err e
      | (_, Fault) => Fault
      end
  end.

Definition emit_rr_one (i : nat) (w : world) : res world :=
  slot ← session_recv_at (session (med w)) (Z.of_nat i);
  match slot with
  | None => Ok w
  | Some id =>
      s ← deref (recv_store (med w)) id;
      let c := clk (med w) in
      if negb (has_transport (session (med w))) then Ok w else
      match rtc_rtp_recv_stream_emit_rr (now_ms c) (now_ms c) s (tr w) with
      | (t, Ok s) => Ok (World (with_receiver (med w) id s []) t (wk w))
      | (_, Err e) => Err e
      | (_, Fault) => Fault
      end
  end.

Definition report_intercept_tick (now : Z) (w : world) : res world :=
  let m := send_streams (session (med w)) in
  w ← mfoldl emit_sr_one (U32Map.iterate (S (length (U32Map.entries m))) m 0) w;
  let n := Z.to_nat (Vec.rtc_vec_len (recv_streams (session (med w)))) in
  mfoldl emit_rr_one (seq 0 n) w.

Definition nack_intercept_rtcp (pt fmt : Z) (buf : bytes) (w : world) : res world :=
  if (pt =? Rtcp.RTCP_PT_RTPFB) && (fmt =? RtcpFb.RTCP_FMT_NACK) then session_handle_nack buf w
  else Ok w.

Definition pli_intercept_rtcp (pt fmt : Z) (buf : bytes) (w : world) : res world :=
  if pt =? Rtcp.RTCP_PT_PSFB then session_handle_psfb fmt buf w else Ok w.

(** freeing an interceptor leaves the world as it is *)
Definition session_interceptor_destroy (w : world) : res world := Ok w.

Definition report_ops : rtc_interceptor_t world :=
  Ops (Some report_intercept_rtcp) (Some report_intercept_tick) (Some session_interceptor_destroy).
Definition nack_ops : rtc_interceptor_t world :=
  Ops (Some nack_intercept_rtcp) None (Some session_interceptor_destroy).
Definition pli_ops : rtc_interceptor_t world :=
  Ops (Some pli_intercept_rtcp) None (Some session_interceptor_destroy).

Definition session_add_builtin (alloc : bool) (ops : rtc_interceptor_t world)
    : st (rtc_interceptor_chain_t world) unit :=
  _ ← lift (fail_if (negb alloc) RTC_ERR_NOMEM);
  rtc_interceptor_chain_add ops.

Definition session_install_default_interceptors (a1 a2 a3 : bool)
    : st (rtc_interceptor_chain_t world) unit :=
  _ ← session_add_builtin a1 report_ops;
  _ ← session_add_builtin a2 nack_ops;
  session_add_builtin a3 pli_ops.

(** ** The compound walk *)

(** the loop of [rtc_media_session_handle_rtcp] *)
Fixpoint rtcp_walk (fuel : nat) (chain : rtc_interceptor_chain_t world) (buf : bytes) (offset : Z)
    (w : world) : res world :=
  match fuel with
  | O => Fault
  | S fuel =>
      if negb (offset + 4 <=? blen buf) then Ok w else
      b0 ← rd buf offset;
      if negb (Z.land (Z.shiftr b0 6) 3 =? 2) then Ok w else
      b2 ← rd buf (offset + 2);
      b3 ← rd buf (offset + 3);
      let sub_len := (Z.lor (Z.shiftl b2 8) b3 + 1) * 4 in
      if blen buf <? offset + sub_len then Ok w else
      pkt ← sub buf offset sub_len;
      ptfmt ← Rtcp.rtc_rtcp_get_pt_fmt pkt;
      w ← match ptfmt with
          | Some (pt, fmt) => rtc_interceptor_chain_on_rtcp chain pt fmt pkt w
          | None => Ok w
          end;
      rtcp_walk fuel chain buf (offset + sub_len) w
  end.

Definition rtc_media_session_handle_rtcp (chain : rtc_interceptor_chain_t world) (buf : bytes)
    (w : world) : res world :=
  if negb (ready (session (med w))) then Ok w
  else rtcp_walk (S (length buf)) chain buf 0 w.

(** ** Timer and lifecycle *)

Definition set_timer (s : rtc_media_session_t) (handle : Z) (run : bool) : rtc_media_session_t :=
  Session (has_transport s) (has_worker s) (send_streams s) (recv_streams s) handle (mid_ext_id s)
    run (ready s).

(** [rtc_worker_add_timer] into [report_timer] *)
Definition arm_report (w : world) : res world :=
  match worker_add_timer (now_ms (clk (med w)) + RTC_MEDIA_SESSION_REPORT_MS) (wk w) with
  | (k, Ok h) => let s := session (med w) in
                 Ok (World (with_sess (med w) (set_timer s h (running s))) (tr w) k)
  | (_, Err e) => Err e
  | (_, Fault) => Fault
  end.

Definition session_report_timer (chain : rtc_interceptor_chain_t world) (w : world) : res world :=
  let s := session (med w) in
  let w := World (with_sess (med w) (set_timer s RTC_WORKER_TIMER_INVALID (running s))) (tr w) (wk w) in
  if negb (running s) then Ok w else
  w ← rtc_interceptor_chain_tick chain (now_ms (clk (med w))) w;
  arm_report w.

(** [mid_ext_id] keeps its value; the transport's RTP router and RTCP handler
    are installed when [Ok] is returned and [has_tr] holds *)
Definition rtc_media_session_init (has_tr has_wk a1 a2 a3 : bool)
    : st (rtc_interceptor_chain_t world * world) unit := fun cw =>
  let '(chain, w) := cw in
  let fresh v r := Session has_tr has_wk U32Map.rtc_u32_map_init v RTC_WORKER_TIMER_INVALID
                     (mid_ext_id (session (med w))) false r in
  match Vec.rtc_vec_init 8 with
  | Err e => ((chain, w), Err e)
  | Fault => ((chain, w), Fault)
  | Ok v =>
      match session_install_default_interceptors a1 a2 a3 (rtc_interceptor_chain_init chain) with
      | (chain, Ok _) => ((chain, World (with_sess (med w) (fresh v true)) (tr w) (wk w)), Ok ())
      | (chain, Fault) => ((chain, w), Fault)
      | (chain, Err e) =>
          match rtc_interceptor_chain_close chain w with
          | Ok (chain, w) =>
              ((chain, World (with_sess (med w) (fresh (Vec.rtc_vec_free v) false)) (tr w) (wk w)), Err e)
          | _ => ((chain, w), Fault)
          end
      end
  end.

Definition rtc_media_session_add_sender (alloc : bool) (id : Z) : st media unit :=
  m ← get;
  let s := session m in
  _ ← lift (fail_if (negb (ready s)) RTC_ERR_INVALID);
  stream ← lift (deref (send_store m) id);
  zoom (fun m => send_streams (session m))
    (fun m x => let s := session m in
       with_sess m (Session (has_transport s) (has_worker s) x (recv_streams s) (report_timer s)
                      (mid_ext_id s) (running s) (ready s)))
    (U32Map.rtc_u32_map_set None alloc (rtc_rtp_send_stream_ssrc stream) (Some id)).

Definition rtc_media_session_add_receiver (alloc : bool) (id : Z) : st media unit :=
  m ← get;
  _ ← lift (fail_if (negb (ready (session m))) RTC_ERR_INVALID);
  zoom (fun m => recv_streams (session m))
    (fun m x => let s := session m in
       with_sess m (Session (has_transport s) (has_worker s) (send_streams s) x (report_timer s)
                      (mid_ext_id s) (running s) (ready s)))
    (Vec.rtc_vec_push alloc id).

(** the code of [rtc_transport_bind_rtp] is ignored *)
Definition rtc_media_session_bind_receiver (alloc : bool) (id ssrc : Z) (w : world) : res world :=
  if negb (ready (session (med w))) then Ok w else
  rs ← deref (recv_store (med w)) id;
  let m := with_receiver (med w) id (rtc_rtp_recv_stream_set_ssrc rs ssrc) [] in
  if negb (has_transport (session m)) then Ok (World m (tr w) (wk w)) else
  match transport_bind_rtp alloc ssrc id (tr w) with
  | (_, Fault) => Fault
  | (t, _) => Ok (World m t (wk w))
  end.

Definition rtc_media_session_set_mid_ext_id (ext_id : Z) (s : rtc_media_session_t)
    : rtc_media_session_t :=
  if ready s then
    Session (has_transport s) (has_worker s) (send_streams s) (recv_streams s) (report_timer s)
      ext_id (running s) (ready s)
  else s.

Definition rtc_media_session_add_interceptor (s : rtc_media_session_t) (it : rtc_interceptor_t world)
    : st (rtc_interceptor_chain_t world) unit :=
  _ ← lift (fail_if (negb (ready s)) RTC_ERR_INVALID);
  rtc_interceptor_chain_add it.

Definition rtc_media_session_start (w : world) : res world :=
  let s := session (med w) in
  if negb (ready s) || negb (has_worker s) then Ok w
  else if running s then Ok w
  else
    let w := World (with_sess (med w) (set_timer s (report_timer s) true)) (tr w) (wk w) in
    if report_timer s =? RTC_WORKER_TIMER_INVALID then arm_report w else Ok w.

Definition rtc_media_session_stop (w : world) : res world :=
  let s := session (med w) in
  if negb (ready s) then Ok w
  else if has_worker s && negb (report_timer s =? RTC_WORKER_TIMER_INVALID) then
    match worker_cancel_timer (report_timer s) (wk w) with
    | (k, Ok _) => Ok (World (with_sess (med w) (set_timer s RTC_WORKER_TIMER_INVALID false)) (tr w) k)
    | (_, Err e) => Err e
    | (_, Fault) => Fault
    end
  else Ok (World (with_sess (med w) (set_timer s (report_timer s) false)) (tr w) (wk w)).

Definition rtc_media_session_close (chain : rtc_interceptor_chain_t world) (w : world)
    : res (rtc_interceptor_chain_t world * world) :=
  let s := session (med w) in
  if negb (ready s) then Ok (chain, w) else
  cw ← rtc_interceptor_chain_close chain w;
  let '(chain, w) := cw in
  Ok (chain, World (with_sess (med w)
    (Session (has_transport s) (has_worker s) (U32Map.rtc_u32_map_free (send_streams s))
       (Vec.rtc_vec_free (recv_streams s)) (report_timer s) (mid_ext_id s) (running s) false))
    (tr w) (wk w)).
End Ops.
Arguments world T K : clear implicits.

(** ** Compound packets *)

(** the size a packet's header announces *)
Definition rtcp_size (d : bytes) : Z := 4 * ((d !!! 2%nat) * 256 + (d !!! 3%nat) + 1).
Definition rtcp_version (d : bytes) : Z := (d !!! 0%nat) / 64.

(** one RTCP packet: version 2 and exactly as long as announced *)
Definition subpacket (d : bytes) : Prop :=
  4 <= blen d /\ rtcp_version d = 2 /\ blen d = rtcp_size d.
(** nothing that starts here is a packet *)
Definition no_packet (d : bytes) : Prop :=
  blen d < 4 \/ rtcp_version d <> 2 \/ blen d < rtcp_size d.

Lemma rd_lookup_total (d : bytes) i : 0 <= i < blen d -> rd d i = Ok (d !!! Z.to_nat i).
Proof.
  intros Hi. unfold rd. rewrite (proj2 (Z.ltb_ge _ _)) by lia. unfold blen in Hi.
  by rewrite list_lookup_lookup_total_lt by lia.
Qed.

Lemma lookup_total_byte (d : bytes) i : bytes_ok d -> Z.of_nat i < blen d -> byte_ok (d !!! i).
Proof.
  intros Hd Hi. unfold blen in Hi. eapply Forall_lookup_total_1; [done|lia].
Qed.

Section Walk.
Context {T K : Type} {STr : SessionTransport T} {Wk : WorkerOps K}.

(** every interceptor in turn *)
Definition dispatch (l : list (rtc_interceptor_t (world T K))) (pkt : bytes) (w : world T K)
    : res (world T K) :=
  mfoldl (call_rtcp (pkt !!! 1%nat) (Z.land (pkt !!! 0%nat) 31) pkt) l w.

Lemma get_pt_fmt_subpacket pkt :
  bytes_ok pkt -> subpacket pkt ->
  Rtcp.rtc_rtcp_get_pt_fmt pkt = Ok (Some (pkt !!! 1%nat, Z.land (pkt !!! 0%nat) 31)).
Proof.
  intros Hb (H4 & Hv & _). unfold Rtcp.rtc_rtcp_get_pt_fmt. rewrite (proj2 (Z.ltb_ge _ _)) by lia.
  rewrite !rd_lookup_total by lia. change (Z.to_nat 0) with 0%nat. change (Z.to_nat 1) with 1%nat.
  rewrite (bind_Ok_l (Ok _) _ _ eq_refl).
  pose proof (lookup_total_byte pkt 0 Hb ltac:(lia)) as H0. unfold rtcp_version, byte_ok in *.
  replace (Z.land (Z.shiftr (pkt !!! 0%nat) 6) 3) with 2; [done|]. bits_to_arith. pow_eval. dlia.
Qed.

(** the header at the front of [d] is read as [rtcp_version] and [rtcp_size] say *)
Lemma header_fields d :
  bytes_ok d -> 4 <= blen d ->
  (Z.land (Z.shiftr (d !!! 0%nat) 6) 3 =? 2) = (rtcp_version d =? 2) /\
  (Z.lor (Z.shiftl (d !!! 2%nat) 8) (d !!! 3%nat) + 1) * 4 = rtcp_size d /\ 4 <= rtcp_size d.
Proof.
  intros Hd H4. pose proof (lookup_total_byte d 0 Hd ltac:(lia)) as B0.
  pose proof (lookup_total_byte d 2 Hd ltac:(lia)) as B2.
  pose proof (lookup_total_byte d 3 Hd ltac:(lia)) as B3.
  rewrite lor16 by done. unfold rtcp_version, rtcp_size, byte_ok in *. split_and!; [|lia..].
  replace (Z.land (Z.shiftr (d !!! 0%nat) 6) 3) with ((d !!! 0%nat) / 64); [done|].
  bits_to_arith. pow_eval. dlia.
Qed.

Lemma take_subpacket d :
  4 <= rtcp_size d <= blen d -> rtcp_version d = 2 -> subpacket (take (Z.to_nat (rtcp_size d)) d).
Proof.
  intros Hs Hv. assert (Hl : forall i, (i < 4)%nat -> take (Z.to_nat (rtcp_size d)) d !!! i = d !!! i).
  { intros i Hi. rewrite !list_lookup_total_alt, lookup_take_lt by lia. done. }
  assert (Hb : blen (take (Z.to_nat (rtcp_size d)) d) = rtcp_size d).
  { unfold blen in *. rewrite length_take. lia. }
  split; [lia|]. rewrite Hb. unfold rtcp_version, rtcp_size in *. by rewrite !Hl by lia.
Qed.

(** one round of the loop, at the bytes [d] from [offset] on *)
Lemma rtcp_walk_step chain l buf fuel offset w :
  chain_repr chain l -> bytes_ok buf -> 0 <= offset <= blen buf ->
  let d := drop (Z.to_nat offset) buf in
  (no_packet d /\ rtcp_walk (S fuel) chain buf offset w = Ok w) \/
  (exists pkt rest, d = pkt ++ rest /\ subpacket pkt /\
     rtcp_walk (S fuel) chain buf offset w =
       w ← dispatch l pkt w; rtcp_walk fuel chain buf (offset + blen pkt) w).
Proof.
  intros Hc Hb Ho d.
  assert (Hd : blen d = blen buf - offset) by (unfold d, blen in *; rewrite length_drop; lia).
  assert (Hat : forall i, 0 <= i < blen d -> rd buf (offset + i) = Ok (d !!! Z.to_nat i)).
  { intros i Hi. rewrite <-rd_lookup_total by done. unfold d, rd. rewrite !(proj2 (Z.ltb_ge _ 0)) by lia.
    rewrite lookup_drop. by replace (Z.to_nat offset + Z.to_nat i)%nat with (Z.to_nat (offset + i)) by lia. }
  assert (Hbd : bytes_ok d) by by apply Forall_drop.
  cbn [rtcp_walk]. destruct (Z.leb_spec (offset + 4) (blen buf)); cbn [negb]; [|left; split; [left; lia|done]].
  destruct (header_fields d Hbd ltac:(lia)) as (Ev & Es & Hs4).
  pose proof (Hat 0 ltac:(lia)) as H0. rewrite Z.add_0_r in H0. step H0.
  change (d !!! Z.to_nat 0) with (d !!! 0%nat). rewrite Ev.
  destruct (Z.eqb_spec (rtcp_version d) 2) as [Hv|Hv]; cbn [negb]; [|left; split; [right; by left|done]].
  rewrite (Hat 2), (Hat 3) by lia. rewrite !(bind_Ok_l (Ok _) _ _ eq_refl).
  change (d !!! Z.to_nat 2) with (d !!! 2%nat). change (d !!! Z.to_nat 3) with (d !!! 3%nat).
  cbv zeta. rewrite Es.
  destruct (Z.ltb_spec (blen buf) (offset + rtcp_size d)); [left; split; [right; right; lia|done]|].
  right. rewrite sub_Ok by lia. fold d. rewrite (bind_Ok_l (Ok _) _ _ eq_refl).
  pose proof (take_subpacket d ltac:(lia) Hv) as Hsub.
  exists (take (Z.to_nat (rtcp_size d)) d), (drop (Z.to_nat (rtcp_size d)) d).
  split; [by rewrite take_drop|]. split; [done|].
  rewrite (get_pt_fmt_subpacket _ (Forall_take _ _ _ Hbd) Hsub). rewrite (bind_Ok_l (Ok _) _ _ eq_refl).
  cbv iota. unfold rtc_interceptor_chain_on_rtcp. rewrite (each_repr chain l) by done.
  replace (blen (take (Z.to_nat (rtcp_size d)) d)) with (rtcp_size d); [done|].
  unfold blen in *. rewrite length_take. lia.
Qed.

Lemma rtcp_walk_spec chain l buf fuel : forall offset w,
  chain_repr chain l -> bytes_ok buf -> 0 <= offset <= blen buf -> blen buf - offset < Z.of_nat fuel ->
  exists pkts tail, drop (Z.to_nat offset) buf = mjoin pkts ++ tail /\ Forall subpacket pkts /\
    no_packet tail /\ rtcp_walk fuel chain buf offset w = mfoldl (dispatch l) pkts w.
Proof.
  induction fuel as [|fuel IH]; intros offset w Hc Hb Ho Hf; [lia|].
  destruct (rtcp_walk_step chain l buf fuel offset w Hc Hb Ho) as [[Hn ->]|(pkt & rest & Hd & Hs & ->)].
  - by exists [], (drop (Z.to_nat offset) buf).
  - assert (Hl : blen pkt + blen rest = blen buf - offset).
    { apply (f_equal length) in Hd. rewrite length_drop, length_app in Hd. unfold blen in *. lia. }
    pose proof (blen_nonneg rest). assert (4 <= blen pkt) by apply Hs.
    assert (Hd' : drop (Z.to_nat (offset + blen pkt)) buf = rest).
    { rewrite Z2Nat.inj_add, <-drop_drop, Hd by lia. unfold blen. rewrite Nat2Z.id. apply drop_app_length. }
    assert (forall w', exists pkts tail, rest = mjoin pkts ++ tail /\ Forall subpacket pkts /\
      no_packet tail /\ rtcp_walk fuel chain buf (offset + blen pkt) w' = mfoldl (dispatch l) pkts w') as Hw'.
    { intros w'. destruct (IH (offset + blen pkt) w' Hc Hb ltac:(lia) ltac:(lia)) as (pkts & tail & ?).
      exists pkts, tail. by rewrite <-Hd'. }
    destruct (dispatch l pkt w) as [w'|e|] eqn:Ew;
      [destruct (Hw' w') as (pkts & tail & -> & HF & Hn & E)|destruct (Hw' w) as (pkts & tail & -> & HF & Hn & E)..];
      exists (pkt :: pkts), tail; cbn [mjoin list_join mfoldl]; rewrite Ew, Hd, <-app_assoc; split_and!; auto.
Qed.

(** C23: Compound packets are taken apart exactly.  Every received buffer is a
    sequence of RTCP packets followed by bytes that do not start one; the
    session gives each of these packets, in order, to every interceptor of the
    chain, in the order they were added, and touches nothing else. *)
Theorem compound_rtcp_dispatch chain l buf w :
  chain_repr chain l -> bytes_ok buf -> ready (session (med w)) = true ->
  exists pkts tail, buf = mjoin pkts ++ tail /\ Forall subpacket pkts /\ no_packet tail /\
    rtc_media_session_handle_rtcp chain buf w = mfoldl (dispatch l) pkts w.
Proof.
  intros Hc Hb Hr. unfold rtc_media_session_handle_rtcp. rewrite Hr.
  destruct (rtcp_walk_spec chain l buf (S (length buf)) 0 w Hc Hb) as (pkts & tail & Hd & ?);
    [unfold blen; lia..|].
  exists pkts, tail. by rewrite drop_0 in Hd.
Qed.
End Walk.

(** ** Resolving an unbound SSRC *)

(** the session's receive streams are [ids], all of them alive *)
Record receivers (m : media) (ids : list Z) : Prop := {
  rv_ready : ready (session m) = true;
  rv_vec : Vec.vec_repr (recv_streams (session m)) ids;
  rv_live : Forall (fun id => is_Some (recv_store m !! id)) ids
}.

(** the first of [ids] whose stream satisfies [p] *)
Fixpoint first_recv (m : media) (p : rtc_rtp_recv_stream_t -> bool) (ids : list Z) : option Z :=
  match ids with
  | [] => None
  | id :: ids =>
      match recv_store m !! id with
      | Some rs => if p rs then Some id else first_recv m p ids
      | None => None
      end
  end.

Lemma find_recv_spec m p ids : receivers m ids -> forall post pre,
  ids = pre ++ post -> find_recv (length post) (blen pre) m p = Ok (first_recv m p post).
Proof.
  intros [_ Hv Hl]. induction post as [|id post IH]; intros pre Hids; [done|].
  cbn [length find_recv first_recv]. unfold session_recv_at.
  rewrite (Vec.at_spec _ _ _ Hv) by apply blen_nonneg.
  assert (Hi : ids !! Z.to_nat (blen pre) = Some id).
  { rewrite Hids. unfold blen. rewrite Nat2Z.id. by apply list_lookup_middle. }
  rewrite Hi. cbn [fmap option_fmap option_map mbind res_bind].
  rewrite Forall_lookup in Hl. destruct (Hl _ _ Hi) as [rs Hrs]. unfold deref. rewrite Hrs.
  simpl. destruct (p rs); [done|]. specialize (IH (pre ++ [id])). rewrite blen_app in IH. apply IH.
  by rewrite <-app_assoc.
Qed.

Lemma find_recv_all m p ids :
  receivers m ids ->
  find_recv (Z.to_nat (Vec.rtc_vec_len (recv_streams (session m)))) 0 m p = Ok (first_recv m p ids).
Proof.
  intros Hr. unfold Vec.rtc_vec_len. rewrite (Vec.vr_len _ _ (rv_vec _ _ Hr)). unfold blen.
  rewrite Nat2Z.id. by apply (find_recv_spec m p ids Hr ids []).
Qed.

(** the receive stream [id] takes packets of payload type [pt]; its MID is [s] *)
Definition takes (m : media) (pt : Z) (id : Z) : bool :=
  match recv_store m !! id with Some rs => rtc_rtp_recv_stream_can_receive rs pt | None => false end.
Definition has_the_mid (m : media) (s : bytes) (id : Z) : bool :=
  match recv_store m !! id with Some rs => bool_decide (rtc_rtp_recv_stream_mid rs = Some s) | None => false end.

(** the stream a packet with MID [s] and payload type [pt] belongs to: the
    first one with that MID that takes it, else the first one that takes it *)
Definition chosen (m : media) (ids : list Z) (s : bytes) (pt : Z) : option Z :=
  head (filter (fun id => has_the_mid m s id && takes m pt id = true) ids ++ filter (fun id => takes m pt id = true) ids).

Lemma chosen_live m ids s pt id : chosen m ids s pt = Some id -> is_Some (recv_store m !! id).
Proof.
  unfold chosen. intros (l & E)%head_Some. assert (id ∈ filter (fun id => has_the_mid m s id && takes m pt id = true) ids ++
    filter (fun id => takes m pt id = true) ids) as Hin by (rewrite E; left).
  apply elem_of_app in Hin as [[Ht _]%list_elem_of_filter|[Ht _]%list_elem_of_filter].
  - apply andb_true_iff in Ht as [_ Ht]. unfold takes in Ht. by destruct (recv_store m !! id).
  - unfold takes in Ht. by destruct (recv_store m !! id).
Qed.

Lemma first_recv_filter m p (q : Z -> bool) ids :
  Forall (fun id => is_Some (recv_store m !! id)) ids ->
  (forall id rs, recv_store m !! id = Some rs -> q id = p rs) ->
  first_recv m p ids = head (filter (fun id => q id = true) ids).
Proof.
  intros HF Hq. induction HF as [|id ids [rs Hrs] _ IH]; [done|].
  cbn [first_recv]. rewrite Hrs, filter_cons, <-(Hq id rs Hrs). destruct (q id) eqn:E.
  - by rewrite decide_True.
  - by rewrite decide_False.
Qed.

Lemma cstr_no_nul s : Forall (fun b => 0 < b < 256) s -> cstr s = s.
Proof.
  induction 1 as [|b s Hb _ IH]; [done|]. cbn [cstr]. rewrite (proj2 (Z.eqb_neq b 0)) by lia.
  by rewrite IH.
Qed.

(** a MID: up to 16 bytes, none of them NUL *)
Definition mid_ok (s : bytes) : Prop := 0 < blen s <= 16 /\ Forall (fun b => 0 < b < 256) s.

Lemma make_mid i s e :
  mid_ok s -> RtpExt.rtc_rtp_ext_make_string i (Some s) = Ok e ->
  RtpExt.id e = i /\ RtpExt.norm e = RtpExt.Ext i (blen s) s.
Proof.
  intros [Hl _]. unfold RtpExt.rtc_rtp_ext_make_string, RtpExt.RTC_RTP_EXT_MAX_DATA.
  rewrite (proj2 (Z.ltb_ge _ _)), (proj2 (Z.eqb_neq (blen s) 0)) by lia. cbv zeta.
  rewrite (sub_mid [] s [0]) by done. rewrite (bind_Ok_l (Ok _) _ _ eq_refl). intros [= <-].
  split; [done|]. unfold RtpExt.norm. simpl. unfold u8. rewrite Z.mod_small by lia. f_equal.
  unfold blen. rewrite Nat2Z.id. apply take_app_length.
Qed.

Lemma find_mid i pre e post :
  RtpExt.id e = i -> Forall (fun x => RtpExt.id x <> i) pre ->
  RtpExt.rtc_rtp_ext_find (RtpExt.norm <$> (pre ++ e :: post)) i = Some (RtpExt.norm e).
Proof.
  intros He. induction 1 as [|x pre Hx _ IH]; cbn [fmap list_fmap app RtpExt.rtc_rtp_ext_find].
  - cbn [RtpExt.norm RtpExt.id]. by rewrite He, Z.eqb_refl.
  - cbn [RtpExt.norm RtpExt.id]. rewrite (proj2 (Z.eqb_neq _ _) Hx). exact IH.
Qed.

(** the MID read back from the extensions of a packet *)
Lemma get_mid i s e d pre post :
  mid_ok s -> 1 <= i <= 14 -> RtpExt.rtc_rtp_ext_make_string i (Some s) = Ok e ->
  Forall (fun x => RtpExt.id x <> i) pre -> 0 < blen d ->
  RtpExt.rtc_rtp_ext_parse_body d (blen d) RtpExt.RTC_RTP_EXT_MAX_ENTRIES =
    Ok (RtpExt.norm <$> (pre ++ e :: post)) ->
  RtpExt.rtc_rtp_ext_get_string (Some d) (blen d) i RTC_RTP_MID_MAX = Ok s.
Proof.
  intros Hs Hi He Hpre Hd Hp. destruct (make_mid _ _ _ Hs He) as [Hid Hnorm].
  unfold RtpExt.rtc_rtp_ext_get_string.
  rewrite (proj2 (Z.eqb_neq (blen d) 0)), (proj2 (Z.eqb_neq i 0)) by lia. cbn [orb].
  rewrite Hp, (find_mid i pre e post Hid Hpre), Hnorm.
  unfold RtpExt.rtc_rtp_ext_read_string, RTC_RTP_MID_MAX, RtpExt.RTC_RTP_EXT_MAX_DATA.
  change (17 =? 0) with false. cbv zeta. cbn [RtpExt.len RtpExt.data]. destruct Hs as [Hl _].
  rewrite (proj2 (Z.ltb_ge 16 (blen s))), (proj2 (Z.ltb_ge _ _)) by lia. rewrite <-(app_nil_r s) at 1. by apply (sub_mid [] s []).
Qed.

(** C24: Bundled streams are told apart by MID.  A packet built with the MID
    extension among its header extensions, when it arrives with an SSRC that
    is not bound yet, is resolved to the first receive stream with that MID
    that takes its payload type (a stream that is active and has a frame
    callback), even if other streams of the session take the same payload
    type; without such a stream it goes to the first one that takes the payload
    type, and without that to none.  The stream takes over the SSRC. *)
Theorem mid_routes_bundled old m ids pt sq ts sc mk pre e post pl s :
  receivers m ids ->
  0 <= pt < 128 -> 0 <= sq < 2 ^ 16 -> 0 <= ts < 2 ^ 32 -> 0 <= sc < 2 ^ 32 -> blen pl <= Rtp.RTP_MAX_PACKET ->
  mid_ok s -> RtpExt.rtc_rtp_ext_make_string (mid_ext_id (session m)) (Some s) = Ok e ->
  Forall (fun x => RtpExt.id x <> mid_ext_id (session m)) pre ->
  Rtp.exts_fit (pre ++ e :: post) -> blen (pre ++ e :: post) <= RtpExt.RTC_RTP_EXT_MAX_ENTRIES ->
  exists p p', Rtp.rtc_rtp_build_with_ext pt sq ts sc mk (pre ++ e :: post) pl = Ok p /\
    Rtp.rtc_rtp_parse old (Rtp.buf p) = Ok p' /\
    match chosen m ids s pt with
    | Some id => exists rs, recv_store m !! id = Some rs /\
        rtc_media_session_resolve p' m = Ok (with_receiver m id (rtc_rtp_recv_stream_set_ssrc rs sc) [], Some id)
    | None => rtc_media_session_resolve p' m = Ok (m, None)
    end.
Proof.
  intros Hr Hpt Hsq Hts Hsc Hpl Hs He Hpre Hfit Hn.
  destruct (Rtp.build_parse old pt sq ts sc mk _ pl _ Hpt Hsq Hts Hsc Hfit Hn Hpl) as
    (p & p' & Hb & _ & Hp & Hh & _ & _ & Hext & Hne).
  destruct Hne as (d & Hd & Hdl & Hd0); [by destruct pre|]. rewrite Hd, Hdl in Hext. simpl in Hext.
  assert (Hi : 1 <= mid_ext_id (session m) <= 14).
  { destruct Hfit as [HF _]. apply Forall_app in HF as [_ HF]. apply Forall_cons_1 in HF as [HF _].
    rewrite <-(proj1 (make_mid _ _ _ Hs He)). apply HF. }
  exists p, p'. split_and!; [done|done|].
  enough (rtc_media_session_resolve p' m =
    match chosen m ids s pt with Some id => resolved id sc m | None => Ok (m, None) end) as ->.
  { destruct (chosen m ids s pt) as [id|] eqn:Ec; [|done]. apply chosen_live in Ec as [rs Hrs].
    exists rs. split; [done|]. unfold resolved, deref. by rewrite Hrs. }
  unfold rtc_media_session_resolve.
  rewrite (rv_ready _ _ Hr), Hh, Hd, Hdl. cbn [negb Rtp.extension Rtp.payload_type Rtp.ssrc].
  rewrite (proj2 (Z.ltb_lt 0 (blen (pre ++ _)))) by (lens; pose proof (blen_nonneg pre);
    pose proof (blen_nonneg post); lia).
  rewrite (proj2 (Z.eqb_neq (mid_ext_id _) 0)), (proj2 (Z.eqb_neq (blen d) 0)) by lia.
  rewrite bool_decide_eq_true_2 by done. cbn [negb andb]. cbv zeta.
  step (get_mid _ s e d pre post Hs Hi He Hpre Hd0 Hext).
  rewrite (proj2 (Z.ltb_lt 0 (blen s))) by (destruct Hs; lia). rewrite !(find_recv_all m _ ids Hr).
  assert (forall id rs, recv_store m !! id = Some rs -> takes m pt id = rtc_rtp_recv_stream_can_receive rs pt) as Hpt'
    by (intros id rs Hrs; unfold takes; by rewrite Hrs).
  rewrite (first_recv_filter m (fun rs => rtc_rtp_recv_stream_can_receive rs pt) (takes m pt) ids (rv_live _ _ Hr) Hpt').
  rewrite (first_recv_filter m (fun rs => rtc_rtp_recv_stream_mid_matches rs (cstr s) && rtc_rtp_recv_stream_can_receive rs pt)
    (fun id => has_the_mid m s id && takes m pt id) ids (rv_live _ _ Hr)).
  - unfold chosen. cbn [mbind res_bind]. by destruct (filter (fun id => has_the_mid m s id && takes m pt id = true) ids) as [|id l];
      [destruct (filter _ ids)|].
  - intros id rs Hrs. unfold has_the_mid, takes. rewrite Hrs. f_equal.
    unfold rtc_rtp_recv_stream_mid, rtc_rtp_recv_stream_mid_matches. rewrite cstr_no_nul by apply Hs.
    destruct (has_mid rs); [|done]. apply bool_decide_ext. naive_solver.
Qed.

(** ** Feedback reaches the stream it names *)

Lemma subpacket_prefix p1 p2 r1 r2 :
  subpacket p1 -> subpacket p2 -> p1 ++ r1 = p2 ++ r2 -> p1 = p2 /\ r1 = r2.
Proof.
  intros (H1 & _ & L1) (H2 & _ & L2) E. assert (blen p1 = blen p2).
  { assert (Hat : forall i, (i < 4)%nat -> p1 !!! i = p2 !!! i).
    { intros i Hi. unfold blen in *. apply (f_equal (fun l => l !!! i)) in E.
      rewrite !list_lookup_total_alt, !lookup_app_l in E by lia. by rewrite !list_lookup_total_alt. }
    rewrite L1, L2. unfold rtcp_size. by rewrite !Hat by lia. }
  apply app_inj_1 in E; [done|]. unfold blen in *. lia.
Qed.

Lemma subpacket_not_no_packet p r : subpacket p -> ~ no_packet (p ++ r).
Proof.
  intros (H4 & Hv & Hs). assert (Hat : forall i, (i < 4)%nat -> (p ++ r) !!! i = p !!! i).
  { intros i Hi. unfold blen in *. rewrite !list_lookup_total_alt, lookup_app_l by lia. done. }
  unfold no_packet, rtcp_version, rtcp_size in *. rewrite !Hat by lia. rewrite blen_app.
  pose proof (blen_nonneg r). intros [?|[?|?]]; [lia|done|lia].
Qed.

(** there is only one way to take a compound packet apart *)
Lemma compound_unique pkts : forall pkts' tail',
  Forall subpacket pkts -> Forall subpacket pkts' -> no_packet tail' ->
  mjoin pkts = mjoin pkts' ++ tail' -> pkts = pkts'.
Proof.
  induction pkts as [|p pkts IH]; intros pkts' tail' HF HF' Ht E.
  - destruct pkts' as [|p' pkts']; [done|]. apply Forall_cons_1 in HF' as [(H4 & _) _].
    cbn [mjoin list_join] in E. destruct p'; [rewrite blen_nil in H4; lia|done].
  - apply Forall_cons_1 in HF as [Hp HF]. cbn [mjoin list_join] in E.
    destruct pkts' as [|p' pkts']; [cbn in E; subst; by apply subpacket_not_no_packet in Ht|].
    apply Forall_cons_1 in HF' as [Hp' HF']. cbn [mjoin list_join] in E. rewrite <-app_assoc in E.
    apply subpacket_prefix in E as [-> E]; [|done|done]. f_equal. by eapply IH.
Qed.

Section Feedback.
Context {T K : Type} {STr : SessionTransport T} {Wk : WorkerOps K} {laws : TransportLaws T}.

Lemma handle_rtcp_packets chain l pkts (w : world T K) :
  chain_repr chain l -> bytes_ok (mjoin pkts) -> ready (session (med w)) = true -> Forall subpacket pkts ->
  rtc_media_session_handle_rtcp chain (mjoin pkts) w = mfoldl (dispatch l) pkts w.
Proof.
  intros Hc Hb Hr HF. unfold rtc_media_session_handle_rtcp. rewrite Hr. cbn [negb].
  destruct (rtcp_walk_spec chain l (mjoin pkts) (S (length (mjoin pkts))) 0 w Hc Hb)
    as (pkts' & tail & Hd & HF' & Ht & ->); [unfold blen; lia..|].
  rewrite drop_0 in Hd. by rewrite (compound_unique pkts pkts' tail).
Qed.

Lemma fb_subpacket fmt pt len ws rest :
  0 <= fmt < 32 -> 0 <= pt < 256 -> bytes_ok rest -> blen (Rtcp.words ws) + blen rest = 4 * len -> len < 2 ^ 16 ->
  let b := RtcpFb.fb_bytes fmt pt len ws rest in
  subpacket b /\ bytes_ok b /\ b !!! 1%nat = pt /\ Z.land (b !!! 0%nat) 31 = fmt.
Proof.
  intros Hf Hp Hr Hl Hn b. pose proof (blen_nonneg rest). pose proof (blen_nonneg (Rtcp.words ws)).
  assert (E : Z.lor (Z.shiftl 2 6) fmt = 2 * 2 ^ 6 + fmt) by (apply lor_shiftl_add; lia).
  assert (Hb : bytes_ok b).
  { unfold b, RtcpFb.fb_bytes. repeat apply Forall_app_2; auto.
    - rewrite E. repeat constructor; unfold byte_ok; lia.
    - apply be16_ok.
    - apply Forall_join. apply Forall_fmap, Forall_forall. intros x _. apply be32_ok. }
  assert (Hs : rtcp_size b = 4 * (len + 1)).
  { unfold rtcp_size. change (b !!! 2%nat) with (Z.land (Z.shiftr len 8) 255).
    change (b !!! 3%nat) with (Z.land len 255). bits_to_arith. pow_eval. dlia. }
  split_and!; [|done|done|].
  - split; [|split].
    + unfold b, RtcpFb.fb_bytes. lens. lia.
    + unfold rtcp_version. change (b !!! 0%nat) with (Z.lor (Z.shiftl 2 6) fmt). rewrite E. dlia.
    + rewrite Hs. unfold b, RtcpFb.fb_bytes. rewrite !blen_app.
      change (blen [Z.lor (Z.shiftl 2 6) fmt; pt]) with 2. rewrite blen_be16. lia.
  - change (b !!! 0%nat) with (Z.lor (Z.shiftl 2 6) fmt). rewrite E. bits_to_arith. pow_eval. dlia.
Qed.

Lemma occ_absent i ks : i ∉ ks -> occ i ks = 0.
Proof.
  induction ks as [|j ks IH]; intros Hi; [done|]. apply not_elem_of_cons in Hi as [Hne Hi].
  rewrite occ_cons, (proj2 (Z.eqb_neq j i)) by done. by rewrite IH.
Qed.

Lemma occ_NoDup ks i : NoDup ks -> occ i ks <= 10.
Proof.
  intros Hd. assert (occ i ks <= 1); [|lia]. induction Hd as [|j ks Hj Hd IH]; [done|].
  rewrite occ_cons. destruct (Z.eqb_spec j i) as [->|]; [|lia].
  rewrite occ_absent by done. lia.
Qed.

(** only the NACK handler of the built-in chain reacts to a NACK *)
Lemma dispatch_nack b (w : world T K) :
  b !!! 1%nat = Rtcp.RTCP_PT_RTPFB -> Z.land (b !!! 0%nat) 31 = RtcpFb.RTCP_FMT_NACK ->
  dispatch [report_ops; nack_ops; pli_ops] b w = session_handle_nack b w.
Proof.
  intros E1 E2. unfold dispatch. rewrite E1, E2. cbn [mfoldl call_rtcp on_rtcp report_ops nack_ops pli_ops].
  change (report_intercept_rtcp Rtcp.RTCP_PT_RTPFB RtcpFb.RTCP_FMT_NACK b w) with (Ok w).
  rewrite (bind_Ok_l (Ok w) _ _ eq_refl).
  change (nack_intercept_rtcp Rtcp.RTCP_PT_RTPFB RtcpFb.RTCP_FMT_NACK b w) with (session_handle_nack b w).
  by destruct (session_handle_nack b w).
Qed.

Lemma nack_feedback_run (w : world T K) chain g id s t q nb ps s' ks sender cap :
  sending (s, t) -> nack_buf s = Some nb -> NackBuf.buf_ok nb -> NackBuf.capacity nb <= 2 ^ 16 ->
  Rtp.s_seq (rtp_session s) = u16 q -> Rtcp.u32_ok (rtc_rtp_send_stream_ssrc s) ->
  send_all ps (s, t) = ((s', tr w), Ok ()) ->
  ready (session (med w)) = true -> U32Map.u32_repr (send_streams (session (med w))) g ->
  g !! rtc_rtp_send_stream_ssrc s = Some (Some id) -> send_store (med w) !! id = Some s' ->
  chain_repr chain [report_ops; nack_ops; pli_ops] ->
  Forall (fun i => 0 <= i < blen ps /\ blen ps - NackBuf.capacity nb <= i) ks ->
  NoDup ((fun i => u16 (q + i)) <$> ks) -> ks <> [] -> blen ks <= 64 ->
  Rtcp.u32_ok sender -> 268 <= cap ->
  exists b outs w' ks',
    RtcpFb.rtc_rtcp_build_nack cap sender (rtc_rtp_send_stream_ssrc s) ((fun i => u16 (q + i)) <$> ks) = Ok b /\
    length outs = length ps /\ transport_sent (tr w) = transport_sent t ++ outs /\
    rtc_media_session_handle_rtcp chain b w = Ok w' /\ ks' ≡ₚ ks /\
    transport_sent (tr w') = transport_sent (tr w) ++ omap (fun i => outs !! Z.to_nat i) ks'.
Proof.
  intros Hp Hnb Hbuf Hcap Hseq Hssrc Hsend Hready Hmap Hg Hst Hchain HF Hd Hne Hlen Hsender Hc.
  set (seqs := (fun i => u16 (q + i)) <$> ks) in *.
  destruct (RtcpFb.nack_build_parse cap sender (rtc_rtp_send_stream_ssrc s) seqs) as
    (b & lost & rest & Hb & _ & _ & _ & Hparse & _ & _ & Hperm & fs & Hfb & Hfs); try done.
  { intros E%fmap_nil_inv. done. }
  { apply Forall_fmap, Forall_forall. intros i _. apply u16_range. }
  specialize (Hperm ltac:(unfold seqs; rewrite Vec.blen_fmap; done)).
  destruct (fb_subpacket RtcpFb.RTCP_FMT_NACK Rtcp.RTCP_PT_RTPFB (2 + blen fs)
    [sender; rtc_rtp_send_stream_ssrc s] (mjoin (RtcpFb.write_fci <$> fs))) as (Hsub & Hbok & E1 & E2).
  { done. } { done. }
  { apply Forall_join, Forall_fmap, Forall_forall. intros f _. apply Forall_app_2; apply be16_ok. }
  { rewrite RtcpFb.blen_fcis. change (blen (Rtcp.words _)) with 8. lia. }
  { change RtcpFb.RTCP_NACK_MAX_FCIS with 64 in Hfs. lia. }
  rewrite <-Hfb in Hsub, Hbok, E1, E2.
  destruct (Permutation_map_inv _ _ Hperm) as (ks' & Hlost & Hks).
  destruct (nack_resends s t q nb ps s' (tr w) ks' Hp Hnb Hbuf Hcap Hseq Hsend) as
    (outs & s'' & t'' & Hol & Hsent & Hh & Hsent').
  { by rewrite <-Hks. }
  { intros i. apply occ_NoDup. rewrite <-Hks. by eapply NoDup_fmap_1. }
  { intros ->. by apply Permutation_nil_r in Hks. }
  exists b, outs, (World (with_sender (med w) id s'' (if on_nack s then [OnNack lost] else [])) t'' (wk w)), ks'.
  split_and!; try done.
  assert (Hrun := handle_rtcp_packets chain _ [b] w Hchain).
  cbn [mjoin list_join] in Hrun. rewrite app_nil_r in Hrun.
  rewrite Hrun by (done || by apply Forall_singleton). cbn [mfoldl].
  rewrite (dispatch_nack b w E1 E2). unfold session_handle_nack. rewrite Hparse.
  cbn [attempt]. rewrite (bind_Ok_l (Ok _) _ _ eq_refl). cbn [RtcpFb.nk_media_ssrc RtcpFb.lost_seqs].
  unfold session_sender. rewrite (U32Map.get_spec None _ _ _ Hmap), Hg.
  cbn [default from_option]. unfold sender_handle_nack, deref.
  simpl. rewrite Hst. simpl.
  change ((fun i => u16 (q + i)) <$> ks') with (map (fun i => u16 (q + i)) ks') in Hh.
  rewrite Hlost, Hh. done.
Qed.

(** C6: A lost packet is recovered end to end.  A stream registered with the
    session sends any packets; the peer builds a NACK for up to 64 of those
    still in the retransmission buffer; when it arrives, the session takes it
    apart, finds the stream by its SSRC, and exactly the datagrams named in
    the NACK are sent again, unchanged. *)
Theorem nack_feedback_end_to_end (w : world T K) chain g id s t q nb ps s' ks sender cap :
  sending (s, t) -> nack_buf s = Some nb -> NackBuf.buf_ok nb -> NackBuf.capacity nb <= 2 ^ 16 ->
  Rtp.s_seq (rtp_session s) = u16 q -> Rtcp.u32_ok (rtc_rtp_send_stream_ssrc s) ->
  send_all ps (s, t) = ((s', tr w), Ok ()) ->
  ready (session (med w)) = true -> U32Map.u32_repr (send_streams (session (med w))) g ->
  g !! rtc_rtp_send_stream_ssrc s = Some (Some id) -> send_store (med w) !! id = Some s' ->
  chain_repr chain [report_ops; nack_ops; pli_ops] ->
  Forall (fun i => 0 <= i < blen ps /\ blen ps - NackBuf.capacity nb <= i) ks ->
  NoDup ((fun i => u16 (q + i)) <$> ks) -> ks <> [] -> blen ks <= 64 ->
  Rtcp.u32_ok sender -> 268 <= cap ->
  exists b outs w' ks',
    RtcpFb.rtc_rtcp_build_nack cap sender (rtc_rtp_send_stream_ssrc s) ((fun i => u16 (q + i)) <$> ks) = Ok b /\
    length outs = length ps /\ transport_sent (tr w) = transport_sent t ++ outs /\
    rtc_media_session_handle_rtcp chain b w = Ok w' /\ ks' ≡ₚ ks /\
    transport_sent (tr w') = transport_sent (tr w) ++ omap (fun i => outs !! Z.to_nat i) ks'.
Proof. apply nack_feedback_run. Qed.
End Feedback.

(** ** Witnesses *)

#[export] Instance toy_session_transport : SessionTransport toy_transport := {
  transport_rtp_bound t ssrc := Ok None;
  transport_bind_rtp alloc ssrc id t := (t, Ok ());
  transport_report_rtcp_loss f t := Ok t
}.
#[export] Instance toy_worker : WorkerOps Z := {
  worker_add_timer d k := (k + 1, Ok (k + 1));
  worker_cancel_timer h k := (k, Ok ())
}.

Definition builtin_chain : rtc_interceptor_chain_t (world toy_transport Z) :=
  Chain ([Some report_ops; Some nack_ops; Some pli_ops] ++ replicate 5 None) 3.

Lemma builtin_chain_repr : chain_repr builtin_chain [report_ops; nack_ops; pli_ops].
Proof. split; [reflexivity|reflexivity|reflexivity|vm_compute; discriminate]. Qed.

Definition senders9 : U32Map.rtc_u32_map_t (option Z) :=
  (U32Map.rtc_u32_map_set None true 9 (Some 5) U32Map.rtc_u32_map_init).1.

Lemma senders9_repr : U32Map.u32_repr senders9 {[9 := Some 5]}.
Proof.
  unfold senders9.
  destruct (U32Map.set_spec None U32Map.rtc_u32_map_init (∅ : gmap Z (option Z)) true 9 (Some 5))
    as (m' & [(-> & ? & _)|(_ & _ & _ & [?|Hc])]); [by left|done|done|vm_compute in Hc; congruence].
Qed.

Definition receivers12 : @Vec.rtc_vec_t Z := Vec.Vec ([Some 1; Some 2] ++ replicate 6 None) 2 8 8.
Definition session0 : rtc_media_session_t := Session true true senders9 receivers12 0 4 false true.
Definition recv_of (m : bytes) : rtc_rtp_recv_stream_t :=
  RecvStream 96 90000 true 0 m true (Rtcp.rtc_rtcp_stats_init 1 0) true.
Definition media0 (s : rtc_rtp_send_stream_t) : media :=
  Media session0 {[5 := s]} {[1 := recv_of [48]; 2 := recv_of [49]]} [] (Clock 1000 1000000 5000).

Lemma compound_rtcp_dispatch_witness :
  let buf := [0x81; 206; 0; 2; 0; 0; 0; 1; 0; 0; 0; 9; 0x80; 200; 0] in
  let w := World (media0 stream0) toy0 0 in
  exists pkts tail, buf = mjoin pkts ++ tail /\ Forall subpacket pkts /\ no_packet tail /\
    rtc_media_session_handle_rtcp builtin_chain buf w =
      mfoldl (dispatch [report_ops; nack_ops; pli_ops]) pkts w.
Proof.
  intros buf w. apply (compound_rtcp_dispatch builtin_chain [report_ops; nack_ops; pli_ops] buf w).
  - exact builtin_chain_repr.
  - apply bytes_okb_ok. reflexivity.
  - reflexivity.
Defined.

Lemma mid_routes_bundled_witness :
  let e := RtpExt.Ext 4 1 (49 :: replicate 15 0) in
  let m := media0 stream0 in
  exists p p', Rtp.rtc_rtp_build_with_ext 96 7 8 1234 true ([] ++ e :: []) [1; 2] = Ok p /\
    Rtp.rtc_rtp_parse [] (Rtp.buf p) = Ok p' /\
    exists rs, recv_store m !! 2 = Some rs /\
      rtc_media_session_resolve p' m = Ok (with_receiver m 2 (rtc_rtp_recv_stream_set_ssrc rs 1234) [], Some 2).
Proof.
  intros e m. apply (mid_routes_bundled [] m [1; 2] 96 7 8 1234 true [] e [] [1; 2] [49]);
    try (vm_compute; split; congruence); try (vm_compute; congruence); try reflexivity.
  - split; [reflexivity| |repeat constructor; eexists; reflexivity].
    split; try reflexivity; try (vm_compute; congruence).
    right. exists 3. split; [lia|reflexivity].
  - split; [vm_compute; split; congruence|]. repeat constructor.
  - constructor.
  - split; [repeat constructor; vm_compute; congruence|vm_compute; congruence].
Defined.

Lemma nack_feedback_end_to_end_witness :
  let ps := [(1, [1], 10, true); (2, [2], 10, true); (3, [3], 10, true)] in
  exists s1 t1 b outs w' ks', send_all ps (stream0, toy0) = ((s1, t1), Ok ()) /\
    RtcpFb.rtc_rtcp_build_nack 300 77 9 [1; 0] = Ok b /\
    length outs = 3%nat /\ toy_sent t1 = [] ++ outs /\
    rtc_media_session_handle_rtcp builtin_chain b (World (media0 s1) t1 0) = Ok w' /\ ks' ≡ₚ [2; 1] /\
    toy_sent (tr w') = toy_sent t1 ++ omap (fun i => outs !! Z.to_nat i) ks'.
Proof.
  intros ps. destruct (send_all ps (stream0, toy0)) as [[s1 t1] r] eqn:E.
  assert (r = Ok ()) as -> by (apply (f_equal snd) in E; vm_compute in E; congruence).
  exists s1, t1.
  destruct (nack_feedback_end_to_end (World (media0 s1) t1 0) builtin_chain {[9 := Some 5]} 5 stream0
    toy0 65535 RtpStream.buf4 ps s1 [2; 1] 77 300) as (b & outs & w' & ks' & H1 & H2 & H3 & H4 & H5 & H6).
  - constructor; [reflexivity|reflexivity|reflexivity|exact I|vm_compute; reflexivity].
  - reflexivity.
  - split; [exists 2; split; [lia|reflexivity]|reflexivity|reflexivity].
  - vm_compute. discriminate.
  - reflexivity.
  - split; vm_compute; congruence.
  - exact E.
  - reflexivity.
  - exact senders9_repr.
  - reflexivity.
  - reflexivity.
  - exact builtin_chain_repr.
  - repeat constructor; vm_compute; congruence.
  - apply (bool_decide_unpack _). vm_compute. exact I.
  - discriminate.
  - vm_compute. discriminate.
  - split; vm_compute; congruence.
  - vm_compute. discriminate.
  - exists b, outs, w', ks'. exact (conj eq_refl (conj H1 (conj H2 (conj H3 (conj H4 (conj H5 H6)))))).
Defined.
End MediaSession.
