(* ===== verification/TransportSession.v ===== *)
(** * The transport implements what streams and sessions rely on

    The laws [TransportLaws] that the theorems on streams and media sessions
    assume of a transport hold of [Transport.link]; so those theorems hold over
    the real transport.  Sending a packet makes one datagram to the selected
    address. *)

From S2P Require Import Prelude Bwe Srtp SrtpSession RtpExt Rtp Rtcp RtcpFb Twcc U32Map Vec NackBuf RtpDemux Stun.
From S2P Require Import Text PacketIo Dtls Listener Transport TransportSpec Interceptor.
From S2P Require Import RtpStream MediaSession.
From Stdlib Require Import ZArith Lia.
From stdpp Require Import base list numbers gmap.
#[local] Open Scope Z_scope.

Module TransportSession.
Import PacketIo Listener Transport TransportSpec.

Section Instance.
Context {X App : Type} {kern : Kernel} {evp : Srtp.Evp}.

(** the callback of the estimator is the application's and not part of the
    link *)
#[export] Instance link_ops : RtpStream.TransportOps (link X App) := {|
  RtpStream.transport_send_rtp := rtc_transport_send_rtp;
  RtpStream.transport_send_rtcp := rtc_transport_send_rtcp;
  RtpStream.transport_send_raw := rtc_transport_send_raw;
  RtpStream.transport_twcc_enabled p := twcc_enabled (cc p.1);
  RtpStream.transport_twcc p := twcc_sender (cc p.1);
  RtpStream.transport_set_twcc p s := (with_cc p.1 (cc_set_sender (cc p.1) s), p.2)
|}.

#[export] Instance link_session : MediaSession.SessionTransport (link X App) := {|
  MediaSession.transport_rtp_bound := rtc_transport_rtp_bound;
  MediaSession.transport_bind_rtp := rtc_transport_bind_rtp;
  MediaSession.transport_report_rtcp_loss f p :=
    match report_loss f p with (p, Ok _) => Ok p | (_, Err e) => Err e | (_, Fault) => Fault end
|}.

Context {elaws : Srtp.EvpLaws}.

(** ** What [rtc_srtp_protect] may add *)

Lemma ctr_length k iv d ct : Srtp.evp_aes_128_ctr k iv d = Ok ct -> blen ct = blen d.
Proof. destruct (Srtp.ctr_xor k iv) as [ks ->]. intros [= <-]. unfold blen. by rewrite length_imap. Qed.

Lemma protect_fits c buf cap c' out : Srtp.rtc_srtp_protect buf cap c = (c', Ok out) -> blen out <= cap.
Proof.
  unfold Srtp.rtc_srtp_protect. intros (c0 & ? & [= <- <-] & H)%st_bind_Ok.
  apply st_bind_Ok in H as (? & ? & [_ ->]%lift_Ok & H). apply st_bind_Ok in H as (? & ? & [_ ->]%lift_Ok & H).
  destruct (Srtp.srtp_is_gcm _).
  - unfold Srtp.srtp_protect_gcm in H.
    apply st_bind_Ok in H as (? & ? & [[_ Hc%Z.ltb_ge]%fail_if_Ok%orb_false_iff ->]%lift_Ok & H).
    apply st_bind_Ok in H as (? & ? & _ & H). apply st_bind_Ok in H as (? & ? & _ & H).
    apply st_bind_Ok in H as (rc & c1 & _ & H). apply st_bind_Ok in H as (hl & ? & [_ ->]%lift_Ok & H).
    apply st_bind_Ok in H as (? & ? & [= <- <-] & H). apply st_bind_Ok in H as (hdr & ? & [Hh%sub_length ->]%lift_Ok & H).
    apply st_bind_Ok in H as (data & ? & [Hd%sub_length ->]%lift_Ok & H).
    apply st_bind_Ok in H as ([ct tag] & ? & [Hct ->]%lift_Ok & [= _ <-]).
    unfold Srtp.srtp_aes_gcm_enc in Hct. edestruct Srtp.gcm_ok as (ct' & tag' & E & L1 & L2 & _). rewrite E in Hct.
    injection Hct as <- <-. rewrite !blen_app. cbn [fst snd]. unfold blen in *. unfold Srtp.SRTP_GCM_TAG_LEN in Hc. lia.
  - apply st_bind_Ok in H as (? & ? & [[_ Hc%Z.ltb_ge]%fail_if_Ok%orb_false_iff ->]%lift_Ok & H).
    apply st_bind_Ok in H as (? & ? & _ & H). apply st_bind_Ok in H as (? & ? & _ & H).
    apply st_bind_Ok in H as (rc & c1 & _ & H). apply st_bind_Ok in H as (hl & ? & [_ ->]%lift_Ok & H).
    apply st_bind_Ok in H as (hdr & ? & [Hh%sub_length ->]%lift_Ok & H).
    apply st_bind_Ok in H as (data & ? & [Hd%sub_length ->]%lift_Ok & H).
    apply st_bind_Ok in H as (ct & ? & [Hct%ctr_length ->]%lift_Ok & H).
    apply st_bind_Ok in H as (hm & ? & _ & H). apply st_bind_Ok in H as (tag & ? & [Ht%sub_length ->]%lift_Ok & [= _ <-]).
    rewrite !blen_app. unfold Srtp.SRTP_AUTH_TAG_LEN in *. lia.
Qed.

Lemma send_raw_inv (p p' : link X App) d :
  rtc_transport_send_raw d p = (p', Ok ()) ->
  p'.1 = p.1 /\ 0 < blen d /\ sock (io p'.2) = sock (io p.2) /\
  sends (io p'.2) = sends (io p.2) ++ [Datagram (addr_map_v4 (selected_remote (ice p.1))) None d].
Proof.
  unfold rtc_transport_send_raw. intros (q & ? & [= <- <-] & H)%st_bind_Ok.
  apply st_bind_Ok in H as (? & ? & [Hd%fail_if_Ok%Z.eqb_neq ->]%lift_Ok & H).
  apply st_bind_Ok in H as (? & ? & [_ ->]%lift_Ok & H). pose proof (blen_nonneg d).
  unfold on_lis, rtc_listener_send_to, zoom, rtc_packet_io_send, send_closed, account in H.
  destruct (sock (io p.2)) eqn:Es; [|done]. destruct (kernel_send _ _) as [n wb].
  destruct (0 <? n); [|by destruct wb]. injection H as <-. split; [done|]. split; [lia|]. done.
Qed.

Context {kacc : KernelAccepts}.

#[export] Instance link_laws : RtpStream.TransportLaws (link X App).
Proof.
  refine {| RtpStream.transport_sent := sent_payloads; RtpStream.transport_up := link_up |}.
  - intros p b cap p' out H. cbn in H. unfold rtc_transport_send_rtp in H.
    apply st_bind_Ok in H as (q & ? & [= <- <-] & H). apply st_bind_Ok in H as (? & ? & [_ ->]%lift_Ok & H).
    apply st_bind_Ok in H as (o & p1 & E1 & H). apply st_bind_Ok in H as ([] & p2 & E2 & [= -> ->]).
    unfold on_srtp_send, zoom in E1. destruct (Srtp.rtc_srtp_protect b cap _) as [c' r] eqn:Ep.
    injection E1 as <- ->. apply protect_fits in Ep.
    destruct (send_raw_inv _ _ _ E2) as (T & Hd & Hso & Hs). cbn in T, Hso, Hs. unfold sent_payloads.
    split; [by rewrite Hs, fmap_app|]. split; [done|]. cbn. rewrite T. split; [done|].
    intros [Hv Hk]. constructor; [by rewrite T|by rewrite Hso].
  - intros p d Hup Hd. destruct (send_raw_run p d Hup Hd) as (l' & E & Hs & Hso & _).
    exists (p.1, l'). split; [exact E|]. split; [|split; [|done]].
    + destruct Hup as [Hv Hk]. constructor; [done|]. cbn. by rewrite Hso.
    + unfold sent_payloads. cbn. by rewrite Hs, fmap_app.
  - intros p s. split; [done|]. split; [done|]. intros [Hv Hk]. by constructor.
Defined.

(** The recovery of lost packets, over the real transport: the payloads of the
    datagrams the kernel gets. *)
Corollary nack_over_transport {K} {Wk : MediaSession.WorkerOps K} (w : MediaSession.world (link X App) K) chain g id s t q nb ps
    s' ks sender cap :
  RtpStream.sending (s, t) -> RtpStream.nack_buf s = Some nb -> NackBuf.buf_ok nb -> NackBuf.capacity nb <= 2 ^ 16 ->
  Rtp.s_seq (RtpStream.rtp_session s) = u16 q -> Rtcp.u32_ok (RtpStream.rtc_rtp_send_stream_ssrc s) ->
  RtpStream.send_all ps (s, t) = ((s', MediaSession.tr w), Ok ()) ->
  MediaSession.ready (MediaSession.session (MediaSession.med w)) = true ->
  U32Map.u32_repr (MediaSession.send_streams (MediaSession.session (MediaSession.med w))) g ->
  g !! RtpStream.rtc_rtp_send_stream_ssrc s = Some (Some id) ->
  MediaSession.send_store (MediaSession.med w) !! id = Some s' ->
  Interceptor.chain_repr chain [MediaSession.report_ops; MediaSession.nack_ops; MediaSession.pli_ops] ->
  Forall (fun i => 0 <= i < blen ps /\ blen ps - NackBuf.capacity nb <= i) ks ->
  NoDup ((fun i => u16 (q + i)) <$> ks) -> ks <> [] -> blen ks <= 64 -> Rtcp.u32_ok sender -> 268 <= cap ->
  exists b outs w' ks',
    RtcpFb.rtc_rtcp_build_nack cap sender (RtpStream.rtc_rtp_send_stream_ssrc s) ((fun i => u16 (q + i)) <$> ks) = Ok b /\
    length outs = length ps /\ sent_payloads (MediaSession.tr w) = sent_payloads t ++ outs /\
    MediaSession.rtc_media_session_handle_rtcp chain b w = Ok w' /\ ks' ≡ₚ ks /\
    sent_payloads (MediaSession.tr w') = sent_payloads (MediaSession.tr w) ++ omap (fun i => outs !! Z.to_nat i) ks'.
Proof. apply (MediaSession.nack_feedback_run (STr := link_session) (laws := link_laws)). Qed.
End Instance.
End TransportSession.
