(* ===== verification/Worker.v ===== *)
(** * The event-loop worker (rtc/src/rtc_worker.c)

    The functions that run under the worker's mutex or on its loop thread are
    state transformers on [rtc_worker_t]; the threads that call them are a
    step relation in which every critical section is one step, so that all
    interleavings of the loop thread with any number of callers are covered.
    A callback with its user pointer is a value of [U]; the poller, the mutex
    and the condition variable are not modelled: a caller that waits for its
    task may return once the task is marked done. *)

From S2P Require Import Prelude TimerSched MediaSession.
From Stdlib Require Import ZArith Lia.
From stdpp Require Import base list numbers sets.
#[local] Open Scope Z_scope.

Module Worker.
Import TimerSched.

Definition RTC_WORKER_DEFAULT_IO : Z := 8.
Definition RTC_WORKER_TIMER_INVALID : Z := 0.

Section Ops.
Context {U : Type}.

Record worker_io_source_t := IoSource { fd : Z; io_fn : U }.
(** [id] tells tasks apart; the [done] flags are a set of identifiers *)
Record worker_task_t := Task { id : nat; fn : U; sync : bool }.

(** [io]: the first [io_count] entries; [tasks]: the linked list from
    [task_head] to [task_tail] *)
Record rtc_worker_t := Worker {
  max_packet_batch : Z;
  timer_resolution_ms : Z;
  closed : bool;
  running : bool;
  thread_started : bool;
  timers : @rtc_timer_sched_t U;
  io : list worker_io_source_t;
  io_cap : Z;
  tasks : list worker_task_t
}.

Definition with_tasks (w : rtc_worker_t) (q : list worker_task_t) : rtc_worker_t :=
  Worker (max_packet_batch w) (timer_resolution_ms w) (closed w) (running w) (thread_started w)
    (timers w) (io w) (io_cap w) q.
Definition with_timers (w : rtc_worker_t) (s : @rtc_timer_sched_t U) : rtc_worker_t :=
  Worker (max_packet_batch w) (timer_resolution_ms w) (closed w) (running w) (thread_started w)
    s (io w) (io_cap w) (tasks w).
Definition with_io (w : rtc_worker_t) (l : list worker_io_source_t) : rtc_worker_t :=
  Worker (max_packet_batch w) (timer_resolution_ms w) (closed w) (running w) (thread_started w)
    (timers w) l (io_cap w) (tasks w).

(** ** The task queue *)

Definition worker_enqueue (t : worker_task_t) (w : rtc_worker_t) : rtc_worker_t :=
  with_tasks w (tasks w ++ [t]).

Definition worker_dequeue (w : rtc_worker_t) : option worker_task_t * rtc_worker_t :=
  match tasks w with
  | [] => (None, w)
  | t :: q => (Some t, with_tasks w q)
  end.

(** ** Lifecycle *)

(** the integers of [worker_apply_config]; [cfg = None]: NULL *)
Definition worker_apply_config (cfg : option (Z * Z * Z)) : Z * Z * Z :=
  match cfg with
  | None => (64, 1, RTC_WORKER_DEFAULT_IO)
  | Some (batch, resolution, max_io) =>
      (if 0 <? batch then batch else 64, if 0 <? resolution then resolution else 1,
       if 0 <? max_io then max_io else RTC_WORKER_DEFAULT_IO)
  end.

(** the flags: the allocations, the mutex, the condition variable, the
    poller, the I/O table and the thread could be created *)
Definition rtc_worker_create (alloc mutex cond poller alloc_io thread : bool) (cfg : option (Z * Z * Z))
    : option rtc_worker_t :=
  if negb alloc then None else
  let '(batch, resolution, cap) := worker_apply_config cfg in
  if negb mutex || negb cond || negb poller || negb alloc_io || negb thread then None
  else Some (Worker batch resolution false true true rtc_timer_sched_init [] cap []).

(** the new state, and whether the caller wakes and joins the thread *)
Definition rtc_worker_close (w : rtc_worker_t) : rtc_worker_t * bool :=
  if closed w then (w, false)
  else (Worker (max_packet_batch w) (timer_resolution_ms w) true false false (timers w) (io w)
          (io_cap w) (tasks w), thread_started w).

Definition rtc_worker_get_stats (w : rtc_worker_t) : res (bool * Z) :=
  n ← rtc_timer_sched_pending_count (timers w);
  Ok (closed w, n).

(** ** Timers *)

Definition rtc_worker_add_timer (a1 a2 a3 : bool) (deadline_ms : Z) (f : option U) : st rtc_worker_t Z :=
  w ← get;
  match f with
  | None => mret RTC_WORKER_TIMER_INVALID
  | Some _ =>
      if closed w then mret RTC_WORKER_TIMER_INVALID else
      sh ← lift (rtc_timer_sched_add a1 a2 a3 (timers w) deadline_ms f);
      let '(s, h) := sh in
      _ ← put (with_timers w s);
      mret h
  end.

Definition rtc_worker_cancel_timer (h : Z) : st rtc_worker_t unit :=
  w ← get;
  if h =? RTC_WORKER_TIMER_INVALID then mret () else
  s ← lift (rtc_timer_sched_cancel (timers w) h);
  put (with_timers w s).

(** ** Tasks from other threads *)

Definition rtc_worker_post (alloc : bool) (t : worker_task_t) : st rtc_worker_t unit :=
  _ ← lift (fail_if (negb alloc) RTC_ERR_NOMEM);
  w ← get;
  _ ← lift (fail_if (closed w) RTC_ERR_INVALID);
  put (worker_enqueue t w).

(** what [rtc_worker_invoke] does: run the function at once on the calling
    thread, or enqueue it and wait until it is done *)
Inductive invocation := RunInline | Wait.

Definition rtc_worker_invoke (on_loop_thread : bool) (t : worker_task_t) (w : rtc_worker_t)
    : rtc_worker_t * invocation :=
  if on_loop_thread then (w, RunInline)
  else if closed w || negb (running w) then (w, RunInline)
  else (worker_enqueue t w, Wait).

(** ** I/O sources *)

(** [polled]: what rtc_poller_add returns *)
Definition worker_do_add_io (polled : res unit) (f : Z) (cb : U) : st rtc_worker_t unit :=
  w ← get;
  _ ← lift (fail_if (io_cap w <=? blen (io w)) RTC_ERR_NOMEM);
  _ ← lift polled;
  put (with_io w (io w ++ [IoSource f cb])).

(** overwrite entry [i] by the last one and shorten the table *)
Definition swap_out (l : list worker_io_source_t) (i : nat) : list worker_io_source_t :=
  match last l with
  | Some x => take (length l - 1) (<[i := x]> l)
  | None => l
  end.

Definition worker_do_remove_io (f : Z) : st rtc_worker_t unit :=
  w ← get;
  match list_find (fun s => fd s = f) (io w) with
  | Some (i, _) => put (with_io w (swap_out (io w) i))
  | None => lift (Err RTC_ERR_INVALID)
  end.

(** the poller's events, descriptor and whether it is readable: [run] is the
    effect of a callback, which may change the table *)
Fixpoint dispatch_io (run : Z -> U -> st rtc_worker_t unit) (evs : list (Z * bool)) : st rtc_worker_t unit :=
  match evs with
  | [] => mret tt
  | (f, readable) :: rest =>
      w ← get;
      _ ← match list_find (fun s => fd s = f) (io w) with
          | Some (_, s) => if readable then run f (io_fn s) else mret tt
          | None => mret tt
          end;
      dispatch_io run rest
  end.
End Ops.
Arguments rtc_worker_t U : clear implicits.
Arguments worker_task_t U : clear implicits.

(** the worker offers sessions their timers *)
Definition worker_timers {U} (report : U) : MediaSession.WorkerOps (rtc_worker_t U) := {|
  MediaSession.worker_add_timer d := rtc_worker_add_timer true true true d (Some report);
  MediaSession.worker_cancel_timer h := rtc_worker_cancel_timer h
|}.

(** ** The threads *)

Section Threads.
Context {U : Type}.
#[local] Abbreviation task := (worker_task_t U).

(** where [worker_thread_fn] is: before the test of [running], running tasks,
    firing timers, running the last tasks after the loop, returned *)
Inductive phase := Polling | Tasks | Timers | Draining | Exited.

(** [cur]: the task between [worker_dequeue] and its completion; [waiting]:
    the callers inside [rtc_worker_invoke]; [submitted], [ran], [inlined],
    [fired]: history *)
Record machine := Machine {
  wk : rtc_worker_t U;
  ph : phase;
  cur : option task;
  finished : list nat;
  waiting : list nat;
  submitted : list task;
  ran : list task;
  inlined : list task;
  fired : list U
}.

Definition task_ids (m : machine) : list nat := id <$> submitted m.

(** steps of other threads: the task [t] is new *)
Inductive call_step : machine -> machine -> Prop :=
  | s_post m t w alloc :
      sync t = false -> id t ∉ task_ids m -> rtc_worker_post alloc t (wk m) = (w, Ok ()) ->
      call_step m (Machine w (ph m) (cur m) (finished m) (waiting m) (submitted m ++ [t]) (ran m)
                     (inlined m) (fired m))
  | s_invoke m t w :
      sync t = true -> id t ∉ task_ids m -> rtc_worker_invoke false t (wk m) = (w, Wait) ->
      call_step m (Machine w (ph m) (cur m) (finished m) (waiting m ++ [id t]) (submitted m ++ [t])
                     (ran m) (inlined m) (fired m))
  | s_invoke_inline m t w :
      rtc_worker_invoke false t (wk m) = (w, RunInline) ->
      call_step m (Machine w (ph m) (cur m) (finished m) (waiting m) (submitted m) (ran m)
                     (inlined m ++ [t]) (fired m))
  | s_return m pre i post :
      waiting m = pre ++ i :: post -> i ∈ finished m ->
      call_step m (Machine (wk m) (ph m) (cur m) (finished m) (pre ++ post) (submitted m) (ran m)
                     (inlined m) (fired m))
  | s_timer m a1 a2 a3 d f w h :
      rtc_worker_add_timer a1 a2 a3 d f (wk m) = (w, Ok h) ->
      call_step m (Machine w (ph m) (cur m) (finished m) (waiting m) (submitted m) (ran m)
                     (inlined m) (fired m))
  | s_cancel m h w :
      rtc_worker_cancel_timer h (wk m) = (w, Ok ()) ->
      call_step m (Machine w (ph m) (cur m) (finished m) (waiting m) (submitted m) (ran m)
                     (inlined m) (fired m))
  | s_close m w join :
      rtc_worker_close (wk m) = (w, join) ->
      call_step m (Machine w (ph m) (cur m) (finished m) (waiting m) (submitted m) (ran m)
                     (inlined m) (fired m)).

Definition go (m : machine) (p : phase) : machine :=
  Machine (wk m) p (cur m) (finished m) (waiting m) (submitted m) (ran m) (inlined m) (fired m).

(** steps of the loop thread *)
Inductive loop_step : machine -> machine -> Prop :=
  | l_poll m : ph m = Polling -> running (wk m) = true -> loop_step m (go m Tasks)
  | l_stop m : ph m = Polling -> running (wk m) = false -> loop_step m (go m Draining)
  | l_dequeue m t w :
      ph m = Tasks \/ ph m = Draining -> cur m = None -> worker_dequeue (wk m) = (Some t, w) ->
      loop_step m (Machine w (ph m) (Some t) (finished m) (waiting m) (submitted m) (ran m)
                     (inlined m) (fired m))
  | l_run m t :
      cur m = Some t ->
      loop_step m (Machine (wk m) (ph m) None (if sync t then id t :: finished m else finished m)
                     (waiting m) (submitted m) (ran m ++ [t]) (inlined m) (fired m))
  | l_empty m w :
      ph m = Tasks -> cur m = None -> worker_dequeue (wk m) = (None, w) -> loop_step m (go m Timers)
  | l_exit m w :
      ph m = Draining -> cur m = None -> worker_dequeue (wk m) = (None, w) -> loop_step m (go m Exited)
  | l_fire m now s f :
      ph m = Timers -> rtc_timer_sched_pop_due (timers (wk m)) now = Ok (s, Some f) ->
      loop_step m (Machine (with_timers (wk m) s) (ph m) (cur m) (finished m) (waiting m)
                     (submitted m) (ran m) (inlined m) (fired m ++ [f]))
  | l_timers_done m now s :
      ph m = Timers -> rtc_timer_sched_pop_due (timers (wk m)) now = Ok (s, None) ->
      loop_step m (Machine (with_timers (wk m) s) Polling (cur m) (finished m) (waiting m)
                     (submitted m) (ran m) (inlined m) (fired m)).

Inductive loop_steps : machine -> machine -> Prop :=
  | loop_refl m : loop_steps m m
  | loop_next m1 m2 m3 : loop_step m1 m2 -> loop_steps m2 m3 -> loop_steps m1 m3.

Definition start (w : rtc_worker_t U) : machine := Machine w Polling None [] [] [] [] [] [].

(** every state some interleaving leads to *)
Inductive reachable (w : rtc_worker_t U) : machine -> Prop :=
  | r_start : reachable w (start w)
  | r_call m m' : reachable w m -> call_step m m' -> reachable w m'
  | r_loop m m' : reachable w m -> loop_step m m' -> reachable w m'.

(** ** Invariant *)

Record machine_inv (m : machine) : Prop := {
  mi_fifo : submitted m = ran m ++ option_list (cur m) ++ tasks (wk m);
  mi_nodup : NoDup (task_ids m);
  mi_flags : running (wk m) = negb (closed (wk m));
  mi_stop : ph m = Draining \/ ph m = Exited -> running (wk m) = false;
  mi_exit : ph m = Exited -> cur m = None /\ tasks (wk m) = [];
  mi_cur : cur m <> None -> ph m = Tasks \/ ph m = Draining;
  mi_done i : i ∈ finished m <-> exists t, t ∈ ran m /\ sync t = true /\ id t = i;
  mi_wait i : i ∈ waiting m -> exists t, t ∈ submitted m /\ sync t = true /\ id t = i
}.

Lemma start_inv cfg w :
  rtc_worker_create true true true true true true cfg = Some w -> machine_inv (start w).
Proof.
  unfold rtc_worker_create. destruct (worker_apply_config cfg) as [[? ?] ?]. intros [= <-].
  split; cbn; try done; try set_solver; try constructor.
Qed.

(** adding a task at the end of the queue *)
Lemma enqueue_inv m t waiting' :
  machine_inv m -> id t ∉ task_ids m -> closed (wk m) = false ->
  (forall i, i ∈ waiting' -> i ∈ waiting m \/ (i = id t /\ sync t = true)) ->
  machine_inv (Machine (worker_enqueue t (wk m)) (ph m) (cur m) (finished m) waiting' (submitted m ++ [t])
    (ran m) (inlined m) (fired m)).
Proof.
  intros [] Hid Hc Hw. unfold worker_enqueue, with_tasks. split; cbn.
  - by rewrite mi_fifo0, <-!app_assoc.
  - unfold task_ids. cbn. rewrite fmap_app. apply NoDup_app. split_and!; [done| |apply NoDup_singleton].
    intros x Hx Hx'. apply list_elem_of_singleton in Hx' as ->. done.
  - done.
  - done.
  - intros He. rewrite (mi_stop0 (or_intror He)) in mi_flags0. by rewrite Hc in mi_flags0.
  - done.
  - done.
  - intros i Hi. destruct (Hw i Hi) as [Hi'|[-> Hs]].
    + destruct (mi_wait0 i Hi') as (t' & ? & ?). exists t'. set_solver.
    + exists t. set_solver.
Qed.

Lemma call_step_inv m m' : machine_inv m -> call_step m m' -> machine_inv m'.
Proof.
  intros Hm Hs. pose proof Hm as Hinv. destruct Hinv. destruct Hs as [m t w alloc Hs Hid Hp|m t w Hs Hid Hp|m t w Hp|m pre i post Hw Hf|m a1 a2 a3 d f w h Hp|m h w Hp|m w join Hp].
  - unfold rtc_worker_post in Hp. apply st_bind_Ok in Hp as (_ & w1 & [_ ->]%lift_Ok & Hp).
    apply st_bind_Ok in Hp as (w1 & w2 & [= <- <-] & Hp).
    apply st_bind_Ok in Hp as (_ & w2 & [Hc%fail_if_Ok ->]%lift_Ok & [= <-]).
    apply enqueue_inv; auto.
  - unfold rtc_worker_invoke in Hp. destruct (closed (wk m)) eqn:Hc; [done|].
    destruct (negb (running (wk m))); [done|]. injection Hp as <-. apply enqueue_inv; auto.
    intros i [?|Hi%list_elem_of_singleton]%elem_of_app; auto.
  - unfold rtc_worker_invoke in Hp. destruct (_ || _); [|done]. injection Hp as <-. by destruct m.
  - split; cbn; auto. intros j Hj. apply mi_wait0. rewrite Hw. set_solver.
  - assert (exists sc, w = with_timers (wk m) sc) as [sc ->].
    { unfold rtc_worker_add_timer in Hp. apply st_bind_Ok in Hp as (w1 & w2 & [= <- <-] & Hp).
      destruct f; [|injection Hp as <- _; exists (timers (wk m)); by destruct (wk m)].
      destruct (closed (wk m)); [injection Hp as <- <-; exists (timers (wk m)); by destruct (wk m)|].
      apply st_bind_Ok in Hp as ([sc h'] & w2 & _ & Hp). apply st_bind_Ok in Hp as ([] & w3 & [= <-] & [= <- <-]).
      eauto. }
    by split.
  - assert (exists sc, w = with_timers (wk m) sc) as [sc ->].
    { unfold rtc_worker_cancel_timer in Hp. apply st_bind_Ok in Hp as (w1 & w2 & [= <- <-] & Hp).
      destruct (h =? _); [injection Hp as <-; exists (timers (wk m)); by destruct (wk m)|].
      apply st_bind_Ok in Hp as (sc & w2 & [_ ->]%lift_Ok & [= <-]). eauto. }
    by split.
  - unfold rtc_worker_close in Hp. destruct (closed (wk m)) eqn:Hc; injection Hp as <- <-; [by destruct m|].
    by split.
Qed.

(** the parts of the invariant a change of phase does not affect *)
#[local] Ltac easy_inv :=
  auto; try done; try (by intros [|]);
  match goal with
  | H : cur _ <> None -> _ |- cur _ <> None -> _ =>
      let X := fresh in intros X; destruct (H X); congruence
  | _ => idtac
  end.

Lemma loop_step_inv m m' : machine_inv m -> loop_step m m' -> machine_inv m'.
Proof.
  intros Hm Hs. pose proof Hm as Hinv. destruct Hinv.
  destruct Hs as [m Hp Hr|m Hp Hr|m t w Hp Hc Hd|m t Hc|m w Hp Hc Hd|m w Hp Hc Hd|m now s f Hp Hd|m now s Hp Hd].
  - split; cbn; easy_inv.
  - split; cbn; easy_inv.
  - unfold worker_dequeue in Hd. destruct (tasks (wk m)) as [|t' q] eqn:Eq; [done|]. injection Hd as -> <-.
    split; cbn; auto.
    + by rewrite mi_fifo0, Hc.
    + intros He. rewrite He in Hp. naive_solver.
  - split; cbn; auto.
    + rewrite mi_fifo0, Hc. cbn. by rewrite <-app_assoc.
    + intros He. rewrite Hc in mi_exit0. naive_solver.
    + intros i. destruct (sync t) eqn:Es.
      * rewrite elem_of_cons, mi_done0. split.
        -- intros [->|(t' & ? & ?)]; [exists t; set_solver|exists t'; set_solver].
        -- intros (t' & [?|Ht%list_elem_of_singleton]%elem_of_app & ? & ?); [right; eauto|subst; left; congruence].
      * rewrite mi_done0. split.
        -- intros (t' & ? & ?). exists t'. set_solver.
        -- intros (t' & [?|Ht%list_elem_of_singleton]%elem_of_app & ? & ?); [eauto|subst; congruence].
  - split; cbn; easy_inv.
  - unfold worker_dequeue in Hd. destruct (tasks (wk m)) eqn:Eq; [|done].
    split; cbn; rewrite ?Eq; easy_inv.
  - by split.
  - split; cbn; easy_inv.
Qed.

Lemma reachable_inv cfg w m :
  rtc_worker_create true true true true true true cfg = Some w -> reachable w m -> machine_inv m.
Proof.
  intros Hw. induction 1; [by eapply start_inv|by eapply call_step_inv|by eapply loop_step_inv].
Qed.

(** ** Progress *)

Lemma loop_trans m1 m2 m3 : loop_steps m1 m2 -> loop_steps m2 m3 -> loop_steps m1 m3.
Proof. induction 1; [done|]. intros. econstructor; eauto. Qed.

Lemma loop_steps_inv m m' : machine_inv m -> loop_steps m m' -> machine_inv m'.
Proof. intros Hm. induction 1; [done|]. eauto using loop_step_inv. Qed.

(** the loop touches neither the callers nor what was submitted *)
Lemma loop_steps_frame m m' :
  loop_steps m m' -> waiting m' = waiting m /\ submitted m' = submitted m.
Proof.
  induction 1 as [|m1 m2 m3 Hs _ [IH1 IH2]]; [done|]. rewrite IH1, IH2. by destruct Hs.
Qed.

(** all queued tasks are run *)
Lemma run_queue q : forall m,
  ph m = Tasks \/ ph m = Draining -> cur m = None -> tasks (wk m) = q ->
  exists m', loop_steps m m' /\ cur m' = None /\ tasks (wk m') = [].
Proof.
  induction q as [|t q IH]; intros m Hp Hc Hq; [exists m; split_and!; [constructor|done|done]|].
  set (m1 := Machine (with_tasks (wk m) q) (ph m) (Some t) (finished m) (waiting m) (submitted m)
    (ran m) (inlined m) (fired m)).
  set (m2 := Machine (wk m1) (ph m1) None (if sync t then id t :: finished m1 else finished m1)
    (waiting m1) (submitted m1) (ran m1 ++ [t]) (inlined m1) (fired m1)).
  destruct (IH m2) as (m' & Hs & Hc' & Hq'); [done|done|done|].
  exists m'. split_and!; [|done|done]. econstructor; [|econstructor; [|exact Hs]].
  - apply (l_dequeue m t (with_tasks (wk m) q)); [done|done|]. unfold worker_dequeue. by rewrite Hq.
  - by apply (l_run m1 t).
Qed.

(** firing the due timers ends *)
Lemma fire_all n k : forall m,
  (length (heap (timers (wk m))) < k)%nat -> ph m = Timers -> sched_ok n (timers (wk m)) ->
  exists m', loop_steps m m' /\ ph m' = Polling /\ running (wk m') = running (wk m).
Proof.
  induction k as [|k IH]; intros m Hk Hp Hs; [lia|].
  destruct (pop_due_ok n (timers (wk m)) 0 Hs) as (s' & o & E & Hs' & _ & Ho).
  destruct o as [f|].
  - destruct Ho as [Hlt _].
    destruct (IH (Machine (with_timers (wk m) s') (ph m) (cur m) (finished m) (waiting m) (submitted m)
      (ran m) (inlined m) (fired m ++ [f]))) as (m' & Hst & ? & ?); [cbn; lia|done|done|].
    exists m'. split_and!; [|done|done]. econstructor; [|done]. by eapply l_fire.
  - eexists. split; [econstructor; [by eapply l_timers_done|constructor]|]. done.
Qed.

(** the loop gets to its tasks from anywhere *)
Lemma reach_tasks n m :
  sched_ok n (timers (wk m)) ->
  exists m', loop_steps m m' /\ (ph m' = Tasks \/ ph m' = Draining \/ ph m' = Exited).
Proof.
  intros Hs. assert (Hpoll : forall m, ph m = Polling ->
    exists m', loop_steps m m' /\ (ph m' = Tasks \/ ph m' = Draining \/ ph m' = Exited)).
  { intros m0 H0. destruct (running (wk m0)) eqn:Er;
      eexists; (split; [econstructor; [by constructor|constructor]|]); auto. }
  destruct (ph m) eqn:Ep; [by apply Hpoll|exists m; split; [constructor|auto]| |exists m; split; [constructor|auto]..].
  destruct (fire_all n (S (length (heap (timers (wk m))))) m) as (m1 & H1 & H2 & _); [lia|done|done|].
  destruct (Hpoll m1 H2) as (m2 & H3 & ?). exists m2. split; [by eapply loop_trans|done].
Qed.

(** C8: Tasks are run in order, once, and none is lost.  In every
    interleaving of callers and the loop thread, the functions run on the loop
    are a prefix of those accepted by [rtc_worker_post] and
    [rtc_worker_invoke], in the order of acceptance and without repetition; a
    waiting caller's task is marked done only after it ran; and when the thread
    has returned after [rtc_worker_close], everything accepted has run. *)
Theorem worker_runs_tasks_once cfg w m :
  rtc_worker_create true true true true true true cfg = Some w -> reachable w m ->
  ran m `prefix_of` submitted m /\ NoDup (id <$> ran m) /\
  (forall i, i ∈ finished m -> exists t, t ∈ ran m /\ id t = i) /\
  (ph m = Exited -> ran m = submitted m).
Proof.
  intros Hw Hr. destruct (reachable_inv cfg w m Hw Hr). split_and!.
  - rewrite mi_fifo0. by apply prefix_app_r.
  - unfold task_ids in mi_nodup0. rewrite mi_fifo0, fmap_app in mi_nodup0.
    by apply NoDup_app in mi_nodup0 as [? _].
  - intros i (t & ? & _ & ?)%mi_done0. eauto.
  - intros He. destruct (mi_exit0 He) as [Hc Hq]. by rewrite mi_fifo0, Hc, Hq, app_nil_r.
Qed.

(** C9: Nobody waits for ever.  In every reachable state whose timer heap is
    well formed, also during and after shutdown, the loop thread alone can run
    on until the task of every caller that waits in [rtc_worker_invoke] is
    done. *)
Theorem worker_invoke_completes cfg w m n :
  rtc_worker_create true true true true true true cfg = Some w -> reachable w m ->
  sched_ok n (timers (wk m)) ->
  exists m', loop_steps m m' /\ forall i, i ∈ waiting m -> i ∈ finished m'.
Proof.
  intros Hw Hr Hs. pose proof (reachable_inv cfg w m Hw Hr) as Hm.
  destruct (reach_tasks n m Hs) as (m1 & H1 & Hp1). pose proof (loop_steps_inv _ _ Hm H1) as Hm1.
  assert (exists m2, loop_steps m1 m2 /\ cur m2 = None /\ tasks (wk m2) = []) as (m2 & H2 & Hc & Hq).
  { destruct Hp1 as [Hp|[Hp|Hp]]; [..|exists m1; split; [constructor|by apply (mi_exit _ Hm1)]].
    all: destruct (cur m1) as [t|] eqn:Et; [|apply (run_queue (tasks (wk m1))); auto].
    all: destruct (run_queue (tasks (wk m1)) (Machine (wk m1) (ph m1) None
      (if sync t then id t :: finished m1 else finished m1) (waiting m1) (submitted m1) (ran m1 ++ [t])
      (inlined m1) (fired m1))) as (m2 & ? & ?); auto.
    all: exists m2; split; [econstructor; [by apply l_run|done]|done]. }
  pose proof (loop_trans _ _ _ H1 H2) as H3. exists m2. split; [done|].
  pose proof (loop_steps_inv _ _ Hm H3) as []. destruct (loop_steps_frame _ _ H3) as [_ Hsub].
  intros i Hi. apply mi_done0. destruct (mi_wait _ Hm i Hi) as (t & Ht & ? & ?).
  exists t. split; [|done]. rewrite Hc, Hq in mi_fifo0. cbn in mi_fifo0.
  rewrite app_nil_r in mi_fifo0. by rewrite <-mi_fifo0, Hsub.
Qed.
End Threads.

(** ** Witnesses *)

Definition worker0 : rtc_worker_t Z := Worker 64 1 false true true rtc_timer_sched_init [] 8 [].

(** a caller waits while the worker is being closed *)
Definition closing : machine :=
  Machine (Worker 64 1 true false false rtc_timer_sched_init [] 8 [Task 0 7 true]) Polling None [] [0%nat]
    [Task 0 7 true] [] [] [].

Lemma closing_reachable : reachable worker0 closing.
Proof.
  eapply r_call; [eapply r_call; [apply r_start|]|].
  - apply (s_invoke (start worker0) (Task 0 7 true)); [done|cbn; set_solver|reflexivity].
  - by eapply s_close.
Qed.

Lemma worker_runs_tasks_once_witness :
  ran closing `prefix_of` submitted closing /\ NoDup (id <$> ran closing) /\
  (forall i, i ∈ finished closing -> exists t, t ∈ ran closing /\ id t = i) /\
  (ph closing = Exited -> ran closing = submitted closing).
Proof. apply (worker_runs_tasks_once None worker0 closing eq_refl closing_reachable). Defined.

Lemma worker_invoke_completes_witness :
  exists m', loop_steps closing m' /\ forall i, i ∈ waiting closing -> i ∈ finished m'.
Proof.
  apply (worker_invoke_completes None worker0 closing 0 eq_refl closing_reachable).
  exact sched_init_ok.
Defined.
End Worker.
