(* ===== verification/DataChannel.v ===== *)
(** * Data channels (client/src/rtc_data_channel.c)

    The channel manager of a peer connection: the OPEN/ACK/DATA/CLOSE messages
    over the DTLS application data, the table of channels and the application's
    calls on a channel.  Channels are allocated on a heap of their own ([dcs])
    and named by their address, as the table, the application and the orphans
    of an overwritten table entry share them.  Application callbacks are
    recorded in [events] when they are registered; a callback does not call
    back into the manager here.  The function [send_fn] points to is the class
    [DcSend]; the field is whether it is set. *)

From S2P Require Import Prelude Probe U32Map.
From Stdlib Require Import ZArith Lia.
From stdpp Require Import base list numbers gmap.
#[local] Open Scope Z_scope.

Module DataChannel.
Import U32Map.

Definition RTC_DC_MAX_LABEL : Z := 128.
Definition RTC_DC_MAX_MSG_SIZE : Z := 65535.
Definition RTC_DC_MAX_CHANNELS : Z := 16.
Definition RTC_DC_HEADER_SIZE : Z := 6.

Definition RTC_DC_MSG_OPEN : Z := 1.
Definition RTC_DC_MSG_ACK : Z := 2.
Definition RTC_DC_MSG_DATA : Z := 3.
Definition RTC_DC_MSG_CLOSE : Z := 4.

Inductive rtc_data_channel_state_t :=
| RTC_DC_CONNECTING
| RTC_DC_OPEN
| RTC_DC_CLOSING
| RTC_DC_CLOSED.

#[export] Instance dc_state_eq_dec : EqDecision rtc_data_channel_state_t.
Proof. solve_decision. Defined.

(** the fields of rtc_data_channel_init_t that the code reads *)
Record rtc_data_channel_init_t := DcInit { init_id : Z }.

(** [label] is the whole array; a callback is whether it is registered *)
Record rtc_data_channel_t := Dc {
  label : bytes;
  id : Z;
  state : rtc_data_channel_state_t;
  locally_created : bool;
  on_open : bool;
  on_close : bool;
  on_message : bool;
  on_buffered_low : bool;
  buffered_amount : Z;
  buffered_amount_low_thresh : Z;
  bytes_sent : Z;
  bytes_received : Z
}.

Record rtc_dc_manager_t := Mgr {
  channels : rtc_u32_map_t (option Z);
  next_id : Z;
  on_channel : bool;
  dtls_connected : bool;
  send_fn : bool
}.

(** the callbacks made, with the channel's address *)
Inductive dc_event :=
| EvOpen (p : Z)
| EvClose (p : Z)
| EvMessage (p : Z) (data : bytes)
| EvBufferedLow (p : Z)
| EvChannel (p : Z).

(** [send_fn] on the state [W] of the transport below *)
Class DcSend (W : Type) := dc_send_fn : bytes -> st W unit.

Record dc_world (W : Type) := DcWorld {
  mgr : rtc_dc_manager_t;
  dcs : gmap Z rtc_data_channel_t;
  brk : Z;
  events : list dc_event;
  net : W
}.
#[global] Arguments DcWorld {W} mgr dcs brk events net.
#[global] Arguments mgr {W} _.
#[global] Arguments dcs {W} _.
#[global] Arguments brk {W} _.
#[global] Arguments events {W} _.
#[global] Arguments net {W} _.

Definition with_state (s : rtc_data_channel_state_t) (c : rtc_data_channel_t) : rtc_data_channel_t :=
  Dc (label c) (id c) s (locally_created c) (on_open c) (on_close c) (on_message c)
    (on_buffered_low c) (buffered_amount c) (buffered_amount_low_thresh c) (bytes_sent c) (bytes_received c).
Definition with_buffered (b : Z) (c : rtc_data_channel_t) : rtc_data_channel_t :=
  Dc (label c) (id c) (state c) (locally_created c) (on_open c) (on_close c) (on_message c)
    (on_buffered_low c) b (buffered_amount_low_thresh c) (bytes_sent c) (bytes_received c).
Definition add_sent (n : Z) (c : rtc_data_channel_t) : rtc_data_channel_t :=
  Dc (label c) (id c) (state c) (locally_created c) (on_open c) (on_close c) (on_message c)
    (on_buffered_low c) (buffered_amount c) (buffered_amount_low_thresh c) (u64 (bytes_sent c + n)) (bytes_received c).
Definition add_received (n : Z) (c : rtc_data_channel_t) : rtc_data_channel_t :=
  Dc (label c) (id c) (state c) (locally_created c) (on_open c) (on_close c) (on_message c)
    (on_buffered_low c) (buffered_amount c) (buffered_amount_low_thresh c) (bytes_sent c) (u64 (bytes_received c + n)).
Definition with_callbacks (o cl m b : bool) (c : rtc_data_channel_t) : rtc_data_channel_t :=
  Dc (label c) (id c) (state c) (locally_created c) o cl m b
    (buffered_amount c) (buffered_amount_low_thresh c) (bytes_sent c) (bytes_received c).

(** a channel after [calloc], with its label written, its id and state *)
Definition dc_new (l : bytes) (i : Z) (s : rtc_data_channel_state_t) (local : bool) : rtc_data_channel_t :=
  Dc l i s local false false false false 0 0 0 0.

(** [label] after [memcpy] of the first bytes and the terminator; the rest is
    zero from [calloc] *)
Definition label_array (l : bytes) : bytes :=
  let l := take (Z.to_nat (RTC_DC_MAX_LABEL - 1)) l in
  l ++ replicate (Z.to_nat RTC_DC_MAX_LABEL - length l) 0.

(** the C string in a buffer; a buffer without a terminator is overrun *)
Fixpoint c_string (b : bytes) : res bytes :=
  match b with
  | [] => Fault
  | x :: b => if x =? 0 then Ok [] else s ← c_string b; Ok (x :: s)
  end.

Section Ops.
Context {W : Type} `{DcSend W}.

Definition rd_dc (p : Z) : st (dc_world W) rtc_data_channel_t :=
  w ← get;
  match dcs w !! p with Some c => mret c | None => lift Fault end.

(** a store to a field of the channel at [p] *)
Definition upd_dc (p : Z) (f : rtc_data_channel_t -> rtc_data_channel_t) : st (dc_world W) unit :=
  c ← rd_dc p;
  modify (fun w => DcWorld (mgr w) (<[p := f c]> (dcs w)) (brk w) (events w) (net w)).

Definition emit (ev : dc_event) : st (dc_world W) unit :=
  modify (fun w => DcWorld (mgr w) (dcs w) (brk w) (events w ++ [ev]) (net w)).

Definition emit_if (b : bool) (ev : dc_event) : st (dc_world W) unit :=
  if b then emit ev else mret ().

Definition put_mgr (m : rtc_dc_manager_t) : st (dc_world W) unit :=
  modify (fun w => DcWorld m (dcs w) (brk w) (events w) (net w)).

Definition on_net {A} (f : st W A) : st (dc_world W) A :=
  zoom net (fun w n => DcWorld (mgr w) (dcs w) (brk w) (events w) n) f.

(** the return code of a call *)
Definition st_code {S} (f : st S unit) : st S (option rtc_err_t) :=
  fun s => match f s with
           | (s', Ok _) => (s', Ok None)
           | (s', Err e) => (s', Ok (Some e))
           | (s', Fault) => (s', Fault)
           end.

Definition dc_alloc (c : rtc_data_channel_t) : st (dc_world W) Z :=
  w ← get;
  _ ← put (DcWorld (mgr w) (<[brk w := c]> (dcs w)) (brk w + 1) (events w) (net w));
  mret (brk w).

Definition dc_free (p : Z) : st (dc_world W) unit :=
  _ ← rd_dc p;
  modify (fun w => DcWorld (mgr w) (delete p (dcs w)) (brk w) (events w) (net w)).

(** [rtc_u32_map_set(&mgr->channels, id, dc)] *)
Definition channels_set (alloc : bool) (i p : Z) : st (dc_world W) unit :=
  zoom (fun w => channels (mgr w))
    (fun w m => DcWorld (Mgr m (next_id (mgr w)) (on_channel (mgr w)) (dtls_connected (mgr w)) (send_fn (mgr w)))
                  (dcs w) (brk w) (events w) (net w))
    (rtc_u32_map_set None alloc i (Some p)).

(** the message on the wire *)
Definition dc_wire (i msg_type : Z) (payload : bytes) : bytes :=
  be16 i ++ [msg_type; 0] ++ be16 (blen payload) ++ payload.

Definition dc_send_message (alloc : bool) (p : Z) (msg_type : Z) (payload : bytes)
    : st (dc_world W) unit :=
  dc ← rd_dc p;
  w ← get;
  _ ← lift (fail_if (negb (send_fn (mgr w))) RTC_ERR_INVALID);
  _ ← lift (fail_if (RTC_DC_MAX_MSG_SIZE <? blen payload) RTC_ERR_INVALID);
  _ ← lift (fail_if (negb alloc) RTC_ERR_NOMEM);
  on_net (dc_send_fn (dc_wire (id dc) msg_type payload)).

Definition dc_find_by_id (i : Z) : st (dc_world W) (option Z) :=
  w ← get;
  lift (rtc_u32_map_get None (channels (mgr w)) i).

(** ** The application's calls on a channel *)

Definition rtc_data_channel_send (alloc : bool) (p : Z) (data : bytes) : st (dc_world W) unit :=
  dc ← rd_dc p;
  _ ← lift (fail_if (negb (bool_decide (state dc = RTC_DC_OPEN))) RTC_ERR_INVALID);
  let prev := buffered_amount dc in
  _ ← upd_dc p (with_buffered (u64 (prev + blen data)));
  rc ← st_code (dc_send_message alloc p RTC_DC_MSG_DATA data);
  _ ← upd_dc p (with_buffered prev);
  match rc with
  | Some e => lift (Err e)
  | None =>
      _ ← upd_dc p (add_sent (blen data));
      dc ← rd_dc p;
      emit_if (on_buffered_low dc && (0 <? buffered_amount_low_thresh dc)
               && (buffered_amount dc <=? buffered_amount_low_thresh dc)) (EvBufferedLow p)
  end.

Definition rtc_data_channel_send_text (alloc : bool) (p : Z) (text : bytes) : st (dc_world W) unit :=
  s ← lift (c_string text);
  rtc_data_channel_send alloc p s.

Definition rtc_data_channel_close (alloc : bool) (p : Z) : st (dc_world W) unit :=
  dc ← rd_dc p;
  if bool_decide (state dc = RTC_DC_CLOSED) then mret ()
  else
    _ ← (if bool_decide (state dc = RTC_DC_OPEN) then
           _ ← upd_dc p (with_state RTC_DC_CLOSING);
           void (dc_send_message alloc p RTC_DC_MSG_CLOSE [])
         else mret ());
    _ ← upd_dc p (with_state RTC_DC_CLOSED);
    dc ← rd_dc p;
    emit_if (on_close dc) (EvClose p).

(** the four registration calls: each sets one of the callbacks *)
Definition rtc_data_channel_on_open (p : Z) (fn : bool) : st (dc_world W) unit :=
  upd_dc p (fun c => with_callbacks fn (on_close c) (on_message c) (on_buffered_low c) c).
Definition rtc_data_channel_on_close (p : Z) (fn : bool) : st (dc_world W) unit :=
  upd_dc p (fun c => with_callbacks (on_open c) fn (on_message c) (on_buffered_low c) c).
Definition rtc_data_channel_on_message (p : Z) (fn : bool) : st (dc_world W) unit :=
  upd_dc p (fun c => with_callbacks (on_open c) (on_close c) fn (on_buffered_low c) c).
Definition rtc_data_channel_on_buffered_amount_low (p : Z) (fn : bool) : st (dc_world W) unit :=
  upd_dc p (fun c => with_callbacks (on_open c) (on_close c) (on_message c) fn c).

Definition rtc_data_channel_set_buffered_amount_low_threshold (p threshold : Z) : st (dc_world W) unit :=
  upd_dc p (fun c => Dc (label c) (id c) (state c) (locally_created c) (on_open c) (on_close c)
    (on_message c) (on_buffered_low c) (buffered_amount c) threshold (bytes_sent c) (bytes_received c)).

Definition rtc_data_channel_label (p : Z) : st (dc_world W) bytes :=
  dc ← rd_dc p; lift (c_string (label dc)).

(** ** The manager *)

(** [fn]: a function that sends is given *)
Definition rtc_dc_manager_init (fn : bool) : rtc_dc_manager_t := Mgr rtc_u32_map_init 0 false false fn.

Definition next_auto_id : st (dc_world W) Z :=
  w ← get;
  let m := mgr w in
  n ← lift (int_val (next_id m + 2));
  _ ← put_mgr (Mgr (channels m) n (on_channel m) (dtls_connected m) (send_fn m));
  mret (u16 (next_id m)).

(** [opts && opts->id >= 0], otherwise the next automatic id *)
Definition assign_id (opts : option rtc_data_channel_init_t) : st (dc_world W) Z :=
  match opts with
  | Some (DcInit i) => if 0 <=? i then mret (u16 i) else next_auto_id
  | None => next_auto_id
  end.

(** [label] is a C string, [opts] may be null; the channel's address, [None]
    for a null pointer.  [ac], [am] and [as_]: the allocations of the channel,
    of the table and of the message. *)
Definition rtc_dc_manager_create_channel (ac am as_ : bool) (l : option bytes)
    (opts : option rtc_data_channel_init_t) : st (dc_world W) (option Z) :=
  w ← get;
  let m := mgr w in
  if (RTC_DC_MAX_CHANNELS <=? rtc_u32_map_len (channels m)) || negb ac then mret None
  else
    text ← lift (match l with
                 | Some l => s ← c_string l; Ok (label_array s)
                 | None => Ok (label_array [])
                 end);
    i ← assign_id opts;
    p ← dc_alloc (dc_new text i RTC_DC_CONNECTING true);
    ok ← st_attempt (channels_set am i p);
    match ok with
    | None => _ ← dc_free p; mret None
    | Some _ =>
        _ ← (if dtls_connected m then
               s ← lift (c_string text);
               void (dc_send_message as_ p RTC_DC_MSG_OPEN s)
             else mret ());
        mret (Some p)
    end.

Definition rtc_dc_manager_on_channel (fn : bool) : st (dc_world W) unit :=
  w ← get;
  put_mgr (Mgr (channels (mgr w)) (next_id (mgr w)) fn (dtls_connected (mgr w)) (send_fn (mgr w))).

(** one round of the loop of on_dtls_connected; [alloc i]: the allocation for
    the message of channel [i] *)
Definition open_pending (alloc : Z -> bool) (kv : Z * option Z) : st (dc_world W) unit :=
  match kv.2 with
  | None => mret ()
  | Some p =>
      dc ← rd_dc p;
      if locally_created dc && bool_decide (state dc = RTC_DC_CONNECTING) then
        s ← lift (c_string (label dc));
        void (dc_send_message (alloc kv.1) p RTC_DC_MSG_OPEN s)
      else mret ()
  end.

(** the pairs [rtc_u32_map_next] yields *)
Definition entries_of (m : rtc_u32_map_t (option Z)) : list (Z * option Z) :=
  iterate (S (length (entries m))) m 0.

Definition rtc_dc_manager_on_dtls_connected (alloc : Z -> bool) : st (dc_world W) unit :=
  w ← get;
  _ ← put_mgr (Mgr (channels (mgr w)) (next_id (mgr w)) (on_channel (mgr w)) true (send_fn (mgr w)));
  st_each (open_pending alloc) (entries_of (channels (mgr w))).

(** the cases of the switch in rtc_dc_manager_recv *)
Definition recv_open (ac am as_ : bool) (i : Z) (payload : bytes) : st (dc_world W) unit :=
  o ← dc_find_by_id i;
  match o with
  | Some p =>
      _ ← upd_dc p (with_state RTC_DC_OPEN);
      _ ← void (dc_send_message as_ p RTC_DC_MSG_ACK []);
      dc ← rd_dc p;
      emit_if (on_open dc) (EvOpen p)
  | None =>
      w ← get;
      _ ← lift (fail_if (RTC_DC_MAX_CHANNELS <=? rtc_u32_map_len (channels (mgr w))) RTC_ERR_NOMEM);
      _ ← lift (fail_if (negb ac) RTC_ERR_NOMEM);
      p ← dc_alloc (dc_new (label_array payload) i RTC_DC_OPEN false);
      ok ← st_attempt (channels_set am i p);
      match ok with
      | None => _ ← dc_free p; lift (Err RTC_ERR_NOMEM)
      | Some _ =>
          _ ← void (dc_send_message as_ p RTC_DC_MSG_ACK []);
          emit_if (on_channel (mgr w)) (EvChannel p)
      end
  end.

Definition recv_ack (i : Z) : st (dc_world W) unit :=
  o ← dc_find_by_id i;
  match o with
  | None => mret ()
  | Some p =>
      dc ← rd_dc p;
      if bool_decide (state dc = RTC_DC_CONNECTING) then
        _ ← upd_dc p (with_state RTC_DC_OPEN);
        emit_if (on_open dc) (EvOpen p)
      else mret ()
  end.

Definition recv_data (i : Z) (payload : bytes) : st (dc_world W) unit :=
  o ← dc_find_by_id i;
  match o with
  | None => mret ()
  | Some p =>
      dc ← rd_dc p;
      if bool_decide (state dc = RTC_DC_OPEN) then
        _ ← upd_dc p (add_received (blen payload));
        emit_if (on_message dc) (EvMessage p payload)
      else mret ()
  end.

Definition recv_close (i : Z) : st (dc_world W) unit :=
  o ← dc_find_by_id i;
  match o with
  | None => mret ()
  | Some p =>
      dc ← rd_dc p;
      if negb (bool_decide (state dc = RTC_DC_CLOSED)) then
        _ ← upd_dc p (with_state RTC_DC_CLOSED);
        emit_if (on_close dc) (EvClose p)
      else mret ()
  end.

Definition rtc_dc_manager_recv (ac am as_ : bool) (data : bytes) : st (dc_world W) unit :=
  _ ← lift (fail_if (blen data <? RTC_DC_HEADER_SIZE) RTC_ERR_INVALID);
  channel_id ← lift (rd_u16 data 0);
  msg_type ← lift (rd data 2);
  payload_len ← lift (rd_u16 data 4);
  _ ← lift (fail_if (blen data <? RTC_DC_HEADER_SIZE + payload_len) RTC_ERR_INVALID);
  payload ← lift (sub data RTC_DC_HEADER_SIZE payload_len);
  if msg_type =? RTC_DC_MSG_OPEN then recv_open ac am as_ channel_id payload
  else if msg_type =? RTC_DC_MSG_ACK then recv_ack channel_id
  else if msg_type =? RTC_DC_MSG_DATA then recv_data channel_id payload
  else if msg_type =? RTC_DC_MSG_CLOSE then recv_close channel_id
  else mret ().

Definition rtc_dc_manager_close : st (dc_world W) unit :=
  w ← get;
  _ ← st_each (fun kv : Z * option Z => match kv.2 with Some p => dc_free p | None => mret () end)
        (entries_of (channels (mgr w)));
  put_mgr (Mgr (rtc_u32_map_free (channels (mgr w))) (next_id (mgr w)) (on_channel (mgr w)) false (send_fn (mgr w))).

End Ops.
End DataChannel.
