(* ===== verification/DataChannelSpec.v ===== *)
(** * Data channels: safety of the manager, the open handshake, delivery

    The invariant [dc_wf] of a manager and its heap, that every call preserves
    it whatever the peer sends and the transport does, and the composition of
    two managers over a transport that delivers. *)

From S2P Require Import Prelude Probe U32Map DataChannel.
From Stdlib Require Import ZArith Lia.
From stdpp Require Import base list numbers gmap.
#[local] Open Scope Z_scope.

Module DataChannelSpec.
Import U32Map DataChannel.

(** ** Labels and the wire format *)

Definition label_ok (l : bytes) : Prop := exists s, c_string l = Ok s /\ blen s <= 127.

Lemma c_string_zeros s n :
  Forall (fun b => b <> 0) s -> (0 < n)%nat -> c_string (s ++ replicate n 0) = Ok s.
Proof.
  intros Hs Hn. induction Hs as [|b s Hb _ IH]; [by destruct n; [lia|]|].
  cbn [app c_string]. rewrite (proj2 (Z.eqb_neq b 0)) by done. by rewrite IH.
Qed.

Lemma c_string_prefix (s : bytes) n : (0 < n)%nat -> exists t, c_string (s ++ replicate n 0) = Ok t /\ (length t <= length s)%nat.
Proof.
  intros Hn. induction s as [|b s (t & IH & Ht)]; [exists []; by destruct n; [lia|]|].
  cbn [app c_string]. destruct (b =? 0); [exists []; simpl; split; [done|lia]|].
  rewrite IH. exists (b :: t). simpl. split; [done|lia].
Qed.

Lemma label_array_ok l : label_ok (label_array l).
Proof.
  unfold label_ok, label_array. change (Z.to_nat (RTC_DC_MAX_LABEL - 1)) with 127%nat.
  change (Z.to_nat RTC_DC_MAX_LABEL) with 128%nat.
  assert (length (take 127 l) <= 127)%nat by (rewrite length_take; lia).
  destruct (c_string_prefix (take 127 l) (128 - length (take 127 l))) as (t & -> & Ht); [lia|].
  exists t. split; [done|]. unfold blen. lia.
Qed.

(** a C string of at most 127 bytes is the label *)
Lemma label_array_string s : Forall (fun b => b <> 0) s -> c_string (label_array s) = Ok (take 127 s).
Proof.
  intros Hs. unfold label_array. change (Z.to_nat (RTC_DC_MAX_LABEL - 1)) with 127%nat.
  change (Z.to_nat RTC_DC_MAX_LABEL) with 128%nat.
  assert (length (take 127 s) <= 127)%nat by (rewrite length_take; lia).
  apply c_string_zeros; [by apply Forall_take|lia].
Qed.

Lemma c_string_chars b s : c_string b = Ok s -> Forall (fun c => c <> 0) s.
Proof.
  revert s. induction b as [|x b IH]; intros s; [done|]. cbn [c_string].
  destruct (Z.eqb_spec x 0); [by intros <-%Ok_inj|]. rewrite bind_Ok. intros (t & Ht & <-%Ok_inj).
  constructor; [done|]. by apply IH.
Qed.

Section Recv.
Context {W : Type} `{DcSend W}.
Implicit Types w : dc_world W.

(** what the receiver does with a message on the wire *)
Definition dispatch (ac am as_ : bool) (i ty : Z) (payload : bytes) : st (dc_world W) unit :=
  if ty =? RTC_DC_MSG_OPEN then recv_open ac am as_ i payload
  else if ty =? RTC_DC_MSG_ACK then recv_ack i
  else if ty =? RTC_DC_MSG_DATA then recv_data i payload
  else if ty =? RTC_DC_MSG_CLOSE then recv_close i
  else mret ().

Lemma recv_wire ac am as_ i ty payload w :
  0 <= i < 2 ^ 16 -> blen payload <= RTC_DC_MAX_MSG_SIZE ->
  rtc_dc_manager_recv ac am as_ (dc_wire i ty payload) w = dispatch ac am as_ i ty payload w.
Proof.
  unfold RTC_DC_MAX_MSG_SIZE. intros Hi Hp. pose proof (blen_nonneg payload). unfold rtc_dc_manager_recv.
  assert (blen (dc_wire i ty payload) = 6 + blen payload) as El by (unfold dc_wire; rewrite !blen_app, !blen_be16, !blen_cons, blen_nil; lia).
  rewrite El. unfold RTC_DC_HEADER_SIZE. rewrite (proj2 (Z.ltb_ge _ 6)) by lia. cbn [fail_if].
  rewrite (st_bind_lift _ _ _ _ eq_refl).
  assert (rd_u16 (dc_wire i ty payload) 0 = Ok i) as E0.
  { unfold dc_wire. by apply rd_u16_here. }
  assert (rd_u16 (dc_wire i ty payload) 4 = Ok (blen payload)) as E4.
  { unfold dc_wire. rewrite app_assoc. apply (rd_u16_at (be16 i ++ [ty; 0])); [done|lia]. }
  assert (rd (dc_wire i ty payload) 2 = Ok ty) as E2 by done.
  rewrite (st_bind_lift _ _ _ _ E0), (st_bind_lift _ _ _ _ E2), (st_bind_lift _ _ _ _ E4).
  rewrite (proj2 (Z.ltb_ge _ (6 + blen payload))) by lia. cbn [fail_if].
  rewrite (st_bind_lift _ _ _ _ eq_refl).
  assert (sub (dc_wire i ty payload) 6 (blen payload) = Ok payload) as E6; [|by rewrite (st_bind_lift _ _ _ _ E6)].
  unfold dc_wire. rewrite !app_assoc. rewrite <-(app_nil_r payload) at 2.
  by apply (sub_mid ((be16 i ++ [ty; 0]) ++ be16 (blen payload))).
Qed.
End Recv.

(** ** The invariant *)

Section Inv.
Context {W : Type} `{DcSend W}.
Implicit Types (w : dc_world W) (g : gmap Z (option Z)).

Record table_wf (m : rtc_u32_map_t (option Z)) g : Prop := {
  tw_repr : u32_repr m g;
  tw_cap : cap m <= 48;
  tw_tomb : tombstones m <= 0;
  tw_size : (size g <= 16)%nat
}.

(** [g]: the table.  Its entries are channels of the heap under their own id;
    the heap may hold more, the channels whose entry was overwritten. *)
Record dc_wf w g : Prop := {
  wf_table : table_wf (channels (mgr w)) g;
  wf_entry : forall i o, g !! i = Some o -> exists p c, o = Some p /\ dcs w !! p = Some c /\ id c = i;
  wf_heap : forall p c, dcs w !! p = Some c ->
    p < brk w /\ label_ok (label c) /\ 0 <= id c < 2 ^ 16;
  wf_next : 0 <= next_id (mgr w);
  wf_send : send_fn (mgr w) = true
}.

Lemma table_len m g : table_wf m g -> rtc_u32_map_len m = Z.of_nat (size g).
Proof. intros [[[-> ->]|[]] _ _ _]; [by rewrite map_size_empty|done]. Qed.

Lemma table_empty : table_wf rtc_u32_map_init ∅.
Proof. split; [by left|done|done|rewrite map_size_empty; lia]. Qed.

Lemma table_set m g alloc i v :
  table_wf m g -> rtc_u32_map_len m < 16 ->
  (exists m', rtc_u32_map_set None alloc i v m = (m', Ok ()) /\ table_wf m' (<[i := v]> g)) \/
  (rtc_u32_map_set None alloc i v m = (m, Err RTC_ERR_NOMEM) /\ alloc = false).
Proof.
  intros Ht Hl. pose proof (table_len _ _ Ht) as El. destruct Ht as [Hr Hc Htb Hs].
  destruct (set_spec None m g alloc i v Hr) as (m' & [(E & Hm' & Ht' & Hc')|(-> & E & _ & [->|?])]); [| |lia].
  - left. exists m'. split; [done|]. split; [done| |lia|].
    + unfold rtc_u32_map_len in *. lia.
    + pose proof (map_size_insert i v g) as Ei. destruct (g !! i); simpl in Ei; lia.
  - right. by rewrite E.
Qed.

(** ** Every call keeps the invariant *)

(** no pointer the application may hold dies *)
Definition lives w w' : Prop := forall p, is_Some (dcs w !! p) -> is_Some (dcs w' !! p).

(** a step of the code from [w]: no fault, the invariant, no pointer freed *)
Definition good {A} (n : Z) (f : st (dc_world W) A) w : Prop :=
  match f w with
  | (w', r) => r <> Fault /\ (exists g, dc_wf w' g) /\ lives w w' /\ next_id (mgr w') <= next_id (mgr w) + n
  end.

Lemma dc_good_bind {A B} n k (m : st (dc_world W) A) (f : A -> st (dc_world W) B) w :
  good n m w -> 0 <= k ->
  (forall a w', m w = (w', Ok a) -> (exists g, dc_wf w' g) -> lives w w' ->
     next_id (mgr w') <= next_id (mgr w) + n -> good k (f a) w') ->
  good (n + k) (m ≫= f) w.
Proof.
  unfold good. rewrite st_bind_eq. destruct (m w) as [w' r]. intros (Hr & Hg & Hl & Hn) Hk Hf. destruct r as [a|e|].
  - specialize (Hf a w' eq_refl Hg Hl Hn). destruct (f a w') as [w'' r]. destruct Hf as (? & ? & Hl' & ?).
    split_and!; [done|done| |lia]. intros p Hp. by apply Hl', Hl.
  - split_and!; [done|done|done|lia].
  - done.
Qed.

(** the same when the first part does not touch [next_id] *)
Lemma good_seq {A B} k (m : st (dc_world W) A) (f : A -> st (dc_world W) B) w :
  good 0 m w -> 0 <= k ->
  (forall a w', m w = (w', Ok a) -> (exists g, dc_wf w' g) -> lives w w' -> good k (f a) w') ->
  good k (m ≫= f) w.
Proof. intros Hm Hk Hf. apply (dc_good_bind 0 k); auto. Qed.

Lemma good_here {A} w (r : res A) : (exists g, dc_wf w g) -> no_fault r -> good 0 (lift r) w.
Proof. intros Hg Hr. split_and!; [done|done|by intros p|lia]. Qed.

Lemma dc_good_ret {A} k w (a : A) : (exists g, dc_wf w g) -> 0 <= k -> good k (mret a) w.
Proof. intros Hg Hk. split_and!; [done|done|by intros p|lia]. Qed.

Lemma good_rd w p : (exists g, dc_wf w g) -> is_Some (dcs w !! p) -> good 0 (rd_dc p) w.
Proof.
  intros Hg [c Hc]. unfold good, rd_dc. rewrite st_bind_eq. cbn [get]. rewrite Hc.
  split_and!; [done|done|by intros q|lia].
Qed.

Lemma rd_dc_run w p c : dcs w !! p = Some c -> rd_dc p w = (w, Ok c).
Proof. intros Hc. unfold rd_dc. rewrite st_bind_eq. cbn [get]. by rewrite Hc. Qed.

(** a store that keeps the id and the label *)
Definition keeps (f : rtc_data_channel_t -> rtc_data_channel_t) : Prop :=
  forall c, id (f c) = id c /\ label (f c) = label c.

Definition upd w p c : dc_world W := DcWorld (mgr w) (<[p := c]> (dcs w)) (brk w) (events w) (net w).

Lemma upd_dc_run w p c f : dcs w !! p = Some c -> upd_dc p f w = (upd w p (f c), Ok ()).
Proof. intros Hc. unfold upd_dc. by rewrite (st_bind_run _ _ _ _ _ (rd_dc_run w p c Hc)). Qed.

Lemma wf_upd w g p c f : dc_wf w g -> dcs w !! p = Some c -> keeps f -> dc_wf (upd w p (f c)) g.
Proof.
  intros [Ht He Hh Hx Hsf] Hc Hk. destruct (Hk c) as [Ei El]. split; [done| | |done|done]; cbn [dcs upd brk].
  - intros i o Ho. destruct (He i o Ho) as (q & d & -> & Hq & Hi). destruct (decide (q = p)) as [->|].
    + exists p, (f c). rewrite lookup_insert_eq. split_and!; [done|done|congruence].
    + exists q, d. by rewrite lookup_insert_ne by done.
  - intros q d [[<- <-]|[_ Hq]]%lookup_insert_Some; [|by apply Hh]. rewrite Ei, El. by apply Hh.
Qed.

Lemma lives_upd w p c : lives w (upd w p c).
Proof. intros q Hq. cbn. rewrite lookup_insert_is_Some'. auto. Qed.

Lemma good_upd w p f : (exists g, dc_wf w g) -> is_Some (dcs w !! p) -> keeps f -> good 0 (upd_dc p f) w.
Proof.
  intros [g Hg] [c Hc] Hk. unfold good. rewrite (upd_dc_run _ _ _ _ Hc).
  split_and!; [done|exists g; by apply wf_upd|apply lives_upd|cbn; lia].
Qed.

Lemma wf_same w w' g :
  dc_wf w g -> channels (mgr w') = channels (mgr w) -> dcs w' = dcs w -> brk w' = brk w ->
  next_id (mgr w) <= next_id (mgr w') -> send_fn (mgr w') = send_fn (mgr w) -> dc_wf w' g.
Proof. intros [Ht He Hh Hx Hsf] E1 E2 E3 E4 E5. split; rewrite ?E1, ?E2, ?E3, ?E5; auto. lia. Qed.

Lemma good_emit_if w b ev : (exists g, dc_wf w g) -> good 0 (emit_if b ev) w.
Proof.
  intros [g Hg]. destruct b; [|apply dc_good_ret; [eauto|lia]].
  split_and!; [done|exists g; by eapply wf_same|by intros q|cbn; lia].
Qed.

Lemma keeps_state s : keeps (with_state s).
Proof. done. Qed.
Lemma keeps_buffered b : keeps (with_buffered b).
Proof. done. Qed.
Lemma keeps_sent n : keeps (add_sent n).
Proof. done. Qed.
Lemma keeps_received n : keeps (add_received n).
Proof. done. Qed.

Lemma dc_good_attempt {A} k (f : st (dc_world W) A) w : good k f w -> good k (st_attempt f) w.
Proof. unfold good, st_attempt. destruct (f w) as [w' r]. intros (? & ?). split; [by destruct r|done]. Qed.

Lemma dc_good_void {A} k (f : st (dc_world W) A) w : good k f w -> good k (void f) w.
Proof.
  intros Hf. replace k with (k + 0) by lia. apply dc_good_bind; [by apply dc_good_attempt|lia|].
  intros o w' _ Hg _ _. by apply dc_good_ret.
Qed.

Lemma good_weaken {A} n k (f : st (dc_world W) A) w : good n f w -> n <= k -> good k f w.
Proof. unfold good. destruct (f w). intros (? & ? & ? & ?) ?. split_and!; auto. lia. Qed.

Lemma good_code (f : st (dc_world W) unit) w : good 0 f w -> good 0 (st_code f) w.
Proof. unfold good, st_code. destruct (f w) as [w' [[]|e|]]; intros (? & ?); by split. Qed.

(** the transport below never faults *)
Context (Hsend : forall d (n : W), (dc_send_fn d n).2 <> Fault).

Lemma good_send_message alloc w p ty payload :
  (exists g, dc_wf w g) -> is_Some (dcs w !! p) -> good 0 (dc_send_message alloc p ty payload) w.
Proof.
  intros Hg Hp. apply good_seq; [by apply good_rd|lia|]. intros dc w1 E Hg1 _.
  unfold good. rewrite st_bind_eq. cbn [get]. change (good 0 ?f w1) with (good 0 f w1).
  apply good_seq; [apply good_here; auto; by destruct (send_fn _)|lia|]. intros [] ? _ Hg2' _.
  apply good_seq; [apply good_here; auto with mrtc_safe; by destruct (_ <? _)|lia|]. intros [] w2 _ Hg2 _.
  apply good_seq; [apply good_here; auto; by destruct alloc|lia|]. intros [] w3 _ [g Hg3] _.
  unfold good, on_net, zoom. specialize (Hsend (dc_wire (id dc) ty payload) (net w3)).
  destruct (dc_send_fn _ _) as [n r]. split_and!; [done|exists g; by eapply wf_same|by intros q|cbn; lia].
Qed.

Lemma good_find w i :
  (exists g, dc_wf w g) ->
  good 0 (dc_find_by_id i) w /\
  forall w' o, dc_find_by_id i w = (w', Ok o) -> w' = w /\ forall p, o = Some p -> is_Some (dcs w !! p).
Proof.
  intros [g Hg]. pose proof Hg as [[Hr _ _ _] He _ _ _].
  assert (dc_find_by_id i w = (w, Ok (default None (g !! i)))) as E.
  { unfold dc_find_by_id. rewrite st_bind_eq. cbn [get lift]. unfold lift. by rewrite (get_spec None _ g). }
  unfold good. rewrite E. split; [split_and!; [done|eauto|by intros q|lia]|].
  intros w' o [= <- <-]. split; [done|]. intros p Hp.
  destruct (g !! i) as [o|] eqn:Ei; [|done]. destruct (He i o Ei) as (q & c & -> & Hq & _). simpl in Hp.
  simplify_eq. eauto.
Qed.

Lemma good_send alloc w p data :
  (exists g, dc_wf w g) -> is_Some (dcs w !! p) -> good 0 (rtc_data_channel_send alloc p data) w.
Proof.
  intros Hg Hp. apply good_seq; [by apply good_rd|lia|]. intros dc w1 E Hg1 L1.
  apply good_seq; [apply good_here; auto; by destruct (negb _)|lia|]. intros [] w2 _ Hg2 L2.
  apply good_seq; [apply good_upd; auto using keeps_buffered|lia|]. intros [] w3 _ Hg3 L3.
  apply good_seq; [apply good_code, good_send_message; auto|lia|]. intros rc w4 _ Hg4 L4.
  apply good_seq; [apply good_upd; auto 6 using keeps_buffered|lia|]. intros [] w5 _ Hg5 L5.
  destruct rc; [by apply good_here|].
  apply good_seq; [apply good_upd; auto 8 using keeps_sent|lia|]. intros [] w6 _ Hg6 L6.
  apply good_seq; [apply good_rd; auto 8|lia|]. intros dc' w7 _ Hg7 _. by apply good_emit_if.
Qed.

Lemma good_close alloc w p :
  (exists g, dc_wf w g) -> is_Some (dcs w !! p) -> good 0 (rtc_data_channel_close alloc p) w.
Proof.
  intros Hg Hp. apply good_seq; [by apply good_rd|lia|]. intros dc w1 E Hg1 L1.
  case_bool_decide; [by apply dc_good_ret|].
  apply good_seq; [|lia|].
  - case_bool_decide; [|by apply dc_good_ret].
    apply good_seq; [apply good_upd; auto using keeps_state|lia|]. intros [] w2 _ Hg2 L2.
    apply dc_good_void, good_send_message; auto.
  - intros [] w2 _ Hg2 L2.
    apply good_seq; [apply good_upd; auto using keeps_state|lia|]. intros [] w3 _ Hg3 L3.
    apply good_seq; [apply good_rd; auto 8|lia|]. intros dc' w4 _ Hg4 _. by apply good_emit_if.
Qed.

(** a fresh channel enters the table, or is freed when that fails *)
Lemma enter_table w g c am i :
  dc_wf w g -> rtc_u32_map_len (channels (mgr w)) < 16 -> label_ok (label c) -> id c = i -> 0 <= i < 2 ^ 16 ->
  exists w1, dc_alloc c w = (w1, Ok (brk w)) /\
  ((exists w2, channels_set am i (brk w) w1 = (w2, Ok ()) /\ dc_wf w2 (<[i := Some (brk w)]> g) /\
      dcs w2 = <[brk w := c]> (dcs w) /\ net w2 = net w /\ events w2 = events w /\ brk w2 = brk w + 1 /\
      next_id (mgr w2) = next_id (mgr w) /\ on_channel (mgr w2) = on_channel (mgr w) /\
      dtls_connected (mgr w2) = dtls_connected (mgr w)) \/
   (am = false /\ exists w2 w3, channels_set am i (brk w) w1 = (w2, Err RTC_ERR_NOMEM) /\
      dc_free (brk w) w2 = (w3, Ok ()) /\ dc_wf w3 g /\ dcs w3 = dcs w /\ next_id (mgr w3) = next_id (mgr w))).
Proof.
  intros Hwf Hl Hlab Hid Hi. pose proof Hwf as [Ht He Hh Hx].
  assert (dcs w !! brk w = None) as Hfresh.
  { destruct (dcs w !! brk w) as [d|] eqn:E; [|done]. apply Hh in E. lia. }
  eexists. split; [done|]. unfold channels_set, zoom. cbn [mgr dcs brk events net put].
  destruct (table_set _ g am i (Some (brk w)) Ht Hl) as [(m' & -> & Ht')|[-> ->]].
  - left. eexists. split; [done|]. cbn. split_and!; try done. split; cbn; [done| | |done|done].
    + intros j o [[<- <-]|[Hne Hj]]%lookup_insert_Some.
      * exists (brk w), c. by rewrite lookup_insert_eq.
      * destruct (He j o Hj) as (q & d & -> & Hq & ?). exists q, d. split_and!; [done| |done].
        rewrite lookup_insert_ne; [done|]. congruence.
    + intros q d [[<- <-]|[_ Hq]]%lookup_insert_Some; [split_and!; [lia|done|lia..]|].
      destruct (Hh q d Hq) as (? & ? & ?). split_and!; [lia|done|lia..].
  - right. split; [done|]. do 2 eexists. split; [done|]. split.
    { unfold dc_free. rewrite (st_bind_run _ _ _ _ _ (rd_dc_run _ _ c (lookup_insert_eq _ _ _))). done. }
    cbn. rewrite delete_insert_id by done. split_and!; [|done|done]. split; cbn; [done|done| |done|done].
    intros q d Hq. destruct (Hh q d Hq) as (? & ? & ?). split_and!; [lia|done|lia..].
Qed.

Lemma good_of_run {A} k (f : st (dc_world W) A) w w' r g :
  f w = (w', r) -> r <> Fault -> dc_wf w' g -> lives w w' -> next_id (mgr w') <= next_id (mgr w) + k -> good k f w.
Proof. unfold good. intros ->. eauto. Qed.

Lemma lives_insert w w' p c : dcs w' = <[p := c]> (dcs w) -> lives w w'.
Proof. intros E q Hq. rewrite E, lookup_insert_is_Some'. auto. Qed.

(** the channel is allocated and put in the table; [f] goes on from there *)
Lemma good_enter {A} w c am i (fail : st (dc_world W) A) (f : Z -> st (dc_world W) A) :
  (exists g, dc_wf w g) -> rtc_u32_map_len (channels (mgr w)) < 16 ->
  label_ok (label c) -> id c = i -> 0 <= i < 2 ^ 16 ->
  (forall w', (exists g, dc_wf w' g) -> good 0 fail w') ->
  (forall p w', (exists g, dc_wf w' g) -> is_Some (dcs w' !! p) -> good 0 (f p) w') ->
  good 0 (p ← dc_alloc c; ok ← st_attempt (channels_set am i p);
          match ok with None => _ ← dc_free p; fail | Some _ => f p end) w.
Proof.
  intros [g Hg] Hl Hlab Hid Hi Hfail Hf.
  destruct (enter_table w g c am i Hg Hl Hlab Hid Hi) as (w1 & E1 & [(w2 & E2 & Hg2 & Ed & _ & _ & _ & En & _)|
    (-> & w2 & w3 & E2 & E3 & Hg3 & Ed & En)]); unfold good; rewrite (st_bind_run _ _ _ _ _ E1), st_bind_eq;
    unfold st_attempt; rewrite E2; cbn [attempt].
  - specialize (Hf (brk w) w2 (ex_intro _ _ Hg2)). rewrite Ed, lookup_insert_eq in Hf. specialize (Hf ltac:(eauto)).
    unfold good in Hf. destruct (f (brk w) w2) as [w3 r]. destruct Hf as (? & ? & Hl3 & ?).
    split_and!; [done|done| |lia]. intros q Hq. apply Hl3. by apply (lives_insert w w2 (brk w) c Ed).
  - rewrite (st_bind_run _ _ _ _ _ E3). specialize (Hfail w3 (ex_intro _ _ Hg3)). unfold good in Hfail.
    destruct (fail w3) as [w4 r]. destruct Hfail as (? & ? & Hl4 & ?). split_and!; [done|done| |lia].
    intros q Hq. apply Hl4. by rewrite Ed.
Qed.

Definition c_str_ok (l : option bytes) : Prop :=
  match l with Some l => exists s, c_string l = Ok s | None => True end.

Lemma auto_id_run w :
  0 <= next_id (mgr w) -> next_id (mgr w) + 2 <= INT_MAX ->
  next_auto_id w = (DcWorld (Mgr (channels (mgr w)) (next_id (mgr w) + 2) (on_channel (mgr w)) (dtls_connected (mgr w)) (send_fn (mgr w)))
                      (dcs w) (brk w) (events w) (net w), Ok (u16 (next_id (mgr w)))).
Proof.
  intros H0 Hn. unfold next_auto_id. rewrite st_bind_eq. cbn [get].
  rewrite (st_bind_lift _ _ _ (next_id (mgr w) + 2)); [done|]. apply int_val_Ok. lia.
Qed.

Lemma assign_id_good opts w g :
  dc_wf w g -> next_id (mgr w) + 2 <= INT_MAX ->
  good 2 (assign_id opts) w /\
  forall w' i, assign_id opts w = (w', Ok i) -> channels (mgr w') = channels (mgr w) /\ 0 <= i < 2 ^ 16.
Proof.
  intros Hg Hn. pose proof (wf_next _ _ Hg) as H0.
  assert (good 2 next_auto_id w /\ forall w' i, next_auto_id w = (w', Ok i) ->
            channels (mgr w') = channels (mgr w) /\ 0 <= i < 2 ^ 16) as Ha.
  { rewrite auto_id_run by done. split.
    - eapply good_of_run; [by apply auto_id_run|done|eapply wf_same; [exact Hg|done..|cbn; lia|done]|by intros q|cbn; lia].
    - intros w' i [= <- <-]. split; [done|apply u16_range]. }
  destruct opts as [[i]|]; [|done]. cbn [assign_id]. destruct (0 <=? i); [|done].
  split; [apply dc_good_ret; eauto; lia|]. intros w' j [= <- <-]. split; [done|apply u16_range].
Qed.

Lemma good_create ac am as_ l opts w :
  (exists g, dc_wf w g) -> c_str_ok l -> next_id (mgr w) + 2 <= INT_MAX ->
  good 2 (rtc_dc_manager_create_channel ac am as_ l opts) w.
Proof.
  intros Hg Hl Hn. unfold rtc_dc_manager_create_channel.
  unfold good. rewrite st_bind_eq. cbn [get]. change (good 2 ?f w) with (good 2 f w).
  destruct ((_ <=? _) || _) eqn:E; [by apply dc_good_ret|]. apply orb_false_elim in E as [E _].
  apply Z.leb_gt in E. unfold RTC_DC_MAX_CHANNELS in E.
  apply (good_seq 2); [apply good_here; [done|]|lia|].
  { destruct l as [l|]; [|done]. destruct Hl as [s ->]. done. }
  intros text w0 E0 _ _. apply lift_Ok in E0 as [E0 ->].
  assert (label_ok text) as Ht.
  { destruct l as [l|]; [|apply Ok_inj in E0 as <-; apply label_array_ok].
    destruct Hl as [s Hs]. rewrite Hs in E0. apply Ok_inj in E0 as <-. apply label_array_ok. }
  destruct Hg as [g Hg]. destruct (assign_id_good opts w g Hg Hn) as [Ha Hi].
  apply (dc_good_bind 2 0); [done|lia|]. intros i w1 E1 Hg1 _ _. destruct (Hi w1 i E1) as [Em Hr].
  apply (good_enter w1 (dc_new text i RTC_DC_CONNECTING true)); auto.
  - by rewrite Em.
  - intros w' Hw'. by apply dc_good_ret.
  - intros p w2 Hg2 Hp. apply good_seq; [|lia|intros [] w3 _ Hg3 _; by apply dc_good_ret].
    destruct (dtls_connected _); [|by apply dc_good_ret].
    destruct Ht as (s & Hs & _). apply good_seq; [apply good_here; [done|by rewrite Hs]|lia|].
    intros s' w3 E3 Hg3 L3. apply dc_good_void, good_send_message; auto.
Qed.

Lemma good_recv_open ac am as_ i payload w :
  (exists g, dc_wf w g) -> 0 <= i < 2 ^ 16 -> good 0 (recv_open ac am as_ i payload) w.
Proof.
  intros Hg Hi. destruct (good_find w i Hg) as [Hf Ho].
  apply good_seq; [done|lia|]. intros o w1 E1 _ _. destruct (Ho w1 o E1) as [-> Hp]. destruct o as [p|].
  - specialize (Hp p eq_refl).
    apply good_seq; [apply good_upd; auto using keeps_state|lia|]. intros [] w2 _ Hg2 L2.
    apply good_seq; [apply dc_good_void, good_send_message; auto|lia|]. intros [] w3 _ Hg3 L3.
    apply good_seq; [apply good_rd; auto|lia|]. intros dc w4 _ Hg4 _. by apply good_emit_if.
  - unfold good. rewrite st_bind_eq. cbn [get]. change (good 0 ?f w) with (good 0 f w).
    apply good_seq; [apply good_here; [done|by destruct (_ <=? _)]|lia|]. intros [] w2 E2 _ _.
    apply lift_Ok in E2 as [E2 ->]. apply fail_if_Ok, Z.leb_gt in E2.
    apply good_seq; [apply good_here; [done|by destruct ac]|lia|]. intros [] w3 E3 _ _.
    apply lift_Ok in E3 as [E3 ->].
    apply (good_enter w (dc_new (label_array payload) i RTC_DC_OPEN false)); [done|done|apply label_array_ok|done|done| |].
    + intros w' Hw'. by apply good_here.
    + intros p w2 Hg2 Hp2. apply good_seq; [apply dc_good_void, good_send_message; auto|lia|].
      intros [] w4 _ Hg4 _. by apply good_emit_if.
Qed.

(** the three cases that act on a channel of the table in a given state *)
Lemma good_on_channel w i (test : rtc_data_channel_t -> bool) f (ev : rtc_data_channel_t -> Z -> bool * dc_event) :
  (exists g, dc_wf w g) -> keeps f ->
  good 0 (o ← dc_find_by_id i;
          match o with
          | None => mret ()
          | Some p => dc ← rd_dc p;
                      if test dc then _ ← upd_dc p f; emit_if (ev dc p).1 (ev dc p).2 else mret ()
          end) w.
Proof.
  intros Hg Hf. destruct (good_find w i Hg) as [Hfi Ho].
  apply good_seq; [done|lia|]. intros o w1 E1 _ _. destruct (Ho w1 o E1) as [-> Hp].
  destruct o as [p|]; [|by apply dc_good_ret]. specialize (Hp p eq_refl).
  apply good_seq; [by apply good_rd|lia|]. intros dc w2 _ Hg2 L2. destruct (test dc); [|by apply dc_good_ret].
  apply good_seq; [apply good_upd; auto|lia|]. intros [] w3 _ Hg3 _. by apply good_emit_if.
Qed.

Lemma good_recv ac am as_ data w :
  (exists g, dc_wf w g) -> bytes_ok data -> good 0 (rtc_dc_manager_recv ac am as_ data) w.
Proof.
  intros Hg Hd. unfold rtc_dc_manager_recv, RTC_DC_HEADER_SIZE.
  destruct (Z.ltb_spec (blen data) 6); [by apply good_here|]. cbn [fail_if].
  apply good_seq; [by apply good_here|lia|]. intros [] w1 _ Hg1 _.
  destruct (rd_u16_in_range data 0) as [i Ei]; [lia..|]. rewrite Ei.
  apply good_seq; [by apply good_here|lia|]. intros i' w2 E2 Hg2 _. apply lift_Ok in E2 as [<-%Ok_inj ->].
  destruct (rd_in_range data 2) as [ty Ety]; [lia|]. rewrite Ety.
  apply good_seq; [by apply good_here|lia|]. intros ty' w3 E3 Hg3 _. apply lift_Ok in E3 as [<-%Ok_inj ->].
  destruct (rd_u16_in_range data 4) as [n En]; [lia..|]. rewrite En. pose proof (rd_u16_range _ _ _ Hd En).
  apply good_seq; [by apply good_here|lia|]. intros n' w4 E4 Hg4 _. apply lift_Ok in E4 as [<-%Ok_inj ->].
  destruct (Z.ltb_spec (blen data) (6 + n)); [by apply good_here|]. cbn [fail_if].
  apply good_seq; [by apply good_here|lia|]. intros [] w5 _ Hg5 _.
  rewrite sub_Ok by lia. apply good_seq; [by apply good_here|lia|]. intros pl w6 E6 Hg6 _. clear E6.
  pose proof (rd_u16_range _ _ _ Hd Ei).
  destruct (ty =? _); [by apply good_recv_open|].
  destruct (ty =? _); [by apply (good_on_channel w6 i (fun dc => bool_decide (state dc = RTC_DC_CONNECTING)) (with_state RTC_DC_OPEN)
    (fun dc p => (on_open dc, EvOpen p)))|].
  destruct (ty =? _); [by apply (good_on_channel w6 i (fun dc => bool_decide (state dc = RTC_DC_OPEN)) (add_received (blen pl))
    (fun dc p => (on_message dc, EvMessage p pl)))|].
  destruct (ty =? _); [by apply (good_on_channel w6 i (fun dc => negb (bool_decide (state dc = RTC_DC_CLOSED)))
    (with_state RTC_DC_CLOSED) (fun dc p => (on_close dc, EvClose p)))|].
  by apply dc_good_ret.
Qed.

Lemma entries_perm m g : table_wf m g -> entries_of m ≡ₚ map_to_list g.
Proof. intros [Hr _ _ _]. by apply iterate_repr. Qed.

Lemma entries_in w g kv :
  dc_wf w g -> kv ∈ entries_of (channels (mgr w)) ->
  exists p c, kv.2 = Some p /\ dcs w !! p = Some c /\ id c = kv.1 /\ g !! kv.1 = Some (Some p).
Proof.
  intros Hg Hin. rewrite (entries_perm _ g) in Hin by apply Hg. destruct kv as [i o].
  apply elem_of_map_to_list in Hin. destruct (wf_entry _ _ Hg i o Hin) as (p & c & -> & Hp & Hc).
  exists p, c. split_and!; auto.
Qed.

Lemma good_each {A} (f : A -> st (dc_world W) unit) l : forall w,
  (exists g, dc_wf w g) ->
  (forall a w', a ∈ l -> (exists g, dc_wf w' g) -> lives w w' -> good 0 (f a) w') -> good 0 (st_each f l) w.
Proof.
  induction l as [|a l IH]; intros w Hg Hf; [by apply dc_good_ret|]. cbn [st_each].
  apply good_seq; [apply Hf; [left|done|by intros q]|lia|]. intros [] w' _ Hg' L'.
  apply IH; [done|]. intros b w'' Hb Hg'' L''. apply Hf; [by right|done|]. intros q Hq. by apply L'', L'.
Qed.

Lemma good_connected alloc w :
  (exists g, dc_wf w g) -> good 0 (rtc_dc_manager_on_dtls_connected alloc) w.
Proof.
  intros [g Hg]. unfold rtc_dc_manager_on_dtls_connected, good. rewrite st_bind_eq. cbn [get].
  change (good 0 ?f w) with (good 0 f w).
  apply good_seq; [|lia|].
  { eapply good_of_run; [done|done|eapply (wf_same w); [exact Hg|done..]|by intros q|cbn; lia]. }
  intros [] w1 _ Hg1 L1. apply good_each; [done|]. intros kv w2 Hin Hg2 L2.
  destruct (entries_in w g kv Hg Hin) as (p & c & Ep & Hp & _). unfold open_pending. rewrite Ep.
  apply good_seq; [apply good_rd; [done|by apply L2, L1]|lia|]. intros dc w3 E3 Hg3 L3.
  destruct (_ && _); [|by apply dc_good_ret].
  assert (label_ok (label dc)) as (s & Hs & _).
  { destruct Hg2 as [g2 Hg2]. destruct (L2 p) as [d Ed]; [apply L1; eauto|].
    rewrite (rd_dc_run _ _ _ Ed) in E3. simplify_eq. by destruct (wf_heap _ _ Hg2 _ _ Ed) as (_ & ? & _). }
  rewrite Hs. apply good_seq; [by apply good_here|lia|]. intros s' w4 _ Hg4 L4.
  apply dc_good_void, good_send_message; [done|]. apply L4, L3, L2, L1. eauto.
Qed.

(** ** Histories of calls *)

(** what the application, the peer and the transport may do, in any order *)
Inductive dc_call :=
| CallCreate (ac am as_ : bool) (l : option bytes) (opts : option rtc_data_channel_init_t)
| CallConnected (alloc : Z -> bool)
| CallRecv (ac am as_ : bool) (data : bytes)
| CallSend (alloc : bool) (p : Z) (data : bytes)
| CallSendText (alloc : bool) (p : Z) (text : bytes)
| CallClose (alloc : bool) (p : Z)
| CallOnMessage (p : Z) (fn : bool)
| CallOnBufferedLow (p : Z) (fn : bool)
| CallThreshold (p thr : Z).

Definition run_call (c : dc_call) : st (dc_world W) unit :=
  match c with
  | CallCreate ac am as_ l opts => void (rtc_dc_manager_create_channel ac am as_ l opts)
  | CallConnected alloc => void (rtc_dc_manager_on_dtls_connected alloc)
  | CallRecv ac am as_ d => void (rtc_dc_manager_recv ac am as_ d)
  | CallSend a p d => void (rtc_data_channel_send a p d)
  | CallSendText a p t => void (rtc_data_channel_send_text a p t)
  | CallClose a p => void (rtc_data_channel_close a p)
  | CallOnMessage p fn => rtc_data_channel_on_message p fn
  | CallOnBufferedLow p fn => rtc_data_channel_on_buffered_amount_low p fn
  | CallThreshold p thr => rtc_data_channel_set_buffered_amount_low_threshold p thr
  end.

(** the application passes channels it was given and C strings; the peer may
    send any bytes *)
Definition call_ok w (c : dc_call) : Prop :=
  match c with
  | CallCreate _ _ _ l _ => c_str_ok l
  | CallConnected _ => True
  | CallRecv _ _ _ d => bytes_ok d
  | CallSend _ p _ | CallClose _ p | CallOnMessage p _ | CallOnBufferedLow p _ | CallThreshold p _ =>
      is_Some (dcs w !! p)
  | CallSendText _ p t => is_Some (dcs w !! p) /\ c_str_ok (Some t)
  end.

Inductive history w : list dc_call -> dc_world W -> Prop :=
| history_nil : history w [] w
| history_snoc cs c w1 : history w cs w1 -> call_ok w1 c -> history w (cs ++ [c]) (run_call c w1).1.

Lemma dc_good_call w c :
  (exists g, dc_wf w g) -> call_ok w c -> next_id (mgr w) + 2 <= INT_MAX -> good 2 (run_call c) w.
Proof.
  intros Hg Hc Hn.
  destruct c; cbn [run_call call_ok] in *; try apply dc_good_void; try (by apply good_create);
    apply (good_weaken 0); try lia; auto using good_connected, good_recv, good_send, good_close; try (by apply good_upd).
  destruct Hc as [Hp [s Hs]]. unfold rtc_data_channel_send_text. rewrite Hs.
  apply good_seq; [by apply good_here|lia|]. intros s' w' E Hg' L. apply good_send; auto.
Qed.

Lemma history_good w cs w' g :
  dc_wf w g -> history w cs w' -> next_id (mgr w) + 2 * blen cs + 2 <= INT_MAX ->
  (exists g', dc_wf w' g') /\ next_id (mgr w') <= next_id (mgr w) + 2 * blen cs /\ lives w w'.
Proof.
  intros Hg Hh. induction Hh as [|cs c w1 Hh IH Hc]; intros Hn.
  { split_and!; [eauto|change (blen []) with 0; lia|by intros q]. }
  rewrite blen_app, blen_cons, blen_nil in *. destruct IH as (Hg1 & Hn1 & L1); [lia|].
  pose proof (dc_good_call w1 c Hg1 Hc ltac:(lia)) as Hcall. unfold good in Hcall.
  destruct (run_call c w1) as [w2 r]. destruct Hcall as (_ & Hg2 & L2 & Hn2). cbn.
  split_and!; [done|lia|]. intros q Hq. by apply L2, L1.
Qed.

(** ** Tearing the manager down *)

Lemma free_all l : forall w,
  NoDup (l.*1) ->
  (forall kv, kv ∈ l -> exists p c, kv.2 = Some p /\ dcs w !! p = Some c /\ id c = kv.1) ->
  exists w', st_each (fun kv : Z * option Z => match kv.2 with Some p => dc_free p | None => mret () end) l w = (w', Ok ()) /\
    mgr w' = mgr w /\
    forall p c, dcs w' !! p = Some c <-> dcs w !! p = Some c /\ (id c, Some p) ∉ l.
Proof.
  induction l as [|[i o] l IH]; intros w Hnd Hl.
  { exists w. split_and!; [done|done|]. intros p c. set_solver. }
  destruct (Hl (i, o)) as (p & c & E & Hp & Hi); [left|]. cbn in E, Hi, Hnd. subst o i.
  apply NoDup_cons in Hnd as [Hni Hnd].
  set (w1 := DcWorld (mgr w) (delete p (dcs w)) (brk w) (events w) (net w)).
  assert (forall kv, kv ∈ l -> exists q d, kv.2 = Some q /\ dcs w1 !! q = Some d /\ id d = kv.1) as Hl1.
  { intros kv Hkv. destruct (Hl kv) as (q & d & Eq & Hq & Hd); [by right|]. exists q, d. split_and!; auto.
    cbn. rewrite lookup_delete_ne; [done|]. intros ->. apply Hni. rewrite Hp in Hq. simplify_eq.
    rewrite Hd. by apply list_elem_of_fmap_2. }
  destruct (IH w1 Hnd Hl1) as (w' & E' & Em & Hw'). exists w'. cbn [st_each snd].
  assert (dc_free p w = (w1, Ok ())) as Ef.
  { unfold dc_free. by rewrite (st_bind_run _ _ _ _ _ (rd_dc_run w p c Hp)). }
  rewrite (st_bind_run _ _ _ _ _ Ef). split_and!; [done|done|]. intros q d. rewrite Hw'. cbn.
  rewrite lookup_delete_Some, not_elem_of_cons. split; [|naive_solver].
  intros [[? ?] ?]. split_and!; auto. congruence.
Qed.

Lemma close_manager_run w g :
  dc_wf w g ->
  exists w', rtc_dc_manager_close w = (w', Ok ()) /\
    (forall p c, dcs w' !! p = Some c <-> dcs w !! p = Some c /\ g !! id c <> Some (Some p)) /\
    rtc_u32_map_len (channels (mgr w')) = 0.
Proof.
  intros Hg. pose proof (entries_perm _ _ (wf_table _ _ Hg)) as Hperm.
  unfold rtc_dc_manager_close. rewrite st_bind_eq. cbn [get].
  destruct (free_all (entries_of (channels (mgr w))) w) as (w' & E & Em & Hw').
  - rewrite Hperm. apply NoDup_fst_map_to_list.
  - intros kv Hkv. destruct (entries_in w g kv Hg Hkv) as (p & c & ? & ? & ? & _). eauto.
  - rewrite (st_bind_run _ _ _ _ _ E). eexists. split; [done|]. cbn. split; [|done].
    intros p c. by rewrite Hw', Hperm, elem_of_map_to_list.
Qed.

(** C33: Whatever sequence of calls the application makes on a fresh data
    channel manager, whatever bytes the peer sends and whichever allocations
    and sends fail, no call touches memory it does not own, the table never
    holds more than 16 channels, every channel of the table is alive under its
    own id, and the final rtc_dc_manager_close frees each of them exactly once.
    (Fewer than 2^30 - 1 calls, so that the automatic ids stay in an int.) *)
Theorem dc_manager_safe (n : W) (cs : list dc_call) (w : dc_world W) :
  history (DcWorld (rtc_dc_manager_init true) ∅ 0 [] n) cs w -> blen cs < 2 ^ 30 - 1 ->
  (forall c, call_ok w c -> (run_call c w).2 <> Fault) /\
  exists g, u32_repr (channels (mgr w)) g /\ (size g <= 16)%nat /\
    (forall i o, g !! i = Some o -> exists p c, o = Some p /\ dcs w !! p = Some c /\ id c = i) /\
    exists w', rtc_dc_manager_close w = (w', Ok ()) /\
      forall p c, dcs w' !! p = Some c <-> dcs w !! p = Some c /\ g !! id c <> Some (Some p).
Proof.
  intros Hh Hn.
  assert (dc_wf (DcWorld (rtc_dc_manager_init true) ∅ 0 [] n) ∅) as H0.
  { split; cbn; [apply table_empty|set_solver|set_solver|lia|done]. }
  destruct (history_good _ _ _ _ H0 Hh) as ([g Hg] & Hx & _); [cbn; unfold INT_MAX; lia|]. cbn in Hx.
  split.
  - intros c Hc. pose proof (dc_good_call w c ltac:(eauto) Hc) as Hcall. unfold good in Hcall.
    destruct (run_call c w). apply Hcall. unfold INT_MAX. lia.
  - exists g. destruct (close_manager_run w g Hg) as (w' & E & Hw' & _). pose proof Hg as [[] He _ _]. eauto 8.
Qed.
End Inv.

(** ** Two managers over a transport that delivers *)

(** the transport below keeps the messages in the order they were sent *)
#[export] Instance queue_send : DcSend (list bytes) := fun d n => (n ++ [d], Ok ()).

Abbreviation peer := (dc_world (list bytes)).

(** the messages of [l] arrive in order and are all accepted *)
Definition deliver (l : list bytes) : st peer unit := st_each (rtc_dc_manager_recv true true true) l.

(** the peer with its queue of sent messages emptied *)
Definition drained (w : peer) : peer := DcWorld (mgr w) (dcs w) (brk w) (events w) [].

(** the channel the table has under an id *)
Definition chan_of (w : peer) (i : Z) : option (Z * rtc_data_channel_t) :=
  match rtc_u32_map_get None (channels (mgr w)) i with
  | Ok (Some p) => c ← dcs w !! p; Some (p, c)
  | _ => None
  end.

(** a channel waiting for its OPEN message to be sent *)
Definition pending (c : rtc_data_channel_t) : bool :=
  locally_created c && bool_decide (state c = RTC_DC_CONNECTING).

(** the application sends the messages of [l], each on the channel of its id *)
Definition send_all (l : list (Z * bytes)) : st peer unit :=
  st_each (fun x => o ← dc_find_by_id x.1;
                    match o with Some p => rtc_data_channel_send true p x.2 | None => mret () end) l.

(** the application registers its message callback on the channels of [ids] *)
Definition listen (ids : list Z) : st peer unit :=
  st_each (fun i => o ← dc_find_by_id i;
                    match o with Some p => rtc_data_channel_on_message p true | None => mret () end) ids.

Section Pair.
Implicit Types (w a b : peer) (g : gmap Z (option Z)).

Lemma chan_of_Some w g i p c :
  dc_wf w g -> chan_of w i = Some (p, c) <-> g !! i = Some (Some p) /\ dcs w !! p = Some c.
Proof.
  intros Hg. unfold chan_of. pose proof Hg as [[Hr _ _ _] He _ _ _]. rewrite (get_spec None _ g) by done.
  destruct (g !! i) as [o|] eqn:E; [|naive_solver]. destruct (He i o E) as (q & d & -> & Hq & _). cbn.
  rewrite Hq. cbn. naive_solver.
Qed.

Lemma chan_of_id w g i p c : dc_wf w g -> chan_of w i = Some (p, c) -> id c = i /\ 0 <= i < 2 ^ 16.
Proof.
  intros Hg Hc. apply (chan_of_Some w g) in Hc as [Hi Hp]; [|done].
  destruct (wf_entry _ _ Hg i _ Hi) as (q & d & E & Hq & Hd). simplify_eq.
  split; [done|]. by destruct (wf_heap _ _ Hg _ _ Hp) as (_ & _ & ?).
Qed.

Definition push w (l : list bytes) : peer := DcWorld (mgr w) (dcs w) (brk w) (events w) (net w ++ l).

Lemma send_message_run w p c ty payload :
  send_fn (mgr w) = true -> dcs w !! p = Some c -> blen payload <= RTC_DC_MAX_MSG_SIZE ->
  dc_send_message true p ty payload w = (push w [dc_wire (id c) ty payload], Ok ()).
Proof.
  intros Hs Hp Hl. unfold dc_send_message. rewrite (st_bind_run _ _ _ _ _ (rd_dc_run w p c Hp)), st_bind_eq. cbn [get]. rewrite Hs.
  rewrite (proj2 (Z.ltb_ge RTC_DC_MAX_MSG_SIZE _)) by done. done.
Qed.

Lemma void_Ok {S A} (f : st S A) s s' r : f s = (s', Ok r) -> void f s = (s', Ok ()).
Proof. intros E. by eapply void_run. Qed.

(** the OPEN messages on_dtls_connected sends, for the table's entries *)
Definition open_msg w (kv : Z * option Z) : list bytes :=
  match chan_of w kv.1 with
  | Some (p, c) => if pending c then
                     match c_string (label c) with Ok s => [dc_wire kv.1 RTC_DC_MSG_OPEN s] | _ => [] end
                   else []
  | None => []
  end.

Lemma open_pending_run w w0 g kv :
  dc_wf w0 g -> send_fn (mgr w) = true -> dcs w = dcs w0 -> kv ∈ entries_of (channels (mgr w0)) ->
  open_pending (fun _ => true) kv w = (push w (open_msg w0 kv), Ok ()).
Proof.
  intros Hg Hsf Ed Hin. destruct (entries_in w0 g kv Hg Hin) as (p & c & Ep & Hp & Hi & Hgi).
  destruct kv as [i o]. cbn in *. subst o. unfold open_pending, open_msg. cbn [fst snd].
  rewrite (proj2 (chan_of_Some w0 g i p c Hg)) by done.
  assert (dcs w !! p = Some c) as Hpw by by rewrite Ed.
  rewrite (st_bind_run _ _ _ _ _ (rd_dc_run w p c Hpw)). fold (pending c).
  destruct (pending c); [|unfold push; rewrite app_nil_r; by destruct w].
  destruct (wf_heap _ _ Hg p c Hp) as (_ & (s & Hs & Hl) & _). rewrite Hs.
  rewrite (st_bind_lift _ _ _ _ eq_refl). rewrite <-Hi.
  apply (void_Ok _ _ _ ()), send_message_run; [done..|]. unfold RTC_DC_MAX_MSG_SIZE. lia.
Qed.

Lemma connected_run w g :
  dc_wf w g ->
  exists w1, rtc_dc_manager_on_dtls_connected (fun _ => true) w = (w1, Ok ()) /\
    dc_wf w1 g /\ channels (mgr w1) = channels (mgr w) /\ dcs w1 = dcs w /\
    net w1 = net w ++ concat (open_msg w <$> entries_of (channels (mgr w))).
Proof.
  intros Hg. unfold rtc_dc_manager_on_dtls_connected. rewrite st_bind_eq. cbn [get].
  unfold put_mgr at 1. rewrite st_bind_eq. cbn [modify]. set (w0 := DcWorld _ _ _ _ _).
  assert (forall l v, (forall kv, kv ∈ l -> kv ∈ entries_of (channels (mgr w))) -> send_fn (mgr v) = true -> dcs v = dcs w ->
    st_each (open_pending (fun _ => true)) l v = (push v (concat (open_msg w <$> l)), Ok ())) as Hl.
  { induction l as [|kv l IH]; intros v Hin Hsf Hd.
    - cbn. unfold push. rewrite app_nil_r. by destruct v.
    - cbn [st_each]. rewrite (st_bind_run _ _ _ _ _ (open_pending_run v w g kv Hg Hsf Hd (Hin kv ltac:(left)))).
      rewrite IH; [|intros; apply Hin; by right|done|done]. unfold push. cbn. by rewrite app_assoc. }
  rewrite Hl by (done || apply (wf_send _ _ Hg)). eexists. split; [done|]. split_and!; try done.
  by eapply wf_same; [exact Hg|..].
Qed.

(** ** The receiver of an OPEN *)

Lemma recv_open_run w g i s :
  dc_wf w g -> g !! i = None -> (size g < 16)%nat -> 0 <= i < 2 ^ 16 -> blen s <= 127 ->
  exists w1, rtc_dc_manager_recv true true true (dc_wire i RTC_DC_MSG_OPEN s) w = (w1, Ok ()) /\
    dc_wf w1 (<[i := Some (brk w)]> g) /\ dcs w1 = <[brk w := dc_new (label_array s) i RTC_DC_OPEN false]> (dcs w) /\
    net w1 = net w ++ [dc_wire i RTC_DC_MSG_ACK []] /\
    events w1 = events w ++ (if on_channel (mgr w) then [EvChannel (brk w)] else []) /\
    on_channel (mgr w1) = on_channel (mgr w).
Proof.
  intros Hg Hi Hs Hr Hl. rewrite recv_wire by (done || unfold RTC_DC_MAX_MSG_SIZE; lia).
  change (dispatch true true true i RTC_DC_MSG_OPEN s w) with (recv_open true true true i s w).
  pose proof (wf_table _ _ Hg) as Ht. pose proof (table_len _ _ Ht) as El.
  unfold recv_open, dc_find_by_id. rewrite st_bind_eq, st_bind_eq. cbn [get]. unfold lift at 1.
  rewrite (get_spec None _ g) by apply Ht. rewrite Hi. cbn [default]. rewrite st_bind_eq. cbn [get].
  unfold RTC_DC_MAX_CHANNELS. rewrite (proj2 (Z.leb_gt 16 _)) by lia. cbn [fail_if negb].
  rewrite !(st_bind_lift _ _ _ _ eq_refl).
  destruct (enter_table w g (dc_new (label_array s) i RTC_DC_OPEN false) true i Hg)
    as (w1 & E1 & [(w2 & E2 & Hg2 & Ed & En & Ee & Eb & _ & Eo & _)|(? & _)]); try done;
    [unfold rtc_u32_map_len in *; lia|apply label_array_ok|].
  rewrite (st_bind_run _ _ _ _ _ E1), (st_bind_run _ _ _ _ _ (st_attempt_Ok _ _ _ _ E2)).
  assert (dcs w2 !! brk w = Some (dc_new (label_array s) i RTC_DC_OPEN false)) as Hp
    by (rewrite Ed; apply lookup_insert_eq).
  rewrite (st_bind_run _ _ _ _ _ (void_Ok _ _ _ _ (send_message_run w2 (brk w) _ RTC_DC_MSG_ACK [] (wf_send _ _ Hg2) Hp ltac:(done)))).
  destruct (on_channel (mgr w)); (eexists; split; [done|]); cbn; rewrite ?En, ?Ee, ?app_nil_r; split_and!; try done;
    by eapply wf_same; [exact Hg2|..].
Qed.

Lemma deliver_cons d l w w1 : rtc_dc_manager_recv true true true d w = (w1, Ok ()) -> deliver (d :: l) w = deliver l w1.
Proof. intros E. unfold deliver. cbn [st_each]. by rewrite (st_bind_run _ _ _ _ _ E). Qed.

(** the peer of each OPEN has the channel afterwards, and what it had before *)
Lemma deliver_opens (l : list (Z * bytes)) : forall w g,
  dc_wf w g -> NoDup l.*1 -> (forall i s, (i, s) ∈ l -> g !! i = None /\ 0 <= i < 2 ^ 16 /\ blen s <= 127) ->
  (size g + length l <= 16)%nat -> on_channel (mgr w) = true ->
  exists w1 g1, deliver ((fun x => dc_wire x.1 RTC_DC_MSG_OPEN x.2) <$> l) w = (w1, Ok ()) /\ dc_wf w1 g1 /\
    net w1 = net w ++ ((fun x : Z * bytes => dc_wire x.1 RTC_DC_MSG_ACK []) <$> l) /\ g ⊆ g1 /\ dcs w ⊆ dcs w1 /\
    (forall ev, ev ∈ events w -> ev ∈ events w1) /\
    forall i s, (i, s) ∈ l -> exists q, g1 !! i = Some (Some q) /\
      dcs w1 !! q = Some (dc_new (label_array s) i RTC_DC_OPEN false) /\ EvChannel q ∈ events w1.
Proof.
  induction l as [|[i s] l IH]; intros w g Hg Hnd Hl Hs Ho.
  { exists w, g. cbn. rewrite app_nil_r. split_and!; try done. set_solver. }
  destruct (Hl i s) as (Hi & Hr & Hb); [left|]. cbn in Hnd, Hs. apply NoDup_cons in Hnd as [Hni Hnd].
  destruct (recv_open_run w g i s Hg Hi ltac:(lia) Hr Hb) as (w1 & E1 & Hg1 & Ed1 & En1 & Ee1 & Eo1).
  rewrite Ho in Ee1.
  destruct (IH w1 (<[i := Some (brk w)]> g)) as (w2 & g2 & E2 & Hg2 & En2 & Hsub & Hd & Hev & Hin); auto.
  - intros j t Hj. destruct (Hl j t) as (? & ? & ?); [by right|]. split_and!; auto; [|lia..].
    rewrite lookup_insert_ne; [done|]. intros ->. apply Hni. change j with (j, t).1. by apply list_elem_of_fmap_2.
  - rewrite map_size_insert_None by done. lia.
  - congruence.
  - assert (dcs w !! brk w = None) as Hf.
    { destruct (dcs w !! brk w) eqn:E; [|done]. apply (wf_heap _ _ Hg) in E. lia. }
    exists w2, g2. rewrite !fmap_cons. cbn [fst snd]. rewrite (deliver_cons _ _ _ _ E1), E2, En2, En1, <-app_assoc. split_and!; try done.
    + etrans; [|exact Hsub]. by apply insert_subseteq.
    + etrans; [|exact Hd]. rewrite Ed1. by apply insert_subseteq.
    + intros ev Hv. apply Hev. rewrite Ee1. set_solver.
    + intros j t [[= -> ->]|Hj]%elem_of_cons; [|by apply Hin]. exists (brk w). split_and!.
      * eapply lookup_weaken; [apply lookup_insert_eq|exact Hsub].
      * eapply lookup_weaken; [|exact Hd]. rewrite Ed1. apply lookup_insert_eq.
      * apply Hev. rewrite Ee1. set_solver.
Qed.

(** ** The creator's side of the acknowledgement *)

Lemma find_run w g i p c : dc_wf w g -> chan_of w i = Some (p, c) -> dc_find_by_id i w = (w, Ok (Some p)).
Proof.
  intros Hg [Hi _]%(chan_of_Some w g); [|done]. unfold dc_find_by_id. rewrite st_bind_eq. cbn [get]. unfold lift.
  rewrite (get_spec None _ g) by apply Hg. by rewrite Hi.
Qed.

Definition log w (l : list dc_event) : peer := DcWorld (mgr w) (dcs w) (brk w) (events w ++ l) (net w).

Lemma wf_log w g l : dc_wf w g -> dc_wf (log w l) g.
Proof. intros Hg. by eapply wf_same; [exact Hg|..]. Qed.

Lemma emit_if_run w c ev : emit_if c ev w = (log w (if c then [ev] else []), Ok ()).
Proof. destruct c; [done|]. unfold log. rewrite app_nil_r. by destruct w. Qed.

Lemma recv_ack_run w g i p c :
  dc_wf w g -> chan_of w i = Some (p, c) -> state c = RTC_DC_CONNECTING ->
  rtc_dc_manager_recv true true true (dc_wire i RTC_DC_MSG_ACK []) w =
    (log (upd w p (with_state RTC_DC_OPEN c)) (if on_open c then [EvOpen p] else []), Ok ()).
Proof.
  intros Hg Hc Hs. destruct (chan_of_id _ _ _ _ _ Hg Hc) as [_ Hi]. rewrite recv_wire by done.
  change (dispatch true true true i RTC_DC_MSG_ACK [] w) with (recv_ack i w).
  unfold recv_ack. rewrite (st_bind_run _ _ _ _ _ (find_run _ _ _ _ _ Hg Hc)).
  apply (chan_of_Some _ _ _ _ _ Hg) in Hc as [_ Hp].
  rewrite (st_bind_run _ _ _ _ _ (rd_dc_run _ _ _ Hp)). rewrite bool_decide_true by done.
  rewrite (st_bind_run _ _ _ _ _ (upd_dc_run _ _ _ _ Hp)). apply emit_if_run.
Qed.

Lemma recv_data_run w g i p c m :
  dc_wf w g -> chan_of w i = Some (p, c) -> state c = RTC_DC_OPEN -> blen m <= RTC_DC_MAX_MSG_SIZE ->
  rtc_dc_manager_recv true true true (dc_wire i RTC_DC_MSG_DATA m) w =
    (log (upd w p (add_received (blen m) c)) (if on_message c then [EvMessage p m] else []), Ok ()).
Proof.
  intros Hg Hc Hs Hm. destruct (chan_of_id _ _ _ _ _ Hg Hc) as [_ Hi]. rewrite recv_wire by done.
  change (dispatch true true true i RTC_DC_MSG_DATA m w) with (recv_data i m w).
  unfold recv_data. rewrite (st_bind_run _ _ _ _ _ (find_run _ _ _ _ _ Hg Hc)).
  apply (chan_of_Some _ _ _ _ _ Hg) in Hc as [_ Hp].
  rewrite (st_bind_run _ _ _ _ _ (rd_dc_run _ _ _ Hp)). rewrite bool_decide_true by done.
  rewrite (st_bind_run _ _ _ _ _ (upd_dc_run _ _ _ _ Hp)). apply emit_if_run.
Qed.

Lemma chan_of_upd w g p c d i :
  dc_wf w g -> dcs w !! p = Some c -> id d = id c -> label d = label c ->
  dc_wf (upd w p d) g /\
  chan_of (upd w p d) i = match chan_of w i with
                          | Some (q, e) => Some (q, if decide (q = p) then d else e)
                          | None => None
                          end.
Proof.
  intros Hg Hp Ei El. split.
  - split; [apply Hg| |intros q e; cbn|apply Hg|apply Hg].
    + intros j o Hj. destruct (wf_entry _ _ Hg j o Hj) as (q & e & -> & Hq & He). cbn.
      destruct (decide (p = q)) as [<-|]; [exists p, d|exists q, e].
      * rewrite lookup_insert_eq. split_and!; [done..|congruence].
      * by rewrite lookup_insert_ne.
    + intros [[<- <-]|[_ Hq]]%lookup_insert_Some; [rewrite Ei, El|]; by apply (wf_heap _ _ Hg).
  - unfold chan_of. cbn [upd mgr dcs]. destruct (rtc_u32_map_get _ _ _) as [[q|]| |]; try done.
    destruct (decide (q = p)) as [->|]; [rewrite lookup_insert_eq, Hp; cbn; by rewrite decide_True|].
    rewrite lookup_insert_ne by done.
    destruct (dcs w !! q); cbn; [|done]. by rewrite decide_False.
Qed.

Lemma chan_of_log w l i : chan_of (log w l) i = chan_of w i.
Proof. done. Qed.

(** two entries of the table are two channels *)
Lemma chan_of_inj w g i j p c d :
  dc_wf w g -> chan_of w i = Some (p, c) -> chan_of w j = Some (p, d) -> i = j.
Proof.
  intros Hg Hi Hj. destruct (chan_of_id _ _ _ _ _ Hg Hi) as [<- _], (chan_of_id _ _ _ _ _ Hg Hj) as [<- _].
  apply (chan_of_Some _ _ _ _ _ Hg) in Hi as [_ Hi], Hj as [_ Hj]. congruence.
Qed.

Lemma deliver_acks (l : list Z) : forall w g,
  dc_wf w g -> NoDup l -> (forall i, i ∈ l -> exists p c, chan_of w i = Some (p, c) /\ state c = RTC_DC_CONNECTING) ->
  exists w1, deliver ((fun i => dc_wire i RTC_DC_MSG_ACK []) <$> l) w = (w1, Ok ()) /\ dc_wf w1 g /\ net w1 = net w /\
    forall i p c, chan_of w i = Some (p, c) ->
      chan_of w1 i = Some (p, if decide (i ∈ l) then with_state RTC_DC_OPEN c else c).
Proof.
  induction l as [|i l IH]; intros w g Hg Hnd Hl.
  { exists w. split_and!; try done. }
  apply NoDup_cons in Hnd as [Hni Hnd]. destruct (Hl i) as (p & c & Hc & Hs); [left|].
  pose proof (proj1 (chan_of_Some _ _ _ _ _ Hg) Hc) as [_ Hp].
  set (w1 := log (upd w p (with_state RTC_DC_OPEN c)) (if on_open c then [EvOpen p] else [])).
  destruct (chan_of_upd w g p c (with_state RTC_DC_OPEN c) i Hg Hp eq_refl eq_refl) as [Hg1 _].
  assert (forall j, chan_of w1 j = match chan_of w j with
            Some (q, e) => Some (q, if decide (q = p) then with_state RTC_DC_OPEN c else e) | None => None end) as H1.
  { intros j. unfold w1. rewrite chan_of_log. by apply (chan_of_upd w g p c). }
  destruct (IH w1 g (wf_log _ _ _ Hg1) Hnd) as (w2 & E2 & Hg2 & En2 & H2).
  { intros j Hj. destruct (Hl j) as (q & d & Hd & Hsd); [by right|]. exists q, d. split; [|done]. rewrite H1, Hd.
    rewrite decide_False; [done|]. intros ->. by rewrite (chan_of_inj _ _ _ _ _ _ _ Hg Hc Hd) in Hni. }
  exists w2. rewrite fmap_cons, (deliver_cons _ _ _ _ (recv_ack_run _ _ _ _ _ Hg Hc Hs)). split_and!; try done.
  intros j q d Hd. rewrite (H2 j q (if decide (q = p) then with_state RTC_DC_OPEN c else d)) by by rewrite H1, Hd.
  f_equal. f_equal. destruct (decide (j = i)) as [->|Hne].
  - rewrite Hc in Hd. simplify_eq. rewrite decide_False by done. rewrite decide_True by done.
    by rewrite decide_True by left.
  - rewrite (decide_False (P := q = p)); [|intros ->; by rewrite (chan_of_inj _ _ _ _ _ _ _ Hg Hc Hd) in Hne].
    destruct (decide (j ∈ l)); [by rewrite decide_True by by right|]. rewrite decide_False; [done|]. set_solver.
Qed.

(** ** Data *)

Lemma send_run w g i p c m :
  dc_wf w g -> chan_of w i = Some (p, c) -> state c = RTC_DC_OPEN -> blen m <= RTC_DC_MAX_MSG_SIZE ->
  exists evs, rtc_data_channel_send true p m w =
    (log (upd (push w [dc_wire i RTC_DC_MSG_DATA m]) p (add_sent (blen m) c)) evs, Ok ()).
Proof.
  intros Hg Hc Hs Hm. destruct (chan_of_id _ _ _ _ _ Hg Hc) as [<- _].
  apply (chan_of_Some _ _ _ _ _ Hg) in Hc as [_ Hp]. unfold rtc_data_channel_send.
  rewrite (st_bind_run _ _ _ _ _ (rd_dc_run _ _ _ Hp)), bool_decide_true by done.
  cbn [negb fail_if]. rewrite (st_bind_lift _ _ _ _ eq_refl).
  rewrite (st_bind_run _ _ _ _ _ (upd_dc_run _ _ _ _ Hp)).
  set (c1 := with_buffered _ c). set (w1 := upd w p c1).
  assert (dcs w1 !! p = Some c1) as Hp1 by apply lookup_insert_eq.
  rewrite st_bind_eq. unfold st_code. rewrite (send_message_run w1 p c1 RTC_DC_MSG_DATA m (wf_send _ _ Hg) Hp1 Hm).
  set (w2 := push w1 _). assert (dcs w2 !! p = Some c1) as Hp2 by apply lookup_insert_eq.
  rewrite (st_bind_run _ _ _ _ _ (upd_dc_run _ _ _ _ Hp2)).
  set (w3 := upd w2 p _). assert (dcs w3 !! p = Some (with_buffered (buffered_amount c) c1)) as Hp3 by apply lookup_insert_eq.
  rewrite (st_bind_run _ _ _ _ _ (upd_dc_run _ _ _ _ Hp3)).
  set (w4 := upd w3 p _). assert (dcs w4 !! p = Some (add_sent (blen m) (with_buffered (buffered_amount c) c1))) as Hp4 by apply lookup_insert_eq.
  rewrite (st_bind_run _ _ _ _ _ (rd_dc_run _ _ _ Hp4)), emit_if_run. eexists. f_equal.
  unfold w4, w3, w2, w1, upd, push, log. cbn. rewrite !insert_insert_eq. done.
Qed.

(** the channels of [ids] are open *)
Definition opened w (ids : list Z) : Prop :=
  forall i, i ∈ ids -> exists p c, chan_of w i = Some (p, c) /\ state c = RTC_DC_OPEN.

Lemma opened_upd w g p c d ids :
  dc_wf w g -> opened w ids -> dcs w !! p = Some c -> id d = id c -> label d = label c -> state d = state c ->
  opened (upd w p d) ids.
Proof.
  intros Hg Ho Hp Ei El Es i Hi. destruct (Ho i Hi) as (q & e & Hq & He).
  destruct (chan_of_upd w g p c d i Hg Hp Ei El) as [_ ->]. rewrite Hq. exists q. eexists. split; [done|].
  destruct (decide (q = p)) as [->|]; [|done]. apply (chan_of_Some _ _ _ _ _ Hg) in Hq as [_ Hq]. congruence.
Qed.

Definition data_msgs (l : list (Z * bytes)) : list bytes := (fun x => dc_wire x.1 RTC_DC_MSG_DATA x.2) <$> l.

Lemma dc_send_all_run ids (l : list (Z * bytes)) : forall w g,
  dc_wf w g -> opened w ids -> Forall (fun x => x.1 ∈ ids /\ blen x.2 <= RTC_DC_MAX_MSG_SIZE) l ->
  exists w1, send_all l w = (w1, Ok ()) /\ net w1 = net w ++ data_msgs l.
Proof.
  induction l as [|[i m] l IH]; intros w g Hg Ho Hl.
  { exists w. cbn. by rewrite app_nil_r. }
  apply Forall_cons_1 in Hl as [[Hi Hm] Hl]. cbn [fst snd] in *. destruct (Ho i Hi) as (p & c & Hc & Hs).
  destruct (send_run w g i p c m Hg Hc Hs Hm) as [evs E].
  pose proof (proj1 (chan_of_Some _ _ _ _ _ Hg) Hc) as [_ Hp].
  set (w0 := push w [dc_wire i RTC_DC_MSG_DATA m]) in *.
  assert (dc_wf w0 g) as Hg0 by (by eapply wf_same; [exact Hg|..]).
  destruct (IH (log (upd w0 p (add_sent (blen m) c)) evs) g) as (w1 & E1 & En1); auto.
  - by apply wf_log, (chan_of_upd w0 g p c).
  - by apply (opened_upd w0 g p c).
  - exists w1. cbn [send_all st_each fst snd]. rewrite st_bind_eq, (st_bind_run _ _ _ _ _ (find_run _ _ _ _ _ Hg Hc)), E.
    fold (send_all l). rewrite E1, En1. cbn. by rewrite <-app_assoc.
Qed.

(** open and with the message callback registered *)
Definition listening w (ids : list Z) : Prop :=
  forall i, i ∈ ids -> exists p c, chan_of w i = Some (p, c) /\ state c = RTC_DC_OPEN /\ on_message c = true.

(** the address under which the application knows the channel *)
Definition addr_of w (i : Z) : Z := match chan_of w i with Some (p, _) => p | None => 0 end.

Lemma deliver_data_run ids (l : list (Z * bytes)) : forall w g,
  dc_wf w g -> listening w ids -> Forall (fun x => x.1 ∈ ids /\ blen x.2 <= RTC_DC_MAX_MSG_SIZE) l ->
  exists w1, deliver (data_msgs l) w = (w1, Ok ()) /\
    events w1 = events w ++ ((fun x => EvMessage (addr_of w x.1) x.2) <$> l).
Proof.
  induction l as [|[i m] l IH]; intros w g Hg Ho Hl.
  { exists w. cbn. by rewrite app_nil_r. }
  apply Forall_cons_1 in Hl as [[Hi Hm] Hl]. cbn [fst snd] in *. destruct (Ho i Hi) as (p & c & Hc & Hs & Hcb).
  pose proof (proj1 (chan_of_Some _ _ _ _ _ Hg) Hc) as [_ Hp].
  pose proof (recv_data_run w g i p c m Hg Hc Hs Hm) as E. rewrite Hcb in E.
  set (w0 := log (upd w p (add_received (blen m) c)) [EvMessage p m]) in *.
  assert (forall j, chan_of w0 j = match chan_of w j with
            Some (q, e) => Some (q, if decide (q = p) then add_received (blen m) c else e) | None => None end) as H0.
  { intros j. unfold w0. rewrite chan_of_log. by apply (chan_of_upd w g p c). }
  assert (forall j, addr_of w0 j = addr_of w j) as Ha.
  { intros j. unfold addr_of. rewrite H0. by destruct (chan_of w j) as [[]|]. }
  destruct (IH w0 g) as (w1 & E1 & Ee1); auto.
  - by apply wf_log, (chan_of_upd w g p c).
  - intros j Hj. destruct (Ho j Hj) as (q & e & Hq & He & Hm'). rewrite H0, Hq. exists q. eexists. split; [done|].
    destruct (decide (q = p)); [by rewrite <-Hs, <-Hcb|done].
  - exists w1. unfold data_msgs. rewrite fmap_cons, (deliver_cons _ _ _ _ E). split; [done|].
    rewrite Ee1. cbn. rewrite <-app_assoc. f_equal. cbn. f_equal.
    { unfold addr_of. by rewrite Hc. }
    apply list_fmap_ext. intros k [j n] _. cbn. by rewrite Ha.
Qed.

Lemma listen_run ids (l : list Z) : forall w g,
  dc_wf w g -> opened w ids -> (forall i, i ∈ l -> i ∈ ids) ->
  exists w1, listen l w = (w1, Ok ()) /\ dc_wf w1 g /\ opened w1 ids /\ events w1 = events w /\
    (forall i, addr_of w1 i = addr_of w i) /\
    forall i, i ∈ ids -> (i ∈ l \/ exists p c, chan_of w i = Some (p, c) /\ on_message c = true) ->
      exists p c, chan_of w1 i = Some (p, c) /\ on_message c = true.
Proof.
  induction l as [|i l IH]; intros w g Hg Ho Hl.
  { exists w. split_and!; try done. intros i Hi [?|?]; [set_solver|done]. }
  destruct (Ho i) as (p & c & Hc & Hs); [apply Hl; left|].
  pose proof (proj1 (chan_of_Some _ _ _ _ _ Hg) Hc) as [_ Hp].
  set (d := with_callbacks (on_open c) (on_close c) true (on_buffered_low c) c).
  pose proof (fun j => chan_of_upd w g p c d j Hg Hp eq_refl eq_refl) as Hu.
  destruct (IH (upd w p d) g) as (w1 & E1 & Hg1 & Ho1 & Ee1 & Ha1 & Hm1).
  - by apply (Hu i).
  - by apply (opened_upd w g p c).
  - intros j Hj. apply Hl. by right.
  - exists w1. cbn [listen st_each]. rewrite st_bind_eq, (st_bind_run _ _ _ _ _ (find_run _ _ _ _ _ Hg Hc)).
    unfold rtc_data_channel_on_message at 1. rewrite (upd_dc_run _ _ _ _ Hp). fold d. fold (listen l).
    split_and!; try done.
    + intros j. rewrite Ha1. unfold addr_of. rewrite (proj2 (Hu j)). by destruct (chan_of w j) as [[]|].
    + intros j Hj Hcase. apply Hm1; [done|]. destruct (Ho j Hj) as (q & e & Hq & _). rewrite (proj2 (Hu j)), Hq.
      destruct (decide (q = p)) as [->|Hne]; [right; by exists p, d|].
      destruct Hcase as [[->|Hin]%elem_of_cons|(q' & e' & Hq' & ?)]; [congruence|by left|]. right. exists q, e.
      split; [done|]. congruence.
Qed.

(** ** From the open handshake to the messages *)

(** the id and the label of a pending entry *)
Definition pending_entry w (kv : Z * option Z) : option (Z * bytes) :=
  match chan_of w kv.1 with
  | Some (p, c) => if pending c then
                     match c_string (label c) with Ok s => Some (kv.1, s) | _ => None end
                   else None
  | None => None
  end.

Definition pendings w : list (Z * bytes) := omap (pending_entry w) (entries_of (channels (mgr w))).

Lemma open_msgs_pendings w (l : list (Z * option Z)) :
  concat (open_msg w <$> l) = (fun x => dc_wire x.1 RTC_DC_MSG_OPEN x.2) <$> omap (pending_entry w) l.
Proof.
  induction l as [|kv l IH]; [done|]. rewrite fmap_cons. cbn [concat omap list_omap]. rewrite IH.
  unfold open_msg, pending_entry. destruct (chan_of w kv.1) as [[p c]|]; [|done].
  destruct (pending c); [|done]. by destruct (c_string (label c)).
Qed.

Lemma pendings_keys w (l : list (Z * option Z)) :
  ((omap (pending_entry w) l).*1) `sublist_of` (l.*1).
Proof.
  induction l as [|kv l IH]; [done|]. cbn [omap list_omap fmap list_fmap].
  destruct (pending_entry w kv) as [[i s]|] eqn:E; [|by constructor].
  assert (i = kv.1) as ->; [|by constructor].
  unfold pending_entry in E. destruct (chan_of w kv.1) as [[p c]|]; [|done].
  destruct (pending c); [|done]. destruct (c_string (label c)); by simplify_eq.
Qed.

Lemma pendings_elem w g i s :
  dc_wf w g -> (i, s) ∈ pendings w <->
  exists p c, chan_of w i = Some (p, c) /\ pending c = true /\ c_string (label c) = Ok s.
Proof.
  intros Hg. unfold pendings. rewrite list_elem_of_omap. split.
  - intros (kv & _ & E). unfold pending_entry in E. destruct (chan_of w kv.1) as [[p c]|] eqn:Ec; [|done].
    destruct (pending c) eqn:Ep; [|done]. destruct (c_string (label c)) eqn:El; [|done..].
    simplify_eq. eauto.
  - intros (p & c & Hc & Hp & Hs). exists (i, Some p). split.
    + rewrite (entries_perm _ g) by apply Hg. apply elem_of_map_to_list. by apply (chan_of_Some _ _ _ _ _ Hg) in Hc as [? _].
    + unfold pending_entry. cbn [fst]. by rewrite Hc, Hp, Hs.
Qed.

Lemma pendings_facts w g :
  dc_wf w g -> NoDup (pendings w).*1 /\ (length (pendings w) <= size g)%nat /\
  forall i s, (i, s) ∈ pendings w -> is_Some (g !! i) /\ 0 <= i < 2 ^ 16 /\ blen s <= 127.
Proof.
  intros Hg. pose proof (entries_perm _ g (wf_table _ _ Hg)) as Hp.
  pose proof (pendings_keys w (entries_of (channels (mgr w)))) as Hsub. split_and!.
  - eapply sublist_NoDup; [|exact Hsub]. rewrite Hp. apply NoDup_fst_map_to_list.
  - apply sublist_length in Hsub. rewrite !length_fmap in Hsub. unfold pendings.
    assert (length (entries_of (channels (mgr w))) = size g) by (rewrite Hp; apply length_map_to_list). lia.
  - intros i s (p & c & Hc & _ & Hs)%(pendings_elem w g); [|done].
    destruct (chan_of_id _ _ _ _ _ Hg Hc) as [_ Hr]. apply (chan_of_Some _ _ _ _ _ Hg) in Hc as [Hi Hq].
    destruct (wf_heap _ _ Hg _ _ Hq) as (_ & (t & Ht & Hb) & _). rewrite Hs in Ht. apply Ok_inj in Ht as ->.
    split_and!; [by eexists|lia..].
Qed.

Lemma wf_drained w g : dc_wf w g -> dc_wf (drained w) g.
Proof. intros Hg. by eapply wf_same; [exact Hg|..]. Qed.

Lemma pending_connecting c : pending c = true -> state c = RTC_DC_CONNECTING.
Proof. unfold pending. intros [_ Hp]%andb_true_iff. by apply bool_decide_eq_true in Hp. Qed.

Lemma pendings_ids w i : i ∈ (pendings w).*1 <-> exists s, (i, s) ∈ pendings w.
Proof. rewrite list_elem_of_fmap. split; [intros ([j s] & -> & ?); eauto|intros [s ?]; by exists (i, s)]. Qed.

(** OPEN of every pending channel, the peer's acknowledgements *)
Lemma dc_handshake_run a b ga gb :
  dc_wf a ga -> dc_wf b gb -> ga ##ₘ gb -> (size ga + size gb <= 16)%nat ->
  net a = [] -> net b = [] -> on_channel (mgr b) = true ->
  exists a1 b1 gb1 a2,
    rtc_dc_manager_on_dtls_connected (fun _ => true) a = (a1, Ok ()) /\
    deliver (net a1) b = (b1, Ok ()) /\ deliver (net b1) (drained a1) = (a2, Ok ()) /\
    dc_wf b1 gb1 /\ dc_wf a2 ga /\ net a2 = [] /\
    forall i p c s, chan_of a i = Some (p, c) -> (i, s) ∈ pendings a ->
      chan_of a2 i = Some (p, with_state RTC_DC_OPEN c) /\
      exists q, chan_of b1 i = Some (q, dc_new (label_array s) i RTC_DC_OPEN false) /\ EvChannel q ∈ events b1.
Proof.
  intros Ha Hb Hdis Hsz Na Nb Hon. destruct (pendings_facts a ga Ha) as (Hnd & Hlen & Hpf).
  destruct (connected_run a ga Ha) as (a1 & E1 & Ha1 & Ec1 & Ed1 & En1).
  rewrite Na, open_msgs_pendings in En1. cbn [app] in En1. fold (pendings a) in En1.
  assert (forall i, chan_of (drained a1) i = chan_of a i) as Hca by (intros; unfold chan_of; cbn; by rewrite Ec1, Ed1).
  destruct (deliver_opens (pendings a) b gb Hb Hnd) as (b1 & gb1 & E2 & Hb1 & En2 & _ & _ & _ & Hin); [|lia|done|].
  { intros i s Hi. destruct (Hpf i s Hi) as ([o Eo] & Hr & Hl). split_and!; [|lia..].
    by eapply map_disjoint_Some_l. }
  rewrite Nb in En2. cbn [app] in En2.
  destruct (deliver_acks (pendings a).*1 (drained a1) ga (wf_drained _ _ Ha1) Hnd) as (a2 & E3 & Ha2 & En3 & H3).
  { intros i [s Hj]%pendings_ids. apply (pendings_elem a ga) in Hj as (p & c & Hc & Hp & _); [|done].
    exists p, c. rewrite Hca. split; [done|]. by apply pending_connecting. }
  exists a1, b1, gb1, a2. split_and!; [done|by rewrite En1| |done..|].
  - rewrite En2. by rewrite <-list_fmap_compose in E3.
  - intros i p c s Hc Hi.
    split; [rewrite (H3 i p c), decide_True; [done|apply pendings_ids; eauto|by rewrite Hca]|].
    destruct (Hin i s Hi) as (q & Hq & Hd & Hev). exists q. split; [|done]. by apply (chan_of_Some _ _ _ _ _ Hb1).
Qed.

(** messages between channels that are open at both ends *)
Lemma messages_run ids a b ga gb msgs :
  dc_wf a ga -> dc_wf b gb -> opened a ids -> opened b ids -> net a = [] ->
  Forall (fun x => x.1 ∈ ids /\ blen x.2 <= RTC_DC_MAX_MSG_SIZE) msgs ->
  exists b1 a1 b2,
    listen ids b = (b1, Ok ()) /\ send_all msgs a = (a1, Ok ()) /\ deliver (net a1) b1 = (b2, Ok ()) /\
    events b2 = events b ++ ((fun x => EvMessage (addr_of b x.1) x.2) <$> msgs).
Proof.
  intros Ha Hb Hoa Hob Na Hm.
  destruct (listen_run ids ids b gb Hb Hob) as (b1 & E4 & Hb1 & Ho1 & Ee1 & Had & Hl1); [done|].
  destruct (dc_send_all_run ids msgs a ga Ha Hoa Hm) as (a1 & E5 & En5).
  destruct (deliver_data_run ids msgs b1 gb Hb1) as (b2 & E6 & Ee2); [|done|].
  { intros i Hi. destruct (Ho1 i Hi) as (p & c & Hc & Hs). destruct (Hl1 i Hi (or_introl Hi)) as (p' & c' & Hc' & Hcb).
    rewrite Hc in Hc'. simplify_eq. eauto. }
  exists b1, a1, b2. split_and!; try done.
  - by rewrite En5, Na.
  - rewrite Ee2, Ee1. f_equal. apply list_fmap_ext. intros k x _. by rewrite Had.
Qed.
End Pair.

(** C12: Two data channel managers over an ideal link, which delivers every
    datagram once and in order (DTLS over UDP does not promise that), when all
    allocations succeed.  When DTLS connects at [a], every channel its
    application created (none with an id [b] uses, and at most sixteen on both
    sides together) is announced, [b] accepts it under the same id with the
    same label and tells its application, and on the acknowledgement [a]'s
    channel opens; from then on the messages the application sends on these
    channels, each up to 65535 bytes, reach the callbacks of the channels with
    the same ids at [b], complete, unchanged and in the order they were sent
    across all channels. *)
Theorem data_channels_end_to_end (a b : peer) ga gb :
  dc_wf a ga -> dc_wf b gb -> ga ##ₘ gb -> (size ga + size gb <= 16)%nat ->
  net a = [] -> net b = [] -> on_channel (mgr b) = true ->
  let ids := (pendings a).*1 in
  exists a1 b1 a2,
    rtc_dc_manager_on_dtls_connected (fun _ => true) a = (a1, Ok ()) /\
    deliver (net a1) b = (b1, Ok ()) /\ deliver (net b1) (drained a1) = (a2, Ok ()) /\
    (forall i p c, chan_of a i = Some (p, c) -> pending c = true ->
       chan_of a2 i = Some (p, with_state RTC_DC_OPEN c) /\
       exists q d, chan_of b1 i = Some (q, d) /\ state d = RTC_DC_OPEN /\
         c_string (label d) = c_string (label c) /\ EvChannel q ∈ events b1) /\
    forall msgs, Forall (fun x => x.1 ∈ ids /\ blen x.2 <= RTC_DC_MAX_MSG_SIZE) msgs ->
    exists b2 a3 b3,
      listen ids b1 = (b2, Ok ()) /\ send_all msgs a2 = (a3, Ok ()) /\ deliver (net a3) b2 = (b3, Ok ()) /\
      events b3 = events b1 ++ ((fun x => EvMessage (addr_of b1 x.1) x.2) <$> msgs).
Proof.
  intros Ha Hb Hdis Hsz Na Nb Hon ids.
  destruct (dc_handshake_run a b ga gb) as (a1 & b1 & gb1 & a2 & E1 & E2 & E3 & Hb1 & Ha2 & Na2 & H3); try done.
  exists a1, b1, a2. split_and!; [done..| |].
  - intros i p c Hc Hp. destruct (wf_heap _ _ Ha p c) as (_ & (s & Hs & Hl) & _).
    { by apply (chan_of_Some _ _ _ _ _ Ha) in Hc as [_ ?]. }
    destruct (H3 i p c s Hc) as (H2 & q & Hq & Hev); [apply (pendings_elem a ga); eauto|].
    split; [done|]. exists q. eexists. split; [exact Hq|]. split_and!; [done| |done]. cbn [label dc_new].
    rewrite label_array_string by by eapply c_string_chars. rewrite Hs, take_ge; [done|]. unfold blen in Hl. lia.
  - intros msgs Hm. apply (messages_run ids a2 b1 ga gb1); try done.
    all: intros i [s Hs]%pendings_ids; pose proof Hs as (p & c & Hc & _)%(pendings_elem a ga); [|done].
    all: destruct (H3 i p c s Hc Hs) as (? & q & ? & _); eauto.
Qed.

(** ** Channels created at both ends *)

(** a manager whose transport is connected, before any channel *)
Definition fresh_peer : peer := DcWorld (Mgr rtc_u32_map_init 0 true true true) ∅ 0 [] [].

Lemma fresh_wf on con : dc_wf (DcWorld (Mgr rtc_u32_map_init 0 on con true) ∅ 0 [] [] : peer) ∅.
Proof. split; cbn; [apply table_empty|set_solver|set_solver|lia|done]. Qed.

Lemma create_run (w : peer) g l s :
  dc_wf w g -> (size g < 16)%nat -> next_id (mgr w) + 2 <= INT_MAX -> dtls_connected (mgr w) = true ->
  c_string l = Ok s ->
  let i := u16 (next_id (mgr w)) in
  exists w1, rtc_dc_manager_create_channel true true true (Some l) None w = (w1, Ok (Some (brk w))) /\
    dc_wf w1 (<[i := Some (brk w)]> g) /\ chan_of w1 i = Some (brk w, dc_new (label_array s) i RTC_DC_CONNECTING true) /\
    net w1 = net w ++ [dc_wire i RTC_DC_MSG_OPEN (take 127 s)] /\ events w1 = events w.
Proof.
  intros Hg Hs Hn Hd Hl i. pose proof (table_len _ _ (wf_table _ _ Hg)) as El.
  unfold rtc_dc_manager_create_channel. rewrite st_bind_eq. cbn [get].
  unfold RTC_DC_MAX_CHANNELS. rewrite (proj2 (Z.leb_gt 16 _)) by lia. cbn [negb orb].
  rewrite Hl. rewrite (st_bind_lift _ _ _ (label_array s) eq_refl). cbn [assign_id].
  rewrite (st_bind_run _ _ _ _ _ (auto_id_run w (wf_next _ _ Hg) Hn)). fold i. set (w0 := DcWorld _ _ _ _ _).
  assert (dc_wf w0 g) as Hg0 by (eapply wf_same; [exact Hg|done..|cbn; lia|done]).
  destruct (enter_table w0 g (dc_new (label_array s) i RTC_DC_CONNECTING true) true i Hg0)
    as (w1 & E1 & [(w2 & E2 & Hg2 & Ed & En & Ee & _)|(? & _)]); try done;
    [unfold rtc_u32_map_len in *; cbn; lia|apply label_array_ok|apply u16_range|].
  rewrite (st_bind_run _ _ _ _ _ E1), (st_bind_run _ _ _ _ _ (st_attempt_Ok _ _ _ _ E2)), Hd.
  assert (dcs w2 !! brk w0 = Some (dc_new (label_array s) i RTC_DC_CONNECTING true)) as Hp by (rewrite Ed; apply lookup_insert_eq).
  pose proof (label_array_string s (c_string_chars _ _ Hl)) as Hls. rewrite Hls.
  assert (blen (take 127 s) <= RTC_DC_MAX_MSG_SIZE) as Hb.
  { unfold blen, RTC_DC_MAX_MSG_SIZE. rewrite length_take. lia. }
  rewrite st_bind_eq, (st_bind_lift _ _ _ _ eq_refl), (void_Ok _ _ _ _ (send_message_run w2 _ _ RTC_DC_MSG_OPEN _ (wf_send _ _ Hg2) Hp Hb)).
  eexists. split; [done|].
  assert (dc_wf (push w2 [dc_wire i RTC_DC_MSG_OPEN (take 127 s)]) (<[i := Some (brk w0)]> g)) as Hg3
    by (by eapply wf_same; [exact Hg2|..]).
  split_and!; [done| |cbn; by rewrite En|cbn; by rewrite Ee].
  apply (chan_of_Some _ _ _ _ _ Hg3). split; [apply lookup_insert_eq|done].
Qed.

Lemma recv_open_existing (w : peer) g i p c s :
  dc_wf w g -> chan_of w i = Some (p, c) -> blen s <= 127 ->
  rtc_dc_manager_recv true true true (dc_wire i RTC_DC_MSG_OPEN s) w =
    (log (push (upd w p (with_state RTC_DC_OPEN c)) [dc_wire i RTC_DC_MSG_ACK []])
       (if on_open c then [EvOpen p] else []), Ok ()).
Proof.
  intros Hg Hc Hb. destruct (chan_of_id _ _ _ _ _ Hg Hc) as [Ei Hi].
  rewrite recv_wire by (done || unfold RTC_DC_MAX_MSG_SIZE; lia).
  change (dispatch true true true i RTC_DC_MSG_OPEN s w) with (recv_open true true true i s w).
  unfold recv_open. rewrite (st_bind_run _ _ _ _ _ (find_run _ _ _ _ _ Hg Hc)).
  apply (chan_of_Some _ _ _ _ _ Hg) in Hc as [_ Hp].
  rewrite (st_bind_run _ _ _ _ _ (upd_dc_run _ _ _ _ Hp)). set (w1 := upd w p _).
  assert (dcs w1 !! p = Some (with_state RTC_DC_OPEN c)) as Hp1 by apply lookup_insert_eq.
  rewrite (st_bind_run _ _ _ _ _ (void_Ok _ _ _ _ (send_message_run w1 p _ RTC_DC_MSG_ACK [] (wf_send _ _ Hg) Hp1 ltac:(done)))).
  rewrite (st_bind_run _ _ _ _ _ (rd_dc_run (push w1 _) p _ Hp1)), emit_if_run.
  change (id (with_state RTC_DC_OPEN c)) with (id c). by rewrite Ei.
Qed.

Lemma open_chan (w : peer) g i p c :
  dc_wf w g -> chan_of w i = Some (p, c) -> chan_of (upd w p (with_state RTC_DC_OPEN c)) i = Some (p, with_state RTC_DC_OPEN c).
Proof.
  intros Hg Hc. pose proof (proj1 (chan_of_Some _ _ _ _ _ Hg) Hc) as [_ Hp].
  rewrite (proj2 (chan_of_upd w g p c (with_state RTC_DC_OPEN c) i Hg Hp eq_refl eq_refl)), Hc. by rewrite decide_True.
Qed.

(** C38: Both managers number their channels 0, 2, 4, ... (the comment in
    rtc_dc_manager_init gives even ids to the offerer and odd ones to the
    answerer).  When the two applications each create a channel, the two
    channels become one: each side takes the other's OPEN for its own channel,
    neither application is told of a new channel, and the two ends of the one
    channel have different labels. *)
Theorem simultaneous_channels_merge (la lb sa sb : bytes) :
  c_string la = Ok sa -> c_string lb = Ok sb ->
  exists a1 b1 a2 b2,
    rtc_dc_manager_create_channel true true true (Some la) None fresh_peer = (a1, Ok (Some 0)) /\
    rtc_dc_manager_create_channel true true true (Some lb) None fresh_peer = (b1, Ok (Some 0)) /\
    deliver (net b1) (drained a1) = (a2, Ok ()) /\ deliver (net a1) (drained b1) = (b2, Ok ()) /\
    events a2 = [] /\ events b2 = [] /\
    chan_of a2 0 = Some (0, dc_new (label_array sa) 0 RTC_DC_OPEN true) /\
    chan_of b2 0 = Some (0, dc_new (label_array sb) 0 RTC_DC_OPEN true).
Proof.
  intros Hla Hlb.
  destruct (create_run fresh_peer ∅ la sa (fresh_wf true true) ltac:(rewrite map_size_empty; lia)
    ltac:(done) eq_refl Hla) as (a1 & Ea & Ha & Hca & Na & Eva).
  destruct (create_run fresh_peer ∅ lb sb (fresh_wf true true) ltac:(rewrite map_size_empty; lia)
    ltac:(done) eq_refl Hlb) as (b1 & Eb & Hb & Hcb & Nb & Evb).
  change (u16 (next_id (mgr fresh_peer))) with 0 in *. change (brk fresh_peer) with 0 in *. cbn [app net fresh_peer] in Na, Nb.
  assert (forall s : bytes, blen (take 127 s) <= 127) as Ht by (intros; unfold blen; rewrite length_take; lia).
  pose proof (recv_open_existing _ _ 0 0 _ _ (wf_drained _ _ Ha) Hca (Ht sb)) as Ra.
  pose proof (recv_open_existing _ _ 0 0 _ _ (wf_drained _ _ Hb) Hcb (Ht sa)) as Rb.
  exists a1, b1. do 2 eexists. rewrite Na, Nb, (deliver_cons _ _ _ _ Ra), (deliver_cons _ _ _ _ Rb).
  split_and!; [done..|cbn; by rewrite Eva|cbn; by rewrite Evb| |].
  - by apply (open_chan _ _ _ _ _ (wf_drained _ _ Ha) Hca).
  - by apply (open_chan _ _ _ _ _ (wf_drained _ _ Hb) Hcb).
Qed.

(** ** The theorems at concrete inputs *)

(** an application that creates the channels "chat" and "file" *)
Definition ex_calls : list dc_call :=
  [CallCreate true true true (Some [99; 104; 97; 116; 0]) None; CallCreate true true true (Some [102; 105; 108; 101; 0]) None].

Definition idle_peer : peer := DcWorld (rtc_dc_manager_init true) ∅ 0 [] [].
Definition ex_creator : peer := fold_left (fun w c => (run_call c w).1) ex_calls idle_peer.

Lemma ex_history : history idle_peer ex_calls ex_creator.
Proof.
  change ex_calls with (([] ++ [CallCreate true true true (Some [99; 104; 97; 116; 0]) None]) ++
    [CallCreate true true true (Some [102; 105; 108; 101; 0]) None]).
  apply history_snoc; [apply history_snoc; [constructor|]|]; by eexists.
Qed.

Lemma queue_never_faults d (n : list bytes) : (dc_send_fn d n).2 <> Fault.
Proof. done. Qed.

Lemma dc_manager_safe_witness :
  (forall c, call_ok ex_creator c -> (run_call c ex_creator).2 <> Fault) /\
  exists g, u32_repr (channels (mgr ex_creator)) g /\ (size g <= 16)%nat /\
    (forall i o, g !! i = Some o -> exists p c, o = Some p /\ dcs ex_creator !! p = Some c /\ id c = i) /\
    exists w', rtc_dc_manager_close ex_creator = (w', Ok ()) /\
      forall p c, dcs w' !! p = Some c <-> dcs ex_creator !! p = Some c /\ g !! id c <> Some (Some p).
Proof.
  apply (dc_manager_safe queue_never_faults [] ex_calls ex_creator); [exact ex_history|vm_compute; congruence].
Defined.

Lemma data_channels_end_to_end_witness :
  (pendings ex_creator).*1 = [0; 2] /\
  exists a1 b1 a2,
    rtc_dc_manager_on_dtls_connected (fun _ => true) ex_creator = (a1, Ok ()) /\
    deliver (net a1) fresh_peer = (b1, Ok ()) /\ deliver (net b1) (drained a1) = (a2, Ok ()).
Proof.
  split; [vm_compute; reflexivity|].
  destruct (history_good queue_never_faults idle_peer ex_calls ex_creator ∅ (fresh_wf false false) ex_history)
    as ([g Hg] & _); [vm_compute; congruence|].
  destruct (data_channels_end_to_end ex_creator fresh_peer g ∅) as (a1 & b1 & a2 & H1 & H2 & H3 & _);
    [exact Hg|apply fresh_wf|apply map_disjoint_empty_r| |reflexivity|reflexivity|reflexivity|eauto 6].
  pose proof (tw_size _ _ (wf_table _ _ Hg)). rewrite map_size_empty. lia.
Defined.

Lemma simultaneous_channels_merge_witness :
  exists a1 b1 a2 b2,
    rtc_dc_manager_create_channel true true true (Some [97; 0]) None fresh_peer = (a1, Ok (Some 0)) /\
    rtc_dc_manager_create_channel true true true (Some [98; 0]) None fresh_peer = (b1, Ok (Some 0)) /\
    deliver (net b1) (drained a1) = (a2, Ok ()) /\ deliver (net a1) (drained b1) = (b2, Ok ()) /\
    events a2 = [] /\ events b2 = [] /\
    chan_of a2 0 = Some (0, dc_new (label_array [97]) 0 RTC_DC_OPEN true) /\
    chan_of b2 0 = Some (0, dc_new (label_array [98]) 0 RTC_DC_OPEN true).
Proof. by apply (simultaneous_channels_merge [97; 0] [98; 0] [97] [98]). Defined.

End DataChannelSpec.
