(* ===== verification/Routing.v ===== *)
(** * The routing graph of a forwarding server (routing/src/)

    Routers, producers and consumers.  A producer gets the RTP packets of one
    SSRC from the demultiplexer of its transport and hands each to its
    consumers; a consumer re-packetizes it under its own SSRC and sequence
    numbers and sends it on its own transport.  Producers and consumers live on
    heaps and are named by their addresses; the transports are the class
    [Transports] of the calls this code makes on them.  The random values of rtc_transport_consume and the results
    of allocations are arguments. *)

From Stdlib Require Import String.
From S2P Require Import Prelude RtpExt Rtp Vec Stun Text.
From Stdlib Require Import ZArith Lia.
From stdpp Require Import base list numbers gmap.
#[local] Open Scope Z_scope.

Module Routing.
Import Text.

(** ** What routing uses of the transports

    The calls on the transport at an address; [T] is the state of them all. *)
Class Transports (T : Type) := {
  (** the [closed] of rtc_transport_get_stats; [None]: the call fails *)
  tx_closed : T -> Z -> option bool;
  (** rtc_transport_send_rtp, with the capacity of the buffer *)
  tx_send_rtp : Z -> bytes -> Z -> st T bytes;
  (** rtc_transport_bind_rtp and rtc_transport_unbind_rtp *)
  tx_bind_rtp : bool -> Z -> Z -> Z -> st T unit;
  tx_unbind_rtp : bool -> Z -> Z -> st T unit
}.

Inductive rtc_media_kind_t := RTC_MEDIA_KIND_AUDIO | RTC_MEDIA_KIND_VIDEO.

Record rtc_rtp_codec_parameters_t := CodecParams {
  codec_kind : rtc_media_kind_t; codec_pt : Z; mime_type : bytes; clock_rate : Z; codec_channels : Z
}.

Record rtc_rtp_parameters_t := RtpParams {
  codecs : list rtc_rtp_codec_parameters_t; ssrc : Z; mid : bytes
}.

Record rtc_producer_t := Producer {
  p_id : bytes;
  p_transport : Z;
  p_kind : rtc_media_kind_t;
  p_rtp : rtc_rtp_parameters_t;
  p_label : bytes;
  consumers : Vec.rtc_vec_t Z;
  p_closed : bool;
  packets_received : Z;
  bytes_received : Z
}.

Record rtc_consumer_t := Consumer {
  c_id : bytes;
  c_transport : Z;
  c_producer : Z;
  c_rtp : rtc_rtp_parameters_t;
  c_kind : rtc_media_kind_t;
  c_seq : Z;
  c_closed : bool;
  paused : bool;
  packets_sent : Z;
  bytes_sent : Z
}.

(** [next_producer_id], [next_consumer_id]: the file-level counters *)
Record graph (T : Type) := Graph {
  producers : gmap Z rtc_producer_t;
  consumer_heap : gmap Z rtc_consumer_t;
  next_producer_id : Z;
  next_consumer_id : Z;
  brk : Z;
  txs : T
}.
#[global] Arguments Graph {T} _ _ _ _ _ _.
#[global] Arguments producers {T} _.
#[global] Arguments consumer_heap {T} _.
#[global] Arguments next_producer_id {T} _.
#[global] Arguments next_consumer_id {T} _.
#[global] Arguments brk {T} _.
#[global] Arguments txs {T} _.

Record rtc_producer_options_t := ProducerOptions {
  po_kind : rtc_media_kind_t; po_rtp : rtc_rtp_parameters_t; po_label : option bytes
}.
Record rtc_consumer_options_t := ConsumerOptions { co_producer : Z; co_paused : bool }.

Record rtc_producer_stats_t := ProducerStats {
  ps_closed : bool; ps_kind : rtc_media_kind_t; ps_packets : Z; ps_bytes : Z
}.
Record rtc_consumer_stats_t := ConsumerStats {
  cs_closed : bool; cs_paused : bool; cs_kind : rtc_media_kind_t; cs_packets : Z; cs_bytes : Z
}.

(** ** Stores to fields *)

Definition p_count (n : Z) (p : rtc_producer_t) : rtc_producer_t :=
  Producer (p_id p) (p_transport p) (p_kind p) (p_rtp p) (p_label p) (consumers p) (p_closed p)
    (u64 (packets_received p + 1)) (u64 (bytes_received p + n)).
Definition p_close (p : rtc_producer_t) : rtc_producer_t :=
  Producer (p_id p) (p_transport p) (p_kind p) (p_rtp p) (p_label p) (consumers p) true
    (packets_received p) (bytes_received p).
Definition p_set_consumers (v : Vec.rtc_vec_t Z) (p : rtc_producer_t) : rtc_producer_t :=
  Producer (p_id p) (p_transport p) (p_kind p) (p_rtp p) (p_label p) v (p_closed p)
    (packets_received p) (bytes_received p).
Definition c_next_seq (c : rtc_consumer_t) : rtc_consumer_t :=
  Consumer (c_id c) (c_transport c) (c_producer c) (c_rtp c) (c_kind c) (u16 (c_seq c + 1)) (c_closed c) (paused c)
    (packets_sent c) (bytes_sent c).
Definition c_count (n : Z) (c : rtc_consumer_t) : rtc_consumer_t :=
  Consumer (c_id c) (c_transport c) (c_producer c) (c_rtp c) (c_kind c) (c_seq c) (c_closed c) (paused c)
    (u64 (packets_sent c + 1)) (u64 (bytes_sent c + n)).
Definition c_close (c : rtc_consumer_t) : rtc_consumer_t :=
  Consumer (c_id c) (c_transport c) (c_producer c) (c_rtp c) (c_kind c) (c_seq c) true (paused c)
    (packets_sent c) (bytes_sent c).
Definition c_pause (b : bool) (c : rtc_consumer_t) : rtc_consumer_t :=
  Consumer (c_id c) (c_transport c) (c_producer c) (c_rtp c) (c_kind c) (c_seq c) (c_closed c) b
    (packets_sent c) (bytes_sent c).

Definition copy_label (dst_len : Z) (src : option bytes) : bytes :=
  take (Z.to_nat (dst_len - 1)) (default [] src).

Section Ops.
Context {T : Type} `{Transports T}.

Definition with_producers (w : graph T) (ps : gmap Z rtc_producer_t) : graph T :=
  Graph ps (consumer_heap w) (next_producer_id w) (next_consumer_id w) (brk w) (txs w).
Definition with_consumers (w : graph T) (cs : gmap Z rtc_consumer_t) : graph T :=
  Graph (producers w) cs (next_producer_id w) (next_consumer_id w) (brk w) (txs w).

Definition rd_producer (p : Z) : st (graph T) rtc_producer_t :=
  w ← get; match producers w !! p with Some x => mret x | None => lift Fault end.
Definition rd_consumer (c : Z) : st (graph T) rtc_consumer_t :=
  w ← get; match consumer_heap w !! c with Some x => mret x | None => lift Fault end.
Definition upd_producer (p : Z) (f : rtc_producer_t -> rtc_producer_t) : st (graph T) unit :=
  x ← rd_producer p; modify (fun w => with_producers w (<[p := f x]> (producers w))).
Definition upd_consumer (c : Z) (f : rtc_consumer_t -> rtc_consumer_t) : st (graph T) unit :=
  x ← rd_consumer c; modify (fun w => with_consumers w (<[c := f x]> (consumer_heap w))).
Definition free_producer (p : Z) : st (graph T) unit :=
  _ ← rd_producer p; modify (fun w => with_producers w (delete p (producers w))).
Definition free_consumer (c : Z) : st (graph T) unit :=
  _ ← rd_consumer c; modify (fun w => with_consumers w (delete c (consumer_heap w))).
Definition on_txs {A} (f : st T A) : st (graph T) A :=
  zoom txs (fun w t => Graph (producers w) (consumer_heap w) (next_producer_id w) (next_consumer_id w) (brk w) t) f.

(** ** rtc_router.c *)

Record rtc_router_t := Router { r_closed : bool }.

Definition rtc_router_create (alloc : bool) : option rtc_router_t :=
  if negb alloc then None else Some (Router false).

Definition rtc_router_close (r : rtc_router_t) : rtc_router_t := Router true.

(** [create] and [set_router]: rtc_transport_create on the router's worker and
    rtc_transport_set_rtp_router with the sink of the router *)
Definition rtc_router_create_transport (create : st T (option Z)) (set_router : Z -> st T unit) (r : rtc_router_t)
    : st (graph T) (option Z) :=
  if r_closed r then mret None else
  t ← on_txs create;
  match t with
  | None => mret None
  | Some t => _ ← void (on_txs (set_router t)); mret (Some t)
  end.

Definition rtc_router_register_producer (alloc : bool) (transport producer sc : Z) : st (graph T) unit :=
  _ ← lift (fail_if (sc =? 0) RTC_ERR_INVALID);
  on_txs (tx_bind_rtp alloc transport sc producer).

Definition rtc_router_unregister_producer (alloc : bool) (transport sc : Z) : st (graph T) unit :=
  if sc =? 0 then mret () else void (on_txs (tx_unbind_rtp alloc transport sc)).

(** ** rtc_producer.c *)

(** [a1]: the producer, [a2]: the mutex, [a3]: the binding *)
Definition rtc_transport_produce (a1 a2 a3 : bool) (transport : Z) (opts : rtc_producer_options_t)
    : st (graph T) (option Z) :=
  w ← get;
  if ssrc (po_rtp opts) =? 0 then mret None else
  if negb (bool_decide (tx_closed (txs w) transport = Some false)) || negb a1 then mret None else
  let n := next_producer_id w in
  let p := brk w in
  v ← lift (Vec.rtc_vec_init 8);
  _ ← put (Graph (<[p := Producer (take 31 (str "prod-" ++ dec n)) transport (po_kind opts) (po_rtp opts)
                           (copy_label 64 (po_label opts)) v false 0 0]> (producers w))
             (consumer_heap w) (u32 (n + 1)) (next_consumer_id w) (p + 1) (txs w));
  if negb a2 then _ ← free_producer p; mret None else
  rc ← st_attempt (rtc_router_register_producer a3 transport p (ssrc (po_rtp opts)));
  match rc with
  | None => _ ← free_producer p; mret None
  | Some _ => mret (Some p)
  end.

Definition rtc_producer_get_rtp_parameters (p : Z) : st (graph T) rtc_rtp_parameters_t :=
  x ← rd_producer p; mret (p_rtp x).

Definition rtc_producer_close (alloc : bool) (p : Z) : st (graph T) unit :=
  x ← rd_producer p;
  _ ← upd_producer p p_close;
  if p_closed x then mret () else
  if negb (ssrc (p_rtp x) =? 0) then rtc_router_unregister_producer alloc (p_transport x) (ssrc (p_rtp x))
  else mret ().

Definition rtc_producer_destroy (alloc : bool) (p : Z) : st (graph T) unit :=
  _ ← rtc_producer_close alloc p;
  free_producer p.

Definition rtc_producer_get_stats (p : Z) : st (graph T) rtc_producer_stats_t :=
  x ← rd_producer p;
  mret (ProducerStats (p_closed x) (p_kind x) (packets_received x) (bytes_received x)).

Definition rtc_producer_add_consumer (alloc : bool) (p c : Z) : st (graph T) unit :=
  x ← rd_producer p;
  _ ← lift (fail_if (p_closed x) RTC_ERR_INVALID);
  let '(v, rc) := Vec.rtc_vec_push alloc c (consumers x) in
  _ ← upd_producer p (p_set_consumers v);
  lift rc.

(** the loop over the slots from [i] on; [n] slots are left *)
Fixpoint remove_loop (n : nat) (i c : Z) : st (Vec.rtc_vec_t Z) unit :=
  match n with
  | O => mret ()
  | S n =>
      v ← get;
      slot ← lift (Vec.rtc_vec_at v i);
      match slot with
      | Some (Some x) => if x =? c then Vec.rtc_vec_swap_remove i else remove_loop n (i + 1) c
      | Some None => lift Fault
      | None => remove_loop n (i + 1) c
      end
  end.

Definition rtc_producer_remove_consumer (p c : Z) : st (graph T) unit :=
  x ← rd_producer p;
  let '(v, rc) := remove_loop (Z.to_nat (Vec.rtc_vec_len (consumers x))) 0 c (consumers x) in
  _ ← upd_producer p (p_set_consumers v);
  lift rc.

(** ** rtc_consumer.c *)

Definition rtc_consumer_get_stats (c : Z) : st (graph T) rtc_consumer_stats_t :=
  x ← rd_consumer c;
  mret (ConsumerStats (c_closed x) (paused x) (c_kind x) (packets_sent x) (bytes_sent x)).

(** [rnd_ssrc], [rnd_seq]: what rtc_random_bytes wrote; [a1]: the consumer,
    [a2]: the slot in the producer's list *)
Definition rtc_transport_consume (a1 a2 : bool) (rnd_ssrc rnd_seq transport : Z) (opts : rtc_consumer_options_t)
    : st (graph T) (option Z) :=
  w ← get;
  if negb (bool_decide (tx_closed (txs w) transport = Some false)) then mret None else
  stats ← rtc_producer_get_stats (co_producer opts);
  if ps_closed stats || negb a1 then mret None else
  let n := next_consumer_id w in
  let c := brk w in
  let cid := take 31 (str "cons-" ++ dec n) in
  rtp ← rtc_producer_get_rtp_parameters (co_producer opts);
  let rtp := RtpParams (codecs rtp) (if rnd_ssrc =? 0 then 1 else rnd_ssrc)
               (match mid rtp with [] => take 31 cid | m => m end) in
  _ ← put (Graph (producers w) (<[c := Consumer cid transport (co_producer opts) rtp (ps_kind stats) rnd_seq
                                         false (co_paused opts) 0 0]> (consumer_heap w))
             (next_producer_id w) (u32 (n + 1)) (c + 1) (txs w));
  rc ← st_attempt (rtc_producer_add_consumer a2 (co_producer opts) c);
  match rc with
  | None => _ ← free_consumer c; mret None
  | Some _ => mret (Some c)
  end.

Definition rtc_consumer_get_rtp_parameters (c : Z) : st (graph T) rtc_rtp_parameters_t :=
  x ← rd_consumer c; mret (c_rtp x).

Definition rtc_consumer_pause (c : Z) : st (graph T) unit := upd_consumer c (c_pause true).
Definition rtc_consumer_resume (c : Z) : st (graph T) unit := upd_consumer c (c_pause false).

Definition rtc_consumer_close (c : Z) : st (graph T) unit :=
  x ← rd_consumer c;
  _ ← upd_consumer c c_close;
  if c_closed x then mret () else rtc_producer_remove_consumer (c_producer x) c.

Definition rtc_consumer_destroy (c : Z) : st (graph T) unit :=
  _ ← rtc_consumer_close c;
  free_consumer c.

Definition rtc_consumer_on_producer_rtp (c : Z) (pkt : Rtp.rtc_rtp_packet_t) : st (graph T) unit :=
  x ← rd_consumer c;
  if c_closed x || paused x then mret () else
  _ ← upd_consumer c c_next_seq;
  let h := Rtp.header pkt in
  out ← lift (attempt (Rtp.rtc_rtp_build (Rtp.payload_type h) (c_seq x) (Rtp.timestamp h) (ssrc (c_rtp x))
                         (Rtp.marker h) (Rtp.payload pkt)));
  match out with
  | None => mret ()
  | Some out =>
      rc ← st_attempt (on_txs (tx_send_rtp (c_transport x) (Rtp.buf out) Rtp.RTP_BUF_SIZE));
      match rc with
      | None => mret ()
      | Some _ => upd_consumer c (c_count (blen (Rtp.payload pkt)))
      end
  end.

(** one round of the loop of rtc_producer_on_rtp *)
Definition forward_slot (v : Vec.rtc_vec_t Z) (pkt : Rtp.rtc_rtp_packet_t) (i : Z) : st (graph T) unit :=
  slot ← lift (Vec.rtc_vec_at v i);
  match slot with
  | Some (Some c) => rtc_consumer_on_producer_rtp c pkt
  | Some None => lift Fault
  | None => mret ()
  end.

Definition rtc_producer_on_rtp (p : Z) (pkt : Rtp.rtc_rtp_packet_t) : st (graph T) unit :=
  x ← rd_producer p;
  if p_closed x then mret () else
  _ ← upd_producer p (p_count (blen (Rtp.payload pkt)));
  st_each (forward_slot (consumers x) pkt) (seqZ 0 (Vec.rtc_vec_len (consumers x))).

End Ops.
End Routing.
