(* ===== verification/RoutingSpec.v ===== *)
(** * The routing graph: safety and the fan-out

    [graph_wf]: a producer's list holds exactly its open consumers, once each.
    Every call keeps it, so no sequence of calls touches a freed producer or
    consumer; and what a producer does with a run of packets is the reference
    fan-out [fanout], a list of calls of the transports. *)

From S2P Require Import Prelude RtpExt Rtp Vec Routing.
From Stdlib Require Import ZArith Lia.
From stdpp Require Import base list numbers gmap.
#[local] Open Scope Z_scope.

Module RoutingSpec.
Import Routing.

Section Spec.
Context {T : Type} `{Transports T}.
Implicit Types (w : graph T) (x : rtc_producer_t) (y : rtc_consumer_t).

Record graph_wf w : Prop := {
  wf_list : forall p x, producers w !! p = Some x -> p < brk w /\
    exists l, Vec.vec_repr (consumers x) l /\ NoDup l /\
      forall c, c ∈ l <-> exists y, consumer_heap w !! c = Some y /\ c_producer y = p /\ c_closed y = false;
  wf_consumer : forall c y, consumer_heap w !! c = Some y ->
    c < brk w /\ 0 <= c_seq y < 2 ^ 16 /\ (c_closed y = false -> is_Some (producers w !! c_producer y))
}.

(** the calls of the transports return *)
Context (Hsend : forall t b cap s, (tx_send_rtp t b cap s).2 <> Fault)
        (Hbind : forall a t sc u s, (tx_bind_rtp a t sc u s).2 <> Fault)
        (Hunbind : forall a t sc s, (tx_unbind_rtp a t sc s).2 <> Fault).

(** ** Reads and stores *)

Lemma rd_producer_run w p x : producers w !! p = Some x -> rd_producer p w = (w, Ok x).
Proof. intros E. unfold rd_producer. rewrite st_bind_eq. cbn [get]. by rewrite E. Qed.
Lemma rd_consumer_run w c y : consumer_heap w !! c = Some y -> rd_consumer c w = (w, Ok y).
Proof. intros E. unfold rd_consumer. rewrite st_bind_eq. cbn [get]. by rewrite E. Qed.
Lemma upd_producer_run w p x f :
  producers w !! p = Some x -> upd_producer p f w = (with_producers w (<[p := f x]> (producers w)), Ok ()).
Proof. intros E. unfold upd_producer. by rewrite (st_bind_run _ _ _ _ _ (rd_producer_run _ _ _ E)). Qed.
Lemma upd_consumer_run w c y f :
  consumer_heap w !! c = Some y -> upd_consumer c f w = (with_consumers w (<[c := f y]> (consumer_heap w)), Ok ()).
Proof. intros E. unfold upd_consumer. by rewrite (st_bind_run _ _ _ _ _ (rd_consumer_run _ _ _ E)). Qed.

(** a store to a consumer that keeps its producer and whether it is open *)
Definition c_keeps (f : rtc_consumer_t -> rtc_consumer_t) : Prop := forall y,
  c_producer (f y) = c_producer y /\ c_closed (f y) = c_closed y /\ (0 <= c_seq y < 2 ^ 16 -> 0 <= c_seq (f y) < 2 ^ 16).
Definition p_keeps (f : rtc_producer_t -> rtc_producer_t) : Prop := forall x, consumers (f x) = consumers x.

Lemma wf_upd_consumer w c y f :
  graph_wf w -> consumer_heap w !! c = Some y -> c_keeps f -> graph_wf (with_consumers w (<[c := f y]> (consumer_heap w))).
Proof.
  intros [Hp Hc] E Hf. destruct (Hf y) as (F1 & F2 & F3). split; cbn.
  - intros p x Hx. destruct (Hp p x Hx) as (? & l & Hl & Hnd & Hin). split; [done|]. exists l. split_and!; [done|done|].
    intros d. rewrite Hin. destruct (decide (d = c)) as [->|]; [|by rewrite lookup_insert_ne].
    rewrite lookup_insert_eq, E. naive_solver congruence.
  - intros d z [[<- <-]|[_ Hz]]%lookup_insert_Some; [|by apply Hc].
    destruct (Hc c y E) as (? & ? & ?). rewrite F1, F2. auto.
Qed.

Lemma wf_upd_producer w p x f :
  graph_wf w -> producers w !! p = Some x -> p_keeps f -> graph_wf (with_producers w (<[p := f x]> (producers w))).
Proof.
  intros [Hp Hc] E Hf. split; cbn.
  - intros q z [[<- <-]|[_ Hz]]%lookup_insert_Some; [|by apply Hp]. rewrite Hf. by apply Hp.
  - intros c y Hy. destruct (Hc c y Hy) as (? & ? & Hs). split_and!; [done|lia..|]. intros Ho.
    rewrite lookup_insert_is_Some'. auto.
Qed.

Lemma wf_txs w t : graph_wf w ->
  graph_wf (Graph (producers w) (consumer_heap w) (next_producer_id w) (next_consumer_id w) (brk w) t).
Proof. intros [Hp Hc]. by split. Qed.

(** ** Calls that keep the graph *)

Definition good {A} (f : st (graph T) A) w : Prop := let '(w', r) := f w in r <> Fault /\ graph_wf w'.

Lemma good_bind {A B} (m : st (graph T) A) (f : A -> st (graph T) B) w :
  good m w -> (forall a w', m w = (w', Ok a) -> graph_wf w' -> good (f a) w') -> good (m ≫= f) w.
Proof.
  unfold good. rewrite st_bind_eq. destruct (m w) as [w' [a|e|]]; intros [Hr Hg] Hf; [by apply Hf|by split|done].
Qed.

Lemma good_ret {A} w (a : A) : graph_wf w -> good (mret a) w.
Proof. by split. Qed.
Lemma good_lift {A} w (r : res A) : graph_wf w -> no_fault r -> good (lift r) w.
Proof. by split. Qed.
Lemma good_attempt {A} (f : st (graph T) A) w : good f w -> good (st_attempt f) w.
Proof. unfold good, st_attempt. destruct (f w) as [w' [a|e|]]; intros []; by split. Qed.
Lemma good_void {A} (f : st (graph T) A) w : good f w -> good (void f) w.
Proof. intros Hf. apply good_bind; [by apply good_attempt|]. intros. by apply good_ret. Qed.

Lemma good_upd_consumer w c f : graph_wf w -> is_Some (consumer_heap w !! c) -> c_keeps f -> good (upd_consumer c f) w.
Proof. intros Hg [y Hy] Hf. unfold good. rewrite (upd_consumer_run _ _ _ _ Hy). split; [done|by apply wf_upd_consumer]. Qed.
Lemma good_upd_producer w p f : graph_wf w -> is_Some (producers w !! p) -> p_keeps f -> good (upd_producer p f) w.
Proof. intros Hg [x Hx] Hf. unfold good. rewrite (upd_producer_run _ _ _ _ Hx). split; [done|by apply wf_upd_producer]. Qed.

Lemma good_txs {A} (f : st T A) w : graph_wf w -> (forall s, (f s).2 <> Fault) -> good (on_txs f) w.
Proof.
  intros Hg Hf. unfold good, on_txs, zoom. specialize (Hf (txs w)). destruct (f (txs w)) as [t r].
  split; [done|by apply wf_txs].
Qed.

Lemma keeps_seq : c_keeps c_next_seq.
Proof. intros y. split_and!; try done. intros _. apply u16_range. Qed.
Lemma keeps_count n : c_keeps (c_count n).
Proof. by intros y. Qed.
Lemma keeps_pause b : c_keeps (c_pause b).
Proof. by intros y. Qed.

Lemma build_no_fault pt sq ts sc mk pl : no_fault (Rtp.rtc_rtp_build pt sq ts sc mk pl).
Proof.
  unfold Rtp.rtc_rtp_build, Rtp.rtc_rtp_build_with_ext. destruct (Z.ltb_spec Rtp.RTP_MAX_PACKET (blen pl)); [done|].
  cbn [fail_if mbind res_bind]. change (0 <? blen []) with false. cbn [mbind res_bind].
  unfold fault_if. destruct (Z.ltb_spec Rtp.RTP_BUF_SIZE (blen (([Z.shiftl Rtp.RTP_VERSION 6; if mk then Z.lor (Z.land pt 127) 128
    else Z.land pt 127] ++ be16 sq ++ be32 ts ++ be32 sc) ++ [] ++ pl))) as [Hlt|]; [|done].
  exfalso. rewrite !blen_app, blen_be16, !blen_be32, !blen_cons in Hlt. change (@blen Z []) with 0 in Hlt.
  unfold Rtp.RTP_BUF_SIZE, Rtp.RTP_MAX_PACKET, Rtp.RTP_HEADER_SIZE, Rtp.RTP_MAX_EXT_LEN, Rtp.RTP_SRTP_PAD in *. lia.
Qed.


(** ** The fan-out *)

Definition active y : bool := negb (c_closed y) && negb (paused y).

(** the datagram a consumer makes of a packet, [k] packets after the state [y] *)
Definition forwarded y (k : Z) (pkt : Rtp.rtc_rtp_packet_t) : list (Z * bytes) :=
  if active y then
    match Rtp.rtc_rtp_build (Rtp.payload_type (Rtp.header pkt)) (u16 (c_seq y + k)) (Rtp.timestamp (Rtp.header pkt))
            (ssrc (c_rtp y)) (Rtp.marker (Rtp.header pkt)) (Rtp.payload pkt) with
    | Ok out => [(c_transport y, Rtp.buf out)]
    | _ => []
    end
  else [].

(** every packet to every consumer, the packets in order *)
Fixpoint fanout (ys : list rtc_consumer_t) (k : Z) (pkts : list Rtp.rtc_rtp_packet_t) : list (Z * bytes) :=
  match pkts with
  | [] => []
  | pkt :: pkts => (ys ≫= fun y => forwarded y k pkt) ++ fanout ys (k + 1) pkts
  end.

(** these calls of rtc_transport_send_rtp, whatever they return *)
Definition run_sends (l : list (Z * bytes)) (s : T) : T :=
  fold_left (fun s d => (tx_send_rtp d.1 d.2 Rtp.RTP_BUF_SIZE s).1) l s.

Lemma run_sends_app l1 l2 s : run_sends (l1 ++ l2) s = run_sends l2 (run_sends l1 s).
Proof. apply fold_left_app. Qed.

(** [y'] is [y] after [k] packets *)
Definition follows (k : Z) y y' : Prop :=
  c_transport y' = c_transport y /\ c_producer y' = c_producer y /\ c_rtp y' = c_rtp y /\
  c_closed y' = c_closed y /\ paused y' = paused y /\ c_seq y' = if active y then u16 (c_seq y + k) else c_seq y.

Lemma follows_active k y y' : follows k y y' -> active y' = active y.
Proof. intros (_ & _ & _ & E1 & E2 & _). unfold active. by rewrite E1, E2. Qed.

Lemma follows_step i y y' y'' : follows i y y' -> follows 1 y' y'' -> follows (i + 1) y y''.
Proof.
  intros F G. pose proof (follows_active _ _ _ F) as Ea. unfold follows in *. rewrite Ea in G.
  destruct F as (A1 & A2 & A3 & A4 & A5 & A6), G as (B1 & B2 & B3 & B4 & B5 & B6).
  split_and!; try congruence. rewrite B6, A6. destruct (active y); [|done].
  unfold u16. rewrite Zplus_mod_idemp_l. f_equal. lia.
Qed.

Lemma forwarded_follows k y y' pkt : 0 <= c_seq y < 2 ^ 16 -> follows k y y' -> forwarded y' 0 pkt = forwarded y k pkt.
Proof.
  intros Hs F. pose proof (follows_active _ _ _ F) as Ea. destruct F as (A1 & _ & A3 & _ & _ & A6).
  unfold forwarded. rewrite Ea, A1, A3. destruct (active y); [|done]. rewrite A6, Z.add_0_r.
  by rewrite (u16_id (u16 _)) by apply u16_range.
Qed.

Definition with_run w (h : gmap Z rtc_consumer_t) (l : list (Z * bytes)) : graph T :=
  Graph (producers w) h (next_producer_id w) (next_consumer_id w) (brk w) (run_sends l (txs w)).

Lemma consumer_rtp_run w c y pkt :
  consumer_heap w !! c = Some y -> 0 <= c_seq y < 2 ^ 16 ->
  exists y', rtc_consumer_on_producer_rtp c pkt w =
      (with_run w (<[c := y']> (consumer_heap w)) (forwarded y 0 pkt), Ok ()) /\ follows 1 y y'.
Proof.
  intros Hy Hs. unfold rtc_consumer_on_producer_rtp, forwarded, active.
  rewrite (st_bind_run _ _ _ _ _ (rd_consumer_run _ _ _ Hy)), <-negb_orb.
  destruct (c_closed y || paused y) eqn:Ea; cbn [negb].
  { exists y. split; [unfold with_run; cbn; rewrite insert_id by done; by destruct w|].
    unfold follows, active. rewrite <-negb_orb, Ea. done. }
  assert (forall n, follows 1 y (c_next_seq y) /\ follows 1 y (c_count n (c_next_seq y))) as Hf.
  { intros n. unfold follows, active. rewrite <-negb_orb, Ea. by cbn. }
  rewrite (st_bind_run _ _ _ _ _ (upd_consumer_run _ _ _ _ Hy)), Z.add_0_r, (u16_id (c_seq y)) by lia.
  pose proof (build_no_fault (Rtp.payload_type (Rtp.header pkt)) (c_seq y) (Rtp.timestamp (Rtp.header pkt))
            (ssrc (c_rtp y)) (Rtp.marker (Rtp.header pkt)) (Rtp.payload pkt)) as Hb.
  destruct (Rtp.rtc_rtp_build _ _ _ _ _ _) as [out|e|]; [|exists (c_next_seq y); split; [done|by apply (Hf 0)]|done].
  cbn [attempt]. rewrite (st_bind_lift _ _ _ _ eq_refl), st_bind_eq. unfold st_attempt, on_txs, zoom.
  specialize (Hsend (c_transport y) (Rtp.buf out) Rtp.RTP_BUF_SIZE (txs w)). cbn [txs with_consumers].
  destruct (tx_send_rtp _ _ _ _) as [t r] eqn:Et. cbn in Hsend. cbn [attempt].
  unfold with_run, run_sends. cbn [fold_left fst snd]. rewrite Et. cbn [fst].
  destruct r as [o|e|]; [|exists (c_next_seq y); split; [done|by apply (Hf 0)]|done].
  cbn [attempt]. erewrite upd_consumer_run by (cbn; apply lookup_insert_eq).
  exists (c_count (blen (Rtp.payload pkt)) (c_next_seq y)). cbn. rewrite insert_insert_eq. split; [done|apply Hf].
Qed.

(** the consumers a list of addresses designates *)
Definition at_ (h : gmap Z rtc_consumer_t) (l : list Z) (ys : list rtc_consumer_t) : Prop :=
  Forall2 (fun c y => h !! c = Some y /\ 0 <= c_seq y < 2 ^ 16) l ys.

(** the consumers of [l] have handled one packet more, the others are untouched *)
Definition stepped (k : Z) (h h' : gmap Z rtc_consumer_t) (l : list Z) : Prop :=
  forall c, match h !! c, h' !! c with
            | Some y, Some y' => if decide (c ∈ l) then follows k y y' else y' = y
            | None, None => True
            | _, _ => False
            end.

Lemma at_insert h l ys c y : c ∉ l -> at_ h l ys -> at_ (<[c := y]> h) l ys.
Proof.
  intros Hc Ha. induction Ha as [|d z l ys [Hz ?] _ IH]; [constructor|].
  apply not_elem_of_cons in Hc as [Hne Hc]. constructor; [|by apply IH]. split; [|done]. by rewrite lookup_insert_ne.
Qed.

Lemma each_consumer_run l : forall w ys pkt,
  NoDup l -> at_ (consumer_heap w) l ys ->
  exists h, st_each (fun c => rtc_consumer_on_producer_rtp c pkt) l w =
      (with_run w h (ys ≫= fun y => forwarded y 0 pkt), Ok ()) /\ stepped 1 (consumer_heap w) h l.
Proof.
  induction l as [|c l IH]; intros w ys pkt Hnd Hat.
  { inversion Hat; subst. exists (consumer_heap w). split; [by destruct w|].
    intros c. destruct (_ !! c); [|done]. rewrite decide_False by set_solver. done. }
  inversion Hat as [|? y ? ys' [Hy Hs] Hat']; subst. apply NoDup_cons in Hnd as [Hni Hnd]. cbn [st_each].
  destruct (consumer_rtp_run w c y pkt Hy Hs) as (y' & E & Hf). rewrite (st_bind_run _ _ _ _ _ E).
  destruct (IH (with_run w (<[c := y']> (consumer_heap w)) (forwarded y 0 pkt)) ys' pkt Hnd) as (h & E2 & Hst).
  { by apply at_insert. }
  exists h. rewrite E2. split.
  { unfold with_run. cbn. by rewrite run_sends_app. }
  intros d. specialize (Hst d). cbn in Hst. destruct (decide (d = c)) as [->|Hne].
  - rewrite lookup_insert_eq in Hst. rewrite Hy. destruct (h !! c); [|done].
    rewrite decide_False in Hst by done. subst. by rewrite decide_True by left.
  - rewrite lookup_insert_ne in Hst by done. destruct (consumer_heap w !! d), (h !! d); try done.
    destruct (decide (d ∈ l)); [by rewrite decide_True by by right|]. rewrite decide_False; [done|]. set_solver.
Qed.

Lemma forward_slot_run v l pkt i c w :
  Vec.vec_repr v l -> 0 <= i -> l !! Z.to_nat i = Some c ->
  forward_slot v pkt i w = rtc_consumer_on_producer_rtp c pkt w.
Proof.
  intros Hv Hi Hc. unfold forward_slot. rewrite (Vec.at_spec v l i Hv Hi), Hc.
  by rewrite (st_bind_lift _ _ _ _ eq_refl).
Qed.

Lemma slots_each v l pkt : Vec.vec_repr v l -> forall l' i w,
  0 <= i -> drop (Z.to_nat i) l = l' ->
  st_each (forward_slot v pkt) (seqZ i (blen l')) w = st_each (fun c => rtc_consumer_on_producer_rtp c pkt) l' w.
Proof.
  intros Hv l'. induction l' as [|c l' IH]; intros i w Hi Hd; [done|].
  rewrite blen_cons, seqZ_cons by (pose proof (blen_nonneg l'); lia). cbn [st_each].
  assert (l !! Z.to_nat i = Some c) as Hc by (rewrite <-(Nat.add_0_r (Z.to_nat i)), <-lookup_drop, Hd; done).
  rewrite !st_bind_eq, (forward_slot_run v l pkt i c w Hv Hi Hc).
  destruct (rtc_consumer_on_producer_rtp c pkt w) as [w' [[]|e|]]; [|done|done].
  replace (Z.pred (1 + blen l')) with (blen l') by lia. apply IH; [lia|].
  replace (Z.to_nat (Z.succ i)) with (Z.to_nat i + 1)%nat by lia. by rewrite <-drop_drop, Hd.
Qed.

(** the state of a producer: open, with the consumers [l] *)
Definition serving w (p : Z) (l : list Z) : Prop :=
  exists x, producers w !! p = Some x /\ p_closed x = false /\ Vec.vec_repr (consumers x) l.

(** the same producers with the same consumers *)
Definition same_lists w w' : Prop := forall q,
  match producers w !! q, producers w' !! q with
  | Some z, Some z' => consumers z' = consumers z
  | None, None => True
  | _, _ => False
  end.

Lemma producer_on_rtp_run w p l ys pkt :
  serving w p l -> NoDup l -> at_ (consumer_heap w) l ys ->
  exists w', rtc_producer_on_rtp p pkt w = (w', Ok ()) /\ serving w' p l /\
    txs w' = run_sends (ys ≫= fun y => forwarded y 0 pkt) (txs w) /\
    stepped 1 (consumer_heap w) (consumer_heap w') l /\ brk w' = brk w /\ same_lists w w'.
Proof.
  intros (x & Hx & Ho & Hv) Hnd Hat. unfold rtc_producer_on_rtp.
  rewrite (st_bind_run _ _ _ _ _ (rd_producer_run _ _ _ Hx)), Ho.
  rewrite (st_bind_run _ _ _ _ _ (upd_producer_run _ _ _ _ Hx)). set (w1 := with_producers w _).
  unfold Vec.rtc_vec_len. rewrite (Vec.vr_len _ _ Hv), (slots_each _ l pkt Hv l 0 w1) by done.
  destruct (each_consumer_run l w1 ys pkt Hnd Hat) as (h & E & Hst). exists (with_run w1 h (ys ≫= fun y => forwarded y 0 pkt)).
  split_and!; [done| |done|done|done|].
  - eexists. cbn. by rewrite lookup_insert_eq.
  - intros q. cbn. destruct (decide (q = p)) as [->|]; [by rewrite lookup_insert_eq, Hx|].
    rewrite lookup_insert_ne by done. by destruct (producers w !! q).
Qed.

Lemma at_stepped k h h' l ys ys' :
  at_ h l ys -> stepped k h h' l ->
  ys' = omap (fun c => h' !! c) l -> at_ h' l ys' /\ Forall2 (follows k) ys ys'.
Proof.
  intros Hat Hst ->. unfold stepped in Hst.
  assert (forall c, c ∈ l -> match h !! c, h' !! c with Some y, Some y' => follows k y y' | None, None => True | _, _ => False end) as Hl.
  { intros c Hc. specialize (Hst c). destruct (h !! c), (h' !! c); try done. by rewrite decide_True in Hst. }
  clear Hst. induction Hat as [|c y l ys [Hy Hs] _ IH]; [split; constructor|].
  pose proof (Hl c ltac:(left)) as Hc. rewrite Hy in Hc. cbn [omap list_omap]. destruct (h' !! c) as [y'|] eqn:E; [|done].
  destruct IH as [IH1 IH2]; [intros d Hd; apply Hl; by right|]. split; constructor; auto. split; [done|].
  destruct Hc as (_ & _ & _ & _ & _ & ->). destruct (active y); [apply u16_range|done].
Qed.

Lemma forwarded_all k ys0 ys pkt :
  Forall2 (follows k) ys0 ys -> Forall (fun y => 0 <= c_seq y < 2 ^ 16) ys0 ->
  (ys ≫= fun y => forwarded y 0 pkt) = (ys0 ≫= fun y => forwarded y k pkt).
Proof.
  induction 1 as [|y0 y ys0 ys Hf _ IH]; intros HF; [done|]. apply Forall_cons_1 in HF as [Hs HF]. cbn.
  rewrite (forwarded_follows k y0 y pkt Hs Hf). f_equal. by apply IH.
Qed.

Lemma packets_run p l ys0 pkts : forall w k ys,
  serving w p l -> NoDup l -> at_ (consumer_heap w) l ys -> Forall2 (follows k) ys0 ys ->
  Forall (fun y => 0 <= c_seq y < 2 ^ 16) ys0 ->
  exists w' ys', st_each (rtc_producer_on_rtp p) pkts w = (w', Ok ()) /\ serving w' p l /\
    txs w' = run_sends (fanout ys0 k pkts) (txs w) /\ at_ (consumer_heap w') l ys' /\
    Forall2 (follows (k + blen pkts)) ys0 ys'.
Proof.
  induction pkts as [|pkt pkts IH]; intros w k ys Hs Hnd Hat Hf HF.
  { exists w, ys. change (@blen Rtp.rtc_rtp_packet_t []) with 0. rewrite Z.add_0_r. by split_and!. }
  destruct (producer_on_rtp_run w p l ys pkt Hs Hnd Hat) as (w1 & E1 & Hs1 & Et1 & Hst & _).
  destruct (at_stepped 1 _ _ l ys _ Hat Hst eq_refl) as [Hat1 Hf1].
  destruct (IH w1 (k + 1) (omap (fun c => consumer_heap w1 !! c) l) Hs1 Hnd Hat1) as (w2 & ys2 & E2 & Hs2 & Et2 & Hat2 & Hf2); [|done|].
  { clear -Hf Hf1. revert Hf1. generalize (omap (fun c => consumer_heap w1 !! c) l). induction Hf as [|y0 y ys0 ys Hy _ IHf];
      intros zs Hz; inversion Hz; subst; constructor; eauto using follows_step. }
  exists w2, ys2. cbn [st_each fanout]. rewrite (st_bind_run _ _ _ _ _ E1), blen_cons.
  split_and!; [done|done| |done|by replace (k + (1 + blen pkts)) with (k + 1 + blen pkts) by lia].
  rewrite Et2, Et1, run_sends_app. by rewrite (forwarded_all k ys0 ys).
Qed.

Lemma follows_refl y : 0 <= c_seq y < 2 ^ 16 -> follows 0 y y.
Proof. intros Hs. unfold follows. rewrite Z.add_0_r, u16_id by lia. by destruct (active y). Qed.

(** ** Every call keeps the graph *)

Lemma at_of_list w l :
  graph_wf w -> (forall c, c ∈ l -> is_Some (consumer_heap w !! c)) -> at_ (consumer_heap w) l (omap (fun c => consumer_heap w !! c) l).
Proof.
  intros Hg. induction l as [|c l IH]; intros Hl; [constructor|]. cbn [omap list_omap].
  destruct (Hl c) as [y Hy]; [left|]. rewrite Hy. constructor; [|apply IH; intros d Hd; apply Hl; by right].
  split; [done|]. by destruct (wf_consumer _ Hg c y Hy) as (_ & ? & _).
Qed.

(** the consumers keep their producer and whether they are open *)
Lemma wf_stepped w w' k l :
  graph_wf w -> same_lists w w' -> stepped k (consumer_heap w) (consumer_heap w') l -> brk w' = brk w -> graph_wf w'.
Proof.
  intros [Hp Hc] Hs Hst Eb.
  assert (forall c y', consumer_heap w' !! c = Some y' -> exists y, consumer_heap w !! c = Some y /\
            c_producer y' = c_producer y /\ c_closed y' = c_closed y /\ (0 <= c_seq y < 2 ^ 16 -> 0 <= c_seq y' < 2 ^ 16)) as Hb.
  { intros c y' Hy'. specialize (Hst c). rewrite Hy' in Hst. destruct (consumer_heap w !! c) as [y|]; [|done]. exists y.
    destruct (decide (c ∈ l)); [|by subst]. destruct Hst as (_ & ? & _ & ? & _ & ->). split_and!; try done.
    intros ?. destruct (active y); [apply u16_range|done]. }
  assert (forall c y, consumer_heap w !! c = Some y -> exists y', consumer_heap w' !! c = Some y' /\
            c_producer y' = c_producer y /\ c_closed y' = c_closed y) as Hf.
  { intros c y Hy. specialize (Hst c). rewrite Hy in Hst. destruct (consumer_heap w' !! c) as [y'|]; [|done]. exists y'.
    destruct (decide (c ∈ l)); [|by subst]. by destruct Hst as (_ & ? & _ & ? & _). }
  split.
  - intros p x' Hx'. specialize (Hs p). rewrite Hx' in Hs. destruct (producers w !! p) as [x|] eqn:Hx; [|done].
    destruct (Hp p x Hx) as (? & l0 & Hv & Hnd & Hin). rewrite Hs, Eb. split; [done|]. exists l0. split_and!; try done.
    intros c. rewrite Hin. split; intros (y & Hy & E1 & E2).
    + destruct (Hf c y Hy) as (y' & ? & ? & ?). exists y'. split_and!; congruence.
    + destruct (Hb c y Hy) as (y' & ? & ? & ? & _). exists y'. split_and!; congruence.
  - intros c y' Hy'. destruct (Hb c y' Hy') as (y & Hy & E1 & E2 & E3). destruct (Hc c y Hy) as (? & ? & Ho).
    rewrite Eb, E1, E2. split_and!; [done|by apply E3..|]. intros Hcl. destruct (Ho Hcl) as [x Hx].
    specialize (Hs (c_producer y)). rewrite Hx in Hs. destruct (producers w' !! c_producer y); [eauto|done].
Qed.

Lemma list_consumers w p x l :
  graph_wf w -> producers w !! p = Some x ->
  (forall c, c ∈ l <-> exists y, consumer_heap w !! c = Some y /\ c_producer y = p /\ c_closed y = false) ->
  at_ (consumer_heap w) l (omap (fun c => consumer_heap w !! c) l).
Proof. intros Hg Hx Hin. apply at_of_list; [done|]. intros c (y & Hy & _)%Hin. eauto. Qed.

Lemma good_packet w p pkt : graph_wf w -> is_Some (producers w !! p) -> good (rtc_producer_on_rtp p pkt) w.
Proof.
  intros Hg [x Hx]. unfold good. destruct (p_closed x) eqn:Ec.
  { unfold rtc_producer_on_rtp. rewrite (st_bind_run _ _ _ _ _ (rd_producer_run _ _ _ Hx)), Ec. by split. }
  destruct (wf_list _ Hg p x Hx) as (_ & l & Hv & Hnd & Hin).
  destruct (producer_on_rtp_run w p l (omap (fun c => consumer_heap w !! c) l) pkt) as (w' & E & _ & _ & Hst & Eb & Hs);
    [by exists x|done|by eapply list_consumers|].
  rewrite E. split; [done|]. by eapply wf_stepped.
Qed.

(** ** The lists of consumers *)

Lemma swap_remove_perm (l : list Z) i c : l !! i = Some c -> c :: Vec.list_swap_remove l i ≡ₚ l.
Proof.
  intros Hi. assert (i < length l)%nat as Hlt by (by eapply lookup_lt_Some). unfold Vec.list_swap_remove.
  destruct (list.last l) as [x|] eqn:El; [|by apply last_None in El; subst].
  rewrite decide_True by done. apply last_Some in El as [a ->].
  rewrite length_app. cbn [length]. replace (length a + 1 - 1)%nat with (length a) by lia.
  rewrite length_app in Hlt. cbn in Hlt. destruct (decide (i = length a)) as [->|].
  - rewrite list_lookup_middle in Hi by done. simplify_eq. rewrite list_insert_id by (by apply list_lookup_middle).
    rewrite take_app_length. apply Permutation_cons_append.
  - rewrite insert_app_l by lia. rewrite take_app_le by (rewrite length_insert; lia).
    rewrite take_ge by (rewrite length_insert; lia). rewrite lookup_app_l in Hi by lia.
    apply list_elem_of_split_length in Hi as (a1 & a2 & -> & ->). rewrite insert_app_r_alt by lia.
    rewrite Nat.sub_diag, (Permutation_app_comm _ [x]). cbn. rewrite <-!Permutation_middle. apply perm_swap.
Qed.

Lemma remove_loop_run v l c : Vec.vec_repr v l -> forall l' i,
  0 <= i -> drop (Z.to_nat i) l = l' ->
  exists v' r, remove_loop (length l') i c v = (v', Ok ()) /\ Vec.vec_repr v' r /\
    ((c ∉ l' /\ v' = v /\ r = l) \/ c :: r ≡ₚ l).
Proof.
  intros Hv l'. induction l' as [|d l' IH]; intros i Hi Hd.
  { exists v, l. split_and!; [done|done|]. left. split; [set_solver|done]. }
  assert (l !! Z.to_nat i = Some d) as Hc by (rewrite <-(Nat.add_0_r (Z.to_nat i)), <-lookup_drop, Hd; done).
  cbn [length remove_loop]. rewrite st_bind_eq. cbn [get]. rewrite (Vec.at_spec v l i Hv Hi), Hc.
  rewrite (st_bind_lift _ _ _ (Some (Some d)) eq_refl). destruct (Z.eqb_spec d c) as [->|Hne].
  - destruct (Vec.swap_remove_spec v l i Hv Hi) as (v' & E & Hv'). exists v'. eexists. split_and!; [done|done|].
    right. by apply swap_remove_perm.
  - destruct (IH (i + 1)) as (v' & r & E & Hv' & Hr); [lia| |].
    { replace (Z.to_nat (i + 1)) with (Z.to_nat i + 1)%nat by lia. by rewrite <-drop_drop, Hd. }
    exists v', r. split_and!; [done|done|]. destruct Hr as [(? & ? & ?)|?]; [left|by right]. split_and!; try done. set_solver.
Qed.

(** ** Closing and destroying *)

Definition open_of w (p c : Z) : Prop :=
  exists y, consumer_heap w !! c = Some y /\ c_producer y = p /\ c_closed y = false.

Lemma wf_close_again w c y :
  graph_wf w -> consumer_heap w !! c = Some y -> c_closed y = true -> graph_wf (with_consumers w (<[c := c_close y]> (consumer_heap w))).
Proof.
  intros Hg Hy Hc. replace (c_close y) with y; [rewrite insert_id by done; by destruct w|].
  destruct y. cbn in *. by subst.
Qed.

Lemma wf_close w c y x v r l :
  graph_wf w -> consumer_heap w !! c = Some y -> c_closed y = false ->
  producers w !! c_producer y = Some x -> Vec.vec_repr (consumers x) l -> NoDup l ->
  (forall d, d ∈ l <-> open_of w (c_producer y) d) -> Vec.vec_repr v r -> c :: r ≡ₚ l ->
  graph_wf (with_producers (with_consumers w (<[c := c_close y]> (consumer_heap w)))
              (<[c_producer y := p_set_consumers v x]> (producers w))).
Proof.
  intros [Hp Hc] Hy Ho Hx Hl Hnd Hin Hv Hperm.
  assert (NoDup (c :: r)) as [Hcr Hndr]%NoDup_cons by (by rewrite Hperm).
  assert (forall q d, d <> c -> (exists z, <[c := c_close y]> (consumer_heap w) !! d = Some z /\ c_producer z = q /\ c_closed z = false) <->
            open_of w q d) as Hopen by (intros q d Hne; by rewrite lookup_insert_ne).
  assert (forall q, ~ (exists z, <[c := c_close y]> (consumer_heap w) !! c = Some z /\ c_producer z = q /\ c_closed z = false)) as Hself.
  { intros q. rewrite lookup_insert_eq. naive_solver. }
  split; cbn.
  - intros q z Hz. destruct (decide (q = c_producer y)) as [->|Hne].
    + rewrite lookup_insert_eq in Hz. apply Some_inj in Hz as <-. split; [by apply (Hp _ x)|]. exists r. cbn. split_and!; try done.
      intros d. destruct (decide (d = c)) as [->|Hd]; [split; [done|by intros ?%Hself]|].
      rewrite (Hopen _ d Hd), <-Hin, <-Hperm. set_solver.
    + rewrite lookup_insert_ne in Hz by done. destruct (Hp q z Hz) as (? & l0 & ? & ? & Hin0). split; [done|]. exists l0.
      split_and!; try done. intros d. destruct (decide (d = c)) as [->|Hd]; [|by rewrite (Hopen _ d Hd)].
      split; [|by intros ?%Hself]. intros (z' & ? & ? & _)%Hin0. congruence.
  - intros d z [[<- <-]|[Hne Hz]]%lookup_insert_Some.
    + destruct (Hc c y Hy) as (? & ? & _). cbn. split_and!; [done|lia..|done].
    + destruct (Hc d z Hz) as (? & ? & Hs). split_and!; [done|lia..|]. intros Hcl. rewrite lookup_insert_is_Some'. auto.
Qed.

Lemma close_consumer_run w c y :
  graph_wf w -> consumer_heap w !! c = Some y ->
  exists w', rtc_consumer_close c w = (w', Ok ()) /\ graph_wf w' /\ consumer_heap w' = <[c := c_close y]> (consumer_heap w).
Proof.
  intros Hg Hy. unfold rtc_consumer_close. rewrite (st_bind_run _ _ _ _ _ (rd_consumer_run _ _ _ Hy)).
  rewrite (st_bind_run _ _ _ _ _ (upd_consumer_run _ _ _ _ Hy)). destruct (c_closed y) eqn:Ec.
  { eexists. split_and!; [done|by apply wf_close_again|done]. }
  destruct (wf_consumer _ Hg c y Hy) as (_ & _ & Hs). destruct (Hs Ec) as [x Hx].
  destruct (wf_list _ Hg _ _ Hx) as (_ & l & Hl & Hnd & Hin). set (w1 := with_consumers w _).
  assert (producers w1 !! c_producer y = Some x) as Hx1 by done.
  unfold rtc_producer_remove_consumer. rewrite (st_bind_run _ _ _ _ _ (rd_producer_run _ _ _ Hx1)).
  unfold Vec.rtc_vec_len. rewrite (Vec.vr_len _ _ Hl). unfold blen. rewrite Nat2Z.id.
  destruct (remove_loop_run (consumers x) l c Hl l 0) as (v & r & E & Hv & Hr); [lia|done|]. rewrite E.
  rewrite (st_bind_run _ _ _ _ _ (upd_producer_run _ _ _ _ Hx1)).
  destruct Hr as [(Hni & _)|Hperm]; [exfalso; apply Hni, Hin; eauto|].
  eexists. split; [done|]. split; [|done]. by apply (wf_close w c y x v r l).
Qed.

Lemma wf_free_consumer w c y :
  graph_wf w -> consumer_heap w !! c = Some y -> c_closed y = true -> graph_wf (with_consumers w (delete c (consumer_heap w))).
Proof.
  intros [Hp Hc] Hy Ec. split; cbn.
  - intros p x Hx. destruct (Hp p x Hx) as (? & l & ? & ? & Hin). split; [done|]. exists l. split_and!; try done.
    intros d. rewrite Hin. setoid_rewrite lookup_delete_Some. split; intros (z & Hz & ? & ?).
    + exists z. split_and!; try done. intros ->. congruence.
    + exists z. by destruct Hz.
  - intros d z [_ Hz]%lookup_delete_Some. by apply Hc.
Qed.

Lemma wf_free_producer w p :
  graph_wf w -> (forall c, ~ open_of w p c) -> graph_wf (with_producers w (delete p (producers w))).
Proof.
  intros [Hp Hc] Hno. split; cbn.
  - intros q x [_ Hx]%lookup_delete_Some. by apply Hp.
  - intros c y Hy. destruct (Hc c y Hy) as (? & ? & Hs). split_and!; [done|lia..|]. intros Ho.
    rewrite lookup_delete_ne; [by apply Hs|]. intros ->. apply (Hno c). by exists y.
Qed.

Lemma good_consumer_close w c : graph_wf w -> is_Some (consumer_heap w !! c) -> good (rtc_consumer_close c) w.
Proof. intros Hg [y Hy]. unfold good. by destruct (close_consumer_run w c y Hg Hy) as (w' & -> & ? & _). Qed.

Lemma good_consumer_destroy w c : graph_wf w -> is_Some (consumer_heap w !! c) -> good (rtc_consumer_destroy c) w.
Proof.
  intros Hg [y Hy]. unfold good, rtc_consumer_destroy. destruct (close_consumer_run w c y Hg Hy) as (w' & E & Hg' & Eh).
  rewrite (st_bind_run _ _ _ _ _ E). assert (consumer_heap w' !! c = Some (c_close y)) as Hy' by (rewrite Eh; apply lookup_insert_eq).
  unfold free_consumer. rewrite (st_bind_run _ _ _ _ _ (rd_consumer_run _ _ _ Hy')). split; [done|]. by eapply wf_free_consumer.
Qed.

Lemma producer_close_run w p x a :
  graph_wf w -> producers w !! p = Some x ->
  exists w', rtc_producer_close a p w = (w', Ok ()) /\ graph_wf w' /\ consumer_heap w' = consumer_heap w /\ is_Some (producers w' !! p).
Proof.
  intros Hg Hx. unfold rtc_producer_close. rewrite (st_bind_run _ _ _ _ _ (rd_producer_run _ _ _ Hx)).
  rewrite (st_bind_run _ _ _ _ _ (upd_producer_run _ _ _ _ Hx)). set (w1 := with_producers w _).
  assert (graph_wf w1) as Hg1 by by apply (wf_upd_producer w p x p_close).
  assert (is_Some (producers w1 !! p)) as Hs by (cbn; rewrite lookup_insert_eq; eauto).
  destruct (p_closed x); [by exists w1|]. unfold rtc_router_unregister_producer. destruct (ssrc (p_rtp x) =? 0); [by exists w1|].
  cbn [negb]. specialize (Hunbind a (p_transport x) (ssrc (p_rtp x)) (txs w1)). unfold on_txs.
  destruct (tx_unbind_rtp a (p_transport x) (ssrc (p_rtp x)) (txs w1)) as [t r] eqn:Et.
  erewrite void_run; [|apply zoom_eq; exact Et|done]. eexists. split; [done|]. split_and!; [by apply wf_txs|done|done].
Qed.

Lemma good_producer_close w p a : graph_wf w -> is_Some (producers w !! p) -> good (rtc_producer_close a p) w.
Proof. intros Hg [x Hx]. unfold good. by destruct (producer_close_run w p x a Hg Hx) as (w' & -> & ? & _). Qed.

Lemma good_producer_destroy w p a :
  graph_wf w -> is_Some (producers w !! p) -> (forall c, ~ open_of w p c) -> good (rtc_producer_destroy a p) w.
Proof.
  intros Hg [x Hx] Hno. unfold good, rtc_producer_destroy.
  destruct (producer_close_run w p x a Hg Hx) as (w' & E & Hg' & Eh & [x' Hx']). rewrite (st_bind_run _ _ _ _ _ E).
  unfold free_producer. rewrite (st_bind_run _ _ _ _ _ (rd_producer_run _ _ _ Hx')). split; [done|].
  apply wf_free_producer; [done|]. intros c (y & Hy & ?). apply (Hno c). exists y. by rewrite <-Eh.
Qed.

(** ** Creating *)

Lemma empty_vec : Vec.vec_repr (Vec.Vec [] 0 0 8 : Vec.rtc_vec_t Z) [].
Proof. split; cbn; try done; by left. Qed.

Lemma wf_new_producer w x n :
  graph_wf w -> consumers x = Vec.Vec [] 0 0 8 ->
  graph_wf (Graph (<[brk w := x]> (producers w)) (consumer_heap w) n (next_consumer_id w) (brk w + 1) (txs w)) /\
  forall c, ~ open_of w (brk w) c.
Proof.
  intros [Hp Hc] Ex.
  assert (forall c, ~ open_of w (brk w) c) as Hno.
  { intros c (y & Hy & E & Ho). destruct (Hc c y Hy) as (_ & _ & Hs). destruct (Hs Ho) as [z Hz]. rewrite E in Hz. apply Hp in Hz. lia. }
  split; [|done]. split; cbn.
  - intros q z [[<- <-]|[_ Hz]]%lookup_insert_Some.
    + split; [lia|]. exists []. rewrite Ex. split_and!; [apply empty_vec|constructor|]. intros c. split; [set_solver|].
      intros Ho. by destruct (Hno c).
    + destruct (Hp q z Hz) as (? & ?). split; [lia|done].
  - intros c y Hy. destruct (Hc c y Hy) as (? & ? & Hs). split_and!; [lia..|]. intros Ho. rewrite lookup_insert_is_Some'. auto.
Qed.

Lemma good_produce a1 a2 a3 t opts w : graph_wf w -> good (rtc_transport_produce a1 a2 a3 t opts) w.
Proof.
  intros Hg. unfold good, rtc_transport_produce. rewrite st_bind_eq. cbn [get].
  destruct (_ =? 0) eqn:Es; [by split|]. destruct (_ || _); [by split|].
  rewrite (st_bind_lift (Vec.rtc_vec_init 8) _ _ (Vec.Vec [] 0 0 8) eq_refl), st_bind_eq. cbn [put]. set (x := Producer _ _ _ _ _ _ _ _ _).
  destruct (wf_new_producer w x (u32 (next_producer_id w + 1)) Hg eq_refl) as [Hg1 Hno]. set (w1 := Graph _ _ _ _ _ _) in *.
  assert (forall w2 A (k : A), graph_wf w2 -> producers w2 = producers w1 -> consumer_heap w2 = consumer_heap w ->
    exists w3, (free_producer (brk w) ≫= (fun _ => mret k)) w2 = (w3, Ok k) /\ graph_wf w3) as Hfree.
  { intros w2 A k Hg2 E1 E2. assert (producers w2 !! brk w = Some x) as Hx by (rewrite E1; apply lookup_insert_eq).
    unfold free_producer. rewrite st_bind_eq, (st_bind_run _ _ _ _ _ (rd_producer_run _ _ _ Hx)). eexists. split; [done|].
    apply wf_free_producer; [done|]. intros c (y & Hy & ?). apply (Hno c). exists y. by rewrite <-E2. }
  destruct a2; cbn [negb]; [|by destruct (Hfree w1 _ (@None Z)) as (w3 & -> & ?)].
  unfold rtc_router_register_producer. rewrite Es. rewrite st_bind_eq. unfold st_attempt.
  rewrite st_bind_eq. cbn [fail_if lift]. unfold on_txs, zoom.
  specialize (Hbind a3 t (ssrc (po_rtp opts)) (brk w) (txs w1)). destruct (tx_bind_rtp _ _ _ _ _) as [t' [[]|e|]]; [| |done]; cbn [attempt].
  - split; [done|]. by apply wf_txs.
  - edestruct (Hfree (Graph (producers w1) (consumer_heap w1) (next_producer_id w1) (next_consumer_id w1) (brk w1) t') _ (@None Z))
      as (w3 & -> & ?); [by apply wf_txs|done|done|done].
Qed.

Lemma wf_new_consumer w x y l v n :
  graph_wf w -> producers w !! c_producer y = Some x -> Vec.vec_repr (consumers x) l -> NoDup l ->
  (forall d, d ∈ l <-> open_of w (c_producer y) d) -> Vec.vec_repr v (l ++ [brk w]) ->
  c_closed y = false -> 0 <= c_seq y < 2 ^ 16 ->
  graph_wf (Graph (<[c_producer y := p_set_consumers v x]> (producers w)) (<[brk w := y]> (consumer_heap w))
              (next_producer_id w) n (brk w + 1) (txs w)).
Proof.
  intros [Hp Hc] Hx Hl Hnd Hin Hv Ho Hs.
  assert (consumer_heap w !! brk w = None) as Hf by (destruct (consumer_heap w !! brk w) eqn:E; [apply Hc in E; lia|done]).
  assert (forall q d, (exists z, <[brk w := y]> (consumer_heap w) !! d = Some z /\ c_producer z = q /\ c_closed z = false) <->
            (d = brk w /\ q = c_producer y) \/ open_of w q d) as Hopen.
  { intros q d. destruct (decide (d = brk w)) as [->|Hne].
    - rewrite lookup_insert_eq. split; [naive_solver|]. intros [[_ ->]|(z & Hz & _)]; [eauto|congruence].
    - rewrite lookup_insert_ne by done. unfold open_of. naive_solver. }
  split; cbn.
  - intros q z Hz. setoid_rewrite Hopen. destruct (decide (q = c_producer y)) as [->|Hne].
    + rewrite lookup_insert_eq in Hz. apply Some_inj in Hz as <-. destruct (Hp _ _ Hx) as (? & _). split; [lia|].
      exists (l ++ [brk w]). cbn. split_and!; [done| |].
      * apply NoDup_app. split_and!; [done| |apply NoDup_singleton]. intros d (z & Hz & _)%Hin ->%list_elem_of_singleton. congruence.
      * intros d. rewrite elem_of_app, list_elem_of_singleton, Hin. naive_solver.
    + rewrite lookup_insert_ne in Hz by done. destruct (Hp q z Hz) as (? & l0 & ? & ? & Hin0). split; [lia|]. exists l0.
      split_and!; try done. intros d. rewrite Hin0. unfold open_of. naive_solver.
  - intros d z [[<- <-]|[_ Hz]]%lookup_insert_Some; rewrite lookup_insert_is_Some'.
    + split_and!; [lia..|]. eauto.
    + destruct (Hc d z Hz) as (? & ? & ?). split_and!; [lia..|]. auto.
Qed.

Lemma good_consume a1 a2 rs rq t opts w :
  graph_wf w -> is_Some (producers w !! co_producer opts) -> 0 <= rq < 2 ^ 16 ->
  good (rtc_transport_consume a1 a2 rs rq t opts) w.
Proof.
  intros Hg [x Hx] Hq. unfold good, rtc_transport_consume. rewrite st_bind_eq. cbn [get].
  destruct (negb _); [by split|]. unfold rtc_producer_get_stats, rtc_producer_get_rtp_parameters.
  rewrite st_bind_eq, (st_bind_run _ _ _ _ _ (rd_producer_run _ _ _ Hx)). cbn [mret st_ret ps_closed].
  destruct (_ || _) eqn:Ec; [by split|]. apply orb_false_elim in Ec as [Ec _].
  rewrite st_bind_eq, (st_bind_run _ _ _ _ _ (rd_producer_run _ _ _ Hx)). cbn [mret st_ret].
  rewrite st_bind_eq. cbn [put]. set (y := Consumer _ _ _ _ _ _ _ _ _ _). set (w1 := Graph _ _ _ _ _ _).
  assert (producers w1 !! co_producer opts = Some x) as Hx1 by done.
  destruct (wf_list _ Hg _ _ Hx) as (_ & l & Hl & Hnd & Hin). destruct Hg as [Hp Hc].
  assert (consumer_heap w !! brk w = None) as Hf by (destruct (consumer_heap w !! brk w) eqn:E; [apply Hc in E; lia|done]).
  rewrite st_bind_eq. unfold st_attempt, rtc_producer_add_consumer.
  rewrite (st_bind_run _ _ _ _ _ (rd_producer_run _ _ _ Hx1)), Ec. cbn [fail_if]. rewrite (st_bind_lift _ _ _ _ eq_refl).
  destruct (Vec.push_spec (consumers x) l a2 (brk w) Hl) as (v & [[Ev Hv]|[Ev ->]]); rewrite Ev;
    rewrite (st_bind_run _ _ _ _ _ (upd_producer_run _ _ _ _ Hx1)); cbn [lift attempt].
  - split; [done|]. by apply (wf_new_consumer w x y l v).
  - unfold free_consumer. erewrite st_bind_run; [|erewrite st_bind_run; [done|by apply rd_consumer_run, lookup_insert_eq]].
    split; [done|]. cbn. rewrite delete_insert_id by done.
    replace (p_set_consumers (consumers x) x) with x by (by destruct x). rewrite insert_id by done. split; cbn.
    + intros q z Hz. destruct (Hp q z Hz) as (? & ?). split; [lia|done].
    + intros c z Hz. destruct (Hc c z Hz) as (? & ? & ?). by split_and!; [lia..|].
Qed.

(** ** Histories *)

(** what the application and the transports may do, in any order *)
Inductive call :=
| CProduce (a1 a2 a3 : bool) (t : Z) (opts : rtc_producer_options_t)
| CConsume (a1 a2 : bool) (rnd_ssrc rnd_seq t : Z) (opts : rtc_consumer_options_t)
| CPause (c : Z)
| CResume (c : Z)
| CCloseConsumer (c : Z)
| CDestroyConsumer (c : Z)
| CCloseProducer (a : bool) (p : Z)
| CDestroyProducer (a : bool) (p : Z)
| CPacket (p : Z) (pkt : Rtp.rtc_rtp_packet_t).

Definition run_call (c : call) : st (graph T) unit :=
  match c with
  | CProduce a1 a2 a3 t o => void (rtc_transport_produce a1 a2 a3 t o)
  | CConsume a1 a2 rs rq t o => void (rtc_transport_consume a1 a2 rs rq t o)
  | CPause c => rtc_consumer_pause c
  | CResume c => rtc_consumer_resume c
  | CCloseConsumer c => rtc_consumer_close c
  | CDestroyConsumer c => rtc_consumer_destroy c
  | CCloseProducer a p => rtc_producer_close a p
  | CDestroyProducer a p => rtc_producer_destroy a p
  | CPacket p pkt => rtc_producer_on_rtp p pkt
  end.

(** the addresses are alive, and a producer is destroyed only when its
    consumers are closed *)
Definition call_ok w (c : call) : Prop :=
  match c with
  | CProduce _ _ _ _ _ => True
  | CConsume _ _ _ rq _ o => is_Some (producers w !! co_producer o) /\ 0 <= rq < 2 ^ 16
  | CPause c | CResume c | CCloseConsumer c | CDestroyConsumer c => is_Some (consumer_heap w !! c)
  | CCloseProducer _ p | CPacket p _ => is_Some (producers w !! p)
  | CDestroyProducer _ p => is_Some (producers w !! p) /\ forall c, ~ open_of w p c
  end.

Definition graph_init (s : T) : graph T := Graph ∅ ∅ 1 1 0 s.

Inductive reachable (s : T) : graph T -> Prop :=
| reach_init : reachable s (graph_init s)
| reach_call w c : reachable s w -> call_ok w c -> reachable s (run_call c w).1.

Lemma good_call w c : graph_wf w -> call_ok w c -> good (run_call c) w.
Proof.
  intros Hg Hc. destruct c; cbn [run_call call_ok] in *; try apply good_void.
  - by apply good_produce.
  - destruct Hc. by apply good_consume.
  - apply good_upd_consumer; auto using keeps_pause.
  - apply good_upd_consumer; auto using keeps_pause.
  - by apply good_consumer_close.
  - by apply good_consumer_destroy.
  - by apply good_producer_close.
  - destruct Hc. by apply good_producer_destroy.
  - by apply good_packet.
Qed.

Lemma reachable_wf s w : reachable s w -> graph_wf w.
Proof.
  induction 1 as [|w c _ IH Hc]; [split; cbn; set_solver|].
  pose proof (good_call w c IH Hc) as Hg. unfold good in Hg. destruct (run_call c w). apply Hg.
Qed.

(** C13: A forwarding server.  In every state that calls of the application and
    packets can produce (with any results of allocations and transports), no
    further call touches a freed producer or consumer; and a run of packets of
    an open producer makes exactly the reference fan-out: each packet, in
    order, is sent on the transport of each consumer of the producer that is
    open and not paused, with the payload, timestamp, marker and payload type
    it came with, under the consumer's own SSRC and with sequence numbers that
    count on from the consumer's, modulo 2^16, and on no other transport. *)
Theorem routing_fanout (s : T) w p x :
  reachable s w -> producers w !! p = Some x -> p_closed x = false ->
  (forall c, call_ok w c -> (run_call c w).2 <> Fault) /\
  exists l ys, NoDup l /\ (forall c, c ∈ l <-> open_of w p c) /\ Forall2 (fun c y => consumer_heap w !! c = Some y) l ys /\
  forall pkts, exists w', st_each (rtc_producer_on_rtp p) pkts w = (w', Ok ()) /\
    txs w' = run_sends (fanout ys 0 pkts) (txs w) /\
    Forall2 (fun c y => exists y', consumer_heap w' !! c = Some y' /\ follows (blen pkts) y y') l ys.
Proof.
  intros Hr Hx Ho. pose proof (reachable_wf _ _ Hr) as Hg. split.
  { intros c Hc. pose proof (good_call w c Hg Hc) as Hgc. unfold good in Hgc. destruct (run_call c w). apply Hgc. }
  destruct (wf_list _ Hg p x Hx) as (_ & l & Hv & Hnd & Hin).
  pose proof (list_consumers w p x l Hg Hx Hin) as Hat. set (ys := omap _ l) in Hat.
  exists l, ys. split_and!; [done|done|by eapply Forall2_impl; [exact Hat|intros ? ? []]|].
  assert (Forall (fun y => 0 <= c_seq y < 2 ^ 16) ys) as HF by (eapply Forall2_Forall_r; [exact Hat|]; apply Forall_true; by intros ? ? []).
  assert (Forall2 (follows 0) ys ys) as Hf0 by (clear -HF; induction HF; constructor; auto using follows_refl).
  intros pkts. destruct (packets_run p l ys pkts w 0 ys) as (w' & ys' & E & _ & Et & Hat' & Hf); try done; [by exists x|].
  exists w'. split_and!; [done|done|]. rewrite Z.add_0_l in Hf. clearbody ys. clear -Hat' Hf Hat.
  revert ys Hat Hf. induction Hat' as [|c y' l ys' [Hy' _] _ IH]; intros ys Hat Hf.
  - inversion Hf; subst. constructor.
  - inversion Hf; subst. inversion Hat; subst. constructor; [eauto|]. by apply IH.
Qed.
End Spec.

(** ** A server with one producer and three consumers *)

(** transports that record what is sent on them *)
#[export] Instance recorder : Transports (list (Z * bytes)) := {|
  tx_closed _ _ := Some false;
  tx_send_rtp t b _ s := (s ++ [(t, b)], Ok b);
  tx_bind_rtp _ _ _ _ s := (s, Ok ());
  tx_unbind_rtp _ _ _ s := (s, Ok ())
|}.

Definition ex_setup : list call :=
  [CProduce true true true 100 (ProducerOptions RTC_MEDIA_KIND_AUDIO (RtpParams [] 7 []) None);
   CConsume true true 11 65535 101 (ConsumerOptions 0 false);
   CConsume true true 12 5 102 (ConsumerOptions 0 false);
   CConsume true true 13 9 103 (ConsumerOptions 0 true);
   CConsume true true 14 9 104 (ConsumerOptions 0 false);
   CCloseConsumer 4].

Definition ex_graph : graph (list (Z * bytes)) := fold_left (fun w c => (run_call c w).1) ex_setup (graph_init []).

Lemma ex_reachable : reachable [] ex_graph.
Proof.
  unfold ex_graph, ex_setup. cbn [fold_left].
  repeat match goal with |- reachable [] (run_call _ _).1 => apply reach_call end; try apply reach_init;
    vm_compute; repeat split; eauto; congruence.
Qed.

Definition ex_packet (ts : Z) (pl : bytes) : Rtp.rtc_rtp_packet_t :=
  Rtp.Packet (Rtp.Header 2 false false 0 true 111 1 ts 7) pl None 0 [].

(** the second packet of the first consumer wraps its sequence number *)
Example ex_forwarded :
  (fun d => (d.1, take 4 d.2)) <$> txs (st_each (rtc_producer_on_rtp 0) [ex_packet 3000 [1]; ex_packet 3960 [2]] ex_graph).1 =
  [(101, [128; 239; 255; 255]); (102, [128; 239; 0; 5]); (101, [128; 239; 0; 0]); (102, [128; 239; 0; 6])].
Proof. vm_compute. reflexivity. Qed.

Lemma routing_fanout_witness :
  exists l ys, NoDup l /\ (forall c, c ∈ l <-> open_of ex_graph 0 c) /\
  Forall2 (fun c y => consumer_heap ex_graph !! c = Some y) l ys /\
  forall pkts, exists w', st_each (rtc_producer_on_rtp 0) pkts ex_graph = (w', Ok ()) /\
    txs w' = run_sends (fanout ys 0 pkts) (txs ex_graph) /\
    Forall2 (fun c y => exists y', consumer_heap w' !! c = Some y' /\ follows (blen pkts) y y') l ys.
Proof.
  assert (exists x, producers ex_graph !! 0 = Some x /\ p_closed x = false) as (x & Hx & Ho)
    by (eexists; split; vm_compute; reflexivity).
  destruct (routing_fanout) with (s := @nil (Z * bytes)) (w := ex_graph) (p := 0) (x := x) as [_ Hfan];
    [done|done|done|exact ex_reachable|exact Hx|exact Ho|exact Hfan].
Defined.

End RoutingSpec.
