(* ===== verification/Track.v ===== *)
(** * Tracks: senders, receivers and transceivers (client/src/rtc_track.c)

    A transceiver pairs an RTP send stream and an RTP receive stream and is
    one section of a session description.  The streams are objects of the
    media session's stores ([MediaSession.media]); a transceiver holds
    pointers to them, [None] being NULL, which every function of
    rtc_rtp_stream.c takes and ignores.  The addresses the allocations of the
    streams return are arguments. *)

From Stdlib Require Import String.
From S2P Require Import Prelude RtpExt Rtp Rtcp Twcc RateControl NackBuf Vec Text Candidate Sdp Interceptor RtpStream MediaSession.
From Stdlib Require Import ZArith Lia.
From stdpp Require Import base list numbers gmap.
#[local] Open Scope Z_scope.

Module Track.
Import Text RtpStream MediaSession.

Definition RTC_MAX_TRANSCEIVERS : Z := 8.
Definition RTC_EXT_URI_MID : bytes := str "urn:ietf:params:rtp-hdrext:sdes:mid".
Definition RTC_EXT_URI_TRANSPORT_CC : bytes :=
  str "http://www.ietf.org/id/draft-holmer-rmcat-transport-wide-cc-extensions-01".

Inductive rtc_kind_t := RTC_KIND_AUDIO | RTC_KIND_VIDEO.
Inductive rtc_direction_t := RTC_DIR_SENDRECV | RTC_DIR_SENDONLY | RTC_DIR_RECVONLY | RTC_DIR_INACTIVE.

#[export] Instance kind_eq_dec : EqDecision rtc_kind_t.
Proof. solve_decision. Defined.
#[export] Instance direction_eq_dec : EqDecision rtc_direction_t.
Proof. solve_decision. Defined.

Record rtc_codec_t := Codec {
  c_payload_type : Z;
  mime_type : bytes;
  c_clock_rate : Z;
  c_channels : Z
}.

Record rtc_rtp_send_encoding_t := Encoding { enc_active : bool; enc_max_bitrate_bps : Z }.
(** [encodings]: the one element of the array *)
Record rtc_rtp_send_params_t := SendParams { encodings : rtc_rtp_send_encoding_t; encoding_count : Z }.

Record rtc_rtp_sender := Sender { s_stream : option Z; s_codec : rtc_codec_t; s_kind : rtc_kind_t }.
Record rtc_rtp_receiver := Receiver { r_stream : option Z; r_codec : rtc_codec_t; r_kind : rtc_kind_t }.

Record rtc_rtp_transceiver := Transceiver {
  sender : rtc_rtp_sender;
  receiver : rtc_rtp_receiver;
  direction : rtc_direction_t;
  t_mid : bytes;
  t_mid_index : Z;
  used : bool
}.

Definition with_direction (t : rtc_rtp_transceiver) (d : rtc_direction_t) : rtc_rtp_transceiver :=
  Transceiver (sender t) (receiver t) d (t_mid t) (t_mid_index t) (used t).

(** ** The streams behind the pointers *)

(** a call of a function of rtc_rtp_stream.c that only changes the stream *)
Definition upd_send (p : option Z) (f : rtc_rtp_send_stream_t -> rtc_rtp_send_stream_t) : st media unit :=
  match p with
  | None => mret ()
  | Some id => m ← get; s ← lift (deref (send_store m) id); put (with_sender m id (f s) [])
  end.
Definition upd_recv (p : option Z) (f : rtc_rtp_recv_stream_t -> rtc_rtp_recv_stream_t) : st media unit :=
  match p with
  | None => mret ()
  | Some id => m ← get; s ← lift (deref (recv_store m) id); put (with_receiver m id (f s) [])
  end.

(** a query of a stream; [d]: the answer for NULL *)
Definition ask_send {A} (p : option Z) (d : A) (f : rtc_rtp_send_stream_t -> A) (m : media) : res A :=
  match p with
  | None => Ok d
  | Some id => s ← deref (send_store m) id; Ok (f s)
  end.
Definition ask_recv {A} (p : option Z) (d : A) (f : rtc_rtp_recv_stream_t -> A) (m : media) : res A :=
  match p with
  | None => Ok d
  | Some id => s ← deref (recv_store m) id; Ok (f s)
  end.

(** ** The application's calls *)

Section Send.
Context {T K : Type} {STr : SessionTransport T}.

Definition rtc_rtp_sender_send (now_us : Z) (s : rtc_rtp_sender) (payload : bytes) (samples : Z) (mk : bool)
    : st (world T K) unit := fun w =>
  match s_stream s with
  | None => (w, Err RTC_ERR_INVALID)
  | Some id =>
      match deref (send_store (med w)) id with
      | Ok x =>
          let '((x, t), r) := rtc_rtp_send_stream_send now_us payload samples mk (x, tr w) in
          (World (with_sender (med w) id x []) t (wk w), r)
      | _ => (w, Fault)
      end
  end.

(** [t]: the transport the stream is attached to *)
Definition rtc_rtp_sender_attach_twcc (t : T) (s : rtc_rtp_sender) (ext_id : Z) : st media unit :=
  upd_send (s_stream s) (rtc_rtp_send_stream_attach_twcc t ext_id).
End Send.

Definition rtc_rtp_sender_get_target_bitrate (s : rtc_rtp_sender) (m : media) : res Z :=
  ask_send (s_stream s) 0 rtc_rtp_send_stream_get_target_bitrate m.

Definition rtc_rtp_sender_should_keyframe (s : rtc_rtp_sender) : st media bool :=
  m ← get;
  b ← lift (ask_send (s_stream s) false (fun x => (rtc_rtp_send_stream_should_keyframe x).1) m);
  _ ← upd_send (s_stream s) (fun x => (rtc_rtp_send_stream_should_keyframe x).2);
  mret b.

Definition rtc_rtp_sender_on_nack (s : rtc_rtp_sender) (fn : bool) : st media unit :=
  upd_send (s_stream s) (fun x => rtc_rtp_send_stream_on_nack x fn).
Definition rtc_rtp_sender_on_pli (s : rtc_rtp_sender) (fn : bool) : st media unit :=
  upd_send (s_stream s) (fun x => rtc_rtp_send_stream_on_pli x fn).

Definition rtc_rtp_sender_get_parameters (s : rtc_rtp_sender) (m : media) : res rtc_rtp_send_params_t :=
  a ← ask_send (s_stream s) false rtc_rtp_send_stream_send_active m;
  b ← ask_send (s_stream s) 0 rtc_rtp_send_stream_max_bitrate m;
  Ok (SendParams (Encoding a b) 1).

Definition rtc_rtp_sender_set_parameters (s : rtc_rtp_sender) (params : rtc_rtp_send_params_t) : st media unit :=
  _ ← lift (fail_if (negb (encoding_count params =? 1)) RTC_ERR_INVALID);
  _ ← upd_send (s_stream s) (fun x => rtc_rtp_send_stream_set_send_active x (enc_active (encodings params)));
  upd_send (s_stream s) (fun x => rtc_rtp_send_stream_set_max_bitrate x (enc_max_bitrate_bps (encodings params))).

Definition rtc_rtp_receiver_on_frame (r : rtc_rtp_receiver) (fn : bool) : st media unit :=
  upd_recv (r_stream r) (fun x => rtc_rtp_recv_stream_on_frame x fn).

Definition rtc_rtp_transceiver_set_direction (t : rtc_rtp_transceiver) (d : rtc_direction_t) : rtc_rtp_transceiver :=
  with_direction t d.

(** ** The lifecycle of a transceiver *)

(** [a_send], [a_recv]: what the two allocations return; [rnd_ssrc],
    [rnd_seq]: the random numbers of the RTP session; [now]: the clock *)
Definition rtc_rtp_transceiver_init_slot (a_send a_recv : option Z) (rnd_ssrc rnd_seq now mid_index : Z)
    (kind : rtc_kind_t) (codec : rtc_codec_t) (m : media) : rtc_rtp_transceiver * media :=
  let snd := p ← a_send; x ← rtc_rtp_send_stream_create true (c_payload_type codec) (c_clock_rate codec) rnd_ssrc rnd_seq now;
             Some (p, x) in
  let m := match snd with Some (p, x) => with_sender m p x [] | None => m end in
  let local_ssrc := match snd with Some (_, x) => rtc_rtp_send_stream_ssrc x | None => 0 end in
  let rcv := p ← a_recv; x ← rtc_rtp_recv_stream_create true (c_payload_type codec) (c_clock_rate codec) local_ssrc now;
             Some (p, x) in
  let m := match rcv with Some (p, x) => with_receiver m p x [] | None => m end in
  (Transceiver (Sender a_send codec kind) (Receiver a_recv codec kind) RTC_DIR_SENDRECV (cut 32 (sdec mid_index))
     mid_index true, m).

(** [free] of the streams *)
Definition free_send (p : option Z) (m : media) : res media :=
  match p with
  | None => Ok m
  | Some id => _ ← deref (send_store m) id;
               Ok (Media (session m) (delete id (send_store m)) (recv_store m) (events m) (clk m))
  end.
Definition free_recv (p : option Z) (m : media) : res media :=
  match p with
  | None => Ok m
  | Some id => _ ← deref (recv_store m) id;
               Ok (Media (session m) (send_store m) (delete id (recv_store m)) (events m) (clk m))
  end.

Definition rtc_rtp_transceiver_close_resources (t : rtc_rtp_transceiver) (m : media)
    : res (rtc_rtp_transceiver * media) :=
  m ← free_send (s_stream (sender t)) m;
  m ← free_recv (r_stream (receiver t)) m;
  Ok (Transceiver (Sender None (s_codec (sender t)) (s_kind (sender t)))
        (Receiver None (r_codec (receiver t)) (r_kind (receiver t))) (direction t) (t_mid t) (t_mid_index t) (used t), m).

Definition rtc_rtp_sender_attach_logical (s : rtc_rtp_sender) : st media unit :=
  upd_send (s_stream s) rtc_rtp_send_stream_attach_transport.

(** [a1], [a2], [a3]: the allocations of rate controller and buffer *)
Definition rtc_rtp_sender_arm_video (a1 a2 a3 : bool) (s : rtc_rtp_sender) : st media unit :=
  if negb (bool_decide (s_kind s = RTC_KIND_VIDEO)) then mret ()
  else upd_send (s_stream s) (rtc_rtp_send_stream_arm_video a1 a2 a3).

Definition rtc_rtp_receiver_activate (r : rtc_rtp_receiver) : st media unit :=
  upd_recv (r_stream r) (fun x => rtc_rtp_recv_stream_set_active x true).

(** the kind and the name of the codec in a mime type *)
Definition mime_media (mime : bytes) : Sdp.rtc_media_type_t * bytes :=
  if Candidate.starts (str "audio/") mime then (Sdp.RTC_MEDIA_AUDIO, cut 32 (drop 6 mime))
  else if Candidate.starts (str "video/") mime then (Sdp.RTC_MEDIA_VIDEO, cut 32 (drop 6 mime))
  else (Sdp.RTC_MEDIA_APPLICATION, []).

Definition add_extmap (m : Sdp.rtc_sdp_media_t) (i : Z) (u : bytes) : res Sdp.rtc_sdp_media_t :=
  o ← attempt (Sdp.rtc_sdp_media_add_extmap m i u);
  Ok (default m o).

Definition rtc_rtp_transceiver_fill_sdp_media (t : rtc_rtp_transceiver) (md : media) : res Sdp.rtc_sdp_media_t :=
  let c := s_codec (sender t) in
  let '(ty, name) := mime_media (mime_type c) in
  sc ← ask_send (s_stream (sender t)) 0 rtc_rtp_send_stream_ssrc md;
  let m := Sdp.MediaSection ty (c_payload_type c) (s32 (c_clock_rate c)) (c_channels c) name (t_mid_index t) sc [] in
  match ty with
  | Sdp.RTC_MEDIA_APPLICATION => Ok m
  | _ => m ← add_extmap m 4 RTC_EXT_URI_MID; add_extmap m 5 RTC_EXT_URI_TRANSPORT_CC
  end.
End Track.
