(* ===== verification/ClientRuntime.v ===== *)
(** * The shared runtime of client peers (client/src/rtc_client_runtime.c, and
    the configuration functions of client/src/rtc_peer.c)

    Peers with the same STUN configuration share a worker and a listener.  The
    runtimes are objects of the heap [runtimes], linked in the list
    [g_runtimes]; a dangling pointer is a [Fault].  The lock of the list makes
    each function one step.  What the creation of mutex, worker and listener
    returns, and the address calloc returns, are arguments; the worker and the
    listener themselves are those of Worker.v and Listener.v. *)

From Stdlib Require Import String.
From S2P Require Import Prelude Stun Text Scanf PacketIo Candidate Listener.
From Stdlib Require Import ZArith Lia.
From stdpp Require Import base list numbers gmap.
#[local] Open Scope Z_scope.

Module ClientRuntime.
Import Text.

Definition RTC_CLIENT_RUNTIME_MAX_PEERS : Z := 64.

Record rtc_client_runtime_config_t := RuntimeConfig { stun_server : bytes; stun_port : Z }.

#[export] Instance config_eq_dec : EqDecision rtc_client_runtime_config_t.
Proof. solve_decision. Defined.

(** [on_candidate], [on_done]: a function is given *)
Record runtime_peer_entry_t := PeerEntry { on_candidate : bool; on_done : bool; user : Z }.

Record rtc_client_runtime := Runtime {
  config : rtc_client_runtime_config_t;
  peers : list runtime_peer_entry_t;
  ref_count : Z
}.

Record pool := Pool { runtimes : gmap Z rtc_client_runtime; g_runtimes : list Z }.

Definition with_peers (x : rtc_client_runtime) (l : list runtime_peer_entry_t) : rtc_client_runtime :=
  Runtime (config x) l (ref_count x).
Definition with_count (x : rtc_client_runtime) (n : Z) : rtc_client_runtime := Runtime (config x) (peers x) n.

Definition rd_runtime (r : Z) : st pool rtc_client_runtime := fun w =>
  (w, match runtimes w !! r with Some x => Ok x | None => Fault end).
Definition put_runtime (r : Z) (x : rtc_client_runtime) : st pool unit := fun w =>
  (Pool (<[r := x]> (runtimes w)) (g_runtimes w), Ok ()).

(** ** Configuration *)

Definition default_port (p : Z) : Z := if p =? 0 then 3478 else p.

Definition runtime_config_equal (a b : rtc_client_runtime_config_t) : bool :=
  (default_port (stun_port a) =? default_port (stun_port b)) && bool_decide (stun_server a = stun_server b).

(** [strchr]: what precedes and what follows the first [c] *)
Fixpoint split_first (c : Z) (s : bytes) : option (bytes * bytes) :=
  match s with
  | [] => None
  | b :: s => if b =? c then Some ([], s) else '(x, y) ← split_first c s; Some (b :: x, y)
  end.

(** [strrchr] *)
Fixpoint split_last (c : Z) (s : bytes) : option (bytes * bytes) :=
  match s with
  | [] => None
  | b :: s => match split_last c s with
              | Some (x, y) => Some (b :: x, y)
              | None => if b =? c then Some ([], s) else None
              end
  end.

(** a value an [int] cannot hold is undefined behaviour *)
Definition atoi (s : bytes) : res Z :=
  let '(neg, s) := Scanf.sign (Scanf.skip_ws s) in
  let v := dec_value (Scanf.span is_digit s).1 in
  int_val (if neg then - v else v).

(** the host part of the URL *)
Definition stun_host (url : bytes) : bytes :=
  let host := if Candidate.starts (str "stun:") url then drop 5 url
              else if Candidate.starts (str "stuns:") url then drop 6 url else url in
  let host := if Candidate.starts (str "//") host then drop 2 host else host in
  let tmp := cut 256 host in
  match split_first 47 tmp with Some (x, _) => x | None => tmp end.

Definition peer_runtime_parse_stun_url (url : bytes) (out : rtc_client_runtime_config_t)
    : res rtc_client_runtime_config_t :=
  if negb (bool_decide (stun_server out = [])) then Ok out else
  let tmp := stun_host url in
  p ← (match split_last 58 tmp, split_first 93 tmp with
       | Some (x, y), None =>
           port ← atoi y;
           Ok (x, if (0 <? port) && (port <=? 65535) then port else stun_port out)
       | _, _ => Ok (tmp, stun_port out)
       end);
  Ok (RuntimeConfig (if bool_decide (p.1 = []) then stun_server out else cut 256 p.1) p.2).

(** the fields of rtc_config_t that are read; [None]: NULL *)
Record rtc_config_t := PeerConfig {
  ice_servers : list (list (option bytes));
  c_stun_server : option bytes;
  c_stun_port : Z
}.

(** the two loops; a URL that is NULL is skipped *)
Fixpoint first_server (urls : list (option bytes)) (out : rtc_client_runtime_config_t)
    : res rtc_client_runtime_config_t :=
  match urls with
  | [] => Ok out
  | u :: urls =>
      out ← (match u with None => Ok out | Some u => peer_runtime_parse_stun_url u out end);
      if negb (bool_decide (stun_server out = [])) then Ok out else first_server urls out
  end.

Definition peer_runtime_config_from_peer (cfg : option rtc_config_t) : res rtc_client_runtime_config_t :=
  let out := RuntimeConfig [] 3478 in
  match cfg with
  | None => Ok out
  | Some c =>
      match c_stun_server c with
      | Some s => Ok (RuntimeConfig (cut 256 s) (if c_stun_port c =? 0 then 3478 else c_stun_port c))
      | None => first_server (mjoin (take 4 <$> take 4 (ice_servers c))) out
      end
  end.

(** ** The pool *)

Section Pool.
(** [rtc_listener_create] succeeds with this configuration *)
Context (listen : Listener.rtc_listener_config_t -> bool).

Definition listener_cfg (c : rtc_client_runtime_config_t) : Listener.rtc_listener_config_t :=
  if bool_decide (stun_server c = []) then Listener.ListenerConfig [] [] 0 true false [] 0
  else Listener.ListenerConfig [] [] 0 true false (stun_server c) (stun_port c).

(** [calloc]: the address, if memory is left *)
Definition client_runtime_create (calloc : option Z) (mutex worker : bool) (c : rtc_client_runtime_config_t)
    : option (Z * rtc_client_runtime) :=
  match calloc with
  | None => None
  | Some r =>
      let c := RuntimeConfig (stun_server c) (default_port (stun_port c)) in
      if mutex && worker && listen (listener_cfg c) then Some (r, Runtime c [] 0) else None
  end.

Fixpoint find_runtime (l : list Z) (desired : rtc_client_runtime_config_t) : st pool (option Z) :=
  match l with
  | [] => mret None
  | r :: l =>
      x ← rd_runtime r;
      if runtime_config_equal (config x) desired then mret (Some r) else find_runtime l desired
  end.

Definition rtc_client_runtime_acquire (calloc : option Z) (mutex worker : bool) (c : rtc_client_runtime_config_t)
    : st pool (option Z) :=
  let desired := RuntimeConfig (stun_server c) (default_port (stun_port c)) in
  w ← get;
  it ← find_runtime (g_runtimes w) desired;
  match it with
  | Some r =>
      x ← rd_runtime r;
      n ← lift (int_val (ref_count x + 1));
      _ ← put_runtime r (with_count x n);
      mret (Some r)
  | None =>
      match client_runtime_create calloc mutex worker desired with
      | None => mret None
      | Some (r, x) =>
          _ ← put_runtime r (with_count x 1);
          _ ← modify (fun w => Pool (runtimes w) (r :: g_runtimes w));
          mret (Some r)
      end
  end.
End Pool.

(** the loop over the links; it reads the link of every node before [r] *)
Fixpoint unlink (r : Z) (l : list Z) : st pool (list Z) :=
  match l with
  | [] => mret []
  | x :: l =>
      if x =? r then mret l
      else _ ← rd_runtime x; l' ← unlink r l; mret (x :: l')
  end.

Definition rtc_client_runtime_release (r : Z) : st pool unit :=
  x ← rd_runtime r;
  n ← lift (int_val (ref_count x - 1));
  _ ← put_runtime r (with_count x n);
  if n =? 0 then
    w ← get;
    l ← unlink r (g_runtimes w);
    put (Pool (delete r (runtimes w)) l)
  else mret ().

(** ** The peers of a runtime *)

Fixpoint set_entry (e : runtime_peer_entry_t) (l : list runtime_peer_entry_t) : option (list runtime_peer_entry_t) :=
  match l with
  | [] => None
  | x :: l => if user x =? user e then Some (e :: l) else y ← set_entry e l; Some (x :: y)
  end.

Definition rtc_client_runtime_register_peer (r : Z) (e : runtime_peer_entry_t) : st pool unit :=
  x ← rd_runtime r;
  match set_entry e (peers x) with
  | Some l => put_runtime r (with_peers x l)
  | None =>
      _ ← lift (fail_if (RTC_CLIENT_RUNTIME_MAX_PEERS <=? blen (peers x)) RTC_ERR_NOMEM);
      put_runtime r (with_peers x (peers x ++ [e]))
  end.

(** the last entry takes the place of the removed one *)
Definition remove_entry (u : Z) (l : list runtime_peer_entry_t) : list runtime_peer_entry_t :=
  match list_find (fun e => user e = u) l, last l with
  | Some (i, _), Some e => take (length l - 1) (<[i := e]> l)
  | _, _ => l
  end.

Definition rtc_client_runtime_unregister_peer (r u : Z) : st pool unit :=
  x ← rd_runtime r;
  put_runtime r (with_peers x (remove_entry u (peers x))).

(** the peers whose callback is called, in order *)
Definition runtime_on_listener_candidate (x : rtc_client_runtime) : list Z :=
  user <$> filter (fun e => on_candidate e = true) (peers x).
Definition runtime_on_listener_done (x : rtc_client_runtime) : list Z :=
  user <$> filter (fun e => on_done e = true) (peers x).

(** ** Reading a STUN URL *)

Lemma split_first_none c s : Forall (fun b => b <> c) s -> split_first c s = None.
Proof. induction 1 as [|b s Hb _ IH]; cbn; [done|]. by rewrite (proj2 (Z.eqb_neq _ _)), IH. Qed.

Lemma split_last_app c x y : Forall (fun b => b <> c) y -> split_last c (x ++ c :: y) = Some (x, y).
Proof.
  intros Hy. assert (split_last c y = None) as En.
  { induction Hy as [|b y Hb _ IH]; cbn; [done|]. by rewrite IH, (proj2 (Z.eqb_neq _ _)). }
  induction x as [|b x IH]; cbn; [by rewrite En, Z.eqb_refl|by rewrite IH].
Qed.

Lemma atoi_dec n : 0 <= n <= INT_MAX -> atoi (dec n) = Ok n.
Proof.
  intros Hn. destruct (dec_digits n) as [Hd Hne]; [lia|]. unfold atoi.
  assert (Scanf.stops Scanf.isspace (dec n)) as Hs.
  { destruct (dec n) as [|b d]; [done|]. apply Forall_cons_1 in Hd as [Hb _]. unfold is_digit in Hb. cbn. unfold Scanf.isspace.
    apply andb_true_iff in Hb as [?%Z.leb_le ?%Z.leb_le]. repeat (case_match || lia || f_equal). }
  rewrite Scanf.skip_ws_id by done. rewrite <- (app_nil_r (dec n)), Scanf.sign_digit, Scanf.span_app by done.
  cbn [fst]. rewrite Scanf.dec_value_dec by lia. apply int_val_Ok. lia.
Qed.

(** a STUN URL with a host name and a port is read as these *)
Lemma stun_url_parsed host port :
  host <> [] -> Forall (fun b => b <> 47 /\ b <> 58 /\ b <> 93) host -> blen host <= 249 -> 0 < port <= 65535 ->
  peer_runtime_parse_stun_url (str "stun:" ++ host ++ 58 :: dec port) (RuntimeConfig [] 3478) = Ok (RuntimeConfig host port).
Proof.
  intros Hne Hh Hl Hp. destruct (dec_digits port) as [Hd _]; [lia|].
  assert (length (dec port) <= 5)%nat as Hl5 by (apply dec_length; lia).
  assert (Forall (fun b => b <> 47 /\ b <> 58 /\ b <> 93) (dec port)) as Hd'.
  { eapply Forall_impl; [exact Hd|]. intros b. unfold is_digit. rewrite andb_true_iff, !Z.leb_le. lia. }
  assert (stun_host (str "stun:" ++ host ++ 58 :: dec port) = host ++ 58 :: dec port) as Es.
  { unfold stun_host. change (str "stun:") with [115; 116; 117; 110; 58]. cbn [Candidate.starts app].
    rewrite !Z.eqb_refl. cbn [andb]. change (drop 5 (115 :: 116 :: 117 :: 110 :: 58 :: host ++ 58 :: dec port)) with (host ++ 58 :: dec port).
    assert (Candidate.starts (str "//") (host ++ 58 :: dec port) = false) as ->.
    { destruct host as [|b host]; [done|]. apply Forall_cons_1 in Hh as [[Hb _] _]. change (str "//") with [47; 47]. cbn [Candidate.starts app].
      by rewrite (proj2 (Z.eqb_neq 47 b)) by done. }
    unfold cut. rewrite take_ge by (rewrite length_app; unfold blen in Hl; cbn [length]; lia).
    rewrite split_first_none; [done|]. apply Forall_app. split; [by eapply Forall_impl; [exact Hh|]; intros ? []|].
    constructor; [done|]. by eapply Forall_impl; [exact Hd'|]; intros ? []. }
  unfold peer_runtime_parse_stun_url. rewrite Es. cbn [stun_server stun_port].
  rewrite split_last_app by by eapply Forall_impl; [exact Hd'|]; intros ? (_ & ? & _).
  rewrite split_first_none; [|apply Forall_app; split; [by eapply Forall_impl; [exact Hh|]; intros ? (_ & _ & ?)|];
    constructor; [done|]; by eapply Forall_impl; [exact Hd'|]; intros ? (_ & _ & ?)].
  change (bool_decide (@nil Z = [])) with true. cbn [negb].
  rewrite atoi_dec by (unfold INT_MAX; lia). cbn. rewrite (proj2 (Z.ltb_lt 0 port)), (proj2 (Z.leb_le port 65535)) by lia.
  cbn. rewrite bool_decide_false by done. unfold cut. by rewrite take_ge by (unfold blen in Hl; lia).
Qed.

(** the URL of a TURN server is taken for the name of a STUN server, and the
    URLs after it are not looked at *)
Lemma turn_url_taken_as_stun :
  peer_runtime_config_from_peer
    (Some (PeerConfig [[Some (str "turn:relay.example.org:3478")]; [Some (str "stun:stun.example.org")]] None 0)) =
  Ok (RuntimeConfig (str "turn:relay.example.org") 3478).
Proof. by vm_compute. Qed.

(** ** The runtimes count their holders *)

Section Spec.
Context (listen : Listener.rtc_listener_config_t -> bool).

(** the calls and what they return, with the acquisitions not yet released,
    fewer than INT_MAX at a time; an allocation gives an address that is not in
    use *)
Inductive history : list Z -> pool -> Prop :=
  | history_start : history [] (Pool ∅ [])
  | history_acquire held w calloc mutex worker c w' rc :
      history held w -> (forall a, calloc = Some a -> runtimes w !! a = None) -> blen held < INT_MAX ->
      rtc_client_runtime_acquire listen calloc mutex worker c w = (w', rc) ->
      history (match rc with Ok (Some r) => r :: held | _ => held end) w'
  | history_release held1 r held2 w w' rc :
      history (held1 ++ r :: held2) w -> rtc_client_runtime_release r w = (w', rc) ->
      history (held1 ++ held2) w'
  | history_register held r e w w' rc :
      history held w -> r ∈ held -> rtc_client_runtime_register_peer r e w = (w', rc) -> history held w'
  | history_unregister held r u w w' rc :
      history held w -> r ∈ held -> rtc_client_runtime_unregister_peer r u w = (w', rc) -> history held w'.

Definition holders (r : Z) (held : list Z) : Z := blen (filter (fun x => x = r) held).

Lemma holders_cons r x held : holders r (x :: held) = holders r held + (if x =? r then 1 else 0).
Proof.
  unfold holders, blen. rewrite filter_cons. destruct (Z.eqb_spec x r).
  - rewrite decide_True by done. cbn. lia.
  - rewrite decide_False by done. lia.
Qed.

Lemma holders_app r l1 l2 : holders r (l1 ++ l2) = holders r l1 + holders r l2.
Proof. unfold holders. by rewrite filter_app, blen_app. Qed.

Lemma holders_pos r held : 0 < holders r held <-> r ∈ held.
Proof.
  induction held as [|x held IH]; [by split; [|intros ?%elem_of_nil]|].
  rewrite holders_cons, elem_of_cons, <- IH. pose proof (blen_nonneg (filter (fun y => y = r) held)).
  fold (holders r held) in *. destruct (Z.eqb_spec x r); [split; [by left|lia]|].
  rewrite Z.add_0_r. split; [by right|]. intros [-> | ?]; done.
Qed.

Lemma holders_length r held : holders r held <= blen held.
Proof. unfold holders, blen. pose proof (length_filter (fun x => x = r) held). lia. Qed.

Record pool_ok (held : list Z) (w : pool) : Prop := {
  ok_link : forall r, r ∈ g_runtimes w <-> is_Some (runtimes w !! r);
  ok_nodup : NoDup (g_runtimes w);
  ok_count : forall r x, runtimes w !! r = Some x -> ref_count x = holders r held;
  ok_live : forall r, is_Some (runtimes w !! r) <-> r ∈ held;
  ok_config : forall r x, runtimes w !! r = Some x -> stun_port (config x) <> 0;
  ok_once : forall r1 r2 x1 x2, runtimes w !! r1 = Some x1 -> runtimes w !! r2 = Some x2 -> config x1 = config x2 -> r1 = r2;
  ok_peers : forall r x, runtimes w !! r = Some x -> NoDup (user <$> peers x) /\ blen (peers x) <= RTC_CLIENT_RUNTIME_MAX_PEERS
}.

Lemma default_port_nonzero p : default_port p <> 0.
Proof. unfold default_port. by destruct (Z.eqb_spec p 0). Qed.

Lemma config_equal_eq a b : stun_port a <> 0 -> stun_port b <> 0 -> runtime_config_equal a b = true <-> a = b.
Proof.
  destruct a as [s p], b as [s' p']. intros Ha Hb. unfold runtime_config_equal, default_port. cbn in *.
  rewrite (proj2 (Z.eqb_neq p 0)), (proj2 (Z.eqb_neq p' 0)) by done.
  rewrite andb_true_iff, Z.eqb_eq, bool_decide_eq_true. naive_solver.
Qed.

Lemma find_runtime_run l d w :
  stun_port d <> 0 -> (forall r, r ∈ l -> exists x, runtimes w !! r = Some x /\ stun_port (config x) <> 0) ->
  exists o, find_runtime l d w = (w, Ok o) /\
    match o with
    | Some r => exists x, runtimes w !! r = Some x /\ config x = d
    | None => forall r x, r ∈ l -> runtimes w !! r = Some x -> config x <> d
    end.
Proof.
  intros Hd. induction l as [|r l IH]; intros Hl.
  { exists None. split; [done|]. by intros r x ?%elem_of_nil. }
  destruct (Hl r) as (x & Hx & Hp); [by left|].
  assert (rd_runtime r w = (w, Ok x)) as E by (unfold rd_runtime; by rewrite Hx).
  cbn [find_runtime]. rewrite (st_bind_run _ _ _ _ _ E).
  destruct (runtime_config_equal (config x) d) eqn:Ec.
  { exists (Some r). split; [done|]. exists x. split; [done|]. by apply config_equal_eq. }
  destruct IH as (o & Eo & Ho); [intros r' ?; apply Hl; by right|]. exists o. split; [done|].
  destruct o as [r'|]; [done|]. intros r' x' [-> |Hr]%elem_of_cons Hx'; [|by apply (Ho r')].
  simplify_eq. intros <-. by rewrite (proj2 (config_equal_eq _ _ Hp Hp) eq_refl) in Ec.
Qed.

(** a runtime of the pool whose count, holders and peers change together *)
Lemma pool_ok_update held held' w r x x' :
  pool_ok held w -> runtimes w !! r = Some x -> config x' = config x -> ref_count x' = holders r held' ->
  (forall q, q <> r -> holders q held' = holders q held) -> 0 < holders r held' ->
  NoDup (user <$> peers x') /\ blen (peers x') <= RTC_CLIENT_RUNTIME_MAX_PEERS ->
  pool_ok held' (Pool (<[r := x']> (runtimes w)) (g_runtimes w)).
Proof.
  intros [] Hx Hc Hn Hq Hpos Hp.
  assert (forall q, is_Some (<[r := x']> (runtimes w) !! q) <-> is_Some (runtimes w !! q)) as Hs.
  { intros q. rewrite lookup_insert_is_Some'. split; [|by right]. intros [<- |]; [by eexists|done]. }
  split; cbn [runtimes g_runtimes]; [intros q; by rewrite Hs|done|intros q y| |intros q y|intros q1 q2 y1 y2|intros q y];
    rewrite ?lookup_insert_Some.
  - intros [[<- <-]|[Hne Hy]]; [done|]. rewrite Hq by done. eauto.
  - intros q. rewrite Hs, ok_live0, <- !holders_pos. destruct (decide (q = r)) as [->|]; [|by rewrite Hq].
    split; [done|]. intros _. apply holders_pos, ok_live0. by eexists.
  - intros [[<- <-]|[Hne Hy]]; [rewrite Hc|]; eauto.
  - intros [[<- <-]|[? H1]] [[<- <-]|[? H2]] E; rewrite ?Hc in E; try done; eauto.
  - intros [[<- <-]|[Hne Hy]]; eauto.
Qed.

Lemma rd_runtime_run w r x : runtimes w !! r = Some x -> rd_runtime r w = (w, Ok x).
Proof. intros Hx. unfold rd_runtime. by rewrite Hx. Qed.

(** what a peer that asks for [c] is given: the runtime with this configuration
    where there is one, else a new one, if its parts can be created *)
Definition granted (calloc : option Z) (mutex worker : bool) (c : rtc_client_runtime_config_t) (w : pool)
    (o : option Z) : Prop :=
  (forall r x, runtimes w !! r = Some x -> runtime_config_equal (config x) c = true -> o = Some r) /\
  ((forall r x, runtimes w !! r = Some x -> runtime_config_equal (config x) c = false) ->
   o = if mutex && worker && listen (listener_cfg (RuntimeConfig (stun_server c) (default_port (stun_port c))))
       then calloc else None).

Lemma default_port_twice p : default_port (default_port p) = default_port p.
Proof. unfold default_port at 1. by rewrite (proj2 (Z.eqb_neq _ _)) by apply default_port_nonzero. Qed.

Lemma config_equal_default a c :
  stun_port a <> 0 -> runtime_config_equal a c = true <-> a = RuntimeConfig (stun_server c) (default_port (stun_port c)).
Proof.
  intros Ha. rewrite <- config_equal_eq; [|done|apply default_port_nonzero].
  unfold runtime_config_equal. cbn. by rewrite default_port_twice.
Qed.

Lemma acquire_run held w calloc mutex worker c :
  pool_ok held w -> (forall a, calloc = Some a -> runtimes w !! a = None) -> blen held < INT_MAX ->
  exists w' o, rtc_client_runtime_acquire listen calloc mutex worker c w = (w', Ok o) /\
    granted calloc mutex worker c w o /\
    pool_ok (match o with Some r => r :: held | None => held end) w'.
Proof.
  intros Hok Hf Hb. pose proof Hok as []. set (d := RuntimeConfig (stun_server c) (default_port (stun_port c))).
  assert (stun_port d <> 0) as Hd by apply default_port_nonzero.
  destruct (find_runtime_run (g_runtimes w) d w Hd) as (o & Eo & Ho).
  { intros r [x Hx]%ok_link0. eauto. }
  unfold rtc_client_runtime_acquire. rewrite st_bind_eq. cbn [get]. fold d. rewrite (st_bind_run _ _ _ _ _ Eo).
  destruct o as [r|].
  - destruct Ho as (x & Hx & Hxd). rewrite (st_bind_run _ _ _ _ _ (rd_runtime_run w r x Hx)).
    pose proof (holders_length r held). pose proof (ok_count0 r x Hx) as Hc. unfold INT_MAX in Hb.
    assert (0 < holders r held) by (apply holders_pos, ok_live0; by eexists).
    rewrite (st_bind_lift _ _ _ (ref_count x + 1)) by (apply int_val_Ok; unfold INT_MAX; lia).
    eexists _, (Some r). split; [done|]. split.
    { split; [|intros Hnone; specialize (Hnone r x Hx); apply not_true_iff_false in Hnone; destruct Hnone; apply config_equal_default; eauto].
      intros q y Hy Hq. apply config_equal_default in Hq; [|eauto]. f_equal. apply (ok_once0 r q x y); [done|done|by rewrite Hxd, Hq]. }
    apply (pool_ok_update held _ w r x); try done; try (cbn; eauto; fail).
    + cbn. rewrite holders_cons, Z.eqb_refl. lia.
    + intros q Hq. rewrite holders_cons, (proj2 (Z.eqb_neq r q)) by done. lia.
    + rewrite holders_cons, Z.eqb_refl. lia.
  - assert (forall o, (if mutex && worker && listen (listener_cfg d) then calloc else None) = o ->
      granted calloc mutex worker c w o) as Hg.
    { intros o <-. split; [|done]. intros q y Hy Hq. apply config_equal_default in Hq; [|eauto].
      destruct (Ho q y); try done. apply ok_link0. by eexists. }
    destruct calloc as [r|]; [|exists w, None; split; [done|split; [apply Hg; by destruct (_ && _)|done]]].
    cbn [client_runtime_create]. cbn [stun_server stun_port d] in *. rewrite default_port_twice. fold d.
    destruct (_ && _ && _); [|exists w, None; split_and!; [done|by apply Hg|done]].
    eexists _, (Some r). split; [done|]. split; [by apply Hg|].
    assert (r ∉ held) as Hr by (rewrite <- ok_live0, (Hf r eq_refl); by intros [? [=]]).
    assert (holders r held = 0) as H0.
    { pose proof (blen_nonneg (filter (fun x => x = r) held)). fold (holders r held) in *.
      destruct (decide (0 < holders r held)) as [?%holders_pos|]; [done|lia]. }
    pose proof (Hf r eq_refl) as Hn.
    split; cbn [runtimes g_runtimes]; [intros q|constructor; [|done]|intros q y|intros q|intros q y|intros q1 q2 y1 y2|intros q y].
    + rewrite elem_of_cons, ok_link0, lookup_insert_is_Some'. naive_solver.
    + rewrite ok_link0, Hn. by intros [? [=]].
    + rewrite lookup_insert_Some, holders_cons. intros [[<- <-]|[? Hy]]; [rewrite Z.eqb_refl; cbn; lia|].
      rewrite (proj2 (Z.eqb_neq r q)) by done. rewrite Z.add_0_r. eauto.
    + rewrite lookup_insert_is_Some', elem_of_cons, ok_live0. naive_solver.
    + rewrite lookup_insert_Some. intros [[<- <-]|[? Hy]]; [|eauto]. apply default_port_nonzero.
    + rewrite !lookup_insert_Some. cbn in Ho.
      intros [[<- <-]|[? H1]] [[<- <-]|[? H2]] E; try done; cbn in E; [| |eauto].
      * destruct (Ho q2 y2); try done. apply ok_link0. by eexists.
      * destruct (Ho q1 y1); try done. apply ok_link0. by eexists.
    + rewrite lookup_insert_Some. intros [[<- <-]|[? Hy]]; [|eauto]. split; [constructor|done].
Qed.

Lemma unlink_run r l w :
  NoDup l -> (forall q, q ∈ l -> is_Some (runtimes w !! q)) ->
  exists l', unlink r l w = (w, Ok l') /\ NoDup l' /\ forall q, q ∈ l' <-> q ∈ l /\ q <> r.
Proof.
  induction 1 as [|x l Hx Hn IH]; intros Hl; cbn [unlink].
  { exists []. split_and!; [done|constructor|set_solver]. }
  destruct (Z.eqb_spec x r) as [->|Hne].
  { exists l. split_and!; [done|done|]. intros q. rewrite elem_of_cons. naive_solver. }
  destruct (Hl x) as [y Hy]; [by left|]. rewrite (st_bind_run _ _ _ _ _ (rd_runtime_run w x y Hy)).
  destruct IH as (l' & E & Hn' & Hq); [intros q ?; apply Hl; by right|]. rewrite (st_bind_run _ _ _ _ _ E).
  exists (x :: l'). split; [done|]. split; [constructor; [rewrite Hq; by intros []|done]|].
  intros q. rewrite !elem_of_cons, Hq. naive_solver.
Qed.

Lemma release_run held1 r held2 w :
  pool_ok (held1 ++ r :: held2) w -> blen (held1 ++ r :: held2) <= INT_MAX ->
  exists w', rtc_client_runtime_release r w = (w', Ok ()) /\ pool_ok (held1 ++ held2) w'.
Proof.
  intros Hok Hb. pose proof Hok as []. destruct (proj2 (ok_live0 r)) as [x Hx]; [set_solver|].
  assert (forall q, holders q (held1 ++ held2) = holders q (held1 ++ r :: held2) - if r =? q then 1 else 0) as Hh.
  { intros q. rewrite !holders_app, holders_cons. destruct (r =? q); lia. }
  pose proof (holders_length r (held1 ++ r :: held2)). pose proof (ok_count0 r x Hx) as Hc. unfold INT_MAX in Hb.
  assert (0 < holders r (held1 ++ r :: held2)) by (apply holders_pos; set_solver).
  unfold rtc_client_runtime_release. rewrite (st_bind_run _ _ _ _ _ (rd_runtime_run w r x Hx)).
  rewrite (st_bind_lift _ _ _ (ref_count x - 1)) by (apply int_val_Ok; unfold INT_MAX; lia).
  rewrite st_bind_eq. cbn [put_runtime]. destruct (Z.eqb_spec (ref_count x - 1) 0) as [Hz|Hz].
  - rewrite st_bind_eq. cbn [get runtimes g_runtimes].
    destruct (unlink_run r (g_runtimes w) (Pool (<[r := with_count x (ref_count x - 1)]> (runtimes w)) (g_runtimes w)) ok_nodup0)
      as (l' & El & Hnd & Hl'); [intros q [y Hy]%ok_link0; cbn; apply lookup_insert_is_Some'; right; by eexists|].
    rewrite (st_bind_run _ _ _ _ _ El). eexists. split; [done|]. rewrite delete_insert_eq.
    assert (forall q, q ∈ held1 ++ held2 <-> q ∈ held1 ++ r :: held2 /\ q <> r) as Hin.
    { intros q. rewrite <- !holders_pos, Hh. destruct (Z.eqb_spec r q) as [<-|]; [split; [lia|]; by intros []|].
      rewrite Z.sub_0_r. naive_solver. }
    split; cbn [runtimes g_runtimes]; [intros q|done|intros q y|intros q|intros q y|intros q1 q2 y1 y2|intros q y];
      rewrite ?lookup_delete_Some.
    + rewrite Hl', lookup_delete_is_Some, ok_link0. naive_solver.
    + intros [Hne Hy]. rewrite Hh, (proj2 (Z.eqb_neq r q)) by done. rewrite Z.sub_0_r. eauto.
    + rewrite lookup_delete_is_Some, ok_live0, Hin. naive_solver.
    + intros [_ ?]. eauto.
    + intros [_ ?] [_ ?]. eauto.
    + intros [_ ?]. eauto.
  - eexists. split; [done|]. apply (pool_ok_update (held1 ++ r :: held2) _ w r x); try done; try (cbn; eauto; fail).
    + cbn. rewrite Hh, Z.eqb_refl. lia.
    + intros q Hq. rewrite Hh, (proj2 (Z.eqb_neq r q)) by done. lia.
    + rewrite Hh, Z.eqb_refl. lia.
Qed.

Lemma set_entry_users e l l' : set_entry e l = Some l' -> user <$> l' = user <$> l.
Proof.
  revert l'. induction l as [|x l IH]; intros l'; cbn [set_entry]; [done|].
  destruct (Z.eqb_spec (user x) (user e)) as [E|]; [intros [= <-]; cbn; by rewrite E|].
  destruct (set_entry e l) as [y|]; [|done]. intros [= <-]. cbn. f_equal. by apply IH.
Qed.

Lemma set_entry_None e l : set_entry e l = None -> user e ∉ user <$> l.
Proof.
  induction l as [|x l IH]; cbn; [set_solver|]. destruct (Z.eqb_spec (user x) (user e)); [done|].
  destruct (set_entry e l); [done|]. rewrite elem_of_cons. naive_solver.
Qed.

Lemma remove_entry_users u l :
  NoDup (user <$> l) -> NoDup (user <$> remove_entry u l) /\ blen (remove_entry u l) <= blen l /\
  forall v, v ∈ user <$> remove_entry u l <-> v ∈ user <$> l /\ v <> u.
Proof.
  intros Hn. unfold remove_entry. destruct (list_find (fun e => user e = u) l) as [[i e]|] eqn:Ef.
  2: { apply list_find_None in Ef. split_and!; [done|lia|]. intros v. split; [|by intros []]. intros Hv. split; [done|].
       intros ->. apply list_elem_of_fmap in Hv as (e & He & Hin). rewrite Forall_forall in Ef. by eapply Ef. }
  apply list_find_Some in Ef as (Hi & Hu & _). destruct l as [|e0 l0 _] using rev_ind; [done|]. rewrite last_snoc, length_app.
  replace (length l0 + length [e0] - 1)%nat with (length l0) by (cbn; lia).
  destruct (decide (i = length l0)) as [->|Hne].
  - rewrite list_lookup_middle in Hi by done. injection Hi as ->.
    rewrite list_insert_id by by rewrite list_lookup_middle. rewrite take_app_length.
    rewrite fmap_app, NoDup_app in Hn. destruct Hn as (Hn & Hd & _). split_and!; [done|rewrite blen_app; pose proof (blen_nonneg [e]); lia|].
    intros v. rewrite fmap_app, elem_of_app. cbn. rewrite list_elem_of_singleton, Hu. split; [|naive_solver].
    intros Hv. split; [by left|]. intros ->. apply (Hd u Hv). cbn. rewrite Hu. by left.
  - assert (i < length l0)%nat as Hlt by (apply lookup_lt_Some in Hi; rewrite length_app in Hi; cbn in Hi; lia).
    rewrite lookup_app_l in Hi by done. rewrite insert_app_l, take_app_le, take_ge by (rewrite ?length_insert; lia).
    apply list_elem_of_split_length in Hi as (l1 & l2 & -> & ->).
    rewrite (insert_app_r_alt l1 (e :: l2) (length l1)), Nat.sub_diag by lia. cbn [insert list_insert].
    rewrite !fmap_app, !fmap_cons in *. cbn [fmap list_fmap] in *. rewrite Hu in *.
    assert ((user <$> l1) ++ user e0 :: (user <$> l2) ++ [u] ≡ₚ ((user <$> l1) ++ u :: (user <$> l2)) ++ [user e0]) as Hp.
    { rewrite <- app_assoc. cbn. solve_Permutation. }
    rewrite <- Hp in Hn.
    assert (((user <$> l1) ++ user e0 :: (user <$> l2)) ++ [u] = (user <$> l1) ++ user e0 :: (user <$> l2) ++ [u]) as Ha by by rewrite <- app_assoc.
    rewrite <- Ha, NoDup_app in Hn. destruct Hn as (Hn & Hd & _). split_and!; [done|unfold blen; rewrite !length_app; cbn; lia|].
    intros v. rewrite <- Hp, <- Ha, (elem_of_app _ [u]), list_elem_of_singleton. split; [|naive_solver].
    intros Hv. split; [by left|]. intros ->. apply (Hd u Hv). by left.
Qed.

Lemma peers_run held w r x l :
  pool_ok held w -> runtimes w !! r = Some x -> NoDup (user <$> l) -> blen l <= RTC_CLIENT_RUNTIME_MAX_PEERS ->
  pool_ok held (Pool (<[r := with_peers x l]> (runtimes w)) (g_runtimes w)).
Proof.
  intros Hok Hx Hn Hl. pose proof Hok as []. apply (pool_ok_update held held w r x); try done; cbn; eauto.
  apply holders_pos, ok_live0. by eexists.
Qed.

Lemma register_run held w r e :
  pool_ok held w -> r ∈ held -> exists w' rc, rtc_client_runtime_register_peer r e w = (w', rc) /\ rc <> Fault /\ pool_ok held w'.
Proof.
  intros Hok Hr. pose proof Hok as []. destruct (proj2 (ok_live0 r) Hr) as [x Hx]. destruct (ok_peers0 r x Hx) as [Hn Hl].
  unfold rtc_client_runtime_register_peer. rewrite (st_bind_run _ _ _ _ _ (rd_runtime_run w r x Hx)).
  destruct (set_entry e (peers x)) as [l|] eqn:El.
  - do 2 eexists. split; [done|]. split; [done|]. pose proof (set_entry_users _ _ _ El) as Hu. apply peers_run; try done; [by rewrite Hu|].
    unfold blen in *. rewrite <- (length_fmap user), Hu, length_fmap. done.
  - apply set_entry_None in El. destruct (Z.leb_spec RTC_CLIENT_RUNTIME_MAX_PEERS (blen (peers x))); [by do 2 eexists|].
    do 2 eexists. split; [done|]. split; [done|]. apply peers_run; try done.
    + rewrite fmap_app. apply NoDup_app. split; [done|]. split; [|apply NoDup_singleton]. set_solver.
    + rewrite blen_app, blen_cons, blen_nil. lia.
Qed.

Lemma unregister_run held w r u :
  pool_ok held w -> r ∈ held -> exists x, runtimes w !! r = Some x /\
    rtc_client_runtime_unregister_peer r u w = (Pool (<[r := with_peers x (remove_entry u (peers x))]> (runtimes w)) (g_runtimes w), Ok ()) /\
    pool_ok held (Pool (<[r := with_peers x (remove_entry u (peers x))]> (runtimes w)) (g_runtimes w)).
Proof.
  intros Hok Hr. pose proof Hok as []. destruct (proj2 (ok_live0 r) Hr) as [x Hx]. destruct (ok_peers0 r x Hx) as [Hn Hl].
  exists x. split; [done|]. unfold rtc_client_runtime_unregister_peer. rewrite (st_bind_run _ _ _ _ _ (rd_runtime_run w r x Hx)).
  split; [done|]. destruct (remove_entry_users u (peers x) Hn) as (? & ? & _). apply peers_run; try done. lia.
Qed.

Lemma history_ok held w : history held w -> pool_ok held w /\ blen held <= INT_MAX.
Proof.
  induction 1 as [|held w calloc mutex worker c w' rc _ [IH _] Hf Hb E|held1 r held2 w w' rc _ [IH Hb] E|held r e w w' rc _ [IH Hb] Hr E|
    held r u w w' rc _ [IH Hb] Hr E].
  - split; [|by vm_compute].
    split; cbn [runtimes g_runtimes]; [intros r|constructor|intros r x|intros r|intros r x|intros r1 r2 x1 x2|intros r x];
      rewrite ?lookup_empty, ?elem_of_nil; try done; split; try done; by intros [].
  - destruct (acquire_run held w calloc mutex worker c IH Hf Hb) as (w1 & o & E1 & _ & H1). rewrite E in E1. injection E1 as -> ->.
    split; [done|]. destruct o; rewrite ?blen_cons; lia.
  - destruct (release_run held1 r held2 w IH Hb) as (w1 & E1 & H1). rewrite E in E1. injection E1 as -> _. split; [done|].
    rewrite blen_app, blen_cons in Hb. rewrite blen_app. lia.
  - destruct (register_run held w r e IH Hr) as (w1 & rc1 & E1 & _ & H1). rewrite E in E1. by injection E1 as <- <-.
  - destruct (unregister_run held w r u IH Hr) as (x & _ & E1 & H1). rewrite E in E1. injection E1 as -> _. by split.
Qed.

End Spec.

(** two peers share a runtime, a third has its own STUN server *)
Definition pool_ex : pool :=
  let acq a s w := (rtc_client_runtime_acquire (fun _ => true) (Some a) true true (RuntimeConfig s 0) w).1 in
  acq 12 (str "stun.example.org") (acq 11 [] (acq 10 [] (Pool ∅ []))).

End ClientRuntime.
