(* ===== verification/Peer.v ===== *)
(** * Peer connections (client/src/rtc_peer.c, client/src/rtc_peer_internal.h)

    The control plane of a client: offer and answer, candidates, the steps of
    connecting, tracks and data channels, over the transport, listener, media
    session and data channel models.  The world of a peer is the world of its
    transport ([Transport.world]) with the [client] as the application: the
    connection object, the media session with its streams, the data channels
    and the callbacks made ([log]).  Callbacks of the application do not call
    back into the peer here.  The runtime (worker and listener) is shared with
    other peers (ClientRuntime.v); [runtime] and [runtime_transport] are
    whether the pointers are set.  Results of allocations, clocks and random
    numbers are arguments.  rtc_sdp_t's field type is [local_type], which only
    this file reads. *)

From Stdlib Require Import String.
From S2P Require Import Prelude Bwe Srtp RtpExt Rtp Rtcp Twcc RateControl NackBuf U32Map Vec RtpDemux Stun Text PacketIo.
From S2P Require Import Candidate Sdp Dtls Listener Transport Interceptor RtpStream MediaSession TransportSession.
From S2P Require Import DataChannel Track.
From Stdlib Require Import ZArith Lia.
From stdpp Require Import base list numbers gmap.
#[local] Open Scope Z_scope.

Module Peer.
Import Text PacketIo Listener Transport TransportSession Track.

Inductive rtc_sdp_type_t := RTC_SDP_OFFER | RTC_SDP_ANSWER | RTC_SDP_PRANSWER.
#[export] Instance sdp_type_eq_dec : EqDecision rtc_sdp_type_t.
Proof. solve_decision. Defined.

Record rtc_desc_t := Desc { desc_type : rtc_sdp_type_t; desc_sdp : bytes; sdp_len : Z }.
Record rtc_ice_candidate_desc_t := CandidateDesc { cd_candidate : bytes; cd_mid : bytes; cd_mid_index : Z }.

Inductive rtc_signaling_state_t :=
  | RTC_SIGNALING_STABLE | RTC_SIGNALING_HAVE_LOCAL_OFFER | RTC_SIGNALING_HAVE_REMOTE_OFFER
  | RTC_SIGNALING_HAVE_LOCAL_PRANSWER | RTC_SIGNALING_HAVE_REMOTE_PRANSWER | RTC_SIGNALING_CLOSED.
Inductive rtc_ice_gathering_state_t := RTC_ICE_GATHERING_NEW | RTC_ICE_GATHERING_GATHERING | RTC_ICE_GATHERING_COMPLETE.
Inductive rtc_ice_connection_state_t :=
  | RTC_ICE_CONNECTION_NEW | RTC_ICE_CONNECTION_CHECKING | RTC_ICE_CONNECTION_CONNECTED | RTC_ICE_CONNECTION_COMPLETED
  | RTC_ICE_CONNECTION_DISCONNECTED | RTC_ICE_CONNECTION_FAILED | RTC_ICE_CONNECTION_CLOSED.
Inductive rtc_connection_state_t :=
  | RTC_CONNECTION_NEW | RTC_CONNECTION_CONNECTING | RTC_CONNECTION_CONNECTED | RTC_CONNECTION_DISCONNECTED
  | RTC_CONNECTION_FAILED | RTC_CONNECTION_CLOSED.

#[export] Instance signaling_eq_dec : EqDecision rtc_signaling_state_t.
Proof. solve_decision. Defined.
#[export] Instance gathering_eq_dec : EqDecision rtc_ice_gathering_state_t.
Proof. solve_decision. Defined.
#[export] Instance connection_eq_dec : EqDecision rtc_connection_state_t.
Proof. solve_decision. Defined.
#[export] Existing Instance Candidate.candidate_type_eq_dec.
#[export] Instance setup_role_eq_dec : EqDecision Sdp.rtc_setup_role_t.
Proof. solve_decision. Defined.
#[export] Instance desc_eq_dec : EqDecision rtc_desc_t.
Proof. solve_decision. Defined.
#[export] Instance dtls_state_pub_eq_dec : EqDecision rtc_transport_dtls_state_t.
Proof. solve_decision. Defined.

(** ** State *)

Record runtime_t := RuntimePart {
  runtime : bool;
  runtime_transport : bool;
  runtime_registered : bool;
  runtime_connect_timer : Z;
  runtime_fingerprint : bytes;
  runtime_connected : bool
}.

(** [None]: has_local_desc, has_remote_desc are false *)
Record descriptions_t := Descriptions {
  local_desc : option rtc_desc_t;
  remote_desc : option rtc_desc_t;
  local_type : rtc_sdp_type_t;
  local_sdp : Sdp.rtc_sdp_t;
  remote_sdp : Sdp.rtc_sdp_t
}.

Record states_t := States {
  signaling_state : rtc_signaling_state_t;
  ice_gathering_state : rtc_ice_gathering_state_t;
  ice_connection_state : rtc_ice_connection_state_t;
  connection_state : rtc_connection_state_t
}.

(** a function is registered *)
Record callbacks_t := Callbacks {
  on_signaling_state : bool;
  on_ice_gathering_state : bool;
  on_ice_connection_state : bool;
  on_connection_state : bool;
  on_ice_candidate : bool;
  on_track : bool;
  on_data_channel : bool
}.

Record rtc_peer_connection_t := Pc {
  rt : runtime_t;
  transceivers : list rtc_rtp_transceiver;
  descs : descriptions_t;
  states : states_t;
  pcbs : callbacks_t;
  connect_started : bool;
  pc_twcc_ext_id : Z
}.

(** the callbacks made; a track is named by its transceiver *)
Inductive peer_event :=
  | EvSignaling (s : rtc_signaling_state_t)
  | EvGathering (s : rtc_ice_gathering_state_t)
  | EvIceConnection (s : rtc_ice_connection_state_t)
  | EvConnection (s : rtc_connection_state_t)
  | EvCandidate (c : option rtc_ice_candidate_desc_t)
  | EvTrack (t : nat)
  | EvBitrate (bps : Z).

Record client := Client {
  pc : rtc_peer_connection_t;
  cl_med : MediaSession.media;
  cl_dc : DataChannel.dc_world unit;
  cl_log : list peer_event
}.

Inductive peer_timer := TRANSPORT_TIMER (t : transport_timer) | CONNECT_TIMER | REPORT_TIMER.

Definition with_pc (c : client) (p : rtc_peer_connection_t) : client := Client p (cl_med c) (cl_dc c) (cl_log c).
Definition with_med (c : client) (m : MediaSession.media) : client := Client (pc c) m (cl_dc c) (cl_log c).
Definition with_dc (c : client) (d : DataChannel.dc_world unit) : client := Client (pc c) (cl_med c) d (cl_log c).
Definition with_log (c : client) (l : list peer_event) : client := Client (pc c) (cl_med c) (cl_dc c) l.

Definition pc_rt (r : runtime_t) p := Pc r (transceivers p) (descs p) (states p) (pcbs p) (connect_started p) (pc_twcc_ext_id p).
Definition pc_transceivers (l : list rtc_rtp_transceiver) p :=
  Pc (rt p) l (descs p) (states p) (pcbs p) (connect_started p) (pc_twcc_ext_id p).
Definition pc_descs (d : descriptions_t) p :=
  Pc (rt p) (transceivers p) d (states p) (pcbs p) (connect_started p) (pc_twcc_ext_id p).
Definition pc_states (s : states_t) p :=
  Pc (rt p) (transceivers p) (descs p) s (pcbs p) (connect_started p) (pc_twcc_ext_id p).
Definition pc_started (b : bool) p := Pc (rt p) (transceivers p) (descs p) (states p) (pcbs p) b (pc_twcc_ext_id p).
Definition pc_twcc (i : Z) p := Pc (rt p) (transceivers p) (descs p) (states p) (pcbs p) (connect_started p) i.
Definition pc_cbs (c : callbacks_t) p :=
  Pc (rt p) (transceivers p) (descs p) (states p) c (connect_started p) (pc_twcc_ext_id p).

Definition rt_timer (tm : Z) r :=
  RuntimePart (runtime r) (runtime_transport r) (runtime_registered r) tm (runtime_fingerprint r) (runtime_connected r).
Definition rt_fingerprint (fp : bytes) r :=
  RuntimePart (runtime r) (runtime_transport r) (runtime_registered r) (runtime_connect_timer r) fp (runtime_connected r).
Definition rt_connected (b : bool) r :=
  RuntimePart (runtime r) (runtime_transport r) (runtime_registered r) (runtime_connect_timer r) (runtime_fingerprint r) b.

Definition d_local_sdp (s : Sdp.rtc_sdp_t) d := Descriptions (local_desc d) (remote_desc d) (local_type d) s (remote_sdp d).
Definition d_local (t : rtc_sdp_type_t) (s : Sdp.rtc_sdp_t) d :=
  Descriptions (local_desc d) (remote_desc d) t s (remote_sdp d).
Definition d_remote_sdp (s : Sdp.rtc_sdp_t) d := Descriptions (local_desc d) (remote_desc d) (local_type d) (local_sdp d) s.
Definition d_local_desc (x : rtc_desc_t) d :=
  Descriptions (Some x) (remote_desc d) (local_type d) (local_sdp d) (remote_sdp d).
Definition d_remote_desc (x : rtc_desc_t) d :=
  Descriptions (local_desc d) (Some x) (local_type d) (local_sdp d) (remote_sdp d).

Section Peer.
Context {X K : Type} {kern : Kernel} {evp : Srtp.Evp} {inet : Inet} {senv : Stun.StunEnv} {ossl : Dtls.OpenSsl X}.
Context {wkt : WorkerTimers K peer_timer} (self : Z).
(** the allocations when this message of a data channel is handled *)
Context (dc_mem : bytes -> bool * bool * bool).

#[export] Instance transport_timers : WorkerTimers K transport_timer := {|
  wk_add_timer d c := wk_add_timer d (TRANSPORT_TIMER c);
  wk_cancel_timer := wk_cancel_timer (C := peer_timer)
|}.
#[export] Instance report_timers : MediaSession.WorkerOps K := {|
  MediaSession.worker_add_timer d := wk_add_timer d REPORT_TIMER;
  MediaSession.worker_cancel_timer := wk_cancel_timer (C := peer_timer)
|}.

Abbreviation pworld := (Transport.world X K client).
Abbreviation session_world := (MediaSession.world (link X client) K).

Definition set_app (w : pworld) (c : client) : pworld := World (lnk w) (wk w) c.
Definition rd_pc : st pworld rtc_peer_connection_t := fun w => (w, Ok (pc (app w))).
Definition upd_pc (f : rtc_peer_connection_t -> rtc_peer_connection_t) : st pworld unit := fun w =>
  (set_app w (with_pc (app w) (f (pc (app w)))), Ok ()).
Definition upd_rt (f : runtime_t -> runtime_t) : st pworld unit := upd_pc (fun p => pc_rt (f (rt p)) p).
Definition upd_descs (f : descriptions_t -> descriptions_t) : st pworld unit := upd_pc (fun p => pc_descs (f (descs p)) p).
Definition emit (b : bool) (ev : peer_event) : st pworld unit := fun w =>
  (if b then set_app w (with_log (app w) (cl_log (app w) ++ [ev])) else w, Ok ()).

Definition on_med {A} (f : st MediaSession.media A) : st pworld A :=
  zoom (fun w => cl_med (app w)) (fun w m => set_app w (with_med (app w) m)) f.
Definition ask_med {A} (f : MediaSession.media -> res A) : st pworld A := fun w => (w, f (cl_med (app w))).

(** a function of the media session, which acts on streams, transport and worker *)
Definition on_session (f : session_world -> res session_world) : st pworld unit := fun w =>
  match f (MediaSession.World (cl_med (app w)) (lnk w) (wk w)) with
  | Ok s => (World (MediaSession.tr s) (MediaSession.wk s) (with_med (app w) (MediaSession.med s)), Ok ())
  | Err e => (w, Err e)
  | Fault => (w, Fault)
  end.

(** ** Data channels *)

(** the call of [send_fn] *)
Definition peer_dc_send (data : bytes) : st pworld unit :=
  p ← rd_pc;
  if runtime_transport (rt p) && runtime_connected (rt p) then rtc_transport_send_data data
  else lift (Err RTC_ERR_INVALID).

#[export] Instance peer_dc : DataChannel.DcSend pworld := peer_dc_send.

(** a function of the channel manager *)
Definition on_dc {A} (f : st (DataChannel.dc_world pworld) A) : st pworld A := fun w =>
  let d := cl_dc (app w) in
  let '(d', r) := f (DataChannel.DcWorld (DataChannel.mgr d) (DataChannel.dcs d) (DataChannel.brk d) (DataChannel.events d) w) in
  let w' := DataChannel.net d' in
  (set_app w' (with_dc (app w')
     (DataChannel.DcWorld (DataChannel.mgr d') (DataChannel.dcs d') (DataChannel.brk d') (DataChannel.events d') ())), r).

Definition peer_runtime_on_data (data : bytes) : st pworld unit :=
  let '(ac, am, as_) := dc_mem data in
  void (on_dc (DataChannel.rtc_dc_manager_recv ac am as_ data)).

(** [rtc_dc_manager_init] clears the manager *)
Definition ensure_dc_manager : st pworld unit := on_dc (fun d =>
  if DataChannel.send_fn (DataChannel.mgr d) then (d, Ok ())
  else (DataChannel.DcWorld (DataChannel.rtc_dc_manager_init true) (DataChannel.dcs d) (DataChannel.brk d)
          (DataChannel.events d) (DataChannel.net d), Ok ())).

Definition rtc_peer_connection_create_data_channel (ac am as_ : bool) (label : option bytes)
    (opts : option DataChannel.rtc_data_channel_init_t) : st pworld (option Z) :=
  _ ← ensure_dc_manager;
  on_dc (DataChannel.rtc_dc_manager_create_channel ac am as_ label opts).

(** ** What the transport calls *)

(** the chain after [rtc_media_session_init]; the peer adds nothing to it *)
Definition chain_zero : Interceptor.rtc_interceptor_chain_t session_world := Interceptor.Chain (replicate 8 None) 0.
Definition default_chain : Interceptor.rtc_interceptor_chain_t session_world :=
  (MediaSession.session_install_default_interceptors true true true chain_zero).1.

Definition peer_resolver : RtpDemux.resolver Z client := fun pkt c =>
  '(m, o) ← MediaSession.rtc_media_session_resolve pkt (cl_med c);
  Ok (with_med c m, o).

#[export] Instance peer_hooks : AppHooks X K client := {|
  hook_rtp _ := mret ();
  hook_sink id pkt := on_session (fun s =>
    m ← MediaSession.session_rtp_sink id pkt (MediaSession.med s);
    Ok (MediaSession.World m (MediaSession.tr s) (MediaSession.wk s)));
  hook_rtcp buf := on_session (MediaSession.rtc_media_session_handle_rtcp default_chain buf);
  hook_data := peer_runtime_on_data;
  hook_bitrate bps := emit true (EvBitrate bps)
|}.

(** ** States *)

Definition peer_set_signaling (s : rtc_signaling_state_t) : st pworld unit :=
  _ ← upd_pc (fun p => let x := states p in
        pc_states (States s (ice_gathering_state x) (ice_connection_state x) (connection_state x)) p);
  p ← rd_pc; emit (on_signaling_state (pcbs p)) (EvSignaling s).
Definition peer_set_ice_gathering (s : rtc_ice_gathering_state_t) : st pworld unit :=
  _ ← upd_pc (fun p => let x := states p in
        pc_states (States (signaling_state x) s (ice_connection_state x) (connection_state x)) p);
  p ← rd_pc; emit (on_ice_gathering_state (pcbs p)) (EvGathering s).
Definition peer_set_ice_connection (s : rtc_ice_connection_state_t) : st pworld unit :=
  _ ← upd_pc (fun p => let x := states p in
        pc_states (States (signaling_state x) (ice_gathering_state x) s (connection_state x)) p);
  p ← rd_pc; emit (on_ice_connection_state (pcbs p)) (EvIceConnection s).
Definition peer_set_connection (s : rtc_connection_state_t) : st pworld unit :=
  _ ← upd_pc (fun p => let x := states p in
        pc_states (States (signaling_state x) (ice_gathering_state x) (ice_connection_state x) s) p);
  p ← rd_pc; emit (on_connection_state (pcbs p)) (EvConnection s).

(** ** Local candidates *)

(** reading the listener or worker of a runtime that was released is a null dereference *)
Definition peer_runtime_listener : st pworld (rtc_listener_t Z) :=
  w ← get;
  _ ← lift (fault_if (negb (runtime (rt (pc (app w))))));
  mret (lis w).
Definition peer_runtime_add_timer (deadline : Z) : st pworld unit :=
  _ ← peer_runtime_listener;
  tm ← on_wk (wk_add_timer (u64 deadline) CONNECT_TIMER);
  upd_rt (rt_timer tm).

Definition peer_candidate_addr_equal (a b : Candidate.rtc_ice_candidate_t) : bool :=
  match rtc_addr_to_string (Candidate.addr a) 64, rtc_addr_to_string (Candidate.addr b) 64 with
  | Ok (aip, aport), Ok (bip, bport) => (aport =? bport) && bool_decide (aip = bip)
  | _, _ => false
  end.

(** the candidates of a description, as the loops over the index read them *)
Fixpoint read_candidates (d : Sdp.rtc_sdp_t) (i : Z) (n : nat) : res (list Candidate.rtc_ice_candidate_t) :=
  match n with
  | O => Ok []
  | S n =>
      o ← Sdp.rtc_sdp_get_candidate d i;
      match o with
      | None => read_candidates d (i + 1) n
      | Some None => Fault
      | Some (Some c) => l ← read_candidates d (i + 1) n; Ok (c :: l)
      end
  end.
Definition sdp_candidates (d : Sdp.rtc_sdp_t) : res (list Candidate.rtc_ice_candidate_t) :=
  read_candidates d 0 (Z.to_nat (Sdp.rtc_sdp_candidate_count d)).

Definition peer_local_sdp_has_candidate (d : Sdp.rtc_sdp_t) (c : Candidate.rtc_ice_candidate_t) : res bool :=
  l ← sdp_candidates d;
  Ok (existsb (fun x => bool_decide (Candidate.type x = Candidate.type c) &&
                        bool_decide (Candidate.foundation x = Candidate.foundation c) && peer_candidate_addr_equal x c) l).

(** one callback per section *)
Definition peer_emit_ice_candidate (c : Candidate.rtc_ice_candidate_t) : st pworld unit :=
  p ← rd_pc;
  if negb (on_ice_candidate (pcbs p)) then mret () else
  o ← lift (attempt (Candidate.rtc_ice_candidate_to_string c 256));
  match o with
  | None => mret ()
  | Some line =>
      st_each (fun t => emit true (EvCandidate (Some t)))
        (match transceivers p with
         | [] => [CandidateDesc (cut 256 line) (str "0") 0]
         | ts => (fun t => CandidateDesc (cut 256 line) (cut 32 (t_mid t)) (t_mid_index t)) <$> ts
         end)
  end.

Definition peer_add_local_transport_candidate (alloc : bool) (c : rtc_transport_candidate_t) (local_pref : Z)
    (em : bool) : st pworld unit :=
  ice ← lift (rtc_listener_candidate_to_ice c local_pref);
  p ← rd_pc;
  known ← lift (peer_local_sdp_has_candidate (local_sdp (descs p)) ice);
  if (known : bool) then mret () else
  _ ← zoom (fun w : pworld => local_sdp (descs (pc (app w))))
        (fun w s => set_app w (with_pc (app w) (pc_descs (d_local_sdp s (descs (pc (app w)))) (pc (app w)))))
        (Sdp.rtc_sdp_add_candidate alloc ice);
  if em then peer_emit_ice_candidate ice else mret ().

(** [alloc]: by the index of the candidate *)
Fixpoint replay_loop (alloc : Z -> bool) (host_index srflx_index i : Z) (cs : list rtc_transport_candidate_t) : st pworld unit :=
  match cs with
  | [] => mret ()
  | c :: cs =>
      let '(pref, h, s) := match t_type c with
                           | RTC_TRANSPORT_CANDIDATE_HOST => (65535 - host_index, host_index + 1, srflx_index)
                           | RTC_TRANSPORT_CANDIDATE_SRFLX => (65535 - srflx_index, host_index, srflx_index + 1)
                           | RTC_TRANSPORT_CANDIDATE_RELAY => (65535, host_index, srflx_index)
                           end in
      _ ← void (peer_add_local_transport_candidate (alloc i) c pref false);
      replay_loop alloc h s (i + 1) cs
  end.

Definition peer_replay_listener_candidates (alloc : Z -> bool) : st pworld unit :=
  l ← peer_runtime_listener;
  let '(cs, count, _) := rtc_listener_get_candidates l ICE_MAX_CANDIDATES in
  _ ← lift (fault_if (blen cs <? count));
  replay_loop alloc 0 0 0 cs.

Definition is_closed (p : rtc_peer_connection_t) : bool :=
  bool_decide (connection_state (states p) = RTC_CONNECTION_CLOSED).

Definition peer_runtime_on_listener_candidate (alloc : bool) (c : rtc_transport_candidate_t) : st pworld unit :=
  p ← rd_pc;
  if bool_decide (local_desc (descs p) = None) || is_closed p then mret () else
  void (peer_add_local_transport_candidate alloc c 65535 true).

Definition peer_runtime_on_listener_done : st pworld unit :=
  p ← rd_pc;
  if bool_decide (local_desc (descs p) = None) || is_closed p then mret () else
  if bool_decide (ice_gathering_state (states p) = RTC_ICE_GATHERING_COMPLETE) then mret () else
  _ ← peer_set_ice_gathering RTC_ICE_GATHERING_COMPLETE;
  emit (on_ice_candidate (pcbs p)) (EvCandidate None).

(** ** Descriptions *)

(** what the environment answers during a call: [a_candidate], [a_bind],
    [a_open] by index or id, [a_parse] by line *)
Record peer_env := PeerEnv {
  te : env;
  a_fill : bool;
  a_candidate : Z -> bool;
  a_parse : nat -> bool;
  a_bind : Z -> bool;
  a_bwe : bool;
  dtls_setup : Dtls.setup_env X;
  a_open : Z -> bool;
  a_video : bool * bool * bool
}.

Definition peer_runtime_fill_sdp_transport (alloc : bool) (w : pworld) : st Sdp.rtc_sdp_t unit :=
  let p := pc (app w) in
  _ ← lift (fault_if (negb (runtime (rt p))));
  _ ← lift (fail_if (negb (runtime_transport (rt p))) RTC_ERR_INVALID);
  let i := rtc_transport_get_ice_parameters w in
  let d := rtc_transport_get_dtls_parameters w in
  _ ← modify (fun s => Sdp.with_ice s (username_fragment i) (password i) (fingerprint d) (Sdp.setup s)
                         (Sdp.ice_options_trickle s));
  rtc_listener_fill_sdp_candidates alloc (lis w).

Fixpoint fill_sections (ts : list rtc_rtp_transceiver) (m : MediaSession.media) : res (list Sdp.rtc_sdp_media_t) :=
  match ts with
  | [] => Ok []
  | t :: ts => x ← rtc_rtp_transceiver_fill_sdp_media t m; l ← fill_sections ts m; Ok (x :: l)
  end.

Definition peer_build_sdp (alloc : bool) (w : pworld) : st Sdp.rtc_sdp_t unit :=
  _ ← peer_runtime_fill_sdp_transport alloc w;
  let ts := transceivers (pc (app w)) in
  ms ← lift (fill_sections (take (Z.to_nat Sdp.SDP_MAX_MEDIA) ts) (cl_med (app w)));
  _ ← modify (fun s => Sdp.with_sections s ms);
  match ts with
  | [] => mret ()
  | t :: _ =>
      let c := s_codec (sender t) in
      let '(ty, name) := mime_media (mime_type c) in
      modify (fun s => Sdp.with_legacy s ty (c_payload_type c) (s32 (c_clock_rate c)) (c_channels c)
        (match ty with Sdp.RTC_MEDIA_APPLICATION => Sdp.codec_name s | _ => name end))
  end.

(** the bodies of [rtc_peer_connection_create_offer] and [_create_answer],
    which ignore the result of [peer_build_sdp] *)
Definition create_description (ty : rtc_sdp_type_t) (role : Sdp.rtc_setup_role_t) (e : peer_env) : st pworld rtc_desc_t :=
  w ← get;
  sdp ← lift (match peer_build_sdp (a_fill e) w (Sdp.with_ice Sdp.sdp_zero [] [] [] role false) with
              | (_, Fault) => Fault
              | (s, _) => Ok s
              end);
  match Sdp.rtc_sdp_generate (now_ms (te e)) sdp with
  | (_, Err rc) => lift (Err rc)
  | (_, Fault) => lift Fault
  | (s, Ok _) =>
      _ ← upd_descs (d_local ty s);
      mret (Desc ty (take (Z.to_nat (Sdp.raw_len s)) (Sdp.raw s)) (Sdp.raw_len s))
  end.

Definition rtc_peer_connection_create_offer (e : peer_env) : st pworld rtc_desc_t :=
  create_description RTC_SDP_OFFER Sdp.RTC_SETUP_ACTPASS e.
Definition rtc_peer_connection_create_answer (e : peer_env) : st pworld rtc_desc_t :=
  create_description RTC_SDP_ANSWER Sdp.RTC_SETUP_ACTIVE e.

(** ** The remote description *)

Definition peer_runtime_add_remote_candidate (c : Candidate.rtc_ice_candidate_t) : st pworld unit :=
  p ← rd_pc;
  _ ← lift (fail_if (negb (runtime_transport (rt p))) RTC_ERR_INVALID);
  tc ← lift (rtc_transport_candidate_from_ice c);
  rtc_transport_add_remote_candidate tc.

(** [rtc_transport_set_dtls_role], and the fingerprint is read again *)
Definition set_role (e : peer_env) (r : rtc_transport_dtls_role_t) : st pworld unit :=
  _ ← void (rtc_transport_set_dtls_role (dtls_setup e) r);
  w ← get;
  upd_rt (rt_fingerprint (fingerprint (rtc_transport_get_dtls_parameters w))).

Definition peer_runtime_set_remote_desc (e : peer_env) (sdp : Sdp.rtc_sdp_t) : st pworld unit :=
  p ← rd_pc;
  if negb (runtime_transport (rt p)) then mret () else
  _ ← void (rtc_transport_set_remote_ice_parameters
              (IceParameters (Sdp.ice_ufrag sdp) (Sdp.ice_pwd sdp) RTC_ICE_MODE_FULL));
  cs ← lift (sdp_candidates sdp);
  _ ← st_each (fun c => void (peer_runtime_add_remote_candidate c)) cs;
  if bool_decide (local_type (descs p) = RTC_SDP_OFFER) && bool_decide (Sdp.setup sdp = Sdp.RTC_SETUP_ACTIVE) then
    set_role e RTC_TRANSPORT_DTLS_ROLE_SERVER
  else if bool_decide (local_type (descs p) = RTC_SDP_ANSWER) || bool_decide (Sdp.setup sdp = Sdp.RTC_SETUP_ACTPASS) then
    set_role e RTC_TRANSPORT_DTLS_ROLE_CLIENT
  else mret ().

(** ** Connecting *)

Definition peer_try_connect (e : peer_env) : st pworld unit :=
  p ← rd_pc;
  if bool_decide (local_desc (descs p) = None) || bool_decide (remote_desc (descs p) = None) then mret () else
  if connect_started p then mret () else
  if negb (bool_decide (signaling_state (states p) = RTC_SIGNALING_STABLE)) then mret () else
  _ ← upd_pc (pc_started true);
  _ ← peer_set_connection RTC_CONNECTION_CONNECTING;
  _ ← peer_set_ice_connection RTC_ICE_CONNECTION_CHECKING;
  rc ← DataChannel.st_code (if runtime_transport (rt p) then rtc_transport_start_ice self (te e) else lift (Err RTC_ERR_INVALID));
  match rc with
  | None | Some RTC_ERR_INVALID => peer_runtime_add_timer (now_ms (te e))
  | Some _ =>
      _ ← peer_set_ice_connection RTC_ICE_CONNECTION_FAILED;
      peer_set_connection RTC_CONNECTION_FAILED
  end.

(** one sender of the loop of [peer_runtime_complete_connection] *)
Definition connect_sender (e : peer_env) (t : rtc_rtp_transceiver) : st pworld unit :=
  let s := sender t in
  active ← ask_med (ask_send (s_stream s) false RtpStream.rtc_rtp_send_stream_is_active);
  if negb active then mret () else
  _ ← on_med (rtc_rtp_sender_attach_logical s);
  w ← get;
  _ ← (if negb (pc_twcc_ext_id (pc (app w)) =? 0) then
         on_med (rtc_rtp_sender_attach_twcc (lnk w) s (pc_twcc_ext_id (pc (app w))))
       else mret ());
  let '(a1, a2, a3) := a_video e in
  on_med (rtc_rtp_sender_arm_video a1 a2 a3 s).

Definition peer_runtime_complete_connection (e : peer_env) : st pworld unit :=
  p ← rd_pc;
  if runtime_connected (rt p) then mret () else
  _ ← upd_rt (rt_connected true);
  _ ← st_each (connect_sender e) (transceivers p);
  _ ← ensure_dc_manager;
  _ ← on_dc (DataChannel.rtc_dc_manager_on_dtls_connected (a_open e));
  _ ← (if on_data_channel (pcbs p) then on_dc (DataChannel.rtc_dc_manager_on_channel true) else mret ());
  _ ← on_session MediaSession.rtc_media_session_start;
  _ ← peer_set_ice_connection RTC_ICE_CONNECTION_CONNECTED;
  peer_set_connection RTC_CONNECTION_CONNECTED.

(** [rtc_transport_get_stats] fails for NULL only *)
Definition peer_runtime_connect_timer (e : peer_env) : st pworld unit :=
  _ ← upd_rt (rt_timer RTC_WORKER_TIMER_INVALID);
  p ← rd_pc;
  if is_closed p || bool_decide (connection_state (states p) = RTC_CONNECTION_FAILED) || runtime_connected (rt p)
  then mret () else
  if negb (runtime_transport (rt p)) then peer_set_connection RTC_CONNECTION_FAILED else
  w ← get;
  let stats := rtc_transport_get_stats w in
  if negb (selected_tuple_valid stats) then peer_runtime_add_timer (now_ms (te e) + 50) else
  started ← (if bool_decide (st_dtls_state stats = RTC_TRANSPORT_DTLS_NEW) then st_attempt (rtc_transport_start_dtls (te e))
             else mret (Some ()));
  match started with
  | None => peer_set_connection RTC_CONNECTION_FAILED
  | Some _ =>
      if bool_decide (st_dtls_state stats = RTC_TRANSPORT_DTLS_CONNECTED) && st_srtp_ready stats then
        peer_runtime_complete_connection e
      else peer_runtime_add_timer (now_ms (te e) + 50)
  end.

(** ** Setting descriptions *)

Definition rtc_peer_connection_set_local_desc (e : peer_env) (desc : rtc_desc_t) : st pworld unit :=
  p ← rd_pc;
  _ ← lift (fail_if (connect_started p) RTC_ERR_INVALID);
  _ ← upd_descs (d_local_desc desc);
  _ ← (match desc_type desc with
       | RTC_SDP_OFFER => peer_set_signaling RTC_SIGNALING_HAVE_LOCAL_OFFER
       | RTC_SDP_ANSWER => if bool_decide (signaling_state (states p) = RTC_SIGNALING_HAVE_REMOTE_OFFER)
                           then peer_set_signaling RTC_SIGNALING_STABLE else mret ()
       | RTC_SDP_PRANSWER => mret ()
       end);
  _ ← peer_set_ice_gathering RTC_ICE_GATHERING_GATHERING;
  _ ← peer_replay_listener_candidates (a_candidate e);
  p ← rd_pc;
  cs ← lift (sdp_candidates (local_sdp (descs p)));
  _ ← st_each peer_emit_ice_candidate cs;
  l ← peer_runtime_listener;
  _ ← (if rtc_listener_gathering_complete l then peer_runtime_on_listener_done else mret ());
  peer_try_connect e.

(** a receiver that is not active yet is activated and reported *)
Definition activate_receiver (i : nat) (t : rtc_rtp_transceiver) : st pworld unit :=
  active ← ask_med (ask_recv (r_stream (receiver t)) false RtpStream.rtc_rtp_recv_stream_is_active);
  if (active : bool) then mret () else
  _ ← on_med (rtc_rtp_receiver_activate (receiver t));
  p ← rd_pc;
  emit (on_track (pcbs p)) (EvTrack i).

Definition bind_section (e : peer_env) (i : Z) (m : Sdp.rtc_sdp_media_t) : st pworld unit :=
  p ← rd_pc;
  if Sdp.ssrc m =? 0 then mret () else
  match List.find (fun t => t_mid_index t =? Sdp.mid_index m) (transceivers p) with
  | None => mret ()
  | Some t =>
      match r_stream (receiver t) with
      | None => mret ()
      | Some id => on_session (MediaSession.rtc_media_session_bind_receiver (a_bind e i) id (Sdp.ssrc m))
      end
  end.

(** the identifier of an extension in the first audio or video section that has it *)
Fixpoint negotiated (u : bytes) (ms : list Sdp.rtc_sdp_media_t) : Z :=
  match ms with
  | [] => 0
  | m :: ms =>
      let i := if Sdp.is_av m then Sdp.rtc_sdp_media_find_extmap_id m u else 0 in
      if i =? 0 then negotiated u ms else i
  end.

Fixpoint first_active_ssrc (ts : list rtc_rtp_transceiver) (m : MediaSession.media) : res Z :=
  match ts with
  | [] => Ok 0
  | t :: ts =>
      a ← ask_send (s_stream (sender t)) false RtpStream.rtc_rtp_send_stream_is_active m;
      if (a : bool) then ask_send (s_stream (sender t)) 0 RtpStream.rtc_rtp_send_stream_ssrc m else first_active_ssrc ts m
  end.

Definition negotiate_mid (ms : list Sdp.rtc_sdp_media_t) : st pworld unit :=
  let i := negotiated RTC_EXT_URI_MID ms in
  if i =? 0 then mret ()
  else on_med (modify (fun m => MediaSession.with_sess m
         (MediaSession.rtc_media_session_set_mid_ext_id i (MediaSession.session m)))).

Definition negotiate_twcc (e : peer_env) (ms : list Sdp.rtc_sdp_media_t) : st pworld unit :=
  let i := negotiated RTC_EXT_URI_TRANSPORT_CC ms in
  if i =? 0 then mret () else
  _ ← upd_pc (pc_twcc i);
  p ← rd_pc;
  local_ssrc ← ask_med (first_active_ssrc (transceivers p));
  if runtime_transport (rt p) then void (rtc_transport_enable_twcc (te e) (a_bwe e) i local_ssrc) else mret ().

Definition rtc_peer_connection_set_remote_desc (e : peer_env) (desc : rtc_desc_t) : st pworld unit :=
  p ← rd_pc;
  _ ← lift (fail_if (connect_started p) RTC_ERR_INVALID);
  _ ← upd_descs (d_remote_desc desc);
  sdp ← lift (match Sdp.rtc_sdp_parse (a_parse e) (desc_sdp desc) (sdp_len desc) Sdp.sdp_zero with
              | (s, Ok _) => Ok s
              | (_, Err rc) => Err rc
              | (_, Fault) => Fault
              end);
  _ ← upd_descs (d_remote_sdp sdp);
  _ ← peer_runtime_set_remote_desc e sdp;
  _ ← (match desc_type desc with
       | RTC_SDP_OFFER => peer_set_signaling RTC_SIGNALING_HAVE_REMOTE_OFFER
       | RTC_SDP_ANSWER => if bool_decide (signaling_state (states p) = RTC_SIGNALING_HAVE_LOCAL_OFFER)
                           then peer_set_signaling RTC_SIGNALING_STABLE else mret ()
       | RTC_SDP_PRANSWER => mret ()
       end);
  _ ← st_each (fun it => activate_receiver it.1 it.2) (imap pair (transceivers p));
  _ ← st_each (fun im => bind_section e im.1 im.2) (imap (fun i m => (Z.of_nat i, m)) (Sdp.media sdp));
  _ ← negotiate_mid (Sdp.media sdp);
  _ ← st_each (fun t => on_med (upd_recv (r_stream (receiver t))
                 (fun x => RtpStream.rtc_rtp_recv_stream_set_mid x (Some (t_mid t))))) (transceivers p);
  _ ← negotiate_twcc e (Sdp.media sdp);
  peer_try_connect e.

(** [None]: a null pointer; the empty line ends the candidates *)
Definition rtc_peer_connection_add_ice_candidate (cand : option rtc_ice_candidate_desc_t) : st pworld unit :=
  match cand with
  | None => mret ()
  | Some c =>
      if bool_decide (cd_candidate c = []) then mret () else
      x ← lift (Candidate.rtc_sdp_parse_candidate_line (cd_candidate c));
      peer_runtime_add_remote_candidate x
  end.

Definition rtc_peer_connection_restart_ice (a_un : allocs) (e : peer_env) (rnd_ufrag rnd_pwd : Z -> option bytes) : st pworld unit :=
  p ← rd_pc;
  _ ← lift (fail_if (connect_started p) RTC_ERR_INVALID);
  _ ← lift (fail_if (negb (runtime_transport (rt p))) RTC_ERR_INVALID);
  rtc_transport_restart_ice self a_un (te e) rnd_ufrag rnd_pwd.

(** ** Tracks *)

(** a new slot; both streams are registered with the session, whose results
    are ignored, NULL streams being refused *)
Definition add_slot (am ar : bool) (t : rtc_rtp_transceiver) : st pworld unit :=
  _ ← (match s_stream (sender t) with
       | Some id => void (on_med (MediaSession.rtc_media_session_add_sender am id))
       | None => mret ()
       end);
  _ ← (match r_stream (receiver t) with
       | Some id => void (on_med (MediaSession.rtc_media_session_add_receiver ar id))
       | None => mret ()
       end);
  upd_pc (fun p => pc_transceivers (transceivers p ++ [t]) p).

(** [a_send], [a_recv]: the addresses of the streams; the index of the new
    transceiver, [None] for NULL *)
Definition rtc_peer_connection_add_track (a_send a_recv : option Z) (am ar : bool) (rnd_ssrc rnd_seq now : Z)
    (kind : rtc_kind_t) (codec : rtc_codec_t) : st pworld (option Z) :=
  p ← rd_pc;
  let n := blen (transceivers p) in
  if RTC_MAX_TRANSCEIVERS <=? n then mret None else
  t ← on_med (fun m => let '(t, m) := rtc_rtp_transceiver_init_slot a_send a_recv rnd_ssrc rnd_seq now n kind codec m in (m, Ok t));
  _ ← add_slot am ar t;
  mret (Some n).

(** [dir]: the direction of init, if one is given *)
Definition rtc_peer_connection_add_transceiver (a_send a_recv : option Z) (am ar : bool) (rnd_ssrc rnd_seq now : Z)
    (kind : rtc_kind_t) (codec : rtc_codec_t) (dir : option rtc_direction_t) : st pworld (option Z) :=
  p ← rd_pc;
  let n := blen (transceivers p) in
  if RTC_MAX_TRANSCEIVERS <=? n then mret None else
  if connect_started p then mret None else
  t ← on_med (fun m => let '(t, m) := rtc_rtp_transceiver_init_slot a_send a_recv rnd_ssrc rnd_seq now n kind codec m in (m, Ok t));
  let t := match dir with Some d => with_direction t d | None => t end in
  _ ← (match direction t with
       | RTC_DIR_RECVONLY | RTC_DIR_INACTIVE =>
           on_med (upd_send (s_stream (sender t)) (fun x => RtpStream.rtc_rtp_send_stream_set_active x false))
       | _ => mret ()
       end);
  _ ← add_slot am ar t;
  mret (Some n).

(** a sender is named by the index of its transceiver; a pointer to no sender
    of this peer is an index out of range *)
Definition rtc_peer_connection_remove_track (i : nat) : st pworld unit :=
  p ← rd_pc;
  _ ← lift (fail_if (connect_started p) RTC_ERR_INVALID);
  match transceivers p !! i with
  | None => lift (Err RTC_ERR_INVALID)
  | Some t =>
      _ ← on_med (upd_send (s_stream (sender t)) (fun x => RtpStream.rtc_rtp_send_stream_set_active x false));
      let d := match direction t with
               | RTC_DIR_SENDRECV => RTC_DIR_RECVONLY
               | RTC_DIR_SENDONLY => RTC_DIR_INACTIVE
               | d => d
               end in
      upd_pc (fun p => pc_transceivers (<[i := with_direction t d]> (transceivers p)) p)
  end.

(** the transceivers an array of [count] takes *)
Definition rtc_peer_connection_get_transceivers (count : Z) (w : pworld) : list rtc_rtp_transceiver :=
  take (Z.to_nat count) (transceivers (pc (app w))).

(** ** Lifecycle *)

Definition pc_zero : rtc_peer_connection_t :=
  Pc (RuntimePart true true true RTC_WORKER_TIMER_INVALID [] false) []
    (Descriptions None None RTC_SDP_OFFER Sdp.sdp_zero Sdp.sdp_zero)
    (States RTC_SIGNALING_STABLE RTC_ICE_GATHERING_NEW RTC_ICE_CONNECTION_NEW RTC_CONNECTION_NEW)
    (Callbacks false false false false false false false) false 0.

(** [clk]: the clock the media session reads *)
Definition client_zero (clk : MediaSession.clock) : client :=
  Client pc_zero
    (MediaSession.Media (MediaSession.Session false false U32Map.rtc_u32_map_init (Vec.Vec [] 0 0 0) 0 0 false false) ∅ ∅ [] clk)
    (DataChannel.DcWorld (DataChannel.rtc_dc_manager_init false) ∅ 0 [] ()) [].

(** [rtc_media_session_init] with the router and the RTCP handler it installs *)
Definition peer_media_init (a1 a2 a3 : bool) : st pworld unit := fun w =>
  let '((_, s), r) := MediaSession.rtc_media_session_init true true a1 a2 a3
                        (chain_zero, MediaSession.World (cl_med (app w)) (lnk w) (wk w)) in
  let w := World (MediaSession.tr s) (MediaSession.wk s) (with_med (app w) (MediaSession.med s)) in
  match r with
  | Ok _ => (_ ← on_link (rtc_transport_set_rtp_router (Some peer_resolver)); rtc_transport_on_rtcp true) w
  | Err e => (w, Err e)
  | Fault => (w, Fault)
  end.

(** the peer lets go of runtime, timers and transport *)
Definition peer_runtime_close (a_ufrag a_tuple : allocs) (e : env) : st pworld unit :=
  p ← rd_pc;
  let r := rt p in
  _ ← (if runtime r && negb (runtime_connect_timer r =? RTC_WORKER_TIMER_INVALID) then
         _ ← on_wk (wk_cancel_timer (C := peer_timer) (runtime_connect_timer r));
         upd_rt (rt_timer RTC_WORKER_TIMER_INVALID)
       else mret ());
  _ ← on_session MediaSession.rtc_media_session_stop;
  _ ← (if runtime_transport r then rtc_transport_close a_ufrag a_tuple e else mret ());
  upd_rt (fun r => RuntimePart false false false (runtime_connect_timer r) (runtime_fingerprint r) (runtime_connected r)).

(** [acquired], [registered]: whether the runtime was acquired and the peer
    registered with it; [calloc_ok] to [cfg]: as in [rtc_transport_create];
    the listener and the worker of the runtime come back in any case *)
Definition rtc_peer_connection_create (pc_ok acquired registered : bool) (calloc_ok malloc_ok : bool)
    (rnd_ufrag rnd_pwd : Z -> option bytes) (digest : option bytes) (setup : Dtls.setup_env X) (a : allocs)
    (a1 a2 a3 : bool) (clk : MediaSession.clock) (e : env) (l : rtc_listener_t Z) (k : K)
    : rtc_listener_t Z * K * res (option pworld) :=
  if negb (pc_ok && acquired && registered) then (l, k, Ok None) else
  match rtc_transport_create self calloc_ok malloc_ok rnd_ufrag rnd_pwd digest setup a
          (TransportConfig RTC_ICE_MODE_FULL false false 0) l with
  | (l, Err _) | (l, Ok None) => (l, k, Ok None)
  | (l, Fault) => (l, k, Fault)
  | (l, Ok (Some t)) =>
      let w := World (t, l) k (client_zero clk) in
      let '(w, r) := (_ ← rtc_transport_on_data true;
                      o ← st_attempt (peer_media_init a1 a2 a3);
                      match o with
                      | None => _ ← peer_runtime_close a a e; mret false
                      | Some _ =>
                          w ← get;
                          _ ← upd_rt (rt_fingerprint (fingerprint (rtc_transport_get_dtls_parameters w)));
                          mret true
                      end) w in
      (lis w, wk w, ok ← r; Ok (if (ok : bool) then Some w else None))
  end.

(** the streams of every transceiver are freed *)
Fixpoint close_tracks (ts : list rtc_rtp_transceiver) (m : MediaSession.media)
    : res (list rtc_rtp_transceiver * MediaSession.media) :=
  match ts with
  | [] => Ok ([], m)
  | t :: ts =>
      '(t, m) ← rtc_rtp_transceiver_close_resources t m;
      '(ts, m) ← close_tracks ts m;
      Ok (t :: ts, m)
  end.

Definition rtc_peer_connection_close (a_ufrag a_tuple : allocs) (e : env) : st pworld unit :=
  p ← rd_pc;
  if is_closed p then mret () else
  _ ← peer_runtime_close a_ufrag a_tuple e;
  _ ← on_dc DataChannel.rtc_dc_manager_close;
  _ ← on_session (fun s => '(_, s) ← MediaSession.rtc_media_session_close default_chain s; Ok s);
  _ ← upd_descs (fun d => Descriptions (local_desc d) (remote_desc d) (local_type d) (Sdp.rtc_sdp_close (local_sdp d))
                            (Sdp.rtc_sdp_close (remote_sdp d)));
  p ← rd_pc;
  ts ← on_med (fun m => match close_tracks (transceivers p) m with
                        | Ok (ts, m) => (m, Ok ts)
                        | Err rc => (m, Err rc)
                        | Fault => (m, Fault)
                        end);
  _ ← upd_pc (pc_transceivers ts);
  upd_pc (fun p => let x := states p in
    pc_states (States RTC_SIGNALING_CLOSED (ice_gathering_state x) (ice_connection_state x) RTC_CONNECTION_CLOSED) p).

(** ** Registration of callbacks *)

Definition upd_cbs (f : callbacks_t -> callbacks_t) : st pworld unit := upd_pc (fun p => pc_cbs (f (pcbs p)) p).

Definition rtc_peer_connection_on_signaling_state (fn : bool) : st pworld unit := upd_cbs (fun c =>
  Callbacks fn (on_ice_gathering_state c) (on_ice_connection_state c) (on_connection_state c) (on_ice_candidate c)
    (on_track c) (on_data_channel c)).
Definition rtc_peer_connection_on_ice_gathering_state (fn : bool) : st pworld unit := upd_cbs (fun c =>
  Callbacks (on_signaling_state c) fn (on_ice_connection_state c) (on_connection_state c) (on_ice_candidate c)
    (on_track c) (on_data_channel c)).
Definition rtc_peer_connection_on_ice_connection_state (fn : bool) : st pworld unit := upd_cbs (fun c =>
  Callbacks (on_signaling_state c) (on_ice_gathering_state c) fn (on_connection_state c) (on_ice_candidate c)
    (on_track c) (on_data_channel c)).
Definition rtc_peer_connection_on_connection_state (fn : bool) : st pworld unit := upd_cbs (fun c =>
  Callbacks (on_signaling_state c) (on_ice_gathering_state c) (on_ice_connection_state c) fn (on_ice_candidate c)
    (on_track c) (on_data_channel c)).
Definition rtc_peer_connection_on_ice_candidate (fn : bool) : st pworld unit := upd_cbs (fun c =>
  Callbacks (on_signaling_state c) (on_ice_gathering_state c) (on_ice_connection_state c) (on_connection_state c) fn
    (on_track c) (on_data_channel c)).
Definition rtc_peer_connection_on_track (fn : bool) : st pworld unit := upd_cbs (fun c =>
  Callbacks (on_signaling_state c) (on_ice_gathering_state c) (on_ice_connection_state c) (on_connection_state c)
    (on_ice_candidate c) fn (on_data_channel c)).
Definition rtc_peer_connection_on_data_channel (fn : bool) : st pworld unit := upd_cbs (fun c =>
  Callbacks (on_signaling_state c) (on_ice_gathering_state c) (on_ice_connection_state c) (on_connection_state c)
    (on_ice_candidate c) (on_track c) fn).
Definition rtc_peer_connection_on_bitrate_estimate (fn : bool) : st pworld unit :=
  p ← rd_pc;
  if runtime_transport (rt p) then rtc_transport_on_bitrate_estimate fn else mret ().

(** ** Statistics *)

Record rtc_transceiver_stats_t := TransceiverStats {
  ts_mid : bytes;
  ts_kind : rtc_kind_t;
  ts_dir : rtc_direction_t;
  out_ssrc : Z; out_packets_sent : Z; out_bytes_sent : Z;
  in_ssrc : Z; in_packets_received : Z; in_packets_lost : Z; in_jitter_q16 : Z
}.

Definition transceiver_stats (t : rtc_rtp_transceiver) (m : MediaSession.media) : res rtc_transceiver_stats_t :=
  o ← ask_send (s_stream (sender t)) (0, 0, 0) (fun s =>
        if RtpStream.rtc_rtp_send_stream_is_active s then
          (RtpStream.rtc_rtp_send_stream_ssrc s, Rtcp.packets_sent (RtpStream.rtc_rtp_send_stream_stats s),
           Rtcp.octets_sent (RtpStream.rtc_rtp_send_stream_stats s))
        else (0, 0, 0)) m;
  i ← ask_recv (r_stream (receiver t)) (0, 0, 0, 0) (fun s =>
        if RtpStream.rtc_rtp_recv_stream_is_active s then
          let x := RtpStream.rtc_rtp_recv_stream_stats s in
          (RtpStream.rtc_rtp_recv_stream_ssrc s, Rtcp.packets_received x, Rtcp.packets_lost x, Rtcp.jitter x)
        else (0, 0, 0, 0)) m;
  let '(os, op, ob) := o in let '(is_, ip, il, ij) := i in
  Ok (TransceiverStats (cut 32 (t_mid t)) (s_kind (sender t)) (direction t) os op ob is_ ip il ij).

Fixpoint get_stats_loop (ts : list rtc_rtp_transceiver) (m : MediaSession.media) : res (list rtc_transceiver_stats_t) :=
  match ts with
  | [] => Ok []
  | t :: ts => x ← transceiver_stats t m; l ← get_stats_loop ts m; Ok (x :: l)
  end.
Definition rtc_peer_connection_get_stats (w : pworld) : res (list rtc_transceiver_stats_t) :=
  get_stats_loop (transceivers (pc (app w))) (cl_med (app w)).
End Peer.
End Peer.
