(* ===== verification/PeerSpec.v ===== *)
(** * Offer and answer between two peers

    The functions that build, apply and read descriptions, traced through the
    transport, the listener and the media session: two peers that are [fresh]
    exchange offer and answer and end [paired], each checking the other's last
    candidate.  The last section follows a data channel that the remote side
    opens too early. *)

From Stdlib Require Import String.
From S2P Require Import Prelude Bwe Srtp RtpExt Rtp Rtcp Twcc RateControl NackBuf Probe U32Map StrMap Vec RtpDemux Stun Text PacketIo.
From S2P Require Import Scanf Candidate Sdp SdpSpec Dtls Listener ListenerSpec Transport TransportSpec TransportIce Interceptor.
From S2P Require Import RtpStream MediaSession TransportSession DataChannel DataChannelSpec Track Peer.
From Stdlib Require Import ZArith Lia.
From stdpp Require Import base list numbers gmap.
#[local] Open Scope Z_scope.

Module PeerSpec.
Import Text PacketIo Listener Transport TransportSpec TransportIce TransportSession Track Peer.

Section Run.
Context {X K : Type} {kern : Kernel} {evp : Srtp.Evp} {elaws : Srtp.EvpLaws} `{ilaws : InetLaws} {senv : Stun.StunEnv}.
Context {ossl : Dtls.OpenSsl X} {wkt : WorkerTimers K peer_timer} {tot : TimersTotal K peer_timer} {kacc : KernelAccepts}.
Context (self : Z).
#[local] Existing Instance Dtls.dtls_state_eq_dec.
#[local] Existing Instance Dtls.dtls_role_eq_dec.
Abbreviation pworld := (Transport.world X K client).
Implicit Types (w : pworld) (p : rtc_peer_connection_t) (d : Sdp.rtc_sdp_t) (t : rtc_rtp_transceiver).

#[export] Instance transport_tot : TimersTotal K transport_timer.
Proof. split; [apply (cancel_total (C := peer_timer))|]. intros at_ms c k. apply (add_total (C := peer_timer)). Qed.

(** ** Steps that change the connection object and the log only *)

(** [w] with another connection object and log *)
Definition repc w p (l : list peer_event) : pworld := World (lnk w) (wk w) (Client p (cl_med (app w)) (cl_dc (app w)) l).

Lemma repc_repc w p1 l1 p2 l2 : repc (repc w p1 l1) p2 l2 = repc w p2 l2.
Proof. done. Qed.

Lemma repc_id w : repc w (pc (app w)) (cl_log (app w)) = w.
Proof. by destruct w as [? ? []]. Qed.

Lemma emit_run b ev w : exists l, emit b ev w = (repc w (pc (app w)) l, Ok ()).
Proof. unfold emit. destruct b; eexists; [done|]. by rewrite repc_id. Qed.

Lemma emit_repc b ev w p l : exists l', emit b ev (repc w p l) = (repc w p l', Ok ()).
Proof. apply (emit_run b ev (repc w p l)). Qed.

Lemma emit_all_run {A} (f : A -> peer_event) (xs : list A) w p l :
  exists l', st_each (fun x => emit true (f x)) xs (repc w p l) = (repc w p l', Ok ()).
Proof.
  revert l. induction xs as [|x xs IH]; intros l; [by exists l|]. cbn [st_each].
  destruct (emit_repc true (f x) w p l) as (l1 & E). rewrite (st_bind_run _ _ _ _ _ E). apply IH.
Qed.

Lemma set_signaling_run s w p l :
  exists l', peer_set_signaling s (repc w p l) =
    (repc w (pc_states (States s (ice_gathering_state (states p)) (ice_connection_state (states p)) (connection_state (states p))) p) l', Ok ()).
Proof. apply (emit_repc _ _ w). Qed.

Lemma set_gathering_run s w p l :
  exists l', peer_set_ice_gathering s (repc w p l) =
    (repc w (pc_states (States (signaling_state (states p)) s (ice_connection_state (states p)) (connection_state (states p))) p) l', Ok ()).
Proof. apply (emit_repc _ _ w). Qed.

Lemma set_ice_connection_run s w p l :
  exists l', peer_set_ice_connection s (repc w p l) =
    (repc w (pc_states (States (signaling_state (states p)) (ice_gathering_state (states p)) s (connection_state (states p))) p) l', Ok ()).
Proof. apply (emit_repc _ _ w). Qed.

Lemma set_connection_run s w p l :
  exists l', peer_set_connection s (repc w p l) =
    (repc w (pc_states (States (signaling_state (states p)) (ice_gathering_state (states p)) (ice_connection_state (states p)) s) p) l', Ok ()).
Proof. apply (emit_repc _ _ w). Qed.

(** ** Candidates of a description *)

Lemma addr_to_string_safe a n : no_fault (rtc_addr_to_string a n).
Proof. destruct a; cbn; [destruct (_ <? _)|destruct (_ <? _)|]; done. Qed.

Lemma to_string_safe c n : no_fault (Candidate.rtc_ice_candidate_to_string c n).
Proof.
  unfold Candidate.rtc_ice_candidate_to_string.
  pose proof (addr_to_string_safe (Candidate.addr c) 64). pose proof (addr_to_string_safe (Candidate.related_addr c) 64).
  destruct (rtc_addr_to_string (Candidate.addr c) 64) as [[ip port]| |]; cbn; try done.
  destruct (n <=? _); cbn; try done. destruct (Candidate.has_related_addr c); cbn; try done.
  destruct (rtc_addr_to_string (Candidate.related_addr c) 64) as [[rip rport]| |]; cbn; try done. by destruct (_ <=? _).
Qed.

(** [d] holds the candidates [cs]; a description without candidates may have no vector yet *)
Definition cand_repr d (cs : list Candidate.rtc_ice_candidate_t) : Prop :=
  Vec.vec_repr (Sdp.candidates d) cs \/ (Sdp.candidates d = Vec.Vec [] 0 0 0 /\ cs = []).

Lemma read_candidates_run d cs : forall n i,
  Vec.vec_repr (Sdp.candidates d) cs -> (i + n = length cs)%nat -> read_candidates d (Z.of_nat i) n = Ok (drop i cs).
Proof.
  induction n as [|n IH]; intros i Hv Hi; cbn [read_candidates].
  { rewrite drop_ge by lia. done. }
  unfold Sdp.rtc_sdp_get_candidate. rewrite (Vec.at_spec _ cs) by (done || lia). rewrite Nat2Z.id.
  destruct (lookup_lt_is_Some_2 cs i) as [c Hc]; [lia|]. rewrite Hc. cbn [fmap option_fmap option_map].
  rewrite (bind_Ok_l _ _ (Some (Some c))) by done. replace (Z.of_nat i + 1) with (Z.of_nat (S i)) by lia.
  rewrite IH by (done || lia). by rewrite (drop_S _ _ _ Hc).
Qed.

Lemma sdp_candidates_run d cs : cand_repr d cs -> sdp_candidates d = Ok cs.
Proof.
  intros [Hv|[Hz ->]]; unfold sdp_candidates, Sdp.rtc_sdp_candidate_count, Vec.rtc_vec_len; [|by rewrite Hz].
  pose proof Hv as []. rewrite vr_len. apply (read_candidates_run d cs _ 0 Hv). unfold blen. lia.
Qed.

Lemma add_candidate_run d cs alloc c :
  cand_repr d cs -> exists v r, Sdp.rtc_sdp_add_candidate alloc c d = (Sdp.with_candidates d v, r) /\ no_fault r /\
    exists cs', cand_repr (Sdp.with_candidates d v) cs'.
Proof.
  assert (forall v l, Vec.vec_repr v l ->
    exists v' r, Vec.rtc_vec_push alloc c v = (v', r) /\ no_fault r /\ exists cs', cand_repr (Sdp.with_candidates d v') cs') as Hp.
  { intros v l Hv. destruct (Vec.push_spec v l alloc c Hv) as (v' & [[E Hv']|[E ->]]); do 2 eexists; (split; [exact E|]);
      (split; [done|]); eexists; left; eauto. }
  unfold Sdp.rtc_sdp_add_candidate. intros [Hv|[Hz ->]].
  - rewrite (proj2 (Z.eqb_neq _ _)) by (destruct Hv; lia). destruct (Hp _ _ Hv) as (v' & r & E & ? & ?). rewrite E. eauto.
  - rewrite Hz. cbn [Vec.elem_size Z.eqb Vec.rtc_vec_init]. destruct (Hp (Vec.Vec [] 0 0 Sdp.SIZEOF_CANDIDATE) []) as (v' & r & E & ? & ?).
    { by split; [..|left|]. }
    cbn. rewrite E. eauto.
Qed.

(** ** The local description *)

Definition with_local_sdp d p : rtc_peer_connection_t := pc_descs (d_local_sdp d (descs p)) p.

Lemma emit_candidate_run c w p l : exists l', peer_emit_ice_candidate c (repc w p l) = (repc w p l', Ok ()).
Proof.
  unfold peer_emit_ice_candidate. rewrite st_bind_eq. cbn [rd_pc repc app pc]. destruct (on_ice_candidate (pcbs p)); [|by exists l].
  cbn [negb]. pose proof (to_string_safe c 256). destruct (Candidate.rtc_ice_candidate_to_string c 256) as [line|e|] eqn:E; try done.
  - rewrite (st_bind_lift _ _ _ (Some line) eq_refl). apply emit_all_run.
  - rewrite (st_bind_lift (attempt (Err e)) _ _ None eq_refl). by exists l.
Qed.

Lemma emit_candidates_run cs w p l : exists l', st_each peer_emit_ice_candidate cs (repc w p l) = (repc w p l', Ok ()).
Proof.
  revert l. induction cs as [|c cs IH]; intros l; [by exists l|]. cbn [st_each].
  destruct (emit_candidate_run c w p l) as (l1 & E). rewrite (st_bind_run _ _ _ _ _ E). apply IH.
Qed.

Lemma candidate_to_ice_safe c n : no_fault (rtc_listener_candidate_to_ice c n).
Proof.
  unfold rtc_listener_candidate_to_ice, rtc_addr_from_string.
  repeat (case_match; cbn; try done).
Qed.

Lemma add_local_run alloc c pref em w p l cs :
  cand_repr (local_sdp (descs p)) cs ->
  exists d cs' l', void (peer_add_local_transport_candidate alloc c pref em) (repc w p l) = (repc w (with_local_sdp d p) l', Ok ()) /\
    cand_repr d cs'.
Proof.
  intros Hc. assert (exists d cs' l', (repc w p l, Ok ()) = (repc w (with_local_sdp d p) l', Ok ()) /\ cand_repr d cs') as Hsame.
  { exists (local_sdp (descs p)), cs, l. split; [|done]. by destruct p as [? ? [] ? ? ? ?]. }
  unfold void. rewrite st_bind_eq. unfold st_attempt, peer_add_local_transport_candidate.
  pose proof (candidate_to_ice_safe c pref). destruct (rtc_listener_candidate_to_ice c pref) as [ice|e|] eqn:Ei; [| |done].
  2: { rewrite st_bind_eq. exact Hsame. }
  rewrite (st_bind_lift _ _ _ _ eq_refl), st_bind_eq. cbn [rd_pc repc app pc].
  unfold peer_local_sdp_has_candidate. rewrite (sdp_candidates_run _ _ Hc). cbn [mbind res_bind].
  rewrite (st_bind_lift _ _ _ _ eq_refl). destruct (existsb _ cs); [exact Hsame|].
  destruct (add_candidate_run (local_sdp (descs p)) cs alloc ice Hc) as (v & r & E & Hr & cs' & Hc').
  rewrite st_bind_eq. unfold zoom. change (pc (app (repc w p l))) with p. rewrite E.
  destruct r as [[]|e|]; [| |done].
  - change (set_app _ _) with (repc w (with_local_sdp (Sdp.with_candidates (local_sdp (descs p)) v) p) l).
    destruct em; [|by eexists _, cs', l].
    destruct (emit_candidate_run ice w (with_local_sdp (Sdp.with_candidates (local_sdp (descs p)) v) p) l) as (l' & E').
    rewrite E'. by eexists _, cs', l'.
  - by eexists _, cs', l.
Qed.

Lemma with_local_sdp_twice d1 d2 p : with_local_sdp d2 (with_local_sdp d1 p) = with_local_sdp d2 p.
Proof. done. Qed.

Lemma replay_run alloc tcs : forall h s i w p l cs,
  cand_repr (local_sdp (descs p)) cs ->
  exists d cs' l', replay_loop alloc h s i tcs (repc w p l) = (repc w (with_local_sdp d p) l', Ok ()) /\ cand_repr d cs'.
Proof.
  induction tcs as [|c tcs IH]; intros h s i w p l cs Hc; cbn [replay_loop].
  { exists (local_sdp (descs p)), cs, l. split; [|done]. by destruct p as [? ? [] ? ? ? ?]. }
  set (x := match t_type c with RTC_TRANSPORT_CANDIDATE_HOST => _ | _ => _ end). destruct x as [[pref h'] s'].
  destruct (add_local_run (alloc i) c pref false w p l cs Hc) as (d & cs' & l1 & E & Hc'). rewrite (st_bind_run _ _ _ _ _ E).
  destruct (IH h' s' (i + 1) w (with_local_sdp d p) l1 cs' Hc') as (d2 & cs2 & l2 & E2 & H2). rewrite E2, with_local_sdp_twice. eauto.
Qed.

(** ** Connecting *)

(** a transport that has not checked yet and can send its checks *)
Record can_connect w : Prop := {
  cn_mode : ice_mode (conf (tp w)) = RTC_ICE_MODE_FULL;
  cn_open : closed (tp w) = false;
  cn_unselected : selected_remote_valid (ice (tp w)) = false;
  cn_txn : ice_txn_registered (ice (tp w)) = false;
  cn_timer : ice_timer (ice (tp w)) = RTC_WORKER_TIMER_INVALID;
  cn_sock : sock (io (lis w)) <> None;
  cn_table : StrMap.cap (Listener.routes (lis w) TXN) <= 2 ^ 57
}.

Definition new_ice (q : link X client) : Prop := ice_ok q /\ ice_check_count (ice q.1) < 120.

(** [w'] is [w] after one check to the remote candidate: a Binding Request that
    names both ends, a transaction that waits for the answer, a timer for the
    next one *)
Record checked (e : env) w w' : Prop := {
  ch_check : exists check msg,
    sends (io (lis w')) = sends (io (lis w)) ++ [Datagram (addr_map_v4 (remote_candidate (ice (tp w)))) None check] /\
    Stun.rtc_stun_parse check = Ok msg /\ Stun.type msg = Stun.STUN_BINDING_REQUEST /\ Stun.txn_id msg = rnd_txn e /\
    Stun.rtc_stun_find_attr msg Stun.STUN_ATTR_USERNAME = Ok (Some (check_username (ice (tp w))));
  ch_timer : exists tm, wk_add_timer (u64 (now_ms e + 250)) ICE_TIMER (wk w) = (wk w', Ok tm) /\
    tp w' = with_ice (tp w) (ice_set_timer (ice_set_count (ice_set_txn (ice (tp w)) (rnd_txn e) true)
      (ice_check_count (ice (tp w)) + 1)) tm)
}.

Lemma start_ice_run e w :
  new_ice (lnk w) -> can_connect w -> remote_ice_valid (ice (tp w)) = true -> remote_candidate_valid (ice (tp w)) = true ->
  txn_ok e -> allocs_ok (al e) ->
  exists w', rtc_transport_start_ice self e w = (w', Ok ()) /\ checked e w w' /\ app w' = app w.
Proof.
  intros [((m & Hm) & Hb & Hz) Hcnt] [] Hri Hrc [Ht1 Ht2] Hal. change (lnk w).1 with (tp w) in *.
  destruct (send_check_run self e (lnk w) m) as (req & l' & E & _ & _ & Hs & _ & _ & msg & Hp & Hty & Hid & Hf); try done.
  { split; try done. change (lnk w).1 with (tp w). unfold INT_MAX. lia. }
  unfold rtc_transport_start_ice. rewrite st_bind_eq. cbn [get]. rewrite cn_mode0, bool_decide_true by done.
  cbn [negb fail_if]. rewrite (st_bind_lift _ _ _ _ eq_refl), cn_unselected0, st_bind_eq. unfold on_link, zoom. rewrite E.
  unfold transport_arm_ice_timer. rewrite st_bind_eq. cbn [get]. cbn [set_lnk lnk fst tp with_ice ice ice_set_count ice_set_txn selected_remote_valid ice_timer closed].
  change (lnk w).1 with (tp w) in *. rewrite cn_unselected0, cn_open0, cn_timer0, Z.eqb_refl. cbn [orb negb].
  rewrite st_bind_eq. unfold on_wk, zoom. cbn [wk set_lnk].
  destruct (add_total (u64 (now_ms e + 250)) ICE_TIMER (wk w)) as (k' & tm & Ek). rewrite Ek.
  eexists. split; [done|]. split; [|done]. split; [by exists (Stun.buf req), msg|by exists tm].
Qed.

(** what connecting leaves alone *)
Record same_session w w' : Prop := {
  ss_med : cl_med (app w') = cl_med (app w);
  ss_dc : cl_dc (app w') = cl_dc (app w);
  ss_transceivers : transceivers (pc (app w')) = transceivers (pc (app w));
  ss_descs : descs (pc (app w')) = descs (pc (app w));
  ss_signaling : signaling_state (states (pc (app w'))) = signaling_state (states (pc (app w)));
  ss_twcc : pc_twcc_ext_id (pc (app w')) = pc_twcc_ext_id (pc (app w))
}.

(** nothing happens before both descriptions are set and signaling is stable *)
Lemma try_connect_idle e w :
  local_desc (descs (pc (app w))) = None \/ remote_desc (descs (pc (app w))) = None \/
  signaling_state (states (pc (app w))) <> RTC_SIGNALING_STABLE ->
  peer_try_connect self e w = (w, Ok ()).
Proof.
  intros Hn. unfold peer_try_connect. rewrite st_bind_eq. cbn [rd_pc].
  destruct (bool_decide_reflect (local_desc (descs (pc (app w))) = None)); [done|].
  destruct (bool_decide_reflect (remote_desc (descs (pc (app w))) = None)); [done|].
  destruct (connect_started (pc (app w))); [done|]. rewrite bool_decide_false by naive_solver. done.
Qed.

(** the connect timer that [peer_try_connect] leaves behind *)
Lemma add_timer_run at_ms w p l :
  runtime (rt p) = true -> exists w' tm, peer_runtime_add_timer at_ms (repc w p l) = (w', Ok ()) /\ lnk w' = lnk w /\
    wk_add_timer (u64 at_ms) CONNECT_TIMER (wk w) = (wk w', Ok tm) /\
    app w' = Client (pc_rt (rt_timer tm (rt p)) p) (cl_med (app w)) (cl_dc (app w)) l.
Proof.
  intros Hr. unfold peer_runtime_add_timer. rewrite st_bind_eq. unfold peer_runtime_listener. rewrite st_bind_eq. cbn [get].
  cbn [repc app pc]. rewrite Hr. cbn [negb fault_if]. rewrite (st_bind_lift _ _ _ _ eq_refl). cbn [mret st_ret].
  rewrite st_bind_eq. unfold on_wk, zoom. destruct (add_total (u64 at_ms) CONNECT_TIMER (wk w)) as (k' & tm & E).
  change (wk (repc w p l)) with (wk w). rewrite E. by exists (World (lnk w) k' (Client (pc_rt (rt_timer tm (rt p)) p) (cl_med (app w)) (cl_dc (app w)) l)), tm.
Qed.

(** [w'] is [w] with checks under way: the first one sent, both timers armed,
    the states reported *)
Record connecting (e : peer_env (X := X)) w w' : Prop := {
  cg_ice : exists w1, checked (te e) w w1 /\ lnk w' = lnk w1 /\
    wk_add_timer (u64 (now_ms (te e))) CONNECT_TIMER (wk w1) = (wk w', Ok (runtime_connect_timer (rt (pc (app w')))));
  cg_started : connect_started (pc (app w')) = true;
  cg_states : connection_state (states (pc (app w'))) = RTC_CONNECTION_CONNECTING /\
    ice_connection_state (states (pc (app w'))) = RTC_ICE_CONNECTION_CHECKING;
  cg_session : same_session w w'
}.

Lemma try_connect_run e w dl dr :
  local_desc (descs (pc (app w))) = Some dl -> remote_desc (descs (pc (app w))) = Some dr ->
  signaling_state (states (pc (app w))) = RTC_SIGNALING_STABLE -> runtime (rt (pc (app w))) = true ->
  runtime_transport (rt (pc (app w))) = true -> connect_started (pc (app w)) = false ->
  new_ice (lnk w) -> can_connect w -> remote_ice_valid (ice (tp w)) = true -> remote_candidate_valid (ice (tp w)) = true ->
  txn_ok (te e) -> allocs_ok (al (te e)) ->
  exists w', peer_try_connect self e w = (w', Ok ()) /\ connecting e w w'.
Proof.
  intros Hl Hr Hs Hrt Htr Hc Hi Hcc Hri Hrc Ht Hal. set (p := pc (app w)) in *. unfold peer_try_connect. rewrite st_bind_eq. cbn [rd_pc]. fold p.
  rewrite Hl, Hr, Hc, Htr. rewrite !bool_decide_false, bool_decide_true by done. cbn [orb negb].
  rewrite st_bind_eq. unfold upd_pc at 1. fold p.
  change (set_app w (with_pc (app w) (pc_started true p))) with (repc w (pc_started true p) (cl_log (app w))).
  destruct (set_connection_run RTC_CONNECTION_CONNECTING w (pc_started true p) (cl_log (app w))) as (l1 & E1).
  rewrite (st_bind_run _ _ _ _ _ E1). set (p1 := pc_states _ (pc_started true p)).
  destruct (set_ice_connection_run RTC_ICE_CONNECTION_CHECKING w p1 l1) as (l2 & E2). rewrite (st_bind_run _ _ _ _ _ E2).
  set (p2 := pc_states _ p1). set (w2 := repc w p2 l2).
  destruct (start_ice_run (te e) w2 Hi) as (w3 & E3 & Hck & Ha3); [by destruct Hcc|done..|].
  assert (w3 = repc w3 p2 l2) as Hw3 by (destruct w3 as [? ? ?]; cbn in Ha3; subst; done).
  rewrite st_bind_eq. unfold DataChannel.st_code. rewrite E3. rewrite Hw3.
  destruct (add_timer_run (now_ms (te e)) w3 p2 l2 Hrt) as (w4 & tm & E4 & L4 & K4 & A4). exists w4. split; [done|].
  split; [|by rewrite A4..|].
  - exists w3. split; [by destruct Hck|]. split; [done|]. rewrite A4. exact K4.
  - split; rewrite A4, ?Ha3; done.
Qed.

(** ** The sections a peer describes *)

(** a codec a section line can carry *)
Record good_codec (c : rtc_codec_t) (ty : Sdp.rtc_media_type_t) (name : bytes) : Prop := {
  gc_mime : mime_type c = (match ty with Sdp.RTC_MEDIA_AUDIO => str "audio/" | _ => str "video/" end) ++ name;
  gc_av : ty <> Sdp.RTC_MEDIA_APPLICATION;
  gc_name : SdpSpec.codec_ok name /\ SdpSpec.line_ok name;
  gc_pt : 0 <= c_payload_type c < 256;
  gc_rate : 0 <= c_clock_rate c < 2 ^ 31;
  gc_channels : 0 <= c_channels c < 2 ^ 31 /\ (ty = Sdp.RTC_MEDIA_VIDEO -> c_channels c = 0)
}.

(** a transceiver with live streams and a good codec; [sc] is the SSRC it sends
    with and [j] the stream that receives *)
Definition live_track (m : MediaSession.media) t (sc j : Z) : Prop :=
  (exists ty name, good_codec (s_codec (sender t)) ty name) /\ 0 <= t_mid_index t < 2 ^ 31 /\
  exists i x y, s_stream (sender t) = Some i /\ MediaSession.send_store m !! i = Some x /\
    RtpStream.rtc_rtp_send_stream_ssrc x = sc /\ 0 < sc < 2 ^ 32 /\
    r_stream (receiver t) = Some j /\ MediaSession.recv_store m !! j = Some y.

Definition the_exts : list Sdp.rtc_sdp_extmap_t :=
  [Sdp.Extmap 4 RTC_EXT_URI_MID; Sdp.Extmap 5 RTC_EXT_URI_TRANSPORT_CC].

(** the section of a live transceiver *)
Definition section_is t (sc : Z) (x : Sdp.rtc_sdp_media_t) : Prop :=
  Sdp.is_av x = true /\ Sdp.mid_index x = t_mid_index t /\ Sdp.ssrc x = sc /\ Sdp.extmaps x = the_exts /\ SdpSpec.wf_media x.

Lemma mime_media_good c ty name : good_codec c ty name -> mime_media (mime_type c) = (ty, name).
Proof.
  intros [Hm Hav [(_ & _ & Hlen) _] _ _ _]. unfold mime_media, cut. rewrite Hm.
  destruct ty; [| |done].
  - rewrite SdpSpec.starts_app. change (drop 6 (str "audio/" ++ name)) with name. by rewrite take_ge by lia.
  - assert (Candidate.starts (str "audio/") (str "video/" ++ name) = false) as -> by reflexivity.
    rewrite SdpSpec.starts_app. change (drop 6 (str "video/" ++ name)) with name. by rewrite take_ge by lia.
Qed.

Lemma exts_wf : Forall SdpSpec.wf_ext the_exts.
Proof.
  assert (forall u, bool_decide (u <> []) && bool_decide (Forall (fun b => Scanf.isspace b = false) u) = true -> Scanf.word u) as Hw.
  { intros x [E1%bool_decide_eq_true_1 E2%bool_decide_eq_true_1]%andb_true_iff. by split. }
  repeat apply Forall_cons_2; [| |apply Forall_nil_2];
    (split; [cbn; lia|]; split; [by apply Hw|]; split; [by apply SdpSpec.line_ok_lit|vm_compute; lia]).
Qed.

Lemma fill_section_run m t sc j :
  live_track m t sc j -> exists x, rtc_rtp_transceiver_fill_sdp_media t m = Ok x /\ section_is t sc x.
Proof.
  intros ((ty & name & Hc) & Hmid & i & x & y & Hs & Hx & Hsc & Hu & _). unfold rtc_rtp_transceiver_fill_sdp_media.
  rewrite (mime_media_good _ _ _ Hc). unfold ask_send. rewrite Hs. unfold MediaSession.deref. rewrite Hx. cbn [mbind res_bind]. rewrite Hsc.
  pose proof Hc as [_ Hav [Hcn Hln] Hpt Hr [Hch Hv]]. rewrite s32_small by lia.
  set (x0 := Sdp.MediaSection ty _ _ _ name _ sc []).
  assert (add_extmap x0 4 RTC_EXT_URI_MID = Ok (Sdp.with_extmaps x0 [Sdp.Extmap 4 RTC_EXT_URI_MID])) as E1 by reflexivity.
  assert (add_extmap (Sdp.with_extmaps x0 [Sdp.Extmap 4 RTC_EXT_URI_MID]) 5 RTC_EXT_URI_TRANSPORT_CC = Ok (Sdp.with_extmaps x0 the_exts)) as E2
    by reflexivity.
  exists (Sdp.with_extmaps x0 the_exts). split.
  { destruct ty; [| |done]; rewrite E1; exact E2. }
  split; [by destruct ty|]. split; [done|]. split; [done|]. split; [done|]. split; [cbn; unfold SdpSpec.int32; lia|].
  assert (Sdp.is_av (Sdp.with_extmaps x0 the_exts) = true) as -> by by destruct ty.
  split; cbn [Sdp.with_extmaps Sdp.m_payload_type Sdp.m_clockrate Sdp.m_channels Sdp.m_codec_name Sdp.extmaps Sdp.ssrc x0];
    unfold SdpSpec.int32; try lia; [| |apply exts_wf|by vm_compute].
  - split; [|lia]. unfold SdpSpec.line_channels. cbn. destruct ty; [|by rewrite Hv|done].
    destruct (Z.ltb_spec 0 (c_channels (s_codec (sender t)))); lia.
  - rewrite bool_decide_true; [done|]. destruct Hcn as ((? & _) & _). done.
Qed.

Lemma fill_sections_run m ts tracks :
  Forall2 (fun t k => live_track m t k.1 k.2) ts tracks ->
  exists ms, fill_sections ts m = Ok ms /\ Forall2 (fun x tk => section_is tk.1 tk.2.1 x) ms (zip ts tracks).
Proof.
  induction 1 as [|t [sc j] ts tracks Ht _ (ms & E & Hms)]; [by exists []|]. cbn [fst snd] in Ht.
  destruct (fill_section_run m t sc j Ht) as (x & Ex & Hx). exists (x :: ms). cbn [fill_sections]. rewrite Ex. cbn. rewrite E. cbn.
  split; [done|]. by constructor.
Qed.

(** ** The candidates of the listener *)

(** the candidates as a description lists them *)
Fixpoint ice_candidates (h s : Z) (tcs : list rtc_transport_candidate_t) : res (list Candidate.rtc_ice_candidate_t) :=
  match tcs with
  | [] => Ok []
  | c :: tcs =>
      let ty := listener_ice_type (t_type c) in
      x ← rtc_listener_candidate_to_ice c (match ty with
            | Candidate.ICE_CANDIDATE_HOST => 65535 - h
            | Candidate.ICE_CANDIDATE_SRFLX => 65535 - s
            | Candidate.ICE_CANDIDATE_RELAY => 65535 end);
      l ← ice_candidates (match ty with Candidate.ICE_CANDIDATE_HOST => h + 1 | _ => h end)
            (match ty with Candidate.ICE_CANDIDATE_SRFLX => s + 1 | _ => s end) tcs;
      Ok (x :: l)
  end.

Record gathered (l : rtc_listener_t Z) (cs : list Candidate.rtc_ice_candidate_t) : Prop := {
  ga_count : blen (l_candidates l) <= ICE_MAX_CANDIDATES;
  ga_ice : ice_candidates 0 0 (l_candidates l) = Ok cs;
  ga_some : cs <> [];
  ga_wf : Forall Candidate.wf_candidate cs
}.

Lemma fill_loop_run tcs : forall h s cs d l,
  ice_candidates h s tcs = Ok cs -> Vec.vec_repr (Sdp.candidates d) l -> Vec.elem_size (Sdp.candidates d) = Sdp.SIZEOF_CANDIDATE ->
  blen l + blen tcs < 2 ^ 20 ->
  exists v, fill_loop true h s tcs d = (Sdp.with_candidates d v, Ok ()) /\ Vec.vec_repr v (l ++ cs).
Proof.
  induction tcs as [|c tcs IH]; intros h s cs d l E Hv He Hb; cbn [ice_candidates fill_loop] in *.
  { injection E as <-. rewrite app_nil_r. exists (Sdp.candidates d). by destruct d. }
  destruct (rtc_listener_candidate_to_ice c _) as [x| |] eqn:Ex; try done. cbn [mbind res_bind] in E.
  destruct (ice_candidates _ _ tcs) as [cs'| |] eqn:El; try done. injection E as <-.
  rewrite (st_bind_lift _ _ _ _ eq_refl). rewrite blen_cons in Hb. pose proof (blen_nonneg tcs).
  destruct (Vec.push_small _ _ x Hv) as (v1 & E1 & Hv1 & He1); [rewrite He; unfold Sdp.SIZEOF_CANDIDATE; lia|lia|].
  assert (Sdp.rtc_sdp_add_candidate true x d = (Sdp.with_candidates d v1, Ok ())) as Ea.
  { unfold Sdp.rtc_sdp_add_candidate. rewrite He. cbn [Sdp.SIZEOF_CANDIDATE Z.eqb]. by rewrite E1. }
  rewrite (st_bind_run _ _ _ _ _ Ea).
  destruct (IH _ _ cs' (Sdp.with_candidates d v1) (l ++ [x]) El) as (v & Ev & Hr); [done|by rewrite <- He|rewrite blen_app, blen_cons, blen_nil; lia|].
  exists v. rewrite <- app_assoc in Hr. by rewrite Ev.
Qed.

Lemma fill_run (l : rtc_listener_t Z) cs d :
  gathered l cs -> Sdp.candidates d = Vec.Vec [] 0 0 0 ->
  exists v, rtc_listener_fill_sdp_candidates true l d = (Sdp.with_candidates d v, Ok ()) /\ Vec.vec_repr v cs.
Proof.
  intros [Hn Hi Hs _] Hz. unfold rtc_listener_fill_sdp_candidates, rtc_listener_get_candidates. unfold ICE_MAX_CANDIDATES in *.
  rewrite Z.min_r by lia. rewrite take_ge by (unfold blen; lia). rewrite Z.ltb_irrefl. cbn [fault_if].
  rewrite (st_bind_lift _ _ _ _ eq_refl). destruct (l_candidates l) as [|c tcs]; [by injection Hi as <-|].
  cbn [ice_candidates fill_loop] in *. destruct (rtc_listener_candidate_to_ice c _) as [x| |] eqn:Ex; try done. cbn [mbind res_bind] in Hi.
  destruct (ice_candidates _ _ tcs) as [cs'| |] eqn:El; try done. injection Hi as <-. rewrite (st_bind_lift _ _ _ _ eq_refl).
  assert (Vec.vec_repr (Vec.Vec [] 0 0 Sdp.SIZEOF_CANDIDATE) (@nil Candidate.rtc_ice_candidate_t)) as Hv0 by (by split; [..|left|]).
  destruct (Vec.push_small _ _ x Hv0) as (v1 & E1 & Hv1 & He1); [cbn; unfold Sdp.SIZEOF_CANDIDATE; lia|rewrite blen_nil; lia|].
  assert (Sdp.rtc_sdp_add_candidate true x d = (Sdp.with_candidates d v1, Ok ())) as Ea.
  { unfold Sdp.rtc_sdp_add_candidate. rewrite Hz. cbn [Vec.elem_size Z.eqb Vec.rtc_vec_init]. cbn. by rewrite E1. }
  rewrite (st_bind_run _ _ _ _ _ Ea). rewrite blen_cons in Hn.
  destruct (fill_loop_run tcs _ _ cs' (Sdp.with_candidates d v1) [x] El) as (v & Ev & Hr); [done|done|rewrite blen_cons, blen_nil; lia|].
  exists v. by rewrite Ev.
Qed.

(** ** Descriptions *)

(** [tracks]: the SSRC each transceiver sends with and the stream it receives with *)
Record describable w (cs : list Candidate.rtc_ice_candidate_t) (tracks : list (Z * Z)) : Prop := {
  de_runtime : runtime (rt (pc (app w))) = true;
  de_transport : runtime_transport (rt (pc (app w))) = true;
  de_gathered : gathered (lis w) cs;
  de_tracks : Forall2 (fun t k => live_track (cl_med (app w)) t k.1 k.2) (transceivers (pc (app w))) tracks;
  de_count : 0 < blen tracks <= Sdp.SDP_MAX_MEDIA;
  de_ufrag : SdpSpec.line_ok (ice_ufrag (ice (tp w))) /\ blen (ice_ufrag (ice (tp w))) < Sdp.ICE_UFRAG_LEN;
  de_pwd : SdpSpec.line_ok (ice_pwd (ice (tp w))) /\ blen (ice_pwd (ice (tp w))) < Sdp.ICE_PWD_LEN;
  de_fingerprint : SdpSpec.line_ok (Dtls.local_fingerprint (w_dtls w)) /\ blen (Dtls.local_fingerprint (w_dtls w)) < 96
}.

(** the credentials [w] describes *)
Definition creds w (role : Sdp.rtc_setup_role_t) : Sdp.rtc_sdp_t :=
  Sdp.with_ice Sdp.sdp_zero (ice_ufrag (ice (tp w))) (ice_pwd (ice (tp w))) (Dtls.local_fingerprint (w_dtls w)) role false.

(** the text fits the buffer of a description *)
Definition fits w (role : Sdp.rtc_setup_role_t) (now : Z) (cs : list Candidate.rtc_ice_candidate_t) : Prop :=
  SdpSpec.line_ok (snprintf 32 (dec now)).1 /\
  forall ms, fill_sections (transceivers (pc (app w))) (cl_med (app w)) = Ok ms ->
    blen (SdpSpec.text_of (SdpSpec.sdp_lines (creds w role) cs (snprintf 32 (dec now)).1 ms)) < Sdp.SDP_MAX_SIZE.

(** what [w] describes, as the other side reads it *)
Record reads_back w (role : Sdp.rtc_setup_role_t) (cs : list Candidate.rtc_ice_candidate_t) (tracks : list (Z * Z)) d : Prop := {
  rb_sections : Forall2 (fun x tk => section_is tk.1 tk.2.1 x) (Sdp.media d) (zip (transceivers (pc (app w))) tracks);
  rb_ufrag : Sdp.ice_ufrag d = ice_ufrag (ice (tp w));
  rb_pwd : Sdp.ice_pwd d = ice_pwd (ice (tp w));
  rb_fingerprint : Sdp.fingerprint d = Dtls.local_fingerprint (w_dtls w);
  rb_setup : Sdp.setup d = role;
  rb_candidates : Vec.vec_repr (Sdp.candidates d) (SdpSpec.inherit cs)
}.

Lemma take_media w cs tracks : describable w cs tracks ->
  take (Z.to_nat Sdp.SDP_MAX_MEDIA) (transceivers (pc (app w))) = transceivers (pc (app w)).
Proof. intros []. apply take_ge. apply Forall2_length in de_tracks0. unfold blen in *. lia. Qed.

Lemma build_run w role cs tracks :
  describable w cs tracks ->
  exists d ms v, peer_build_sdp true w (Sdp.with_ice Sdp.sdp_zero [] [] [] role false) = (d, Ok ()) /\
    fill_sections (transceivers (pc (app w))) (cl_med (app w)) = Ok ms /\ Sdp.media d = ms /\
    SdpSpec.ice_of d = SdpSpec.ice_of (creds w role) /\ Sdp.session_id d = [] /\
    Sdp.candidates d = v /\ Vec.vec_repr v cs /\
    Forall2 (fun x tk => section_is tk.1 tk.2.1 x) ms (zip (transceivers (pc (app w))) tracks).
Proof.
  intros Hd. pose proof Hd as []. destruct (fill_sections_run _ _ _ de_tracks0) as (ms & Ems & Hms).
  unfold peer_build_sdp, peer_runtime_fill_sdp_transport. rewrite de_runtime0, de_transport0, (take_media w cs tracks Hd), Ems.
  destruct (fill_run (lis w) cs (creds w role) de_gathered0 eq_refl) as (v & Ev & Hv).
  rewrite st_bind_eq. rewrite (st_bind_lift (fault_if (negb true)) _ _ () eq_refl).
  rewrite (st_bind_lift (fail_if (negb true) RTC_ERR_INVALID) _ _ () eq_refl). rewrite st_bind_eq. unfold modify at 1.
  change (Sdp.with_ice (Sdp.with_ice Sdp.sdp_zero [] [] [] role false) _ _ _ _ _) with (creds w role). rewrite Ev.
  rewrite (st_bind_lift (Ok ms) _ _ ms eq_refl), st_bind_eq. unfold modify at 1.
  destruct (transceivers (pc (app w))) as [|t ts] eqn:Ets.
  { apply Forall2_nil_inv_l in de_tracks0 as ->. unfold blen in *. cbn in *. lia. }
  destruct (mime_media (mime_type (s_codec (sender t)))) as [ty name].
  eexists _, ms, v. split; [done|]. by destruct ty.
Qed.

Lemma describe_peer_run ty role (e : peer_env (X := X)) w cs tracks :
  describable w cs tracks -> fits w role (now_ms (te e)) cs -> a_fill e = true ->
  exists d desc d2, create_description ty role e w = (repc w (pc_descs (d_local ty d (descs (pc (app w)))) (pc (app w))) (cl_log (app w)), Ok desc) /\
    desc_type desc = ty /\ cand_repr d cs /\
    Sdp.rtc_sdp_parse SdpSpec.ok_alloc (desc_sdp desc) (sdp_len desc) Sdp.sdp_zero = (d2, Ok ()) /\ reads_back w role cs tracks d2.
Proof.
  intros Hd [Hsid Hfit] Ha. destruct (build_run w role cs tracks Hd) as (d & ms & v & Eb & Ems & Hm & Hi & Hs & Hc & Hv & Hsec).
  unfold create_description. rewrite st_bind_eq. cbn [get]. rewrite Ha, Eb. rewrite (st_bind_lift (Ok d) _ _ d eq_refl).
  injection Hi as Hu Hp Hf Hr _. pose proof Hd as [_ _ Hg Htr Hn Hdu Hdp Hdf].
  assert (SdpSpec.session_of (now_ms (te e)) d = (snprintf 32 (dec (now_ms (te e)))).1) as Es.
  { unfold SdpSpec.session_of. by rewrite Hs. }
  assert (forall x, SdpSpec.section_lines d x = SdpSpec.section_lines (creds w role) x) as Hl.
  { intros x. unfold SdpSpec.section_lines. by rewrite Hu, Hp, Hf, Hr. }
  assert (length ms = length tracks) as Hlen.
  { apply Forall2_length in Hsec, Htr. rewrite Hsec, length_zip. lia. }
  destruct (SdpSpec.describe_run (now_ms (te e)) d cs Sdp.sdp_zero) as (d1 & d2 & Eg & Ec & El & Epar & Hm2 & Hi2 & Hv2).
  - split; rewrite ?Hu, ?Hp, ?Hf; done.
  - rewrite Hm. clear -Hsec. induction Hsec as [|x tk ? ? Hx ? IH]; constructor; [apply Hx|done].
  - rewrite Hm. unfold blen in *. lia.
  - by rewrite Es.
  - by rewrite Hc.
  - apply Hg.
  - rewrite Es, Hm. unfold SdpSpec.sdp_lines. rewrite (flat_map_ext _ (SdpSpec.section_lines (creds w role))) by done. by apply Hfit.
  - by left.
  - rewrite Eg. rewrite st_bind_eq. exists d1. eexists. exists d2. split; [done|]. split; [done|]. split.
    { left. by rewrite Ec, Hc. }
    cbn [desc_sdp sdp_len]. rewrite El, take_ge by (unfold blen; lia). rewrite <-El. split; [done|].
    injection Hi2 as Eu Ep Ef Er _. split; rewrite ?Hm2, ?Hm, ?Eu, ?Ep, ?Ef, ?Er; done.
Qed.

(** the signaling state after a local and after a remote description *)
Definition local_signaling (ty : rtc_sdp_type_t) (s : rtc_signaling_state_t) : rtc_signaling_state_t :=
  match ty with
  | RTC_SDP_OFFER => RTC_SIGNALING_HAVE_LOCAL_OFFER
  | RTC_SDP_ANSWER => if bool_decide (s = RTC_SIGNALING_HAVE_REMOTE_OFFER) then RTC_SIGNALING_STABLE else s
  | RTC_SDP_PRANSWER => s
  end.
Definition remote_signaling (ty : rtc_sdp_type_t) (s : rtc_signaling_state_t) : rtc_signaling_state_t :=
  match ty with
  | RTC_SDP_OFFER => RTC_SIGNALING_HAVE_REMOTE_OFFER
  | RTC_SDP_ANSWER => if bool_decide (s = RTC_SIGNALING_HAVE_LOCAL_OFFER) then RTC_SIGNALING_STABLE else s
  | RTC_SDP_PRANSWER => s
  end.

Definition with_signaling (s : rtc_signaling_state_t) (x : states_t) : states_t :=
  States s (ice_gathering_state x) (ice_connection_state x) (connection_state x).

Lemma signaling_run (b : bool) s s0 w p l :
  signaling_state (states p) = s0 ->
  exists l', (if b then peer_set_signaling s else mret ()) (repc w p l) =
    (repc w (pc_states (with_signaling (if b then s else s0) (states p)) p) l', Ok ()).
Proof.
  intros <-. destruct b; [apply set_signaling_run|]. exists l. by destruct p as [? ? ? [] ? ? ?].
Qed.

Lemma listener_done_run w p l :
  exists g l', peer_runtime_on_listener_done (repc w p l) =
    (repc w (pc_states (States (signaling_state (states p)) g (ice_connection_state (states p)) (connection_state (states p))) p) l', Ok ()).
Proof.
  assert (exists g l', (repc w p l, Ok ()) = (repc w (pc_states (States (signaling_state (states p)) g (ice_connection_state (states p))
    (connection_state (states p))) p) l', Ok ())) as Hsame.
  { exists (ice_gathering_state (states p)), l. by destruct p as [? ? ? [] ? ? ?]. }
  unfold peer_runtime_on_listener_done. rewrite st_bind_eq. cbn [rd_pc repc app pc].
  destruct (_ || is_closed p); [exact Hsame|]. destruct (bool_decide _); [exact Hsame|].
  destruct (set_gathering_run RTC_ICE_GATHERING_COMPLETE w p l) as (l1 & E). rewrite (st_bind_run _ _ _ _ _ E).
  edestruct (emit_repc (on_ice_candidate (pcbs p)) (EvCandidate None) w) as (l2 & E2). rewrite E2. eauto.
Qed.

(** a local description is stored, the candidates are reported, and what
    follows is the attempt to connect *)
Lemma set_local_run e w desc cs :
  runtime (rt (pc (app w))) = true -> connect_started (pc (app w)) = false -> cand_repr (local_sdp (descs (pc (app w)))) cs ->
  blen (l_candidates (lis w)) <= ICE_MAX_CANDIDATES ->
  let p := pc (app w) in
  exists d g l, rtc_peer_connection_set_local_desc self e desc w =
    peer_try_connect self e (repc w (Pc (rt p) (transceivers p)
      (Descriptions (Some desc) (remote_desc (descs p)) (local_type (descs p)) d (remote_sdp (descs p)))
      (States (local_signaling (desc_type desc) (signaling_state (states p))) g (ice_connection_state (states p)) (connection_state (states p)))
      (pcbs p) (connect_started p) (pc_twcc_ext_id p)) l).
Proof.
  intros Hr Hs Hc Hn p. unfold rtc_peer_connection_set_local_desc. rewrite st_bind_eq. cbn [rd_pc]. fold p in Hr, Hs, Hc. fold p.
  rewrite (st_bind_lift (fail_if (connect_started p) RTC_ERR_INVALID) _ _ ()) by by rewrite Hs. rewrite st_bind_eq. unfold upd_descs, upd_pc at 1. fold p.
  change (set_app w (with_pc (app w) ?q)) with (repc w q (cl_log (app w))). set (p1 := pc_descs _ p).
  assert (exists l, (match desc_type desc with
       | RTC_SDP_OFFER => peer_set_signaling RTC_SIGNALING_HAVE_LOCAL_OFFER
       | RTC_SDP_ANSWER => if bool_decide (signaling_state (states p) = RTC_SIGNALING_HAVE_REMOTE_OFFER)
                           then peer_set_signaling RTC_SIGNALING_STABLE else mret ()
       | RTC_SDP_PRANSWER => mret ()
       end) (repc w p1 (cl_log (app w))) =
    (repc w (pc_states (with_signaling (local_signaling (desc_type desc) (signaling_state (states p))) (states p)) p1) l, Ok ())) as (l1 & E1).
  { destruct (desc_type desc).
    - exact (signaling_run true _ _ w p1 _ eq_refl).
    - exact (signaling_run (bool_decide _) _ _ w p1 _ eq_refl).
    - exact (signaling_run false RTC_SIGNALING_STABLE _ w p1 _ eq_refl). }
  rewrite (st_bind_run _ _ _ _ _ E1). set (p2 := pc_states _ p1).
  destruct (set_gathering_run RTC_ICE_GATHERING_GATHERING w p2 l1) as (l2 & E2). rewrite (st_bind_run _ _ _ _ _ E2). set (p3 := pc_states _ p2).
  unfold peer_replay_listener_candidates, peer_runtime_listener.
  assert (forall q l, runtime (rt q) = true ->
    (w0 ← get; _ ← lift (fault_if (negb (runtime (rt (pc (app w0)))))); mret (lis w0)) (repc w q l) = (repc w q l, Ok (lis w))) as Elis.
  { intros q l Hq. rewrite st_bind_eq. cbn [get repc app pc]. by rewrite Hq. }
  rewrite st_bind_eq. rewrite (st_bind_run _ _ _ _ _ (Elis p3 l2 Hr)). unfold rtc_listener_get_candidates, ICE_MAX_CANDIDATES in *.
  rewrite Z.min_r by lia. rewrite (take_ge (l_candidates (lis w))) by (unfold blen; lia). rewrite Z.ltb_irrefl.
  rewrite (st_bind_lift (fault_if false) _ _ () eq_refl).
  destruct (replay_run (a_candidate e) (l_candidates (lis w)) 0 0 0 w p3 l2 cs Hc) as (d & cs' & l3 & E3 & Hc'). rewrite E3.
  rewrite st_bind_eq. cbn [rd_pc]. change (pc (app (repc w ?q ?l))) with q. set (p4 := with_local_sdp d p3).
  rewrite (st_bind_lift _ _ _ _ (sdp_candidates_run _ _ Hc')).
  destruct (emit_candidates_run cs' w p4 l3) as (l4 & E4). rewrite (st_bind_run _ _ _ _ _ E4).
  rewrite (st_bind_run _ _ _ _ _ (Elis p4 l4 Hr)). destruct (rtc_listener_gathering_complete (lis w)).
  - destruct (listener_done_run w p4 l4) as (g & l5 & E5). rewrite (st_bind_run _ _ _ _ _ E5). by exists d, g, l5.
  - rewrite st_bind_eq. by exists d, RTC_ICE_GATHERING_GATHERING, l4.
Qed.

(** ** The remote description and the transport *)

Definition set_ice w (i : ice_t) : pworld := World (with_ice (tp w) i, lis w) (wk w) (app w).

(** an address a datagram can be sent to, also as the related address *)
Definition reachable (c : Candidate.rtc_ice_candidate_t) : Prop :=
  Candidate.usable (Candidate.addr c) /\ (Candidate.has_related_addr c = true -> Candidate.usable (Candidate.related_addr c)).

Lemma next_related_usable cs a :
  Forall Candidate.wf_candidate cs -> SdpSpec.next_related cs = Some a -> Candidate.usable a.
Proof.
  induction 1 as [|c cs [_ _ _ _ _ _ Hr] _ IH]; [done|]. cbn [SdpSpec.next_related].
  destruct (Candidate.has_related_addr c); [intros [= <-]; done|exact IH].
Qed.

Lemma inherit_reachable cs :
  Forall Candidate.wf_candidate cs ->
  Forall reachable (SdpSpec.inherit cs) /\ Candidate.addr <$> SdpSpec.inherit cs = Candidate.addr <$> cs.
Proof.
  induction 1 as [|c cs Hc Hcs [IH1 IH2]]; [done|]. cbn [SdpSpec.inherit fmap list_fmap]. rewrite IH2.
  assert (reachable (SdpSpec.inherit_one c cs) /\ Candidate.addr (SdpSpec.inherit_one c cs) = Candidate.addr c) as [H1 ->];
    [|split; [by constructor|done]].
  pose proof Hc as [_ _ _ _ _ Ha Hr]. unfold SdpSpec.inherit_one. destruct (Candidate.has_related_addr c) eqn:E.
  { split; [|done]. split; [done|]. intros _. done. }
  destruct (SdpSpec.next_related cs) as [a|] eqn:En; (split; [|done]); (split; [done|]); [|by rewrite E].
  intros _. cbn. by eapply next_related_usable.
Qed.

Lemma remote_candidate_run c w :
  reachable c -> runtime_transport (rt (pc (app w))) = true ->
  peer_runtime_add_remote_candidate c w = (set_ice w (ice_set_candidate (ice (tp w)) (Candidate.addr c) true), Ok ()).
Proof.
  intros [Ha Hr] Ht. unfold peer_runtime_add_remote_candidate. rewrite st_bind_eq. cbn [rd_pc]. rewrite Ht.
  rewrite (st_bind_lift (fail_if (negb true) RTC_ERR_INVALID) _ _ () eq_refl).
  destruct (Candidate.usable_text _ Ha) as (t & n & Et & Ef & Hn & Hl & [Ht0 _] & _).
  assert (exists tc, rtc_transport_candidate_from_ice c = Ok tc /\ t_address tc = t /\ t_port tc = n /\ t_protocol tc = str "udp") as
    (tc & E & E1 & E2 & E3).
  { unfold rtc_transport_candidate_from_ice. rewrite Et. cbn [mbind res_bind].
    assert (cut 64 t = t) as Hcut by (unfold cut; apply take_ge; lia).
    destruct (Candidate.has_related_addr c); [|eexists; split; [reflexivity|]; split; [exact Hcut|done]].
    destruct (Candidate.usable_text _ (Hr eq_refl)) as (t' & n' & -> & _). cbn [mbind res_bind].
    eexists; split; [reflexivity|]; split; [exact Hcut|done]. }
  rewrite (st_bind_lift _ _ _ _ E). unfold rtc_transport_add_remote_candidate. rewrite E1, E2, E3, Ef.
  rewrite (bool_decide_false (t = [])), (proj2 (Z.eqb_neq n 0)), bool_decide_true by (done || lia). cbn [orb negb fail_if].
  rewrite !(st_bind_lift (Ok ()) _ _ () eq_refl). done.
Qed.

Lemma remote_candidates_run cs : forall w,
  Forall reachable cs -> runtime_transport (rt (pc (app w))) = true ->
  st_each (fun c => void (peer_runtime_add_remote_candidate c)) cs w =
    (set_ice w (match last cs with Some c => ice_set_candidate (ice (tp w)) (Candidate.addr c) true | None => ice (tp w) end), Ok ()).
Proof.
  induction cs as [|c cs IH]; intros w Hc Ht; cbn [st_each].
  { cbn [last]. by destruct w as [[[] ?] ? ?]. }
  apply Forall_cons_1 in Hc as [Hc Hcs]. rewrite (st_bind_run _ _ _ _ _ (void_run _ _ _ _ (remote_candidate_run c w Hc Ht) ltac:(done))).
  rewrite IH by done. rewrite last_cons. by destruct (last cs).
Qed.

(** a certificate, and no handshake yet *)
Definition dtls_ready (x : Dtls.rtc_dtls_transport_t X) : Prop := Dtls.cert x = true /\ Dtls.state x = Dtls.RTC_DTLS_STATE_NEW.
(** OpenSSL provides the objects *)
Definition setup_good (s : Dtls.setup_env X) : Prop :=
  Dtls.ssl_ctx_new s = true /\ Dtls.use_srtp s = true /\ Dtls.install s = true /\ Dtls.bios s = true /\ is_Some (Dtls.ssl_new s).

Lemma set_role_run e r w :
  dtls_ready (w_dtls w) -> setup_good (dtls_setup e) ->
  exists x, set_role e r w = (set_app (set_w_dtls w x) (with_pc (app w)
      (pc_rt (rt_fingerprint (Dtls.local_fingerprint x) (rt (pc (app w)))) (pc (app w)))), Ok ()) /\
    dtls_ready x /\ Dtls.role x = transport_internal_dtls_role r /\ Dtls.local_fingerprint x = Dtls.local_fingerprint (w_dtls w).
Proof.
  intros [Hc Hs] (S1 & S2 & S3 & S4 & [y S5]). unfold set_role.
  assert (exists x, rtc_transport_set_dtls_role (dtls_setup e) r w = (set_w_dtls w x, Ok ()) /\ dtls_ready x /\
    Dtls.role x = transport_internal_dtls_role r /\ Dtls.local_fingerprint x = Dtls.local_fingerprint (w_dtls w)) as (x & E & Hx).
  { unfold rtc_transport_set_dtls_role, dtls_is. rewrite st_bind_eq. cbn [get]. rewrite (bool_decide_true (Dtls.state (w_dtls w) = _)) by done. cbn [negb fail_if].
    rewrite (st_bind_lift (Ok ()) _ _ () eq_refl). case_bool_decide as Hr.
    - exists (w_dtls w). split; [|done]. by destruct w as [[[? ? [] ? ? ? ?] ?] ? ?].
    - unfold Dtls.on_dtls, zoom, Dtls.rtc_dtls_set_role. rewrite Hc, (bool_decide_true (_ = Dtls.RTC_DTLS_STATE_NEW)), (bool_decide_false (Dtls.role _ = _)) by done.
      unfold Dtls.dtls_setup_ssl. cbn [negb Dtls.dtls_close_ssl]. rewrite S1, S2, S3, S4, S5.
      replace (Dtls.cert (Dtls.dtls_close_ssl (w_dtls w))) with true by (symmetry; exact Hc).
      by eexists. }
  rewrite (st_bind_run _ _ _ _ _ (void_run _ _ _ _ E ltac:(done))). rewrite st_bind_eq. cbn [get]. by exists x.
Qed.

(** the role a description leads to *)
Definition decided (lt : rtc_sdp_type_t) (su : Sdp.rtc_setup_role_t) : option rtc_transport_dtls_role_t :=
  match lt, su with
  | RTC_SDP_OFFER, Sdp.RTC_SETUP_ACTIVE => Some RTC_TRANSPORT_DTLS_ROLE_SERVER
  | RTC_SDP_ANSWER, _ | _, Sdp.RTC_SETUP_ACTPASS => Some RTC_TRANSPORT_DTLS_ROLE_CLIENT
  | _, _ => None
  end.

(** [w] after the credentials, the address and the role were taken *)
Definition hear w (u pw : bytes) (a : Stun.rtc_addr_t) (x : Dtls.rtc_dtls_transport_t X) : pworld :=
  World (with_sec (with_ice (tp w) (ice_set_candidate (ice_set_remote (ice (tp w)) u pw) a true)) (sec_set_dtls (sec (tp w)) x), lis w)
    (wk w) (with_pc (app w) (pc_rt (rt_fingerprint (Dtls.local_fingerprint x) (rt (pc (app w)))) (pc (app w)))).

Lemma hear_run e w d cs c r :
  runtime_transport (rt (pc (app w))) = true -> dtls_ready (w_dtls w) -> setup_good (dtls_setup e) ->
  Vec.vec_repr (Sdp.candidates d) cs -> Forall reachable cs -> last cs = Some c ->
  Sdp.ice_ufrag d <> [] -> Sdp.ice_pwd d <> [] -> decided (local_type (descs (pc (app w)))) (Sdp.setup d) = Some r ->
  exists x, peer_runtime_set_remote_desc e d w = (hear w (Sdp.ice_ufrag d) (Sdp.ice_pwd d) (Candidate.addr c) x, Ok ()) /\
    dtls_ready x /\ Dtls.role x = transport_internal_dtls_role r /\ Dtls.local_fingerprint x = Dtls.local_fingerprint (w_dtls w).
Proof.
  intros Ht Hd Hg Hv Hr Hl Hu Hp Hdec. unfold peer_runtime_set_remote_desc. rewrite st_bind_eq. cbn [rd_pc]. rewrite Ht. cbn [negb].
  assert (rtc_transport_set_remote_ice_parameters (IceParameters (Sdp.ice_ufrag d) (Sdp.ice_pwd d) RTC_ICE_MODE_FULL) w =
    (set_ice w (ice_set_remote (ice (tp w)) (Sdp.ice_ufrag d) (Sdp.ice_pwd d)), Ok ())) as E1.
  { unfold rtc_transport_set_remote_ice_parameters. cbn [username_fragment password].
    rewrite !bool_decide_false by done. cbn [orb fail_if]. by rewrite (st_bind_lift (Ok ()) _ _ () eq_refl). }
  rewrite (st_bind_run _ _ _ _ _ (void_run _ _ _ _ E1 ltac:(done))).
  assert (cand_repr d cs) as Hc by by left. rewrite (st_bind_lift _ _ _ _ (sdp_candidates_run _ _ Hc)).
  rewrite (st_bind_run _ _ _ _ _ (remote_candidates_run cs (set_ice w _) Hr Ht)). rewrite Hl. set (w1 := set_ice _ _).
  assert (forall r', decided (local_type (descs (pc (app w)))) (Sdp.setup d) = Some r' -> exists x,
    set_role e r' w1 = (hear w (Sdp.ice_ufrag d) (Sdp.ice_pwd d) (Candidate.addr c) x, Ok ()) /\
    dtls_ready x /\ Dtls.role x = transport_internal_dtls_role r /\ Dtls.local_fingerprint x = Dtls.local_fingerprint (w_dtls w)) as Hset.
  { intros r' Hr'. rewrite Hdec in Hr'. injection Hr' as <-. exact (set_role_run e r w1 Hd Hg). }
  destruct (local_type (descs (pc (app w)))), (Sdp.setup d); try discriminate Hdec; by apply Hset.
Qed.

(** ** The remote description and the streams *)

(** streams are changed and bound, none goes away *)
Record media_step w w' : Prop := {
  mst_pc : pc (app w') = pc (app w);
  mst_lis : lis w' = lis w;
  mst_tp : exists dm, tp w' = with_cbs (tp w) (cbs_set_demux (cbs (tp w)) dm);
  mst_send : MediaSession.send_store (cl_med (app w')) = MediaSession.send_store (cl_med (app w));
  mst_recv : forall j, is_Some (MediaSession.recv_store (cl_med (app w)) !! j) -> is_Some (MediaSession.recv_store (cl_med (app w')) !! j);
  mst_ready : MediaSession.ready (MediaSession.session (cl_med (app w'))) = MediaSession.ready (MediaSession.session (cl_med (app w)));
  mst_transport : MediaSession.has_transport (MediaSession.session (cl_med (app w'))) =
                  MediaSession.has_transport (MediaSession.session (cl_med (app w)))
}.
Definition calm_step w w' : Prop := media_step w w' /\ lnk w' = lnk w.

#[export] Instance media_step_preorder : PreOrder media_step.
Proof.
  split.
  - intros w. split; try done. exists (rtp_demux (cbs (tp w))). by destruct w as [[[? ? ? [] ? ? ?] ?] ? ?].
  - intros w1 w2 w3 [] []. split; try congruence; [|by auto]. destruct mst_tp0 as [d1 E1], mst_tp1 as [d2 E2]. exists d2. by rewrite E2, E1.
Qed.
#[export] Instance calm_step_preorder : PreOrder calm_step.
Proof. split; [by intros w; split|]. intros w1 w2 w3 [H1 E1] [H2 E2]. split; [by etrans|congruence]. Qed.

Lemma each_run {S A} (P : S -> Prop) (f : A -> st S unit) l : forall s,
  P s -> (forall a s, a ∈ l -> P s -> exists s', f a s = (s', Ok ()) /\ P s') -> exists s', st_each f l s = (s', Ok ()) /\ P s'.
Proof.
  induction l as [|a l IH]; intros s Hs Hf; cbn [st_each]; [by exists s|].
  destruct (Hf a s) as (s1 & E & H1); [left|done|]. rewrite (st_bind_run _ _ _ _ _ E). apply IH; [done|].
  intros b s' Hb. apply Hf. by right.
Qed.

(** the receive streams of the transceivers exist *)
Definition alive (m : MediaSession.media) (ts : list rtc_rtp_transceiver) : Prop :=
  Forall (fun t => exists i j, s_stream (sender t) = Some i /\ is_Some (MediaSession.send_store m !! i) /\
                          r_stream (receiver t) = Some j /\ is_Some (MediaSession.recv_store m !! j)) ts.

Lemma alive_elem m ts t : t ∈ ts -> alive m ts ->
  exists j, r_stream (receiver t) = Some j /\ is_Some (MediaSession.recv_store m !! j).
Proof. intros Ht Ha. unfold alive in Ha. rewrite Forall_forall in Ha. destruct (Ha t Ht) as (_ & j & _ & _ & ?). eauto. Qed.

Lemma alive_step w w' ts : media_step w w' -> alive (cl_med (app w)) ts -> alive (cl_med (app w')) ts.
Proof.
  intros [] Ha. eapply Forall_impl; [exact Ha|]. intros t (i & j & ? & ? & ? & ?). exists i, j. rewrite mst_send0. auto.
Qed.

Lemma live_step w w' t sc j :
  media_step w w' -> live_track (cl_med (app w)) t sc j -> live_track (cl_med (app w')) t sc j.
Proof.
  intros [] (H1 & H2 & i & x & y & ? & ? & ? & ? & ? & Hy). split; [done|]. split; [done|].
  destruct (mst_recv0 j) as [y' Hy']; [by exists y|]. exists i, x, y'. by rewrite mst_send0.
Qed.

Lemma live_alive m ts tracks : Forall2 (fun t k => live_track m t k.1 k.2) ts tracks -> alive m ts.
Proof.
  induction 1 as [|t [sc j] ts tracks (_ & _ & i & x & y & Hs & Hx & _ & _ & Hr & Hy) _ IH]; constructor; [|done].
  cbn [fst snd] in *. exists i, j. rewrite Hx, Hy. eauto.
Qed.

Lemma upd_recv_run j f w :
  is_Some (MediaSession.recv_store (cl_med (app w)) !! j) ->
  exists w', on_med (upd_recv (Some j) f) w = (w', Ok ()) /\ calm_step w w'.
Proof.
  intros [y Hy]. unfold on_med, zoom, upd_recv. rewrite st_bind_eq. cbn [get].
  rewrite (st_bind_lift _ _ _ y) by (unfold MediaSession.deref; by rewrite Hy).
  eexists. split; [done|]. split; [|by destruct w]. split; try done.
  - exists (rtp_demux (cbs (tp w))). by destruct w as [[[? ? ? [] ? ? ?] ?] ? ?].
  - cbn. intros j' Hj'. destruct (decide (j = j')) as [->|]; [by rewrite lookup_insert_eq|by rewrite lookup_insert_ne].
Qed.

Lemma emit_calm b ev w : exists w', emit b ev w = (w', Ok ()) /\ calm_step w w'.
Proof. unfold emit. destruct b; eexists; (split; [done|]); [|done]. split; [|done]. split; try done. by exists (rtp_demux (cbs (tp w))); destruct w as [[[? ? ? [] ? ? ?] ?] ? ?]. Qed.

Lemma activate_run i t w ts :
  t ∈ ts -> alive (cl_med (app w)) ts -> exists w', activate_receiver i t w = (w', Ok ()) /\ calm_step w w'.
Proof.
  intros Ht (j & Hj & Hs)%(alive_elem _ _ _ Ht). unfold activate_receiver, rtc_rtp_receiver_activate. rewrite Hj.
  pose proof Hs as [y Hy]. rewrite st_bind_eq. unfold ask_med, ask_recv, MediaSession.deref. rewrite Hy. cbn [mbind res_bind].
  destruct (RtpStream.rtc_rtp_recv_stream_is_active y); [by exists w|].
  destruct (upd_recv_run j (fun x => RtpStream.rtc_rtp_recv_stream_set_active x true) w Hs) as (w1 & E1 & H1).
  rewrite (st_bind_run _ _ _ _ _ E1), st_bind_eq. cbn [rd_pc].
  destruct (emit_calm (on_track (pcbs (pc (app w1)))) (EvTrack i) w1) as (w2 & E2 & H2). exists w2. split; [done|]. by etrans.
Qed.

Lemma activate_all_run ts w :
  alive (cl_med (app w)) ts ->
  exists w', st_each (fun it => activate_receiver it.1 it.2) (imap pair ts) w = (w', Ok ()) /\ calm_step w w'.
Proof.
  intros Ha. apply each_run; [done|]. intros [i t] w1 Hit H1. cbn [fst snd].
  assert (t ∈ ts) as Ht. { apply elem_of_lookup_imap in Hit as (k & t' & [= -> ->] & Hk). by eapply list_elem_of_lookup_2. }
  destruct (activate_run i t w1 ts Ht) as (w2 & E & H2); [eapply alive_step; [apply H1|done]|]. exists w2. split; [done|]. by etrans.
Qed.

Lemma set_mids_run ts w :
  alive (cl_med (app w)) ts ->
  exists w', st_each (fun t => on_med (upd_recv (r_stream (receiver t))
                 (fun x => RtpStream.rtc_rtp_recv_stream_set_mid x (Some (t_mid t))))) ts w = (w', Ok ()) /\ calm_step w w'.
Proof.
  intros Ha. apply each_run; [done|]. intros t w1 Ht H1.
  destruct (alive_elem _ _ t Ht (alive_step w w1 ts (proj1 H1) Ha)) as (j & -> & Hs).
  destruct (upd_recv_run j (fun x => RtpStream.rtc_rtp_recv_stream_set_mid x (Some (t_mid t))) w1 Hs) as (w2 & E & H2).
  exists w2. split; [done|]. by etrans.
Qed.

Lemma negotiate_mid_run ms w : exists w', negotiate_mid ms w = (w', Ok ()) /\ calm_step w w'.
Proof.
  unfold negotiate_mid. destruct (_ =? 0); [by exists w|]. eexists. split; [done|]. split; [|by destruct w].
  split; try done; cbn; unfold MediaSession.rtc_media_session_set_mid_ext_id.
  - exists (rtp_demux (cbs (tp w))). by destruct w as [[[? ? ? [] ? ? ?] ?] ? ?].
  - by destruct (MediaSession.ready (MediaSession.session (cl_med (app w)))) eqn:E.
  - by destruct (MediaSession.ready (MediaSession.session (cl_med (app w)))).
Qed.

(** ** The routes of inbound packets *)

(** the routes are [r], in a table of at most [c] slots *)
Definition routes w (r : gmap Z Z) (c : Z) : Prop :=
  let dm := rtp_demux (cbs (tp w)) in
  RtpDemux.ready dm = true /\ U32Map.u32_repr (RtpDemux.by_ssrc dm) (Some <$> r) /\ U32Map.cap (RtpDemux.by_ssrc dm) <= c.

Lemma map_bind (m : U32Map.rtc_u32_map_t (option Z)) g k v c :
  U32Map.u32_repr m g -> U32Map.cap m <= c -> 16 <= c <= 2 ^ 58 ->
  exists m', U32Map.rtc_u32_map_set None true k v m = (m', Ok ()) /\ U32Map.u32_repr m' (<[k := v]> g) /\ U32Map.cap m' <= 3 * c.
Proof.
  intros Hm Hc Hb. destruct (U32Map.set_spec None m g true k v Hm) as (m' & [(E & Hm' & _ & Hcap)|(_ & _ & _ & [?|?])]); [|done|lia].
  exists m'. split; [done|]. split; [done|]. assert (U32Map.len m + U32Map.tombstones m <= c); [|lia].
  destruct Hm as [[-> _]|[]]; [cbn; lia|]. lia.
Qed.

Lemma bind_rtp_run w r c sc j :
  routes w r c -> 16 <= c <= 2 ^ 58 ->
  exists q, rtc_transport_bind_rtp true sc j (lnk w) = (q, Ok ()) /\ q.2 = lis w /\
    (exists dm, q.1 = with_cbs (tp w) (cbs_set_demux (cbs (tp w)) dm)) /\
    forall k a, routes (World q k a) (<[sc := j]> r) (3 * c).
Proof.
  intros (Hr & Hm & Hc) Hb. unfold rtc_transport_bind_rtp, on_demux, zoom, RtpDemux.rtc_rtp_demux_bind. rewrite st_bind_eq. cbn [get].
  change (lnk w).1 with (tp w). rewrite Hr. unfold RtpDemux.on_map.
  destruct (map_bind _ _ sc (Some j) c Hm Hc Hb) as (m' & E & Hm' & Hc'). change (map_set true sc (Some j)) with (U32Map.rtc_u32_map_set None true sc (Some j)).
  rewrite E. eexists. split; [done|]. split; [done|]. split; [by eexists|]. intros k a. split; [done|]. rewrite fmap_insert. done.
Qed.

(** the stream a section is received by *)
Definition target (ts : list rtc_rtp_transceiver) (m : Sdp.rtc_sdp_media_t) : option Z :=
  t ← List.find (fun t => t_mid_index t =? Sdp.mid_index m) ts; r_stream (receiver t).

Definition bind_one (ts : list rtc_rtp_transceiver) (r : gmap Z Z) (m : Sdp.rtc_sdp_media_t) : gmap Z Z :=
  match target ts m with Some j => <[Sdp.ssrc m := j]> r | None => r end.

Lemma bind_section_run e i m w r c :
  a_bind e i = true -> 0 < Sdp.ssrc m -> routes w r c -> 16 <= c <= 2 ^ 58 ->
  alive (cl_med (app w)) (transceivers (pc (app w))) -> MediaSession.ready (MediaSession.session (cl_med (app w))) = true ->
  MediaSession.has_transport (MediaSession.session (cl_med (app w))) = true ->
  exists w', bind_section e i m w = (w', Ok ()) /\ media_step w w' /\ routes w' (bind_one (transceivers (pc (app w))) r m) (3 * c).
Proof.
  intros Ha Hm Hr Hb Hal Hrd Htr. unfold bind_section, bind_one, target. rewrite st_bind_eq. cbn [rd_pc].
  rewrite (proj2 (Z.eqb_neq _ 0)) by lia.
  assert (routes w r (3 * c)) as Hsame by (destruct Hr as (? & ? & ?); split_and!; [done..|lia]).
  destruct (List.find _ _) as [t|] eqn:Ef; cbn [mbind option_bind]; [|by exists w].
  apply List.find_some in Ef as [Ht%list_elem_of_In _]. destruct (alive_elem _ _ t Ht Hal) as (j & Hj & y & Hy). rewrite Hj.
  unfold on_session, MediaSession.rtc_media_session_bind_receiver. cbn [MediaSession.med MediaSession.tr MediaSession.wk].
  rewrite Hrd. unfold MediaSession.deref. rewrite Hy. cbn [negb mbind res_bind MediaSession.session MediaSession.with_receiver]. rewrite Htr, Ha.
  destruct (bind_rtp_run w r c (Sdp.ssrc m) j Hr Hb) as (q & E & El & (dm & Et) & Hq).
  change (MediaSession.transport_bind_rtp true (Sdp.ssrc m) j (lnk w)) with (rtc_transport_bind_rtp true (Sdp.ssrc m) j (lnk w)). rewrite E.
  eexists. split; [done|]. split; [|apply Hq]. split; try done; [by exists dm|].
  cbn. intros j' Hj'. destruct (decide (j = j')) as [->|]; [by rewrite lookup_insert_eq|by rewrite lookup_insert_ne].
Qed.

Lemma bind_sections_run e ims : forall w r c,
  (forall i, a_bind e i = true) -> Forall (fun im : Z * Sdp.rtc_sdp_media_t => 0 < Sdp.ssrc im.2) ims -> routes w r c ->
  16 <= c -> c * 3 ^ blen ims <= 2 ^ 58 ->
  alive (cl_med (app w)) (transceivers (pc (app w))) -> MediaSession.ready (MediaSession.session (cl_med (app w))) = true ->
  MediaSession.has_transport (MediaSession.session (cl_med (app w))) = true ->
  exists w', st_each (fun im => bind_section e im.1 im.2) ims w = (w', Ok ()) /\ media_step w w' /\
    routes w' (foldl (bind_one (transceivers (pc (app w)))) r ims.*2) (c * 3 ^ blen ims).
Proof.
  induction ims as [|[i m] ims IH]; intros w r c Ha Hm Hr Hc Hb Hal Hrd Htr; cbn [st_each].
  { exists w. split; [done|]. split; [done|]. rewrite blen_nil. cbn. by rewrite Z.mul_1_r. }
  apply Forall_cons_1 in Hm as [Hm Hms]. pose proof (blen_nonneg ims). rewrite blen_cons, Z.add_comm, Z.pow_add_r in * by lia. change (3 ^ 1) with 3 in *.
  pose proof (Z.pow_pos_nonneg 3 (blen ims)) as Hpow.
  destruct (bind_section_run e i m w r c) as (w1 & E1 & Hs1 & Hr1); [done..|nia|done|done|done|].
  cbn [fst snd]. rewrite (st_bind_run _ _ _ _ _ E1). pose proof Hs1 as []. rewrite <-mst_pc0 in Hal.
  destruct (IH w1 _ (3 * c) Ha Hms Hr1) as (w2 & E2 & H2 & Hr2); [lia|nia|by eapply alive_step|congruence|congruence|].
  exists w2. split; [done|]. split; [by etrans|]. rewrite <-mst_pc0. cbn [fmap list_fmap foldl snd]. rewrite mst_pc0 in *.
  by replace (c * (3 ^ blen ims * 3)) with (3 * c * 3 ^ blen ims) by ring.
Qed.

Lemma bound_other ts ms : forall r s, s ∉ Sdp.ssrc <$> ms -> foldl (bind_one ts) r ms !! s = r !! s.
Proof.
  induction ms as [|m ms IH]; intros r s Hs; [done|]. cbn [foldl fmap list_fmap] in *. apply not_elem_of_cons in Hs as [Hne Hs].
  rewrite IH by done. unfold bind_one. destruct (target ts m); [by rewrite lookup_insert_ne|done].
Qed.

Lemma bound_section ts ms : forall r m j,
  NoDup (Sdp.ssrc <$> ms) -> m ∈ ms -> target ts m = Some j -> foldl (bind_one ts) r ms !! Sdp.ssrc m = Some j.
Proof.
  induction ms as [|m0 ms IH]; intros r m j Hn Hm Ht; [by apply elem_of_nil in Hm|]. cbn [foldl fmap list_fmap] in *.
  apply NoDup_cons in Hn as [H0 Hn]. apply elem_of_cons in Hm as [->|Hm]; [|by apply IH].
  rewrite bound_other by done. unfold bind_one. rewrite Ht. by rewrite lookup_insert_eq.
Qed.

(** ** A remote description is applied *)

Lemma negotiate_twcc_run e x ms w :
  Sdp.is_av x = true -> Sdp.extmaps x = the_exts -> enable_twcc (conf (tp w)) = false ->
  alive (cl_med (app w)) (transceivers (pc (app w))) ->
  negotiate_twcc e (x :: ms) w = (set_app w (with_pc (app w) (pc_twcc 5 (pc (app w)))), Ok ()).
Proof.
  intros Hx He Hc Hal. unfold negotiate_twcc.
  assert (negotiated RTC_EXT_URI_TRANSPORT_CC (x :: ms) = 5) as ->.
  { cbn [negotiated]. rewrite Hx. unfold Sdp.rtc_sdp_media_find_extmap_id. by rewrite He. }
  cbn [Z.eqb]. rewrite st_bind_eq. unfold upd_pc at 1. rewrite st_bind_eq. cbn [rd_pc]. set (w1 := set_app w _).
  assert (exists sc, first_active_ssrc (transceivers (pc (app w1))) (cl_med (app w1)) = Ok sc) as [sc E].
  { change (alive (cl_med (app w1)) (transceivers (pc (app w1)))) in Hal. induction Hal as [|t ts (i & _ & Hi & [y Hy] & _) _ [sc IH]]; [by exists 0|].
    cbn [first_active_ssrc]. unfold ask_send, MediaSession.deref. rewrite Hi, Hy. cbn [mbind res_bind].
    destruct (RtpStream.rtc_rtp_send_stream_is_active y); eauto. }
  rewrite st_bind_eq. unfold ask_med. rewrite E. destruct (runtime_transport _); [|done]. unfold void. rewrite st_bind_eq.
  unfold st_attempt, rtc_transport_enable_twcc. rewrite st_bind_eq. cbn [get]. rewrite st_bind_eq. cbn [lift].
  change (conf (tp w1)) with (conf (tp w)). rewrite Hc. done.
Qed.

(** what a peer needs to take a description *)
Record receptive w (r : gmap Z Z) : Prop := {
  re_idle : connect_started (pc (app w)) = false;
  re_dtls : dtls_ready (w_dtls w);
  re_ready : MediaSession.ready (MediaSession.session (cl_med (app w))) = true;
  re_session : MediaSession.has_transport (MediaSession.session (cl_med (app w))) = true;
  re_twcc : enable_twcc (conf (tp w)) = false;
  re_routes : routes w r (2 ^ 40);
  re_ice : new_ice (lnk w);
  re_connect : can_connect w
}.

(** allocations and OpenSSL succeed; random numbers are bytes *)
Record env_good (e : peer_env (X := X)) : Prop := {
  eg_txn : txn_ok (te e);
  eg_al : allocs_ok (al (te e));
  eg_fill : a_fill e = true;
  eg_parse : a_parse e = SdpSpec.ok_alloc;
  eg_bind : forall i, a_bind e i = true;
  eg_setup : setup_good (dtls_setup e)
}.

(** [w1]: [w] after the description [desc], read as [d], of a peer with
    credentials [u], [pw] and address [a] *)
Record taken w w1 desc d (a : Stun.rtc_addr_t) (rl : rtc_transport_dtls_role_t) (r : gmap Z Z) : Prop := {
  ta_pc : let p := pc (app w) in exists fp, pc (app w1) = Pc (rt_fingerprint fp (rt p)) (transceivers p)
    (Descriptions (local_desc (descs p)) (Some desc) (local_type (descs p)) (local_sdp (descs p)) d)
    (with_signaling (remote_signaling (desc_type desc) (signaling_state (states p))) (states p)) (pcbs p) (connect_started p) 5;
  ta_lis : lis w1 = lis w;
  ta_conf : conf (tp w1) = conf (tp w);
  ta_closed : closed (tp w1) = closed (tp w);
  ta_cc : cc (tp w1) = cc (tp w);
  ta_ice : ice (tp w1) = ice_set_candidate (ice_set_remote (ice (tp w)) (Sdp.ice_ufrag d) (Sdp.ice_pwd d)) a true;
  ta_role : Dtls.role (w_dtls w1) = transport_internal_dtls_role rl;
  ta_fingerprint : Dtls.local_fingerprint (w_dtls w1) = Dtls.local_fingerprint (w_dtls w);
  ta_send : MediaSession.send_store (cl_med (app w1)) = MediaSession.send_store (cl_med (app w));
  ta_live : forall t sc j, live_track (cl_med (app w)) t sc j -> live_track (cl_med (app w1)) t sc j;
  ta_routes : routes w1 (foldl (bind_one (transceivers (pc (app w)))) r (Sdp.media d)) (2 ^ 58)
}.

(** the streams' part of a remote description *)
Lemma remote_streams_run e w r x ms :
  alive (cl_med (app w)) (transceivers (pc (app w))) -> MediaSession.ready (MediaSession.session (cl_med (app w))) = true ->
  MediaSession.has_transport (MediaSession.session (cl_med (app w))) = true -> enable_twcc (conf (tp w)) = false ->
  routes w r (2 ^ 40) -> (forall i, a_bind e i = true) -> Forall (fun m => 0 < Sdp.ssrc m) (x :: ms) -> blen (x :: ms) <= 4 ->
  Sdp.is_av x = true -> Sdp.extmaps x = the_exts ->
  exists w1, (_ ← st_each (fun it => activate_receiver it.1 it.2) (imap pair (transceivers (pc (app w))));
    _ ← st_each (fun im => bind_section e im.1 im.2) (imap (fun i m => (Z.of_nat i, m)) (x :: ms));
    _ ← negotiate_mid (x :: ms);
    _ ← st_each (fun t => on_med (upd_recv (r_stream (receiver t))
                 (fun x => RtpStream.rtc_rtp_recv_stream_set_mid x (Some (t_mid t))))) (transceivers (pc (app w)));
    _ ← negotiate_twcc e (x :: ms);
    peer_try_connect self e) w = peer_try_connect self e (set_app w1 (with_pc (app w1) (pc_twcc 5 (pc (app w1))))) /\
    media_step w w1 /\ routes w1 (foldl (bind_one (transceivers (pc (app w)))) r (x :: ms)) (2 ^ 58).
Proof.
  intros Hal Hrd Hht Htw Hr Ha Hpos Hn Hav Hex. set (ts := transceivers (pc (app w))) in *.
  destruct (activate_all_run ts w Hal) as (w1 & E1 & S1 & L1). rewrite (st_bind_run _ _ _ _ _ E1). pose proof S1 as [P1 _ _ _ _ R1 T1].
  assert ((imap (fun i m => (Z.of_nat i, m)) (x :: ms)).*2 = x :: ms) as Esnd.
  { apply list_eq. intros k. rewrite list_lookup_fmap, list_lookup_imap. by destruct ((x :: ms) !! k). }
  set (ims := imap _ (x :: ms)) in *. assert (blen ims = blen (x :: ms)) as Eb by (unfold ims, blen; by rewrite length_imap).
  destruct (bind_sections_run e ims w1 r (2 ^ 40)) as (w2 & E2 & S2 & R2);
    [done| |unfold routes, tp; by rewrite L1|lia| |rewrite P1; by eapply alive_step|congruence|congruence|].
  { apply Forall_forall. intros im Him. rewrite Forall_forall in Hpos. apply Hpos. rewrite <-Esnd. by apply list_elem_of_fmap_2. }
  { rewrite Eb. assert (3 ^ blen (x :: ms) <= 3 ^ 4) by (apply Z.pow_le_mono_r; lia). lia. }
  rewrite (st_bind_run _ _ _ _ _ E2). destruct (negotiate_mid_run (x :: ms) w2) as (w3 & E3 & S3 & L3). rewrite (st_bind_run _ _ _ _ _ E3).
  assert (media_step w w3) as S13 by (etrans; [exact S1|etrans; [exact S2|exact S3]]).
  destruct (set_mids_run ts w3) as (w4 & E4 & S4 & L4); [by eapply alive_step|]. rewrite (st_bind_run _ _ _ _ _ E4).
  assert (media_step w w4) as S14 by by etrans. pose proof S14 as [P4 _ [dm T4] _ _ _ _].
  rewrite (st_bind_run _ _ _ _ _ (negotiate_twcc_run e x ms w4 Hav Hex ltac:(by rewrite T4) ltac:(rewrite P4; by eapply alive_step))).
  exists w4. split; [done|]. split; [done|]. rewrite Esnd, P1 in R2. unfold routes, tp in *. rewrite L4, L3.
  destruct R2 as (? & ? & Hcap). split_and!; [done..|]. rewrite Eb in Hcap.
  assert (3 ^ blen (x :: ms) <= 3 ^ 4) by (apply Z.pow_le_mono_r; lia). lia.
Qed.

Lemma inherit_last cs c :
  Forall Candidate.wf_candidate cs -> last cs = Some c ->
  exists c', last (SdpSpec.inherit cs) = Some c' /\ Candidate.addr c' = Candidate.addr c.
Proof.
  intros Hc Hl. destruct (inherit_reachable cs Hc) as [_ E]. apply (f_equal last) in E. rewrite !fmap_last, Hl in E.
  destruct (last (SdpSpec.inherit cs)) as [c'|]; [|done]. injection E as E. eauto.
Qed.

Lemma sections_read wo role cso trackso d :
  reads_back wo role cso trackso d -> describable wo cso trackso ->
  exists x ms, Sdp.media d = x :: ms /\ Sdp.is_av x = true /\ Sdp.extmaps x = the_exts /\ blen (x :: ms) <= 4 /\
    Forall (fun m => 0 < Sdp.ssrc m) (x :: ms).
Proof.
  intros [Hs _ _ _ _ _] [_ _ _ Ht Hn _ _ _]. apply Forall2_length in Hs as Hl. apply Forall2_length in Ht as Hl'.
  rewrite length_zip in Hl. unfold blen in Hn. destruct (Sdp.media d) as [|x ms]; [cbn in Hl; lia|].
  exists x, ms. split; [done|].
  assert (Forall (fun m => Sdp.is_av m = true /\ Sdp.extmaps m = the_exts /\ 0 < Sdp.ssrc m) (x :: ms)) as Hall.
  { clear Hl Hl' Hn. revert Hs. generalize (x :: ms). induction Ht as [|t [sc j] ts tr Htr _ IH]; cbn [zip zip_with]; intros l Hs.
    - apply Forall2_nil_inv_r in Hs as ->. constructor.
    - apply Forall2_cons_inv_r in Hs as (y & l' & (H1 & _ & H3 & H4 & _) & Hs & ->). constructor; [|by apply IH].
      destruct Htr as (_ & _ & ? & ? & ? & _ & _ & _ & Hsc & _). cbn [fst snd] in *. rewrite H3. split; [done|]. split; [done|lia]. }
  inversion Hall as [|? ? (? & ? & _) _]; subst. split; [done|]. split; [done|]. split.
  - unfold blen. cbn [length] in *. change Sdp.SDP_MAX_MEDIA with 4 in Hn. lia.
  - eapply Forall_impl; [exact Hall|]. naive_solver.
Qed.

Lemma set_remote_run e w desc d cs tracks r wo role cso trackso c rl :
  describable w cs tracks -> receptive w r -> env_good e ->
  Sdp.rtc_sdp_parse SdpSpec.ok_alloc (desc_sdp desc) (sdp_len desc) Sdp.sdp_zero = (d, Ok ()) ->
  reads_back wo role cso trackso d -> describable wo cso trackso ->
  ice_ufrag (ice (tp wo)) <> [] -> ice_pwd (ice (tp wo)) <> [] -> last cso = Some c ->
  decided (local_type (descs (pc (app w)))) role = Some rl ->
  exists w1, rtc_peer_connection_set_remote_desc self e desc w = peer_try_connect self e w1 /\ taken w w1 desc d (Candidate.addr c) rl r.
Proof.
  intros Hd Hre He Hpar Hrb Hdo Hu Hp Hl Hdec. destruct (sections_read _ _ _ _ _ Hrb Hdo) as (x & ms & Em & Hav & Hex & Hn & Hpos).
  pose proof Hd as [_ Htr _ Hlv _ _ _ _]. pose proof Hre as [Hid Hdt Hrd Hht Htw Hro _ _]. pose proof He as [_ _ _ Hpa Hbi Hse].
  pose proof Hrb as [_ Eu Ep _ Er Hv]. destruct Hdo as [_ _ [_ _ _ Hwf] _ _ _ _ _].
  destruct (inherit_last cso c Hwf Hl) as (c' & Hl' & Ea). destruct (inherit_reachable cso Hwf) as [Hrch _].
  unfold rtc_peer_connection_set_remote_desc. rewrite st_bind_eq. cbn [rd_pc]. set (p := pc (app w)) in *.
  rewrite (st_bind_lift (fail_if (connect_started p) RTC_ERR_INVALID) _ _ ()) by by rewrite Hid.
  rewrite st_bind_eq. unfold upd_descs at 1, upd_pc at 1. fold p. rewrite Hpa, Hpar.
  rewrite (st_bind_lift (Ok d) _ _ d eq_refl), st_bind_eq. unfold upd_descs at 1, upd_pc at 1.
  change (set_app (set_app w ?y) ?z) with (repc w (pc_descs (Descriptions (local_desc (descs p)) (Some desc) (local_type (descs p)) (local_sdp (descs p)) d) p) (cl_log (app w))).
  set (p1 := pc_descs _ p). set (w1 := repc w p1 (cl_log (app w))).
  destruct (hear_run e w1 d (SdpSpec.inherit cso) c' rl) as (y & E1 & Hy & Hyr & Hyf); rewrite ?Eu, ?Ep, ?Er; try done.
  rewrite (st_bind_run _ _ _ _ _ E1). set (w2 := hear _ _ _ _ _). set (p2 := pc (app w2)).
  assert (exists l, (match desc_type desc with
       | RTC_SDP_OFFER => peer_set_signaling RTC_SIGNALING_HAVE_REMOTE_OFFER
       | RTC_SDP_ANSWER => if bool_decide (signaling_state (states p) = RTC_SIGNALING_HAVE_LOCAL_OFFER)
                           then peer_set_signaling RTC_SIGNALING_STABLE else mret ()
       | RTC_SDP_PRANSWER => mret ()
       end) w2 = (repc w2 (pc_states (with_signaling (remote_signaling (desc_type desc) (signaling_state (states p))) (states p)) p2) l, Ok ())) as (l & E2).
  { destruct (desc_type desc).
    - exact (signaling_run true _ _ w2 p2 (cl_log (app w)) eq_refl).
    - exact (signaling_run (bool_decide _) _ _ w2 p2 (cl_log (app w)) eq_refl).
    - exact (signaling_run false RTC_SIGNALING_STABLE _ w2 p2 (cl_log (app w)) eq_refl). }
  rewrite (st_bind_run _ _ _ _ _ E2). set (w3 := repc w2 _ l). rewrite Em.
  destruct (remote_streams_run e w3 r x ms) as (w4 & E4 & S4 & R4); try done; [exact (live_alive _ _ _ Hlv)|].
  eexists. split; [exact E4|]. pose proof S4 as [P4 L4 [dm T4] M4 _ _ _].
  assert (forall q, tp (set_app w4 q) = tp w4) as Etp by done.
  split; rewrite ?Etp, ?T4; try done.
  - cbn [set_app with_pc app pc]. rewrite P4. eexists. reflexivity.
  - cbn. by rewrite Eu, Ep, Ea.
  - unfold w_dtls. by rewrite Etp, T4.
  - unfold w_dtls. by rewrite Etp, T4.
  - intros t sc j Hj. eapply live_step in S4; [exact S4|done].
  - by rewrite Em.
Qed.

(** ** The exchange *)

(** transceivers are numbered as they are added *)
Definition indexed (ts : list rtc_rtp_transceiver) : Prop := forall k t, ts !! k = Some t -> t_mid_index t = Z.of_nat k.

Lemma find_numbered ts k : forall n,
  (forall i t, ts !! i = Some t -> t_mid_index t = Z.of_nat (n + i)) ->
  List.find (fun t => t_mid_index t =? Z.of_nat (n + k)) ts = ts !! k.
Proof.
  revert k. induction ts as [|t ts IH]; intros k n Hi; [by destruct k|]. cbn [List.find].
  rewrite (Hi 0%nat t eq_refl), Nat.add_0_r. destruct k as [|k]; [by rewrite Nat.add_0_r, Z.eqb_refl|].
  rewrite (proj2 (Z.eqb_neq _ _)) by lia. replace (n + S k)%nat with (S n + k)%nat by lia. rewrite IH; [done|].
  intros i u Hu. rewrite (Hi (S i) u Hu). lia.
Qed.

(** every section of the other peer is received by the transceiver of its number *)
Lemma sections_bound w cs tracks wo role cso trackso d r k sc j s' j' :
  describable w cs tracks -> indexed (transceivers (pc (app w))) -> indexed (transceivers (pc (app wo))) ->
  describable wo cso trackso -> reads_back wo role cso trackso d -> NoDup trackso.*1 ->
  trackso !! k = Some (sc, j') -> tracks !! k = Some (s', j) ->
  foldl (bind_one (transceivers (pc (app w)))) r (Sdp.media d) !! sc = Some j.
Proof.
  intros [_ _ _ Ht _ _ _ _] Hix Hixo [_ _ _ Hto _ _ _ _] [Hs _ _ _ _ _] Hnd Hk Hj.
  assert (Sdp.ssrc <$> Sdp.media d = trackso.*1) as Essrc.
  { clear -Hs Hto. revert Hs. generalize (Sdp.media d). induction Hto as [|t [a b] ts tr _ _ IH]; cbn [zip zip_with]; intros l Hs.
    - by apply Forall2_nil_inv_r in Hs as ->.
    - apply Forall2_cons_inv_r in Hs as (y & l' & (_ & _ & H3 & _) & Hs & ->). cbn [fmap list_fmap fst]. by rewrite H3, (IH _ Hs). }
  destruct (Forall2_lookup_r _ _ _ _ _ Ht Hj) as (t & Htk & (_ & _ & _ & _ & _ & _ & _ & _ & _ & Hr & _)).
  destruct (Forall2_lookup_r _ _ _ _ _ Hto Hk) as (u & Huk & _).
  assert (zip (transceivers (pc (app wo))) trackso !! k = Some (u, (sc, j'))) as Hz by by rewrite lookup_zip_with, Huk, Hk.
  destruct (Forall2_lookup_r _ _ _ _ _ Hs Hz) as (m & Hm & (_ & Hmid & Hsc & _)). cbn [fst snd] in *. rewrite <-Hsc.
  apply bound_section; [by rewrite Essrc|by eapply list_elem_of_lookup_2|]. unfold target.
  rewrite Hmid, (Hixo k u Huk). pose proof (find_numbered _ k 0 Hix) as Ef. cbn [Nat.add] in Ef. rewrite Ef, Htk. exact Hr.
Qed.

Lemma routes_bound w r c sc : routes w r c -> rtc_transport_rtp_bound (lnk w) sc = Ok (r !! sc).
Proof.
  intros (Hr & Hm & _). unfold rtc_transport_rtp_bound, RtpDemux.rtc_rtp_demux_get. change (lnk w).1 with (tp w). rewrite Hr.
  apply (RtpDemux.map_get_bound U32Map.u32_repr U32Map.u32_load (spec := U32Map.u32_map_spec None)). done.
Qed.

(** a peer with transceivers that has not negotiated *)
Record fresh w cs (c : Candidate.rtc_ice_candidate_t) tracks : Prop := {
  fr_describable : describable w cs tracks;
  fr_receptive : exists r, receptive w r;
  fr_indexed : indexed (transceivers (pc (app w)));
  fr_ssrcs : NoDup tracks.*1;
  fr_ufrag : ice_ufrag (ice (tp w)) <> [];
  fr_pwd : ice_pwd (ice (tp w)) <> [];
  fr_last : last cs = Some c;
  fr_signaling : signaling_state (states (pc (app w))) = RTC_SIGNALING_STABLE;
  fr_local : local_desc (descs (pc (app w))) = None;
  fr_remote : remote_desc (descs (pc (app w))) = None;
  fr_type : local_type (descs (pc (app w))) = RTC_SDP_OFFER;
  fr_twcc : twcc_enabled (cc (tp w)) = false
}.

(** the peer [w], now [w'], is connecting to the peer [wo], whose last candidate
    is [c] *)
Record paired (e : peer_env (X := X)) w w' (tracks : list (Z * Z)) (wo : pworld) (c : Candidate.rtc_ice_candidate_t)
    (trackso : list (Z * Z)) (rl : Dtls.rtc_dtls_role_t) : Prop := {
  pd_states : signaling_state (states (pc (app w'))) = RTC_SIGNALING_STABLE /\
    connection_state (states (pc (app w'))) = RTC_CONNECTION_CONNECTING /\
    ice_connection_state (states (pc (app w'))) = RTC_ICE_CONNECTION_CHECKING /\ connect_started (pc (app w')) = true;
  pd_check : exists check msg,
    sends (io (lis w')) = sends (io (lis w)) ++ [Datagram (addr_map_v4 (Candidate.addr c)) None check] /\
    Stun.rtc_stun_parse check = Ok msg /\ Stun.type msg = Stun.STUN_BINDING_REQUEST /\
    Stun.rtc_stun_find_attr msg Stun.STUN_ATTR_USERNAME = Ok (Some (check_username (ice (tp w')))) /\
    Stun.txn_id msg = ice_txn_id (ice (tp w')) /\ ice_txn_registered (ice (tp w')) = true;
  pd_timers : exists k1 k2, wk_add_timer (u64 (now_ms (te e) + 250)) ICE_TIMER k1 = (k2, Ok (ice_timer (ice (tp w')))) /\
    wk_add_timer (u64 (now_ms (te e))) CONNECT_TIMER k2 = (wk w', Ok (runtime_connect_timer (rt (pc (app w')))));
  pd_role : Dtls.role (w_dtls w') = rl;
  pd_ice : remote_ice_valid (ice (tp w')) = true /\ remote_ufrag (ice (tp w')) = ice_ufrag (ice (tp wo)) /\
           remote_pwd (ice (tp w')) = ice_pwd (ice (tp wo));
  pd_candidate : remote_candidate_valid (ice (tp w')) = true /\ remote_candidate (ice (tp w')) = Candidate.addr c;
  pd_routes : forall k sc s' j j', trackso !! k = Some (sc, j') -> tracks !! k = Some (s', j) ->
    rtc_transport_rtp_bound (lnk w') sc = Ok (Some j);
  pd_twcc : pc_twcc_ext_id (pc (app w')) = 5 /\ twcc_enabled (cc (tp w')) = false
}.

(** the last step of either side *)
Lemma paired_after w1 w2 w' cs tracks r wo role cso c trackso desc d rl e dl :
  describable w1 cs tracks -> indexed (transceivers (pc (app w1))) -> receptive w1 r -> twcc_enabled (cc (tp w1)) = false ->
  describable wo cso trackso -> indexed (transceivers (pc (app wo))) -> NoDup trackso.*1 -> reads_back wo role cso trackso d ->
  taken w1 w2 desc d (Candidate.addr c) rl r -> env_good e ->
  lnk w' = lnk w2 -> remote_desc (descs (pc (app w'))) = remote_desc (descs (pc (app w2))) ->
  local_desc (descs (pc (app w'))) = Some dl -> signaling_state (states (pc (app w'))) = RTC_SIGNALING_STABLE ->
  rt (pc (app w')) = rt (pc (app w2)) -> connect_started (pc (app w')) = false -> pc_twcc_ext_id (pc (app w')) = pc_twcc_ext_id (pc (app w2)) ->
  exists w3, peer_try_connect self e w' = (w3, Ok ()) /\ paired e w1 w3 tracks wo c trackso (transport_internal_dtls_role rl).
Proof.
  intros Hd Hix Hre Htw Hdo Hixo Hnd Hrb [(fp & Epc) El Ecf Ecl Ecc Ei Ero Efp Esd Hlv Hro] Ht Lw Erd Eld Esg Ert Ecs Etw.
  pose proof Hd as [Hrt Htr _ _ _ _ _ _].
  assert (Etp : tp w' = tp w2) by (unfold tp; by rewrite Lw). assert (Elis : lis w' = lis w1) by (unfold lis at 1; rewrite Lw; exact El).
  destruct (try_connect_run e w' dl desc) as (w3 & E3 & [(w4 & [Hck (tm & Ek & Et)] & L4 & K4) Hst Hcs [_ _ _ _ Hsg Htwc]]); try done.
  - by rewrite Erd, Epc.
  - by rewrite Ert, Epc.
  - by rewrite Ert, Epc.
  - destruct (re_ice _ _ Hre) as (((m & Hm) & Hb & Hz) & Hcnt). change (lnk w1).2 with (lis w1) in Hm.
    split; [split_and!|]; change (lnk w').1 with (tp w'); rewrite ?Etp, ?Ei; [|done..]. exists m. change (lnk w').2 with (lis w'). by rewrite Elis.
  - destruct (re_connect _ _ Hre). split; rewrite ?Elis, ?Etp, ?Ei, ?Ecf, ?Ecl; done.
  - by rewrite Etp, Ei.
  - by rewrite Etp, Ei.
  - apply Ht.
  - apply Ht.
  - exists w3. split; [done|]. unfold tp at 1 in Et. rewrite <-L4 in Et. change (lnk w3).1 with (tp w3) in Et.
    unfold lis at 1 in Hck. rewrite <-L4 in Hck. change (lnk w3).2 with (lis w3) in Hck.
    rewrite Etp in Et, Hck. rewrite Elis in Hck.
    pose proof Hrb as [_ Rbu Rbp _ _ _]. split; rewrite ?Hsg, ?Htwc, ?Etw; try done.
    + by destruct Hcs.
    + destruct Hck as (check & msg & H1 & H2 & H3 & H4 & H5). exists check, msg. rewrite Ei in H1. rewrite Et. by split_and!.
    + exists (wk w'), (wk w4). rewrite Et. by split.
    + unfold w_dtls. rewrite Et. exact Ero.
    + rewrite Et. cbn [with_ice ice ice_set_timer ice_set_count ice_set_txn]. cbn. rewrite Ei. cbn. by rewrite Rbu, Rbp.
    + rewrite Et. cbn. rewrite Ei. done.
    + intros k sc s' j j' Hk Hj. rewrite (routes_bound w3 (foldl (bind_one (transceivers (pc (app w1)))) r (Sdp.media d)) (2 ^ 58)).
      2: { unfold routes in *. rewrite Et. exact Hro. }
      f_equal. eapply (sections_bound w1 cs tracks wo role cso trackso); done.
    + rewrite Et, Epc. cbn. by rewrite Ecc.
Qed.

Lemma fill_sections_send (m m' : MediaSession.media) ts :
  MediaSession.send_store m' = MediaSession.send_store m -> fill_sections ts m' = fill_sections ts m.
Proof.
  intros E. induction ts as [|t ts IH]; [done|]. cbn [fill_sections]. rewrite IH.
  replace (rtc_rtp_transceiver_fill_sdp_media t m') with (rtc_rtp_transceiver_fill_sdp_media t m); [done|].
  unfold rtc_rtp_transceiver_fill_sdp_media, ask_send. by rewrite E.
Qed.

(** a peer that took a description still describes the same *)
Lemma taken_describable w w1 desc d a rl r cs tracks :
  taken w w1 desc d a rl r -> describable w cs tracks -> describable w1 cs tracks.
Proof.
  intros [(fp & Epc) El _ _ _ Ei _ Ef _ Hlv _] []. split; rewrite ?Epc, ?El, ?Ei, ?Ef; try done. cbn [transceivers].
  eapply Forall2_impl; [exact de_tracks0|]. intros t [sc j]. apply Hlv.
Qed.

Lemma taken_fits w w1 desc d a rl r role now cs :
  taken w w1 desc d a rl r -> fits w role now cs -> fits w1 role now cs.
Proof.
  intros [(fp & Epc) _ _ _ _ Ei _ Ef Es _ _] [Hl Hf]. split; [done|]. intros ms. rewrite (fill_sections_send _ _ _ Es), Epc. cbn [transceivers].
  intros Hms. unfold creds. rewrite Ei, Ef. by apply Hf.
Qed.

Lemma repc_describable w p l cs tracks :
  rt p = rt (pc (app w)) -> transceivers p = transceivers (pc (app w)) -> describable w cs tracks -> describable (repc w p l) cs tracks.
Proof. intros E1 E2 []. split; cbn [repc app pc cl_med]; rewrite ?E1, ?E2; done. Qed.

Lemma repc_receptive w p l r : connect_started p = connect_started (pc (app w)) -> receptive w r -> receptive (repc w p l) r.
Proof. intros E []. split; cbn [repc app pc cl_med]; rewrite ?E; try done. by destruct re_connect0. Qed.

(** the offerer up to its local description *)
Lemma offer_run e1 e2 w cs c tracks :
  fresh w cs c tracks -> fits w Sdp.RTC_SETUP_ACTPASS (now_ms (te e1)) cs -> env_good e1 ->
  exists w1 offer d p l, rtc_peer_connection_create_offer e1 w = (w1, Ok offer) /\ desc_type offer = RTC_SDP_OFFER /\
    rtc_peer_connection_set_local_desc self e2 offer w1 = (repc w p l, Ok ()) /\
    Sdp.rtc_sdp_parse SdpSpec.ok_alloc (desc_sdp offer) (sdp_len offer) Sdp.sdp_zero = (d, Ok ()) /\
    reads_back w Sdp.RTC_SETUP_ACTPASS cs tracks d /\
    rt p = rt (pc (app w)) /\ transceivers p = transceivers (pc (app w)) /\ connect_started p = connect_started (pc (app w)) /\
    local_desc (descs p) = Some offer /\ local_type (descs p) = RTC_SDP_OFFER /\
    signaling_state (states p) = RTC_SIGNALING_HAVE_LOCAL_OFFER.
Proof.
  intros [Hd [r Hre] _ _ _ _ _ _ _ Hrem _ _] Hf He. unfold rtc_peer_connection_create_offer.
  destruct (describe_peer_run RTC_SDP_OFFER _ e1 w cs tracks Hd Hf (eg_fill _ He)) as (d0 & offer & d & E & Hty & Hc & Hpar & Hrb).
  set (p1 := pc_descs _ _) in E. pose proof Hd as [Hrt _ [Hn _ _ _] _ _ _ _ _].
  destruct (set_local_run e2 (repc w p1 (cl_log (app w))) offer cs Hrt (re_idle _ _ Hre) Hc Hn) as (d1 & g & l & E2).
  eexists _, offer, d, _, l. split; [exact E|]. split; [done|]. split.
  { rewrite E2, try_connect_idle; [reflexivity|]. right. left. exact Hrem. }
  split; [done|]. split; [done|]. cbn. rewrite Hty. done.
Qed.

(** the answerer *)
Lemma answer_run e1 e2 e3 w cs c tracks wo cso co trackso offer d :
  fresh w cs c tracks -> fits w Sdp.RTC_SETUP_ACTIVE (now_ms (te e2)) cs -> env_good e1 -> env_good e2 -> env_good e3 ->
  fresh wo cso co trackso -> desc_type offer = RTC_SDP_OFFER ->
  Sdp.rtc_sdp_parse SdpSpec.ok_alloc (desc_sdp offer) (sdp_len offer) Sdp.sdp_zero = (d, Ok ()) ->
  reads_back wo Sdp.RTC_SETUP_ACTPASS cso trackso d ->
  exists w1 w2 w3 answer da, rtc_peer_connection_set_remote_desc self e1 offer w = (w1, Ok ()) /\
    rtc_peer_connection_create_answer e2 w1 = (w2, Ok answer) /\ desc_type answer = RTC_SDP_ANSWER /\
    rtc_peer_connection_set_local_desc self e3 answer w2 = (w3, Ok ()) /\
    Sdp.rtc_sdp_parse SdpSpec.ok_alloc (desc_sdp answer) (sdp_len answer) Sdp.sdp_zero = (da, Ok ()) /\
    reads_back w Sdp.RTC_SETUP_ACTIVE cs tracks da /\ paired e3 w w3 tracks wo co trackso Dtls.RTC_DTLS_ROLE_CLIENT.
Proof.
  intros [Hd [r Hre] Hix _ _ _ _ _ Hloc Hrem Hty Htw] Hf He1 He2 He3 [Hdo _ Hixo Hnd Huo Hpo Hlo _ _ _ _ _] Hoff Hpar Hrb.
  destruct (set_remote_run e1 w offer d cs tracks r wo Sdp.RTC_SETUP_ACTPASS cso trackso co RTC_TRANSPORT_DTLS_ROLE_CLIENT)
    as (w1 & E1 & Ht1); try done; [by rewrite Hty|].
  pose proof Ht1 as [(fp & Epc) El _ _ _ Ei _ Ef _ _ _]. rewrite try_connect_idle in E1 by (left; by rewrite Epc).
  pose proof (taken_describable _ _ _ _ _ _ _ _ _ Ht1 Hd) as Hd1.
  destruct (describe_peer_run RTC_SDP_ANSWER _ e2 w1 cs tracks Hd1 (taken_fits _ _ _ _ _ _ _ _ _ _ Ht1 Hf) (eg_fill _ He2))
    as (d0 & answer & da & E2 & Ha & Hc & Hpara & Hrba).
  set (p1 := pc_descs _ _) in E2. pose proof Hd1 as [Hrt _ [Hn _ _ _] _ _ _ _ _].
  assert (connect_started (pc (app w1)) = false) as Hid by (rewrite Epc; apply (re_idle _ _ Hre)).
  destruct (set_local_run e3 (repc w1 p1 (cl_log (app w1))) answer cs Hrt Hid Hc Hn) as (d1 & g & l & E3). cbn zeta in E3.
  set (w2 := repc (repc w1 p1 _) _ l) in E3.
  destruct (paired_after w w1 w2 cs tracks r wo Sdp.RTC_SETUP_ACTPASS cso co trackso offer d RTC_TRANSPORT_DTLS_ROLE_CLIENT e3 answer)
    as (w3 & E4 & Hp3); try done; [cbn; rewrite Ha, Epc; cbn; by rewrite Hoff|].
  exists w1. eexists. exists w3, answer, da. split; [done|]. split; [exact E2|]. split; [done|]. split; [by rewrite E3|]. split; [done|].
  split; [|done]. destruct Hrba as [Rs Ru Rp Rf Rr Rv]. rewrite Epc in Rs. rewrite Ei in Ru, Rp. rewrite Ef in Rf. by split.
Qed.
End Run.

(** Offer and answer: the offerer makes an offer and sets it, the answerer
    sets it, makes an answer and sets it, the offerer sets the answer *)
Section Exchange.
Context {X K : Type} {kern : Kernel} {evp : Srtp.Evp} {elaws : Srtp.EvpLaws} `{ilaws : InetLaws} {senv : Stun.StunEnv}.
Context {ossl : Dtls.OpenSsl X} {wkt : WorkerTimers K peer_timer} {tot : TimersTotal K peer_timer} {kacc : KernelAccepts}.
Abbreviation pworld := (Transport.world X K client).

Definition run {A} (f : st pworld A) (w : pworld) : res (pworld * A) :=
  match f w with (w', Ok a) => Ok (w', a) | (_, Err e) => Err e | (_, Fault) => Fault end.

Definition exchange (selfa selfb : Z) (ea eb : nat -> peer_env (X := X)) (a b : pworld) : res (pworld * pworld) :=
  '(a, offer) ← run (rtc_peer_connection_create_offer (ea 0%nat)) a;
  '(a, _) ← run (rtc_peer_connection_set_local_desc selfa (ea 1%nat) offer) a;
  '(b, _) ← run (rtc_peer_connection_set_remote_desc selfb (eb 0%nat) offer) b;
  '(b, answer) ← run (rtc_peer_connection_create_answer (eb 1%nat)) b;
  '(b, _) ← run (rtc_peer_connection_set_local_desc selfb (eb 2%nat) answer) b;
  '(a, _) ← run (rtc_peer_connection_set_remote_desc selfa (ea 2%nat) answer) a;
  Ok (a, b).

Lemma exchange_step {A} (f : st pworld A) w w' x : f w = (w', Ok x) -> run f w = Ok (w', x).
Proof. intros E. unfold run. by rewrite E. Qed.

(** C11: Two peers that have each added one to four transceivers and gathered
    candidates negotiate, when their allocations succeed and their sockets take
    datagrams: every call of the exchange succeeds; both end in the stable
    signaling state, connecting and checking: each has sent one Binding Request
    with both ufrags to the other's last candidate, waits for its answer, and
    has armed the timers for the next check and for the progress of the
    connection.  The DTLS roles are complementary; each knows the ICE
    credentials of the other and the address of its last candidate; the SSRC of
    each sender is bound, in the demux of the other peer, to the receive stream
    of the transceiver with the same number.  Transport-wide congestion control
    is negotiated (identifier 5) but stays disabled in both transports. *)
Theorem offer_answer selfa selfb (ea eb : nat -> peer_env (X := X)) (a b : pworld) csa ca tra csb cb trb :
  fresh a csa ca tra -> fresh b csb cb trb -> (forall n, env_good (ea n)) -> (forall n, env_good (eb n)) ->
  fits a Sdp.RTC_SETUP_ACTPASS (now_ms (te (ea 0%nat))) csa -> fits b Sdp.RTC_SETUP_ACTIVE (now_ms (te (eb 1%nat))) csb ->
  exists a' b', exchange selfa selfb ea eb a b = Ok (a', b') /\
    paired (ea 2%nat) a a' tra b cb trb Dtls.RTC_DTLS_ROLE_SERVER /\ paired (eb 2%nat) b b' trb a ca tra Dtls.RTC_DTLS_ROLE_CLIENT.
Proof.
  intros Ha Hb Hea Heb Hfa Hfb. unfold exchange.
  destruct (offer_run selfa (ea 0%nat) (ea 1%nat) a csa ca tra Ha Hfa (Hea _)) as
    (a1 & offer & d & p & l & E1 & Hty & E2 & Hpar & Hrb & P1 & P2 & P3 & P4 & P5 & P6).
  destruct (answer_run selfb (eb 0%nat) (eb 1%nat) (eb 2%nat) b csb cb trb a csa ca tra offer d) as
    (b1 & b2 & b3 & answer & da & E3 & E4 & Hta & E5 & Hpa & Hra & Hpb); try done.
  destruct Ha as [Hda [r Hre] Hixa _ _ _ _ _ _ _ _ Htw]. destruct Hb as [Hdb _ Hixb Hnd Hub Hpb' Hlb _ _ _ _ _].
  pose proof (repc_describable a p l csa tra P1 P2 Hda) as Hd2. pose proof (repc_receptive a p l r P3 Hre) as Hr2.
  destruct (set_remote_run selfa (ea 2%nat) (repc a p l) answer da csa tra r b Sdp.RTC_SETUP_ACTIVE csb trb cb RTC_TRANSPORT_DTLS_ROLE_SERVER)
    as (a3 & E6 & Ht3); try done; [cbn [repc app pc]; by rewrite P5|].
  pose proof Ht3 as [(fp & Epc) _ _ _ _ _ _ _ _ _ _]. cbn [repc app pc] in Epc.
  destruct (paired_after selfa (repc a p l) a3 a3 csa tra r b Sdp.RTC_SETUP_ACTIVE csb cb trb answer da RTC_TRANSPORT_DTLS_ROLE_SERVER (ea 2%nat) offer)
    as (a4 & E7 & Hp4); try done; [cbn [repc app pc]; by rewrite P2|by rewrite Epc|rewrite Epc; cbn; by rewrite Hta, P6|
      rewrite Epc; cbn; rewrite P3; apply (re_idle _ _ Hre)|].
  rewrite (exchange_step _ _ _ _ E1). cbn [mbind res_bind]. rewrite (exchange_step _ _ _ _ E2). cbn [mbind res_bind].
  rewrite (exchange_step _ _ _ _ E3). cbn [mbind res_bind]. rewrite (exchange_step _ _ _ _ E4). cbn [mbind res_bind].
  rewrite (exchange_step _ _ _ _ E5). cbn [mbind res_bind]. rewrite E7 in E6. rewrite (exchange_step _ _ _ _ E6).
  exists a4, b3. split; [done|]. split; [|done]. destruct Hp4. by split.
Qed.
End Exchange.

(** ** Data channels that are opened early *)

Section Early.
Context {X K : Type} {kern : Kernel} {evp : Srtp.Evp} {inet : Inet} {senv : Stun.StunEnv}.
Context {ossl : Dtls.OpenSsl X} {wkt : WorkerTimers K peer_timer} {tot : TimersTotal K peer_timer}.
Context (dc_mem : bytes -> bool * bool * bool).
Abbreviation pworld := (Transport.world X K client).
Abbreviation dworld := (DataChannel.dc_world pworld).
Implicit Types w : pworld.

(** without a function that sends *)
Lemma send_message_unset alloc p c ty payload (d : dworld) :
  DataChannel.dcs d !! p = Some c -> DataChannel.send_fn (DataChannel.mgr d) = false ->
  DataChannel.dc_send_message alloc p ty payload d = (d, Err RTC_ERR_INVALID).
Proof.
  intros Hc Hs. unfold DataChannel.dc_send_message. rewrite (st_bind_run _ _ _ _ _ (DataChannelSpec.rd_dc_run _ _ _ Hc)).
  rewrite st_bind_eq. cbn [get]. by rewrite Hs.
Qed.

Lemma recv_open_unset ac am as_ i label (d : dworld) :
  DataChannel.mgr d = DataChannel.rtc_dc_manager_init false ->
  exists d' r, DataChannel.recv_open ac am as_ i label d = (d', r) /\ r <> Fault /\ DataChannel.net d' = DataChannel.net d /\
    DataChannel.events d' = DataChannel.events d /\ DataChannel.send_fn (DataChannel.mgr d') = false.
Proof.
  intros Hm. unfold DataChannel.recv_open, DataChannel.dc_find_by_id. rewrite st_bind_eq, st_bind_eq. cbn [get]. rewrite Hm.
  change (U32Map.rtc_u32_map_get None _ i) with (Ok (None : option Z)). cbn [lift]. rewrite st_bind_eq. cbn [get]. rewrite Hm.
  rewrite (st_bind_lift (fail_if (DataChannel.RTC_DC_MAX_CHANNELS <=? _) RTC_ERR_NOMEM) _ _ ()) by done. destruct ac; [|by exists d, (Err RTC_ERR_NOMEM); rewrite Hm].
  rewrite (st_bind_lift (fail_if (negb true) RTC_ERR_NOMEM) _ _ () eq_refl). set (c := DataChannel.dc_new _ i _ false).
  rewrite st_bind_eq. unfold DataChannel.dc_alloc. rewrite st_bind_eq. cbn [get]. rewrite st_bind_eq. cbn [put mret st_ret].
  set (d1 := DataChannel.DcWorld (DataChannel.mgr d) (<[DataChannel.brk d := c]> (DataChannel.dcs d)) _ _ _). rewrite st_bind_eq.
  assert (exists m r, DataChannel.channels_set am i (DataChannel.brk d) d1 =
    (DataChannel.DcWorld (DataChannel.Mgr m 0 false false false) (DataChannel.dcs d1) (DataChannel.brk d1) (DataChannel.events d1) (DataChannel.net d1), r) /\
    r <> Fault) as (m & r & Es & Hr).
  { unfold DataChannel.channels_set, zoom, d1. cbn [DataChannel.mgr]. rewrite Hm. cbn [DataChannel.channels DataChannel.rtc_dc_manager_init].
    destruct (U32Map.set_spec None U32Map.rtc_u32_map_init ∅ am i (Some (DataChannel.brk d))) as (m & [(-> & _)|(-> & -> & _)]); [by left|..]; eauto. }
  unfold st_attempt. rewrite Es. set (d2 := DataChannel.DcWorld (DataChannel.Mgr m 0 false false false) _ _ _ _).
  assert (DataChannel.dcs d2 !! DataChannel.brk d = Some c) as Hc by apply lookup_insert_eq.
  destruct r as [[]|e|]; [| |done]; cbn [attempt].
  - rewrite (st_bind_run _ _ _ _ _ (void_run _ _ _ _ (send_message_unset as_ _ c DataChannel.RTC_DC_MSG_ACK [] d2 Hc eq_refl) ltac:(done))).
    by exists d2, (Ok ()).
  - unfold DataChannel.dc_free. rewrite st_bind_eq, (st_bind_run _ _ _ _ _ (DataChannelSpec.rd_dc_run _ _ _ Hc)). by do 2 eexists.
Qed.

(** ** Completing the connection *)

(** a step that leaves the transport, the connection object and the channels
    alone and loses no stream *)
Definition media_only w w' : Prop :=
  lnk w' = lnk w /\ pc (app w') = pc (app w) /\ cl_dc (app w') = cl_dc (app w) /\
  forall i, is_Some (MediaSession.send_store (cl_med (app w)) !! i) -> is_Some (MediaSession.send_store (cl_med (app w')) !! i).

Lemma media_only_trans w1 w2 w3 : media_only w1 w2 -> media_only w2 w3 -> media_only w1 w3.
Proof. intros (? & ? & ? & ?) (? & ? & ? & ?). split_and!; [congruence..|auto]. Qed.

Lemma upd_send_run i f w :
  is_Some (MediaSession.send_store (cl_med (app w)) !! i) ->
  exists w', on_med (upd_send (Some i) f) w = (w', Ok ()) /\ media_only w w'.
Proof.
  intros [x Hx]. unfold on_med, zoom, upd_send. rewrite st_bind_eq. cbn [get]. unfold MediaSession.deref at 1. rewrite Hx.
  rewrite (st_bind_lift _ _ _ _ eq_refl). eexists. split; [done|]. split_and!; [done..|]. intros j Hj. cbn.
  destruct (decide (i = j)) as [->|]; [rewrite lookup_insert_eq; by eexists|by rewrite lookup_insert_ne].
Qed.

(** the sender of a transceiver exists *)
Definition sending w t : Prop :=
  exists i, s_stream (sender t) = Some i /\ is_Some (MediaSession.send_store (cl_med (app w)) !! i).

Lemma connect_sender_run (e : peer_env (X := X)) t w :
  sending w t -> exists w', connect_sender e t w = (w', Ok ()) /\ media_only w w'.
Proof.
  intros (i & Hi & [x Hx]). unfold connect_sender. rewrite st_bind_eq. unfold ask_med, ask_send, MediaSession.deref. rewrite Hi, Hx.
  cbn [mbind res_bind]. destruct (RtpStream.rtc_rtp_send_stream_is_active x); [|by exists w]. cbn [negb].
  unfold rtc_rtp_sender_attach_logical. rewrite Hi.
  destruct (upd_send_run i RtpStream.rtc_rtp_send_stream_attach_transport w) as (w1 & E1 & H1); [by eexists|].
  rewrite (st_bind_run _ _ _ _ _ E1), st_bind_eq. cbn [get].
  assert (Hi1 : is_Some (MediaSession.send_store (cl_med (app w1)) !! i)) by (apply H1; by eexists).
  assert (exists w2, (if negb (pc_twcc_ext_id (pc (app w1)) =? 0)
    then on_med (rtc_rtp_sender_attach_twcc (lnk w1) (sender t) (pc_twcc_ext_id (pc (app w1)))) else mret ()) w1 = (w2, Ok ()) /\ media_only w1 w2)
    as (w2 & E2 & H2).
  { destruct (negb _); [|by exists w1]. unfold rtc_rtp_sender_attach_twcc. rewrite Hi. by apply upd_send_run. }
  rewrite (st_bind_run _ _ _ _ _ E2). destruct (a_video e) as [[a1 a2] a3].
  assert (Hi2 : is_Some (MediaSession.send_store (cl_med (app w2)) !! i)) by by apply H2.
  pose proof (media_only_trans _ _ _ H1 H2) as H12. unfold rtc_rtp_sender_arm_video. rewrite Hi.
  destruct (negb (bool_decide _)); [eexists; split; [reflexivity|exact H12]|].
  destruct (upd_send_run i (RtpStream.rtc_rtp_send_stream_arm_video a1 a2 a3) w2 Hi2) as (w3 & E3 & H3).
  exists w3. split; [done|]. by eapply media_only_trans.
Qed.

Lemma connect_senders_run (e : peer_env (X := X)) ts : forall w,
  Forall (sending w) ts -> exists w', st_each (connect_sender e) ts w = (w', Ok ()) /\ media_only w w'.
Proof.
  induction ts as [|t ts IH]; intros w Ht; [by exists w|]. apply Forall_cons_1 in Ht as [Ht Hts]. cbn [st_each].
  destruct (connect_sender_run e t w Ht) as (w1 & E1 & H1). rewrite (st_bind_run _ _ _ _ _ E1).
  destruct (IH w1) as (w2 & E2 & H2).
  { eapply Forall_impl; [exact Hts|]. intros u (i & Hi & Hs). exists i. split; [done|]. by apply H1. }
  exists w2. split; [done|]. by eapply media_only_trans.
Qed.

Lemma session_start_run w :
  exists k m, on_session MediaSession.rtc_media_session_start w = (World (lnk w) k (with_med (app w) m), Ok ()).
Proof.
  unfold on_session, MediaSession.rtc_media_session_start. cbn [MediaSession.med MediaSession.tr MediaSession.wk].
  destruct (negb _ || negb _); [do 2 eexists; reflexivity|]. destruct (MediaSession.running _); [do 2 eexists; reflexivity|].
  destruct (_ =? _); [|do 2 eexists; reflexivity]. unfold MediaSession.arm_report. cbn [MediaSession.worker_add_timer report_timers MediaSession.med MediaSession.wk MediaSession.tr].
  cbn [MediaSession.with_sess MediaSession.clk].
  destruct (add_total (MediaSession.now_ms (MediaSession.clk (cl_med (app w))) + MediaSession.RTC_MEDIA_SESSION_REPORT_MS) REPORT_TIMER (wk w)) as (k & h & ->).
  by do 2 eexists.
Qed.

(** the manager once the connection is complete, when no channel was created
    here: it starts from an empty table *)
Definition manager_after (d : DataChannel.rtc_dc_manager_t) : Prop :=
  DataChannel.channels d = U32Map.rtc_u32_map_init /\ DataChannel.send_fn d = true /\ DataChannel.dtls_connected d = true.

Lemma on_dc_run {A} (f : st dworld A) w (m : DataChannel.rtc_dc_manager_t) (r : res A) :
  let d := cl_dc (app w) in
  f (DataChannel.DcWorld (DataChannel.mgr d) (DataChannel.dcs d) (DataChannel.brk d) (DataChannel.events d) w) =
    (DataChannel.DcWorld m (DataChannel.dcs d) (DataChannel.brk d) (DataChannel.events d) w, r) ->
  on_dc f w = (set_app w (with_dc (app w) (DataChannel.DcWorld m (DataChannel.dcs d) (DataChannel.brk d) (DataChannel.events d) ())), r).
Proof. intros d E. unfold on_dc. fold d. by rewrite E. Qed.

Lemma start_manager_run (e : peer_env (X := X)) (b : bool) w :
  DataChannel.send_fn (DataChannel.mgr (cl_dc (app w))) = false ->
  exists c, (_ ← ensure_dc_manager; _ ← on_dc (DataChannel.rtc_dc_manager_on_dtls_connected (a_open e));
    if b then on_dc (DataChannel.rtc_dc_manager_on_channel true) else mret ()) w = (set_app w (with_dc (app w) c), Ok ()) /\
    manager_after (DataChannel.mgr c) /\ DataChannel.events c = DataChannel.events (cl_dc (app w)).
Proof.
  intros Hs. set (d := cl_dc (app w)) in *.
  assert (Ee : ensure_dc_manager w = (set_app w (with_dc (app w) (DataChannel.DcWorld (DataChannel.rtc_dc_manager_init true)
    (DataChannel.dcs d) (DataChannel.brk d) (DataChannel.events d) ())), Ok ())).
  { unfold ensure_dc_manager. apply (on_dc_run _ w). cbn [DataChannel.mgr]. fold d. by rewrite Hs. }
  rewrite (st_bind_run _ _ _ _ _ Ee). set (w1 := set_app w _).
  rewrite (st_bind_run _ _ _ _ _ (on_dc_run (DataChannel.rtc_dc_manager_on_dtls_connected (a_open e)) w1
    (DataChannel.Mgr U32Map.rtc_u32_map_init 0 false true true) (Ok ()) eq_refl)).
  set (w2 := set_app w1 _). destruct b; [|by eexists].
  rewrite (on_dc_run (DataChannel.rtc_dc_manager_on_channel true) w2 (DataChannel.Mgr U32Map.rtc_u32_map_init 0 true true true) (Ok ()) eq_refl).
  eexists. split; [reflexivity|]. by split.
Qed.

Lemma complete_run (e : peer_env (X := X)) w :
  runtime_connected (rt (pc (app w))) = false -> Forall (sending w) (transceivers (pc (app w))) ->
  DataChannel.send_fn (DataChannel.mgr (cl_dc (app w))) = false ->
  exists w', peer_runtime_complete_connection e w = (w', Ok ()) /\ lnk w' = lnk w /\
    connection_state (states (pc (app w'))) = RTC_CONNECTION_CONNECTED /\
    manager_after (DataChannel.mgr (cl_dc (app w'))) /\
    DataChannel.events (cl_dc (app w')) = DataChannel.events (cl_dc (app w)).
Proof.
  intros Hc Hts Hs. unfold peer_runtime_complete_connection. rewrite st_bind_eq. cbn [rd_pc]. rewrite Hc.
  rewrite st_bind_eq. unfold upd_rt at 1, upd_pc at 1. set (w1 := set_app w _).
  destruct (connect_senders_run e (transceivers (pc (app w))) w1) as (w2 & E2 & L2 & P2 & D2 & _); [exact Hts|].
  rewrite (st_bind_run _ _ _ _ _ E2).
  destruct (start_manager_run e (on_data_channel (pcbs (pc (app w)))) w2) as (c & E3 & Hm & Hev); [by rewrite D2|].
  rewrite st_bind_eq in E3. rewrite st_bind_eq. destruct (ensure_dc_manager w2) as [w3 [[]| |]]; [|done|done].
  rewrite st_bind_eq in E3. rewrite st_bind_eq. destruct (on_dc (DataChannel.rtc_dc_manager_on_dtls_connected (a_open e)) w3) as [w4 [[]| |]]; [|done|done].
  rewrite (st_bind_run _ _ _ _ _ E3). destruct (session_start_run (set_app w2 (with_dc (app w2) c))) as (k & m & E5).
  rewrite (st_bind_run _ _ _ _ _ E5). set (w5 := World _ k _). change w5 with (repc w5 (pc (app w5)) (cl_log (app w5))).
  destruct (set_ice_connection_run RTC_ICE_CONNECTION_CONNECTED w5 (pc (app w5)) (cl_log (app w5))) as (l6 & E6).
  rewrite (st_bind_run _ _ _ _ _ E6). match type of E6 with _ = (repc _ ?q _, _) => set (p6 := q) in * end.
  destruct (set_connection_run RTC_CONNECTION_CONNECTED w5 p6 l6) as (l7 & E7). rewrite E7.
  eexists. split; [reflexivity|]. split; [exact L2|]. split; [done|]. split; [exact Hm|]. etrans; [exact Hev|]. by rewrite D2.
Qed.

(** C37: A channel that the remote side opens before this side has completed its
    connection (the connect timer looks every 50 ms) is lost when this side has
    not created a channel of its own: the OPEN is not answered and not reported
    to the application, and [peer_runtime_complete_connection] clears the table
    (it sends nothing for it either), so that a message that arrives on the
    channel afterwards changes nothing and is not reported. *)
Theorem early_channel_lost (e : peer_env (X := X)) i label data w :
  0 <= i < 2 ^ 16 -> blen label <= DataChannel.RTC_DC_MAX_MSG_SIZE -> blen data <= DataChannel.RTC_DC_MAX_MSG_SIZE ->
  DataChannel.mgr (cl_dc (app w)) = DataChannel.rtc_dc_manager_init false ->
  runtime_connected (rt (pc (app w))) = false -> Forall (sending w) (transceivers (pc (app w))) ->
  exists w1 w2, peer_runtime_on_data dc_mem (DataChannel.dc_wire i DataChannel.RTC_DC_MSG_OPEN label) w = (w1, Ok ()) /\
    lnk w1 = lnk w /\ DataChannel.events (cl_dc (app w1)) = DataChannel.events (cl_dc (app w)) /\ cl_log (app w1) = cl_log (app w) /\
    peer_runtime_complete_connection e w1 = (w2, Ok ()) /\ lnk w2 = lnk w /\
    connection_state (states (pc (app w2))) = RTC_CONNECTION_CONNECTED /\
    DataChannel.events (cl_dc (app w2)) = DataChannel.events (cl_dc (app w)) /\
    peer_runtime_on_data dc_mem (DataChannel.dc_wire i DataChannel.RTC_DC_MSG_DATA data) w2 = (w2, Ok ()).
Proof.
  intros Hi Hl Hdl Hm Hrc Hts. unfold peer_runtime_on_data at 1. destruct (dc_mem _) as [[ac am] as_].
  set (d := DataChannel.DcWorld (DataChannel.mgr (cl_dc (app w))) (DataChannel.dcs (cl_dc (app w))) (DataChannel.brk (cl_dc (app w)))
    (DataChannel.events (cl_dc (app w))) w).
  destruct (recv_open_unset ac am as_ i label d Hm) as (d' & r & E & Hr & Hn & Hev & Hs).
  assert (on_dc (DataChannel.rtc_dc_manager_recv ac am as_ (DataChannel.dc_wire i DataChannel.RTC_DC_MSG_OPEN label)) w =
    (set_app w (with_dc (app w) (DataChannel.DcWorld (DataChannel.mgr d') (DataChannel.dcs d') (DataChannel.brk d') (DataChannel.events d') ())), r)) as E1.
  { unfold on_dc. fold d. rewrite DataChannelSpec.recv_wire by done. unfold DataChannelSpec.dispatch. cbn [Z.eqb Pos.eqb DataChannel.RTC_DC_MSG_OPEN].
    rewrite E. by rewrite Hn. }
  rewrite (void_run _ _ _ _ E1 Hr). set (w1 := set_app w _).
  destruct (complete_run e w1) as (w2 & E2 & L2 & S2 & (C2 & _) & V2); [done|done|done|].
  exists w1, w2. split; [done|]. split; [done|]. split; [exact Hev|]. split; [done|]. split; [done|]. split; [done|]. split; [done|].
  split; [rewrite V2; exact Hev|]. unfold peer_runtime_on_data. destruct (dc_mem _) as [[bc bm] bs].
  apply (void_run _ _ _ (Ok ())); [|done]. unfold on_dc. rewrite DataChannelSpec.recv_wire by done.
  change (DataChannelSpec.dispatch bc bm bs i DataChannel.RTC_DC_MSG_DATA data) with (DataChannel.recv_data (W := pworld) i data).
  unfold DataChannel.recv_data, DataChannel.dc_find_by_id. rewrite st_bind_eq, st_bind_eq. cbn [get DataChannel.mgr]. rewrite C2.
  change (U32Map.rtc_u32_map_get None U32Map.rtc_u32_map_init i) with (Ok (None : option Z)). cbn [lift mret st_ret].
  by destruct w2 as [? ? [? ? [? ? ? ? []] ?]].
Qed.
End Early.
End PeerSpec.
