(* ===== verification/PeerStart.v ===== *)
(** * Peers that are ready to negotiate

    [rtc_peer_connection_create] followed by calls of
    [rtc_peer_connection_add_track] makes a peer that satisfies [fresh], the
    hypothesis of the offer and answer theorem (PeerSpec.v); the example
    negotiates audio and video between two such peers. *)

From Stdlib Require Import String.
From S2P Require Import Prelude Bwe Srtp SrtpWitness RtpExt Rtp Rtcp Twcc RateControl NackBuf Probe U32Map StrMap Vec RtpDemux Stun StunSpec Text PacketIo.
From S2P Require Import Scanf Candidate Sdp InetModel SdpSpec Dtls Listener ListenerSpec Transport TransportSpec TransportModel TransportIce Interceptor.
From S2P Require Import RtpStream MediaSession TransportSession DataChannel Track Peer PeerSpec.
From Stdlib Require Import ZArith Lia.
From stdpp Require Import base list numbers gmap.
#[local] Open Scope Z_scope.

Module PeerStart.
Import Text PacketIo Listener ListenerSpec Transport TransportSpec TransportIce TransportSession Track Peer PeerSpec.

Section Start.
Context {X K : Type} {kern : Kernel} {evp : Srtp.Evp} `{ilaws : InetLaws} {senv : Stun.StunEnv}.
Context {ossl : Dtls.OpenSsl X} {wkt : WorkerTimers K peer_timer} (self : Z).
Abbreviation pworld := (Transport.world X K client).
Implicit Types (w : pworld) (t : rtc_rtp_transceiver).

(** ** Strings a description carries *)

Lemma charset_line s : Forall (fun b => b ∈ charset) s -> SdpSpec.line_ok s.
Proof.
  assert (SdpSpec.line_ok charset) as Hc by by apply SdpSpec.line_ok_lit. unfold SdpSpec.line_ok in *. rewrite Forall_forall in Hc.
  intros Hs. eapply Forall_impl; [exact Hs|exact Hc].
Qed.

(** RAND_bytes fills the buffer *)
Definition fills (rnd : Z -> option bytes) : Prop := forall n s, 0 <= n -> rnd n = Some s -> blen s = n.

Lemma random_text rnd len s :
  fills rnd -> 1 < len <= 257 -> rtc_random_string rnd len = Ok s -> SdpSpec.line_ok s /\ blen s = len - 1 /\ s <> [].
Proof.
  intros Hf Hl E. pose proof (random_string_spec _ _ _ E) as Hs. unfold rtc_random_string in E.
  rewrite (proj2 (Z.eqb_neq len 0)), Z.min_l in E by lia. destruct (rnd (len - 1)) as [tmp|] eqn:Er; [|done]. apply Hf in Er; [|lia].
  assert (blen s = len - 1) as Hb.
  { injection E as <-. unfold blen in *. rewrite length_fmap, length_take. lia. }
  split; [by apply charset_line|]. split; [done|]. intros ->. rewrite blen_nil in Hb. lia.
Qed.

Lemma hex2_line b : 0 <= b < 256 -> SdpSpec.line_ok (Dtls.hex2 b).
Proof.
  intros Hb. assert (SdpSpec.line_ok Dtls.hex_upper) as Hh by by apply SdpSpec.line_ok_lit.
  unfold SdpSpec.line_ok in *. rewrite Forall_forall in Hh. unfold Dtls.hex2.
  rewrite Z.shiftr_div_pow2 by lia. change (Z.land b 15) with (Z.land b (Z.ones 4)). rewrite Z.land_ones by lia.
  repeat apply Forall_cons_2; [| |apply Forall_nil_2]; apply Hh, list_elem_of_In, nth_In; change (length Dtls.hex_upper) with 16%nat.
  - assert (0 <= b / 2 ^ 4 < 16) by (split; [apply Z.div_pos; lia|apply Z.div_lt_upper_bound; lia]). lia.
  - pose proof (Z.mod_pos_bound b (2 ^ 4) ltac:(lia)). lia.
Qed.

Lemma fp_text_line dg : bytes_ok dg -> SdpSpec.line_ok (Dtls.fp_text dg) /\ blen (Dtls.fp_text dg) <= Z.max 0 (3 * blen dg - 1).
Proof.
  induction 1 as [|b dg Hb Hdg [IH1 IH2]]; [split; [constructor|unfold blen; cbn; lia]|]. pose proof (hex2_line b Hb) as Hx.
  destruct dg as [|b' dg]; [split; [exact Hx|unfold blen; cbn; lia]|].
  change (Dtls.fp_text (b :: b' :: dg)) with (Dtls.hex2 b ++ [58] ++ Dtls.fp_text (b' :: dg)).
  split; [|rewrite !blen_app, (blen_cons b); change (blen (Dtls.hex2 b)) with 2; change (blen [58]) with 1; pose proof (blen_nonneg dg); rewrite blen_cons in *; lia].
  apply Forall_app_2; [done|]. by constructor.
Qed.

(** ** The state of a peer before it negotiates *)

(** the tables of the session are sound *)
Definition session_ok (m : MediaSession.media) : Prop :=
  MediaSession.ready (MediaSession.session m) = true /\ MediaSession.has_transport (MediaSession.session m) = true /\
  (exists g, U32Map.u32_repr (MediaSession.send_streams (MediaSession.session m)) g) /\
  (exists l, Vec.vec_repr (MediaSession.recv_streams (MediaSession.session m)) l).

(** [fresh] without the number of tracks *)
Record prepared w (cs : list Candidate.rtc_ice_candidate_t) (c : Candidate.rtc_ice_candidate_t) (tracks : list (Z * Z)) : Prop := {
  pr_runtime : runtime (rt (pc (app w))) = true /\ runtime_transport (rt (pc (app w))) = true;
  pr_idle : connect_started (pc (app w)) = false /\ signaling_state (states (pc (app w))) = RTC_SIGNALING_STABLE;
  pr_descs : descs (pc (app w)) = Descriptions None None RTC_SDP_OFFER Sdp.sdp_zero Sdp.sdp_zero;
  pr_gathered : gathered (lis w) cs /\ last cs = Some c;
  pr_ufrag : SdpSpec.line_ok (ice_ufrag (ice (tp w))) /\ blen (ice_ufrag (ice (tp w))) < Sdp.ICE_UFRAG_LEN /\ ice_ufrag (ice (tp w)) <> [];
  pr_pwd : SdpSpec.line_ok (ice_pwd (ice (tp w))) /\ blen (ice_pwd (ice (tp w))) < Sdp.ICE_PWD_LEN /\ ice_pwd (ice (tp w)) <> [];
  pr_fingerprint : SdpSpec.line_ok (Dtls.local_fingerprint (w_dtls w)) /\ blen (Dtls.local_fingerprint (w_dtls w)) < 96;
  pr_dtls : dtls_ready (w_dtls w);
  pr_twcc : enable_twcc (conf (tp w)) = false /\ twcc_enabled (cc (tp w)) = false;
  pr_routes : PeerSpec.routes w ∅ 0;
  pr_ice : new_ice (lnk w);
  pr_connect : can_connect w;
  pr_session : session_ok (cl_med (app w));
  pr_tracks : Forall2 (fun t k => live_track (cl_med (app w)) t k.1 k.2) (transceivers (pc (app w))) tracks;
  pr_indexed : indexed (transceivers (pc (app w)));
  pr_ssrcs : NoDup tracks.*1
}.

Lemma prepared_fresh w cs c tracks :
  prepared w cs c tracks -> 0 < blen tracks <= Sdp.SDP_MAX_MEDIA -> fresh w cs c tracks.
Proof.
  intros [[] [] Hd [] (? & ? & ?) (? & ? & ?) [] ? [] (? & ? & ?) ? ? (? & ? & _) ? ? ?] Hn. split; try done; try by rewrite Hd.
  exists ∅. split; try done. split_and!; [done..|lia].
Qed.

(** ** Creation *)

Lemma dtls_init_ready dg setup r d :
  length dg = 32%nat -> bytes_ok dg -> Dtls.rtc_dtls_init (Some dg) setup r = (d, Ok ()) ->
  dtls_ready (X := X) d /\ SdpSpec.line_ok (Dtls.local_fingerprint d) /\ blen (Dtls.local_fingerprint d) < 96.
Proof.
  intros Hl Hb. unfold Dtls.rtc_dtls_init. rewrite (Dtls.dtls_generate_cert_run dg Hl). destruct (fp_text_line dg Hb) as [Hf Hn].
  unfold Dtls.dtls_setup_ssl. destruct (Dtls.ssl_ctx_new setup), (Dtls.use_srtp setup), (Dtls.install setup), (Dtls.ssl_new setup); try done.
  destruct (Dtls.bios setup); [|done]. intros E. injection E as <-. split; [done|]. split; [exact Hf|]. cbn. unfold blen in *. lia.
Qed.

Lemma transport_create_inv c1 c2 ru rp dg setup a cfg (l l' : rtc_listener_t Z) (t : rtc_transport_t X client) :
  rtc_transport_create self c1 c2 ru rp dg setup a cfg l = (l', Ok (Some t)) ->
  exists u p d r, rtc_random_string ru ICE_UFRAG_LEN = Ok u /\ rtc_random_string rp ICE_PWD_LEN = Ok p /\
    Dtls.rtc_dtls_init dg setup r = (d, Ok ()) /\ rtc_listener_register_ufrag a u self l = (l', Ok ()) /\ t = transport_zero cfg u p d.
Proof.
  unfold rtc_transport_create. destruct c1; [|done]. cbn [negb].
  destruct (rtc_random_string ru ICE_UFRAG_LEN) as [u| |]; [|done|done]. cbn [mbind res_bind].
  destruct (rtc_random_string rp ICE_PWD_LEN) as [p| |]; [|done|done]. rewrite (st_bind_lift _ _ _ (Some (u, p)) eq_refl).
  destruct c2; [|done]. cbn [negb]. set (r := match c_ice_mode cfg with RTC_ICE_MODE_FULL => _ | _ => _ end).
  destruct (Dtls.rtc_dtls_init dg setup r) as [d [[]| |]] eqn:Ed; [|done|done]. rewrite st_bind_eq. unfold st_attempt.
  destruct (rtc_listener_register_ufrag a u self l) as [l1 [[]| |]] eqn:El; [|done|done]. intros E. injection E as <- <-.
  exists u, p, d, r. auto.
Qed.

Lemma register_keeps a u (l l' : rtc_listener_t Z) r :
  rtc_listener_register_ufrag a u self l = (l', r) ->
  l_candidates l' = l_candidates l /\ io l' = io l /\ Listener.routes l' TXN = Listener.routes l TXN.
Proof.
  unfold rtc_listener_register_ufrag, listener_register_route. destruct (negb (a_route a)); [by intros [= <- _]|].
  destruct (StrMap.rtc_str_map_set _ _ _ _ _ _). by intros [= <- _].
Qed.

Lemma media_init_run a1 a2 a3 w w' :
  peer_media_init a1 a2 a3 w = (w', Ok ()) -> RtpDemux.ready (rtp_demux (cbs (tp w))) = false ->
  pc (app w') = pc (app w) /\ lis w' = lis w /\ session_ok (cl_med (app w')) /\ PeerSpec.routes w' ∅ 0 /\
  exists h, tp w' = with_cbs (tp w) h.
Proof.
  unfold peer_media_init, MediaSession.rtc_media_session_init. intros E Hr.
  change (Vec.rtc_vec_init 8) with (Ok (Vec.Vec (A := Z) [] 0 0 8)) in E. cbv beta iota zeta in E.
  destruct (MediaSession.session_install_default_interceptors a1 a2 a3 _) as [ch [[]| |]].
  2: { destruct (Interceptor.rtc_interceptor_chain_close ch _) as [[? ?]| |]; discriminate E. }
  2: { discriminate E. }
  cbv beta iota zeta in E. rewrite st_bind_eq in E. unfold on_link, rtc_transport_set_rtp_router, on_demux, zoom in E. cbn in E.
  change (lnk w).1 with (tp w) in E. rewrite Hr in E. injection E as <-.
  split; [done|]. split; [done|]. split; [|split; [|by eexists]].
  - split; [done|]. split; [done|]. split; [exists ∅; by left|]. exists []. by split; [..|left|].
  - split; [done|]. split; [|done]. rewrite fmap_empty. by left.
Qed.

Lemma peer_create_inv (flags : bool * bool * bool) c1 c2 ru rp dg setup a a1 a2 a3 clk e l k l' k' w :
  rtc_peer_connection_create self flags.1.1 flags.1.2 flags.2 c1 c2 ru rp dg setup a a1 a2 a3 clk e l k = (l', k', Ok (Some w)) ->
  exists u p d r fp, rtc_random_string ru ICE_UFRAG_LEN = Ok u /\ rtc_random_string rp ICE_PWD_LEN = Ok p /\
    Dtls.rtc_dtls_init dg setup r = (d, Ok ()) /\ rtc_listener_register_ufrag a u self l = (lis w, Ok ()) /\
    pc (app w) = pc_rt (rt_fingerprint fp (rt pc_zero)) pc_zero /\ session_ok (cl_med (app w)) /\ PeerSpec.routes w ∅ 0 /\
    exists h, tp w = with_cbs (transport_zero (TransportConfig RTC_ICE_MODE_FULL false false 0) u p d) h.
Proof.
  unfold rtc_peer_connection_create. destruct (negb _); [done|].
  destruct (rtc_transport_create _ _ _ _ _ _ _ _ _ l) as [l1 [[t|]| |]] eqn:Et; try done.
  apply transport_create_inv in Et as (u & p & d & r & Eu & Ep & Ed & El & ->).
  rewrite st_bind_eq. unfold rtc_transport_on_data at 1, on_tp. rewrite st_bind_eq. unfold st_attempt.
  set (w0 := World _ k (client_zero clk)).
  match goal with |- context [peer_media_init a1 a2 a3 ?q] => set (w1 := q) end.
  destruct (peer_media_init a1 a2 a3 w1) as [w2 [[]| |]] eqn:Em; cbn [attempt].
  - rewrite st_bind_eq. cbn [get]. rewrite st_bind_eq. unfold upd_rt, upd_pc. cbn [mret st_ret mbind res_bind]. intros E.
    assert (w = set_app w2 (with_pc (app w2) (pc_rt (rt_fingerprint (fingerprint (rtc_transport_get_dtls_parameters w2)) (rt (pc (app w2)))) (pc (app w2))))) as ->
      by (by injection E).
    destruct (media_init_run a1 a2 a3 w1 w2 Em eq_refl) as (Hp & Hl & Hs & Hr & h & Ht).
    exists u, p, d, r. eexists. split; [done|]. split; [done|]. split; [done|]. split; [change (lis w1) with l1 in Hl; rewrite El, <-Hl; reflexivity|].
    split; [cbn [set_app with_pc app pc]; by rewrite Hp|]. split; [done|]. split; [done|]. exists h. exact Ht.
  - destruct ((_ ← peer_runtime_close a a e; mret false) w2) as [w3 [b| |]] eqn:Ec; [|done|done].
    rewrite st_bind_eq in Ec. destruct (peer_runtime_close a a e w2) as [w4 [| |]]; [|done|done]. injection Ec as <- <-. done.
  - done.
Qed.

(** a created peer is prepared: the listener has candidates and sound tables,
    RAND_bytes fills its buffers, the digest is that of SHA-256 *)
Lemma create_prepared flags c1 c2 ru rp dg setup a a1 a2 a3 clk e l k l' k' w cs c :
  rtc_peer_connection_create self flags.1.1 flags.1.2 flags.2 c1 c2 ru rp (Some dg) setup a a1 a2 a3 clk e l k = (l', k', Ok (Some w)) ->
  gathered l cs -> last cs = Some c -> (exists m, holds l m) -> sock (io l) <> None ->
  StrMap.cap (Listener.routes l TXN) <= 2 ^ 57 -> fills ru -> fills rp -> length dg = 32%nat -> bytes_ok dg ->
  prepared w cs c [].
Proof.
  intros E [Hg1 Hg2 Hg3 Hg4] Hl [m Hm] Hso Hcap Hru Hrp Hd Hdb.
  apply peer_create_inv in E as (u & p & d & r & fp & Eu & Ep & Ed & El & Epc & Hs & Hr & h & Et).
  apply random_text in Eu as (Hu1 & Hu2 & Hu3); [|done|done]. apply random_text in Ep as (Hp1 & Hp2 & Hp3); [|done|done].
  apply dtls_init_ready in Ed as (Hdr & Hf1 & Hf2); [|done..]. destruct (register_keeps _ _ _ _ _ El) as (Ec & Eio & Ert).
  destruct (register_holds l m a (KUfrag u) u self _ _ Hm I eq_refl El) as [Hh _].
  split; try done; rewrite ?Epc, ?Et; try done; try (unfold w_dtls; rewrite Et); try done.
  - split; [|done]. split; rewrite ?Ec; done.
  - split; [done|]. split; [cbn; rewrite Hu2; done|done].
  - split; [done|]. split; [cbn; rewrite Hp2; done|done].
  - change (new_ice (tp w, lis w)). rewrite Et. split; [|done]. split; [by eexists|]. split; [by apply bytes_okb_ok|done].
  - split; rewrite ?Et, ?Eio, ?Ert; done.
  - constructor.
Qed.

(** ** Tracks *)

(** the streams of a session, whatever its tables say *)
Definition same_streams (m m' : MediaSession.media) : Prop :=
  MediaSession.send_store m' = MediaSession.send_store m /\ MediaSession.recv_store m' = MediaSession.recv_store m.

Lemma add_sender_run am i m :
  session_ok m -> is_Some (MediaSession.send_store m !! i) ->
  exists m' r, MediaSession.rtc_media_session_add_sender am i m = (m', r) /\ r <> Fault /\ session_ok m' /\ same_streams m m'.
Proof.
  intros (H1 & H2 & (g & H3) & H4) [x Hx]. unfold MediaSession.rtc_media_session_add_sender. rewrite st_bind_eq. cbn [get]. rewrite H1.
  rewrite (st_bind_lift (fail_if (negb true) RTC_ERR_INVALID) _ _ () eq_refl). unfold MediaSession.deref. rewrite Hx, (st_bind_lift (Ok x) _ _ x eq_refl).
  unfold zoom. destruct (U32Map.set_spec None _ g am (RtpStream.rtc_rtp_send_stream_ssrc x) (Some i) H3) as (t & [(-> & Ht & _)|(-> & -> & Ht & _)]);
    do 2 eexists; (split; [done|]); (split; [done|]); (split; [|done]); (split; [done|]); (split; [done|]); (split; [by eexists|done]).
Qed.

Lemma add_receiver_run ar j m :
  session_ok m -> exists m' r, MediaSession.rtc_media_session_add_receiver ar j m = (m', r) /\ r <> Fault /\ session_ok m' /\ same_streams m m'.
Proof.
  intros (H1 & H2 & H3 & (l & H4)). unfold MediaSession.rtc_media_session_add_receiver. rewrite st_bind_eq. cbn [get]. rewrite H1.
  rewrite (st_bind_lift (fail_if (negb true) RTC_ERR_INVALID) _ _ () eq_refl). unfold zoom.
  destruct (Vec.push_spec _ l ar j H4) as (v & [[-> Hv]|[-> ->]]);
    do 2 eexists; (split; [done|]); (split; [done|]); (split; [|done]); (split; [done|]); (split; [done|]); (split; [done|by eexists]).
Qed.

Lemma live_grows m m' t sc j :
  live_track m t sc j -> (forall i x, MediaSession.send_store m !! i = Some x -> MediaSession.send_store m' !! i = Some x) ->
  (forall i x, MediaSession.recv_store m !! i = Some x -> MediaSession.recv_store m' !! i = Some x) -> live_track m' t sc j.
Proof. intros (H1 & H2 & i & x & y & ? & ? & ? & ? & ? & ?) Hs Hr. split; [done|]. split; [done|]. exists i, x, y. auto 8. Qed.

(** [i], [j]: new addresses; the random SSRC is not 0 and not in use *)
Lemma add_track_prepared i j am ar ssrc seq now kind codec ty name w cs c tracks :
  prepared w cs c tracks -> blen tracks < RTC_MAX_TRANSCEIVERS -> good_codec codec ty name -> 0 < ssrc < 2 ^ 32 -> ssrc ∉ tracks.*1 ->
  MediaSession.send_store (cl_med (app w)) !! i = None -> MediaSession.recv_store (cl_med (app w)) !! j = None ->
  exists w' n, rtc_peer_connection_add_track (Some i) (Some j) am ar ssrc seq now kind codec w = (w', Ok (Some n)) /\
    prepared w' cs c (tracks ++ [(ssrc, j)]) /\
    (forall i', i' <> i -> MediaSession.send_store (cl_med (app w')) !! i' = MediaSession.send_store (cl_med (app w)) !! i') /\
    (forall j', j' <> j -> MediaSession.recv_store (cl_med (app w')) !! j' = MediaSession.recv_store (cl_med (app w)) !! j').
Proof.
  intros Hp Hn Hc Hs Hnew Hi Hj. pose proof Hp as []. unfold rtc_peer_connection_add_track. rewrite st_bind_eq. cbn [rd_pc].
  assert (length (transceivers (pc (app w))) = length tracks) as Hlen by by apply Forall2_length in pr_tracks0.
  rewrite (proj2 (Z.leb_gt _ _)) by (unfold blen in *; lia). set (n := blen (transceivers (pc (app w)))).
  set (m := cl_med (app w)) in *. unfold on_med at 1, zoom, rtc_rtp_transceiver_init_slot. cbn [mbind option_bind]. rewrite st_bind_eq.
  cbn [RtpStream.rtc_rtp_send_stream_create RtpStream.rtc_rtp_recv_stream_create negb]. fold m.
  set (t := Transceiver _ _ _ _ n true). match goal with |- context [with_med (app w) ?q] => set (m1 := q) end.
  assert (session_ok m1) as S1 by exact pr_session0.
  destruct (add_sender_run am i m1 S1) as (m2 & r2 & E2 & N2 & S2 & Q2 & R2); [cbn; by rewrite lookup_insert_eq|].
  destruct (add_receiver_run ar j m2 S2) as (m3 & r3 & E3 & N3 & S3 & Q3 & R3).
  assert (forall (f : st MediaSession.media unit) (w0 : pworld) m' r, f (cl_med (app w0)) = (m', r) -> r <> Fault ->
    void (on_med f) w0 = (set_app w0 (with_med (app w0) m'), Ok ())) as Hvoid.
  { intros f w0 m' r E Hr. apply (void_run _ _ _ r); [|done]. unfold on_med, zoom. by rewrite E. }
  rewrite st_bind_eq. unfold add_slot. rewrite (st_bind_run _ _ _ _ _ (Hvoid _ (set_app w (with_med (app w) m1)) m2 r2 E2 N2)).
  rewrite (st_bind_run _ _ _ _ _ (Hvoid _ (set_app w (with_med (app w) m2)) m3 r3 E3 N3)). unfold upd_pc. cbn [mret st_ret].
  eexists _, n. split; [reflexivity|].
  assert (MediaSession.send_store m3 = <[i := _]> (MediaSession.send_store m)) as Es by (rewrite Q3, Q2; reflexivity).
  assert (MediaSession.recv_store m3 = <[j := _]> (MediaSession.recv_store m)) as Er by (rewrite R3, R2; reflexivity).
  split; [|split].
  - split; try done.
    + by destruct pr_connect0.
    + cbn [set_app with_med with_pc app pc cl_med pc_transceivers transceivers]. apply Forall2_app; [|constructor; [|constructor]].
      * eapply Forall2_impl; [exact pr_tracks0|]. intros u [sc' j'] Hu. eapply live_grows; [exact Hu|..]; intros k x Hk.
        -- rewrite Es, lookup_insert_ne; [done|]. intros ->. congruence.
        -- rewrite Er, lookup_insert_ne; [done|]. intros ->. congruence.
      * split; [by exists ty, name|]. split; [unfold t, n, blen in *; cbn; change RTC_MAX_TRANSCEIVERS with 8 in Hn; lia|].
        do 3 eexists. cbn [fst snd t sender receiver s_stream r_stream]. rewrite Es, Er, !lookup_insert_eq. split; [done|]. split; [done|]. split; [done|]. done.
    + intros k u Hu. cbn in Hu. apply lookup_app_Some in Hu as [Hu|[Hk Hu]]; [by apply pr_indexed0|].
      apply list_lookup_singleton_Some in Hu as [Hk0 <-]. unfold t, n, blen. cbn. lia.
    + rewrite fmap_app. apply NoDup_app. split; [done|]. split; [|apply NoDup_singleton]. intros s' Hs' ->%list_elem_of_singleton. done.
  - intros i' Hi'. cbn. by rewrite Es, lookup_insert_ne.
  - intros j' Hj'. cbn. by rewrite Er, lookup_insert_ne.
Qed.
End Start.

(** ** An example: audio and video in both directions *)

Import InetModel SrtpWitness StunSpec TransportModel.

#[local] Instance toy_peer_timers : WorkerTimers Z peer_timer := {|
  wk_add_timer _ _ k := (k + 1, Ok k);
  wk_cancel_timer _ k := (k, Ok ())
|}.
#[local] Instance toy_peer_timers_total : TimersTotal Z peer_timer.
Proof. split; by eauto. Qed.

Definition ex_setup : Dtls.setup_env toy := Dtls.SetupEnv true true true (Some (Toy false [] [] false false)) true.
Definition ex_env : peer_env (X := toy) :=
  PeerEnv ok_env true (fun _ => true) SdpSpec.ok_alloc (fun _ => true) true ex_setup (fun _ => true) (true, true, true).

Definition ex_opus : rtc_codec_t := Codec 111 (str "audio/opus") 48000 2.
Definition ex_vp8 : rtc_codec_t := Codec 96 (str "video/VP8") 90000 0.

Definition ex_peer_lis (ip : bytes) : rtc_listener_t Z := (listener_add_host_address ip 5000 ex_lis).1.
Definition ex_created (self : Z) (b : Z) (ip : bytes) : Transport.world toy Z client :=
  match rtc_peer_connection_create self true true true true true (fun n => Some (replicate (Z.to_nat n) b))
          (fun n => Some (replicate (Z.to_nat n) (b + 1))) (Some (replicate 32 b)) ex_setup (Allocs true true true) true true true
          (MediaSession.Clock 1000 1000000 1000) ok_env (ex_peer_lis ip) 1 with
  | (_, _, Ok (Some w)) => w
  | (l, k, _) => World (transport_zero (TransportConfig RTC_ICE_MODE_FULL false false 0) [] [] Dtls.dtls_zero, l) k
                   (client_zero (MediaSession.Clock 0 0 0))
  end.
Definition ex_cand (a : Stun.rtc_addr_t) : Candidate.rtc_ice_candidate_t :=
  Candidate.Candidate Candidate.ICE_CANDIDATE_HOST a Stun.AF_OTHER 2130706431 1 false (str "H0").

Lemma ex_opus_good : good_codec ex_opus Sdp.RTC_MEDIA_AUDIO (str "opus").
Proof.
  split; [done|done| |cbn; lia|cbn; lia|split; [cbn; lia|done]]. split; [|by apply SdpSpec.line_ok_lit].
  split; [split; [done|by apply (bool_decide_eq_true_1 _)]|]. split; [|vm_compute; lia]. by apply (bool_decide_eq_true_1 (Forall (fun b => b <> 47) _)).
Qed.
Lemma ex_vp8_good : good_codec ex_vp8 Sdp.RTC_MEDIA_VIDEO (str "VP8").
Proof.
  split; [done|done| |cbn; lia|cbn; lia|split; [cbn; lia|done]]. split; [|by apply SdpSpec.line_ok_lit].
  split; [split; [done|by apply (bool_decide_eq_true_1 _)]|]. split; [|vm_compute; lia]. by apply (bool_decide_eq_true_1 (Forall (fun b => b <> 47) _)).
Qed.

Lemma ex_cand_wf ip : 0 <= ip < 2 ^ 32 -> Candidate.wf_candidate (ex_cand (Stun.AF_INET 5000 ip)).
Proof.
  intros Hip. split; cbn [ex_cand Candidate.foundation Candidate.component Candidate.priority Candidate.addr Candidate.has_related_addr Candidate.related_addr]; try done.
  - split; [done|by apply (bool_decide_eq_true_1 _)].
  - vm_compute. lia.
  - by apply (bool_decide_eq_true_1 (Forall (fun b => 0 < b < 256) _)).
Qed.

(** the two tracks, as added *)
Definition ex_peer (self : Z) (b : Z) (ip : bytes) : Transport.world toy Z client :=
  ((_ ← rtc_peer_connection_add_track (Some 10) (Some 11) true true (b + 1000) 1 1000 RTC_KIND_AUDIO ex_opus;
    rtc_peer_connection_add_track (Some 12) (Some 13) true true (b + 2000) 1 1000 RTC_KIND_VIDEO ex_vp8) (ex_created self b ip)).1.
Definition ex_tracks (b : Z) : list (Z * Z) := [(b + 1000, 11); (b + 2000, 13)].

Lemma ex_prepared self b ip c :
  0 <= b < 100 -> prepared (ex_created self b ip) [c] c [] ->
  MediaSession.send_store (cl_med (app (ex_created self b ip))) = ∅ -> MediaSession.recv_store (cl_med (app (ex_created self b ip))) = ∅ ->
  prepared (ex_peer self b ip) [c] c (ex_tracks b).
Proof.
  intros Hb Hp Hs Hr. unfold ex_peer.
  destruct (add_track_prepared 10 11 true true (b + 1000) 1 1000 RTC_KIND_AUDIO ex_opus _ _ (ex_created self b ip) [c] c [] Hp eq_refl ex_opus_good)
    as (w1 & n1 & E1 & H1 & S1 & R1); [lia|apply not_elem_of_nil|by rewrite Hs|by rewrite Hr|].
  destruct (add_track_prepared 12 13 true true (b + 2000) 1 1000 RTC_KIND_VIDEO ex_vp8 _ _ w1 [c] c _ H1 eq_refl ex_vp8_good)
    as (w2 & n2 & E2 & H2 & _); [lia| |by rewrite S1, Hs|by rewrite R1, Hr|].
  { cbn. intros Hin%list_elem_of_singleton. lia. }
  rewrite (st_bind_run _ _ _ _ _ E1), E2. exact H2.
Qed.

(** the call that makes [ex_created] *)
Abbreviation ex_create self b ip :=
  (rtc_peer_connection_create self true true true true true (fun n => Some (replicate (Z.to_nat n) b))
     (fun n => Some (replicate (Z.to_nat n) (b + 1))) (Some (replicate 32 b)) ex_setup (Allocs true true true) true true true
     (MediaSession.Clock 1000 1000000 1000) ok_env (ex_peer_lis ip) 1).

Lemma ex_create_ready self b ip a :
  (match ex_create self b ip with (_, _, Ok (Some w)) => true | _ => false end) = true ->
  ice_candidates 0 0 (l_candidates (ex_peer_lis ip)) = Ok [ex_cand (Stun.AF_INET 5000 a)] ->
  (forall t, Listener.routes (ex_peer_lis ip) t = StrMap.rtc_str_map_init_owned) ->
  0 <= b < 100 -> 0 <= a < 2 ^ 32 -> prepared (ex_created self b ip) [ex_cand (Stun.AF_INET 5000 a)] (ex_cand (Stun.AF_INET 5000 a)) [].
Proof.
  intros Ho Hc Hr Hb Ha. unfold ex_created. destruct (ex_create self b ip) as [[l k] [[w|]| |]] eqn:E; try discriminate Ho.
  assert (forall x, fills (fun n => Some (replicate (Z.to_nat n) x))) as Hf.
  { intros x n s Hn [= <-]. unfold blen. rewrite length_replicate. lia. }
  assert (blen (l_candidates (ex_peer_lis ip)) <= ICE_MAX_CANDIDATES) as Hn.
  { destruct (l_candidates (ex_peer_lis ip)) as [|? [|? ?]] eqn:El; [done|done|]. exfalso. revert El. clear.
    unfold ex_peer_lis, listener_add_host_address. rewrite st_bind_eq. cbn [get]. destruct (listener_candidate_from_address _ _ _ _) as [x| |].
    - by rewrite (st_bind_lift (Ok x) _ _ x eq_refl).
    - done.
    - done. }
  eapply (create_prepared self (true, true, true)); [exact E| |done| |done|by rewrite Hr|apply Hf|apply Hf|done|].
  - split; [done|done|done|]. constructor; [|constructor]. by apply ex_cand_wf.
  - eexists. by apply holds_init.
  - apply Forall_replicate. unfold byte_ok. lia.
Qed.

Definition ex_a : Transport.world toy Z client := ex_peer 1 7 (str "10.0.0.1").
Definition ex_b : Transport.world toy Z client := ex_peer 2 17 (str "10.0.0.2").
Definition ex_cand_a : Candidate.rtc_ice_candidate_t := ex_cand (Stun.AF_INET 5000 0x0A000001).
Definition ex_cand_b : Candidate.rtc_ice_candidate_t := ex_cand (Stun.AF_INET 5000 0x0A000002).

(** facts that evaluation decides *)
Ltac evaluate := vm_compute; reflexivity.

Lemma ex_a_fresh : fresh ex_a [ex_cand_a] ex_cand_a (ex_tracks 7).
Proof.
  apply prepared_fresh; [|by split]. apply ex_prepared; [lia| |evaluate|evaluate].
  apply ex_create_ready; [evaluate|evaluate|intros []; evaluate|lia|lia].
Qed.
Lemma ex_b_fresh : fresh ex_b [ex_cand_b] ex_cand_b (ex_tracks 17).
Proof.
  apply prepared_fresh; [|by split]. apply ex_prepared; [lia| |evaluate|evaluate].
  apply ex_create_ready; [evaluate|evaluate|intros []; evaluate|lia|lia].
Qed.

Lemma ex_env_good : env_good ex_env.
Proof. split; try done. split; [done|]. by apply bytes_okb_ok. Qed.

Lemma ex_a_fits : fits ex_a Sdp.RTC_SETUP_ACTPASS 1000 [ex_cand_a].
Proof. split; [by apply SdpSpec.line_ok_lit|]. intros ms Hms. vm_compute in Hms. injection Hms as <-. evaluate. Qed.
Lemma ex_b_fits : fits ex_b Sdp.RTC_SETUP_ACTIVE 1000 [ex_cand_b].
Proof. split; [by apply SdpSpec.line_ok_lit|]. intros ms Hms. vm_compute in Hms. injection Hms as <-. evaluate. Qed.

Lemma offer_answer_witness :
  exists a' b', exchange 1 2 (fun _ => ex_env) (fun _ => ex_env) ex_a ex_b = Ok (a', b') /\
    paired ex_env ex_a a' (ex_tracks 7) ex_b ex_cand_b (ex_tracks 17) Dtls.RTC_DTLS_ROLE_SERVER /\
    paired ex_env ex_b b' (ex_tracks 17) ex_a ex_cand_a (ex_tracks 7) Dtls.RTC_DTLS_ROLE_CLIENT.
Proof.
  apply (offer_answer 1 2 (fun _ => ex_env) (fun _ => ex_env) ex_a ex_b [ex_cand_a] ex_cand_a (ex_tracks 7) [ex_cand_b] ex_cand_b (ex_tracks 17)).
  - exact ex_a_fresh.
  - exact ex_b_fresh.
  - intros _. exact ex_env_good.
  - intros _. exact ex_env_good.
  - exact ex_a_fits.
  - exact ex_b_fits.
Defined.

Lemma ex_a_sending : Forall (sending ex_a) (transceivers (pc (app ex_a))).
Proof.
  destruct (fr_describable _ _ _ _ ex_a_fresh) as [_ _ _ Ht _ _ _ _].
  apply Forall_lookup. intros k t Hk. destruct (Forall2_lookup_l _ _ _ _ _ Ht Hk) as ([sc j] & _ & _ & _ & i & x & y & Hi & Hx & _).
  exists i. split; [done|]. by exists x.
Qed.

Lemma early_channel_lost_witness :
  exists w1 w2, peer_runtime_on_data (fun _ => (true, true, true)) (DataChannel.dc_wire 0 DataChannel.RTC_DC_MSG_OPEN (str "chat")) ex_a = (w1, Ok ()) /\
    lnk w1 = lnk ex_a /\ DataChannel.events (cl_dc (app w1)) = DataChannel.events (cl_dc (app ex_a)) /\ cl_log (app w1) = cl_log (app ex_a) /\
    peer_runtime_complete_connection ex_env w1 = (w2, Ok ()) /\ lnk w2 = lnk ex_a /\
    connection_state (states (pc (app w2))) = RTC_CONNECTION_CONNECTED /\
    DataChannel.events (cl_dc (app w2)) = DataChannel.events (cl_dc (app ex_a)) /\
    peer_runtime_on_data (fun _ => (true, true, true)) (DataChannel.dc_wire 0 DataChannel.RTC_DC_MSG_DATA (str "hello")) w2 = (w2, Ok ()).
Proof.
  apply (early_channel_lost (fun _ => (true, true, true)) ex_env 0 (str "chat") (str "hello") ex_a);
    [lia|by vm_compute|by vm_compute|evaluate|evaluate|exact ex_a_sending].
Defined.
End PeerStart.
