(* ===== verification/SigMsg.v ===== *)
(** * Signaling messages (signaling/src/signaling_msg.c, signaling_msg.h)

    The messages between signaling clients and the server.  cJSON is known
    through the class [CJson]: its trees, the calls the code makes, and the
    documented law that a printed object is read back with the same members.
    C strings are byte strings without NUL; a char array is the string in it.
    [json_alloc] says which of the allocations of a build succeed.  The law is
    proved for the model [item]. *)

From Stdlib Require Import String.
From S2P Require Import Prelude Stun Text.
From Stdlib Require Import ZArith Lia.
From stdpp Require Import base list numbers.
#[local] Open Scope Z_scope.

Module SigMsg.
Import Text.

(** ** cJSON *)

(** [json_add_strings]: an array of strings; [json_string]: the value of a
    string item; [json_array]: the items of an array *)
Class CJson (J : Type) := {
  json_object : J;
  json_add_string : bytes -> bytes -> J -> J;
  json_add_strings : bytes -> list bytes -> J -> J;
  json_print : J -> option bytes;
  json_parse : bytes -> option J;
  json_get : J -> bytes -> option J;
  json_string : J -> option bytes;
  json_array : J -> option (list J)
}.

Inductive json_field := FStr (s : bytes) | FArr (l : list bytes).

Definition c_str (s : bytes) : Prop := Forall (fun b => 0 < b < 256) s.
Definition field_ok (f : json_field) : Prop := match f with FStr s => c_str s | FArr l => Forall c_str l end.

Section Json.
Context {J : Type} {cj : CJson J}.

Definition json_add (kv : bytes * json_field) (j : J) : J :=
  match kv.2 with FStr s => json_add_string kv.1 s j | FArr l => json_add_strings kv.1 l j end.
Definition json_of (fs : list (bytes * json_field)) : J := foldl (fun j kv => json_add kv j) json_object fs.

(** the first member with this name *)
Fixpoint member (k : bytes) (fs : list (bytes * json_field)) : option json_field :=
  match fs with
  | [] => None
  | (k', f) :: fs => if decide (k' = k) then Some f else member k fs
  end.

(** item [o] is the field [f] *)
Definition holds_field (o : option J) (f : option json_field) : Prop :=
  match f with
  | None => o = None
  | Some (FStr s) => exists x, o = Some x /\ json_string x = Some s
  | Some (FArr l) => exists x xs, o = Some x /\ json_string x = None /\ json_array x = Some xs /\ json_string <$> xs = Some <$> l
  end.
End Json.

Class CJsonLaws (J : Type) `{CJson J} := {
  parse_printed fs s :
    Forall (fun kv => c_str kv.1 /\ field_ok kv.2) fs -> json_print (json_of fs) = Some s ->
    c_str s /\ exists j, json_parse s = Some j /\ forall k, holds_field (json_get j k) (member k fs)
}.

(** ** Messages *)

Inductive sig_msg_type_t :=
| SIG_MSG_JOIN
| SIG_MSG_LEAVE
| SIG_MSG_JOINED
| SIG_MSG_PEER_JOINED
| SIG_MSG_PEER_LEFT
| SIG_MSG_OFFER
| SIG_MSG_ANSWER
| SIG_MSG_CANDIDATE
| SIG_MSG_ERROR
| SIG_MSG_UNKNOWN.

#[export] Instance sig_type_eq_dec : EqDecision sig_msg_type_t.
Proof. solve_decision. Defined.

Definition SIG_MAX_PEER_ID : Z := 16.
Definition SIG_MAX_MEETING : Z := 64.
Definition SIG_MAX_PEERS : Z := 8.
Definition SIG_MAX_SDP : Z := 4096.
Definition SIG_MAX_CANDIDATE : Z := 256.
Definition SIG_MAX_ERROR_MSG : Z := 128.

(** [peers]: the first [peer_count] entries *)
Record sig_msg_t := SigMsg {
  type : sig_msg_type_t;
  meeting : bytes;
  peer_id : bytes;
  peers : list bytes;
  to : bytes;
  from : bytes;
  sdp : bytes;
  candidate : bytes;
  error_msg : bytes
}.

Definition type_strings : list (bytes * sig_msg_type_t) :=
  [(str "join", SIG_MSG_JOIN); (str "leave", SIG_MSG_LEAVE); (str "joined", SIG_MSG_JOINED);
   (str "peer_joined", SIG_MSG_PEER_JOINED); (str "peer_left", SIG_MSG_PEER_LEFT); (str "offer", SIG_MSG_OFFER);
   (str "answer", SIG_MSG_ANSWER); (str "candidate", SIG_MSG_CANDIDATE); (str "error", SIG_MSG_ERROR)].

Definition type_string (t : sig_msg_type_t) : bytes :=
  match List.find (fun x => bool_decide (x.2 = t)) type_strings with Some x => x.1 | None => [] end.
Definition type_from_string (s : bytes) : sig_msg_type_t :=
  match List.find (fun x => bool_decide (x.1 = s)) type_strings with Some x => x.2 | None => SIG_MSG_UNKNOWN end.

(** [a_field i]: member [i] of the object; [a_item i]: element [i] of the array *)
Record json_alloc := JsonAlloc { a_object : bool; a_field : nat -> bool; a_item : nat -> bool }.
Definition all_alloc : json_alloc := JsonAlloc true (fun _ => true) (fun _ => true).

Section Build.
Context {J : Type} {cj : CJson J}.

Fixpoint keep_from {A} (i : nat) (ok : nat -> bool) (l : list A) : list A :=
  match l with
  | [] => []
  | x :: l => let l := keep_from (S i) ok l in if ok i then x :: l else l
  end.
Definition keep {A} (ok : nat -> bool) (l : list A) : list A := keep_from 0 ok l.

(** [make_base], the additions and [finish]; what is not allocated is left out *)
Definition sig_build (a : json_alloc) (t : sig_msg_type_t) (fs : list (bytes * json_field)) : option bytes :=
  if a_object a then json_print (json_of (keep (a_field a) ((str "type", FStr (type_string t)) :: fs))) else None.

Definition sig_msg_build_join a (m : bytes) := sig_build a SIG_MSG_JOIN [(str "meeting", FStr m)].
Definition sig_msg_build_leave a := sig_build a SIG_MSG_LEAVE [].
Definition sig_msg_build_offer a (t s : bytes) := sig_build a SIG_MSG_OFFER [(str "to", FStr t); (str "sdp", FStr s)].
Definition sig_msg_build_answer a (t s : bytes) := sig_build a SIG_MSG_ANSWER [(str "to", FStr t); (str "sdp", FStr s)].
Definition sig_msg_build_candidate a (t c : bytes) :=
  sig_build a SIG_MSG_CANDIDATE [(str "to", FStr t); (str "candidate", FStr c)].
Definition sig_msg_build_joined a (p : bytes) (l : list bytes) :=
  sig_build a SIG_MSG_JOINED [(str "peer_id", FStr p); (str "peers", FArr (keep (a_item a) l))].
Definition sig_msg_build_peer_joined a (p : bytes) := sig_build a SIG_MSG_PEER_JOINED [(str "peer_id", FStr p)].
Definition sig_msg_build_peer_left a (p : bytes) := sig_build a SIG_MSG_PEER_LEFT [(str "peer_id", FStr p)].
Definition sig_msg_build_relay_offer a (f s : bytes) := sig_build a SIG_MSG_OFFER [(str "from", FStr f); (str "sdp", FStr s)].
Definition sig_msg_build_relay_answer a (f s : bytes) := sig_build a SIG_MSG_ANSWER [(str "from", FStr f); (str "sdp", FStr s)].
Definition sig_msg_build_relay_candidate a (f c : bytes) :=
  sig_build a SIG_MSG_CANDIDATE [(str "from", FStr f); (str "candidate", FStr c)].
Definition sig_msg_build_error a (m : bytes) := sig_build a SIG_MSG_ERROR [(str "message", FStr m)].

(** ** Parsing *)

(** an array is zero before: without a string it stays empty *)
Definition safe_copy (size : Z) (item : option J) : bytes :=
  match item with
  | Some x => match json_string x with Some s => cut size s | None => [] end
  | None => []
  end.

Definition parse_peers (item : option J) : list bytes :=
  match item with
  | Some x => match json_array x with
              | Some l => (fun i => safe_copy SIG_MAX_PEER_ID (Some i)) <$> take (Z.to_nat SIG_MAX_PEERS) l
              | None => []
              end
  | None => []
  end.

(** [None]: -1 *)
Definition sig_msg_parse (json : bytes) : option sig_msg_t :=
  root ← json_parse json;
  t ← (x ← json_get root (str "type"); json_string x);
  let ty := type_from_string t in
  let get k n := safe_copy n (json_get root k) in
  let peer := get (str "peer_id") SIG_MAX_PEER_ID in
  let t := get (str "to") SIG_MAX_PEER_ID in
  let f := get (str "from") SIG_MAX_PEER_ID in
  match ty with
  | SIG_MSG_UNKNOWN => None
  | SIG_MSG_JOIN => Some (SigMsg ty (get (str "meeting") SIG_MAX_MEETING) [] [] [] [] [] [] [])
  | SIG_MSG_LEAVE => Some (SigMsg ty [] [] [] [] [] [] [] [])
  | SIG_MSG_JOINED => Some (SigMsg ty [] peer (parse_peers (json_get root (str "peers"))) [] [] [] [] [])
  | SIG_MSG_PEER_JOINED | SIG_MSG_PEER_LEFT => Some (SigMsg ty [] peer [] [] [] [] [] [])
  | SIG_MSG_OFFER | SIG_MSG_ANSWER => Some (SigMsg ty [] [] [] t f (get (str "sdp") SIG_MAX_SDP) [] [])
  | SIG_MSG_CANDIDATE => Some (SigMsg ty [] [] [] t f [] (get (str "candidate") SIG_MAX_CANDIDATE) [])
  | SIG_MSG_ERROR => Some (SigMsg ty [] [] [] [] [] [] [] (get (str "message") SIG_MAX_ERROR_MSG))
  end.
End Build.

(** ** What is sent is what is read *)

(** the messages of the protocol; [To] from a client, [From] from the server *)
Inductive message :=
| Join (m : bytes)
| Leave
| OfferTo (t s : bytes)
| AnswerTo (t s : bytes)
| CandidateTo (t c : bytes)
| Joined (p : bytes) (l : list bytes)
| PeerJoined (p : bytes)
| PeerLeft (p : bytes)
| OfferFrom (f s : bytes)
| AnswerFrom (f s : bytes)
| CandidateFrom (f c : bytes)
| ErrorMsg (m : bytes).

Definition build {J} {cj : CJson J} (a : json_alloc) (x : message) : option bytes :=
  match x with
  | Join m => sig_msg_build_join a m
  | Leave => sig_msg_build_leave a
  | OfferTo t s => sig_msg_build_offer a t s
  | AnswerTo t s => sig_msg_build_answer a t s
  | CandidateTo t c => sig_msg_build_candidate a t c
  | Joined p l => sig_msg_build_joined a p l
  | PeerJoined p => sig_msg_build_peer_joined a p
  | PeerLeft p => sig_msg_build_peer_left a p
  | OfferFrom f s => sig_msg_build_relay_offer a f s
  | AnswerFrom f s => sig_msg_build_relay_answer a f s
  | CandidateFrom f c => sig_msg_build_relay_candidate a f c
  | ErrorMsg m => sig_msg_build_error a m
  end.

(** the parsed form; strings that do not fit are cut *)
Definition parsed (x : message) : sig_msg_t :=
  let id := cut SIG_MAX_PEER_ID in
  match x with
  | Join m => SigMsg SIG_MSG_JOIN (cut SIG_MAX_MEETING m) [] [] [] [] [] [] []
  | Leave => SigMsg SIG_MSG_LEAVE [] [] [] [] [] [] [] []
  | OfferTo t s => SigMsg SIG_MSG_OFFER [] [] [] (id t) [] (cut SIG_MAX_SDP s) [] []
  | AnswerTo t s => SigMsg SIG_MSG_ANSWER [] [] [] (id t) [] (cut SIG_MAX_SDP s) [] []
  | CandidateTo t c => SigMsg SIG_MSG_CANDIDATE [] [] [] (id t) [] [] (cut SIG_MAX_CANDIDATE c) []
  | Joined p l => SigMsg SIG_MSG_JOINED [] (id p) (id <$> take (Z.to_nat SIG_MAX_PEERS) l) [] [] [] [] []
  | PeerJoined p => SigMsg SIG_MSG_PEER_JOINED [] (id p) [] [] [] [] [] []
  | PeerLeft p => SigMsg SIG_MSG_PEER_LEFT [] (id p) [] [] [] [] [] []
  | OfferFrom f s => SigMsg SIG_MSG_OFFER [] [] [] [] (id f) (cut SIG_MAX_SDP s) [] []
  | AnswerFrom f s => SigMsg SIG_MSG_ANSWER [] [] [] [] (id f) (cut SIG_MAX_SDP s) [] []
  | CandidateFrom f c => SigMsg SIG_MSG_CANDIDATE [] [] [] [] (id f) [] (cut SIG_MAX_CANDIDATE c) []
  | ErrorMsg m => SigMsg SIG_MSG_ERROR [] [] [] [] [] [] [] (cut SIG_MAX_ERROR_MSG m)
  end.

Definition texts (x : message) : list bytes :=
  match x with
  | Join m | PeerJoined m | PeerLeft m | ErrorMsg m => [m]
  | Leave => []
  | OfferTo t s | AnswerTo t s | CandidateTo t s | OfferFrom t s | AnswerFrom t s | CandidateFrom t s => [t; s]
  | Joined p l => p :: l
  end.

Section Roundtrip.
Context {J : Type} {cj : CJson J} {laws : CJsonLaws J}.

Lemma keep_all {A} (l : list A) : keep (fun _ => true) l = l.
Proof. unfold keep. generalize 0%nat. induction l as [|x l IH]; intros n; cbn; [done|]. by rewrite IH. Qed.

Lemma copy_member (o : option J) f n : holds_field o f -> safe_copy n o = match f with Some (FStr s) => cut n s | _ => [] end.
Proof.
  destruct f as [[s|l]|]; cbn.
  - intros (x & -> & E). cbn. by rewrite E.
  - intros (x & xs & -> & E & _). cbn. by rewrite E.
  - by intros ->.
Qed.

Lemma peers_member (o : option J) l :
  holds_field o (Some (FArr l)) -> parse_peers o = cut SIG_MAX_PEER_ID <$> take (Z.to_nat SIG_MAX_PEERS) l.
Proof.
  intros (x & xs & -> & _ & Ea & Es). cbn [parse_peers]. rewrite Ea. clear Ea. revert l Es. generalize (Z.to_nat SIG_MAX_PEERS).
  induction xs as [|y xs IH]; intros n [|s l] Es; try discriminate Es; [by destruct n|]. injection Es as Ey Es.
  destruct n as [|n]; [done|]. cbn [take fmap list_fmap]. cbn [safe_copy]. rewrite Ey. f_equal. by apply IH.
Qed.

Lemma type_text t : t <> SIG_MSG_UNKNOWN -> type_from_string (type_string t) = t /\ c_str (type_string t).
Proof. intros Ht. destruct t; try done; (split; [by vm_compute|]; by apply (bool_decide_eq_true_1 (Forall (fun b => 0 < b < 256) _))). Qed.

(** the members of a message that was built *)
Lemma built_members t fs s :
  t <> SIG_MSG_UNKNOWN -> Forall (fun kv => c_str kv.1 /\ field_ok kv.2) fs -> sig_build all_alloc t fs = Some s ->
  exists j, json_parse s = Some j /\ forall k, holds_field (json_get j k) (member k ((str "type", FStr (type_string t)) :: fs)).
Proof.
  intros Ht Hfs E. unfold sig_build, all_alloc in E. cbn [a_object a_field] in E. rewrite keep_all in E.
  apply (parse_printed (J := J)) in E as [_ Hj]; [done|]. constructor; [|done]. split; [|by apply type_text].
  by apply (bool_decide_eq_true_1 (Forall (fun b => 0 < b < 256) _)).
Qed.

Lemma c_str_name k : forallb (fun b => (0 <? b) && (b <? 256)) k = true -> c_str k.
Proof.
  intros E. apply Forall_forall. intros b Hb. rewrite forallb_forall in E. specialize (E b Hb). lia.
Qed.

(** Every message of the protocol that the build functions make parses to
    the same type and fields (a string longer than its field is cut, a list of
    peers after the eighth), and only the fields of its type are set. *)
Theorem signaling_message_roundtrip (x : message) (s : bytes) :
  Forall c_str (texts x) -> build all_alloc x = Some s -> sig_msg_parse s = Some (parsed x).
Proof.
  assert (forall t fs, t <> SIG_MSG_UNKNOWN -> Forall (fun kv => c_str kv.1 /\ field_ok kv.2) fs -> sig_build all_alloc t fs = Some s ->
    exists j, json_parse s = Some j /\ (x ← json_get j (str "type"); json_string x) = Some (type_string t) /\ type_from_string (type_string t) = t /\
      (forall k n, safe_copy n (json_get j k) = match member k ((str "type", FStr (type_string t)) :: fs) with Some (FStr s) => cut n s | _ => [] end) /\
      forall k l, member k ((str "type", FStr (type_string t)) :: fs) = Some (FArr l) ->
        parse_peers (json_get j k) = cut SIG_MAX_PEER_ID <$> take (Z.to_nat SIG_MAX_PEERS) l) as Hread.
  { intros t fs Ht Hfs E. destruct (built_members t fs s Ht Hfs E) as (j & Ej & Hj). exists j. split; [done|].
    destruct (Hj (str "type")) as (y & Ey & Es). rewrite Ey. split; [exact Es|]. split; [by apply type_text|]. split.
    - intros k n. apply copy_member, Hj.
    - intros k l Hl. apply peers_member. rewrite <-Hl. apply Hj. }
  intros Hx E.
  destruct x as [m| |t u|t u|t u|p l|p|p|t u|t u|t u|m]; cbn [texts build] in *;
    (apply Hread in E as (j & Ej & Et & Ef & Hc & Hp); [|done|]; cycle 1;
     [rewrite ?Forall_cons_iff in Hx; repeat apply Forall_cons_2; try (by apply Forall_nil_2);
      (split; [by apply c_str_name|cbn; rewrite ?keep_all; by destruct_and?])|
      unfold sig_msg_parse; rewrite Ej; cbn [mbind option_bind]; cbn [mbind option_bind] in Et; rewrite Et; cbn [mbind option_bind]; rewrite Ef; cbv beta iota zeta; rewrite ?Hc;
      try (match goal with |- context [parse_peers (json_get j ?k)] => erewrite (Hp k) by reflexivity end; rewrite keep_all); reflexivity]).
Qed.
End Roundtrip.

(** ** A model of cJSON

    Objects of strings and arrays of strings, printed with one tag byte before
    each part and each character. *)

Inductive item := IStr (s : bytes) | IArr (l : list bytes) | IObj (fs : list (bytes * json_field)).

Definition put_str (s : bytes) : bytes := flat_map (fun b => [1; b]) s ++ [2].
Definition put_list (l : list bytes) : bytes := flat_map (fun s => 3 :: put_str s) l ++ [4].
Definition put_field (f : json_field) : bytes := match f with FStr s => 5 :: put_str s | FArr l => 6 :: put_list l end.
Definition put_object (fs : list (bytes * json_field)) : bytes := flat_map (fun kv => 7 :: put_str kv.1 ++ put_field kv.2) fs ++ [8].

(** each reader returns the value and the rest; the fuel is the length of the text *)
Fixpoint get_str (n : nat) (l : bytes) : option (bytes * bytes) :=
  match n, l with
  | S _, 2 :: r => Some ([], r)
  | S n, 1 :: b :: r => '(s, r) ← get_str n r; Some (b :: s, r)
  | _, _ => None
  end.
Fixpoint get_list (n : nat) (l : bytes) : option (list bytes * bytes) :=
  match n, l with
  | S _, 4 :: r => Some ([], r)
  | S n, 3 :: r => '(s, r) ← get_str n r; '(t, r) ← get_list n r; Some (s :: t, r)
  | _, _ => None
  end.
Definition get_field (n : nat) (l : bytes) : option (json_field * bytes) :=
  match l with
  | 5 :: r => '(s, r) ← get_str n r; Some (FStr s, r)
  | 6 :: r => '(t, r) ← get_list n r; Some (FArr t, r)
  | _ => None
  end.
Fixpoint get_object (n : nat) (l : bytes) : option (list (bytes * json_field)) :=
  match n, l with
  | S _, [8] => Some []
  | S n, 7 :: r => '(k, r) ← get_str n r; '(f, r) ← get_field n r; fs ← get_object n r; Some ((k, f) :: fs)
  | _, _ => None
  end.

Definition add_member (k : bytes) (f : json_field) (j : item) : item :=
  match j with IObj fs => IObj (fs ++ [(k, f)]) | _ => j end.

#[export] Instance item_json : CJson item := {|
  json_object := IObj [];
  json_add_string k s := add_member k (FStr s);
  json_add_strings k l := add_member k (FArr l);
  json_print j := match j with IObj fs => Some (put_object fs) | _ => None end;
  json_parse s := IObj <$> get_object (S (length s)) s;
  json_get j k := match j with
                  | IObj fs => (fun f => match f with FStr s => IStr s | FArr l => IArr l end) <$> member k fs
                  | _ => None
                  end;
  json_string j := match j with IStr s => Some s | _ => None end;
  json_array j := match j with IArr l => Some (IStr <$> l) | _ => None end
|}.

Lemma get_put_str s n r : (length s < n)%nat -> get_str n (put_str s ++ r) = Some (s, r).
Proof.
  revert n. induction s as [|b s IH]; intros [|n] Hn; cbn in *; try lia; [done|]. change (flat_map (fun b => [1; b]) s ++ [2]) with (put_str s).
  rewrite IH by lia. done.
Qed.

Lemma put_str_length s : length (put_str s) = (2 * length s + 1)%nat.
Proof. unfold put_str. rewrite length_app. induction s as [|b s IH]; [done|]. cbn in *. lia. Qed.

Lemma get_put_list l n r : (length (put_list l) <= n)%nat -> get_list n (put_list l ++ r) = Some (l, r).
Proof.
  revert n. induction l as [|s l IH]; intros [|n] Hn; [cbn in Hn; lia|done|cbn in Hn; lia|].
  assert (put_list (s :: l) = 3 :: put_str s ++ put_list l) as E by (unfold put_list; cbn; by rewrite (assoc_L (++))).
  rewrite E in *. cbn [length] in Hn. rewrite length_app, put_str_length in Hn. cbn [app get_list]. rewrite <-(assoc_L (++)).
  rewrite get_put_str by lia. cbn. rewrite IH by lia. done.
Qed.

Lemma get_put_field f n r : (length (put_field f) <= n)%nat -> get_field n (put_field f ++ r) = Some (f, r).
Proof.
  destruct f as [s|l]; cbn [put_field length]; intros Hn; cbn [app get_field].
  - rewrite put_str_length in Hn. rewrite get_put_str by lia. done.
  - rewrite get_put_list by lia. done.
Qed.

Lemma get_put_object fs n : (length (put_object fs) <= n)%nat -> get_object n (put_object fs) = Some fs.
Proof.
  revert n. induction fs as [|[k f] fs IH]; intros [|n] Hn; [cbn in Hn; lia|done|cbn in Hn; lia|].
  assert (put_object ((k, f) :: fs) = 7 :: put_str k ++ put_field f ++ put_object fs) as E by (unfold put_object; cbn; by rewrite !(assoc_L (++))).
  rewrite E in *. cbn [length] in Hn. rewrite !length_app, put_str_length in Hn. cbn [get_object].
  rewrite get_put_str by lia. cbn. rewrite get_put_field by lia. cbn. rewrite IH by lia. done.
Qed.

Lemma json_of_members fs : json_of (J := item) fs = IObj fs.
Proof.
  unfold json_of. change json_object with (IObj []). change (IObj fs) with (IObj ([] ++ fs)). generalize (@nil (bytes * json_field)).
  induction fs as [|[k f] fs IH]; intros l; [by rewrite app_nil_r|]. cbn [foldl].
  rewrite cons_middle, (assoc_L (++)), <-IH. f_equal. by destruct f.
Qed.

Lemma put_object_c_str fs : Forall (fun kv => c_str kv.1 /\ field_ok kv.2) fs -> c_str (put_object fs).
Proof.
  assert (forall s, c_str s -> c_str (put_str s)) as Hs.
  { intros s H. apply Forall_app. split; [|by repeat constructor]. induction H; cbn; [constructor|]. do 2 (constructor; [lia|]). done. }
  assert (forall f, field_ok f -> c_str (put_field f)) as Hf.
  { intros [s|l] H; cbn in *; constructor; [lia|by apply Hs|lia|]. apply Forall_app. split; [|by repeat constructor].
    induction H as [|s l H Hl IH]; cbn; [constructor|]. constructor; [lia|]. apply Forall_app. split; [by apply Hs|done]. }
  intros H. apply Forall_app. split; [|by repeat constructor]. induction H as [|[k f] fs [Hk Hv] _ IH]; cbn; [constructor|].
  constructor; [lia|]. apply Forall_app. split; [|done]. apply Forall_app. split; [by apply Hs|by apply Hf].
Qed.

#[export] Instance item_json_laws : CJsonLaws item.
Proof.
  constructor. intros fs s Hfs E. rewrite json_of_members in E. injection E as <-. split; [by apply put_object_c_str|].
  exists (IObj fs). split; [cbn [json_parse item_json]; rewrite get_put_object by lia; done|].
  intros k. cbn [json_get item_json]. destruct (member k fs) as [[t|l]|]; cbn; [by eexists| |done].
  exists (IArr l), (IStr <$> l). repeat split. clear. induction l as [|t l IH]; [done|]. cbn. f_equal. exact IH.
Qed.

(** two peers are in the meeting; the second id is longer than its field *)
Lemma signaling_message_roundtrip_witness :
  exists s, build (J := item) all_alloc (Joined (str "ab12") [str "cd34"; str "0123456789abcdefXYZ"]) = Some s /\
    sig_msg_parse (J := item) s = Some (SigMsg SIG_MSG_JOINED [] (str "ab12") [str "cd34"; str "0123456789abcde"] [] [] [] [] []).
Proof.
  eexists. split; [vm_compute; reflexivity|].
  refine (signaling_message_roundtrip (J := item) (Joined (str "ab12") [str "cd34"; str "0123456789abcdefXYZ"]) _ _ _); [|vm_compute; reflexivity].
  repeat (apply Forall_cons_2; [by apply c_str_name|]). apply Forall_nil_2.
Defined.
End SigMsg.
